(* ===== verification/_CoqProject ===== *)
-Q . S2P
Prelude.v
Types.v
GoalStore.v
GoalEngine.v
GoalCycles.v
GoalWaits.v
GoalInvariant.v
GoalLive.v
GoalGraph.v
GoalTotal.v
GoalProgress.v
GoalStable.v
GoalTheorems.v
Json.v
JsonText.v
ClientPayload.v
JsonRoundtrip.v
Cells.v
CellState.v
CellTheorems.v
Base64.v
Delegation.v
Grants.v
Metadata.v
Chapters.v
Digest.v
Schedule.v
ScheduleRuns.v
ScheduleTheorems.v
ToyState.v
ToyLease.v
ToyChapters.v
ToyPrepare.v
ToySubmit.v
ToySchedule.v
DelegationServer.v
Paging.v
JobFilters.v
ToyListing.v
Discovery.v
CellPages.v
ToyRestart.v
ToyRun.v
ToyMoves.v
ToyTables.v
ToyLifecycle.v
ToyHistory.v
ToyWorld.v
ToyGoals.v
ToyGoalSteps.v
ToyPhases.v
ToyAcquire.v
ToyPreflight.v
ToyScheduleLife.v
ToyScenario.v
ToyTheorems.v
DelegationTheorems.v
ToyGoalTheorems.v
ListingTheorems.v
ToyScheduleTheorems.v
ToyEffects.v
Spelling.v
DelegationScenario.v
ListingScenario.v
WfErrors.v
WfHistory.v
WfRun.v
WfProgram.v
WfJob.v
WfMoves.v
WfLog.v
WfReadable.v
WfSound.v
WfJobLog.v
WfFuel.v
WfNames.v
WfCalls.v
WfOnce.v
WfTheorems.v
WfScenario.v
