(* ===== verification/Prelude.v ===== *)
(** * JobDB: a verification development

    JobDB ([src/pkg/jobdb]) is a durable job runtime written in Go.  A tenant's jobs
    live in cells; a job is submitted with a goal and with dependencies on other
    jobs and goals; workers poll for ready jobs, hold them under expiring leases,
    append chapters to their history, hand them back, wait for external tasks, and
    complete them.  Schedules submit jobs at cron or interval times.  A workflow
    engine ([src/pkg/workflow]) runs programs as jobs: it writes what they do to the
    job's chapters and replays it when a job is taken up again.

    ** Parts of the program and the files that model them

    - Vocabulary ([types.go], [route.go], [goals.go]): [Types].
    - Goals and dependency waits ([internal/goalstate]): the in-memory store
      [GoalStore] ([memory.go], with a class of store operations and a class of
      their laws), the engine [GoalEngine] ([state.go]: Register, Add, Fail,
      Complete, CloseConsumer, Evaluate, SettleTarget, CheckCycle) over any store
      of the class.  [GoalCycles] relates CheckCycle to reachability of cycles,
      [GoalWaits] and [GoalInvariant] show that every operation only moves goals
      and waits forward, [GoalLive] that no wake-up is lost, [GoalGraph] that the
      dependency graph stays acyclic, [GoalTotal] that Complete never fails on the
      in-memory store; [GoalTheorems] states the claims.  [GoalProgress] and
      [GoalStable] prepare the use of the engine by a runtime: an acyclic graph of
      dependencies always leads to something that can still happen, and one
      invariant that survives what a runtime does to jobs and goals in between.
    - Client payloads ([clientpayload/payload.go]): [Json] is the decoder and encoder
      with Go's limits, [JsonText] the grammars of their text, [ClientPayload] the
      compare-and-swap of patches and resets, [JsonRoundtrip] that decoding undoes
      encoding, [Digest] the canonical text whose hash identifies a payload.
    - Cells ([cells.go], [runtime/cellstate]): [Cells] has types, authority and
      validation, [CellState] the registry of a tenant, [CellTheorems] its claims.
    - Metadata predicates and chapters ([internal/jobmetadata], [toyimpl/toy.go],
      [chapter.go], [chapter_payload.go]): [Metadata], [Chapters].
    - Schedules ([schedule.go], [schedule_trigger.go]): [Schedule] has triggers and
      failure policy, with the claims in [ScheduleTheorems]; [ScheduleRuns] has the
      requests and their validation, run IDs, the metadata of an occurrence, the
      hash of a specification and the snapshot of a target.
    - The in-memory runtime ([runtime/toy/internal/toyimpl]), which composes all of
      the above: [ToyState] (tables and job record of [toy.go]), [ToyLease]
      (scheduling status, acquisition, renewal, cancellation, crash concern,
      deletion), [ToyChapters] (histories, completion, rescheduling, external
      tasks), [ToyPrepare] (what is computed from a submission before it is published),
      [ToySubmit] (goals, cells, reservations, publication), [ToySchedule] (schedules,
      their occurrences and the preflight, hence the whole of [PollWork] and
      [GetJobLease]), [ToyRestart].  [ToyRun] makes it a transition system.
    - Lease credentials and delegation ([delegation.go], and of [runtime/remote]:
      [lease_token.go], [attenuation.go], [delegation_token.go], [delegation_server.go],
      [delegation.go]): [Base64], [Delegation] (policies, their validation and
      comparison), [Grants] (owner credentials, chains of restrictions, derivation),
      [DelegationServer] (the boundary of the HTTP server, over any runtime and over
      the in-memory one), claims in [DelegationTheorems], a run in
      [DelegationScenario].

    - Listings: [Paging] has what reading any listing page by page achieves;
      [JobFilters] the requests, metadata filters and page tokens ([list_jobs.go],
      [route.go], [runtime/cellstate/job_cursor.go]); [ToyListing] the listings of
      jobs, schedules and runs, and the readers of one job and its chapters;
      [Discovery] those of goals and dependency waits ([goal_discovery.go], in
      [jobdb] and [toyimpl]); [CellPages] that of cells ([cellstate.State.List]).
      Claims in [ListingTheorems], concrete runs in [ListingScenario]; [Spelling] has
      the texts that both scenarios encode with.

    - The workflow engine ([workflow/execution_*.go], [worker_runner.go],
      [worker_retry.go], [worker_envelope.go], [support_helpers.go], and the records
      of [jobdb/execution.go]): [WfErrors] (errors as the engine tells them apart,
      payloads of failures, retry policies), [WfHistory] (paths, descriptors,
      snapshots, the records of the log and the chapters that hold them), [WfRun]
      (the state of an execution, deadlines, suspension, and the log itself:
      [peekLocked], [recordEvent], [appendLocked], [activateLocked]), [WfProgram]
      (programs and what their calls do: scopes, catch rules, retries, tasks run
      here or elsewhere, waits for time, jobs and dependencies), [WfJob]
      ([runExecution]: loading a history, admission, the body, completion).

    ** How the runtime is modelled

    Requests run concurrently under one engine mutex.  A definition named after a Go
    function is the function; where it releases the mutex, its critical sections are
    definitions of their own and the function runs them in order.  [ToyRun.section]
    lists the critical sections, [exec] what each does to the engine, and [step] lets
    any request run its next section at any time with a clock that does not go back
    and with generated identifiers that are new and not blank: every interleaving of requests is a
    sequence of steps.  [reachable] worlds are those such sequences reach.
    A definition that composes sections, such as [PollWork], reads one clock for all
    of them; [step] does not.

    State is a record per Go struct with maps as [gmap]s; stateful code is a state
    and error monad [M S A := S → S * result A] that keeps what was written before an
    error, as Go does.  A map that Go ranges over is listed in an order the class
    [RangeOrder] leaves open.  Times are nanoseconds since year 1 as [Z], and
    durations are int64 nanoseconds as [Z].

    ** How the workflow engine is modelled

    User code is a value of [WfProgram.prog]: the tree of the calls it makes on its
    [ExecutionContext], with a continuation for each answer.  Ordinary Go code
    between two calls is any function of the answers before it.  The tree makes its
    calls one after the other, as the code demands ([ErrConcurrentCall] is for those
    that do not).  The interpreter [run] threads the [executionRun] of one lease: the
    history that is left, the records that wait, the chapters written, the armed
    timers, and a trace of the effects (chapters put, workers run, suspensions,
    completion).  It is a monad of state and errors in which, as in Go, an error does
    not undo what was written before.  Everything outside the execution (clock,
    storage, workers, other jobs, the goal engine as this job sees it) is an oracle,
    [WfRun.World], that may answer each call differently.  A crash is a prefix of
    the trace; taking the job up again is [runExecution] on the chapters of the
    prefix.

    [WfMoves] has the triples the engine is reasoned with ([wp], [steps]) and shows
    the few ways the log can move; [WfLog] that all of the engine moves it so;
    [WfReadable] and [WfSound] that what is written can be read back; [WfJobLog] what
    a job is completed with; [WfFuel] that the loops end; [WfNames], [WfCalls] and
    [WfOnce] which paths calls use, hence that nothing is executed twice.
    [WfTheorems] states the claims, [WfScenario] is one workflow they are tried on.

    ** What the theorems show

    - Goals: CheckCycle answers exactly whether a dependency cycle is reachable;
      no lost wake-ups; goals and waits only move forward; graphs stay acyclic;
      Complete, Fail, Register and Evaluate do what they say ([GoalTheorems]).
    - Payloads, cells, schedules: compare-and-swap with bounded revisions, RFC 7396
      merging, round trips of payload text, unique and stable names, guarded and idempotent registry updates,
      selection within authority, earliest fire times, the sliding failure window.
    - Runtime: [ToyMoves] lists what any section can do to one record and shows that
      no section does anything else; [ToyTables], [ToyLifecycle] and [ToyHistory]
      prove the invariant from it; [ToyWorld], [ToyPhases] and [ToyAcquire] draw the
      consequences; [ToyTheorems] states the promises in every reachable world
      (lost leases stay lost and every request begun under one is refused, live
      leases exclude others, how a job was closed is final, histories only grow,
      crash concern holds jobs back, and the runtime refines
      the life cycle queued / held / ended), and [ToyEffects] that single sections
      are all or nothing and that a task is answered once.  A request whose checks
      came before a lease was lost or a job closed still stores its chapter, and an
      outcome chapter then replaces the result and error of the closed job
      ([late_outcome_overwrites]).  [ToyScenario] is one concrete run they are tried on.
    - Goals in the runtime: [ToyGoals] and [ToyGoalSteps] carry the invariant of
      [GoalStable] through every section; [ToyGoalTheorems] concludes that in every
      reachable world no wake-up is lost, dependencies never deadlock, and
      cancelling, completing or deleting a job never fails because of its goals.
      They ask that job IDs are not blank ([named_jobs]; [named] for the engine
      alone), and [blank_id_loses_wakeup] shows what happens otherwise.

    - Schedules in the runtime: [ToyScheduleLife] follows one schedule through every
      sequence of sections and [ToyPreflight] the operations a preflight composes;
      [ToyScheduleTheorems] concludes that schedules are never lost, generations only
      grow, archived schedules stay so and a specification only changes with its
      generation; that a worker gets an occurrence only when the specification wants
      it or in one of two cases in which the code departs from it (the end of the
      schedule, and the pause reason cell_repo_mismatch); and that [PollWork] hands
      out what it should.  Its examples show what the preflight lets through.
    - Delegation: selectors are compared exactly, chains of restrictions only narrow,
      a derived grant lets through nothing its source does not, owner credentials end
      before their lease, and grants die with their lease whatever the runtime does.

    - Listings: whatever happens to the runtime between two pages, following the page
      tokens shows rows in order and none twice, misses none that stays, and ends
      (for jobs, as long as no two are spelled alike: [listable]).
      What a metadata filter means is what its predicates match ([filter_predicates]).

    - Workflow engine: whatever programs, workers and storage do, the chapters of an
      execution can be loaded again at any moment; a job succeeds only through an
      execution without a mismatch or a failed write that consumed its whole history;
      no attempt is executed twice or although its result is recorded; every execution
      ends.

    ** Fuel and bounds

    CheckCycle recurses with fuel one more than the number of nodes the store can
    name; [check_cycle_correct] shows that it never runs out.  The JSON decoder has
    Go's depth and size limits and fuel the length of its input.  The cron search
    has the code's own window; the loop over the values of a field steps in int64
    and ends within its fuel ([cron_loop_ends]).  Client payload revisions stay within an int64.
    The loop of attempts of the workflow engine has fuel for the records left and
    [MaximumAttempts], the loop over recorded dispatches for the records left;
    [executions_end] shows that it is enough.

    ** Parameters

    What the code takes from libraries is a class that theorems quantify over:
    [CellText] (net/url, strings.ToLower, encoding/json), [ChapterChecks] (JSON
    schemas, size limit, execution records, SHA-256), [FloatText] (float64
    formatting), [TimeZones] (zone offsets), [ScheduleText] (times in JSON, the
    text of a specification that is hashed), [JSONDecoding] (the text of a task's
    input), [RangeOrder] (map iteration), [Macaroons], [GrantKeys] and [GrantText]
    (macaroon.v2, HKDF and HMAC, the JSON texts that are signed), [RequestBodies]
    (generated decoders of request bodies), [LeaseChecker] (the runtime behind the
    delegation server), [PageText], [DiscoveryText] and [CellCursorText] (the JSON
    texts of page tokens and queries), [BackoffMath] (floating-point backoff),
    [FailureText] and [ExecutionText] (texts of errors, hashes and identities of
    executions).

    ** Not modelled

    The SQLite, durable and remote runtimes are further implementations behind SQL
    engines, stores and HTTP; of the remote one only its credentials are modelled.
    Generated code, protobuf, chapter and blob stores,
    secrets, plugins, configuration and the command line are left out.  Of the
    workflow engine: the worker loop and the sessions that renew leases, restarts and
    continuations, progress observers, [Yield], secrets, configuration and job
    submission from orchestration, what task workers do through their own context,
    the bytes and storage keys of artifacts, and calls made concurrently.
    Of the in-memory runtime: the report of a job's run
    ([GetJobRun]), the schema registry, and the parts of [SubmitJob] and
    [SubmitRestartJob] around their critical sections (schema resolution, waiting
    for the source of a restart).  Each critical section reads the clock once; contexts are never cancelled within a section; record mutexes are
    treated as re-entrant ([availableStatusLocked] can lock the record it already
    holds when a job waits for itself).  Metadata, payloads and descriptors are
    JSON values where the code keeps canonical text. *)

From stdpp Require Export base tactics list gmap strings relations sorting.
From Stdlib Require Export ZArith Lia.

(** ** Record update

    Go code mutates structs field by field.  [r <| f := v |>] is the record [r]
    with the field [f] replaced; the setter is built from an eta-expansion of the
    record, registered once per record type as an instance of [Eta]. *)
Class Eta (R : Type) := eta_expand : R → R.

Class Setter {R T : Type} (getter : R → T) := setf : (T → T) → R → R.
Arguments setf {R T} getter {_} _ _ /.

Ltac build_setter getter :=
  match goal with
  | |- Setter (R := ?R) (T := ?T) _ =>
      let inst := constr:(_ : Eta R) in
      let body := constr:(fun (r : R) => ltac:(
        let h := eval hnf in inst in
        let t := eval cbv beta in (h r) in exact t)) in
      exact (fun (upd : T → T) (r : R) => ltac:(
        let t := eval cbv beta in (body r) in
        let g := eval pattern (getter r) in t in
        match g with
        | ?F _ => let u := eval cbv beta in (F (upd (getter r))) in exact u
        end))
  end.

#[export] Hint Extern 1 (Setter ?getter) => build_setter getter : typeclass_instances.

Declare Scope jobdb_scope.
Delimit Scope jobdb_scope with jobdb.
Open Scope jobdb_scope.

#[warnings="-postfix-notation-not-level-1"]
Notation "r <| f := v |>" := (setf f (λ _, v) r)
  (at level 12, f at next level, left associativity) : jobdb_scope.

(** ** Errors

    One constructor per sentinel error the modelled packages compare against
    with [errors.Is]; an error that only carries a message is [ErrMsg].
    [ErrOutOfFuel] is the model's own: a recursion that exceeded its fuel. *)
Inductive cell_error :=
  | ErrInvalidCell | ErrCellForbidden | ErrCellNotFound | ErrCellConflict
  | ErrCellRepoMismatch | ErrCellRetired | ErrCellBusy | ErrCellRequestConflict
  | ErrCellPrecondition | ErrCellPreconditionRequired | ErrInvalidCellPageToken.

Inductive error :=
  | ErrJobNotFound
  | ErrChapterNotFound
  | ErrExecutionLeaseLost
  | ErrConflict
  | ErrExistingJobMismatch (message : string)
  | ErrGoalNotFound
  | ErrGoalConflict
  | ErrInvalidDependency
  | ErrDependencyWaitNotFound
  | ErrDependencyWaitConflict
  | ErrDependencyCycle
  | ErrInvalidPayload
  | ErrPayloadTooLarge
  | ErrJobCancelled
  | ErrContextCanceled
  | ErrLeasePermissionDenied
  | ErrCell (e : cell_error)
  | ErrMsg (message : string)
  | ErrOutOfFuel.

#[export] Instance cell_error_eq_dec : EqDecision cell_error.
Proof. solve_decision. Defined.
#[export] Instance error_eq_dec : EqDecision error.
Proof. solve_decision. Defined.

(** A Go [(T, error)] pair in which exactly one side is meaningful. *)
Inductive result (A : Type) :=
  | Ok (a : A)
  | Err (e : error).
Arguments Ok {A} a.
Arguments Err {A} e.

Definition rbind {A B} (m : result A) (f : A → result B) : result B :=
  match m with Ok a => f a | Err e => Err e end.
Notation "'let?' x := m 'in' k" := (rbind m (λ x, k))
  (at level 10, x pattern, k at level 200) : jobdb_scope.

(** [if cond then return err] *)
Definition guard_err (b : bool) (e : error) : result () :=
  if b then Ok tt else Err e.

Definition is_ok {A} (r : result A) : bool :=
  match r with Ok _ => true | Err _ => false end.

Definition of_option {A} (e : error) (o : option A) : result A :=
  match o with Some a => Ok a | None => Err e end.

Lemma bind_ok {A B} (m : result A) (f : A → result B) b :
  rbind m f = Ok b ↔ ∃ a, m = Ok a ∧ f a = Ok b.
Proof.
  destruct m as [a|e]; simpl; split; intros Hm.
  - by exists a.
  - by destruct Hm as (a' & [= ->] & Hf).
  - done.
  - by destruct Hm as (a' & [=] & Hf).
Qed.

(** Sequencing over a list, stopping at the first error. *)
Fixpoint fold_result {S A} (f : S → A → result S) (s : S) (l : list A) : result S :=
  match l with
  | [] => Ok s
  | a :: l => let? s' := f s a in fold_result f s' l
  end.

Fixpoint map_result {A B} (f : A → result B) (l : list A) : result (list B) :=
  match l with
  | [] => Ok []
  | a :: l => let? b := f a in let? bs := map_result f l in Ok (b :: bs)
  end.

Lemma map_result_elem {A B} (f : A → result B) l bs b :
  map_result f l = Ok bs → b ∈ bs ↔ ∃ a, a ∈ l ∧ f a = Ok b.
Proof.
  revert bs. induction l as [|a l IH]; simpl; intros bs Hl.
  { simplify_eq. set_solver. }
  destruct (f a) as [b'|e] eqn:Ha; simpl in *; [|done].
  destruct (map_result f l) as [bs'|e]; simpl in *; [|done]. simplify_eq.
  rewrite elem_of_cons, (IH bs' eq_refl). setoid_rewrite elem_of_cons. split.
  - intros [->|(a' & Ha' & Hf)]; eauto.
  - intros (a' & [->|Ha'] & Hf); [left; congruence|right; eauto].
Qed.

Lemma map_result_err {A B} (f : A → result B) l e :
  map_result f l = Err e → ∃ a, a ∈ l ∧ f a = Err e.
Proof.
  induction l as [|a l IH]; simpl; [done|].
  destruct (f a) as [b|e'] eqn:Ha; simpl.
  - destruct (map_result f l); simpl; [done|]. intros [= ->].
    destruct IH as (a' & ? & ?); [done|]. exists a'. set_solver.
  - intros [= ->]. exists a. set_solver.
Qed.

(** ** Stateful computations

    A Go method on a store: the store it leaves and what it returned.  An error
    does not undo the writes made before it; callers that need a rollback work
    on a clone, as the code does. *)
Definition M (S A : Type) := S → S * result A.

Definition m_ret {S A} (a : A) : M S A := λ s, (s, Ok a).
Definition m_bind {S A B} (m : M S A) (f : A → M S B) : M S B := λ s,
  match m s with
  | (s', Ok a) => f a s'
  | (s', Err e) => (s', Err e)
  end.
Notation "'let!' x := m 'in' k" := (m_bind m (λ x, k))
  (at level 10, x pattern, k at level 200) : jobdb_scope.
Notation "'do!' m 'in' k" := (m_bind m (λ _, k))
  (at level 10, k at level 200) : jobdb_scope.

Definition m_err {S A} (e : error) : M S A := λ s, (s, Err e).
Definition m_read {S A} (f : S → result A) : M S A := λ s, (s, f s).
Definition m_write {S} (f : S → result S) : M S () := λ s,
  match f s with Ok s' => (s', Ok tt) | Err e => (s, Err e) end.

Fixpoint m_iter {S A} (f : A → M S ()) (l : list A) : M S () :=
  match l with
  | [] => m_ret tt
  | a :: l => do! f a in m_iter f l
  end.

Lemma m_bind_inv {S A B} (m : M S A) (f : A → M S B) s s' b :
  m_bind m f s = (s', Ok b) → ∃ a s1, m s = (s1, Ok a) ∧ f a s1 = (s', Ok b).
Proof. unfold m_bind. destruct (m s) as [s1 [a|e]]; naive_solver. Qed.

Lemma m_bind_ok {S A B} (m : M S A) (f : A → M S B) s s1 a :
  m s = (s1, Ok a) → m_bind m f s = f a s1.
Proof. unfold m_bind. by intros ->. Qed.

(** Preserved by every iteration, hence by the loop, whatever it returns. *)
Lemma m_iter_inv {S A} (P : S → Prop) (f : A → M S ()) l s :
  (∀ a s, a ∈ l → P s → P (f a s).1) → P s → P (m_iter f l s).1.
Proof.
  revert s. induction l as [|a l IH]; intros s Hf HP; [done|].
  simpl. unfold m_bind.
  pose proof (Hf a s ltac:(set_solver) HP) as Ha.
  destruct (f a s) as [s1 [[]|e]]; simpl in *; [|done].
  apply IH; [|done]. intros b s2 Hb. apply Hf. set_solver.
Qed.

Lemma m_iter_ok {S A} (P : S → Prop) (f : A → M S ()) l s s' :
  (∀ a s s', a ∈ l → P s → f a s = (s', Ok tt) → P s') →
  P s → m_iter f l s = (s', Ok tt) → P s'.
Proof.
  revert s. induction l as [|a l IH]; intros s Hf HP Hs; simpl in Hs;
    [unfold m_ret in Hs; congruence|].
  apply m_bind_inv in Hs as ([] & s1 & Ha & Hs).
  assert (P s1) as H1 by (apply (Hf a s s1); [apply list_elem_of_here|done|done]).
  apply (IH s1); [|done|done]. intros b s2 s3 Hb. apply Hf. by apply list_elem_of_further.
Qed.

(** ** Time

    An instant is its distance in nanoseconds from Go's zero [time.Time]
    (1 January of year 1, UTC), so [t.IsZero()] is [t = 0], [After] and [Before]
    are the order of [Z], and [Truncate], which Go defines relative to the zero
    time, is rounding down to a multiple. *)
Abbreviation time := Z (only parsing).
Definition nanosecond : Z := 1.
Definition second : Z := 1000000000.
Definition minute : Z := 60 * second.
Definition day : Z := 86400 * second.

Definition After (a b : time) : bool := (b <? a)%Z.
Definition Before (a b : time) : bool := (a <? b)%Z.
Definition IsZero (a : time) : bool := (a =? 0)%Z.
Definition Truncate (t d : Z) : Z := (t - t mod d)%Z.

Lemma After_spec a b : After a b = true ↔ (b < a)%Z.
Proof. unfold After. lia. Qed.
Lemma Before_spec a b : Before a b = true ↔ (a < b)%Z.
Proof. unfold Before. lia. Qed.

(** [int64] bounds; where the source can reach them the model checks them. *)
Definition MaxInt64 : Z := 9223372036854775807.

(** A bound that is not set allows everything. *)
Definition opt_all {A} (f : A → bool) (o : option A) : bool := match o with Some a => f a | None => true end.

(** ** Maps with one key, checked by computation *)
Lemma only_key_lookup `{Countable K} {A} (k : K) (m : gmap K A) :
  bool_decide (dom m = {[k]} :> gset K) = true → ∀ k' a, m !! k' = Some a → k' = k.
Proof.
  intros Hm%bool_decide_eq_true k' a Hk. apply (elem_of_dom_2 (D := gset K)) in Hk. rewrite Hm in Hk.
  by apply elem_of_singleton in Hk.
Qed.
Lemma only_key `{Countable K} {A} (k : K) (m : gmap K A) (P : K → Prop) :
  bool_decide (dom m = {[k]} :> gset K) = true → P k → ∀ k', is_Some (m !! k') → P k'.
Proof. intros Hm HP k' [a Hk]. by rewrite (only_key_lookup k m Hm k' a Hk). Qed.

(** ** Range over a Go map

    Go leaves the order of [for k, v := range m] unspecified, and it differs
    between runs.  Operations that range over a map are parameterised by the
    order: any enumeration of the entries. *)
Class RangeOrder := {
  range : ∀ {K V} `{Countable K}, gmap K V → list (K * V);
  range_perm : ∀ {K V} `{Countable K} (m : gmap K V), range m ≡ₚ map_to_list m
}.

Lemma elem_of_range `{RangeOrder} {K V} `{Countable K} (m : gmap K V) k v :
  (k, v) ∈ range m ↔ m !! k = Some v.
Proof. by rewrite range_perm, elem_of_map_to_list. Qed.

Lemma range_nodup `{RangeOrder} {K V} `{Countable K} (m : gmap K V) :
  NoDup (range m).*1.
Proof. rewrite range_perm. apply NoDup_fst_map_to_list. Qed.

(** The order in which stdpp enumerates a map is one such order. *)
Program Definition stdpp_range_order : RangeOrder :=
  {| range := λ K V _ _ m, map_to_list m |}.
Next Obligation. done. Qed.
(** And so is the opposite order. *)
Program Definition backward_range_order : RangeOrder :=
  {| range := λ K V _ _ m, reverse (map_to_list m) |}.
Next Obligation. intros. apply reverse_Permutation. Qed.

(** ** Strings

    Go compares strings byte by byte. *)
Lemma str_app_assoc (a b c : string) : (a +:+ b) +:+ c = a +:+ (b +:+ c).
Proof. induction a as [|x a IH]; [done|exact (f_equal (String x) IH)]. Qed.

Definition str_leb (a b : string) : bool := String.leb a b.
Definition str_le (a b : string) : Prop := str_leb a b = true.
Definition str_lt (a b : string) : bool := String.ltb a b.

#[export] Instance str_le_dec a b : Decision (str_le a b).
Proof. unfold str_le. apply _. Defined.

Lemma ascii_compare_N a b :
  Ascii.compare a b = N.compare (Ascii.N_of_ascii a) (Ascii.N_of_ascii b).
Proof. done. Qed.

Lemma str_compare_trans a b c :
  String.compare a b = Lt → String.compare b c = Lt → String.compare a c = Lt.
Proof.
  revert b c. induction a as [|x a IH]; intros [|y b] [|z c]; simpl; try done.
  rewrite !ascii_compare_N.
  destruct (N.compare_spec (Ascii.N_of_ascii x) (Ascii.N_of_ascii y)) as [Hxy|Hxy|Hxy];
    destruct (N.compare_spec (Ascii.N_of_ascii y) (Ascii.N_of_ascii z)) as [Hyz|Hyz|Hyz];
    intros; try done;
    destruct (N.compare_spec (Ascii.N_of_ascii x) (Ascii.N_of_ascii z)); try done; try lia.
  by eapply IH.
Qed.

#[export] Instance str_le_trans : Transitive str_le.
Proof.
  intros a b c. unfold str_le, str_leb, String.leb.
  destruct (String.compare a b) eqn:Hab; [|..|done].
  - apply String.compare_eq_iff in Hab. by subst.
  - destruct (String.compare b c) eqn:Hbc; [|..|done].
    + apply String.compare_eq_iff in Hbc. subst. by rewrite Hab.
    + by rewrite (str_compare_trans a b c).
Qed.

#[export] Instance str_le_total : Total str_le.
Proof.
  intros a b. unfold str_le, str_leb, String.leb.
  rewrite (String.compare_antisym a b). destruct (String.compare b a); simpl; auto.
Qed.

#[export] Instance str_le_antisymm : AntiSymm (=) str_le.
Proof.
  intros a b. unfold str_le, str_leb, String.leb.
  rewrite (String.compare_antisym a b).
  destruct (String.compare b a) eqn:H; simpl; try done.
  intros _ _. by apply String.compare_eq_iff in H.
Qed.

(** The code points [unicode.IsSpace] accepts, by the length of their UTF-8 encoding. *)
Definition space1 (a : Ascii.ascii) : bool :=
  let n := Ascii.N_of_ascii a in (n =? 32)%N || ((9 <=? n) && (n <=? 13))%N.
Definition space2 (a b : Ascii.ascii) : bool :=
  let m := Ascii.N_of_ascii a in let n := Ascii.N_of_ascii b in
  (m =? 194)%N && ((n =? 133) || (n =? 160))%N.
Definition space3 (a b c : Ascii.ascii) : bool :=
  let l := Ascii.N_of_ascii a in let m := Ascii.N_of_ascii b in let n := Ascii.N_of_ascii c in
  ((l =? 225) && (m =? 154) && (n =? 128)
   || (l =? 226) && (m =? 128) && ((128 <=? n) && (n <=? 138) || (n =? 168) || (n =? 169) || (n =? 175))
   || (l =? 226) && (m =? 129) && (n =? 159)
   || (l =? 227) && (m =? 128) && (n =? 128))%N.

(** [strings.TrimSpace(s) == ""] *)
Fixpoint blank (s : string) : bool :=
  match s with
  | EmptyString => true
  | String a s1 =>
      if space1 a then blank s1
      else match s1 with
      | EmptyString => false
      | String b s2 =>
          if space2 a b then blank s2
          else match s2 with
          | EmptyString => false
          | String c s3 => space3 a b c && blank s3
          end
      end
  end.

Fixpoint str_contains (p : Ascii.ascii → bool) (s : string) : bool :=
  match s with
  | EmptyString => false
  | String c s => p c || str_contains p s
  end.

(** [strings.ContainsAny(s, chars)] *)
Definition ContainsAny (s chars : string) : bool :=
  str_contains (λ c, str_contains (Ascii.eqb c) chars) s.

Definition str_empty (s : string) : bool := String.eqb s "".

Lemma str_empty_spec s : str_empty s = true ↔ s = "".
Proof. apply String.eqb_eq. Qed.
Lemma str_empty_ne s : s ≠ "" → str_empty s = false.
Proof. intros Hne. apply not_true_iff_false. by rewrite str_empty_spec. Qed.

Lemma str_app_length (a b : string) : String.length (a +:+ b) = String.length a + String.length b.
Proof. induction a as [|x a IH]; simpl; [done|]. by rewrite IH. Qed.

(** ** Automation *)

Create HintDb jobdb.

(** Case analysis on the conditions of a Go function body: every [if] and [match]
    in the hypothesis that describes its result. *)
Ltac split_res H :=
  repeat (first
    [ apply bind_ok in H; destruct H as (? & ? & H)
    | match type of H with
      | context [match ?x with _ => _ end] => destruct x eqn:?
      end ]; simplify_eq/=; try done).

Ltac unfold_m := unfold m_bind, m_ret, m_err, m_read, m_write in *.
