(* ===== verification/Types.v ===== *)
(** * Types: identifiers, routes and the goal/dependency vocabulary

    The data types shared by every component ([pkg/jobdb/types.go], [route.go],
    [jobs.go], [goals.go]) with the request validation of [route.go] and
    [goals.go].  Struct fields keep their Go names behind a short prefix. *)

From S2P Require Import Prelude.

(** ** Keys ([types.go], [goals.go]) *)
Record JobKey := mkJobKey { jk_TenantId : string; jk_JobId : string }.
Record GoalKey := mkGoalKey { gk_TenantId : string; gk_GoalID : string }.

#[export] Instance JobKey_eq_dec : EqDecision JobKey.
Proof. solve_decision. Defined.
#[export] Instance GoalKey_eq_dec : EqDecision GoalKey.
Proof. solve_decision. Defined.
#[export] Instance JobKey_countable : Countable JobKey.
Proof.
  refine (inj_countable' (λ k, (jk_TenantId k, jk_JobId k)) (λ p, mkJobKey p.1 p.2) _).
  by intros [].
Defined.
#[export] Instance GoalKey_countable : Countable GoalKey.
Proof.
  refine (inj_countable' (λ k, (gk_TenantId k, gk_GoalID k)) (λ p, mkGoalKey p.1 p.2) _).
  by intros [].
Defined.

(** [JobKey.String] *)
Definition JobKey_String (k : JobKey) : string := jk_TenantId k +:+ "/" +:+ jk_JobId k.

(** [JobKey.Validate] *)
Definition JobKey_Validate (k : JobKey) : result () :=
  let? _ := guard_err (negb (str_empty (jk_TenantId k))) (ErrMsg "TenantId cannot be empty") in
  guard_err (negb (str_empty (jk_JobId k))) (ErrMsg "JobId cannot be empty").

(** [GoalKey.Validate] *)
Definition GoalKey_Validate (k : GoalKey) : result () :=
  guard_err (negb (blank (gk_TenantId k) || blank (gk_GoalID k))) ErrInvalidDependency.

(** ** Routes ([route.go]) *)
Record Route := mkRoute { r_JobType : string; r_TaskType : string }.
#[export] Instance Route_eq_dec : EqDecision Route.
Proof. solve_decision. Defined.

(** [utf8.ValidString]: the byte patterns of well-formed UTF-8 (RFC 3629). *)
Definition in_range (lo hi : N) (c : Ascii.ascii) : bool :=
  ((lo <=? Ascii.N_of_ascii c) && (Ascii.N_of_ascii c <=? hi))%N.
Definition cont (c : Ascii.ascii) : bool := in_range 128 191 c.

Fixpoint ValidString (s : string) : bool :=
  match s with
  | EmptyString => true
  | String a s1 =>
    if in_range 0 127 a then ValidString s1
    else match s1 with
    | EmptyString => false
    | String b s2 =>
      if in_range 194 223 a && cont b then ValidString s2
      else match s2 with
      | EmptyString => false
      | String c s3 =>
        if (in_range 224 224 a && in_range 160 191 b && cont c)
           || (in_range 225 236 a && cont b && cont c)
           || (in_range 237 237 a && in_range 128 159 b && cont c)
           || (in_range 238 239 a && cont b && cont c)
        then ValidString s3
        else match s3 with
        | EmptyString => false
        | String d s4 =>
          ((in_range 240 240 a && in_range 144 191 b && cont c && cont d)
           || (in_range 241 243 a && cont b && cont c && cont d)
           || (in_range 244 244 a && in_range 128 143 b && cont c && cont d))
          && ValidString s4
        end
      end
    end
  end.

(** [ValidateIdentifier]: nonempty UTF-8 without U+0000. *)
Definition ValidateIdentifier (value : string) : result () :=
  guard_err (negb (str_empty value || negb (ValidString value)
                   || str_contains (Ascii.eqb Ascii.zero) value))
    (ErrMsg "identifier must be nonempty UTF-8 without U+0000").

(** [Route.Validate] *)
Definition Route_Validate (r : Route) : result () :=
  let? _ := ValidateIdentifier (r_JobType r) in
  if str_empty (r_TaskType r) then Ok tt else ValidateIdentifier (r_TaskType r).

(** Task coordinates of a job that hands work to an external worker. *)
Record TaskWait := mkTaskWait {
  tw_InputOrdinal : Z; tw_OutputOrdinal : Z; tw_InputHash : string; tw_ResumeJobType : string
}.

(** [ValidateAlternateRoute] *)
Definition ValidateAlternateRoute (route : option Route) (after : option Z)
    (task : option TaskWait) : result () :=
  match route with
  | None => guard_err (bool_decide (after = None))
              (ErrMsg "alternate route required with alternate delay")
  | Some r =>
      let? _ := Route_Validate r in
      let? _ := guard_err (match after with None => false | Some d => (0 <=? d)%Z end)
            (ErrMsg "alternate route requires a nonnegative delay") in
      guard_err (negb (negb (str_empty (r_TaskType r)) && bool_decide (task = None)))
        (ErrMsg "alternate task route requires task coordinates")
  end.

(** ** Job statuses ([jobs.go]) *)
Inductive JobStatus :=
  | JobStatusReady | JobStatusExpired | JobStatusPendingJobs | JobStatusAwaitingFuture
  | JobStatusActive | JobStatusCrashConcern | JobStatusCancelled | JobStatusCompleted.
#[export] Instance JobStatus_eq_dec : EqDecision JobStatus.
Proof. solve_decision. Defined.

(** ** Goals and dependencies ([goals.go]) *)
Inductive GoalState := GoalOpen | GoalSucceeded | GoalFailed.
#[export] Instance GoalState_eq_dec : EqDecision GoalState.
Proof. solve_decision. Defined.

Inductive DependencyState :=
  | DependencyPending | DependencySatisfied | DependencyFailed
  | DependencyTimedOut | DependencyCancelled.
#[export] Instance DependencyState_eq_dec : EqDecision DependencyState.
Proof. solve_decision. Defined.

(** [JobPrereqCondition] is a Go string: a request can carry any value. *)
Definition JobPrereqComplete : string := "complete".
Definition JobPrereqSuccess : string := "success".

Record GoalFailure := mkGoalFailure {
  gf_Code : string;
  gf_GoalID : string;
  gf_JobID : string;
  gf_Message : string;
  gf_TerminalJobIDs : list string;
  gf_NonTerminalJobIDs : list string;
  gf_FailedAt : time
}.
#[export] Instance GoalFailure_eq_dec : EqDecision GoalFailure.
Proof. solve_decision. Defined.

Record GoalInfo := mkGoalInfo {
  gi_Cell : string;
  gi_CellID : string;
  gi_CellRepo : string;
  gi_GoalKey : GoalKey;
  gi_State : GoalState;
  gi_Revision : Z;
  gi_SuccessfulJobID : string;
  gi_Failure : option GoalFailure;
  gi_CreatedAt : time;
  gi_UpdatedAt : time;
  gi_ClosedAt : option time
}.
#[export] Instance GoalInfo_eq_dec : EqDecision GoalInfo.
Proof. solve_decision. Defined.
#[export] Instance eta_GoalInfo : Eta GoalInfo := λ g,
  mkGoalInfo (gi_Cell g) (gi_CellID g) (gi_CellRepo g) (gi_GoalKey g) (gi_State g)
    (gi_Revision g) (gi_SuccessfulJobID g) (gi_Failure g) (gi_CreatedAt g)
    (gi_UpdatedAt g) (gi_ClosedAt g).

Record DependencyTarget := mkTarget { dt_JobID : string; dt_GoalID : string }.
#[export] Instance DependencyTarget_eq_dec : EqDecision DependencyTarget.
Proof. solve_decision. Defined.
#[export] Instance DependencyTarget_countable : Countable DependencyTarget.
Proof.
  refine (inj_countable' (λ k, (dt_JobID k, dt_GoalID k)) (λ p, mkTarget p.1 p.2) _).
  by intros [].
Defined.

Record Dependency := mkDependency { dep_Target : DependencyTarget; dep_Condition : string }.
Record DependencyWait := mkDependencyWait {
  dw_WaitID : string; dw_Dependencies : list Dependency; dw_Deadline : option time
}.
Record DependencyWaitKey := mkWaitKey { wk_JobKey : JobKey; wk_WaitID : string }.
#[export] Instance DependencyWaitKey_eq_dec : EqDecision DependencyWaitKey.
Proof. solve_decision. Defined.
#[export] Instance DependencyWaitKey_countable : Countable DependencyWaitKey.
Proof.
  refine (inj_countable' (λ k, (wk_JobKey k, wk_WaitID k)) (λ p, mkWaitKey p.1 p.2) _).
  by intros [].
Defined.

Record DependencyResolution := mkResolution {
  dr_Target : DependencyTarget;
  dr_Condition : string;
  dr_State : DependencyState;
  dr_SatisfiedByJobID : string;
  dr_BlockedReason : string;
  dr_Failure : option GoalFailure
}.
#[export] Instance eta_DependencyResolution : Eta DependencyResolution := λ d,
  mkResolution (dr_Target d) (dr_Condition d) (dr_State d) (dr_SatisfiedByJobID d)
    (dr_BlockedReason d) (dr_Failure d).

Record DependencyWaitInfo := mkWaitInfo {
  wi_JobKey : JobKey;
  wi_WaitID : string;
  wi_State : DependencyState;
  wi_Deadline : option time;
  wi_Dependencies : list DependencyResolution;
  wi_FailedDependencyIndex : option nat;
  wi_Failure : option GoalFailure
}.
#[export] Instance eta_DependencyWaitInfo : Eta DependencyWaitInfo := λ w,
  mkWaitInfo (wi_JobKey w) (wi_WaitID w) (wi_State w) (wi_Deadline w)
    (wi_Dependencies w) (wi_FailedDependencyIndex w) (wi_Failure w).

Definition wait_key (w : DependencyWaitInfo) : DependencyWaitKey :=
  mkWaitKey (wi_JobKey w) (wi_WaitID w).

Record AddGoalCandidateRequest := mkAddRequest { ac_GoalKey : GoalKey; ac_JobID : string }.
Record GoalCandidateInfo := mkCandidateInfo {
  gc_GoalKey : GoalKey; gc_JobID : string; gc_AddedAt : time;
  gc_GoalState : GoalState; gc_SuccessfulJobID : string
}.
Record FailGoalRequest := mkFailRequest { fr_GoalKey : GoalKey; fr_Message : string }.

(** [FailGoalRequest.Validate] *)
Definition FailGoalRequest_Validate (r : FailGoalRequest) : result () :=
  let? _ := GoalKey_Validate (fr_GoalKey r) in
  guard_err (negb (negb (ValidString (fr_Message r)) || blank (fr_Message r)
                   || (16384 <? String.length (fr_Message r))%nat)) ErrInvalidDependency.

(** [ValidateDependencies]: [seen] is the set of targets already listed. *)
Fixpoint validate_deps (seen : gset DependencyTarget) (deps : list Dependency) : result () :=
  match deps with
  | [] => Ok tt
  | d :: deps =>
      let t := dep_Target d in
      let? _ := guard_err (negb (eqb (blank (dt_JobID t)) (blank (dt_GoalID t)))) ErrInvalidDependency in
      let? _ := guard_err (String.eqb (dep_Condition d) JobPrereqSuccess
                     || (String.eqb (dep_Condition d) JobPrereqComplete && str_empty (dt_GoalID t)))
            ErrInvalidDependency in
      let? _ := guard_err (bool_decide (t ∉ seen)) ErrInvalidDependency in
      validate_deps ({[t]} ∪ seen) deps
  end.
Definition ValidateDependencies (deps : list Dependency) : result () := validate_deps ∅ deps.

(** [ValidateDependencyWait] *)
Definition ValidateDependencyWait (w : option DependencyWait) (submission : bool) : result () :=
  match w with
  | None => Ok tt
  | Some w =>
      let? _ := guard_err (negb (str_empty (dw_WaitID w)
                     || (negb submission && String.eqb (dw_WaitID w) "submission")
                     || ContainsAny (dw_WaitID w) "/\?#% "
                     || bool_decide (dw_Dependencies w = []))) ErrInvalidDependency in
      ValidateDependencies (dw_Dependencies w)
  end.

(** What validation guarantees about an accepted dependency list. *)
Lemma validate_deps_ok seen deps :
  validate_deps seen deps = Ok tt →
  NoDup (dep_Target <$> deps) ∧
  Forall (λ d, dep_Target d ∉ seen ∧
               blank (dt_JobID (dep_Target d)) = negb (blank (dt_GoalID (dep_Target d))) ∧
               (dep_Condition d = JobPrereqSuccess ∨
                dep_Condition d = JobPrereqComplete ∧ dt_GoalID (dep_Target d) = "")) deps.
Proof.
  revert seen. induction deps as [|d deps IH]; intros seen Hok; simpl in *.
  { repeat constructor. }
  unfold guard_err in Hok.
  destruct (negb _) eqn:H1 in Hok; simpl in Hok; [|done].
  destruct (_ || _) eqn:H2 in Hok; simpl in Hok; [|done].
  case_bool_decide as H3; simpl in Hok; [|done].
  apply IH in Hok as [Hnd Hall]. split.
  - constructor; [|done]. intros (d' & Heq & Hd')%list_elem_of_fmap.
    rewrite Forall_forall in Hall. apply Hall in Hd'. set_solver.
  - constructor.
    + split; [done|]. split.
      { by destruct (blank (dt_JobID _)), (blank (dt_GoalID _)). }
      apply orb_true_iff in H2 as [H2|H2]; [left; by apply String.eqb_eq in H2|right].
      apply andb_true_iff in H2 as [H2 H2']. apply String.eqb_eq in H2.
      by apply str_empty_spec in H2'.
    + eapply Forall_impl; [done|]. set_solver.
Qed.
