(* ===== verification/GoalStore.v ===== *)
(** * GoalStore: the store interface of the goal engine and its in-memory instance

    [internal/goalstate/state.go] declares the interface [Store] the goal engine
    runs against; [internal/goalstate/memory.go] implements it for the in-memory
    runtime.  The interface is the class [GoalStore]; what the engine relies on is
    the class [GoalStoreLaws]; [Memory] implements both. *)

From S2P Require Import Prelude Types.

(** The facts about a job that goals and waits depend on. *)
Record Job := mkJob {
  j_Key : JobKey;
  j_GoalID : string;
  j_Terminal : bool;
  j_Success : bool;
  j_CreatedAt : time
}.

(** ** The interface *)
Class GoalStore (St : Type) := {
  st_Job : St → JobKey → result Job;
  st_Goal : St → GoalKey → result GoalInfo;
  st_SaveGoal : St → GoalInfo → result St;
  st_Candidates : St → GoalKey → result (list Job);
  st_Goals : St → JobKey → result (list GoalKey);
  st_Candidate : St → GoalKey → string → result (time * bool);
  st_InsertCandidate : St → GoalKey → string → time → result St;
  st_Wait : St → DependencyWaitKey → result DependencyWaitInfo;
  st_SaveWait : St → DependencyWaitInfo → result St;
  st_ConsumerWaits : St → JobKey → result (list DependencyWaitInfo);
  st_TargetWaits : St → string → DependencyTarget → result (list DependencyWaitInfo);
  (** The graph nodes a tenant's rows mention: finitely many, which bounds the
      recursion of the cycle search. *)
  st_nodes : St → string → gset DependencyTarget
}.

(** [copyValue] sends a value through JSON.  Everything survives except in a
    failure with a job and no goal, whose [MarshalJSON] keeps three fields. *)
Definition copy_failure (f : GoalFailure) : GoalFailure :=
  if str_empty (gf_GoalID f) && negb (str_empty (gf_JobID f))
  then mkGoalFailure (gf_Code f) "" (gf_JobID f) (gf_Message f) [] [] 0
  else f.
Definition copy_resolution (d : DependencyResolution) : DependencyResolution :=
  d <| dr_Failure := copy_failure <$> dr_Failure d |>.
Definition copy_goal (g : GoalInfo) : GoalInfo :=
  g <| gi_Failure := copy_failure <$> gi_Failure g |>.
Definition copy_wait (w : DependencyWaitInfo) : DependencyWaitInfo :=
  w <| wi_Dependencies := copy_resolution <$> wi_Dependencies w |>
    <| wi_Failure := copy_failure <$> wi_Failure w |>.

Lemma copy_failure_idem f : copy_failure (copy_failure f) = copy_failure f.
Proof.
  unfold copy_failure at 2 3. destruct (_ && _) eqn:E; [|unfold copy_failure; by rewrite E].
  apply andb_true_iff in E as [_ E]. unfold copy_failure. simpl. by rewrite E.
Qed.
Lemma copy_failure_opt_idem (o : option GoalFailure) :
  copy_failure <$> (copy_failure <$> o) = copy_failure <$> o.
Proof. destruct o; simpl; [|done]. by rewrite copy_failure_idem. Qed.
Lemma copy_goal_idem g : copy_goal (copy_goal g) = copy_goal g.
Proof. unfold copy_goal. simpl. by rewrite copy_failure_opt_idem. Qed.
Lemma copy_resolution_idem d : copy_resolution (copy_resolution d) = copy_resolution d.
Proof. unfold copy_resolution. simpl. by rewrite copy_failure_opt_idem. Qed.
Lemma copy_wait_idem w : copy_wait (copy_wait w) = copy_wait w.
Proof.
  unfold copy_wait. simpl. rewrite copy_failure_opt_idem. f_equal.
  rewrite <- list_fmap_compose. apply list_fmap_ext. intros. apply copy_resolution_idem.
Qed.

(** ** What the engine relies on *)
Class GoalStoreLaws (St : Type) `{GoalStore St} := {
  (** Rows are filed under their own keys. *)
  st_ok : St → Prop;
  goal_key : ∀ s k g, st_ok s → st_Goal s k = Ok g → gi_GoalKey g = k;
  job_key : ∀ s k j, st_ok s → st_Job s k = Ok j → j_Key j = k;
  wait_keyed : ∀ s k w, st_ok s → st_Wait s k = Ok w → wait_key w = k;
  goal_copied : ∀ s k g, st_Goal s k = Ok g → copy_goal g = g;
  wait_copied : ∀ s k w, st_Wait s k = Ok w → copy_wait w = w;
  wait_missing : ∀ s k e, st_Wait s k = Err e → e = ErrDependencyWaitNotFound;
  (** Candidates, goals of a job and pending waits are the corresponding selections. *)
  candidates_spec : ∀ s k js j, st_ok s → st_Candidates s k = Ok js →
    j ∈ js ↔ st_Job s (j_Key j) = Ok j ∧ jk_TenantId (j_Key j) = gk_TenantId k ∧
             ∃ t, st_Candidate s k (jk_JobId (j_Key j)) = Ok (t, true);
  goals_spec : ∀ s k gs g, st_ok s → st_Goals s k = Ok gs →
    g ∈ gs ↔ gk_TenantId g = jk_TenantId k ∧ ∃ t, st_Candidate s g (jk_JobId k) = Ok (t, true);
  candidate_job : ∀ s g id a, st_Candidate s g id = Ok a →
    ∃ j, st_Job s (mkJobKey (gk_TenantId g) id) = Ok j;
  candidate_primary : ∀ s k id j,
    st_Job s (mkJobKey (gk_TenantId k) id) = Ok j → j_GoalID j = gk_GoalID k →
    st_Candidate s k id = Ok (j_CreatedAt j, true);
  consumer_waits_spec : ∀ s k ws w, st_ok s → st_ConsumerWaits s k = Ok ws →
    w ∈ ws ↔ st_Wait s (wait_key w) = Ok w ∧ wi_JobKey w = k ∧ wi_State w = DependencyPending;
  target_waits_spec : ∀ s tenant t ws w, st_ok s → st_TargetWaits s tenant t = Ok ws →
    w ∈ ws ↔ st_Wait s (wait_key w) = Ok w ∧ jk_TenantId (wi_JobKey w) = tenant ∧
             wi_State w = DependencyPending ∧
             ∃ d, d ∈ wi_Dependencies w ∧ dr_Target d = t ∧ dr_State d = DependencyPending;
  consumer_waits_nodup : ∀ s k ws, st_ok s → st_ConsumerWaits s k = Ok ws → NoDup (wait_key <$> ws);
  target_waits_nodup : ∀ s tenant t ws, st_ok s →
    st_TargetWaits s tenant t = Ok ws → NoDup (wait_key <$> ws);
  (** A write changes the row it names and nothing else. *)
  save_goal_ok : ∀ s g s', st_ok s → st_SaveGoal s g = Ok s' → st_ok s';
  save_goal_goal : ∀ s g s' k, st_SaveGoal s g = Ok s' →
    st_Goal s' k = if decide (k = gi_GoalKey g) then Ok (copy_goal g) else st_Goal s k;
  save_goal_job : ∀ s g s' k, st_SaveGoal s g = Ok s' → st_Job s' k = st_Job s k;
  save_goal_wait : ∀ s g s' k, st_SaveGoal s g = Ok s' → st_Wait s' k = st_Wait s k;
  save_goal_candidate : ∀ s g s' k id,
    st_SaveGoal s g = Ok s' → st_Candidate s' k id = st_Candidate s k id;
  save_wait_ok : ∀ s w s', st_ok s → st_SaveWait s w = Ok s' → st_ok s';
  save_wait_wait : ∀ s w s' k, st_SaveWait s w = Ok s' →
    st_Wait s' k = if decide (k = wait_key w) then Ok (copy_wait w) else st_Wait s k;
  save_wait_job : ∀ s w s' k, st_SaveWait s w = Ok s' → st_Job s' k = st_Job s k;
  save_wait_goal : ∀ s w s' k, st_SaveWait s w = Ok s' → st_Goal s' k = st_Goal s k;
  save_wait_candidate : ∀ s w s' k id,
    st_SaveWait s w = Ok s' → st_Candidate s' k id = st_Candidate s k id;
  insert_candidate_ok : ∀ s g id t s', st_ok s → st_InsertCandidate s g id t = Ok s' → st_ok s';
  insert_candidate_candidate : ∀ s g id t s' k id' j,
    st_InsertCandidate s g id t = Ok s' →
    st_Job s (mkJobKey (gk_TenantId k) id') = Ok j → j_GoalID j ≠ gk_GoalID k →
    st_Candidate s' k id' = if decide (k = g ∧ id' = id) then Ok (t, true)
                            else st_Candidate s k id';
  insert_candidate_job : ∀ s g id t s' k,
    st_InsertCandidate s g id t = Ok s' → st_Job s' k = st_Job s k;
  insert_candidate_goal : ∀ s g id t s' k,
    st_InsertCandidate s g id t = Ok s' → st_Goal s' k = st_Goal s k;
  insert_candidate_wait : ∀ s g id t s' k,
    st_InsertCandidate s g id t = Ok s' → st_Wait s' k = st_Wait s k;
  (** A failed read is a missing row or a storage failure, never an engine verdict. *)
  read_errors : ∀ s e,
    (∃ k, st_Job s k = Err e) ∨ (∃ k, st_Goal s k = Err e) ∨
    (∃ k, st_Candidates s k = Err e) ∨ (∃ k, st_ConsumerWaits s k = Err e) →
    e ≠ ErrDependencyCycle ∧ e ≠ ErrOutOfFuel;
  (** [st_nodes] covers the tenant's jobs and the targets of its waits. *)
  nodes_job : ∀ s tenant id j,
    st_Job s (mkJobKey tenant id) = Ok j → mkTarget id "" ∈ st_nodes s tenant;
  nodes_wait : ∀ s k w d, st_Wait s k = Ok w → d ∈ wi_Dependencies w →
    dr_Target d ∈ st_nodes s (jk_TenantId (wk_JobKey k))
}.

(** ** The in-memory store ([memory.go]) *)
Record CandidateKey := mkCandidateKey { ck_Goal : GoalKey; ck_JobID : string }.
#[export] Instance CandidateKey_eq_dec : EqDecision CandidateKey.
Proof. solve_decision. Defined.
#[export] Instance CandidateKey_countable : Countable CandidateKey.
Proof.
  refine (inj_countable' (λ k, (ck_Goal k, ck_JobID k)) (λ p, mkCandidateKey p.1 p.2) _).
  by intros [].
Defined.

(** [Memory] reaches jobs through the closures [LookupJob] and [PrimaryJobs], which
    read the scheduler's records; [m_Jobs] is what they read. *)
Record Memory := mkMemory {
  m_GoalRows : gmap GoalKey GoalInfo;
  m_Extras : gmap CandidateKey time;
  m_WaitRows : gmap DependencyWaitKey DependencyWaitInfo;
  m_Jobs : gmap JobKey Job
}.
#[export] Instance eta_Memory : Eta Memory := λ m,
  mkMemory (m_GoalRows m) (m_Extras m) (m_WaitRows m) (m_Jobs m).

Section memory.
Context `{RangeOrder}.

Definition LookupJob (s : Memory) (k : JobKey) : result Job :=
  of_option ErrJobNotFound (m_Jobs s !! k).

Definition PrimaryJobs (s : Memory) (k : GoalKey) : list Job :=
  snd <$> filter (λ kj, jk_TenantId kj.1 = gk_TenantId k ∧ j_GoalID kj.2 = gk_GoalID k)
            (range (m_Jobs s)).

Definition job_id_le (a b : Job) : Prop := str_le (jk_JobId (j_Key a)) (jk_JobId (j_Key b)).
#[export] Instance job_id_le_dec a b : Decision (job_id_le a b).
Proof. unfold job_id_le. apply _. Defined.

Definition mem_Goal (s : Memory) (k : GoalKey) : result GoalInfo :=
  let? v := of_option ErrGoalNotFound (m_GoalRows s !! k) in Ok (copy_goal v).

Definition mem_SaveGoal (s : Memory) (g : GoalInfo) : result Memory :=
  Ok (s <| m_GoalRows := <[gi_GoalKey g := copy_goal g]> (m_GoalRows s) |>).

Definition mem_Candidates (s : Memory) (k : GoalKey) : result (list Job) :=
  let? extras := map_result (λ kt : CandidateKey * time,
             LookupJob s (mkJobKey (gk_TenantId k) (ck_JobID kt.1)))
             (filter (λ kt, ck_Goal kt.1 = k) (range (m_Extras s))) in
  Ok (merge_sort job_id_le (PrimaryJobs s k ++ extras)).

Definition mem_Goals (s : Memory) (k : JobKey) : result (list GoalKey) :=
  let? j := LookupJob s k in
  Ok (mkGoalKey (jk_TenantId k) (j_GoalID j) ::
      (ck_Goal ∘ fst <$> filter (λ kt : CandidateKey * time,
         gk_TenantId (ck_Goal kt.1) = jk_TenantId k ∧ ck_JobID kt.1 = jk_JobId k)
         (range (m_Extras s)))).

Definition mem_Candidate (s : Memory) (k : GoalKey) (id : string) : result (time * bool) :=
  let? j := LookupJob s (mkJobKey (gk_TenantId k) id) in
  if bool_decide (j_GoalID j = gk_GoalID k) then Ok (j_CreatedAt j, true)
  else match m_Extras s !! mkCandidateKey k id with
  | Some t => Ok (t, true)
  | None => Ok (0%Z, false)
  end.

Definition mem_InsertCandidate (s : Memory) (k : GoalKey) (id : string) (t : time)
    : result Memory :=
  Ok (s <| m_Extras := <[mkCandidateKey k id := t]> (m_Extras s) |>).

Definition mem_Wait (s : Memory) (k : DependencyWaitKey) : result DependencyWaitInfo :=
  let? w := of_option ErrDependencyWaitNotFound (m_WaitRows s !! k) in Ok (copy_wait w).

Definition mem_SaveWait (s : Memory) (w : DependencyWaitInfo) : result Memory :=
  Ok (s <| m_WaitRows := <[wait_key w := copy_wait w]> (m_WaitRows s) |>).

Definition mem_ConsumerWaits (s : Memory) (k : JobKey) : result (list DependencyWaitInfo) :=
  Ok (copy_wait ∘ snd <$> filter (λ kw : DependencyWaitKey * DependencyWaitInfo,
        wk_JobKey kw.1 = k ∧ wi_State kw.2 = DependencyPending) (range (m_WaitRows s))).

Definition pending_on (t : DependencyTarget) (d : DependencyResolution) : Prop :=
  dr_Target d = t ∧ dr_State d = DependencyPending.
#[export] Instance pending_on_dec t d : Decision (pending_on t d).
Proof. unfold pending_on. apply _. Defined.

Definition mem_TargetWaits (s : Memory) (tenant : string) (t : DependencyTarget)
    : result (list DependencyWaitInfo) :=
  Ok (copy_wait ∘ snd <$> filter (λ kw : DependencyWaitKey * DependencyWaitInfo,
        (jk_TenantId (wk_JobKey kw.1) = tenant ∧ wi_State kw.2 = DependencyPending) ∧
        Exists (pending_on t) (wi_Dependencies kw.2)) (range (m_WaitRows s))).

Definition mem_nodes (s : Memory) (tenant : string) : gset DependencyTarget :=
  list_to_set ((λ k : JobKey, mkTarget (jk_JobId k) "") <$> (map_to_list (m_Jobs s)).*1) ∪
  list_to_set ((map_to_list (m_WaitRows s)).*2 ≫= λ w, dr_Target <$> wi_Dependencies w).

#[export] Instance memory_store : GoalStore Memory := {|
  st_Job := LookupJob; st_Goal := mem_Goal; st_SaveGoal := mem_SaveGoal;
  st_Candidates := mem_Candidates; st_Goals := mem_Goals; st_Candidate := mem_Candidate;
  st_InsertCandidate := mem_InsertCandidate; st_Wait := mem_Wait; st_SaveWait := mem_SaveWait;
  st_ConsumerWaits := mem_ConsumerWaits; st_TargetWaits := mem_TargetWaits;
  st_nodes := mem_nodes
|}.

(** Rows under their own keys. *)
Record memory_ok (s : Memory) : Prop := {
  mo_goal : ∀ k g, m_GoalRows s !! k = Some g → gi_GoalKey g = k;
  mo_wait : ∀ k w, m_WaitRows s !! k = Some w → wait_key w = k;
  mo_job : ∀ k j, m_Jobs s !! k = Some j → j_Key j = k
}.

Lemma lookup_job_ok s k j : LookupJob s k = Ok j ↔ m_Jobs s !! k = Some j.
Proof. unfold LookupJob. destruct (m_Jobs s !! k); simpl; split; intros; by simplify_eq. Qed.

Lemma lookup_job_err s k e : LookupJob s k = Err e → e = ErrJobNotFound.
Proof. unfold LookupJob. destruct (m_Jobs s !! k); simpl; by intros [= <-]. Qed.

Lemma mem_goal_ok s k g :
  mem_Goal s k = Ok g ↔ ∃ v, m_GoalRows s !! k = Some v ∧ g = copy_goal v.
Proof. unfold mem_Goal. destruct (m_GoalRows s !! k); simpl; split; try intros (?&?&?); intros; simplify_eq; eauto. Qed.

Lemma mem_wait_ok s k w :
  mem_Wait s k = Ok w ↔ ∃ v, m_WaitRows s !! k = Some v ∧ w = copy_wait v.
Proof. unfold mem_Wait. destruct (m_WaitRows s !! k); simpl; split; try intros (?&?&?); intros; simplify_eq; eauto. Qed.

Lemma mem_candidate_true s k id t :
  mem_Candidate s k id = Ok (t, true) ↔
  ∃ j, m_Jobs s !! mkJobKey (gk_TenantId k) id = Some j ∧
       ((j_GoalID j = gk_GoalID k ∧ t = j_CreatedAt j) ∨
        (j_GoalID j ≠ gk_GoalID k ∧ m_Extras s !! mkCandidateKey k id = Some t)).
Proof.
  unfold mem_Candidate, LookupJob. destruct (m_Jobs s !! _) as [j|]; simpl.
  - case_bool_decide as Hg.
    + split; [intros [= <-]; eauto|]. intros (j' & [= <-] & [[_ ->]|[? _]]); done.
    + destruct (m_Extras s !! _) as [t'|]; split; try done.
      * intros [= <-]. eauto.
      * by intros (j' & [= <-] & [[? _]|[_ [= ->]]]).
      * by intros (j' & [= <-] & [[? _]|[_ [=]]]).
  - split; [done|]. by intros (j' & [=] & _).
Qed.

Lemma primary_jobs_elem s k j :
  memory_ok s →
  j ∈ PrimaryJobs s k ↔ m_Jobs s !! j_Key j = Some j ∧
    jk_TenantId (j_Key j) = gk_TenantId k ∧ j_GoalID j = gk_GoalID k.
Proof.
  intros Hok. unfold PrimaryJobs. rewrite list_elem_of_fmap. split.
  - intros ([k' j'] & -> & [[? ?] Hin]%list_elem_of_filter). simpl in *.
    apply elem_of_range in Hin. pose proof (mo_job s Hok _ _ Hin). by subst.
  - intros (Hj & Ht & Hg). exists (j_Key j, j). split; [done|].
    apply list_elem_of_filter. split; [done|]. by apply elem_of_range.
Qed.

Lemma mem_candidates_spec s k js j :
  memory_ok s → mem_Candidates s k = Ok js →
  j ∈ js ↔ LookupJob s (j_Key j) = Ok j ∧ jk_TenantId (j_Key j) = gk_TenantId k ∧
           ∃ t, mem_Candidate s k (jk_JobId (j_Key j)) = Ok (t, true).
Proof.
  intros Hok. unfold mem_Candidates.
  destruct (map_result _ _) as [extras|e] eqn:He; simpl; [|done]. intros [= <-].
  rewrite merge_sort_Permutation, elem_of_app, primary_jobs_elem by done.
  rewrite (map_result_elem _ _ _ j He), lookup_job_ok. split.
  - intros [(Hj & Ht & Hg)|([ck t] & [Hc Hin]%list_elem_of_filter & Hj)].
    + split; [done|]. split; [done|]. exists (j_CreatedAt j).
      apply mem_candidate_true. exists j. rewrite <- Ht. split; [by destruct (j_Key j)|auto].
    + simpl in *. apply lookup_job_ok in Hj. pose proof (mo_job s Hok _ _ Hj) as Hk.
      rewrite Hk. simpl. apply elem_of_range in Hin. subst k. destruct ck as [ckg cki].
      simpl in *. split; [done|]. split; [done|].
      destruct (decide (j_GoalID j = gk_GoalID ckg)) as [Hg|Hg];
        [exists (j_CreatedAt j)|exists t]; apply mem_candidate_true; exists j; auto.
  - intros (Hj & Ht & t & (j' & Hj' & Hc)%mem_candidate_true).
    assert (mkJobKey (gk_TenantId k) (jk_JobId (j_Key j)) = j_Key j) as Heq.
    { rewrite <- Ht. by destruct (j_Key j). }
    rewrite Heq, Hj in Hj'. simplify_eq. destruct Hc as [[Hg _]|[Hg Hx]]; [by left|right].
    exists (mkCandidateKey k (jk_JobId (j_Key j')), t). split.
    + apply list_elem_of_filter. split; [done|]. by apply elem_of_range.
    + apply lookup_job_ok. simpl. by rewrite Heq.
Qed.

Lemma mem_goals_spec s k gs g :
  memory_ok s → mem_Goals s k = Ok gs →
  g ∈ gs ↔ gk_TenantId g = jk_TenantId k ∧
           ∃ t, mem_Candidate s g (jk_JobId k) = Ok (t, true).
Proof.
  intros Hok. unfold mem_Goals. destruct (LookupJob s k) as [j|] eqn:Hj; simpl; [|done].
  intros [= <-]. apply lookup_job_ok in Hj.
  rewrite elem_of_cons, list_elem_of_fmap. split.
  - intros [->|([ck t] & -> & [[Ht Hid] Hin]%list_elem_of_filter)]; simpl in *.
    + split; [done|]. exists (j_CreatedAt j). apply mem_candidate_true. exists j. simpl.
      split; [by destruct k|by left].
    + split; [done|]. apply elem_of_range in Hin. destruct ck as [ckg cki]. simpl in *. subst.
      destruct (decide (j_GoalID j = gk_GoalID ckg)) as [Hg|Hg];
        [exists (j_CreatedAt j)|exists t]; apply mem_candidate_true; exists j; rewrite Ht;
        (split; [by destruct k|auto]).
  - intros (Ht & t & (j' & Hj' & Hc)%mem_candidate_true).
    assert (mkJobKey (gk_TenantId g) (jk_JobId k) = k) as Heq.
    { rewrite Ht. by destruct k. }
    rewrite Heq, Hj in Hj'. simplify_eq. destruct Hc as [[Hg _]|[Hg Hx]].
    + left. rewrite <- Ht, Hg. by destruct g.
    + right. exists (mkCandidateKey g (jk_JobId k), t). split; [done|].
      apply list_elem_of_filter. split; [done|]. by apply elem_of_range.
Qed.

Lemma exists_pending_copy t deps :
  Exists (pending_on t) deps ↔
  ∃ d, d ∈ copy_resolution <$> deps ∧ dr_Target d = t ∧ dr_State d = DependencyPending.
Proof.
  rewrite Exists_exists. setoid_rewrite list_elem_of_fmap. unfold pending_on. split.
  - intros (d & Hd & Ht & Hs). exists (copy_resolution d). naive_solver.
  - intros (d & (d' & -> & Hd') & Ht & Hs). exists d'. naive_solver.
Qed.

(** The waits selected from [WaitRows] by a predicate on key and row. *)
Lemma wait_rows_elem s (P : DependencyWaitKey * DependencyWaitInfo → Prop) `{∀ x, Decision (P x)} w :
  w ∈ (copy_wait ∘ snd <$> filter P (range (m_WaitRows s))) ↔
  ∃ k v, m_WaitRows s !! k = Some v ∧ P (k, v) ∧ w = copy_wait v.
Proof.
  rewrite list_elem_of_fmap. split.
  - intros ([k v] & -> & [HP Hin]%list_elem_of_filter). apply elem_of_range in Hin. naive_solver.
  - intros (k & v & Hk & HP & ->). exists (k, v). split; [done|].
    apply list_elem_of_filter. split; [done|]. by apply elem_of_range.
Qed.

Lemma wait_rows_nodup s (P : DependencyWaitKey * DependencyWaitInfo → Prop) `{∀ x, Decision (P x)} :
  memory_ok s → NoDup (wait_key <$> (copy_wait ∘ snd <$> filter P (range (m_WaitRows s)))).
Proof.
  intros Hok. rewrite <- list_fmap_compose.
  assert (wait_key ∘ (copy_wait ∘ snd) <$> filter P (range (m_WaitRows s)) =
          (filter P (range (m_WaitRows s))).*1) as ->.
  { apply list_fmap_ext. intros i [k v] Hin%list_elem_of_lookup_2.
    apply list_elem_of_filter in Hin as [_ Hin]. apply elem_of_range in Hin.
    by apply (mo_wait s Hok) in Hin. }
  eapply sublist_NoDup; [apply (range_nodup (m_WaitRows s))|].
  apply fmap_sublist, sublist_filter.
Qed.

Lemma mem_consumer_waits_spec s k ws w :
  memory_ok s → mem_ConsumerWaits s k = Ok ws →
  w ∈ ws ↔ mem_Wait s (wait_key w) = Ok w ∧ wi_JobKey w = k ∧ wi_State w = DependencyPending.
Proof.
  intros Hok [= <-]. rewrite wait_rows_elem, mem_wait_ok. split.
  - intros (wk & v & Hv & [Hk Hs] & ->). pose proof (mo_wait s Hok _ _ Hv) as Hwk.
    simpl in *. subst. split; [eauto|done].
  - intros ((v & Hv & ->) & Hk & Hs). exists (wait_key (copy_wait v)), v. done.
Qed.

Lemma mem_target_waits_spec s tenant t ws w :
  memory_ok s → mem_TargetWaits s tenant t = Ok ws →
  w ∈ ws ↔ mem_Wait s (wait_key w) = Ok w ∧ jk_TenantId (wi_JobKey w) = tenant ∧
           wi_State w = DependencyPending ∧
           ∃ d, d ∈ wi_Dependencies w ∧ dr_Target d = t ∧ dr_State d = DependencyPending.
Proof.
  intros Hok [= <-]. rewrite wait_rows_elem, mem_wait_ok. split.
  - intros (wk & v & Hv & [[Hk Hs] Hd] & ->). pose proof (mo_wait s Hok _ _ Hv) as Hwk.
    simpl in *. apply exists_pending_copy in Hd. subst. split; [eauto|done].
  - intros ((v & Hv & ->) & Hk & Hs & Hd%exists_pending_copy).
    exists (wait_key (copy_wait v)), v. done.
Qed.

Lemma mem_nodes_job s tenant id j :
  LookupJob s (mkJobKey tenant id) = Ok j → mkTarget id "" ∈ mem_nodes s tenant.
Proof.
  intros Hj%lookup_job_ok. unfold mem_nodes. apply elem_of_union_l, elem_of_list_to_set.
  apply list_elem_of_fmap. exists (mkJobKey tenant id). split; [done|].
  apply list_elem_of_fmap. exists (mkJobKey tenant id, j). by rewrite elem_of_map_to_list.
Qed.

Lemma mem_nodes_wait s k w d :
  mem_Wait s k = Ok w → d ∈ wi_Dependencies w → dr_Target d ∈ mem_nodes s (jk_TenantId (wk_JobKey k)).
Proof.
  intros (v & Hv & ->)%mem_wait_ok (d' & -> & Hd')%list_elem_of_fmap.
  unfold mem_nodes. apply elem_of_union_r, elem_of_list_to_set, list_elem_of_bind.
  exists v. split.
  - apply list_elem_of_fmap. by exists d'.
  - apply list_elem_of_fmap. exists (k, v). by rewrite elem_of_map_to_list.
Qed.

#[export] Instance memory_laws : GoalStoreLaws Memory.
Proof.
  refine {| st_ok := memory_ok |}; simpl.
  - intros s k g Hok (v & Hv & ->)%mem_goal_ok. by apply (mo_goal s Hok) in Hv.
  - intros s k j Hok Hj%lookup_job_ok. by apply (mo_job s Hok).
  - intros s k w Hok (v & Hv & ->)%mem_wait_ok. by apply (mo_wait s Hok) in Hv.
  - intros s k g (v & _ & ->)%mem_goal_ok. apply copy_goal_idem.
  - intros s k w (v & _ & ->)%mem_wait_ok. apply copy_wait_idem.
  - intros s k e. unfold mem_Wait. destruct (m_WaitRows s !! k); simpl; by intros [= <-].
  - apply mem_candidates_spec.
  - apply mem_goals_spec.
  - intros s g id a. unfold mem_Candidate. destruct (LookupJob s _) as [j|]; simpl; [eauto|done].
  - intros s k id j Hj Hg. unfold mem_Candidate. rewrite Hj. simpl. by rewrite bool_decide_true.
  - apply mem_consumer_waits_spec.
  - apply mem_target_waits_spec.
  - intros s k ws Hok [= <-]. by apply wait_rows_nodup.
  - intros s tenant t ws Hok [= <-]. by apply wait_rows_nodup.
  - intros s g s' Hok [= <-]. split; simpl; [|apply (mo_wait s Hok)|apply (mo_job s Hok)].
    intros k g'. rewrite lookup_insert. case_decide; [|by apply (mo_goal s Hok)].
    by intros [= <-].
  - intros s g s' k [= <-]. unfold mem_Goal. simpl. rewrite lookup_insert.
    do 2 case_decide; subst; try done. simpl. by rewrite copy_goal_idem.
  - by intros s g s' k [= <-].
  - by intros s g s' k [= <-].
  - by intros s g s' k id [= <-].
  - intros s w s' Hok [= <-]. split; simpl; [apply (mo_goal s Hok)| |apply (mo_job s Hok)].
    intros k w'. rewrite lookup_insert. case_decide; [|by apply (mo_wait s Hok)].
    by intros [= <-].
  - intros s w s' k [= <-]. unfold mem_Wait. simpl. rewrite lookup_insert.
    do 2 case_decide; subst; try done. simpl. by rewrite copy_wait_idem.
  - by intros s w s' k [= <-].
  - by intros s w s' k [= <-].
  - by intros s w s' k id [= <-].
  - intros s g id t s' [] [= <-]. by split.
  - intros s g id t s' k id' j [= <-] Hj Hg. unfold mem_Candidate. simpl.
    unfold LookupJob in *. simpl. rewrite Hj. simpl. rewrite bool_decide_false by done.
    rewrite lookup_insert. do 2 case_decide; naive_solver.
  - by intros s g id t s' k [= <-].
  - by intros s g id t s' k [= <-].
  - by intros s g id t s' k [= <-].
  - intros s e [[k He]|[[k He]|[[k He]|[k He]]]].
    + apply lookup_job_err in He as ->. done.
    + unfold mem_Goal in He. destruct (m_GoalRows s !! k); simpl in He; by simplify_eq.
    + unfold mem_Candidates in He. destruct (map_result _ _) eqn:Hm; simpl in He; [done|].
      simplify_eq. apply map_result_err in Hm as (kt & _ & Hkt).
      apply lookup_job_err in Hkt as ->. done.
    + done.
  - intros s tenant id j. apply mem_nodes_job.
  - intros s k w d. apply mem_nodes_wait.
Defined.
End memory.
