(* ===== verification/GoalEngine.v ===== *)
(** * GoalEngine: goal and dependency-wait transitions

    [internal/goalstate/state.go]: candidates, failing and resolving goals,
    registering, evaluating, settling and closing dependency waits, and the cycle
    check.  The engine runs against any [GoalStore]; [now] is the engine's clock. *)

From S2P Require Import Prelude Types GoalStore.

Section engine.
Context {St : Type} `{GoalStore St}.
Variable now : time.

(** [closePending] *)
Definition close_dep (d : DependencyResolution) : DependencyResolution :=
  if bool_decide (dr_State d = DependencyPending)
  then d <| dr_State := DependencyCancelled |> <| dr_BlockedReason := "" |>
  else d.
Definition closePending (w : DependencyWaitInfo) : DependencyWaitInfo :=
  w <| wi_Dependencies := close_dep <$> wi_Dependencies w |>.

(** [w.Deadline] is set and [Now] is not before it. *)
Definition deadline_passed (w : DependencyWaitInfo) : bool :=
  match wi_Deadline w with Some d => negb (Before now d) | None => false end.

Definition job_dependency_failure (j : Job) : GoalFailure :=
  mkGoalFailure "job_dependency_failed" "" (jk_JobId (j_Key j))
    ("prerequisite job " +:+ jk_JobId (j_Key j) +:+ " did not succeed") [] [] now.

(** The body of [Evaluate]'s loop for one pending dependency. *)
Definition evaluate_dep (s : St) (tenant : string) (d : DependencyResolution)
    : result DependencyResolution :=
  let t := dr_Target d in
  if negb (str_empty (dt_GoalID t)) then
    let? g := st_Goal s (mkGoalKey tenant (dt_GoalID t)) in
    match gi_State g with
    | GoalSucceeded => Ok (d <| dr_State := DependencySatisfied |>
                             <| dr_SatisfiedByJobID := gi_SuccessfulJobID g |>)
    | GoalFailed => Ok (d <| dr_State := DependencyFailed |> <| dr_Failure := gi_Failure g |>)
    | GoalOpen =>
        let? js := st_Candidates s (gi_GoalKey g) in
        Ok (d <| dr_BlockedReason :=
              if existsb (λ j, negb (j_Terminal j)) js
              then "waiting_for_execution" else "awaiting_candidate" |>)
    end
  else
    let? j := st_Job s (mkJobKey tenant (dt_JobID t)) in
    if j_Terminal j then
      if j_Success j || String.eqb (dr_Condition d) JobPrereqComplete
      then Ok (d <| dr_State := DependencySatisfied |>
                 <| dr_SatisfiedByJobID := jk_JobId (j_Key j) |>)
      else Ok (d <| dr_State := DependencyFailed |>
                 <| dr_Failure := Some (job_dependency_failure j) |>)
    else Ok d.

(** The loop: stops at the first failed dependency, or reports whether all are
    resolved. *)
Inductive eval_outcome :=
  | EvalFailed (index : nat) (failed : DependencyResolution) (deps : list DependencyResolution)
  | EvalDone (all : bool) (deps : list DependencyResolution).

Fixpoint evaluate_loop (s : St) (tenant : string) (before : list DependencyResolution)
    (all : bool) (rest : list DependencyResolution) : result eval_outcome :=
  match rest with
  | [] => Ok (EvalDone all before)
  | d :: rest =>
      if bool_decide (dr_State d ≠ DependencyPending)
      then evaluate_loop s tenant (before ++ [d]) all rest
      else
        let? d' := evaluate_dep s tenant d in
        match dr_State d' with
        | DependencyFailed => Ok (EvalFailed (length before) d' (before ++ d' :: rest))
        | DependencyPending => evaluate_loop s tenant (before ++ [d']) false rest
        | _ => evaluate_loop s tenant (before ++ [d' <| dr_BlockedReason := "" |>]) all rest
        end
  end.

(** [Engine.Evaluate] *)
Definition Evaluate (s : St) (w : DependencyWaitInfo) : result DependencyWaitInfo :=
  if bool_decide (wi_State w ≠ DependencyPending) then Ok w
  else if deadline_passed w then Ok (closePending (w <| wi_State := DependencyTimedOut |>))
  else
    let? o := evaluate_loop s (jk_TenantId (wi_JobKey w)) [] true (wi_Dependencies w) in
    match o with
    | EvalFailed i d deps =>
        Ok (closePending (w <| wi_State := DependencyFailed |>
                            <| wi_FailedDependencyIndex := Some i |>
                            <| wi_Failure := dr_Failure d |>
                            <| wi_Dependencies := deps |>))
    | EvalDone all deps =>
        let w' := w <| wi_Dependencies := deps |> in
        Ok (if all then w' <| wi_State := DependencySatisfied |> else w')
    end.

Definition save_evaluated (w : DependencyWaitInfo) : M St () :=
  let! w' := m_read (λ s, Evaluate s w) in m_write (λ s, st_SaveWait s w').

(** [Engine.SettleTarget] *)
Definition SettleTarget (tenant : string) (target : DependencyTarget) : M St () :=
  let! ws := m_read (λ s, st_TargetWaits s tenant target) in
  m_iter save_evaluated ws.

(** [Engine.resolve] *)
Definition succeeded_goal (g : GoalInfo) (jobID : string) : GoalInfo :=
  g <| gi_State := GoalSucceeded |> <| gi_SuccessfulJobID := jobID |>
    <| gi_Revision := 2%Z |> <| gi_UpdatedAt := now |> <| gi_ClosedAt := Some now |>.

Definition resolve (g : GoalInfo) (jobID : string) : M St GoalInfo :=
  if bool_decide (gi_State g ≠ GoalOpen) then m_ret g
  else
    do! m_write (λ s, st_SaveGoal s (succeeded_goal g jobID)) in
    do! SettleTarget (gk_TenantId (gi_GoalKey g)) (mkTarget "" (gk_GoalID (gi_GoalKey g))) in
    m_ret (succeeded_goal g jobID).

(** [Engine.CloseConsumer] *)
Definition close_wait (w : DependencyWaitInfo) : M St () :=
  if bool_decide (wi_State w = DependencyPending) then
    let! w' := m_read (λ s, Evaluate s w) in
    let w'' := if bool_decide (wi_State w' = DependencyPending)
               then w' <| wi_State := DependencyCancelled |> else w' in
    m_write (λ s, st_SaveWait s (closePending w''))
  else m_ret tt.
Definition CloseConsumer (key : JobKey) : M St () :=
  let! ws := m_read (λ s, st_ConsumerWaits s key) in
  m_iter close_wait ws.

Definition goal_id_le (a b : GoalKey) : Prop := str_le (gk_GoalID a) (gk_GoalID b).
#[local] Instance goal_id_le_dec a b : Decision (goal_id_le a b).
Proof. unfold goal_id_le. apply _. Defined.

Definition resolve_key (jobID : string) (k : GoalKey) : M St () :=
  let! g := m_read (λ s, st_Goal s k) in do! resolve g jobID in m_ret tt.

(** [Engine.Complete] *)
Definition Complete (key : JobKey) : M St () :=
  let! j := m_read (λ s, st_Job s key) in
  do! (if j_Success j then
     let! goals := m_read (λ s, st_Goals s key) in
     m_iter (resolve_key (jk_JobId (j_Key j))) (merge_sort goal_id_le goals)
   else m_ret tt) in
  do! CloseConsumer key in
  SettleTarget (jk_TenantId key) (mkTarget (jk_JobId key) "").

(** ** The cycle check ([Engine.CheckCycle])

    The neighbours [visit] follows: an open goal leads to its running
    candidates, a running job to the pending dependencies of its live waits. *)
Definition live_wait (w : DependencyWaitInfo) : bool :=
  bool_decide (wi_State w = DependencyPending) && negb (deadline_passed w).
Definition pending_targets (w : DependencyWaitInfo) : list DependencyTarget :=
  dr_Target <$> filter (λ d, dr_State d = DependencyPending) (wi_Dependencies w).

Definition successors (s : St) (tenant : string) (n : DependencyTarget)
    : result (list DependencyTarget) :=
  if negb (str_empty (dt_GoalID n)) then
    let? g := st_Goal s (mkGoalKey tenant (dt_GoalID n)) in
    if bool_decide (gi_State g = GoalOpen) then
      let? js := st_Candidates s (gi_GoalKey g) in
      Ok ((λ j, mkTarget (jk_JobId (j_Key j)) "") <$> filter (λ j, j_Terminal j = false) js)
    else Ok []
  else
    let? j := st_Job s (mkJobKey tenant (dt_JobID n)) in
    if j_Terminal j then Ok []
    else
      let? ws := st_ConsumerWaits s (mkJobKey tenant (dt_JobID n)) in
      Ok (filter (λ w, live_wait w = true) ws ≫= pending_targets).

(** The closure [visit] over the sets [active] and [done].  The recursion is
    bounded by [fuel], which [CheckCycle] takes larger than any path. *)
Fixpoint visit (s : St) (tenant : string) (fuel : nat)
    (ad : gset DependencyTarget * gset DependencyTarget) (n : DependencyTarget)
    : result (gset DependencyTarget * gset DependencyTarget) :=
  match fuel with
  | O => Err ErrOutOfFuel
  | S fuel =>
      if bool_decide (n ∈ ad.1) then Err ErrDependencyCycle
      else if bool_decide (n ∈ ad.2) then Ok ad
      else
        let? ms := successors s tenant n in
        let? ad' := fold_result (visit s tenant fuel) ({[n]} ∪ ad.1, ad.2) ms in
        Ok (ad'.1 ∖ {[n]}, {[n]} ∪ ad'.2)
  end.

Definition cycle_fuel (s : St) (tenant : string) (start : DependencyTarget) : nat :=
  S (size ({[start]} ∪ st_nodes s tenant)).

Definition CheckCycle (tenant : string) (start : DependencyTarget) (s : St) : result () :=
  let? _ := visit s tenant (cycle_fuel s tenant start) (∅, ∅) start in Ok tt.

(** [sameDescriptor] *)
Definition same_dep (d : DependencyResolution) (r : Dependency) : bool :=
  bool_decide (dr_Target d = dep_Target r) && String.eqb (dr_Condition d) (dep_Condition r).
Definition sameDescriptor (w : DependencyWaitInfo) (r : DependencyWait) : bool :=
  bool_decide (wi_Deadline w = dw_Deadline r) &&
  Nat.eqb (length (wi_Dependencies w)) (length (dw_Dependencies r)) &&
  forallb (λ p, same_dep p.1 p.2) (zip (wi_Dependencies w) (dw_Dependencies r)).

(** [Register]'s loop: each target must exist and not be the job itself. *)
Definition check_target (s : St) (key : JobKey) (d : Dependency) : result DependencyResolution :=
  let t := dep_Target d in
  if String.eqb (dt_JobID t) (jk_JobId key) then Err ErrDependencyCycle
  else
    let? _ := (if negb (str_empty (dt_JobID t))
         then let? _ := st_Job s (mkJobKey (jk_TenantId key) (dt_JobID t)) in Ok tt
         else let? _ := st_Goal s (mkGoalKey (jk_TenantId key) (dt_GoalID t)) in Ok tt) in
    Ok (mkResolution t (dep_Condition d) DependencyPending "" "" None).

(** [Engine.Register]: a wait already stored under the key must describe the
    same dependencies and is only evaluated again; otherwise it is created. *)
Definition register_again (old : DependencyWaitInfo) (req : DependencyWait)
    : M St DependencyWaitInfo :=
  if sameDescriptor old req then
    let! w := m_read (λ s, Evaluate s old) in
    do! m_write (λ s, st_SaveWait s w) in m_ret w
  else m_err ErrDependencyWaitConflict.

Definition register_new (key : JobKey) (req : DependencyWait) : M St DependencyWaitInfo :=
  let! deps := m_read (λ s, map_result (check_target s key) (dw_Dependencies req)) in
  let! w := m_read (λ s, Evaluate s (mkWaitInfo key (dw_WaitID req) DependencyPending
                                       (dw_Deadline req) deps None None)) in
  do! m_write (λ s, st_SaveWait s w) in
  do! m_read (CheckCycle (jk_TenantId key) (mkTarget (jk_JobId key) "")) in
  m_ret w.

Definition Register (key : JobKey) (req : DependencyWait) (submission : bool)
    : M St DependencyWaitInfo :=
  do! m_read (λ _, ValidateDependencyWait (Some req) submission) in
  do! m_read (λ s, st_Job s key) in
  λ s, match st_Wait s (mkWaitKey key (dw_WaitID req)) with
  | Ok old => register_again old req s
  | Err ErrDependencyWaitNotFound => register_new key req s
  | Err e => (s, Err e)
  end.

(** [Engine.Add] *)
Definition Add (req : AddGoalCandidateRequest) : M St GoalCandidateInfo :=
  do! m_read (λ _, GoalKey_Validate (ac_GoalKey req)) in
  do! m_read (λ _, guard_err (negb (str_empty (ac_JobID req))) ErrInvalidDependency) in
  let! g := m_read (λ s, st_Goal s (ac_GoalKey req)) in
  let! j := m_read (λ s, st_Job s (mkJobKey (gk_TenantId (ac_GoalKey req)) (ac_JobID req))) in
  let! c := m_read (λ s, st_Candidate s (ac_GoalKey req) (ac_JobID req)) in
  if (c.2 : bool) then
    m_ret (mkCandidateInfo (gi_GoalKey g) (ac_JobID req) c.1 (gi_State g) (gi_SuccessfulJobID g))
  else if bool_decide (gi_State g ≠ GoalOpen) then m_err ErrGoalConflict
  else
    do! m_write (λ s, st_InsertCandidate s (ac_GoalKey req) (ac_JobID req) now) in
    let! g' := (if j_Success j then resolve g (jk_JobId (j_Key j))
          else if j_Terminal j then m_ret g
          else do! m_read (CheckCycle (jk_TenantId (j_Key j))
                         (mkTarget "" (gk_GoalID (gi_GoalKey g)))) in m_ret g) in
    m_ret (mkCandidateInfo (gi_GoalKey g') (ac_JobID req) now (gi_State g') (gi_SuccessfulJobID g')).

(** [Engine.Fail] *)
Definition goal_failure (req : FailGoalRequest) (js : list Job) : GoalFailure :=
  mkGoalFailure "goal_failed" (gk_GoalID (fr_GoalKey req)) "" (fr_Message req)
    (merge_sort str_le ((jk_JobId ∘ j_Key) <$> filter (λ j, j_Terminal j = true) js))
    (merge_sort str_le ((jk_JobId ∘ j_Key) <$> filter (λ j, j_Terminal j = false) js))
    now.

Definition failed_goal (g : GoalInfo) (req : FailGoalRequest) (js : list Job) : GoalInfo :=
  g <| gi_State := GoalFailed |> <| gi_Revision := 2%Z |> <| gi_UpdatedAt := now |>
    <| gi_ClosedAt := Some now |> <| gi_Failure := Some (goal_failure req js) |>.

Definition already_failed (g : GoalInfo) (msg : string) : bool :=
  bool_decide (gi_State g = GoalFailed) &&
  match gi_Failure g with Some f => String.eqb (gf_Message f) msg | None => false end.

Definition Fail (req : FailGoalRequest) : M St GoalInfo :=
  do! m_read (λ _, FailGoalRequest_Validate req) in
  let! g := m_read (λ s, st_Goal s (fr_GoalKey req)) in
  if already_failed g (fr_Message req) then m_ret g
  else if bool_decide (gi_State g ≠ GoalOpen) then m_err ErrGoalConflict
  else
    let! js := m_read (λ s, st_Candidates s (fr_GoalKey req)) in
    do! m_write (λ s, st_SaveGoal s (failed_goal g req js)) in
    do! SettleTarget (gk_TenantId (fr_GoalKey req)) (mkTarget "" (gk_GoalID (fr_GoalKey req))) in
    m_ret (failed_goal g req js).
End engine.
