(* ===== verification/GoalCycles.v ===== *)
(** * GoalCycles: correctness of the cycle check

    [CheckCycle] answers exactly whether a cycle of unresolved dependencies is
    reachable from its start, and always terminates.  From it follows that
    registering waits and adding candidates keep the dependency graph acyclic. *)

From S2P Require Import Prelude Types GoalStore GoalEngine.

Section cycles.
Context {St : Type} `{GoalStoreLaws St}.

(** The graph of unresolved dependencies of a tenant at time [now]: an open goal
    waits for its running candidates, a running job for the pending dependencies
    of its waits whose deadline has not passed. *)
Inductive edge (now : time) (s : St) (tenant : string) : relation DependencyTarget :=
  | edge_goal n g id j t :
      dt_GoalID n ≠ "" → st_Goal s (mkGoalKey tenant (dt_GoalID n)) = Ok g →
      gi_State g = GoalOpen → st_Job s (mkJobKey tenant id) = Ok j → j_Terminal j = false →
      st_Candidate s (mkGoalKey tenant (dt_GoalID n)) id = Ok (t, true) →
      edge now s tenant n (mkTarget id "")
  | edge_job n j wid w d :
      dt_GoalID n = "" → st_Job s (mkJobKey tenant (dt_JobID n)) = Ok j → j_Terminal j = false →
      st_Wait s (mkWaitKey (mkJobKey tenant (dt_JobID n)) wid) = Ok w →
      live_wait now w = true → d ∈ wi_Dependencies w → dr_State d = DependencyPending →
      edge now s tenant n (dr_Target d).

(** [successors] lists exactly the edges. *)
Lemma successors_spec now s tenant n ms m :
  st_ok s → successors now s tenant n = Ok ms → m ∈ ms ↔ edge now s tenant n m.
Proof.
  intros Hok Hms. unfold successors in Hms.
  destruct (str_empty (dt_GoalID n)) eqn:He; simpl in Hms.
  - apply str_empty_spec in He.
    destruct (st_Job s _) as [j|] eqn:Hj; simpl in Hms; [|done].
    destruct (j_Terminal j) eqn:Ht.
    { simplify_eq. split; [set_solver|]. by destruct 1; congruence. }
    destruct (st_ConsumerWaits s _) as [ws|] eqn:Hc; simpl in Hms; [|done].
    injection Hms as <-. rewrite list_elem_of_bind. split.
    + intros (w & Hm & [Hl Hw]%list_elem_of_filter).
      apply (consumer_waits_spec _ _ _ _ Hok Hc) in Hw as (Hw & Hk & _).
      apply list_elem_of_fmap in Hm as (d & -> & [Hd1 Hd2]%list_elem_of_filter).
      eapply (edge_job _ _ _ _ j (wi_WaitID w) w d); try done. by rewrite <- Hk.
    + destruct 1 as [|n j' wid w d _ Hj' _ Hw Hl Hd Hp]; [congruence|].
      pose proof (wait_keyed _ _ _ Hok Hw) as Hk. exists w. split.
      * apply list_elem_of_fmap. exists d. split; [done|]. by apply list_elem_of_filter.
      * apply list_elem_of_filter. split; [done|].
        apply (consumer_waits_spec _ _ _ _ Hok Hc). rewrite Hk. split; [done|].
        split; [by injection Hk|]. unfold live_wait in Hl.
        apply andb_true_iff in Hl as [Hl _]. by apply bool_decide_eq_true in Hl.
  - assert (dt_GoalID n ≠ "") as Hne by (intros Heq; by rewrite Heq in He).
    destruct (st_Goal s _) as [g|] eqn:Hg; simpl in Hms; [|done].
    pose proof (goal_key _ _ _ Hok Hg) as Hgk.
    case_bool_decide as Ho.
    2: { simplify_eq. split; [set_solver|]. by destruct 1; congruence. }
    destruct (st_Candidates s _) as [js|] eqn:Hc; simpl in Hms; [|done].
    injection Hms as <-. rewrite Hgk in Hc. rewrite list_elem_of_fmap. split.
    + intros (j & -> & [Hj1 Hj2]%list_elem_of_filter).
      apply (candidates_spec _ _ _ _ Hok Hc) in Hj2 as (Hj & Ht & t & Hcand). simpl in Ht.
      eapply (edge_goal _ _ _ _ g _ j t); try done.
      rewrite <- Ht. by destruct (j_Key j).
    + destruct 1 as [n g' id j t _ Hg' _ Hj Hterm Hcand|]; [|congruence].
      pose proof (job_key _ _ _ Hok Hj) as Hjk. exists j. rewrite Hjk. split; [done|].
      apply list_elem_of_filter. split; [done|].
      apply (candidates_spec _ _ _ _ Hok Hc). rewrite Hjk. simpl. eauto.
Qed.

Definition cycle_from (now : time) (s : St) (tenant : string) (n : DependencyTarget) : Prop :=
  ∃ x, rtc (edge now s tenant) n x ∧ tc (edge now s tenant) x x.

Definition acyclic (now : time) (s : St) (tenant : string) : Prop :=
  ∀ x, ¬ tc (edge now s tenant) x x.

(** Well-founded from [n]: no infinite path of dependencies, hence no cycle. *)
Definition settled (now : time) (s : St) (tenant : string) (n : DependencyTarget) : Prop :=
  Acc (flip (edge now s tenant)) n.

Lemma acc_no_cycle {A} (R : relation A) x : Acc (flip R) x → ¬ tc R x x.
Proof.
  induction 1 as [x _ IH]. intros Hc.
  inversion Hc as [y z Hxx|y z w Hxz Hzx]; subst; [by apply (IH x Hxx), tc_once|].
  apply (IH z Hxz). eapply tc_r; eauto.
Qed.

Lemma acc_rtc {A} (R : relation A) x y : Acc (flip R) x → rtc R x y → Acc (flip R) y.
Proof. intros Hx. induction 1 as [|x y z Hxy _ IH]; [done|]. apply IH. by apply Hx. Qed.

Lemma settled_no_cycle now s tenant n : settled now s tenant n → ¬ cycle_from now s tenant n.
Proof. intros Hn (x & Hx & Hc). eapply acc_no_cycle; [|done]. by eapply acc_rtc. Qed.

Section visit.
Variables (now : time) (s : St) (tenant : string).
Hypothesis Hok : st_ok s.
Abbreviation V := (visit now s tenant).
Abbreviation E := (edge now s tenant).

(** A visit returns the active set it got, and only adds settled nodes to [done]. *)
Definition visit_post (ad ad' : gset DependencyTarget * gset DependencyTarget) : Prop :=
  ad'.1 = ad.1 ∧ ad.2 ⊆ ad'.2 ∧ ∀ x, x ∈ ad'.2 → x ∈ ad.2 ∨ settled now s tenant x.

Lemma visit_fold_ok fuel :
  (∀ ad n ad', V fuel ad n = Ok ad' → (∀ x, x ∈ ad.2 → settled now s tenant x) →
     visit_post ad ad' ∧ n ∈ ad'.2) →
  ∀ ms ad ad', fold_result (V fuel) ad ms = Ok ad' →
    (∀ x, x ∈ ad.2 → settled now s tenant x) →
    visit_post ad ad' ∧ ∀ m, m ∈ ms → m ∈ ad'.2.
Proof.
  intros IHv ms. induction ms as [|m ms IH]; intros ad ad' Hf Hd; simpl in Hf.
  { simplify_eq. split; [split; [done|set_solver]|set_solver]. }
  destruct (V fuel ad m) as [ad1|] eqn:Hm; simpl in Hf; [|done].
  destruct (IHv _ _ _ Hm Hd) as [(Ha1 & Hs1 & Hx1) Hm1].
  assert (∀ x, x ∈ ad1.2 → settled now s tenant x) as Hd1.
  { intros x [?|?]%Hx1; auto. }
  destruct (IH _ _ Hf Hd1) as [(Ha2 & Hs2 & Hx2) Hms].
  split; [split; [congruence|split; [set_solver|]]|set_solver].
  intros x [?|?]%Hx2; [by apply Hx1|by right].
Qed.

Lemma visit_ok fuel ad n ad' :
  V fuel ad n = Ok ad' → (∀ x, x ∈ ad.2 → settled now s tenant x) →
  visit_post ad ad' ∧ n ∈ ad'.2.
Proof.
  revert ad n ad'. induction fuel as [|fuel IH]; intros ad n ad' Hv Hd; simpl in Hv; [done|].
  case_bool_decide as Hact; [done|].
  case_bool_decide as Hdone; [simplify_eq; split; [split; set_solver|done]|].
  destruct (successors now s tenant n) as [ms|] eqn:Hms; simpl in Hv; [|done].
  destruct (fold_result _ _ _) as [ad1|] eqn:Hf; simpl in Hv; [|done].
  destruct (visit_fold_ok fuel IH _ _ _ Hf Hd) as [(Ha & Hs & Hx) Hall]. simpl in *.
  simplify_eq/=. split; [|set_solver]. split; [rewrite Ha; simpl; set_solver|].
  split; [simpl; set_solver|]. simpl.
  assert (settled now s tenant n) as Hn.
  { constructor. intros m Hm. apply (successors_spec now s tenant n ms) in Hm; [|done..].
    destruct (Hx m (Hall m Hm)); [by apply Hd|done]. }
  intros x [->%elem_of_singleton|Hx']%elem_of_union; [by right|auto].
Qed.

(** If the check reports a cycle there is one. *)
Lemma visit_fold_err fuel e :
  (∀ ad n, V fuel ad n = Err e → (∀ a, a ∈ ad.1 → tc E a n) →
     (∀ x, x ∈ ad.2 → settled now s tenant x) →
     (e = ErrDependencyCycle ∧ cycle_from now s tenant n) ∨
     (e = ErrOutOfFuel) ∨ ∃ m, rtc E n m ∧ successors now s tenant m = Err e) →
  ∀ ms ad, fold_result (V fuel) ad ms = Err e →
    (∀ a m, a ∈ ad.1 → m ∈ ms → tc E a m) →
    (∀ x, x ∈ ad.2 → settled now s tenant x) →
    ∃ n, n ∈ ms ∧ ((e = ErrDependencyCycle ∧ cycle_from now s tenant n) ∨
     (e = ErrOutOfFuel) ∨ ∃ m, rtc E n m ∧ successors now s tenant m = Err e).
Proof.
  intros IHv ms. induction ms as [|m ms IH]; intros ad Hf Ha Hd; simpl in Hf; [done|].
  destruct (V fuel ad m) as [ad1|e1] eqn:Hm; simpl in Hf.
  - destruct (visit_ok _ _ _ _ Hm Hd) as [(Ha1 & Hs1 & Hx1) _].
    destruct (IH ad1 Hf) as (n & Hn & Hres); [|intros x [?|?]%Hx1; auto|exists n; set_solver].
    rewrite Ha1. set_solver.
  - simplify_eq. exists m. split; [set_solver|]. eapply IHv; [done| |done]. set_solver.
Qed.

Lemma visit_err fuel e ad n :
  V fuel ad n = Err e → (∀ a, a ∈ ad.1 → tc E a n) →
  (∀ x, x ∈ ad.2 → settled now s tenant x) →
  (e = ErrDependencyCycle ∧ cycle_from now s tenant n) ∨
  (e = ErrOutOfFuel) ∨ ∃ m, rtc E n m ∧ successors now s tenant m = Err e.
Proof.
  revert ad n. induction fuel as [|fuel IH]; intros ad n Hv Ha Hd; simpl in Hv.
  { simplify_eq. auto. }
  case_bool_decide as Hact.
  { simplify_eq. left. split; [done|]. exists n. split; [done|]. auto. }
  case_bool_decide as Hdone; [done|].
  destruct (successors now s tenant n) as [ms|] eqn:Hms; simpl in Hv.
  2: { simplify_eq. right; right. by exists n. }
  destruct (fold_result _ _ _) as [ad1|e1] eqn:Hf; simpl in Hv; [done|]. simplify_eq.
  assert (∀ m, m ∈ ms → E n m) as Hedge by (intros m Hm; by eapply successors_spec).
  destruct (visit_fold_err fuel e IH _ _ Hf) as (m & Hm & Hres).
  - simpl. intros a m [->%elem_of_singleton|Ha']%elem_of_union Hm; [by apply tc_once, Hedge|].
    eapply tc_r; [by apply Ha|auto].
  - done.
  - pose proof (Hedge m Hm) as Hnm.
    destruct Hres as [[-> (x & Hx & Hc)]|[->|(m' & Hm' & Hs)]].
    + left. split; [done|]. exists x. split; [by eapply rtc_l|done].
    + by right; left.
    + right; right. exists m'. split; [by eapply rtc_l|done].
Qed.

(** Fuel: the active nodes are distinct nodes of a finite set [N]. *)
Lemma visit_fuel (N : gset DependencyTarget) fuel ad n :
  (∀ x ms, x ∈ N → successors now s tenant x = Ok ms → ∀ m, m ∈ ms → m ∈ N) →
  (∀ x, successors now s tenant x ≠ Err ErrOutOfFuel) →
  n ∈ N → ad.1 ⊆ N → size N < fuel + size ad.1 →
  (∀ x, x ∈ ad.2 → settled now s tenant x) →
  V fuel ad n ≠ Err ErrOutOfFuel.
Proof.
  intros HN Hsane. revert ad n.
  induction fuel as [|fuel IH]; intros ad n Hn Ha Hsz Hd; simpl.
  { apply subseteq_size in Ha. lia. }
  case_bool_decide as Hact; [done|]. case_bool_decide as Hdone; [done|].
  destruct (successors now s tenant n) as [ms|e] eqn:Hms; simpl.
  2: { intros [= ->]. by apply (Hsane n). }
  assert (size ({[n]} ∪ ad.1) = S (size ad.1)) as Hsz1.
  { rewrite size_union by set_solver. by rewrite size_singleton. }
  assert (∀ m, m ∈ ms → m ∈ N) as HmN by (intros; eapply HN; eauto).
  assert (fold_result (V fuel) ({[n]} ∪ ad.1, ad.2) ms ≠ Err ErrOutOfFuel) as Hfold.
  { assert (∀ ad1, ad1.1 = {[n]} ∪ ad.1 → (∀ x, x ∈ ad1.2 → settled now s tenant x) →
      fold_result (V fuel) ad1 ms ≠ Err ErrOutOfFuel) as Hgen; [|by apply Hgen].
    clear Hms. induction ms as [|m ms IHms]; intros ad1 Ha1 Hd1; simpl; [done|].
    destruct (V fuel ad1 m) as [ad2|e] eqn:Hm; simpl.
    - destruct (visit_ok _ _ _ _ Hm Hd1) as [(Ha2 & _ & Hx2) _].
      apply IHms; [set_solver|congruence|]. intros x [?|?]%Hx2; auto.
    - intros [= ->]. apply (IH ad1 m); [set_solver|rewrite Ha1; set_solver| |done|done].
      rewrite Ha1, Hsz1. lia. }
  destruct (fold_result _ _ _); simpl; [done|]. intros [= ->]. done.
Qed.
End visit.

Lemma successors_sane now s tenant x e :
  successors now s tenant x = Err e → e ≠ ErrDependencyCycle ∧ e ≠ ErrOutOfFuel.
Proof.
  intros Hs. apply (read_errors s). unfold successors in Hs.
  destruct (negb _).
  - destruct (st_Goal s _) as [g|] eqn:Hg; simpl in Hs; [|simplify_eq; eauto].
    case_bool_decide; [|done]. destruct (st_Candidates s _) eqn:Hc; simpl in Hs; [done|].
    simplify_eq. eauto.
  - destruct (st_Job s _) as [j|] eqn:Hj; simpl in Hs; [|simplify_eq; eauto].
    destruct (j_Terminal j); [done|].
    destruct (st_ConsumerWaits s _) eqn:Hc; simpl in Hs; [done|]. simplify_eq. eauto 6.
Qed.

Lemma edge_nodes now s tenant n m :
  st_ok s → edge now s tenant n m → m ∈ st_nodes s tenant.
Proof.
  intros Hok [n' g id j t _ _ _ Hj _ _|n' j wid w d _ _ _ Hw _ Hd _].
  - by eapply nodes_job.
  - exact (nodes_wait _ _ _ _ Hw Hd).
Qed.

(** CheckCycle is total and exact. *)
Lemma check_cycle_spec now s tenant start :
  st_ok s →
  match CheckCycle now tenant start s with
  | Ok _ => settled now s tenant start
  | Err e => (e = ErrDependencyCycle ∧ cycle_from now s tenant start) ∨
             (e ≠ ErrDependencyCycle ∧ e ≠ ErrOutOfFuel ∧
              ∃ n, rtc (edge now s tenant) start n ∧ successors now s tenant n = Err e)
  end.
Proof.
  intros Hok. unfold CheckCycle.
  destruct (visit _ _ _ _ _ _) as [ad|e] eqn:Hv; simpl.
  - destruct (visit_ok _ _ _ Hok _ _ _ _ Hv) as [(_ & _ & Hx) Hn]; [set_solver|].
    by destruct (Hx _ Hn).
  - destruct (visit_err _ _ _ Hok _ _ _ _ Hv) as [[-> Hc]|[->|(m & Hm & He)]]; [set_solver..|by left| |].
    + exfalso. revert Hv.
      apply (visit_fuel now s tenant Hok ({[start]} ∪ st_nodes s tenant)); try set_solver.
      * intros x ms _ Hms m Hm. apply elem_of_union_r.
        eapply edge_nodes; [done|]. by eapply successors_spec.
      * intros x Hx. apply successors_sane in Hx as [_ Hx]. by apply Hx.
      * unfold cycle_fuel. lia.
    + right. destruct (successors_sane _ _ _ _ _ He). eauto.
Qed.

(** New edges that all leave one checked node close no cycle.  Nodes nothing
    points to lie on no cycle, so their edges do not matter. *)
Lemma acyclic_extend now s s' tenant n :
  acyclic now s tenant →
  (∀ y x m, edge now s' tenant y x → x ≠ n → edge now s' tenant x m → edge now s tenant x m) →
  settled now s' tenant n →
  acyclic now s' tenant.
Proof.
  intros Hac Hsub Hn x Hx.
  assert (∀ a b, tc (edge now s' tenant) a b → ∀ y, edge now s' tenant y a →
            rtc (edge now s' tenant) a n ∧ tc (edge now s' tenant) n b ∨
            tc (edge now s tenant) a b) as Hsplit.
  { intros a b. induction 1 as [a b Hab|a c b Hac' Hcb IH]; intros y Hy.
    - destruct (decide (a = n)) as [->|Hne]; [left; split; [done|by apply tc_once]|].
      right. by eapply tc_once, Hsub.
    - destruct (decide (a = n)) as [->|Hne]; [left; split; [done|by eapply tc_l]|].
      destruct (IH a Hac') as [[IH1 IH2]|IH']; [left; split; [by eapply rtc_l|done]|].
      right. eapply tc_l; [by eapply Hsub|done]. }
  assert (∃ y, edge now s' tenant y x) as [y Hy].
  { clear -Hx. induction Hx as [a b Hab|a c b _ _ IH]; [by exists a|done]. }
  destruct (Hsplit x x Hx y Hy) as [[H1 H2]|H1]; [|by apply (Hac x)].
  eapply (acc_no_cycle _ n Hn). eapply tc_rtc_r; eauto.
Qed.

Lemma acyclic_mono now now' s s' tenant :
  acyclic now s tenant →
  (∀ x m, edge now' s' tenant x m → edge now s tenant x m) →
  acyclic now' s' tenant.
Proof.
  intros Hac Hsub x Hx. apply (Hac x). revert Hx. apply tc_congruence with (f := id). auto.
Qed.
End cycles.
