(* ===== verification/GoalWaits.v ===== *)
(** * GoalWaits: evaluating and settling dependency waits

    The resolution rule of a wait, the well-formedness of its rows, and the
    invariant that makes waits live: no pending wait keeps a dependency whose
    target is already decided. *)

From S2P Require Import Prelude Types GoalStore GoalEngine.

(** ** Specification of one dependency *)
Section verdict.
Context {St : Type} `{GoalStore St}.

(** What the target of a dependency says about it. *)
Inductive verdict (s : St) (tenant : string) (t : DependencyTarget) (cond : string)
    : DependencyState → Prop :=
  | verdict_goal_open g :
      dt_GoalID t ≠ "" → st_Goal s (mkGoalKey tenant (dt_GoalID t)) = Ok g →
      gi_State g = GoalOpen → verdict s tenant t cond DependencyPending
  | verdict_goal_succeeded g :
      dt_GoalID t ≠ "" → st_Goal s (mkGoalKey tenant (dt_GoalID t)) = Ok g →
      gi_State g = GoalSucceeded → verdict s tenant t cond DependencySatisfied
  | verdict_goal_failed g :
      dt_GoalID t ≠ "" → st_Goal s (mkGoalKey tenant (dt_GoalID t)) = Ok g →
      gi_State g = GoalFailed → verdict s tenant t cond DependencyFailed
  | verdict_job_running j :
      dt_GoalID t = "" → st_Job s (mkJobKey tenant (dt_JobID t)) = Ok j →
      j_Terminal j = false → verdict s tenant t cond DependencyPending
  | verdict_job_done j :
      dt_GoalID t = "" → st_Job s (mkJobKey tenant (dt_JobID t)) = Ok j →
      j_Terminal j = true → (j_Success j = true ∨ cond = JobPrereqComplete) →
      verdict s tenant t cond DependencySatisfied
  | verdict_job_failed j :
      dt_GoalID t = "" → st_Job s (mkJobKey tenant (dt_JobID t)) = Ok j →
      j_Terminal j = true → j_Success j = false → cond ≠ JobPrereqComplete →
      verdict s tenant t cond DependencyFailed.

Definition dep_verdict (s : St) (tenant : string) (d : DependencyResolution)
    (x : DependencyState) : Prop := verdict s tenant (dr_Target d) (dr_Condition d) x.

Lemma verdict_fun s tenant t c x y :
  verdict s tenant t c x → verdict s tenant t c y → x = y.
Proof.
  destruct 1; destruct 1; try congruence;
    match goal with
    | Hj : st_Job _ _ = Ok ?j, Hj' : st_Job _ _ = Ok ?j', Hor : _ ∨ _ |- _ =>
        assert (j = j') by congruence; subst; destruct Hor; congruence
    end.
Qed.

(** Only goal and job rows matter. *)
Lemma verdict_frame s s' tenant t c x :
  (∀ k, st_Goal s' k = st_Goal s k) → (∀ k, st_Job s' k = st_Job s k) →
  verdict s tenant t c x → verdict s' tenant t c x.
Proof.
  intros Hg Hj. destruct 1;
    [eapply verdict_goal_open|eapply verdict_goal_succeeded|eapply verdict_goal_failed
    |eapply verdict_job_running|eapply verdict_job_done|eapply verdict_job_failed];
    rewrite ?Hg, ?Hj; eauto.
Qed.

Definition same_descr (d d' : DependencyResolution) : Prop :=
  dr_Target d' = dr_Target d ∧ dr_Condition d' = dr_Condition d.

(** The loop body computes the verdict. *)
Lemma evaluate_dep_spec now s tenant d d' :
  dr_State d = DependencyPending → evaluate_dep now s tenant d = Ok d' →
  same_descr d d' ∧ dep_verdict s tenant d (dr_State d').
Proof.
  intros Hd He. unfold evaluate_dep in He.
  destruct (str_empty (dt_GoalID (dr_Target d))) eqn:Hempty; simpl in He.
  - apply str_empty_spec in Hempty. destruct (st_Job s _) as [j|] eqn:Hj; simpl in He; [|done].
    destruct (j_Terminal j) eqn:Ht.
    + destruct (j_Success j || _) eqn:Hs; simplify_eq; (split; [done|]).
      * apply orb_true_iff in Hs as [Hs|Hs%String.eqb_eq]; eapply verdict_job_done; eauto.
      * apply orb_false_iff in Hs as [Hs Hc%String.eqb_neq]. eapply verdict_job_failed; eauto.
    + simplify_eq. split; [done|]. unfold dep_verdict. rewrite Hd. eapply verdict_job_running; eauto.
  - assert (dt_GoalID (dr_Target d) ≠ "") as Hne.
    { intros Heq. rewrite Heq in Hempty. done. }
    destruct (st_Goal s _) as [g|] eqn:Hg; simpl in He; [|done].
    destruct (gi_State g) eqn:Hs.
    + destruct (st_Candidates s _) as [js|]; simpl in He; [|done]. simplify_eq.
      split; [done|]. unfold dep_verdict. simpl. rewrite Hd. eapply verdict_goal_open; eauto.
    + simplify_eq. split; [done|]. eapply verdict_goal_succeeded; eauto.
    + simplify_eq. split; [done|]. eapply verdict_goal_failed; eauto.
Qed.

(** How the loop changes a dependency it does not fail on. *)
Definition dep_step (s : St) (tenant : string) (d d' : DependencyResolution) : Prop :=
  same_descr d d' ∧
  ((dr_State d ≠ DependencyPending ∧ d' = d) ∨
   (dr_State d = DependencyPending ∧ dep_verdict s tenant d (dr_State d') ∧
    dr_State d' ≠ DependencyFailed)).

Definition resolved (d : DependencyResolution) : Prop := dr_State d ≠ DependencyPending.

Lemma evaluate_loop_spec now s tenant before all rest o :
  evaluate_loop now s tenant before all rest = Ok o →
  match o with
  | EvalDone all' deps => ∃ rest', deps = before ++ rest' ∧
      Forall2 (dep_step s tenant) rest rest' ∧
      (all' = true ↔ all = true ∧ Forall resolved rest')
  | EvalFailed i d deps => ∃ pre pre' d0 post,
      rest = pre ++ d0 :: post ∧ deps = before ++ pre' ++ d :: post ∧
      i = length before + length pre' ∧ Forall2 (dep_step s tenant) pre pre' ∧
      dr_State d0 = DependencyPending ∧ same_descr d0 d ∧
      dr_State d = DependencyFailed ∧ dep_verdict s tenant d0 DependencyFailed
  end.
Proof.
  revert before all o. induction rest as [|d rest IH]; intros before all o Ho; simpl in Ho.
  { simplify_eq. exists []. rewrite app_nil_r. split; [done|]. split; [done|].
    split; [intros ->; split; [done|constructor]|naive_solver]. }
  (* carry a processed dependency over to the tail *)
  assert (∀ d' all1, dep_step s tenant d d' →
    (all1 = true ↔ all = true ∧ resolved d') →
    evaluate_loop now s tenant (before ++ [d']) all1 rest = Ok o →
    match o with
    | EvalDone all' deps => ∃ rest', deps = before ++ rest' ∧
        Forall2 (dep_step s tenant) (d :: rest) rest' ∧
        (all' = true ↔ all = true ∧ Forall resolved rest')
    | EvalFailed i d1 deps => ∃ pre pre' d0 post,
        d :: rest = pre ++ d0 :: post ∧ deps = before ++ pre' ++ d1 :: post ∧
        i = length before + length pre' ∧ Forall2 (dep_step s tenant) pre pre' ∧
        dr_State d0 = DependencyPending ∧ same_descr d0 d1 ∧
        dr_State d1 = DependencyFailed ∧ dep_verdict s tenant d0 DependencyFailed
    end) as Hcarry.
  { intros d' all1 Hstep Hall1 Ho1. apply IH in Ho1. destruct o.
    - destruct Ho1 as (pre & pre' & d0 & post & -> & -> & -> & HF & Hrest).
      exists (d :: pre), (d' :: pre'), d0, post. rewrite length_app. simpl.
      rewrite <- !app_assoc. simpl. split; [done|]. split; [done|]. split; [lia|].
      split; [by constructor|done].
    - destruct Ho1 as (rest' & -> & HF & Hiff). exists (d' :: rest'). rewrite <- app_assoc.
      split; [done|]. split; [by constructor|]. rewrite Forall_cons, Hiff, Hall1. tauto. }
  case_bool_decide as Hp.
  { apply (Hcarry d all); [|tauto|done]. split; [done|by left]. }
  assert (dr_State d = DependencyPending) as Hd by (by destruct (dr_State d); try by destruct Hp).
  destruct (evaluate_dep now s tenant d) as [d'|] eqn:He; simpl in Ho; [|done].
  destruct (evaluate_dep_spec _ _ _ _ _ Hd He) as [Hsame Hv].
  destruct (dr_State d') eqn:Hs'.
  - apply (Hcarry d' false); [|unfold resolved; naive_solver|done].
    split; [done|]. right. rewrite Hs'. done.
  - eapply Hcarry; [..|exact Ho]; [|unfold resolved; simpl; naive_solver].
    split; [done|]. right. simpl. done.
  - simplify_eq. exists [], [], d, rest. simpl. rewrite Nat.add_0_r.
    split; [done|]. split; [done|]. split; [done|]. split; [constructor|done].
  - exfalso. inversion Hv.
  - exfalso. inversion Hv.
Qed.
End verdict.

(** ** Well-formed waits

    A pending wait still has something to wait for, and a resolved one nothing. *)
Definition wf_wait (w : DependencyWaitInfo) : Prop :=
  match wi_State w with
  | DependencyPending => Forall (λ d, dr_State d = DependencyPending ∨ dr_State d = DependencySatisfied)
                           (wi_Dependencies w) ∧ ¬ Forall resolved (wi_Dependencies w)
  | DependencySatisfied => Forall (λ d, dr_State d = DependencySatisfied) (wi_Dependencies w)
  | DependencyFailed => Forall resolved (wi_Dependencies w) ∧
      ∃ i d, wi_FailedDependencyIndex w = Some i ∧ wi_Dependencies w !! i = Some d ∧
             dr_State d = DependencyFailed ∧ wi_Failure w = dr_Failure d
  | DependencyTimedOut | DependencyCancelled => Forall resolved (wi_Dependencies w)
  end.

(** A pending wait for one pending dependency. *)
Lemma pending_wf w :
  wi_State w = DependencyPending →
  match wi_Dependencies w with
  | [d] => dr_State d = DependencyPending
  | _ => False
  end → wf_wait w.
Proof.
  unfold wf_wait. intros ->. destruct (wi_Dependencies w) as [|d [|]]; try done. intros Hd.
  split; [constructor; [by left|constructor]|]. by intros [Hr _]%Forall_cons.
Qed.

Lemma close_dep_resolved d : resolved (close_dep d).
Proof. unfold close_dep, resolved. case_bool_decide; simpl; done. Qed.

Lemma close_dep_id d : resolved d → close_dep d = d.
Proof. unfold close_dep, resolved. intros. by rewrite bool_decide_false. Qed.

Lemma close_pending_resolved w : Forall resolved (wi_Dependencies (closePending w)).
Proof. simpl. apply Forall_fmap, Forall_true. intros. apply close_dep_resolved. Qed.

Lemma copy_wait_wf w : wf_wait w → wf_wait (copy_wait w).
Proof.
  unfold wf_wait, resolved. simpl. destruct (wi_State w); rewrite ?Forall_fmap; try done.
  intros [HF (i & d & Hi & Hd & Hs & Hf)]. split; [done|].
  exists i, (copy_resolution d). rewrite list_lookup_fmap, Hd, Hf. done.
Qed.

Section evaluate.
Context {St : Type} `{GoalStore St}.

Lemma dep_step_wf (s : St) tenant deps deps' :
  Forall2 (dep_step s tenant) deps deps' →
  Forall (λ d, dr_State d = DependencyPending ∨ dr_State d = DependencySatisfied) deps →
  Forall (λ d, dr_State d = DependencyPending ∨ dr_State d = DependencySatisfied) deps'.
Proof.
  induction 1 as [|d d' deps deps' Hd HF IH]; intros Hall; [constructor|].
  apply Forall_cons in Hall as [Hd0 Hall]. constructor; [|by apply IH].
  destruct Hd as [_ [[Hp ->]|(Hp & Hv & Hnf)]]; [done|].
  inversion Hv; auto. congruence. congruence.
Qed.

(** A well-formed wait stays well-formed when evaluated. *)
Lemma evaluate_wf now (s : St) w w' :
  wf_wait w → Evaluate now s w = Ok w' → wf_wait w'.
Proof.
  intros Hwf He. unfold Evaluate in He.
  case_bool_decide as Hp; [by simplify_eq|].
  assert (wi_State w = DependencyPending) as Hw by (by destruct (wi_State w); try by destruct Hp).
  unfold wf_wait in Hwf. rewrite Hw in Hwf. destruct Hwf as [Hwf _].
  destruct (deadline_passed now w); [simplify_eq; apply close_pending_resolved|].
  destruct (evaluate_loop _ _ _ _ _ _) as [o|] eqn:Ho; simpl in He; [|done].
  apply evaluate_loop_spec in Ho. destruct o as [i d deps|all deps]; simplify_eq.
  - split; [apply close_pending_resolved|].
    destruct Ho as (pre & pre' & d0 & post & _ & -> & -> & HF & _ & _ & Hs & _).
    exists (length pre'), d. simpl. split; [done|]. rewrite list_lookup_fmap.
    rewrite list_lookup_middle by done. simpl. rewrite close_dep_id; [done|].
    unfold resolved. congruence.
  - destruct Ho as (deps' & -> & HF & Hall). simpl.
    pose proof (dep_step_wf _ _ _ _ HF Hwf) as Hwf'.
    destruct all; unfold wf_wait; simpl.
    2: { rewrite Hw. split; [done|]. intros HR. destruct Hall as [_ Hall]. by discriminate Hall. }
    destruct Hall as [Hall _]. destruct Hall as [_ Hres]; [done|].
    eapply Forall_impl; [apply Forall_and; split; [exact Hwf'|exact Hres]|].
    intros d [[?|?] ?]; [done|done].
Qed.

(** The four ways [Evaluate] can go. *)
Inductive evaluated (now : time) (s : St) (w : DependencyWaitInfo) : DependencyWaitInfo → Prop :=
  | evaluated_resolved :
      wi_State w ≠ DependencyPending → evaluated now s w w
  | evaluated_timeout :
      wi_State w = DependencyPending → deadline_passed now w = true →
      evaluated now s w (closePending (w <| wi_State := DependencyTimedOut |>))
  | evaluated_failed pre pre' d0 d post :
      wi_State w = DependencyPending → deadline_passed now w = false →
      wi_Dependencies w = pre ++ d0 :: post →
      Forall2 (dep_step s (jk_TenantId (wi_JobKey w))) pre pre' →
      dr_State d0 = DependencyPending → same_descr d0 d → dr_State d = DependencyFailed →
      dep_verdict s (jk_TenantId (wi_JobKey w)) d0 DependencyFailed →
      evaluated now s w
        (closePending (w <| wi_State := DependencyFailed |>
                         <| wi_FailedDependencyIndex := Some (length pre') |>
                         <| wi_Failure := dr_Failure d |>
                         <| wi_Dependencies := pre' ++ d :: post |>))
  | evaluated_satisfied deps :
      wi_State w = DependencyPending → deadline_passed now w = false →
      Forall2 (dep_step s (jk_TenantId (wi_JobKey w))) (wi_Dependencies w) deps →
      Forall resolved deps →
      evaluated now s w (w <| wi_Dependencies := deps |> <| wi_State := DependencySatisfied |>)
  | evaluated_pending deps :
      wi_State w = DependencyPending → deadline_passed now w = false →
      Forall2 (dep_step s (jk_TenantId (wi_JobKey w))) (wi_Dependencies w) deps →
      ¬ Forall resolved deps →
      evaluated now s w (w <| wi_Dependencies := deps |>).

Lemma evaluate_inv now s w w' : Evaluate now s w = Ok w' → evaluated now s w w'.
Proof.
  intros He. unfold Evaluate in He.
  case_bool_decide as Hp; [simplify_eq; by constructor|].
  assert (wi_State w = DependencyPending) as Hw by (by destruct (wi_State w); try by destruct Hp).
  destruct (deadline_passed now w) eqn:Hdl; [simplify_eq; by apply evaluated_timeout|].
  destruct (evaluate_loop _ _ _ _ _ _) as [o|] eqn:Ho; simpl in He; [|done].
  apply evaluate_loop_spec in Ho. destruct o as [i d deps|all deps].
  - destruct Ho as (pre & pre' & d0 & post & Hdeps & -> & -> & HF & Hp0 & Hsame & Hs & Hv).
    injection He as <-. by eapply (evaluated_failed now s w pre pre' d0 d post).
  - destruct Ho as (deps' & -> & HF & Hall). injection He as <-. destruct all.
    + destruct Hall as [Hall _]. destruct Hall as [_ Hres]; [done|].
      by eapply (evaluated_satisfied now s w deps').
    + apply (evaluated_pending now s w deps'); try done. intros HR.
      destruct Hall as [_ Hall]. by discriminate Hall.
Qed.

(** How a wait may change over time: its descriptor is fixed, resolved
    dependencies stay resolved the same way, and a resolved wait is final. *)
Definition dep_evolves (d d' : DependencyResolution) : Prop :=
  same_descr d d' ∧ (resolved d → dr_State d' = dr_State d).
Record wait_evolves (w w' : DependencyWaitInfo) : Prop := {
  we_key : wait_key w' = wait_key w;
  we_deadline : wi_Deadline w' = wi_Deadline w;
  we_deps : Forall2 dep_evolves (wi_Dependencies w) (wi_Dependencies w');
  we_final : wi_State w ≠ DependencyPending → w' = w
}.

#[export] Instance dep_evolves_preorder : PreOrder dep_evolves.
Proof.
  split; [by intros d|]. intros d1 d2 d3 [[H1 H2] H3] [[H4 H5] H6].
  split; [split; congruence|]. unfold resolved in *. intros Hr.
  rewrite <- (H3 Hr). apply H6. by rewrite H3.
Qed.
#[export] Instance wait_evolves_preorder : PreOrder wait_evolves.
Proof.
  split.
  - intros w. by split.
  - intros w1 w2 w3 [H1 H2 H3 H4] [H5 H6 H7 H8]. split; [congruence|congruence|by etrans|].
    intros Hs. rewrite (H4 Hs) in *. by apply H8.
Qed.

Lemma dep_step_evolves s tenant d d' : dep_step s tenant d d' → dep_evolves d d'.
Proof. intros [Hsame [[Hr ->]|(Hp & _)]]; split; [done..|by intros Hr]. Qed.

Lemma close_dep_evolves d : dep_evolves d (close_dep d).
Proof. unfold close_dep, dep_evolves, resolved, same_descr. case_bool_decide; naive_solver. Qed.

Lemma close_deps_evolve deps deps' :
  Forall2 dep_evolves deps deps' → Forall2 dep_evolves deps (close_dep <$> deps').
Proof.
  intros HF. etrans; [exact HF|]. apply Forall2_fmap_r.
  apply Forall_Forall2_diag, Forall_true. apply close_dep_evolves.
Qed.

Lemma dep_steps_evolve s tenant deps deps' :
  Forall2 (dep_step s tenant) deps deps' → Forall2 dep_evolves deps deps'.
Proof. intros HF. eapply Forall2_impl; [done|]. apply dep_step_evolves. Qed.

Lemma evaluate_evolves now s w w' : Evaluate now s w = Ok w' → wait_evolves w w'.
Proof.
  intros He. apply evaluate_inv in He. destruct He; try done;
    (split; simpl; [done|done| |congruence]).
  - by apply close_deps_evolve.
  - apply close_deps_evolve. rewrite H2. apply Forall2_app; [by eapply dep_steps_evolve|].
    constructor; [|done]. split; [done|]. unfold resolved. congruence.
  - by eapply dep_steps_evolve.
  - by eapply dep_steps_evolve.
Qed.

Lemma dep_step_pending s tenant deps deps' d' :
  Forall2 (dep_step s tenant) deps deps' → d' ∈ deps' → dr_State d' = DependencyPending →
  dep_verdict s tenant d' DependencyPending.
Proof.
  induction 1 as [|d1 d1' deps deps' Hd HF IH]; intros Hin Hp; [set_solver|].
  apply elem_of_cons in Hin as [->|Hin]; [|by apply IH].
  destruct Hd as [[Ht Hc] [[Hr ->]|(_ & Hv & _)]]; [done|].
  unfold dep_verdict in *. rewrite Hp in Hv. by rewrite Ht, Hc.
Qed.

(** A wait that evaluation leaves pending is pending only on undecided targets. *)
Lemma evaluate_blocked now s w w' d :
  Evaluate now s w = Ok w' → wi_State w' = DependencyPending →
  d ∈ wi_Dependencies w' → dr_State d = DependencyPending →
  dep_verdict s (jk_TenantId (wi_JobKey w')) d DependencyPending.
Proof.
  intros He Hs Hd Hp. apply evaluate_inv in He. destruct He; simpl in *; try done.
  by eapply dep_step_pending.
Qed.
End evaluate.
