(* ===== verification/GoalInvariant.v ===== *)
(** * GoalInvariant: what goal operations preserve

    Every engine operation moves goals and waits only forward ([evolve]), keeps
    the store's invariant ([store_inv]: well-formed waits, and no pending wait
    left on a decided target), and keeps the dependency graph acyclic. *)

From S2P Require Import Prelude Types GoalStore GoalEngine GoalCycles GoalWaits.

Section evolve.
Context {St : Type} `{GoalStoreLaws St}.

(** The waits and the candidates an operation may create. *)
Variable W : DependencyWaitKey → Prop.
Variable C : GoalKey → string → Prop.

(** ** Monotonicity *)

(** A goal closes at most once and is immutable afterwards. *)
Definition goal_evolves (g g' : GoalInfo) : Prop :=
  g' = g ∨
  (gi_State g = GoalOpen ∧ gi_State g' ≠ GoalOpen ∧ gi_GoalKey g' = gi_GoalKey g ∧
   gi_Revision g' = 2%Z ∧ gi_ClosedAt g' ≠ None ∧ gi_CreatedAt g' = gi_CreatedAt g ∧
   gi_CellID g' = gi_CellID g).

Record evolve (s s' : St) : Prop := {
  ev_job : ∀ k, st_Job s' k = st_Job s k;
  ev_goal : ∀ k g, st_Goal s k = Ok g → ∃ g', st_Goal s' k = Ok g' ∧ goal_evolves g g';
  ev_wait : ∀ k w, st_Wait s k = Ok w → ∃ w', st_Wait s' k = Ok w' ∧ wait_evolves w w';
  ev_candidate : ∀ k id t, st_Candidate s k id = Ok (t, true) → st_Candidate s' k id = Ok (t, true);
  ev_goal_back : ∀ k g', st_Goal s' k = Ok g' → ∃ g, st_Goal s k = Ok g ∧ goal_evolves g g';
  ev_wait_back : ∀ k w', st_Wait s' k = Ok w' →
    W k ∨ ∃ w, st_Wait s k = Ok w ∧ wait_evolves w w';
  ev_candidate_back : ∀ k id t, st_Candidate s' k id = Ok (t, true) →
    C k id ∨ st_Candidate s k id = Ok (t, true)
}.

#[export] Instance goal_evolves_preorder : PreOrder goal_evolves.
Proof.
  split; [by left|]. intros g1 g2 g3 [->|H12] [->|H23]; [by left|by right|by right|].
  destruct H12 as (? & ? & _), H23 as (? & _). congruence.
Qed.

#[export] Instance evolve_preorder : PreOrder evolve.
Proof.
  split.
  - intros s. split; [done|intros k g Hg; exists g; split; [done|by left]
      |by intros k w Hw; exists w|done|intros k g Hg; exists g; split; [done|by left]
      |intros k w Hw; right; by exists w|by right].
  - intros s1 s2 s3 [J1 G1 W1 C1 GB1 WB1 CB1] [J2 G2 W2 C2 GB2 WB2 CB2]. split.
    + intros k. by rewrite J2, J1.
    + intros k g Hg. destruct (G1 k g Hg) as (g2 & Hg2 & He2).
      destruct (G2 k g2 Hg2) as (g3 & Hg3 & He3). exists g3. split; [done|]. by etrans.
    + intros k w Hw. destruct (W1 k w Hw) as (w2 & Hw2 & He2).
      destruct (W2 k w2 Hw2) as (w3 & Hw3 & He3). exists w3. split; [done|]. by etrans.
    + auto.
    + intros k g3 Hg3. destruct (GB2 k g3 Hg3) as (g2 & Hg2 & He2).
      destruct (GB1 k g2 Hg2) as (g1 & Hg1 & He1). exists g1. split; [done|]. by etrans.
    + intros k w3 Hw3. destruct (WB2 k w3 Hw3) as [?|(w2 & Hw2 & He2)]; [by left|].
      destruct (WB1 k w2 Hw2) as [?|(w1 & Hw1 & He1)]; [by left|right].
      exists w1. split; [done|]. by etrans.
    + intros k id t Hc. destruct (CB2 k id t Hc); [by left|auto].
Qed.

(** Reads of jobs, goals and candidates agree. *)
Record same_facts (s s' : St) : Prop := {
  sf_job : ∀ k, st_Job s' k = st_Job s k;
  sf_goal : ∀ k, st_Goal s' k = st_Goal s k;
  sf_candidate : ∀ k id, st_Candidate s' k id = st_Candidate s k id
}.
#[export] Instance same_facts_preorder : PreOrder same_facts.
Proof.
  split; [done|]. intros s1 s2 s3 [A1 B1 C1] [A2 B2 C2].
  split; intros; [by rewrite A2|by rewrite B2|by rewrite C2].
Qed.

Lemma save_wait_facts s w s' : st_SaveWait s w = Ok s' → same_facts s s'.
Proof.
  intros Hs. split; intros;
    [by eapply save_wait_job|by eapply save_wait_goal|by eapply save_wait_candidate].
Qed.

Lemma copy_deps_evolve deps deps' :
  Forall2 dep_evolves deps deps' → Forall2 dep_evolves deps (copy_resolution <$> deps').
Proof.
  intros HF. etrans; [exact HF|]. apply Forall2_fmap_r.
  apply Forall_Forall2_diag, Forall_true. by intros d.
Qed.

Lemma wait_evolves_copy s k w w' :
  st_Wait s k = Ok w → wait_evolves w w' → wait_evolves w (copy_wait w').
Proof.
  intros Hw [H1 H2 H3 H4]. split; simpl; [done|done|by apply copy_deps_evolve|].
  intros Hp. rewrite (H4 Hp). by eapply wait_copied.
Qed.

Lemma save_wait_evolve s w w' s' :
  st_Wait s (wait_key w') = Ok w → wait_evolves w w' → st_SaveWait s w' = Ok s' → evolve s s'.
Proof.
  intros Hw He Hs. split.
  - intros k. by eapply save_wait_job.
  - intros k g Hg. exists g. erewrite save_wait_goal by done. split; [done|by left].
  - intros k w0 Hw0. erewrite save_wait_wait by done. case_decide as Hk; [|by exists w0].
    subst. rewrite Hw in Hw0. injection Hw0 as <-. eexists. split; [done|].
    by eapply wait_evolves_copy.
  - intros k id t Hc. by erewrite save_wait_candidate.
  - intros k g. erewrite save_wait_goal by done. intros Hg. exists g. split; [done|by left].
  - intros k w0. erewrite save_wait_wait by done. case_decide as Hk; [|by right; exists w0].
    subst. intros [= <-]. right. exists w. split; [done|]. by eapply wait_evolves_copy.
  - intros k id t. erewrite save_wait_candidate by done. by right.
Qed.

Lemma save_wait_evolve_new s w' s' e :
  W (wait_key w') → st_Wait s (wait_key w') = Err e → st_SaveWait s w' = Ok s' → evolve s s'.
Proof.
  intros HW Hw Hs. split.
  - intros k. by eapply save_wait_job.
  - intros k g Hg. exists g. erewrite save_wait_goal by done. split; [done|by left].
  - intros k w0 Hw0. erewrite save_wait_wait by done. case_decide as Hk; [congruence|by exists w0].
  - intros k id t Hc. by erewrite save_wait_candidate.
  - intros k g. erewrite save_wait_goal by done. intros Hg. exists g. split; [done|by left].
  - intros k w0. erewrite save_wait_wait by done. case_decide as Hk; [subst; by left|].
    by right; exists w0.
  - intros k id t. erewrite save_wait_candidate by done. by right.
Qed.

Lemma save_goal_evolve s g g' s' :
  st_Goal s (gi_GoalKey g') = Ok g → goal_evolves g (copy_goal g') →
  st_SaveGoal s g' = Ok s' → evolve s s'.
Proof.
  intros Hg He Hs. split.
  - intros k. by eapply save_goal_job.
  - intros k g0 Hg0. erewrite save_goal_goal by done.
    case_decide as Hk; [subst; rewrite Hg in Hg0; injection Hg0 as <-; eauto|].
    exists g0. split; [done|by left].
  - intros k w Hw. exists w. erewrite save_goal_wait by done. done.
  - intros k id t Hc. by erewrite save_goal_candidate.
  - intros k g0. erewrite save_goal_goal by done. case_decide as Hk; [|exists g0; split; [done|by left]].
    subst. intros [= <-]. eauto.
  - intros k w. erewrite save_goal_wait by done. right. by exists w.
  - intros k id t. erewrite save_goal_candidate by done. by right.
Qed.

Lemma insert_candidate_evolve s g id t t' s' :
  C g id → st_InsertCandidate s g id t = Ok s' → st_Candidate s g id = Ok (t', false) →
  evolve s s'.
Proof.
  intros HC Hs Hnew. split.
  - intros k. by eapply insert_candidate_job.
  - intros k g0 Hg0. exists g0. erewrite insert_candidate_goal by done. split; [done|by left].
  - intros k w Hw. exists w. erewrite insert_candidate_wait by done. done.
  - intros k id' t0 Hc. destruct (candidate_job _ _ _ _ Hc) as [j Hj].
    destruct (decide (j_GoalID j = gk_GoalID k)) as [Hg|Hg].
    + rewrite (candidate_primary s k id' j) in Hc by done.
      rewrite (candidate_primary s' k id' j); [done| |done].
      by erewrite insert_candidate_job.
    + erewrite (insert_candidate_candidate _ _ _ _ _ _ _ j); [|done..].
      case_decide as Hk; [|done]. destruct Hk as [-> ->]. congruence.
  - intros k g0. erewrite insert_candidate_goal by done. intros Hg0. exists g0. split; [done|by left].
  - intros k w. erewrite insert_candidate_wait by done. right. by exists w.
  - intros k id' t0 Hc. destruct (candidate_job _ _ _ _ Hc) as [j Hj].
    erewrite insert_candidate_job in Hj by done.
    destruct (decide (j_GoalID j = gk_GoalID k)) as [Hg|Hg].
    + right. rewrite (candidate_primary s' k id' j) in Hc; [|by erewrite insert_candidate_job|done].
      by rewrite (candidate_primary s k id' j).
    + erewrite (insert_candidate_candidate _ _ _ _ _ _ _ j) in Hc; [|done..].
      case_decide as Hk; [|by right]. destruct Hk as [-> ->]. by left.
Qed.

(** ** Rewriting a batch of stored waits

    [SettleTarget] and [CloseConsumer] read a batch of waits and write each back.
    [rewrites Q f]: on a stored wait, [f] either leaves the store alone or saves
    an evolved wait related to it by [Q], and it does the latter if it succeeds. *)
Definition rewrites (Q : St → DependencyWaitInfo → DependencyWaitInfo → Prop)
    (f : DependencyWaitInfo → M St ()) : Prop :=
  ∀ s w, st_Wait s (wait_key w) = Ok w → wi_State w = DependencyPending →
    ((f w s).1 = s ∧ (f w s).2 ≠ Ok tt) ∨
    ∃ w', st_SaveWait s w' = Ok (f w s).1 ∧ wait_evolves w w' ∧ Q s w w'.

Record batch (Q : St → DependencyWaitInfo → DependencyWaitInfo → Prop)
    (ws : list DependencyWaitInfo) (s s' : St) (r : result ()) : Prop := {
  ba_ok : st_ok s → st_ok s';
  ba_evolve : evolve s s';
  ba_facts : same_facts s s';
  ba_other : ∀ k, k ∉ wait_key <$> ws → st_Wait s' k = st_Wait s k;
  ba_each : ∀ w, w ∈ ws →
    st_Wait s' (wait_key w) = Ok w ∧ r ≠ Ok tt ∨
    ∃ s1 w', same_facts s s1 ∧ Q s1 w w' ∧ wait_evolves w w' ∧
             st_Wait s' (wait_key w) = Ok (copy_wait w')
}.

Lemma batch_rewrites Q f ws s :
  rewrites Q f → NoDup (wait_key <$> ws) → (∀ w, w ∈ ws → st_Wait s (wait_key w) = Ok w) →
  (∀ w, w ∈ ws → wi_State w = DependencyPending) →
  batch Q ws s (m_iter f ws s).1 (m_iter f ws s).2.
Proof.
  intros Hf. revert s. induction ws as [|w ws IH]; intros s Hnd Hws Hpend; simpl.
  { split; try done; set_solver. }
  apply NoDup_cons in Hnd as [Hw Hnd]. unfold m_bind.
  assert (st_Wait s (wait_key w) = Ok w) as Hsw by (apply Hws; set_solver).
  destruct (Hf s w Hsw (Hpend w ltac:(set_solver))) as [[Hsame Hfail]|(w' & Hsave & Hev & HQ)].
  { destruct (f w s) as [s1 [[]|e]]; simpl in *; [done|]. subst.
    split; try done. intros w0 Hw0. left. split; [by apply Hws|done]. }
  destruct (f w s) as [s1 r1]; simpl in *.
  assert (wait_key w' = wait_key w) as Hkey by apply Hev.
  assert (evolve s s1) as Hev1 by (eapply save_wait_evolve; [|done|done]; by rewrite Hkey).
  pose proof (save_wait_facts _ _ _ Hsave) as Hfacts.
  assert (∀ k, st_Wait s1 k = if decide (k = wait_key w) then Ok (copy_wait w') else st_Wait s k)
    as Hlook by (intros k; erewrite save_wait_wait by done; by rewrite Hkey).
  assert (∀ w0, w0 ∈ ws → st_Wait s1 (wait_key w0) = Ok w0) as Hws1.
  { intros w0 Hw0. rewrite Hlook. case_decide as Heq; [|apply Hws; set_solver].
    exfalso. apply Hw. rewrite <- Heq. by apply list_elem_of_fmap_2. }
  destruct r1 as [[]|e]; simpl.
  - destruct (IH s1 Hnd Hws1 ltac:(set_solver)) as [B1 B2 B3 B4 B5]. split.
    + intros Hok. apply B1. by eapply save_wait_ok.
    + by etrans.
    + by etrans.
    + intros k Hk. rewrite B4 by set_solver. rewrite Hlook, decide_False by set_solver. done.
    + intros w0 [->|Hw0]%elem_of_cons.
      * right. exists s, w'. split; [done|]. split; [done|]. split; [done|].
        rewrite B4 by done. by rewrite Hlook, decide_True.
      * destruct (B5 w0 Hw0) as [B|(s2 & w2 & Hs2 & HQ2 & He2 & Hl2)]; [by left|right].
        exists s2, w2. split; [by etrans|done].
  - split.
    + intros Hok. by eapply save_wait_ok.
    + done.
    + done.
    + intros k Hk. rewrite Hlook, decide_False by set_solver. done.
    + intros w0 [->|Hw0]%elem_of_cons.
      * right. exists s, w'. split; [done|]. split; [done|]. split; [done|].
        by rewrite Hlook, decide_True.
      * left. split; [by apply Hws1|done].
Qed.

Definition Q_settle (now : time) (s : St) (w w' : DependencyWaitInfo) : Prop :=
  Evaluate now s w = Ok w'.
Definition Q_close (now : time) (s : St) (w w' : DependencyWaitInfo) : Prop :=
  wi_State w' ≠ DependencyPending ∧ (wf_wait w → wf_wait w').

Lemma settle_rewrites now : rewrites (Q_settle now) (save_evaluated now).
Proof.
  intros s w Hw Hp. unfold save_evaluated, Q_settle. unfold_m.
  destruct (Evaluate now s w) as [w'|e] eqn:He; [|left; split; [done|by intros [=]]].
  destruct (st_SaveWait s w') as [s'|e] eqn:Hs; [right|left; split; [done|by intros [=]]].
  exists w'. simpl. split; [done|]. split; [by eapply evaluate_evolves|done].
Qed.

Lemma close_evolves w w' : wi_State w = DependencyPending →
  wait_evolves w w' → wait_evolves w (closePending w').
Proof.
  intros Hp [H1 H2 H3 H4]. split; simpl; [done|done|by apply close_deps_evolve|congruence].
Qed.

Lemma cancel_evolves w w' : wi_State w = DependencyPending →
  wait_evolves w w' → wait_evolves w (w' <| wi_State := DependencyCancelled |>).
Proof. intros Hp [H1 H2 H3 H4]. split; simpl; [done|done|done|congruence]. Qed.

Lemma close_pending_wf w : wf_wait w → wi_State w ≠ DependencyPending → wf_wait (closePending w).
Proof.
  intros Hwf Hp. assert (closePending w = w) as ->; [|done].
  assert (Forall resolved (wi_Dependencies w)) as HR.
  { unfold wf_wait in Hwf. destruct (wi_State w); [done| |by destruct Hwf|done|done].
    eapply Forall_impl; [done|]. unfold resolved. simpl. congruence. }
  clear Hwf Hp. destruct w as [k i st dl deps fi fl]. unfold closePending. simpl in *. f_equal.
  induction HR as [|d deps Hd HR IH]; simpl; [done|]. rewrite close_dep_id by done. f_equal. exact IH.
Qed.

Lemma close_rewrites now : rewrites (Q_close now) (close_wait now).
Proof.
  intros s w Hw Hp. unfold close_wait, Q_close. unfold_m. rewrite bool_decide_true by done.
  destruct (Evaluate now s w) as [w1|e] eqn:He; [|left; split; [done|by intros [=]]].
  pose proof (evaluate_evolves _ _ _ _ He) as Hev.
  set (w2 := if bool_decide _ then _ else w1).
  destruct (st_SaveWait s (closePending w2)) as [s'|e] eqn:Hs;
    [right|left; split; [done|by intros [=]]].
  exists (closePending w2). split; [done|]. unfold w2. case_bool_decide as Hp1.
  - split; [by apply close_evolves, cancel_evolves|]. split; [done|].
    intros _. apply close_pending_resolved.
  - split; [by apply close_evolves|]. split; [done|].
    intros Hwf. apply close_pending_wf; [by eapply evaluate_wf|done].
Qed.

(** The two batches, as the engine runs them. *)
Lemma settle_batch now tenant t s ws :
  st_ok s → st_TargetWaits s tenant t = Ok ws →
  batch (Q_settle now) ws s (m_iter (save_evaluated now) ws s).1 (m_iter (save_evaluated now) ws s).2.
Proof.
  intros Hok Hws. apply batch_rewrites; [apply settle_rewrites|by eapply target_waits_nodup|..];
    intros w Hw; by apply (target_waits_spec _ _ _ _ _ Hok Hws) in Hw as (? & _ & ? & _).
Qed.

Lemma close_batch now key s ws :
  st_ok s → st_ConsumerWaits s key = Ok ws →
  batch (Q_close now) ws s (m_iter (close_wait now) ws s).1 (m_iter (close_wait now) ws s).2.
Proof.
  intros Hok Hws. apply batch_rewrites; [apply close_rewrites|by eapply consumer_waits_nodup|..];
    intros w Hw; by apply (consumer_waits_spec _ _ _ _ Hok Hws) in Hw as (? & _ & ?).
Qed.

(** ** Every operation is monotone

    [mono m]: whatever [m] returns, even an error, the store it leaves is one
    the store may evolve to. *)
Definition mono_at {A} (s : St) (m : M St A) : Prop := st_ok (m s).1 ∧ evolve s (m s).1.
Definition mono {A} (m : M St A) : Prop := ∀ s, st_ok s → mono_at s m.

Lemma mono_ret {A} (a : A) : mono (m_ret a).
Proof. by intros s Hok. Qed.
Lemma mono_err {A} e : mono (m_err (A := A) e).
Proof. by intros s Hok. Qed.
Lemma mono_read {A} (f : St → result A) : mono (m_read f).
Proof. by intros s Hok. Qed.
Lemma mono_at_bind {A B} s (m : M St A) (f : A → M St B) :
  mono_at s m → (∀ a s', st_ok s' → m s = (s', Ok a) → mono_at s' (f a)) → mono_at s (m_bind m f).
Proof.
  intros [Hok1 Hev1] Hf. unfold mono_at, m_bind.
  destruct (m s) as [s1 [a|e]] eqn:Hm; simpl in *; [|done].
  destruct (Hf a s1 Hok1 eq_refl) as [Hok2 Hev2]. split; [done|]. by etrans.
Qed.
Lemma mono_bind {A B} (m : M St A) (f : A → M St B) :
  mono m → (∀ a, mono (f a)) → mono (m_bind m f).
Proof. intros Hm Hf s Hok. apply mono_at_bind; [by apply Hm|]. intros. by apply Hf. Qed.
(** After a read or a write the continuation may assume what happened. *)
Lemma mono_at_read {A B} s (r : St → result A) (f : A → M St B) :
  st_ok s → (∀ a, r s = Ok a → mono_at s (f a)) → mono_at s (m_bind (m_read r) f).
Proof.
  intros Hok Hf. apply mono_at_bind; [by apply mono_read|].
  intros a s' _ Hr. unfold m_read in Hr. simplify_eq. by apply Hf.
Qed.
Lemma mono_at_write {B} s (w : St → result St) (f : () → M St B) :
  st_ok s → (∀ s1, w s = Ok s1 → (st_ok s1 ∧ evolve s s1) ∧ (st_ok s1 → mono_at s1 (f tt))) →
  mono_at s (m_bind (m_write w) f).
Proof.
  intros Hok Hf. unfold mono_at, m_bind, m_write.
  destruct (w s) as [s1|e] eqn:Hw; simpl; [|done].
  destruct (Hf s1 eq_refl) as [[Hok1 Hev1] Hk]. destruct (Hk Hok1) as [Hok2 Hev2].
  split; [done|]. by etrans.
Qed.
Lemma mono_iter {A} (f : A → M St ()) l : (∀ a, mono (f a)) → mono (m_iter f l).
Proof. intros Hf. induction l; simpl; [apply mono_ret|by apply mono_bind]. Qed.
End evolve.

#[export] Hint Resolve mono_ret mono_err mono_read mono_bind mono_iter : jobdb.

Section mono_ops.
Context {St : Type} `{GoalStoreLaws St}.
Variable now : time.
Variable W : DependencyWaitKey → Prop.
Variable C : GoalKey → string → Prop.
Abbreviation mono := (mono W C).
Abbreviation mono_at := (mono_at W C).
Abbreviation evolve := (evolve W C).

Lemma settle_mono tenant t : mono (SettleTarget now tenant t).
Proof.
  intros s Hok. apply mono_at_read; [done|]. intros ws Hws.
  destruct (settle_batch W C now _ _ _ _ Hok Hws) as [B1 B2 _ _ _]. by split; auto.
Qed.

Lemma close_mono key : mono (CloseConsumer now key).
Proof.
  intros s Hok. apply mono_at_read; [done|]. intros ws Hws.
  destruct (close_batch W C now _ _ _ Hok Hws) as [B1 B2 _ _ _]. by split; auto.
Qed.

(** Closing a stored open goal. *)
Lemma close_goal_mono s g g' :
  st_ok s → st_Goal s (gi_GoalKey g) = Ok g → gi_State g = GoalOpen →
  gi_GoalKey g' = gi_GoalKey g → gi_State g' ≠ GoalOpen → gi_Revision g' = 2%Z →
  gi_ClosedAt g' ≠ None → gi_CreatedAt g' = gi_CreatedAt g → gi_CellID g' = gi_CellID g →
  ∀ s', st_SaveGoal s g' = Ok s' → st_ok s' ∧ evolve s s'.
Proof.
  intros Hok Hg Ho Hk Hs Hr Hc Hcr Hcell s' Hsave. split; [by eapply save_goal_ok|].
  eapply save_goal_evolve; [by rewrite Hk| |done]. right. done.
Qed.

Lemma resolve_mono g id s :
  st_ok s → st_Goal s (gi_GoalKey g) = Ok g → mono_at s (resolve now g id).
Proof.
  intros Hok Hg. unfold resolve. case_bool_decide as Ho; [by apply mono_ret|].
  apply mono_at_write; [done|]. intros s1 Hs. split.
  - by eapply (close_goal_mono s g (succeeded_goal now g id)).
  - apply mono_bind; [apply settle_mono|intros; apply mono_ret].
Qed.

Lemma resolve_key_mono id k : mono (resolve_key now id k).
Proof.
  intros s Hok. apply mono_at_read; [done|]. intros g Hg.
  pose proof (goal_key _ _ _ Hok Hg) as Hk. subst k.
  apply mono_at_bind; [by apply resolve_mono|]. intros. by apply mono_ret.
Qed.

Lemma Complete_mono key : mono (Complete now key).
Proof.
  apply mono_bind; [apply mono_read|]. intros j. apply mono_bind.
  { destruct (j_Success j); [|apply mono_ret].
    apply mono_bind; [apply mono_read|]. intros. apply mono_iter, resolve_key_mono. }
  intros _. apply mono_bind; [apply close_mono|]. intros _. apply settle_mono.
Qed.

Lemma Fail_mono req : mono (Fail now req).
Proof.
  apply mono_bind; [apply mono_read|]. intros _ s Hok.
  apply mono_at_read; [done|]. intros g Hg. pose proof (goal_key _ _ _ Hok Hg) as Hk.
  destruct (already_failed g _); [by apply mono_ret|].
  case_bool_decide as Ho; [by apply mono_err|].
  apply mono_at_read; [done|]. intros js Hjs.
  apply mono_at_write; [done|]. intros s1 Hs. split.
  - eapply (close_goal_mono s g (failed_goal now g req js)); try done. by rewrite Hk.
  - apply mono_bind; [apply settle_mono|intros; apply mono_ret].
Qed.

Lemma Add_mono req : C (ac_GoalKey req) (ac_JobID req) → mono (Add now req).
Proof.
  intros HC.
  unfold Add. do 2 (apply mono_bind; [apply mono_read|]; intros _). intros s Hok.
  apply mono_at_read; [done|]. intros g Hg. apply mono_at_read; [done|]. intros j Hj.
  apply mono_at_read; [done|]. intros [at_ []] Hc; simpl; [by apply mono_ret|].
  case_bool_decide; [by apply mono_err|].
  apply mono_at_write; [done|]. intros s1 Hi. split.
  { split; [by eapply insert_candidate_ok|eapply insert_candidate_evolve; eauto]. }
  intros Hok1. apply mono_at_bind; [|intros; by apply mono_ret].
  destruct (j_Success j).
  - apply resolve_mono; [done|]. erewrite insert_candidate_goal by done.
    by rewrite (goal_key _ _ _ Hok Hg).
  - destruct (j_Terminal j); [by apply mono_ret|]. apply mono_bind; eauto with jobdb.
Qed.

Lemma register_again_mono s k old req :
  st_ok s → st_Wait s k = Ok old → mono_at s (register_again now old req).
Proof.
  intros Hok Hold. pose proof (wait_keyed _ _ _ Hok Hold) as Hk. unfold register_again.
  destruct (sameDescriptor old req); [|by apply mono_err].
  apply mono_at_read; [done|]. intros w He. pose proof (evaluate_evolves _ _ _ _ He) as Hev.
  apply mono_at_write; [done|]. intros s1 Hs. split; [|intros; by apply mono_ret].
  split; [by eapply save_wait_ok|]. eapply save_wait_evolve; [|done|done].
  by rewrite (we_key _ _ Hev), Hk.
Qed.

Lemma register_new_mono s key req e :
  W (mkWaitKey key (dw_WaitID req)) →
  st_ok s → st_Wait s (mkWaitKey key (dw_WaitID req)) = Err e →
  mono_at s (register_new now key req).
Proof.
  intros HW Hok Hnew. unfold register_new.
  apply mono_at_read; [done|]. intros deps Hdeps.
  apply mono_at_read; [done|]. intros w He. pose proof (evaluate_evolves _ _ _ _ He) as Hev.
  apply mono_at_write; [done|]. intros s1 Hs. split.
  - split; [by eapply save_wait_ok|]. eapply save_wait_evolve_new; [..|done]; by rewrite (we_key _ _ Hev).
  - apply mono_bind; eauto with jobdb.
Qed.

Lemma Register_mono key req sub :
  W (mkWaitKey key (dw_WaitID req)) → mono (Register now key req sub).
Proof.
  intros HW.
  unfold Register. do 2 (apply mono_bind; [apply mono_read|]; intros _).
  intros s Hok. unfold GoalInvariant.mono_at. destruct (st_Wait s _) as [old|e] eqn:Hold.
  - by eapply register_again_mono.
  - pose proof (wait_missing _ _ _ Hold) as ->. by eapply register_new_mono.
Qed.
End mono_ops.
