(* ===== verification/GoalLive.v ===== *)
(** * GoalLive: no lost wake-ups, and an acyclic dependency graph

    [store_inv] is the invariant of the goal store at rest: waits are well formed
    and every dependency a pending wait still lists as pending has an undecided
    target.  Every operation re-establishes it, so a decided goal or job is never
    missed by the waits on it.  [acyclic_all] is preserved by every operation. *)

From S2P Require Import Prelude Types GoalStore GoalEngine GoalCycles GoalWaits GoalInvariant.

Section live.
Context {St : Type} `{GoalStoreLaws St}.

(** A goal target carries no job ID. *)
Definition clean_target (t : DependencyTarget) : Prop := dt_GoalID t ≠ "" → dt_JobID t = "".

(** [P] lists the targets whose waits are still to be settled. *)
Record store_inv (P : string → DependencyTarget → Prop) (s : St) : Prop := {
  si_ok : st_ok s;
  si_wf : ∀ k w, st_Wait s k = Ok w → wf_wait w;
  si_clean : ∀ k w d, st_Wait s k = Ok w → wi_State w = DependencyPending →
    d ∈ wi_Dependencies w → dr_State d = DependencyPending → clean_target (dr_Target d);
  si_live : ∀ k w d, st_Wait s k = Ok w → wi_State w = DependencyPending →
    d ∈ wi_Dependencies w → dr_State d = DependencyPending →
    dep_verdict s (jk_TenantId (wi_JobKey w)) d DependencyPending ∨
    P (jk_TenantId (wi_JobKey w)) (dr_Target d)
}.

Definition none (_ : string) (_ : DependencyTarget) : Prop := False.
Definition only (tenant : string) (t : DependencyTarget) (tn : string) (u : DependencyTarget) : Prop :=
  tn = tenant ∧ u = t.

Lemma verdict_facts s s' tenant d x :
  same_facts s s' → dep_verdict s tenant d x → dep_verdict s' tenant d x.
Proof. intros [Hj Hg _]. apply verdict_frame; [apply Hg|apply Hj]. Qed.

Lemma same_facts_sym s s' : same_facts s s' → same_facts s' s.
Proof. intros [A B C]. split; intros; by rewrite ?A, ?B, ?C. Qed.

Lemma copied_dep w d :
  d ∈ wi_Dependencies (copy_wait w) → dr_State d = DependencyPending →
  ∃ d', d' ∈ wi_Dependencies w ∧ dr_State d' = DependencyPending ∧
        dr_Target d' = dr_Target d ∧ dr_Condition d' = dr_Condition d.
Proof. simpl. intros (d' & -> & Hd')%list_elem_of_fmap. eauto 10. Qed.

(** A pending dependency of an evolved wait was pending before. *)
Lemma evolved_dep w w' d' :
  wait_evolves w w' → wi_State w' = DependencyPending → d' ∈ wi_Dependencies w' →
  dr_State d' = DependencyPending →
  wi_State w = DependencyPending ∧
  ∃ d, d ∈ wi_Dependencies w ∧ dr_State d = DependencyPending ∧ dr_Target d = dr_Target d'.
Proof.
  intros [_ _ HF Hfin] Hs Hd Hp. split.
  { destruct (decide (wi_State w = DependencyPending)) as [|Hn]; [done|].
    rewrite (Hfin Hn) in Hs. done. }
  clear Hfin. induction HF as [|d1 d1' l l' [[Ht _] Hr] HF IH]; [set_solver|].
  apply elem_of_cons in Hd as [->|Hd].
  - exists d1. split; [set_solver|]. split; [|done].
    destruct (decide (dr_State d1 = DependencyPending)) as [|Hn]; [done|].
    rewrite (Hr Hn) in Hp. done.
  - destruct (IH Hd) as (d & ? & ?). exists d. set_solver.
Qed.

(** Settling a target discharges it. *)
Lemma settle_inv now P tenant t s s' :
  store_inv (λ tn u, P tn u ∨ only tenant t tn u) s →
  SettleTarget now tenant t s = (s', Ok tt) → store_inv P s'.
Proof.
  intros [Hok Hwf Hcl Hlive] Hs. apply m_bind_inv in Hs as (ws & s1 & Hr & Hs).
  unfold m_read in Hr. injection Hr as <- Hws.
  destruct (settle_batch (λ _, False) (λ _ _, False) now _ _ _ _ Hok Hws) as [B1 B2 B3 B4 B5].
  rewrite Hs in *. simpl in *.
  assert (∀ k w', st_Wait s' k = Ok w' → ∃ w, st_Wait s k = Ok w ∧ wait_evolves w w' ∧
     ((w' = w ∧ k ∉ wait_key <$> ws) ∨
      ∃ s2 w2, same_facts s s2 ∧ Evaluate now s2 w = Ok w2 ∧ w' = copy_wait w2)) as Hrows.
  { intros k w' Hw'. destruct (decide (k ∈ wait_key <$> ws)) as [Hk|Hk].
    - apply list_elem_of_fmap in Hk as (w & -> & Hw).
      pose proof (proj1 (target_waits_spec _ _ _ _ w Hok Hws) Hw) as (Hsw & _).
      exists w. split; [done|].
      destruct (B5 w Hw) as [[_ ?]|(s2 & w2 & Hs2 & HQ & He & Hl)]; [done|].
      rewrite Hl in Hw'. injection Hw' as <-.
      split; [by eapply wait_evolves_copy|right; eauto].
    - rewrite B4 in Hw' by done. exists w'. split; [done|]. split; [done|]. by left. }
  split.
  - auto.
  - intros k w' (w & Hw & He & [[-> _]|(s2 & w2 & _ & Hev & ->)])%Hrows; [eauto|].
    eapply copy_wait_wf, evaluate_wf; eauto.
  - intros k w' d Hw' Hp Hd Hdp. destruct (Hrows k w' Hw') as (w & Hw & He & _).
    destruct (evolved_dep _ _ _ He Hp Hd Hdp) as (Hp0 & d0 & Hd0 & Hdp0 & <-). eauto.
  - intros k w' d Hw' Hp Hd Hdp.
    destruct (Hrows k w' Hw') as (w & Hw & He & [[-> Hk]|(s2 & w2 & Hs2 & Hev & ->)]).
    + destruct (Hlive k w d Hw Hp Hd Hdp) as [Hv|[HP|[Htn Ht]]];
        [left; by eapply verdict_facts|by right|].
      exfalso. apply Hk. rewrite <- (wait_keyed _ _ _ Hok Hw). apply list_elem_of_fmap_2.
      apply (target_waits_spec _ _ _ _ _ Hok Hws). rewrite (wait_keyed _ _ _ Hok Hw). eauto 10.
    + left. destruct (copied_dep _ _ Hd Hdp) as (d' & Hd' & Hp' & Ht & Hc).
      pose proof (evaluate_blocked _ _ _ _ d' Hev Hp Hd' Hp') as Hv.
      unfold dep_verdict in *. rewrite Ht, Hc in Hv. simpl.
      apply (verdict_facts s2 s' _ (mkResolution (dr_Target d) (dr_Condition d) DependencyPending "" "" None));
        [|done]. etrans; [by apply same_facts_sym|done].
Qed.

(** Closing a consumer's waits discharges nothing but breaks nothing. *)
Lemma close_inv now P key s s' :
  store_inv P s → CloseConsumer now key s = (s', Ok tt) →
  store_inv P s' ∧ ∀ k w, st_Wait s' k = Ok w → wi_JobKey w = key → wi_State w ≠ DependencyPending.
Proof.
  intros [Hok Hwf Hcl Hlive] Hs. apply m_bind_inv in Hs as (ws & s1 & Hr & Hs).
  unfold m_read in Hr. injection Hr as <- Hws.
  destruct (close_batch (λ _, False) (λ _ _, False) now _ _ _ Hok Hws) as [B1 B2 B3 B4 B5].
  rewrite Hs in *. simpl in *.
  assert (∀ k w', st_Wait s' k = Ok w' →
     (st_Wait s k = Ok w' ∧ k ∉ wait_key <$> ws) ∨ (wi_State w' ≠ DependencyPending ∧ wf_wait w')) as Hrows.
  { intros k w' Hw'. destruct (decide (k ∈ wait_key <$> ws)) as [Hk|Hk].
    - right. apply list_elem_of_fmap in Hk as (w & -> & Hw).
      pose proof (proj1 (consumer_waits_spec _ _ _ w Hok Hws) Hw) as (Hsw & _).
      destruct (B5 w Hw) as [[_ ?]|(s2 & w2 & Hs2 & [HQ1 HQ2] & He & Hl)]; [done|].
      rewrite Hl in Hw'. injection Hw' as <-. split; [done|]. apply copy_wait_wf. eauto.
    - rewrite B4 in Hw' by done. by left. }
  split; [split|].
  - auto.
  - intros k w' [[Hw' _]|[_ ?]]%Hrows; eauto.
  - intros k w' d Hw' Hp. destruct (Hrows k w' Hw') as [[Hw'' _]|[? _]]; [eauto|done].
  - intros k w' d Hw' Hp Hd Hdp. destruct (Hrows k w' Hw') as [[Hw'' _]|[? _]]; [|done].
    destruct (Hlive k w' d Hw'' Hp Hd Hdp) as [Hv|HP]; [left; by eapply verdict_facts|by right].
  - intros k w' Hw' Hkey Hp. destruct (Hrows k w' Hw') as [[Hw'' Hk]|[? _]]; [|done].
    apply Hk. rewrite <- (wait_keyed _ _ _ Hok Hw''). apply list_elem_of_fmap_2.
    apply (consumer_waits_spec _ _ _ _ Hok Hws). rewrite (wait_keyed _ _ _ Hok Hw''). done.
Qed.

(** Deciding a goal leaves only the waits on it to settle. *)
Lemma save_goal_inv P g s s' :
  store_inv P s → st_SaveGoal s g = Ok s' →
  store_inv (λ tn u, P tn u ∨ only (gk_TenantId (gi_GoalKey g)) (mkTarget "" (gk_GoalID (gi_GoalKey g))) tn u) s'.
Proof.
  intros [Hok Hwf Hcl Hlive] Hs. split.
  - by eapply save_goal_ok.
  - intros k w. erewrite save_goal_wait by done. apply Hwf.
  - intros k w d. erewrite save_goal_wait by done. apply Hcl.
  - intros k w d. erewrite save_goal_wait by done. intros Hw Hp Hd Hdp.
    destruct (Hlive k w d Hw Hp Hd Hdp) as [Hv|HP]; [|by right; left].
    inversion Hv as [g0 Hne Hg0 Ho| | |j Hne Hj Ht| |].
    + destruct (decide (mkGoalKey (jk_TenantId (wi_JobKey w)) (dt_GoalID (dr_Target d)) = gi_GoalKey g))
        as [Heq|Heq].
      * right; right. rewrite <- Heq. split; [done|]. simpl.
        rewrite <- (Hcl k w d Hw Hp Hd Hdp Hne). by destruct (dr_Target d).
      * left. eapply verdict_goal_open; [done| |done]. erewrite save_goal_goal by done.
        by rewrite decide_False.
    + left. eapply verdict_job_running; [done| |done]. by erewrite save_goal_job.
Qed.

Lemma store_inv_weaken (P Q : string → DependencyTarget → Prop) s :
  (∀ tn u, P tn u → Q tn u) → store_inv P s → store_inv Q s.
Proof.
  intros HPQ [Hok Hwf Hcl Hlive]. split; [done..|]. intros k w d Hw Hp Hd Hdp.
  destruct (Hlive k w d Hw Hp Hd Hdp); auto.
Qed.

Lemma resolve_inv now P g id s s' g' :
  store_inv P s → resolve now g id s = (s', Ok g') → store_inv P s'.
Proof.
  intros Hinv Hs. unfold resolve in Hs. case_bool_decide; [unfold m_ret in Hs; by simplify_eq|].
  apply m_bind_inv in Hs as ([] & s1 & Hw & Hs).
  apply m_bind_inv in Hs as ([] & s2 & Hset & Hs). unfold m_ret in Hs. simplify_eq.
  unfold m_write in Hw. destruct (st_SaveGoal s _) as [s3|] eqn:Hsave; [|done]. simplify_eq.
  eapply settle_inv; [|done]. exact (save_goal_inv _ _ _ _ Hinv Hsave).
Qed.

(** Completing a decided job discharges the waits on it and on its goals. *)
Lemma complete_inv now key s s' :
  store_inv (only (jk_TenantId key) (mkTarget (jk_JobId key) "")) s →
  Complete now key s = (s', Ok tt) →
  store_inv none s' ∧
  ∀ k w, st_Wait s' k = Ok w → wi_JobKey w = key → wi_State w ≠ DependencyPending.
Proof.
  intros Hinv Hs. apply m_bind_inv in Hs as (j & s1 & Hr & Hs).
  unfold m_read in Hr. injection Hr as <- Hj.
  apply m_bind_inv in Hs as ([] & s2 & Hgoals & Hs).
  apply m_bind_inv in Hs as ([] & s3 & Hclose & Hset).
  assert (store_inv (only (jk_TenantId key) (mkTarget (jk_JobId key) "")) s2) as Hinv2.
  { destruct (j_Success j); [|unfold m_ret in Hgoals; by simplify_eq].
    apply m_bind_inv in Hgoals as (gs & s4 & Hr & Hgoals).
    unfold m_read in Hr. injection Hr as <- _.
    eapply m_iter_ok; [|exact Hinv|exact Hgoals].
    intros k s5 s6 _ H5 Hk. apply m_bind_inv in Hk as (g & s7 & Hr & Hk).
    unfold m_read in Hr. injection Hr as <- _.
    apply m_bind_inv in Hk as (g' & s8 & Hres & Hk). unfold m_ret in Hk. simplify_eq.
    by eapply resolve_inv. }
  destruct (close_inv _ _ _ _ _ Hinv2 Hclose) as [Hinv3 Hclosed].
  split.
  - eapply settle_inv; [|done]. eapply store_inv_weaken; [|exact Hinv3]. by right.
  - intros k w Hw Hkey Hp.
    assert (st_ok s3) as Hok3 by apply Hinv3.
    destruct (settle_mono now (λ _, False) (λ _ _, False) (jk_TenantId key) (mkTarget (jk_JobId key) "") s3 Hok3) as [_ Hev].
    rewrite Hset in Hev. simpl in Hev.
    destruct (ev_wait_back _ _ _ _ Hev k w Hw) as [[]|(w0 & Hw0 & He)].
    apply (Hclosed k w0 Hw0).
    + pose proof (we_key _ _ He) as Hk. unfold wait_key in Hk. congruence.
    + destruct (decide (wi_State w0 = DependencyPending)) as [|Hn]; [done|].
      by rewrite (we_final _ _ He Hn) in Hp.
Qed.

Lemma fail_inv now req s s' g :
  store_inv none s → Fail now req s = (s', Ok g) → store_inv none s'.
Proof.
  intros Hinv Hs. apply m_bind_inv in Hs as ([] & s1 & Hr & Hs).
  unfold m_read in Hr. injection Hr as <- _.
  apply m_bind_inv in Hs as (g0 & s1 & Hr & Hs). unfold m_read in Hr. injection Hr as <- Hg.
  destruct (already_failed _ _); [unfold m_ret in Hs; by simplify_eq|].
  case_bool_decide; [done|].
  apply m_bind_inv in Hs as (js & s1 & Hr & Hs). unfold m_read in Hr. injection Hr as <- _.
  apply m_bind_inv in Hs as ([] & s1 & Hw & Hs).
  apply m_bind_inv in Hs as ([] & s2 & Hset & Hs). unfold m_ret in Hs. simplify_eq.
  unfold m_write in Hw. destruct (st_SaveGoal s _) as [s3|] eqn:Hsave; [|done]. simplify_eq.
  eapply settle_inv; [|done]. pose proof (save_goal_inv _ _ _ _ Hinv Hsave) as Hinv1.
  simpl in Hinv1. by rewrite (goal_key _ _ _ (si_ok _ _ Hinv) Hg) in Hinv1.
Qed.

(** Storing an evaluated wait breaks nothing: what it leaves pending is undecided. *)
Lemma save_wait_inv now P w w' s s' :
  store_inv P s → wf_wait w → Evaluate now s w = Ok w' → st_SaveWait s w' = Ok s' →
  (∀ d, wi_State w' = DependencyPending → d ∈ wi_Dependencies w' →
    dr_State d = DependencyPending → clean_target (dr_Target d)) →
  store_inv P s'.
Proof.
  intros [Hok Hwf Hcl Hlive] Hwfw He Hs Hclean.
  pose proof (save_wait_facts _ _ _ Hs) as Hfacts. split.
  - by eapply save_wait_ok.
  - intros k w0. erewrite save_wait_wait by done. case_decide; [|apply Hwf].
    intros [= <-]. by eapply copy_wait_wf, evaluate_wf.
  - intros k w0 d. erewrite save_wait_wait by done. case_decide; [|apply Hcl].
    intros [= <-] Hp Hd Hdp. destruct (copied_dep _ _ Hd Hdp) as (d' & Hd' & Hp' & <- & _). auto.
  - intros k w0 d. erewrite save_wait_wait by done. case_decide.
    + intros [= <-] Hp Hd Hdp. left.
      destruct (copied_dep _ _ Hd Hdp) as (d' & Hd' & Hp' & Ht & Hc).
      pose proof (evaluate_blocked _ _ _ _ d' He Hp Hd' Hp') as Hv.
      unfold dep_verdict in *. rewrite Ht, Hc in Hv.
      apply (verdict_facts s s' _ (mkResolution (dr_Target d) (dr_Condition d) DependencyPending "" "" None));
        done.
    + intros Hw Hp Hd Hdp. destruct (Hlive k w0 d Hw Hp Hd Hdp) as [Hv|HP];
        [left; by eapply verdict_facts|by right].
Qed.

(** No job and no goal has a blank ID (creation validates both). *)
Record named (s : St) : Prop := {
  named_job : ∀ k j, st_Job s k = Ok j → blank (jk_JobId k) = false;
  named_goal : ∀ k g, st_Goal s k = Ok g → blank (gk_GoalID k) = false
}.

Lemma checked_target now s key req deps w' d :
  named s → ValidateDependencies (dw_Dependencies req) = Ok tt →
  map_result (check_target s key) (dw_Dependencies req) = Ok deps →
  Evaluate now s (mkWaitInfo key (dw_WaitID req) DependencyPending (dw_Deadline req) deps None None)
    = Ok w' →
  wi_State w' = DependencyPending → d ∈ wi_Dependencies w' → dr_State d = DependencyPending →
  clean_target (dr_Target d).
Proof.
  intros [Hnj Hng] Hval Hdeps He Hp Hd Hdp Hne.
  pose proof (evaluate_evolves _ _ _ _ He) as Hev.
  destruct (evolved_dep _ _ _ Hev Hp Hd Hdp) as (_ & d0 & Hd0 & _ & Ht). simpl in Hd0.
  apply (map_result_elem _ _ _ _ Hdeps) in Hd0 as (r & Hr & Hchk).
  pose proof (evaluate_blocked _ _ _ _ d He Hp Hd Hdp) as Hv.
  inversion Hv as [g _ Hg _| | |j Hne' _ _| |]; [|done].
  apply Hng in Hg. simpl in Hg.
  apply validate_deps_ok in Hval as [_ Hall]. rewrite Forall_forall in Hall.
  destruct (Hall r Hr) as (_ & Hbl & _).
  unfold check_target in Hchk. case_match; [done|].
  destruct (str_empty (dt_JobID (dep_Target r))) eqn:Hempty; simpl in Hchk.
  - apply str_empty_spec in Hempty. destruct (st_Goal s _); simpl in Hchk; [|done].
    simplify_eq. simpl in Ht. congruence.
  - destruct (st_Job s _) as [j|] eqn:Hj; simpl in Hchk; [|done].
    simplify_eq. simpl in Ht. apply Hnj in Hj. simpl in Hj.
    rewrite Ht, Hg in Hbl. simpl in Hbl. rewrite Ht in Hj. congruence.
Qed.

Lemma checked_wf s key req sub deps :
  ValidateDependencyWait (Some req) sub = Ok tt → map_result (check_target s key) (dw_Dependencies req) = Ok deps →
  wf_wait (mkWaitInfo key (dw_WaitID req) DependencyPending (dw_Deadline req) deps None None).
Proof.
  intros Hval Hdeps.
  assert (∀ d, d ∈ deps → dr_State d = DependencyPending) as Hall.
  { intros d (r & Hr & Hchk)%(map_result_elem _ _ _ _ Hdeps). unfold check_target in Hchk. case_match; [done|].
    apply bind_ok in Hchk as ([] & _ & Hchk). by injection Hchk as <-. }
  unfold wf_wait. simpl. split; [apply Forall_forall; auto|]. intros HR.
  simpl in Hval. apply bind_ok in Hval as ([] & Hval & _). unfold guard_err in Hval.
  destruct (dw_Dependencies req) as [|r rs]; simpl in *.
  { by rewrite !orb_true_r in Hval. }
  apply bind_ok in Hdeps as (d & _ & Hdeps). apply bind_ok in Hdeps as (ds & _ & [= <-]).
  apply Forall_cons in HR as [HR _]. apply HR, Hall. set_solver.
Qed.

Lemma register_inv now key req sub s s' w :
  store_inv none s → named s → Register now key req sub s = (s', Ok w) → store_inv none s'.
Proof.
  intros Hinv Hn Hs. apply m_bind_inv in Hs as ([] & s1 & Hr & Hs).
  unfold m_read in Hr. injection Hr as <- Hval.
  apply m_bind_inv in Hs as (j & s1 & Hr & Hs). unfold m_read in Hr. injection Hr as <- Hj.
  destruct (st_Wait s _) as [old|e] eqn:Hold.
  - unfold register_again in Hs. destruct (sameDescriptor old req); [|done].
    apply m_bind_inv in Hs as (w1 & s1 & Hr & Hs). unfold m_read in Hr. injection Hr as <- He.
    apply m_bind_inv in Hs as ([] & s1 & Hw & Hs). unfold m_ret in Hs. simplify_eq.
    unfold m_write in Hw. destruct (st_SaveWait s w) as [s3|] eqn:Hsave; [|done]. simplify_eq.
    eapply save_wait_inv; [done|by eapply si_wf|done|done|].
    intros d Hp Hd Hdp. pose proof (evaluate_evolves _ _ _ _ He) as Hev.
    destruct (evolved_dep _ _ _ Hev Hp Hd Hdp) as (Hp0 & d0 & Hd0 & Hdp0 & <-).
    by eapply si_clean.
  - pose proof (wait_missing _ _ _ Hold) as ->. unfold register_new in Hs.
    apply m_bind_inv in Hs as (deps & s1 & Hr & Hs). unfold m_read in Hr. injection Hr as <- Hdeps.
    apply m_bind_inv in Hs as (w1 & s1 & Hr & Hs). unfold m_read in Hr. injection Hr as <- He.
    apply m_bind_inv in Hs as ([] & s1 & Hw & Hs).
    apply m_bind_inv in Hs as ([] & s2 & Hr & Hs). unfold m_read in Hr. injection Hr as <- _.
    unfold m_ret in Hs. simplify_eq.
    unfold m_write in Hw. destruct (st_SaveWait s w) as [s3|] eqn:Hsave; [|done]. simplify_eq.
    eapply save_wait_inv; [done| |done|done|].
    + by eapply checked_wf.
    + intros d. eapply checked_target; [done| |done|done].
      simpl in Hval. destruct (guard_err _ _); [done|done].
Qed.

Lemma insert_candidate_inv P g id t s s' :
  store_inv P s → st_InsertCandidate s g id t = Ok s' → store_inv P s'.
Proof.
  intros [Hok Hwf Hcl Hlive] Hs. split.
  - by eapply insert_candidate_ok.
  - intros k w. erewrite insert_candidate_wait by done. apply Hwf.
  - intros k w d. erewrite insert_candidate_wait by done. apply Hcl.
  - intros k w d. erewrite insert_candidate_wait by done. intros Hw Hp Hd Hdp.
    destruct (Hlive k w d Hw Hp Hd Hdp) as [Hv|HP]; [left|by right].
    eapply verdict_frame; [..|exact Hv]; intros k';
      [by eapply insert_candidate_goal|by eapply insert_candidate_job].
Qed.

(** The successful runs of [Add]: the pair was a candidate already, or it is
    inserted, and then resolves the goal, joins as a finished candidate, or
    passes the cycle check. *)
Lemma add_cases now req s s' c :
  Add now req s = (s', Ok c) →
  s' = s ∨ ∃ g j t0 s1,
    st_Goal s (ac_GoalKey req) = Ok g ∧ gi_State g = GoalOpen ∧
    st_Job s (mkJobKey (gk_TenantId (ac_GoalKey req)) (ac_JobID req)) = Ok j ∧
    st_Candidate s (ac_GoalKey req) (ac_JobID req) = Ok (t0, false) ∧
    st_InsertCandidate s (ac_GoalKey req) (ac_JobID req) now = Ok s1 ∧
    (j_Success j = true ∧ (∃ g', resolve now g (jk_JobId (j_Key j)) s1 = (s', Ok g')) ∨
     j_Terminal j = true ∧ s' = s1 ∨
     CheckCycle now (jk_TenantId (j_Key j)) (mkTarget "" (gk_GoalID (gi_GoalKey g))) s1 = Ok tt ∧
     s' = s1).
Proof.
  intros Hs. do 2 (apply m_bind_inv in Hs as ([] & ? & Hr & Hs); unfold m_read in Hr; injection Hr as <- _).
  apply m_bind_inv in Hs as (g & ? & Hr & Hs). unfold m_read in Hr. injection Hr as <- Hg.
  apply m_bind_inv in Hs as (j & ? & Hr & Hs). unfold m_read in Hr. injection Hr as <- Hj.
  apply m_bind_inv in Hs as ([t0 []] & ? & Hr & Hs); unfold m_read in Hr; injection Hr as <- Hc;
    simpl in Hs; [unfold m_ret in Hs; simplify_eq; by left|].
  case_bool_decide as Ho; [done|]. right.
  apply m_bind_inv in Hs as ([] & s1 & Hw & Hs). unfold m_write in Hw.
  destruct (st_InsertCandidate s _ _ _) as [s2|] eqn:Hins; [|done]. simplify_eq.
  apply m_bind_inv in Hs as (g' & s2 & Hk & Hs). unfold m_ret in Hs. simplify_eq.
  exists g, j, t0, s1. do 5 (split; [done|]).
  destruct (j_Success j); [left; eauto|]. destruct (j_Terminal j).
  - unfold m_ret in Hk. simplify_eq. right; left. done.
  - apply m_bind_inv in Hk as ([] & s2 & Hr & Hk). unfold m_read in Hr. simplify_eq.
    unfold m_ret in Hk. simplify_eq. by right; right.
Qed.

Lemma add_inv now req s s' c :
  store_inv none s → Add now req s = (s', Ok c) → store_inv none s'.
Proof.
  intros Hinv [->|(g & j & t0 & s1 & Hg & Ho & Hj & Hc & Hins & Hcase)]%add_cases; [done|].
  pose proof (insert_candidate_inv _ _ _ _ _ _ Hinv Hins) as Hinv1.
  destruct Hcase as [[_ [g' Hr]]|[[_ ->]|[_ ->]]]; [|done|done]. by eapply resolve_inv.
Qed.
End live.
