(* ===== verification/GoalGraph.v ===== *)
(** * GoalGraph: the engine keeps the dependency graph acyclic

    How the graph of unresolved dependencies changes when the store evolves, and
    that the cycle checks of [Register] and [Add] are enough. *)

From S2P Require Import Prelude Types GoalStore GoalEngine GoalCycles GoalWaits GoalInvariant GoalLive.

Section graph.
Context {St : Type} `{GoalStoreLaws St}.

Definition no_wait (_ : DependencyWaitKey) : Prop := False.
Definition no_candidate (_ : GoalKey) (_ : string) : Prop := False.

(** Time only removes edges. *)
Lemma edge_later now now' s tenant n m :
  (now ≤ now')%Z → edge now' s tenant n m → edge now s tenant n m.
Proof.
  intros Hle. destruct 1 as [n g id j t|n j wid w d ? ? ? ? Hl]; [by eapply edge_goal|].
  eapply edge_job; try done. unfold live_wait, deadline_passed, Before in *.
  apply andb_true_iff in Hl as [-> Hl]. destruct (wi_Deadline w); [|done]. simpl in *. lia.
Qed.

Lemma acyclic_later now now' s tenant :
  (now ≤ now')%Z → acyclic now s tenant → acyclic now' s tenant.
Proof. intros Hle Ha. eapply acyclic_mono; [exact Ha|]. intros. by eapply edge_later. Qed.

(** An edge after an evolution was there before, or comes from a new candidate
    or a new wait. *)
Lemma evolve_edge W C now s s' tenant n m :
  st_ok s → evolve W C s s' → edge now s' tenant n m →
  edge now s tenant n m ∨
  (∃ id g, dt_GoalID n ≠ "" ∧ C (mkGoalKey tenant (dt_GoalID n)) id ∧ m = mkTarget id "" ∧
     st_Goal s' (mkGoalKey tenant (dt_GoalID n)) = Ok g ∧ gi_State g = GoalOpen ∧
     ∃ j, st_Job s (mkJobKey tenant id) = Ok j ∧ j_Terminal j = false) ∨
  (∃ wid, dt_GoalID n = "" ∧ W (mkWaitKey (mkJobKey tenant (dt_JobID n)) wid)).
Proof.
  intros Hok [EJ EG EW EC EGB EWB ECB]. destruct 1 as [n g id j t Hne Hg Ho Hj Ht Hc|n j wid w d Hn Hj Ht Hw Hl Hd Hp].
  - rewrite EJ in Hj. destruct (ECB _ _ _ Hc) as [HC|Hc']; [right; left; eauto 12|left].
    destruct (EGB _ _ Hg) as (g0 & Hg0 & He).
    eapply edge_goal; try done. destruct He as [->|(? & ? & _)]; [done|congruence].
  - rewrite EJ in Hj. destruct (EWB _ _ Hw) as [HW|(w0 & Hw0 & He)]; [right; right; eauto|left].
    apply andb_true_iff in Hl as [Hs Hdl]. apply bool_decide_eq_true in Hs.
    destruct (evolved_dep _ _ _ He Hs Hd Hp) as (Hs0 & d0 & Hd0 & Hp0 & <-).
    eapply edge_job; try done. unfold live_wait. rewrite bool_decide_true by done.
    unfold deadline_passed in *. by rewrite <- (we_deadline _ _ He).
Qed.

Lemma evolve_acyclic now s s' tenant :
  st_ok s → evolve no_wait no_candidate s s' → acyclic now s tenant → acyclic now s' tenant.
Proof.
  intros Hok He Ha. eapply acyclic_mono; [exact Ha|]. intros x m Hx.
  by destruct (evolve_edge _ _ _ _ _ _ _ _ Hok He Hx) as [?|[(? & ? & _ & [] & _)|(? & _ & [])]].
Qed.

Lemma check_cycle_settled now tenant start s :
  st_ok s → CheckCycle now tenant start s = Ok tt → settled now s tenant start.
Proof. intros Hok Hc. pose proof (check_cycle_spec now s tenant start Hok) as Hs. by rewrite Hc in Hs. Qed.

(** [Register]: every new edge leaves the job that was checked. *)
Lemma register_acyclic now key req sub s s' w tenant :
  st_ok s → Register now key req sub s = (s', Ok w) →
  acyclic now s tenant → acyclic now s' tenant.
Proof.
  intros Hok Hs Ha. set (W := λ k, k = mkWaitKey key (dw_WaitID req)).
  destruct (Register_mono now W no_candidate key req sub eq_refl s Hok) as [Hok' Hev].
  rewrite Hs in Hok', Hev. simpl in *.
  apply m_bind_inv in Hs as ([] & s1 & Hr & Hs). unfold m_read in Hr. injection Hr as <- Hval.
  apply m_bind_inv in Hs as (j & s1 & Hr & Hs). unfold m_read in Hr. injection Hr as <- Hj.
  destruct (st_Wait s _) as [old|e] eqn:Hold.
  - destruct (register_again_mono now no_wait no_candidate s _ old req Hok Hold) as [_ Hev'].
    rewrite Hs in Hev'. simpl in Hev'. by apply (evolve_acyclic now s).
  - pose proof (wait_missing _ _ _ Hold) as ->. unfold register_new in Hs.
    apply m_bind_inv in Hs as (deps & s1 & Hr & Hs). unfold m_read in Hr. injection Hr as <- _.
    apply m_bind_inv in Hs as (w0 & s1 & Hr & Hs). unfold m_read in Hr. injection Hr as <- _.
    apply m_bind_inv in Hs as ([] & s1 & Hw & Hs).
    apply m_bind_inv in Hs as ([] & s2 & Hr & Hs). unfold m_read in Hr. injection Hr as <- Hcyc.
    unfold m_ret in Hs. simplify_eq.
    destruct (decide (tenant = jk_TenantId key)) as [->|Hne].
    + apply (acyclic_extend now s s' _ (mkTarget (jk_JobId key) "")); [done| |by apply check_cycle_settled].
      intros y x m _ Hx Hxm.
      destruct (evolve_edge _ _ _ _ _ _ _ _ Hok Hev Hxm) as [?|[(? & ? & _ & [] & _)|(wid & Hg & HW)]]; [done|].
      exfalso. apply Hx. unfold W in HW. destruct key, x as [xj xg]; simpl in *. congruence.
    + eapply acyclic_mono; [exact Ha|]. intros x m Hxm.
      destruct (evolve_edge _ _ _ _ _ _ _ _ Hok Hev Hxm) as [?|[(? & ? & _ & [] & _)|(wid & Hg & HW)]]; [done|].
      exfalso. apply Hne. unfold W in HW. destruct key; simpl in *. congruence.
Qed.

(** After [resolve] the goal is closed. *)
Lemma resolve_closes now g id s s' g' :
  st_ok s → st_Goal s (gi_GoalKey g) = Ok g → resolve now g id s = (s', Ok g') →
  ∃ g1, st_Goal s' (gi_GoalKey g) = Ok g1 ∧ gi_State g1 ≠ GoalOpen.
Proof.
  intros Hok Hg Hs. unfold resolve in Hs.
  case_bool_decide; [unfold m_ret in Hs; simplify_eq; eauto|].
  apply m_bind_inv in Hs as ([] & s1 & Hw & Hs). unfold m_write in Hw.
  destruct (st_SaveGoal s _) as [s2|] eqn:Hsave; [|done]. simplify_eq.
  apply m_bind_inv in Hs as ([] & s2 & Hset & Hs). unfold m_ret in Hs. simplify_eq.
  assert (st_ok s1) as Hok1 by (by eapply save_goal_ok).
  destruct (settle_mono now no_wait no_candidate (gk_TenantId (gi_GoalKey g))
    (mkTarget "" (gk_GoalID (gi_GoalKey g))) s1 Hok1) as [_ Hev]. rewrite Hset in Hev. simpl in Hev.
  destruct (ev_goal _ _ _ _ Hev (gi_GoalKey g) (copy_goal (succeeded_goal now g id))) as (g1 & Hg1 & He).
  { erewrite save_goal_goal by done. by rewrite decide_True. }
  exists g1. split; [done|]. destruct He as [->|(_ & ? & _)]; done.
Qed.

(** [Add]: every new edge leaves the goal that was checked. *)
Lemma add_acyclic now req s s' c tenant :
  store_inv none s → Add now req s = (s', Ok c) →
  acyclic now s tenant → acyclic now s' tenant.
Proof.
  intros Hinv Hs Ha. pose proof (si_ok _ _ Hinv) as Hok.
  set (C := λ k id, k = ac_GoalKey req ∧ id = ac_JobID req).
  destruct (Add_mono now no_wait C req (conj eq_refl eq_refl) s Hok) as [Hok' Hev].
  pose proof (add_inv _ _ _ _ _ Hinv Hs) as Hinv'. rewrite Hs in Hok', Hev. simpl in *.
  destruct (add_cases _ _ _ _ _ Hs) as [->|(g & j & t0 & s1 & Hg & Ho & Hj & Hc & Hins & Hcase)]; [done|].
  pose proof (goal_key _ _ _ Hok Hg) as Hgk. pose proof (job_key _ _ _ Hok Hj) as Hjk.
  assert (∀ x m, edge now s' tenant x m → edge now s tenant x m ∨
    (gk_TenantId (ac_GoalKey req) = tenant ∧ dt_GoalID x = gk_GoalID (ac_GoalKey req) ∧
     dt_GoalID x ≠ "" ∧
     CheckCycle now tenant (mkTarget "" (gk_GoalID (ac_GoalKey req))) s' = Ok tt)) as Hnew.
  { intros x m Hxm.
    destruct (evolve_edge _ _ _ _ _ _ _ _ Hok Hev Hxm)
      as [?|[(id & g1 & Hne & [HC ->] & -> & Hg1 & Ho1 & j1 & Hj1 & Ht1)|(wid & _ & [])]]; [by left|right].
    rewrite <- HC in *. simpl in *. split; [done|]. split; [done|]. split; [done|].
    rewrite Hj in Hj1. injection Hj1 as <-.
    destruct Hcase as [[_ [g' Hr]]|[[Ht ->]|[Hcyc ->]]]; [exfalso|congruence|].
    - rewrite <- Hgk in Hg1.
      destruct (resolve_closes now g (jk_JobId (j_Key j)) s1 s' g') as (g2 & Hg2 & Hn2); [..|congruence].
      + exact (insert_candidate_ok _ _ _ _ _ Hok Hins).
      + erewrite insert_candidate_goal by done. by rewrite Hgk.
      + done.
    - by rewrite Hjk, Hgk in Hcyc. }
  destruct (CheckCycle now tenant (mkTarget "" (gk_GoalID (ac_GoalKey req))) s') as [[]|e] eqn:Hcyc.
  - apply (acyclic_extend now s s' _ (mkTarget "" (gk_GoalID (ac_GoalKey req)))); [done| |by apply check_cycle_settled].
    intros y x m Hyx Hx Hxm. destruct (Hnew _ _ Hxm) as [?|(Ht & Hgid & Hne & _)]; [done|].
    exfalso. apply Hx. destruct Hyx as [y g1 id j1 t1|y j1 wid w d _ _ _ Hw Hl Hd Hp]; [done|].
    apply andb_true_iff in Hl as [Hp'%bool_decide_eq_true _].
    pose proof (si_clean _ _ Hinv' _ _ _ Hw Hp' Hd Hp Hne) as Hclean.
    destruct (dr_Target d); simpl in *. by subst.
  - eapply acyclic_mono; [exact Ha|]. intros x m Hxm. by destruct (Hnew _ _ Hxm) as [?|(_ & _ & _ & ?)].
Qed.
End graph.
