(* ===== verification/GoalTotal.v ===== *)
(** * GoalTotal: completing a job never fails on a consistent store

    [Complete] runs inside completion, cancellation and deletion, which treat its
    error as a failure of the whole operation.  On a [Memory] whose references
    resolve it returns no error. *)

From S2P Require Import Prelude Types GoalStore GoalEngine GoalCycles GoalWaits GoalInvariant GoalLive.

Section total.
Context `{RangeOrder}.

(** Every reference the store holds resolves. *)
Record refs_ok (s : Memory) : Prop := {
  ro_primary : ∀ k j, m_Jobs s !! k = Some j →
    is_Some (m_GoalRows s !! mkGoalKey (jk_TenantId k) (j_GoalID j));
  ro_extra : ∀ ck, is_Some (m_Extras s !! ck) →
    is_Some (m_GoalRows s !! ck_Goal ck) ∧
    is_Some (m_Jobs s !! mkJobKey (gk_TenantId (ck_Goal ck)) (ck_JobID ck));
  ro_wait : ∀ k w d, m_WaitRows s !! k = Some w → wi_State w = DependencyPending →
    d ∈ wi_Dependencies w → dr_State d = DependencyPending →
    if str_empty (dt_GoalID (dr_Target d))
    then is_Some (m_Jobs s !! mkJobKey (jk_TenantId (wi_JobKey w)) (dt_JobID (dr_Target d)))
    else is_Some (m_GoalRows s !! mkGoalKey (jk_TenantId (wi_JobKey w)) (dt_GoalID (dr_Target d)))
}.

Lemma map_result_total {A B} (f : A → result B) l :
  (∀ a, a ∈ l → ∃ b, f a = Ok b) → ∃ bs, map_result f l = Ok bs.
Proof.
  intros Hf. destruct (map_result f l) as [bs|e] eqn:He; [eauto|].
  apply map_result_err in He as (a & Ha & Hfa). destruct (Hf a Ha) as [b Hb]. congruence.
Qed.

Lemma candidates_total s k : refs_ok s → ∃ js, mem_Candidates s k = Ok js.
Proof.
  intros Hr. unfold mem_Candidates.
  destruct (map_result_total (λ kt : CandidateKey * time,
     LookupJob s (mkJobKey (gk_TenantId k) (ck_JobID kt.1)))
     (filter (λ kt, ck_Goal kt.1 = k) (range (m_Extras s)))) as [bs ->]; [|simpl; eauto].
  intros [ck t] [Hk Hin]%list_elem_of_filter. apply elem_of_range in Hin. simpl in *. subst k.
  destruct (ro_extra s Hr ck) as [_ [j Hj]]; [eauto|]. exists j. by apply lookup_job_ok.
Qed.

Lemma evaluate_dep_total now s tenant d :
  refs_ok s →
  (if str_empty (dt_GoalID (dr_Target d))
   then is_Some (m_Jobs s !! mkJobKey tenant (dt_JobID (dr_Target d)))
   else is_Some (m_GoalRows s !! mkGoalKey tenant (dt_GoalID (dr_Target d)))) →
  ∃ d', evaluate_dep now s tenant d = Ok d'.
Proof.
  intros Hr Ht. unfold evaluate_dep. destruct (str_empty _); simpl.
  - destruct Ht as [j Hj]. apply lookup_job_ok in Hj. rewrite Hj. simpl.
    repeat case_match; eauto.
  - destruct Ht as [g Hg].
    assert (mem_Goal s (mkGoalKey tenant (dt_GoalID (dr_Target d))) = Ok (copy_goal g)) as ->
      by (apply mem_goal_ok; eauto).
    cbn [rbind]. case_match; [|eauto..].
    destruct (candidates_total s (gi_GoalKey (copy_goal g)) Hr) as [js ->]. simpl. eauto.
Qed.

Lemma evaluate_loop_total now s tenant before all rest :
  refs_ok s →
  (∀ d, d ∈ rest → dr_State d = DependencyPending →
    if str_empty (dt_GoalID (dr_Target d))
    then is_Some (m_Jobs s !! mkJobKey tenant (dt_JobID (dr_Target d)))
    else is_Some (m_GoalRows s !! mkGoalKey tenant (dt_GoalID (dr_Target d)))) →
  ∃ o, evaluate_loop now s tenant before all rest = Ok o.
Proof.
  intros Hr. revert before all. induction rest as [|d rest IH]; intros before all Ht; simpl; [eauto|].
  case_bool_decide as Hp; [apply IH; set_solver|].
  assert (dr_State d = DependencyPending) as Hd by (by destruct (dr_State d); try by destruct Hp).
  destruct (evaluate_dep_total now s tenant d Hr) as [d' ->]; [apply Ht; [set_solver|done]|].
  simpl. case_match; eauto; apply IH; set_solver.
Qed.

Lemma copy_pending_elem w d :
  d ∈ wi_Dependencies (copy_wait w) → dr_State d = DependencyPending →
  ∃ d', d' ∈ wi_Dependencies w ∧ dr_State d' = DependencyPending ∧ dr_Target d' = dr_Target d.
Proof. intros Hd Hp. destruct (copied_dep w d Hd Hp) as (d' & ? & ? & ? & _). eauto. Qed.

Lemma evaluate_total now s k w :
  refs_ok s → mem_Wait s k = Ok w → ∃ w', Evaluate now s w = Ok w'.
Proof.
  intros Hr Hw. apply mem_wait_ok in Hw as (v & Hv & ->). unfold Evaluate.
  case_bool_decide as Hp; [eauto|]. destruct (deadline_passed now _); [eauto|].
  assert (wi_State v = DependencyPending) as Hs
    by (simpl in Hp; by destruct (wi_State v); try by destruct Hp).
  destruct (evaluate_loop_total now s (jk_TenantId (wi_JobKey (copy_wait v))) [] true
              (wi_Dependencies (copy_wait v)) Hr) as [o ->].
  - intros d Hd Hdp. destruct (copy_pending_elem v d Hd Hdp) as (d' & Hd' & Hp' & <-).
    exact (ro_wait s Hr k v d' Hv Hs Hd' Hp').
  - simpl. case_match; eauto.
Qed.

(** Evaluated waits keep references resolved. *)
Lemma save_wait_refs s k w w' s' :
  refs_ok s → mem_Wait s k = Ok w → wait_evolves w w' → mem_SaveWait s w' = Ok s' → refs_ok s'.
Proof.
  intros [R1 R2 R3] Hw He [= <-]. split; simpl; [done|done|].
  intros k0 w0 d Hl Hs Hd Hp. apply lookup_insert_Some in Hl as [[_ <-]|[_ Hl]]; [|by eapply R3].
  destruct (copy_pending_elem w' d Hd Hp) as (d1 & Hd1 & Hp1 & <-). simpl in *.
  destruct (evolved_dep _ _ _ He Hs Hd1 Hp1) as (Hs0 & d0 & Hd0 & Hp0 & <-).
  apply mem_wait_ok in Hw as (v & Hv & ->).
  destruct (copy_pending_elem v d0 Hd0 Hp0) as (d2 & Hd2 & Hp2 & <-).
  pose proof (we_key _ _ He) as Hk. unfold wait_key in Hk. injection Hk as Hk _. rewrite Hk.
  by eapply (R3 k v d2).
Qed.

(** A loop of total steps is total, as long as each keeps what the later need. *)
Lemma m_iter_total {S A} (P : S → list A → Prop) (f : A → M S ()) l s :
  P s l → (∀ a l s, P s (a :: l) → ∃ s', f a s = (s', Ok tt) ∧ P s' l) →
  ∃ s', m_iter f l s = (s', Ok tt) ∧ P s' [].
Proof.
  revert s. induction l as [|a l IH]; intros s HP Hf; simpl; [by exists s|].
  destruct (Hf a l s HP) as (s1 & Ha & HP1). rewrite (m_bind_ok _ _ _ _ _ Ha). by apply IH.
Qed.

(** A batch of stored pending waits still to be rewritten. *)
Definition batch_left (s : Memory) (ws : list DependencyWaitInfo) : Prop :=
  (refs_ok s ∧ memory_ok s) ∧ NoDup (wait_key <$> ws) ∧
  ∀ w, w ∈ ws → mem_Wait s (wait_key w) = Ok w ∧ wi_State w = DependencyPending.

Lemma save_total s ws w w' :
  batch_left s (w :: ws) → wait_evolves w w' →
  ∃ s', mem_SaveWait s w' = Ok s' ∧ batch_left s' ws ∧
        m_GoalRows s' = m_GoalRows s ∧ m_Jobs s' = m_Jobs s ∧ m_Extras s' = m_Extras s.
Proof.
  intros [[Hr Hok] [Hnd Hws]] He. eexists. split; [reflexivity|]. split; [|done].
  destruct (Hws w) as [Hw _]; [set_solver|].
  assert (wait_key w' = wait_key w) as Hk by apply He.
  apply NoDup_cons in Hnd as [Hnot Hnd].
  split; [split; [by eapply save_wait_refs|exact (save_wait_ok s w' _ Hok eq_refl)]|]. split; [done|].
  intros w0 Hw0. destruct (Hws w0) as [Hl ?]; [set_solver|]. split; [|done].
  pose proof (save_wait_wait s w' (s <| m_WaitRows := <[wait_key w' := copy_wait w']> (m_WaitRows s) |>)
    (wait_key w0) eq_refl) as Hsw. etrans; [exact Hsw|].
  rewrite decide_False; [done|]. rewrite Hk. intros Heq. apply Hnot. rewrite <- Heq.
  by apply list_elem_of_fmap_2.
Qed.

Lemma settle_total now tenant t s :
  refs_ok s → memory_ok s →
  ∃ s', SettleTarget now tenant t s = (s', Ok tt) ∧ refs_ok s' ∧ memory_ok s'.
Proof.
  intros Hr Hok. destruct (mem_TargetWaits s tenant t) as [ws|] eqn:Hws; [|done].
  assert (batch_left s ws) as HB.
  { split; [done|]. split; [exact (target_waits_nodup s tenant t ws Hok Hws)|]. intros w Hw.
    by apply (mem_target_waits_spec s tenant t ws w Hok Hws) in Hw as (? & _ & ? & _). }
  destruct (m_iter_total batch_left (save_evaluated now) ws s HB) as (s' & Hs & [[??] _]).
  - intros w l s1 HB1. destruct HB1 as [[Hr1 Hok1] [Hnd1 Hws1]] eqn:E. clear E.
    destruct (Hws1 w) as [Hw _]; [set_solver|].
    destruct (evaluate_total now s1 _ w Hr1 Hw) as [w' Hev].
    destruct (save_total s1 l w w') as (s2 & Hs2 & HB2 & _); [done|by eapply evaluate_evolves|].
    exists s2. split; [|done]. unfold save_evaluated, m_bind, m_read, m_write. rewrite Hev. simpl.
    by injection Hs2 as <-.
  - exists s'. split; [|done]. unfold SettleTarget.
    rewrite (m_bind_ok _ _ _ s ws); [exact Hs|]. unfold m_read. f_equal. exact Hws.
Qed.

Lemma close_total now key s :
  refs_ok s → memory_ok s →
  ∃ s', CloseConsumer now key s = (s', Ok tt) ∧ refs_ok s' ∧ memory_ok s'.
Proof.
  intros Hr Hok. destruct (mem_ConsumerWaits s key) as [ws|] eqn:Hws; [|done].
  assert (batch_left s ws) as HB.
  { split; [done|]. split; [exact (consumer_waits_nodup s key ws Hok Hws)|]. intros w Hw.
    by apply (mem_consumer_waits_spec s key ws w Hok Hws) in Hw as (? & _ & ?). }
  destruct (m_iter_total batch_left (close_wait now) ws s HB) as (s' & Hs & [[??] _]).
  - intros w l s1 HB1. destruct HB1 as [[Hr1 Hok1] [Hnd1 Hws1]] eqn:E. clear E.
    destruct (Hws1 w) as [Hw Hp]; [set_solver|].
    destruct (evaluate_total now s1 _ w Hr1 Hw) as [w' Hev].
    pose proof (evaluate_evolves _ _ _ _ Hev) as He.
    set (w2 := closePending (if bool_decide (wi_State w' = DependencyPending)
               then w' <| wi_State := DependencyCancelled |> else w')).
    destruct (save_total s1 l w w2) as (s2 & Hs2 & HB2 & _).
    + done.
    + unfold w2. case_bool_decide; apply close_evolves; try done. by apply cancel_evolves.
    + exists s2. split; [|done]. unfold close_wait. rewrite bool_decide_true by done.
      unfold m_bind, m_read, m_write. rewrite Hev. simpl. by injection Hs2 as <-.
  - exists s'. split; [|done]. unfold CloseConsumer.
    rewrite (m_bind_ok _ _ _ s ws); [exact Hs|]. unfold m_read. f_equal. exact Hws.
Qed.

Lemma save_goal_refs s g s' : refs_ok s → mem_SaveGoal s g = Ok s' → refs_ok s'.
Proof.
  intros [R1 R2 R3] [= <-].
  assert (∀ k, is_Some (m_GoalRows s !! k) →
    is_Some (<[gi_GoalKey g := copy_goal g]> (m_GoalRows s) !! k)) as Hmono
    by (intros k Hk; rewrite lookup_insert_is_Some'; auto).
  split; simpl.
  - intros k j Hj. by eapply Hmono, R1.
  - intros ck Hck. destruct (R2 ck Hck). auto.
  - intros k w d Hw Hs Hd Hp. pose proof (R3 k w d Hw Hs Hd Hp). case_match; auto.
Qed.

Lemma resolve_total now g id s :
  refs_ok s → memory_ok s →
  ∃ s' g', resolve now g id s = (s', Ok g') ∧ refs_ok s' ∧ memory_ok s'.
Proof.
  intros Hr Hok. unfold resolve. case_bool_decide; [unfold m_ret; eauto 6|].
  destruct (st_SaveGoal s (succeeded_goal now g id)) as [s1|] eqn:Hs1; [|done].
  destruct (settle_total now (gk_TenantId (gi_GoalKey g)) (mkTarget "" (gk_GoalID (gi_GoalKey g))) s1)
    as (s2 & Hs2 & Hr2 & Hok2).
  { by eapply save_goal_refs. }
  { exact (save_goal_ok s _ _ Hok Hs1). }
  exists s2, (succeeded_goal now g id). split; [|done].
  rewrite (m_bind_ok _ _ _ s1 tt); [|unfold m_write; by rewrite Hs1].
  by rewrite (m_bind_ok _ _ _ _ _ Hs2).
Qed.

Lemma settle_goal_rows now tenant t s :
  m_GoalRows (SettleTarget now tenant t s).1 = m_GoalRows s ∧
  m_Jobs (SettleTarget now tenant t s).1 = m_Jobs s.
Proof.
  unfold SettleTarget, m_bind, m_read. simpl.
  apply (m_iter_inv (λ s', m_GoalRows s' = m_GoalRows s ∧ m_Jobs s' = m_Jobs s)); [|done].
  intros w s1 _ [H1 H2]. unfold save_evaluated, m_bind, m_read, m_write. simpl.
  by destruct (Evaluate now s1 w); simpl.
Qed.

Lemma resolve_goal_rows now g id s k :
  is_Some (m_GoalRows s !! k) → is_Some (m_GoalRows (resolve now g id s).1 !! k).
Proof.
  intros Hk. unfold resolve. case_bool_decide; [done|].
  set (s1 := s <| m_GoalRows := <[gi_GoalKey g := copy_goal (succeeded_goal now g id)]> (m_GoalRows s) |>).
  rewrite (m_bind_ok (m_write _) _ s s1 tt) by reflexivity. unfold m_bind.
  destruct (settle_goal_rows now (gk_TenantId (gi_GoalKey g)) (mkTarget "" (gk_GoalID (gi_GoalKey g))) s1)
    as [Hrows _].
  destruct (SettleTarget _ _ _ s1) as [s2 [[]|e]]; simpl in *; rewrite Hrows;
    apply lookup_insert_is_Some'; auto.
Qed.

(** [Complete] succeeds on every job of a consistent store. *)
Lemma complete_total now key s :
  refs_ok s → memory_ok s → is_Some (m_Jobs s !! key) →
  ∃ s', Complete now key s = (s', Ok tt) ∧ refs_ok s' ∧ memory_ok s'.
Proof.
  intros Hr Hok [j Hj].
  assert (∃ s1, (if j_Success j then
     let! goals := m_read (λ s, st_Goals s key) in
     m_iter (resolve_key now (jk_JobId (j_Key j))) (merge_sort goal_id_le goals)
     else m_ret tt) s = (s1, Ok tt) ∧ refs_ok s1 ∧ memory_ok s1) as (s1 & Hs1 & Hr1 & Hok1).
  { destruct (j_Success j); [|unfold m_ret; eauto].
    assert (mem_Goals s key = Ok (mkGoalKey (jk_TenantId key) (j_GoalID j) ::
      (ck_Goal ∘ fst <$> filter (λ kt : CandidateKey * time,
         gk_TenantId (ck_Goal kt.1) = jk_TenantId key ∧ ck_JobID kt.1 = jk_JobId key)
         (range (m_Extras s))))) as Hgs.
    { unfold mem_Goals. apply lookup_job_ok in Hj. by rewrite Hj. }
    unfold m_bind at 1, m_read. simpl. rewrite Hgs. set (gs := _ :: _).
    assert (∀ k, k ∈ merge_sort goal_id_le gs → is_Some (m_GoalRows s !! k)) as Hex.
    { intros k. rewrite (merge_sort_Permutation goal_id_le gs).
      intros [->|Hk]%elem_of_cons; [by eapply ro_primary|].
      apply list_elem_of_fmap in Hk as ([ck t] & -> & [_ Hin]%list_elem_of_filter).
      apply elem_of_range in Hin. simpl. eapply ro_extra; eauto. }
    destruct (m_iter_total (λ s l, (refs_ok s ∧ memory_ok s) ∧
       ∀ k, k ∈ l → is_Some (m_GoalRows s !! k)) (resolve_key now (jk_JobId (j_Key j)))
       (merge_sort goal_id_le gs) s) as (s1 & Hs1 & [? _]); [done| |by exists s1].
    intros k l s2 [[Hr2 Hok2] Hex2]. destruct (Hex2 k) as [g Hg]; [set_solver|].
    destruct (resolve_total now (copy_goal g) (jk_JobId (j_Key j)) s2 Hr2 Hok2)
      as (s3 & g' & Hs3 & Hr3 & Hok3).
    exists s3. split.
    - unfold resolve_key, m_bind at 1, m_read. simpl. unfold mem_Goal. rewrite Hg. simpl.
      by rewrite (m_bind_ok _ _ _ _ _ Hs3).
    - split; [done|]. intros k' Hk'.
      pose proof (resolve_goal_rows now (copy_goal g) (jk_JobId (j_Key j)) s2 k') as HG.
      rewrite Hs3 in HG. apply HG, Hex2. set_solver. }
  destruct (close_total now key s1 Hr1 Hok1) as (s2 & Hs2 & Hr2 & Hok2).
  destruct (settle_total now (jk_TenantId key) (mkTarget (jk_JobId key) "") s2 Hr2 Hok2)
    as (s3 & Hs3 & Hr3 & Hok3).
  exists s3. split; [|done]. unfold Complete.
  rewrite (m_bind_ok _ _ _ s j); [|unfold m_read; f_equal; by apply lookup_job_ok].
  rewrite (m_bind_ok _ _ _ _ _ Hs1). by rewrite (m_bind_ok _ _ _ _ _ Hs2).
Qed.
End total.
