(* ===== verification/GoalProgress.v ===== *)
(** * GoalProgress: dependencies never deadlock

    On a store whose references resolve, an acyclic graph of unresolved
    dependencies leads from every node to one that waits for nothing; and what
    each operation, and inserting or finishing a job, does to references. *)

From S2P Require Import Prelude Types GoalStore GoalEngine GoalCycles GoalWaits GoalInvariant GoalLive GoalGraph GoalTotal.

(** ** Graphs *)
Section graphs.
Context {A : Type}.

(** In an acyclic finite graph every path ends. *)
Lemma finite_acyclic_end `{Countable A} (R : relation A) (N : gset A) n :
  (∀ x, ¬ tc R x x) → (∀ x y, R x y → y ∈ N) → sn R n.
Proof.
  intros Hac HN. apply tc_finite_sn; [intros x; apply Hac|]. exists (elements N).
  intros y Hy. apply elem_of_elements. induction Hy as [x y Hxy|x y z _ _ IH]; [by eapply HN|done].
Qed.

Lemma tc_first (R : relation A) x y : tc R x y → ∃ z, R x z.
Proof. destruct 1; eauto. Qed.

(** Edges into nodes without edges close no cycle. *)
Lemma tc_skip_sinks (R R' : relation A) x y :
  (∀ a b, R' a b → R a b ∨ ∀ c, ¬ R' b c) → tc R' x y → (∃ z, R' y z) → tc R x y.
Proof.
  intros Hsub. induction 1 as [x y Hxy|x y z Hxy Hyz IH]; intros [c Hc].
  - apply tc_once. destruct (Hsub _ _ Hxy) as [|Hn]; [done|]. by destruct (Hn c).
  - assert (tc R y z) as Ht by (apply IH; eauto). eapply tc_l; [|exact Ht].
    destruct (Hsub _ _ Hxy) as [|Hn]; [done|]. destruct (tc_first _ _ _ Hyz) as [w Hw]. by destruct (Hn w).
Qed.
End graphs.

(** ** What blocks a node *)
Section progress.
Context `{RangeOrder}.

(** A node the store knows, and one whose outcome is still open. *)
Definition known (s : Memory) (tenant : string) (n : DependencyTarget) : Prop :=
  if str_empty (dt_GoalID n)
  then is_Some (m_Jobs s !! mkJobKey tenant (dt_JobID n))
  else is_Some (m_GoalRows s !! mkGoalKey tenant (dt_GoalID n)).

Inductive undecided (s : Memory) (tenant : string) (n : DependencyTarget) : Prop :=
  | undecided_goal g :
      dt_GoalID n ≠ "" → mem_Goal s (mkGoalKey tenant (dt_GoalID n)) = Ok g → gi_State g = GoalOpen →
      undecided s tenant n
  | undecided_job j :
      dt_GoalID n = "" → m_Jobs s !! mkJobKey tenant (dt_JobID n) = Some j → j_Terminal j = false →
      undecided s tenant n.

Lemma pending_undecided s tenant d : dep_verdict s tenant d DependencyPending → undecided s tenant (dr_Target d).
Proof.
  intros Hv. inversion Hv as [g Hne Hg Ho| | |j Hne Hj Ht| |]; subst.
  - by eapply undecided_goal.
  - eapply undecided_job; [done| |done]. by apply lookup_job_ok.
Qed.

Lemma undecided_known s tenant n : undecided s tenant n → known s tenant n.
Proof.
  unfold known. intros [g Hne Hg _|j He Hj _].
  - rewrite str_empty_ne by done. apply mem_goal_ok in Hg as (v & Hv & _). eauto.
  - rewrite He. simpl. eauto.
Qed.

(** Whatever an undecided node waits for is undecided. *)
Lemma edge_undecided now s tenant n m :
  store_inv none s → edge now s tenant n m → undecided s tenant m.
Proof.
  intros Hinv [n' g id j t _ _ _ Hj Ht _|n' j wid w d _ _ _ Hw Hl Hd Hp].
  - eapply undecided_job; [done| |done]. by apply lookup_job_ok.
  - apply andb_true_iff in Hl as [Hs _]. apply bool_decide_eq_true in Hs.
    destruct (si_live _ _ Hinv _ _ _ Hw Hs Hd Hp) as [Hv|[]].
    pose proof (wait_keyed _ _ _ (si_ok _ _ Hinv) Hw) as Hk. unfold wait_key in Hk.
    assert (wi_JobKey w = mkJobKey tenant (dt_JobID n')) as Hkey by congruence.
    rewrite Hkey in Hv. by apply pending_undecided.
Qed.

Lemma successors_total now s tenant n :
  refs_ok s → known s tenant n → ∃ ms, successors now s tenant n = Ok ms.
Proof.
  intros Hr Hk. unfold known in Hk. unfold successors. destruct (str_empty _); simpl.
  - destruct Hk as [j Hj]. apply lookup_job_ok in Hj. rewrite Hj. simpl. destruct (j_Terminal j); eauto.
  - destruct Hk as [g Hg]. unfold mem_Goal. rewrite Hg. simpl. case_bool_decide; [|eauto].
    destruct (candidates_total s (gi_GoalKey g) Hr) as [js ->]. simpl. eauto.
Qed.

(** From every undecided node a chain of dependencies leads to an undecided node
    that waits for nothing. *)
Lemma chain_ends now s tenant n :
  store_inv none s → refs_ok s → acyclic now s tenant → undecided s tenant n →
  ∃ m, rtc (edge now s tenant) n m ∧ undecided s tenant m ∧ nf (edge now s tenant) m.
Proof.
  intros Hinv Hr Hac. pose proof (si_ok _ _ Hinv) as Hok.
  assert (sn (edge now s tenant) n) as Hsn.
  { eapply (finite_acyclic_end _ (st_nodes s tenant)); [exact Hac|]. intros. by eapply edge_nodes. }
  induction Hsn as [n _ IH]. intros Hn.
  destruct (successors_total now s tenant n Hr) as [ms Hms]; [by apply undecided_known|].
  destruct ms as [|m ms].
  - exists n. split; [done|]. split; [done|]. intros [m Hm].
    apply (successors_spec _ _ _ _ _ _ Hok Hms) in Hm. set_solver.
  - assert (edge now s tenant n m) as Hm by (apply (successors_spec _ _ _ _ _ _ Hok Hms); set_solver).
    destruct (IH m) as (m' & Hp & Hm'); [exact Hm|by eapply edge_undecided|].
    exists m'. split; [by eapply rtc_l|done].
Qed.

(** A running job that waits for nothing has no live pending wait. *)
Lemma sink_job now s tenant n j wid w :
  store_inv none s → nf (edge now s tenant) n → dt_GoalID n = "" →
  m_Jobs s !! mkJobKey tenant (dt_JobID n) = Some j → j_Terminal j = false →
  mem_Wait s (mkWaitKey (mkJobKey tenant (dt_JobID n)) wid) = Ok w → live_wait now w = false.
Proof.
  intros Hinv Hnf He Hj Ht Hw. apply not_true_iff_false. intros Hl. apply Hnf.
  pose proof Hl as Hl'. apply andb_true_iff in Hl' as [Hs _]. apply bool_decide_eq_true in Hs.
  pose proof (si_wf _ _ Hinv _ _ Hw) as Hwf. unfold wf_wait in Hwf. rewrite Hs in Hwf.
  destruct Hwf as [_ Hn]. unfold resolved in Hn. apply (not_Forall_Exists _) in Hn.
  apply Exists_exists in Hn as (d & Hd & Hp). simpl in Hp. exists (dr_Target d).
  apply lookup_job_ok in Hj. eapply edge_job; try done.
  by destruct (decide (dr_State d = DependencyPending)).
Qed.

(** An open goal that waits for nothing has no running candidate. *)
Lemma sink_goal now s tenant n g id j t :
  nf (edge now s tenant) n → dt_GoalID n ≠ "" → mem_Goal s (mkGoalKey tenant (dt_GoalID n)) = Ok g →
  gi_State g = GoalOpen → mem_Candidate s (mkGoalKey tenant (dt_GoalID n)) id = Ok (t, true) →
  m_Jobs s !! mkJobKey tenant id = Some j → j_Terminal j = true.
Proof.
  intros Hnf Hne Hg Ho Hc Hj. apply not_false_iff_true. intros Ht. apply Hnf. exists (mkTarget id "").
  apply lookup_job_ok in Hj. by eapply edge_goal.
Qed.
End progress.
