(* ===== verification/GoalStable.v ===== *)
(** * GoalStable: the invariant of a goal store between operations

    [goals_inv] puts together what [GoalLive], [GoalGraph] and [GoalTotal] show of
    the in-memory store: no lost wake-ups, no dependency cycles, no dangling
    references.  The engine's operations keep it, and so do inserting a job with
    its goal and marking a job finished before [Complete] runs. *)

From S2P Require Import Prelude Types GoalStore GoalEngine GoalCycles GoalWaits GoalInvariant GoalLive GoalGraph GoalTotal.
From S2P Require Import GoalProgress.

Section stable.
Context `{RangeOrder}.

Record goals_inv (now : time) (s : Memory) : Prop := {
  gv_live : store_inv none s;
  gv_refs : refs_ok s;
  gv_acyclic : ∀ tenant, acyclic now s tenant;
  gv_named : named s;
  gv_owner : ∀ k w, m_WaitRows s !! k = Some w → is_Some (m_Jobs s !! wk_JobKey k)
}.

Lemma goals_ok_memory now s : goals_inv now s → memory_ok s.
Proof. intros Hi. exact (si_ok _ _ (gv_live _ _ Hi)). Qed.

Lemma goals_inv_later now now' s : (now ≤ now')%Z → goals_inv now s → goals_inv now' s.
Proof. intros Hle []. split; try done. intros tenant. by eapply acyclic_later. Qed.

(** ** References *)
Lemma settle_refs now tenant t s s' r :
  refs_ok s → memory_ok s → SettleTarget now tenant t s = (s', r) → refs_ok s'.
Proof.
  intros Hr Hok Hs. destruct (settle_total now tenant t s Hr Hok) as (s1 & Hs1 & Hr1 & _).
  rewrite Hs in Hs1. by simplify_eq.
Qed.

Lemma resolve_refs now g id s s' r :
  refs_ok s → memory_ok s → resolve now g id s = (s', r) → refs_ok s'.
Proof.
  intros Hr Hok Hs. destruct (resolve_total now g id s Hr Hok) as (s1 & g1 & Hs1 & Hr1 & _).
  rewrite Hs in Hs1. by simplify_eq.
Qed.

Lemma close_refs now key s s' r :
  refs_ok s → memory_ok s → CloseConsumer now key s = (s', r) → refs_ok s'.
Proof.
  intros Hr Hok Hs. destruct (close_total now key s Hr Hok) as (s1 & Hs1 & Hr1 & _).
  rewrite Hs in Hs1. by simplify_eq.
Qed.

Lemma fail_refs now req s s' g : refs_ok s → memory_ok s → Fail now req s = (s', Ok g) → refs_ok s'.
Proof.
  intros Hr Hok Hs. apply m_bind_inv in Hs as ([] & s1 & Hrd & Hs). unfold m_read in Hrd. injection Hrd as <- _.
  apply m_bind_inv in Hs as (g0 & s1 & Hrd & Hs). unfold m_read in Hrd. injection Hrd as <- Hg.
  destruct (already_failed _ _); [unfold m_ret in Hs; by simplify_eq|].
  case_bool_decide; [done|].
  apply m_bind_inv in Hs as (js & s1 & Hrd & Hs). unfold m_read in Hrd. injection Hrd as <- _.
  apply m_bind_inv in Hs as ([] & s1 & Hw & Hs). apply m_bind_inv in Hs as ([] & s2 & Hset & Hs).
  unfold m_ret in Hs. simplify_eq. unfold m_write in Hw. injection Hw as <-.
  eapply settle_refs; [| |exact Hset].
  - by apply (save_goal_refs s (failed_goal now g0 req js)).
  - exact (save_goal_ok s (failed_goal now g0 req js) _ Hok eq_refl).
Qed.

Lemma insert_candidate_refs g id t s s' j :
  refs_ok s → mem_InsertCandidate s g id t = Ok s' → is_Some (m_GoalRows s !! g) →
  m_Jobs s !! mkJobKey (gk_TenantId g) id = Some j → refs_ok s'.
Proof.
  intros [R1 R2 R3] [= <-] Hg Hj. split; simpl; [done| |done].
  intros ck Hck. rewrite lookup_insert_is_Some' in Hck. destruct Hck as [<-|Hck]; [|by apply R2].
  simpl. rewrite Hj. eauto.
Qed.

Lemma add_refs now req s s' c : refs_ok s → memory_ok s → Add now req s = (s', Ok c) → refs_ok s'.
Proof.
  intros Hr Hok [->|(g & j & t0 & s1 & Hg & Ho & Hj & _ & Hins & Hcase)]%add_cases; [done|].
  assert (refs_ok s1) as Hr1.
  { apply mem_goal_ok in Hg as (v & Hv & _). apply lookup_job_ok in Hj.
    by eapply insert_candidate_refs; [|exact Hins|eauto|]. }
  destruct Hcase as [[_ [g' Hres]]|[[_ ->]|[_ ->]]]; [|done|done].
  eapply resolve_refs; [done| |exact Hres]. exact (insert_candidate_ok s _ _ _ _ Hok Hins).
Qed.

(** What a store with no lost wake-up waits for exists. *)
Lemma live_waits_known s k w d :
  store_inv none s → m_WaitRows s !! k = Some w → wi_State w = DependencyPending → d ∈ wi_Dependencies w →
  dr_State d = DependencyPending → known s (jk_TenantId (wi_JobKey w)) (dr_Target d).
Proof.
  intros Hinv Hw Hs Hd Hp.
  assert (∃ d', d' ∈ wi_Dependencies (copy_wait w) ∧ dr_State d' = DependencyPending ∧ dr_Target d' = dr_Target d)
    as (d' & Hd' & Hp' & <-).
  { exists (copy_resolution d). split; [|done]. simpl. by apply list_elem_of_fmap_2. }
  assert (st_Wait s k = Ok (copy_wait w)) as Hw' by (apply mem_wait_ok; eauto).
  destruct (si_live _ _ Hinv _ _ _ Hw' Hs Hd' Hp') as [Hv|[]].
  by eapply undecided_known, pending_undecided.
Qed.

Lemma register_rows now key req sub s :
  m_Jobs (Register now key req sub s).1 = m_Jobs s ∧ m_GoalRows (Register now key req sub s).1 = m_GoalRows s ∧
  m_Extras (Register now key req sub s).1 = m_Extras s.
Proof.
  unfold Register, register_again, register_new. unfold_m. simpl.
  destruct (rbind _ _); [|done]. destruct (LookupJob s key); [|done].
  destruct (mem_Wait s _) as [old|[]]; try done; simpl.
  - destruct (sameDescriptor old req); [|done]. by destruct (Evaluate now s old).
  - destruct (map_result _ _); [|done]. destruct (Evaluate now s _); [|done]. by destruct (CheckCycle _ _ _ _).
Qed.

Lemma register_refs now key req sub s s' w :
  refs_ok s → store_inv none s' → Register now key req sub s = (s', Ok w) → refs_ok s'.
Proof.
  intros [R1 R2 _] Hinv Hs. destruct (register_rows now key req sub s) as (HJ & HG & HE).
  rewrite Hs in HJ, HG, HE. simpl in *. split; rewrite ?HJ, ?HG, ?HE; [done|done|].
  intros k w' d Hw Hst Hd Hp. rewrite <- HJ, <- HG. by eapply (live_waits_known s' k w' d).
Qed.

(** ** The operations keep the invariant *)
Lemma evolve_jobs W C s s' : evolve W C s s' → m_Jobs s' = m_Jobs s.
Proof.
  intros He. apply map_eq. intros k. pose proof (ev_job _ _ _ _ He k) as Hk. simpl in Hk.
  unfold LookupJob in Hk. destruct (m_Jobs s' !! k), (m_Jobs s !! k); simpl in Hk; by simplify_eq.
Qed.

Lemma evolve_goal_dom W C s s' k : evolve W C s s' → is_Some (m_GoalRows s' !! k) ↔ is_Some (m_GoalRows s !! k).
Proof.
  intros He. split; intros [g Hg].
  - destruct (ev_goal_back _ _ _ _ He k (copy_goal g)) as (g0 & Hg0 & _); [apply mem_goal_ok; eauto|].
    apply mem_goal_ok in Hg0 as (v & -> & _). eauto.
  - destruct (ev_goal _ _ _ _ He k (copy_goal g)) as (g0 & Hg0 & _); [apply mem_goal_ok; eauto|].
    apply mem_goal_ok in Hg0 as (v & -> & _). eauto.
Qed.

Lemma evolve_wait_dom W C s s' k : evolve W C s s' → is_Some (m_WaitRows s !! k) → is_Some (m_WaitRows s' !! k).
Proof.
  intros He [w Hw]. destruct (ev_wait _ _ _ _ He k (copy_wait w)) as (w' & Hw' & _); [apply mem_wait_ok; eauto|].
  apply mem_wait_ok in Hw' as (v & -> & _). eauto.
Qed.

Lemma evolved_inv W C now s s' :
  named s → (∀ k w, m_WaitRows s !! k = Some w → is_Some (m_Jobs s !! wk_JobKey k)) →
  evolve W C s s' → (∀ k, W k → is_Some (m_Jobs s !! wk_JobKey k)) →
  store_inv none s' → refs_ok s' → (∀ tenant, acyclic now s' tenant) → goals_inv now s'.
Proof.
  intros [Nj Ng] Hown He HW Hinv Hr Hac. split; try done.
  - split; intros k; [rewrite (ev_job _ _ _ _ He); apply Nj|].
    intros g (g0 & Hg0 & _)%(ev_goal_back _ _ _ _ He). by eapply Ng.
  - intros k w Hw. rewrite (evolve_jobs _ _ _ _ He).
    destruct (ev_wait_back _ _ _ _ He k (copy_wait w)) as [?|(w0 & Hw0 & _)]; [apply mem_wait_ok; eauto|auto|].
    apply mem_wait_ok in Hw0 as (v & Hv & _). by eapply Hown.
Qed.

(** Computations that keep the invariant when they succeed, and what evolves. *)
Definition stable (W : DependencyWaitKey → Prop) {A} (now : time) (m : M Memory A) : Prop :=
  ∀ s s' a, goals_inv now s → m s = (s', Ok a) → goals_inv now s' ∧ evolve W (λ _ _, True) s s'.

Lemma stable_ret W {A} now (a : A) : stable W now (m_ret a).
Proof. intros s s' b Hi [= <- _]. split; [done|reflexivity]. Qed.
Lemma stable_read W {A} now (f : Memory → result A) : stable W now (m_read f).
Proof. intros s s' b Hi [= <- _]. split; [done|reflexivity]. Qed.
Lemma stable_bind W {A B} now (m : M Memory A) (f : A → M Memory B) :
  stable W now m → (∀ a, stable W now (f a)) → stable W now (m_bind m f).
Proof.
  intros Hm Hf s s' b Hi (a & s1 & Ha & Hb)%m_bind_inv.
  destruct (Hm _ _ _ Hi Ha) as [Hi1 He1]. destruct (Hf a _ _ _ Hi1 Hb) as [Hi2 He2].
  split; [done|]. by etrans.
Qed.

Lemma stable_weaken (W W' : DependencyWaitKey → Prop) {A} now (m : M Memory A) :
  (∀ k, W k → W' k) → stable W now m → stable W' now m.
Proof.
  intros HW Hm s s' a Hi Hs. destruct (Hm s s' a Hi Hs) as [Hi' [E1 E2 E3 E4 E5 E6 E7]]. split; [done|].
  split; try done. intros k w' [?|?]%E6; auto.
Qed.

Definition wait_named (key : JobKey) (wid : string) (k : DependencyWaitKey) : Prop := k = mkWaitKey key wid.

Lemma register_job now key req sub s s' w :
  Register now key req sub s = (s', Ok w) → is_Some (m_Jobs s !! key).
Proof.
  intros ([] & s1 & Hr & Hs)%m_bind_inv. unfold m_read in Hr. injection Hr as <- _.
  apply m_bind_inv in Hs as (j & s1 & Hr & _). unfold m_read in Hr. injection Hr as <- Hj.
  apply lookup_job_ok in Hj. eauto.
Qed.

Lemma register_stable now key req sub : stable (wait_named key (dw_WaitID req)) now (Register now key req sub).
Proof.
  intros s s' w [Hl Hr Hac Hn Ho] Hs. pose proof (si_ok _ _ Hl) as Hok.
  destruct (Register_mono now (wait_named key (dw_WaitID req)) (λ _ _, True) key req sub eq_refl s Hok) as [_ He].
  rewrite Hs in He. simpl in He. split; [|done].
  pose proof (register_inv _ _ _ _ _ _ _ Hl Hn Hs) as Hl'.
  eapply evolved_inv; [done..| | |by eapply register_refs|].
  - intros k ->. simpl. by eapply register_job.
  - done.
  - intros tenant. by eapply register_acyclic.
Qed.

(** The wait a registration stores. *)
Lemma register_stores now key req sub s s' w :
  memory_ok s → Register now key req sub s = (s', Ok w) → is_Some (m_WaitRows s' !! mkWaitKey key (dw_WaitID req)).
Proof.
  intros Hok ([] & s1 & Hr & Hs)%m_bind_inv. unfold m_read in Hr. injection Hr as <- _.
  apply m_bind_inv in Hs as (j & s1 & Hr & Hs). unfold m_read in Hr. injection Hr as <- _.
  destruct (st_Wait s _) as [old|e] eqn:Hold.
  - assert (evolve (λ _, True) (λ _ _, True) s s') as He.
    { pose proof (register_again_mono now (λ _, True) (λ _ _, True) s _ old req Hok Hold) as [_ He].
      by rewrite Hs in He. }
    eapply evolve_wait_dom; [exact He|]. apply mem_wait_ok in Hold as (v & -> & _). eauto.
  - pose proof (wait_missing _ _ _ Hold) as ->. unfold register_new in Hs.
    apply m_bind_inv in Hs as (deps & s1 & Hr & Hs). unfold m_read in Hr. injection Hr as <- _.
    apply m_bind_inv in Hs as (w1 & s1 & Hr & Hs). unfold m_read in Hr. injection Hr as <- He.
    apply m_bind_inv in Hs as ([] & s1 & Hw & Hs).
    apply m_bind_inv in Hs as ([] & s2 & Hr & Hs). unfold m_read in Hr. injection Hr as <- _.
    unfold m_ret in Hs. simplify_eq. unfold m_write in Hw. injection Hw as <-. simpl.
    pose proof (we_key _ _ (evaluate_evolves _ _ _ _ He)) as ->. unfold wait_key. simpl.
    rewrite lookup_insert_eq. eauto.
Qed.

Lemma add_stable now req : stable no_wait now (Add now req).
Proof.
  intros s s' c [Hl Hr Hac Hn Ho] Hs. pose proof (si_ok _ _ Hl) as Hok.
  destruct (Add_mono now no_wait (λ _ _, True) req I s Hok) as [_ He]. rewrite Hs in He. simpl in He.
  split; [|done]. eapply evolved_inv; [done..| | |by eapply add_refs|].
  - by intros k [].
  - by eapply add_inv.
  - intros tenant. by eapply add_acyclic.
Qed.

Lemma fail_stable now req : stable no_wait now (Fail now req).
Proof.
  intros s s' c [Hl Hr Hac Hn Ho] Hs. pose proof (si_ok _ _ Hl) as Hok.
  pose proof (Fail_mono now no_wait no_candidate req s Hok) as [_ He]. rewrite Hs in He.
  pose proof (Fail_mono now no_wait (λ _ _, True) req s Hok) as [_ He']. rewrite Hs in He'. simpl in *.
  split; [|done]. eapply evolved_inv; [done..|exact He| | |by eapply fail_refs|].
  - by intros k [].
  - by eapply fail_inv.
  - intros tenant. by eapply evolve_acyclic.
Qed.

Lemma close_stable now key : stable no_wait now (CloseConsumer now key).
Proof.
  intros s s' [] [Hl Hr Hac Hn Ho] Hs. pose proof (si_ok _ _ Hl) as Hok.
  pose proof (close_mono now no_wait no_candidate key s Hok) as [_ He]. rewrite Hs in He.
  pose proof (close_mono now no_wait (λ _ _, True) key s Hok) as [_ He']. rewrite Hs in He'. simpl in *.
  split; [|done]. eapply evolved_inv; [done..|exact He| | |by eapply close_refs|].
  - by intros k [].
  - by eapply close_inv.
  - intros tenant. by eapply evolve_acyclic.
Qed.

(** ** Finishing a job

    The scheduler marks the job finished and then runs [Complete]. *)
Definition set_job (key : JobKey) (j : Job) (s : Memory) : Memory := s <| m_Jobs := <[key := j]> (m_Jobs s) |>.

Record finishes (j j' : Job) : Prop := {
  fi_key : j_Key j' = j_Key j;
  fi_goal : j_GoalID j' = j_GoalID j;
  fi_created : j_CreatedAt j' = j_CreatedAt j;
  fi_terminal : j_Terminal j' = true;
  fi_once : j_Terminal j = true → j' = j
}.

Section finish.
Variables (now : time) (s : Memory) (key : JobKey) (j j' : Job).
Hypotheses (Hinv : goals_inv now s) (Hj : m_Jobs s !! key = Some j) (Hfin : finishes j j').
#[local] Abbreviation s1 := (set_job key j' s).

Lemma finish_lookup k : m_Jobs s1 !! k = if decide (k = key) then Some j' else m_Jobs s !! k.
Proof. simpl. rewrite lookup_insert. by case_decide; case_decide; subst. Qed.

Lemma finish_candidate g id : mem_Candidate s1 g id = mem_Candidate s g id.
Proof.
  unfold mem_Candidate, LookupJob. rewrite finish_lookup. simpl. case_decide as Hk; [|done]. rewrite Hk, Hj. simpl.
  by rewrite (fi_goal _ _ Hfin), (fi_created _ _ Hfin).
Qed.

Lemma finish_memory_ok : memory_ok s1.
Proof.
  destruct (goals_ok_memory _ _ Hinv) as [Hg Hw Hk]. split; [done|done|]. intros k j0. rewrite finish_lookup.
  case_decide; subst; [|apply Hk]. intros [= <-]. rewrite (fi_key _ _ Hfin). by apply Hk.
Qed.

Lemma finish_live : store_inv (only (jk_TenantId key) (mkTarget (jk_JobId key) "")) s1.
Proof.
  destruct (gv_live _ _ Hinv) as [_ Hwf Hcl Hlive]. split; [apply finish_memory_ok|exact Hwf|exact Hcl|].
  intros k w d Hw Hs Hd Hp. destruct (Hlive k w d Hw Hs Hd Hp) as [Hv|[]].
  inversion Hv as [g Hne Hg Ho| | |j0 He Hj0 Ht| |]; subst.
  { left. by eapply verdict_goal_open. }
  destruct (decide (mkJobKey (jk_TenantId (wi_JobKey w)) (dt_JobID (dr_Target d)) = key)) as [Hk|Hk].
  - right. rewrite <- Hk. split; [done|]. destruct (dr_Target d); simpl in *. by subst.
  - left. eapply verdict_job_running; [done| |done]. apply lookup_job_ok. apply lookup_job_ok in Hj0.
    by rewrite finish_lookup, decide_False.
Qed.

Lemma finish_refs : refs_ok s1.
Proof.
  destruct (gv_refs _ _ Hinv) as [R1 R2 R3].
  assert (∀ k, is_Some (m_Jobs s !! k) → is_Some (m_Jobs s1 !! k)) as Hm.
  { intros k Hk. rewrite finish_lookup. case_decide; [eauto|done]. }
  split.
  - intros k j0. rewrite finish_lookup. case_decide; subst; [|by apply R1]. intros [= <-].
    rewrite (fi_goal _ _ Hfin). by apply R1.
  - intros ck Hck. destruct (R2 ck Hck). auto.
  - intros k w d Hw Hs Hd Hp. pose proof (R3 k w d Hw Hs Hd Hp) as Hr. destruct (str_empty _); auto.
Qed.

Lemma finish_edge tenant n m : edge now s1 tenant n m → edge now s tenant n m.
Proof.
  assert (∀ k j0, st_Job s1 k = Ok j0 → j_Terminal j0 = false → st_Job s k = Ok j0) as Hrun.
  { intros k j0 Hj0 Ht. apply lookup_job_ok in Hj0. apply lookup_job_ok. rewrite finish_lookup in Hj0.
    case_decide; [|done]. injection Hj0 as <-. rewrite (fi_terminal _ _ Hfin) in Ht. done. }
  intros [n' g id j0 t Hne Hg Ho Hj0 Ht Hc|n' j0 wid w d He Hj0 Ht Hw Hl Hd Hp].
  - eapply edge_goal; [done|done|done|by apply Hrun|done|]. by rewrite <- finish_candidate.
  - exact (edge_job now s tenant n' j0 wid w d He (Hrun _ _ Hj0 Ht) Ht Hw Hl Hd Hp).
Qed.

Lemma complete_finishes :
  ∃ s', Complete now key s1 = (s', Ok tt) ∧ goals_inv now s' ∧ evolve no_wait no_candidate s1 s'.
Proof.
  destruct (complete_total now key s1 finish_refs finish_memory_ok) as (s' & Hs & Hr & _).
  { rewrite finish_lookup, decide_True by done. eauto. }
  exists s'. split; [done|]. assert (st_ok s1) as Hok by exact finish_memory_ok.
  destruct (Complete_mono now no_wait no_candidate key s1 Hok) as [_ He]. rewrite Hs in He. simpl in He.
  split; [|done]. destruct (gv_named _ _ Hinv) as [Nj Ng].
  eapply evolved_inv; [| |exact He|intros k Hk; destruct Hk| |exact Hr|].
  - split; [|exact Ng]. intros k j0 Hj0. apply lookup_job_ok in Hj0. rewrite finish_lookup in Hj0.
    case_decide; subst; eapply Nj; apply lookup_job_ok; eauto.
  - intros k w Hw. rewrite finish_lookup. case_decide; [eauto|]. by eapply gv_owner.
  - eapply complete_inv; [exact finish_live|exact Hs].
  - intros tenant. eapply evolve_acyclic; [exact Hok|exact He|].
    eapply acyclic_mono; [exact (gv_acyclic _ _ Hinv tenant)|]. apply finish_edge.
Qed.
End finish.

(** ** Inserting a job

    A new job appears with an open goal, new or shared. *)
Section insert.
Variables (now : time) (s : Memory) (key : JobKey) (j : Job) (rows : gmap GoalKey GoalInfo).
#[local] Abbreviation gk := (mkGoalKey (jk_TenantId key) (j_GoalID j)).
#[local] Abbreviation s1 := (mkMemory rows (m_Extras s) (m_WaitRows s) (<[key := j]> (m_Jobs s))).

Record inserts : Prop := {
  in_new : m_Jobs s !! key = None;
  in_key : j_Key j = key;
  in_named : blank (jk_JobId key) = false;
  in_goal : is_Some (rows !! gk);
  in_rows : rows = m_GoalRows s ∨
    m_GoalRows s !! gk = None ∧ blank (j_GoalID j) = false ∧
    ∃ g, gi_GoalKey g = gk ∧ rows = <[gk := copy_goal g]> (m_GoalRows s)
}.
Hypotheses (Hinv : goals_inv now s) (Hin : inserts).

Lemma insert_goals k g : m_GoalRows s !! k = Some g → rows !! k = Some g.
Proof.
  intros Hk. destruct (in_rows Hin) as [->|(Hn & _ & g0 & _ & ->)]; [done|].
  rewrite lookup_insert_ne; [done|]. by intros <-; rewrite Hn in Hk.
Qed.
Lemma insert_jobs k j0 : m_Jobs s !! k = Some j0 → m_Jobs s1 !! k = Some j0.
Proof. intros Hk. simpl. rewrite lookup_insert_ne; [done|]. by intros <-; rewrite (in_new Hin) in Hk. Qed.

Lemma insert_memory_ok : memory_ok s1.
Proof.
  destruct (goals_ok_memory _ _ Hinv) as [Hg Hw Hk]. split; simpl; [|done|].
  - intros k g Hkg. destruct (in_rows Hin) as [->|(_ & _ & g0 & Hg0 & ->)]; [by apply Hg|].
    apply lookup_insert_Some in Hkg as [[<- <-]|[_ Hkg]]; [done|by apply Hg].
  - intros k j0 [[<- <-]|[_ Hk0]]%lookup_insert_Some; [apply (in_key Hin)|by apply Hk].
Qed.

Lemma insert_live : store_inv none s1.
Proof.
  destruct (gv_live _ _ Hinv) as [_ Hwf Hcl Hlive]. split; [apply insert_memory_ok|exact Hwf|exact Hcl|].
  intros k w d Hw Hs Hd Hp. destruct (Hlive k w d Hw Hs Hd Hp) as [Hv|[]]. left.
  inversion Hv as [g Hne Hg Ho| | |j0 He Hj0 Ht| |]; subst.
  - eapply verdict_goal_open; [done| |done]. apply mem_goal_ok in Hg as (v & Hv' & ->). apply mem_goal_ok.
    exists v. split; [|done]. by apply insert_goals.
  - eapply verdict_job_running; [done| |done]. apply lookup_job_ok in Hj0. apply lookup_job_ok. by apply insert_jobs.
Qed.

Lemma insert_refs : refs_ok s1.
Proof.
  destruct (gv_refs _ _ Hinv) as [R1 R2 R3].
  assert (∀ k, is_Some (m_GoalRows s !! k) → is_Some (rows !! k)) as HG by (intros k [g Hg]; eauto using insert_goals).
  assert (∀ k, is_Some (m_Jobs s !! k) → is_Some (m_Jobs s1 !! k)) as HJ by (intros k [g Hg]; eauto using insert_jobs).
  split.
  - intros k j0 Hk. simpl in Hk. apply lookup_insert_Some in Hk as [[<- <-]|[_ Hk]]; [apply (in_goal Hin)|].
    by apply HG, R1.
  - intros ck Hck. destruct (R2 ck Hck). auto.
  - intros k w d Hw Hs Hd Hp. pose proof (R3 k w d Hw Hs Hd Hp) as Hr. destruct (str_empty _); auto.
Qed.

(** No wait belongs to the new job yet. *)
Lemma insert_sink tenant n m : mkJobKey tenant (dt_JobID n) = key → dt_GoalID n = "" → ¬ edge now s1 tenant n m.
Proof.
  intros Hk He Hnm. inversion Hnm as [n' g id j0 t Hne _ _ _ _ _|n' j0 wid w d _ _ _ Hw _ _ _]; [done|]. subst n'.
  apply mem_wait_ok in Hw as (v & Hv & _). simpl in Hv. rewrite Hk in Hv.
  destruct (gv_owner _ _ Hinv _ _ Hv) as [j1 Hj1]. simpl in Hj1. by rewrite (in_new Hin) in Hj1.
Qed.

Lemma insert_edge tenant n m : edge now s1 tenant n m → edge now s tenant n m ∨ ∀ c, ¬ edge now s1 tenant m c.
Proof.
  intros Hnm. pose proof Hnm as Hnm'. destruct Hnm' as [n g id j0 t Hne Hg Ho Hj0 Ht Hc|n j0 wid w d He Hj0 Ht Hw Hl Hd Hp].
  - destruct (decide (mkJobKey tenant id = key)) as [Hk|Hk]; [right; intros c; by apply insert_sink|left].
    apply lookup_job_ok in Hj0. simpl in Hj0. rewrite lookup_insert_ne in Hj0 by done.
    apply mem_candidate_true in Hc as (j1 & Hj1 & Hc). simpl in Hj1, Hc.
    rewrite lookup_insert_ne, Hj0 in Hj1 by done. injection Hj1 as <-.
    assert (is_Some (m_GoalRows s !! mkGoalKey tenant (dt_GoalID n))) as [v Hv].
    { destruct Hc as [[Hgid _]|[_ Hx]]; [|by destruct (ro_extra _ (gv_refs _ _ Hinv) _ (mk_is_Some _ _ Hx))].
      rewrite <- Hgid. exact (ro_primary _ (gv_refs _ _ Hinv) _ _ Hj0). }
    eapply (edge_goal _ _ _ _ (copy_goal v)); [done|apply mem_goal_ok; eauto| |by apply lookup_job_ok|done|].
    + apply mem_goal_ok in Hg as (v' & Hv' & ->). simpl in Hv'. rewrite (insert_goals _ _ Hv) in Hv'. by injection Hv' as ->.
    + apply mem_candidate_true. eauto.
  - destruct (decide (mkJobKey tenant (dt_JobID n) = key)) as [Hk|Hk]; [by destruct (insert_sink tenant n (dr_Target d))|].
    left. apply lookup_job_ok in Hj0. simpl in Hj0. rewrite lookup_insert_ne in Hj0 by done.
    apply lookup_job_ok in Hj0. exact (edge_job now s tenant n j0 wid w d He Hj0 Ht Hw Hl Hd Hp).
Qed.

Lemma insert_inv : goals_inv now s1.
Proof.
  destruct (gv_named _ _ Hinv) as [Nj Ng]. split; [apply insert_live|apply insert_refs| | |].
  - intros tenant x Hx. apply (gv_acyclic _ _ Hinv tenant x).
    eapply tc_skip_sinks; [apply insert_edge|exact Hx|by eapply tc_first].
  - split; intros k x Hx.
    + apply lookup_job_ok in Hx. simpl in Hx. apply lookup_insert_Some in Hx as [[<- _]|[_ Hx]]; [apply (in_named Hin)|].
      eapply Nj. by apply lookup_job_ok.
    + apply mem_goal_ok in Hx as (v & Hv & _). simpl in Hv.
      destruct (in_rows Hin) as [Hr|(_ & Hb & g & _ & Hr)]; rewrite Hr in Hv;
        [|apply lookup_insert_Some in Hv as [[<- _]|[_ Hv]]; [done|]]; eapply Ng; apply mem_goal_ok; eauto.
  - intros k w Hw. destruct (gv_owner _ _ Hinv _ _ Hw) as [j0 Hj0]. rewrite (insert_jobs _ _ Hj0). eauto.
Qed.
End insert.
End stable.
