(* ===== verification/GoalTheorems.v ===== *)
(** * GoalTheorems: what the goal engine guarantees

    The properties of [internal/goalstate] as a whole, over any store that obeys
    the laws, with the in-memory store as the instance the witnesses run on. *)

From S2P Require Import Prelude Types GoalStore GoalEngine GoalCycles GoalWaits GoalInvariant.
From S2P Require Import GoalLive GoalGraph GoalTotal.

(** The mutating operations of the engine. *)
Inductive engine_op :=
  | OpRegister (key : JobKey) (req : DependencyWait) (submission : bool)
  | OpAdd (req : AddGoalCandidateRequest)
  | OpFail (req : FailGoalRequest)
  | OpComplete (key : JobKey).

Section run.
Context {St : Type} `{GoalStore St}.

Definition run_op (now : time) (op : engine_op) : M St () :=
  match op with
  | OpRegister key req sub => do! Register now key req sub in m_ret tt
  | OpAdd req => do! Add now req in m_ret tt
  | OpFail req => do! Fail now req in m_ret tt
  | OpComplete key => Complete now key
  end.

(** What an operation may create. *)
Definition may_create_wait (op : engine_op) (k : DependencyWaitKey) : Prop :=
  match op with OpRegister key req _ => k = mkWaitKey key (dw_WaitID req) | _ => False end.
Definition may_create_candidate (op : engine_op) (k : GoalKey) (id : string) : Prop :=
  match op with OpAdd req => k = ac_GoalKey req ∧ id = ac_JobID req | _ => False end.

(** The target whose waits the caller leaves for the operation to settle: a job
    is marked finished before [Complete] runs. *)
Definition owed (op : engine_op) : string → DependencyTarget → Prop :=
  match op with
  | OpComplete key => only (jk_TenantId key) (mkTarget (jk_JobId key) "")
  | _ => none
  end.

Lemma run_ret {A} (m : M St A) s s' : (do! m in m_ret tt) s = (s', Ok tt) → ∃ a, m s = (s', Ok a).
Proof. intros (a & s1 & Ha & Hr)%m_bind_inv. unfold m_ret in Hr. simplify_eq. eauto. Qed.
End run.

Section theorems.
Context {St : Type} `{GoalStoreLaws St}.

(** Candidates of a job stay resolved once the loop of [Complete] has passed. *)
Lemma resolve_iter_closes now id ks s s' :
  st_ok s → m_iter (resolve_key now id) ks s = (s', Ok tt) →
  st_ok s' ∧ evolve no_wait no_candidate s s' ∧
  ∀ k, k ∈ ks → ∃ g, st_Goal s' k = Ok g ∧ gi_State g ≠ GoalOpen.
Proof.
  revert s. induction ks as [|k ks IH]; intros s Hok Hs; simpl in Hs.
  { unfold m_ret in Hs. simplify_eq. split; [done|]. split; [done|]. set_solver. }
  apply m_bind_inv in Hs as ([] & s1 & Hk & Hs).
  destruct (resolve_key_mono now no_wait no_candidate id k s Hok) as [Hok1 Hev1].
  rewrite Hk in Hok1, Hev1. simpl in *.
  destruct (IH s1 Hok1 Hs) as (Hok' & Hev' & Hall). split; [done|]. split; [by etrans|].
  intros k' [->|Hin]%elem_of_cons; [|by apply Hall].
  apply m_bind_inv in Hk as (g & s2 & Hr & Hk). unfold m_read in Hr. injection Hr as <- Hg.
  apply m_bind_inv in Hk as (g' & s2 & Hres & Hk). unfold m_ret in Hk. simplify_eq.
  pose proof (goal_key _ _ _ Hok Hg) as Hgk. rewrite <- Hgk in Hg.
  destruct (resolve_closes now g id s s1 g' Hok Hg Hres) as (g1 & Hg1 & Hn1). rewrite Hgk in Hg1.
  destruct (ev_goal _ _ _ _ Hev' _ _ Hg1) as (g2 & Hg2 & [->|(? & _)]); [eauto|done].
Qed.

Lemma same_descriptor_spec w r :
  sameDescriptor w r = true →
  wi_Deadline w = dw_Deadline r ∧
  (λ d, (dr_Target d, dr_Condition d)) <$> wi_Dependencies w =
  (λ d, (dep_Target d, dep_Condition d)) <$> dw_Dependencies r.
Proof.
  unfold sameDescriptor. intros [[Hd Hl]%andb_true_iff Hz]%andb_true_iff.
  apply bool_decide_eq_true in Hd. split; [done|]. apply Nat.eqb_eq in Hl.
  revert Hl Hz. generalize (dw_Dependencies r). induction (wi_Dependencies w) as [|d ds IH];
    intros [|e es] Hl Hz; simpl in *; try done.
  apply andb_true_iff in Hz as [He Hz]. apply andb_true_iff in He as [H1 H2].
  apply bool_decide_eq_true in H1. apply String.eqb_eq in H2.
  f_equal; [by rewrite H1, H2|]. apply IH; [lia|done].
Qed.

Lemma evolves_descriptor w w' :
  wait_evolves w w' →
  (λ d, (dr_Target d, dr_Condition d)) <$> wi_Dependencies w' =
  (λ d, (dr_Target d, dr_Condition d)) <$> wi_Dependencies w.
Proof.
  intros [_ _ HF _]. induction HF as [|d d' l l' [[H1 H2] _] HF IH]; simpl; [done|].
  rewrite H1, H2. f_equal. exact IH.
Qed.

(** C1. The cycle search always answers, and answers exactly: success means no
    cycle of unresolved dependencies is reachable from the start, the cycle
    error means one is, and the recursion never outruns its bound. *)
Theorem check_cycle_correct now (s : St) tenant start :
  st_ok s →
  (CheckCycle now tenant start s = Ok tt → ¬ cycle_from now s tenant start) ∧
  (CheckCycle now tenant start s = Err ErrDependencyCycle → cycle_from now s tenant start) ∧
  CheckCycle now tenant start s ≠ Err ErrOutOfFuel.
Proof.
  intros Hok. pose proof (check_cycle_spec now s tenant start Hok) as Hs.
  destruct (CheckCycle now tenant start s) as [[]|e].
  - split; [|done]. intros _. by apply settled_no_cycle.
  - split; [done|]. destruct Hs as [[-> Hc]|(Hne & Hf & _)]; [done|]. split; congruence.
Qed.

(** C2. No lost wake-up, in stores whose job and goal IDs are not blank ([named]):
    if every wait was pending only on undecided targets (the just-finished job
    excepted for [Complete]), then after any successful operation every wait still
    pending is pending only on undecided targets, and all waits are well formed.
    IDs made of spaces pass [JobKey.Validate] and can lose a wake-up: see
    [ToyGoalTheorems.blank_id_loses_wakeup]. *)
Theorem no_lost_wakeup now op (s s' : St) :
  store_inv (owed op) s → named s → run_op now op s = (s', Ok tt) → store_inv none s'.
Proof.
  intros Hinv Hn Hs. destruct op as [key req sub|req|req|key]; simpl in *.
  - apply run_ret in Hs as [w Hs]. by eapply register_inv.
  - apply run_ret in Hs as [c Hs]. by eapply add_inv.
  - apply run_ret in Hs as [g Hs]. by eapply fail_inv.
  - by eapply complete_inv.
Qed.

(** C3. Every operation, successful or not, moves the store only forward: jobs
    are untouched, goals close at most once and are then immutable, resolved
    waits are final, descriptors never change, and nothing but the wait or
    candidate the operation names is created. *)
Theorem engine_monotone now op (s : St) :
  st_ok s →
  st_ok (run_op now op s).1 ∧
  evolve (may_create_wait op) (may_create_candidate op) s (run_op now op s).1.
Proof.
  assert (∀ A (m : M St A) W C, mono W C m → mono W C (do! m in m_ret tt)) as Hret
    by (intros; apply mono_bind; eauto with jobdb).
  destruct op as [key req sub|req|req|key]; apply Hret || idtac; simpl;
    [by apply Register_mono|by apply Add_mono|by apply Fail_mono|by apply Complete_mono].
Qed.

(** C4. The dependency graph stays acyclic in every tenant: the checks made by
    [Register] and [Add] suffice, [Fail] and [Complete] need none, and time only
    removes edges. *)
Theorem graph_stays_acyclic now0 now op (s s' : St) tenant :
  store_inv (owed op) s → named s → (now0 ≤ now)%Z → acyclic now0 s tenant →
  run_op now op s = (s', Ok tt) → acyclic now s' tenant.
Proof.
  intros Hinv Hn Hle Ha Hs. apply (acyclic_later _ now) in Ha; [|done].
  pose proof (si_ok _ _ Hinv) as Hok. destruct op as [key req sub|req|req|key]; simpl in *.
  - apply run_ret in Hs as [w Hs]. by eapply register_acyclic.
  - apply run_ret in Hs as [c Hs]. by eapply add_acyclic.
  - apply run_ret in Hs as [g Hs].
    destruct (Fail_mono now no_wait no_candidate req s Hok) as [_ He].
    rewrite Hs in He. by eapply evolve_acyclic.
  - destruct (Complete_mono now no_wait no_candidate key s Hok) as [_ He].
    rewrite Hs in He. by eapply evolve_acyclic.
Qed.

(** C9. What completing a job achieves: its own waits are all closed, and if it
    succeeded, every goal it is a candidate for is closed. *)
Theorem complete_effect now key (s s' : St) j :
  store_inv (owed (OpComplete key)) s → st_Job s key = Ok j →
  Complete now key s = (s', Ok tt) →
  (∀ k w, st_Wait s' k = Ok w → wi_JobKey w = key → wi_State w ≠ DependencyPending) ∧
  (j_Success j = true →
   ∀ gk t, gk_TenantId gk = jk_TenantId key → st_Candidate s gk (jk_JobId key) = Ok (t, true) →
     ∃ g, st_Goal s' gk = Ok g ∧ gi_State g ≠ GoalOpen).
Proof.
  intros Hinv Hj Hs. split; [by eapply complete_inv|]. intros Hsucc gk t Ht Hc.
  pose proof (si_ok _ _ Hinv) as Hok.
  apply m_bind_inv in Hs as (j' & s1 & Hr & Hs). unfold m_read in Hr. injection Hr as <- Hj'.
  rewrite Hj in Hj'. injection Hj' as <-. rewrite Hsucc in Hs.
  apply m_bind_inv in Hs as ([] & s2 & Hgoals & Hs).
  apply m_bind_inv in Hgoals as (gs & s1 & Hr & Hgoals). unfold m_read in Hr. injection Hr as <- Hgs.
  destruct (resolve_iter_closes _ _ _ _ _ Hok Hgoals) as (Hok2 & _ & Hall).
  destruct (Hall gk) as (g & Hg & Ho).
  { rewrite (merge_sort_Permutation goal_id_le gs). apply (goals_spec _ _ _ _ Hok Hgs). eauto. }
  apply m_bind_inv in Hs as ([] & s3 & Hclose & Hset).
  destruct (close_mono now no_wait no_candidate key s2 Hok2) as [Hok3 He3].
  rewrite Hclose in Hok3, He3. simpl in *.
  destruct (settle_mono now no_wait no_candidate (jk_TenantId key) (mkTarget (jk_JobId key) "") s3 Hok3)
    as [_ He4]. rewrite Hset in He4. simpl in *.
  destruct (ev_goal _ _ _ _ He3 _ _ Hg) as (g3 & Hg3 & [->|(? & _)]); [|done].
  destruct (ev_goal _ _ _ _ He4 _ _ Hg3) as (g4 & Hg4 & [->|(? & _)]); [eauto|done].
Qed.

Definition dep_satisfied (s : St) (tenant : string) (d : DependencyResolution) : Prop :=
  dr_State d = DependencySatisfied ∨
  dr_State d = DependencyPending ∧ dep_verdict s tenant d DependencySatisfied.
Definition dep_failed (s : St) (tenant : string) (d : DependencyResolution) : Prop :=
  dr_State d = DependencyPending ∧ dep_verdict s tenant d DependencyFailed.

Lemma dep_steps_not_failed s tenant deps deps' :
  Forall2 (dep_step s tenant) deps deps' → ∀ d, d ∈ deps → ¬ dep_failed s tenant d.
Proof.
  induction 1 as [|d d' l l' Hd HF IH]; [set_solver|]. intros d0 [->|Hin]%elem_of_cons; [|by apply IH].
  intros [Hp Hv]. destruct Hd as [_ [[Hn _]|(_ & Hv' & Hnf)]]; [done|].
  apply Hnf. eapply verdict_fun; [exact Hv'|exact Hv].
Qed.

Lemma dep_steps_satisfied s tenant deps deps' :
  Forall (λ d, dr_State d = DependencyPending ∨ dr_State d = DependencySatisfied) deps →
  Forall2 (dep_step s tenant) deps deps' →
  Forall resolved deps' ↔ Forall (dep_satisfied s tenant) deps.
Proof.
  intros Hwf. induction 1 as [|d d' l l' Hd HF IH]; [done|].
  apply Forall_cons in Hwf as [Hd0 Hwf]. rewrite !Forall_cons, (IH Hwf).
  assert (resolved d' ↔ dep_satisfied s tenant d) as ->; [|done].
  unfold resolved, dep_satisfied. destruct Hd as [_ [[Hn ->]|(Hp & Hv & Hnf)]].
  - destruct Hd0; [done|]. split; [by left|by intros _].
  - rewrite Hp. split.
    + intros Hr. right. split; [done|]. inversion Hv; congruence.
    + intros [|[_ Hv']]; [done|]. rewrite (verdict_fun _ _ _ _ _ _ Hv Hv'). done.
Qed.

(** [Evaluate] implements the resolution rule: a pending wait whose deadline
    passed times out; otherwise it fails exactly when some dependency's target
    failed, is satisfied exactly when every dependency is, and stays pending in
    all other cases; a resolved wait is returned as it is. *)
Theorem evaluate_rule now (s : St) w w' :
  wf_wait w → Evaluate now s w = Ok w' →
  let tenant := jk_TenantId (wi_JobKey w) in
  wf_wait w' ∧
  (wi_State w ≠ DependencyPending → w' = w) ∧
  (wi_State w = DependencyPending → deadline_passed now w = true →
     wi_State w' = DependencyTimedOut) ∧
  (wi_State w = DependencyPending → deadline_passed now w = false →
     (wi_State w' = DependencyFailed ↔ Exists (dep_failed s tenant) (wi_Dependencies w)) ∧
     (wi_State w' = DependencySatisfied ↔ Forall (dep_satisfied s tenant) (wi_Dependencies w)) ∧
     wi_State w' ∈ [DependencyFailed; DependencySatisfied; DependencyPending]).
Proof.
  intros Hwf He. split; [by eapply evaluate_wf|]. unfold wf_wait in Hwf. revert Hwf.
  destruct (evaluate_inv _ _ _ _ He) as [Hn|Hp Hdl|pre pre' d0 d post Hp Hdl Hdeps HF Hp0 _ Hd Hv
    |deps Hp Hdl HF HR|deps Hp Hdl HF HR]; intros Hwf; rewrite ?Hp in Hwf; try destruct Hwf as [Hwf _];
    (split; [done|]); (split; [done || congruence|]); intros Hp' Hdl'; try congruence; simpl.
  - split; [|split; [|set_solver]].
    + split; [intros _|done]. rewrite Hdeps. apply Exists_app. right. by left.
    + split; [done|]. rewrite Hdeps, Forall_app, Forall_cons. intros (_ & [Hs|[_ Hs]] & _); [congruence|].
      pose proof (verdict_fun _ _ _ _ _ _ Hv Hs). done.
  - split; [|split; [|set_solver]].
    + split; [done|]. intros (d & Hd & Hf)%Exists_exists. by destruct (dep_steps_not_failed _ _ _ _ HF d Hd).
    + split; [intros _|done]. by apply (dep_steps_satisfied _ _ _ _ Hwf HF).
  - rewrite Hp. split; [|split; [|set_solver]].
    + split; [done|]. intros (d & Hd & Hf)%Exists_exists. by destruct (dep_steps_not_failed _ _ _ _ HF d Hd).
    + split; [done|]. intros Hs. by apply (dep_steps_satisfied _ _ _ _ Hwf HF) in Hs.
Qed.

(** Registering succeeds only with the descriptor the stored wait has. *)
Lemma register_stored now key req sub s s' w old :
  st_ok s → st_Wait s (mkWaitKey key (dw_WaitID req)) = Ok old →
  Register now key req sub s = (s', Ok w) → sameDescriptor old req = true ∧ wait_evolves old w.
Proof.
  intros Hok Hold Hs. apply m_bind_inv in Hs as ([] & s1 & Hr & Hs).
  unfold m_read in Hr. injection Hr as <- _.
  apply m_bind_inv in Hs as (j & s1 & Hr & Hs). unfold m_read in Hr. injection Hr as <- _.
  rewrite Hold in Hs. unfold register_again in Hs. destruct (sameDescriptor old req) eqn:Hd; [|done].
  split; [done|]. apply m_bind_inv in Hs as (w1 & s1 & Hr & Hs).
  unfold m_read in Hr. injection Hr as <- He.
  apply m_bind_inv in Hs as ([] & s2 & _ & Hs). unfold m_ret in Hs. simplify_eq.
  by eapply evaluate_evolves.
Qed.

Lemma register_saves now key req sub s s' w :
  st_ok s → Register now key req sub s = (s', Ok w) →
  st_Wait s' (mkWaitKey key (dw_WaitID req)) = Ok (copy_wait w).
Proof.
  intros Hok Hs. apply m_bind_inv in Hs as ([] & s1 & Hr & Hs).
  unfold m_read in Hr. injection Hr as <- _.
  apply m_bind_inv in Hs as (j & s1 & Hr & Hs). unfold m_read in Hr. injection Hr as <- _.
  destruct (st_Wait s _) as [old|e] eqn:Hold.
  - unfold register_again in Hs. destruct (sameDescriptor old req); [|done].
    apply m_bind_inv in Hs as (w1 & s1 & Hr & Hs). unfold m_read in Hr. injection Hr as <- He.
    apply m_bind_inv in Hs as ([] & s1 & Hw & Hs). unfold m_ret in Hs. simplify_eq.
    unfold m_write in Hw. destruct (st_SaveWait s w) as [s3|] eqn:Hsave; [|done]. simplify_eq.
    erewrite save_wait_wait by done. rewrite decide_True; [done|].
    by rewrite (we_key _ _ (evaluate_evolves _ _ _ _ He)), (wait_keyed _ _ _ Hok Hold).
  - pose proof (wait_missing _ _ _ Hold) as ->. unfold register_new in Hs.
    apply m_bind_inv in Hs as (deps & s1 & Hr & Hs). unfold m_read in Hr. injection Hr as <- Hdeps.
    apply m_bind_inv in Hs as (w1 & s1 & Hr & Hs). unfold m_read in Hr. injection Hr as <- He.
    apply m_bind_inv in Hs as ([] & s1 & Hw & Hs).
    apply m_bind_inv in Hs as ([] & s2 & Hr & Hs). unfold m_read in Hr. injection Hr as <- _.
    unfold m_ret in Hs. simplify_eq.
    unfold m_write in Hw. destruct (st_SaveWait s w) as [s3|] eqn:Hsave; [|done]. simplify_eq.
    erewrite save_wait_wait by done. rewrite decide_True; [done|].
    by rewrite (we_key _ _ (evaluate_evolves _ _ _ _ He)).
Qed.

(** What a successful registration leaves in the store: the wait, with the
    dependencies and the deadline that were asked for. *)
Definition describes (w : DependencyWaitInfo) (req : DependencyWait) : Prop :=
  wi_Deadline w = dw_Deadline req ∧
  (λ d, (dr_Target d, dr_Condition d)) <$> wi_Dependencies w = (λ d, (dep_Target d, dep_Condition d)) <$> dw_Dependencies req.

Lemma copy_describes w req : describes w req → describes (copy_wait w) req.
Proof. intros [Hd Hds]. split; [done|]. rewrite <- Hds. simpl. by rewrite <- list_fmap_compose. Qed.

Lemma evolves_describes w w' req : wait_evolves w w' → describes w req → describes w' req.
Proof. intros He [Hd Hds]. split; [by rewrite (we_deadline _ _ He)|]. by rewrite (evolves_descriptor _ _ He). Qed.

Lemma check_target_deps (s : St) key ds deps :
  map_result (check_target s key) ds = Ok deps →
  (λ d, (dr_Target d, dr_Condition d)) <$> deps = (λ d, (dep_Target d, dep_Condition d)) <$> ds.
Proof.
  revert deps. induction ds as [|d ds IH]; intros deps; simpl; [by intros [= <-]|]. intros Hm.
  apply bind_ok in Hm as (x & Hx & Hm). apply bind_ok in Hm as (xs & Hxs & [= <-]). simpl. f_equal; [|by apply IH].
  unfold check_target in Hx. destruct (String.eqb _ _); [done|]. by apply bind_ok in Hx as (? & _ & [= <-]).
Qed.

Lemma register_describes now key req sub (s s' : St) w :
  st_ok s → Register now key req sub s = (s', Ok w) →
  ∃ w', st_Wait s' (mkWaitKey key (dw_WaitID req)) = Ok w' ∧ describes w' req.
Proof.
  intros Hok Hs. exists (copy_wait w). split; [by eapply register_saves|]. apply copy_describes.
  destruct (st_Wait s (mkWaitKey key (dw_WaitID req))) as [old|e] eqn:Hold.
  - destruct (register_stored _ _ _ _ _ _ _ _ Hok Hold Hs) as [Hd He]. eapply evolves_describes; [exact He|].
    by apply same_descriptor_spec.
  - apply m_bind_inv in Hs as ([] & s1 & Hr & Hs). unfold m_read in Hr. injection Hr as <- _.
    apply m_bind_inv in Hs as (j & s1 & Hr & Hs). unfold m_read in Hr. injection Hr as <- _.
    rewrite Hold in Hs. pose proof (wait_missing _ _ _ Hold) as ->. unfold register_new in Hs.
    apply m_bind_inv in Hs as (deps & s1 & Hr & Hs). unfold m_read in Hr. injection Hr as <- Hdeps.
    apply m_bind_inv in Hs as (w1 & s1 & Hr & Hs). unfold m_read in Hr. injection Hr as <- He.
    apply m_bind_inv in Hs as ([] & s1 & _ & Hs). apply m_bind_inv in Hs as ([] & s2 & _ & Hs).
    unfold m_ret in Hs. simplify_eq. eapply evolves_describes; [by eapply evaluate_evolves|].
    split; [done|]. by eapply check_target_deps.
Qed.

(** A wait ID is bound to its descriptor for good: after a successful
    registration and any further evolution of the store, registering the same
    ID again succeeds only with the same deadline, targets and conditions, and
    returns a later state of the same wait. *)
Theorem register_binds now1 now2 key req1 req2 sub1 sub2 W C (s s1 s2 s3 : St) w1 w2 :
  st_ok s → st_ok s2 → Register now1 key req1 sub1 s = (s1, Ok w1) → evolve W C s1 s2 →
  dw_WaitID req2 = dw_WaitID req1 → Register now2 key req2 sub2 s2 = (s3, Ok w2) →
  dw_Deadline req2 = wi_Deadline w1 ∧
  (λ d, (dep_Target d, dep_Condition d)) <$> dw_Dependencies req2 =
  (λ d, (dr_Target d, dr_Condition d)) <$> wi_Dependencies w1 ∧
  wait_evolves (copy_wait w1) w2.
Proof.
  intros Hok Hok2 H1 Hev Hid H2. pose proof (register_saves _ _ _ _ _ _ _ Hok H1) as Hw1.
  destruct (ev_wait _ _ _ _ Hev _ _ Hw1) as (old & Hold & He). rewrite <- Hid in Hold.
  destruct (register_stored _ _ _ _ _ _ _ _ Hok2 Hold H2) as [[Hd Hds]%same_descriptor_spec He2].
  split; [rewrite <- Hd; by apply (we_deadline _ _ He)|]. split; [|by etrans].
  rewrite <- Hds, (evolves_descriptor _ _ He). simpl. by rewrite <- list_fmap_compose.
Qed.

(** Failing a goal is final and idempotent: the call leaves the goal failed
    with the given message, repeating it changes nothing and returns the same
    goal, and any other message is then refused without a change. *)
Theorem fail_goal_final now now' req req' (s s1 : St) g :
  st_ok s → Fail now req s = (s1, Ok g) → fr_GoalKey req' = fr_GoalKey req →
  (∃ f, gi_State g = GoalFailed ∧ gi_Failure g = Some f ∧ gf_Message f = fr_Message req) ∧
  Fail now' req s1 = (s1, Ok (copy_goal g)) ∧
  (FailGoalRequest_Validate req' = Ok tt → fr_Message req' ≠ fr_Message req →
   Fail now' req' s1 = (s1, Err ErrGoalConflict)).
Proof.
  intros Hok Hs Hkey. apply m_bind_inv in Hs as ([] & s0 & Hr & Hs).
  unfold m_read in Hr. injection Hr as <- Hval.
  apply m_bind_inv in Hs as (g0 & s0 & Hr & Hs). unfold m_read in Hr. injection Hr as <- Hg.
  assert (∃ f, gi_State g = GoalFailed ∧ gi_Failure g = Some f ∧ gf_Message f = fr_Message req ∧
    st_Goal s1 (fr_GoalKey req) = Ok (copy_goal g)) as (f & Hst & Hf & Hm & Hg1).
  { destruct (already_failed g0 _) eqn:Ha.
    - unfold m_ret in Hs. simplify_eq. apply andb_true_iff in Ha as [Hs%bool_decide_eq_true Hm].
      destruct (gi_Failure g) as [f|] eqn:Hf; [|done]. apply String.eqb_eq in Hm.
      exists f. do 3 (split; [done|]). by rewrite (goal_copied _ _ _ Hg).
    - case_bool_decide as Ho; [done|].
      apply m_bind_inv in Hs as (js & s0 & Hr & Hs). unfold m_read in Hr. injection Hr as <- _.
      apply m_bind_inv in Hs as ([] & s2 & Hw & Hs).
      apply m_bind_inv in Hs as ([] & s3 & Hset & Hs). unfold m_ret in Hs. simplify_eq.
      unfold m_write in Hw. destruct (st_SaveGoal s _) as [s3|] eqn:Hsave; [|done]. simplify_eq.
      exists (goal_failure now req js). do 3 (split; [done|]).
      assert (st_ok s2) as Hok2 by (by eapply save_goal_ok).
      destruct (settle_mono now no_wait no_candidate (gk_TenantId (fr_GoalKey req))
        (mkTarget "" (gk_GoalID (fr_GoalKey req))) s2 Hok2) as [_ He]. rewrite Hset in He.
      destruct (ev_goal _ _ _ _ He (fr_GoalKey req) (copy_goal (failed_goal now g0 req js)))
        as (g2 & Hg2 & [->|(? & _)]); [|done|done].
      erewrite save_goal_goal by done. rewrite decide_True; [done|]. simpl.
      by rewrite (goal_key _ _ _ Hok Hg). }
  assert (∀ msg, already_failed (copy_goal g) msg = String.eqb (fr_Message req) msg) as Hal.
  { intros msg. unfold already_failed. simpl. rewrite Hst, Hf. simpl. rewrite <- Hm.
    unfold copy_failure. by destruct (_ && _). }
  split; [eauto|]. split.
  - unfold Fail, m_bind, m_read. rewrite Hval, Hg1, Hal, String.eqb_refl. done.
  - intros Hval' Hne. unfold Fail, m_bind, m_read. rewrite Hval', Hkey, Hg1, Hal.
    destruct (String.eqb_spec (fr_Message req) (fr_Message req')); [congruence|].
    rewrite bool_decide_true; [done|]. simpl. congruence.
Qed.
End theorems.

(** Completing never fails on a consistent in-memory store: if the job exists
    and every reference resolves, [Complete] returns no error, whatever order Go
    ranges over the maps, and leaves every reference resolved. *)
Theorem complete_never_fails `{RangeOrder} now key (s : Memory) :
  refs_ok s → memory_ok s → is_Some (m_Jobs s !! key) →
  ∃ s', Complete now key s = (s', Ok tt) ∧ refs_ok s' ∧ memory_ok s'.
Proof. apply complete_total. Qed.

(** ** A concrete store

    Tenant "t": job [a] is the candidate of goal [ga] and has just succeeded; job
    [b], the candidate of goal [gb], waits for goal [ga]. *)
Module sample.
#[local] Existing Instance stdpp_range_order.

Definition jk (id : string) : JobKey := mkJobKey "t" id.
Definition gk (id : string) : GoalKey := mkGoalKey "t" id.
Definition goal_target (id : string) : DependencyTarget := mkTarget "" id.
Definition job_target (id : string) : DependencyTarget := mkTarget id "".
Definition open_goal (id : string) : GoalInfo :=
  mkGoalInfo "cell" "cid" "" (gk id) GoalOpen 1 "" None 1 1 None.
Definition wait_b : DependencyWaitInfo :=
  mkWaitInfo (jk "b") "w" DependencyPending (Some 100%Z)
    [mkResolution (goal_target "ga") JobPrereqSuccess DependencyPending "" "" None] None None.

Definition store : Memory := {|
  m_GoalRows := {[ gk "ga" := open_goal "ga"; gk "gb" := open_goal "gb" ]};
  m_Extras := ∅;
  m_WaitRows := {[ mkWaitKey (jk "b") "w" := wait_b ]};
  m_Jobs := {[ jk "a" := mkJob (jk "a") "ga" true true 1;
               jk "b" := mkJob (jk "b") "gb" false false 1 ]}
|}.

Lemma goal_rows k g :
  m_GoalRows store !! k = Some g ↔
  (k = gk "ga" ∧ g = open_goal "ga") ∨ (k = gk "gb" ∧ g = open_goal "gb").
Proof.
  simpl. rewrite lookup_insert_Some, lookup_singleton_Some. split; [naive_solver|].
  intros [[-> ->]|[-> ->]]; [by left|right]. split; [|done]. unfold gk. congruence.
Qed.
Lemma job_rows k j :
  m_Jobs store !! k = Some j ↔
  (k = jk "a" ∧ j = mkJob (jk "a") "ga" true true 1) ∨
  (k = jk "b" ∧ j = mkJob (jk "b") "gb" false false 1).
Proof.
  simpl. rewrite lookup_insert_Some, lookup_singleton_Some. split; [naive_solver|].
  intros [[-> ->]|[-> ->]]; [by left|right]. split; [|done]. unfold jk. congruence.
Qed.
Lemma wait_rows k w :
  mem_Wait store k = Ok w ↔ k = mkWaitKey (jk "b") "w" ∧ w = wait_b.
Proof.
  rewrite mem_wait_ok. simpl. setoid_rewrite lookup_singleton_Some. split.
  - by intros (v & [<- <-] & ->).
  - intros [-> ->]. by exists wait_b.
Qed.

Lemma ok : memory_ok store.
Proof.
  split; [by intros k g [[-> ->]|[-> ->]]%goal_rows| |by intros k j [[-> ->]|[-> ->]]%job_rows].
  intros k w Hw. simpl in Hw. by apply lookup_singleton_Some in Hw as [<- <-].
Qed.

Lemma laws_ok : st_ok (GoalStoreLaws := memory_laws) store.
Proof. exact ok. Qed.

Lemma refs : refs_ok store.
Proof.
  split.
  - intros k j [[-> ->]|[-> ->]]%job_rows; simpl; eexists; apply goal_rows; eauto.
  - intros ck [t Ht]. simpl in Ht. by rewrite lookup_empty in Ht.
  - intros k w d Hw. simpl in Hw. apply lookup_singleton_Some in Hw as [<- <-].
    intros _ [->|[]%not_elem_of_nil]%elem_of_cons _. simpl. eexists. apply goal_rows. by left.
Qed.

Lemma all_named : named store.
Proof.
  split.
  - intros k j [[-> _]|[-> _]]%lookup_job_ok%job_rows; vm_compute; reflexivity.
  - intros k g (v & [[-> _]|[-> _]]%goal_rows & _)%mem_goal_ok; vm_compute; reflexivity.
Qed.

Lemma inv P : store_inv P store.
Proof.
  split; [exact ok| |..].
  - intros k w [_ ->]%wait_rows. by apply pending_wf.
  - intros k w d [_ ->]%wait_rows _ [->|[]%not_elem_of_nil]%elem_of_cons _. done.
  - intros k w d [_ ->]%wait_rows _ [->|[]%not_elem_of_nil]%elem_of_cons _. left.
    eapply (verdict_goal_open _ _ _ _ (open_goal "ga")); [done| |done].
    apply mem_goal_ok. exists (open_goal "ga"). split; [apply goal_rows; by left|done].
Qed.

(** Ranks that every edge lowers. *)
Definition rank (x : DependencyTarget) : nat :=
  if String.eqb (dt_GoalID x) "gb" then 2
  else if str_empty (dt_GoalID x) && String.eqb (dt_JobID x) "b" then 1 else 0.

Lemma no_cycle now tenant : acyclic now store tenant.
Proof.
  assert (∀ x y, edge now store tenant x y → rank y < rank x) as Hrank.
  { destruct 1 as [n g id j t Hne Hg Ho Hj Ht Hc|n j wid w d Hn Hj Ht Hw Hl Hd Hp].
    - apply lookup_job_ok, job_rows in Hj as [[Hk ->]|[Hk ->]]; [done|]. injection Hk as -> ->.
      apply mem_candidate_true in Hc as (j & [[Hk _]|[_ ->]]%job_rows & [[Hg' _]|[_ He]]); try done.
      simpl in Hg'. unfold rank. rewrite <- Hg'. simpl. lia.
    - apply wait_rows in Hw as [Hk ->]. injection Hk as -> Hb ->.
      simpl in Hd. apply list_elem_of_singleton in Hd as ->. unfold rank. rewrite Hn, Hb. simpl. lia. }
  intros x Hx. assert (∀ a b, tc (edge now store tenant) a b → rank b < rank a) as Htc.
  { induction 1; [by apply Hrank|]. etrans; [done|by apply Hrank]. }
  apply Htc in Hx. lia.
Qed.
End sample.

(** ** Witnesses: the theorems at the concrete store *)
#[local] Existing Instance stdpp_range_order.
Import sample.

Lemma check_cycle_correct_witness :
  CheckCycle 5 "t" (goal_target "gb") store = Ok tt ∧ ¬ cycle_from 5 store "t" (goal_target "gb").
Proof.
  split; [vm_compute; reflexivity|].
  apply (check_cycle_correct 5 store "t" (goal_target "gb") laws_ok). vm_compute. reflexivity.
Defined.

Lemma engine_monotone_witness :
  evolve (may_create_wait (OpAdd (mkAddRequest (gk "ga") "b")))
    (may_create_candidate (OpAdd (mkAddRequest (gk "ga") "b"))) store
    (run_op 5 (OpAdd (mkAddRequest (gk "ga") "b")) store).1 ∧
  (run_op 5 (OpAdd (mkAddRequest (gk "ga") "b")) store).2 = Err ErrDependencyCycle.
Proof.
  split; [|vm_compute; reflexivity].
  apply (engine_monotone 5 (OpAdd (mkAddRequest (gk "ga") "b")) store laws_ok).
Defined.

Definition op_add : engine_op := OpAdd (mkAddRequest (gk "gb") "a").
Definition added_store : Memory := Eval vm_compute in (run_op 5 op_add store).1.
Lemma added_eq : run_op 5 op_add store = (added_store, Ok tt).
Proof. vm_compute. reflexivity. Qed.
Lemma graph_stays_acyclic_witness : acyclic 5 added_store "t".
Proof.
  exact (graph_stays_acyclic 3 5 op_add store added_store "t" (inv _) all_named
    ltac:(lia) (no_cycle _ _) added_eq).
Defined.

Definition done_store : Memory := Eval vm_compute in (Complete 5 (jk "a") store).1.
Lemma done_eq : Complete 5 (jk "a") store = (done_store, Ok tt).
Proof. vm_compute. reflexivity. Qed.
Lemma job_a : st_Job store (jk "a") = Ok (mkJob (jk "a") "ga" true true 1).
Proof. vm_compute. reflexivity. Qed.
Lemma candidate_a : st_Candidate store (gk "ga") (jk_JobId (jk "a")) = Ok (1%Z, true).
Proof. vm_compute. reflexivity. Qed.
Lemma complete_effect_witness :
  ∃ g, st_Goal done_store (gk "ga") = Ok g ∧ gi_State g ≠ GoalOpen.
Proof.
  exact (proj2 (complete_effect 5 (jk "a") store done_store _ (inv _) job_a done_eq)
    eq_refl (gk "ga") 1%Z eq_refl candidate_a).
Defined.

Lemma no_lost_wakeup_witness :
  store_inv none done_store ∧
  st_Wait done_store (mkWaitKey (jk "b") "w")
    = Ok (wait_b <| wi_State := DependencySatisfied |>
           <| wi_Dependencies := [mkResolution (goal_target "ga") JobPrereqSuccess
                                    DependencySatisfied "a" "" None] |>).
Proof.
  split; [|vm_compute; reflexivity].
  exact (no_lost_wakeup 5 (OpComplete (jk "a")) store done_store (inv _) all_named done_eq).
Defined.

Lemma evaluate_rule_witness :
  ∃ w', Evaluate 200 store wait_b = Ok w' ∧ wi_State w' = DependencyTimedOut.
Proof.
  eexists. split; [vm_compute; reflexivity|].
  refine (proj1 (proj2 (proj2 (evaluate_rule 200 store wait_b _ _ _))) _ _);
    [|vm_compute; reflexivity|vm_compute; reflexivity|vm_compute; reflexivity].
  by apply pending_wf.
Defined.

Definition req_w (dl : option time) : DependencyWait :=
  mkDependencyWait "w2" [mkDependency (goal_target "ga") JobPrereqSuccess] dl.
Definition reg_store : Memory := Eval vm_compute in (Register 5 (jk "b") (req_w None) false store).1.
Definition reg_wait : DependencyWaitInfo :=
  mkWaitInfo (jk "b") "w2" DependencyPending None
    [mkResolution (goal_target "ga") JobPrereqSuccess DependencyPending "" "awaiting_candidate" None]
    None None.
Lemma reg_first : Register 5 (jk "b") (req_w None) false store = (reg_store, Ok reg_wait).
Proof. vm_compute. reflexivity. Qed.
Lemma reg_second : Register 6 (jk "b") (req_w None) false reg_store = (reg_store, Ok reg_wait).
Proof. vm_compute. reflexivity. Qed.
Lemma reg_ok : st_ok (GoalStoreLaws := memory_laws) reg_store.
Proof.
  pose proof (Register_mono 5 (λ k, k = mkWaitKey (jk "b") "w2") (λ _ _, False) (jk "b")
    (req_w None) false eq_refl store laws_ok) as [Hok _]. by rewrite reg_first in Hok.
Qed.
Lemma register_binds_witness :
  Register 6 (jk "b") (req_w None) false reg_store = (reg_store, Ok reg_wait) ∧
  wait_evolves (copy_wait reg_wait) reg_wait.
Proof.
  split; [exact reg_second|].
  exact (proj2 (proj2 (register_binds 5 6 (jk "b") (req_w None) (req_w None) false false
    (λ _, False) (λ _ _, False) store reg_store reg_store reg_store reg_wait reg_wait
    laws_ok reg_ok reg_first (reflexivity _) eq_refl reg_second))).
Defined.

Definition fail_ga (msg : string) : FailGoalRequest := mkFailRequest (gk "ga") msg.
Definition failed_store : Memory := Eval vm_compute in (Fail 5 (fail_ga "no") store).1.
Definition failed_ga : GoalInfo :=
  mkGoalInfo "cell" "cid" "" (gk "ga") GoalFailed 2 ""
    (Some (mkGoalFailure "goal_failed" "ga" "" "no" ["a"] [] 5)) 1 5 (Some 5%Z).
Lemma failed_eq : Fail 5 (fail_ga "no") store = (failed_store, Ok failed_ga).
Proof. vm_compute. reflexivity. Qed.
Lemma fail_goal_final_witness :
  Fail 9 (fail_ga "other") failed_store = (failed_store, Err ErrGoalConflict).
Proof.
  apply (fail_goal_final 5 9 (fail_ga "no") (fail_ga "other") store failed_store failed_ga
    laws_ok failed_eq eq_refl); [vm_compute; reflexivity|done].
Defined.

Lemma complete_never_fails_witness :
  ∃ s', Complete 5 (jk "a") store = (s', Ok tt) ∧ refs_ok s' ∧ memory_ok s'.
Proof. apply (complete_never_fails 5 (jk "a") store refs ok). vm_compute. eauto. Defined.
