(* ===== verification/Json.v ===== *)
(** * Json: JSON values, their text and the lossless parser

    [clientpayload/payload.go] reads JSON text with [encoding/json] in its token
    mode (numbers kept as literals) and adds its own checks: size, UTF-8, unpaired
    surrogates, U+0000, duplicate names, nesting.  [parseWithLimit] is that parser
    and [Marshal] the encoder it pairs with.  Text is a byte string. *)

From S2P Require Import Prelude Types.
Abbreviation ascii := Ascii.ascii.
Abbreviation N_of_ascii := Ascii.N_of_ascii.

(** ** Values

    What [encoding/json] stores in an [any]: numbers by their literal; an object
    is a Go map, here the list of its entries in increasing key order. *)
Inductive json :=
  | JNull
  | JBool (b : bool)
  | JNum (lit : string)
  | JStr (s : string)
  | JArr (l : list json)
  | JObj (l : list (string * json)).

(** Map operations on entry lists. *)
Fixpoint obj_get (k : string) (l : list (string * json)) : option json :=
  match l with
  | [] => None
  | (k', v) :: l => if String.eqb k k' then Some v else obj_get k l
  end.
Fixpoint obj_set (k : string) (v : json) (l : list (string * json)) : list (string * json) :=
  match l with
  | [] => [(k, v)]
  | (k', v') :: l' =>
      if String.eqb k k' then (k, v) :: l'
      else if str_leb k k' then (k, v) :: l
      else (k', v') :: obj_set k v l'
  end.
Fixpoint obj_del (k : string) (l : list (string * json)) : list (string * json) :=
  match l with
  | [] => []
  | (k', v') :: l' => if String.eqb k k' then l' else (k', v') :: obj_del k l'
  end.

(** ** Characters *)
Definition chr (n : N) : ascii := Ascii.ascii_of_N n.
Definition quote : ascii := chr 34.
Definition backslash : ascii := chr 92.
Definition is_char (n : N) (c : ascii) : bool := (N_of_ascii c =? n)%N.
Definition is_ws (c : ascii) : bool := is_char 32 c || is_char 9 c || is_char 10 c || is_char 13 c.
Definition is_digit (c : ascii) : bool := in_range 48 57 c.

Fixpoint skip_ws (s : string) : string :=
  match s with
  | String c r => if is_ws c then skip_ws r else s
  | EmptyString => s
  end.

(** ** Numbers: [-? (0 | [1-9][0-9]* ) (. [0-9]+)? ([eE] [+-]? [0-9]+)?] *)
Fixpoint take_digits (s : string) : string * string :=
  match s with
  | String c r => if is_digit c then let p := take_digits r in (String c p.1, p.2) else ("", s)
  | EmptyString => ("", s)
  end.
Definition digits1 (s : string) : option (string * string) :=
  let p := take_digits s in if str_empty p.1 then None else Some p.

Definition take_int (s : string) : option (string * string) :=
  match s with
  | String c r => if is_char 48 c then Some (String c "", r) else digits1 s
  | EmptyString => None
  end.
Definition take_frac (s : string) : option (string * string) :=
  match s with
  | String c r => if is_char 46 c
                  then match digits1 r with Some p => Some (String c p.1, p.2) | None => None end
                  else Some ("", s)
  | EmptyString => Some ("", s)
  end.
Definition take_sign (s : string) : string * string :=
  match s with
  | String c r => if is_char 43 c || is_char 45 c then (String c "", r) else ("", s)
  | EmptyString => ("", s)
  end.
Definition take_exp (s : string) : option (string * string) :=
  match s with
  | String c r =>
      if is_char 101 c || is_char 69 c
      then let p := take_sign r in
           match digits1 p.2 with
           | Some q => Some (String c (p.1 +:+ q.1), q.2)
           | None => None
           end
      else Some ("", s)
  | EmptyString => Some ("", s)
  end.
Definition take_minus (s : string) : string * string :=
  match s with
  | String c r => if is_char 45 c then (String c "", r) else ("", s)
  | EmptyString => ("", s)
  end.

Definition parse_number (s : string) : option (string * string) :=
  let m := take_minus s in
  match take_int m.2 with
  | None => None
  | Some i => match take_frac i.2 with
    | None => None
    | Some f => match take_exp f.2 with
      | None => None
      | Some e => Some (m.1 +:+ i.1 +:+ f.1 +:+ e.1, e.2)
      end
    end
  end.

(** ** Strings *)
Definition hex_digit (c : ascii) : option N :=
  let n := N_of_ascii c in
  if ((48 <=? n) && (n <=? 57))%N then Some (n - 48)%N
  else if ((97 <=? n) && (n <=? 102))%N then Some (n - 87)%N
  else if ((65 <=? n) && (n <=? 70))%N then Some (n - 55)%N
  else None.
Definition hex4 (a b c d : ascii) : option N :=
  match hex_digit a, hex_digit b, hex_digit c, hex_digit d with
  | Some a, Some b, Some c, Some d => Some (((a * 16 + b) * 16 + c) * 16 + d)%N
  | _, _, _, _ => None
  end.

(** The UTF-8 encoding of a code point. *)
Definition utf8_encode (n : N) : string :=
  if (n <? 128)%N then String (chr n) ""
  else if (n <? 2048)%N then
    String (chr (192 + n / 64)) (String (chr (128 + n mod 64)) "")
  else if (n <? 65536)%N then
    String (chr (224 + n / 4096)) (String (chr (128 + n / 64 mod 64)) (String (chr (128 + n mod 64)) ""))
  else
    String (chr (240 + n / 262144)) (String (chr (128 + n / 4096 mod 64))
      (String (chr (128 + n / 64 mod 64)) (String (chr (128 + n mod 64)) ""))).

(** The byte a two-character escape stands for. *)
Definition simple_escape (c : ascii) : option ascii :=
  if is_char 34 c then Some quote
  else if is_char 92 c then Some backslash
  else if is_char 47 c then Some (chr 47)
  else if is_char 98 c then Some (chr 8)
  else if is_char 102 c then Some (chr 12)
  else if is_char 110 c then Some (chr 10)
  else if is_char 114 c then Some (chr 13)
  else if is_char 116 c then Some (chr 9)
  else None.

Definition prepend (p : string) (r : option (string * string)) : option (string * string) :=
  match r with Some (s, rest) => Some (p +:+ s, rest) | None => None end.

(** After the opening quote: the decoded string and what follows the closing one.
    A surrogate escape must be half of a pair; U+0000 only if [allow_zero]. *)
Fixpoint parse_string (allow_zero : bool) (s : string) : option (string * string) :=
  match s with
  | EmptyString => None
  | String c r =>
    if is_char 34 c then Some ("", r)
    else if is_char 92 c then
      match r with
      | EmptyString => None
      | String e r1 =>
        if is_char 117 e then
          match r1 with
          | String h1 (String h2 (String h3 (String h4 r2))) =>
            match hex4 h1 h2 h3 h4 with
            | None => None
            | Some n =>
              if ((n =? 0)%N && negb allow_zero) then None
              else if ((55296 <=? n) && (n <=? 56319))%N then
                match r2 with
                | String b (String u (String l1 (String l2 (String l3 (String l4 r3))))) =>
                  if is_char 92 b && is_char 117 u then
                    match hex4 l1 l2 l3 l4 with
                    | Some low =>
                        if ((56320 <=? low) && (low <=? 57343))%N
                        then prepend (utf8_encode (65536 + (n - 55296) * 1024 + (low - 56320)))
                               (parse_string allow_zero r3)
                        else None
                    | None => None
                    end
                  else None
                | _ => None
                end
              else if ((56320 <=? n) && (n <=? 57343))%N then None
              else prepend (utf8_encode n) (parse_string allow_zero r2)
            end
          | _ => None
          end
        else match simple_escape e with
        | Some b => prepend (String b "") (parse_string allow_zero r1)
        | None => None
        end
      end
    else if in_range 0 31 c then None
    else prepend (String c "") (parse_string allow_zero r)
  end.

(** ** Values ([readValue]) *)
Fixpoint take_literal (lit s : string) : option string :=
  match lit with
  | EmptyString => Some s
  | String a lit => match s with
    | String b s => if Ascii.eqb a b then take_literal lit s else None
    | EmptyString => None
    end
  end.

Definition MaxDepth : Z := 128.
Definition MaxBytes : nat := N.to_nat 65536.

(** [depth] counts the enclosing arrays and objects; [fuel] exceeds the length of
    the text, which every call shortens. *)
Fixpoint parse_value (fuel : nat) (az : bool) (depth : Z) (s : string) : option (json * string) :=
  match fuel with
  | O => None
  | S fuel =>
    match skip_ws s with
    | EmptyString => None
    | String c r =>
      if is_char 123 c then
        if (MaxDepth <=? depth)%Z then None else
        match skip_ws r with
        | String c' r' => if is_char 125 c' then Some (JObj [], r')
                          else parse_members fuel az depth [] (String c' r')
        | EmptyString => None
        end
      else if is_char 91 c then
        if (MaxDepth <=? depth)%Z then None else
        match skip_ws r with
        | String c' r' => if is_char 93 c' then Some (JArr [], r')
                          else parse_elems fuel az depth [] (String c' r')
        | EmptyString => None
        end
      else if is_char 34 c then
        match parse_string az r with Some (v, r') => Some (JStr v, r') | None => None end
      else if is_char 116 c then
        match take_literal "true" (String c r) with Some r' => Some (JBool true, r') | None => None end
      else if is_char 102 c then
        match take_literal "false" (String c r) with Some r' => Some (JBool false, r') | None => None end
      else if is_char 110 c then
        match take_literal "null" (String c r) with Some r' => Some (JNull, r') | None => None end
      else
        match parse_number (String c r) with Some (l, r') => Some (JNum l, r') | None => None end
    end
  end
with parse_elems (fuel : nat) (az : bool) (depth : Z) (acc : list json) (s : string)
    : option (json * string) :=
  match fuel with
  | O => None
  | S fuel =>
    match parse_value fuel az (depth + 1) s with
    | None => None
    | Some (v, r) =>
      match skip_ws r with
      | String c r' =>
          if is_char 44 c then parse_elems fuel az depth (acc ++ [v]) r'
          else if is_char 93 c then Some (JArr (acc ++ [v]), r')
          else None
      | EmptyString => None
      end
    end
  end
with parse_members (fuel : nat) (az : bool) (depth : Z) (acc : list (string * json)) (s : string)
    : option (json * string) :=
  match fuel with
  | O => None
  | S fuel =>
    match skip_ws s with
    | String q r =>
      if negb (is_char 34 q) then None else
      match parse_string az r with
      | None => None
      | Some (k, r1) =>
        match obj_get k acc with
        | Some _ => None
        | None =>
          match skip_ws r1 with
          | String col r2 =>
            if negb (is_char 58 col) then None else
            match parse_value fuel az (depth + 1) r2 with
            | None => None
            | Some (v, r3) =>
              match skip_ws r3 with
              | String c r4 =>
                  if is_char 44 c then parse_members fuel az depth (obj_set k v acc) r4
                  else if is_char 125 c then Some (JObj (obj_set k v acc), r4)
                  else None
              | EmptyString => None
              end
            end
          | EmptyString => None
          end
        end
      end
    | EmptyString => None
    end
  end.

(** [parseWithLimit] and [parse] *)
Definition parseWithLimit (raw : string) (maxBytes : nat) (allow_zero : bool) : result json :=
  if (maxBytes <? String.length raw)%nat then Err ErrPayloadTooLarge
  else if negb (ValidString raw) then Err ErrInvalidPayload
  else match parse_value (S (String.length raw)) allow_zero 0 raw with
  | Some (v, rest) => if str_empty (skip_ws rest) then Ok v else Err ErrInvalidPayload
  | None => Err ErrInvalidPayload
  end.
Definition parse (raw : string) : result json := parseWithLimit raw MaxBytes false.

(** ** [json.Marshal] of such a value

    Object keys in increasing order; in strings the quote, the backslash, control
    characters, [<], [>], [&] and U+2028/U+2029 are escaped.  Strings are UTF-8. *)
Definition hex_char (n : N) : ascii := if (n <? 10)%N then chr (48 + n) else chr (87 + n).
Definition u00 (c : ascii) : string :=
  let n := N_of_ascii c in
  String backslash (String (chr 117) (String (chr 48) (String (chr 48)
    (String (hex_char (n / 16)) (String (hex_char (n mod 16)) ""))))).
Definition esc2 (c : N) : string := String backslash (String (chr c) "").

Definition escape_byte (c : ascii) : string :=
  if is_char 34 c then esc2 34
  else if is_char 92 c then esc2 92
  else if is_char 8 c then esc2 98
  else if is_char 12 c then esc2 102
  else if is_char 10 c then esc2 110
  else if is_char 13 c then esc2 114
  else if is_char 9 c then esc2 116
  else if in_range 0 31 c || is_char 60 c || is_char 62 c || is_char 38 c then u00 c
  else String c "".

Fixpoint escape_string (s : string) : string :=
  match s with
  | EmptyString => ""
  | String a s1 =>
    match s1 with
    | String b (String c s3) =>
        if is_char 226 a && is_char 128 b && is_char 168 c then "\u2028" +:+ escape_string s3
        else if is_char 226 a && is_char 128 b && is_char 169 c then "\u2029" +:+ escape_string s3
        else escape_byte a +:+ escape_string s1
    | _ => escape_byte a +:+ escape_string s1
    end
  end.
Definition marshal_string (s : string) : string :=
  String quote (escape_string s +:+ String quote "").

Fixpoint Marshal (v : json) : string :=
  match v with
  | JNull => "null"
  | JBool b => if b then "true" else "false"
  | JNum l => l
  | JStr s => marshal_string s
  | JArr l => "[" +:+ (fix elems (l : list json) : string :=
      match l with
      | [] => ""
      | [v] => Marshal v
      | v :: l => Marshal v +:+ "," +:+ elems l
      end) l +:+ "]"
  | JObj l => "{" +:+ (fix members (l : list (string * json)) : string :=
      match l with
      | [] => ""
      | [(k, v)] => marshal_string k +:+ ":" +:+ Marshal v
      | (k, v) :: l => marshal_string k +:+ ":" +:+ Marshal v +:+ "," +:+ members l
      end) l +:+ "}"
  end.

(** JSON text for examples, written with single quotes. *)
Fixpoint text (s : string) : string :=
  match s with
  | EmptyString => ""
  | String c r => String (if is_char 39 c then quote else c) (text r)
  end.

Example parse_object :
  parse (text "{'b' : [1.50, -2e+3, true],'a':{'x':null}}") =
  Ok (JObj [("a", JObj [("x", JNull)]); ("b", JArr [JNum "1.50"; JNum "-2e+3"; JBool true])]).
Proof. vm_compute. reflexivity. Qed.
