(* ===== verification/JsonText.v ===== *)
(** * JsonText: UTF-8 text and number literals

    The text the decoder of [Json] accepts, as grammars: UTF-8 strings character by
    character, and number literals.  [escape_string] and [parse_string] are inverse
    to each other on text without U+0000, and [parse_number] accepts exactly the
    literals. *)

From S2P Require Import Prelude Types Json.

#[local] Arguments String.append !_ _ / : simpl nomatch.

Lemma str_app_nil (a : string) : a +:+ "" = a.
Proof. induction a as [|x a IH]; simpl; [done|]. by rewrite IH. Qed.
(** ** UTF-8 *)

(** The patterns of characters longer than one byte. *)
Definition multi (m : string) : bool :=
  match m with
  | String a (String b "") => in_range 194 223 a && cont b
  | String a (String b (String c "")) =>
      (in_range 224 224 a && in_range 160 191 b && cont c)
      || (in_range 225 236 a && cont b && cont c)
      || (in_range 237 237 a && in_range 128 159 b && cont c)
      || (in_range 238 239 a && cont b && cont c)
  | String a (String b (String c (String d ""))) =>
      (in_range 240 240 a && in_range 144 191 b && cont c && cont d)
      || (in_range 241 243 a && cont b && cont c && cont d)
      || (in_range 244 244 a && in_range 128 143 b && cont c && cont d)
  | _ => false
  end.

(** Text as a sequence of characters; [nul] says whether U+0000 may occur. *)
Inductive utf8 : string → Prop :=
  | utf8_nil : utf8 ""
  | utf8_ascii c s : in_range 0 127 c = true → utf8 s → utf8 (String c s)
  | utf8_multi m s : multi m = true → utf8 s → utf8 (m +:+ s).

Lemma in_range_spec lo hi c : in_range lo hi c = true ↔ (lo ≤ N_of_ascii c ≤ hi)%N.
Proof. unfold in_range. rewrite andb_true_iff, !N.leb_le. done. Qed.

Lemma in_range_disjoint lo hi lo' hi' c :
  (hi < lo' ∨ hi' < lo)%N → in_range lo hi c = true → in_range lo' hi' c = false.
Proof. intros Hd Hc. apply in_range_spec in Hc. apply not_true_iff_false. rewrite in_range_spec. lia. Qed.

(** The bytes of a longer character: a lead byte and continuation bytes. *)
Definition high (c : ascii) : bool := in_range 128 255 c.
Fixpoint all_bytes (p : ascii → bool) (s : string) : bool :=
  match s with EmptyString => true | String c s => p c && all_bytes p s end.

Lemma in_range_weaken lo hi lo' hi' c :
  (lo' ≤ lo)%N → (hi ≤ hi')%N → in_range lo hi c = true → in_range lo' hi' c = true.
Proof. rewrite !in_range_spec. lia. Qed.

Lemma multi_cases m : multi m = true → ∃ a t, m = String a t ∧ in_range 194 244 a = true ∧ t ≠ "" ∧ all_bytes cont t = true.
Proof.
  unfold multi. destruct m as [|a [|b [|c [|d [|]]]]]; try done; intros Hm.
  - apply andb_true_iff in Hm as [Ha Hb]. exists a, (String b ""). simpl. rewrite Hb.
    split; [done|]. split; [|done]. by eapply in_range_weaken; [..|exact Ha].
  - exists a, (String b (String c "")). rewrite !orb_true_iff, !andb_true_iff in Hm. simpl.
    assert (in_range 194 244 a = true ∧ cont b = true ∧ cont c = true) as (-> & -> & ->); [|done].
    destruct Hm as [[[[[Ha Hb] Hc]|[[Ha Hb] Hc]]|[[Ha Hb] Hc]]|[[Ha Hb] Hc]];
      (split; [eapply in_range_weaken; [..|exact Ha]; done|]); (split; [eapply in_range_weaken; [..|exact Hb]; done|done]).
  - exists a, (String b (String c (String d ""))). rewrite !orb_true_iff, !andb_true_iff in Hm. simpl.
    assert (in_range 194 244 a = true ∧ cont b = true ∧ cont c = true ∧ cont d = true) as (-> & -> & -> & ->); [|done].
    destruct Hm as [[[[[Ha Hb] Hc] Hd]|[[[Ha Hb] Hc] Hd]]|[[[Ha Hb] Hc] Hd]];
      (split; [eapply in_range_weaken; [..|exact Ha]; done|]); (split; [eapply in_range_weaken; [..|exact Hb]; done|done]).
Qed.

Lemma multi_app m s : multi m = true → ValidString (m +:+ s) = ValidString s.
Proof.
  unfold multi. destruct m as [|a [|b [|c [|d [|]]]]]; try done; intros Hm.
  - apply andb_true_iff in Hm as [Ha Hb]. simpl. rewrite Hb, Ha.
    by rewrite (in_range_disjoint 194 223 0 127 a) by (done || lia).
  - simpl. rewrite Hm.
    assert (in_range 0 127 a = false ∧ in_range 194 223 a = false) as [-> ->]; [|done].
    rewrite !orb_true_iff, !andb_true_iff in Hm.
    split; destruct Hm as [[[[[Ha _] _]|[[Ha _] _]]|[[Ha _] _]]|[[Ha _] _]];
      (eapply in_range_disjoint; [|exact Ha]; lia).
  - simpl. rewrite Hm.
    assert (in_range 0 127 a = false ∧ in_range 194 239 a = false) as [-> H3].
    { rewrite !orb_true_iff, !andb_true_iff in Hm.
      split; destruct Hm as [[[[[Ha _] _] _]|[[[Ha _] _] _]]|[[[Ha _] _] _]];
        (eapply in_range_disjoint; [|exact Ha]; lia). }
    assert (∀ lo hi, (194 ≤ lo)%N → (hi ≤ 239)%N → in_range lo hi a = false) as Hno.
    { intros lo hi Hlo Hhi. apply not_true_iff_false. intros Hin.
      apply (in_range_weaken lo hi 194 239) in Hin; [congruence|done|done]. }
    by rewrite !Hno by done.
Qed.

Lemma utf8_valid s : utf8 s ↔ ValidString s = true.
Proof.
  split.
  - induction 1 as [|c s Hc _ IH|m s Hm _ IH]; [done| |by rewrite multi_app].
    simpl. by rewrite Hc.
  - remember (String.length s) as n eqn:Hn. revert s Hn. induction (lt_wf n) as [n _ IH]. intros s -> Hv.
    destruct s as [|a s1]; [constructor|]. simpl in Hv. destruct (in_range 0 127 a) eqn:Ha.
    { constructor; [done|]. eapply IH; [|reflexivity|done]. simpl. lia. }
    destruct s1 as [|b s2]; [done|]. destruct (in_range 194 223 a && cont b) eqn:H2.
    { apply (utf8_multi (String a (String b "")) s2 H2). eapply IH; [|reflexivity|done]. simpl. lia. }
    destruct s2 as [|c s3]; [done|]. destruct (_ || _) eqn:H3 in Hv.
    { apply (utf8_multi (String a (String b (String c ""))) s3 H3). eapply IH; [|reflexivity|done]. simpl. lia. }
    destruct s3 as [|d s4]; [done|]. apply andb_true_iff in Hv as [H4 Hv].
    apply (utf8_multi (String a (String b (String c (String d "")))) s4 H4). eapply IH; [|reflexivity|done]. simpl. lia.
Qed.

Lemma utf8_app s t : utf8 s → utf8 t → utf8 (s +:+ t).
Proof.
  intros Hs Ht. induction Hs as [|c s Hc _ IH|m s Hm _ IH]; simpl; [done|by constructor|].
  rewrite str_app_assoc. by constructor.
Qed.

Lemma ascii_utf8 s : all_bytes (in_range 0 127) s = true → utf8 s.
Proof. induction s as [|c s IH]; simpl; [constructor|]. intros [? ?]%andb_true_iff. constructor; auto. Qed.

Lemma utf8_ascii_tail c s : in_range 0 127 c = true → utf8 (String c s) → utf8 s.
Proof.
  intros Hc Hs. inversion Hs as [|c' s' _ Hs' E|m s' Hm Hs' E]; subst; [done|exfalso].
  apply multi_cases in Hm as (a & t & -> & Ha & _). injection E as -> _. apply in_range_spec in Ha, Hc. lia.
Qed.

Lemma utf8_high c s :
  in_range 0 127 c = false → utf8 (String c s) → ∃ t s', s = t +:+ s' ∧ multi (String c t) = true ∧ utf8 s'.
Proof.
  intros Hc Hs. inversion Hs as [|c' s' Hc' _ E|m s' Hm Hs' E]; subst; [congruence|].
  destruct (multi_cases _ Hm) as (a & t & -> & _). injection E as -> <-. eauto.
Qed.

(** ** String literals *)
Definition no_nul (s : string) : bool := all_bytes (λ c, negb (is_char 0 c)) s.

Lemma all_bytes_app p s t : all_bytes p (s +:+ t) = all_bytes p s && all_bytes p t.
Proof. induction s as [|c s IH]; simpl; [done|]. by rewrite IH, andb_assoc. Qed.

Lemma is_char_spec n c : is_char n c = true ↔ N_of_ascii c = n.
Proof. apply N.eqb_eq. Qed.
Lemma is_char_range n lo hi c : in_range lo hi c = true → (n < lo ∨ hi < n)%N → is_char n c = false.
Proof. intros Hc%in_range_spec Hn. apply not_true_iff_false. rewrite is_char_spec. lia. Qed.

Lemma multi_high m : multi m = true → all_bytes high m = true.
Proof.
  intros (a & t & -> & Ha & _ & Ht)%multi_cases. simpl. apply andb_true_iff. split.
  - eapply in_range_weaken; [..|exact Ha]; done.
  - clear Ha. induction t as [|c t IH]; simpl in *; [done|]. apply andb_true_iff in Ht as [Hc Ht].
    rewrite IH by done. rewrite andb_true_r. eapply in_range_weaken; [..|exact Hc]; done.
Qed.

Lemma high_no_nul m : all_bytes high m = true → no_nul m = true.
Proof.
  unfold no_nul. induction m as [|c m IH]; simpl; [done|]. intros [Hc Hm]%andb_true_iff. rewrite IH by done.
  unfold high in Hc. by rewrite (is_char_range 0 128 255) by (done || lia).
Qed.

Lemma prepend_prepend a b x : prepend a (prepend b x) = prepend (a +:+ b) x.
Proof. destruct x as [[s r]|]; simpl; [|done]. by rewrite str_app_assoc. Qed.

Lemma parse_high c r : high c = true → parse_string false (String c r) = prepend (String c "") (parse_string false r).
Proof.
  unfold high. intros Hc. simpl. rewrite (is_char_range 34 128 255), (is_char_range 92 128 255) by (done || lia).
  by rewrite (in_range_disjoint 128 255 0 31) by (done || lia).
Qed.

Lemma parse_bytes m r : all_bytes high m = true → parse_string false (m +:+ r) = prepend m (parse_string false r).
Proof.
  induction m as [|c m IH]; simpl; [by destruct (parse_string false r) as [[]|]|].
  intros [Hc Hm]%andb_true_iff. pose proof (parse_high c (m +:+ r) Hc) as Hp. simpl in Hp.
  rewrite Hp, IH by done. by rewrite prepend_prepend.
Qed.

(** Characters that are spelled as escapes. *)
Definition line_separator : string := String (chr 226) (String (chr 128) (String (chr 168) "")).
Definition paragraph_separator : string := String (chr 226) (String (chr 128) (String (chr 169) "")).
Definition escape_char (m : string) : string :=
  if String.eqb m line_separator then "\u2028" else if String.eqb m paragraph_separator then "\u2029" else m.

Lemma escape_single c s : is_char 226 c = false → escape_string (String c s) = escape_byte c +:+ escape_string s.
Proof. intros Hc. destruct s as [|b [|d s]]; [done..|]. simpl. by rewrite Hc. Qed.

Lemma escape_high c : high c = true → escape_byte c = String c "".
Proof.
  unfold high. intros Hc. unfold escape_byte.
  by rewrite !(is_char_range _ 128 255), (in_range_disjoint 128 255 0 31) by (done || lia).
Qed.

Lemma escape_cont t s : all_bytes cont t = true → escape_string (t +:+ s) = t +:+ escape_string s.
Proof.
  induction t as [|c t IH]; [done|]. cbn [all_bytes]. intros [Hc Ht]%andb_true_iff.
  change (String c t +:+ s) with (String c (t +:+ s)). rewrite escape_single, escape_high, IH; [done|done|..].
  - eapply in_range_weaken; [..|exact Hc]; done.
  - by eapply is_char_range; [exact Hc|right].
Qed.

Lemma chr_of c n : is_char n c = true → c = chr n.
Proof. intros <-%is_char_spec. unfold chr. by rewrite Ascii.ascii_N_embedding. Qed.

Lemma escape_multi m s : multi m = true → escape_string (m +:+ s) = escape_char m +:+ escape_string s.
Proof.
  intros Hm. destruct (multi_cases m Hm) as (a & t & -> & Ha & Hne & Ht).
  destruct (is_char 226 a) eqn:E226.
  - apply chr_of in E226 as ->. destruct t as [|b [|c [|d t]]]; try done.
    + simpl in Ht. rewrite andb_true_r in Ht. apply andb_true_iff in Ht as [Hb Hc].
      assert (escape_string (String (chr 226) (String b (String c s))) =
        (if is_char 128 b && is_char 168 c then "\u2028" +:+ escape_string s
         else if is_char 128 b && is_char 169 c then "\u2029" +:+ escape_string s
         else String (chr 226) (escape_string (String b (String c s))))) as He by done.
      change (String (chr 226) (String b (String c "")) +:+ s) with (String (chr 226) (String b (String c s))).
      rewrite He. unfold escape_char.
      destruct (is_char 128 b && is_char 168 c) eqn:E1.
      { apply andb_true_iff in E1 as [->%chr_of ->%chr_of]. done. }
      destruct (is_char 128 b && is_char 169 c) eqn:E2.
      { apply andb_true_iff in E2 as [->%chr_of ->%chr_of]. done. }
      assert (escape_string (String b (String c s)) = String b (String c (escape_string s))) as ->
        by (apply (escape_cont (String b (String c "")) s); simpl; by rewrite Hb, Hc).
      destruct (String.eqb_spec (String (chr 226) (String b (String c ""))) line_separator) as [[= -> ->]|_]; [done|].
      destruct (String.eqb_spec (String (chr 226) (String b (String c ""))) paragraph_separator) as [[= -> ->]|_]; [done|].
      done.
    + simpl in Hm. destruct t; done.
  - change (String a t +:+ s) with (String a (t +:+ s)). rewrite escape_single by done.
    rewrite escape_high by (eapply in_range_weaken; [..|exact Ha]; done). rewrite escape_cont by done.
    unfold escape_char.
    destruct (String.eqb_spec (String a t) line_separator) as [[= -> _]|_]; [done|].
    by destruct (String.eqb_spec (String a t) paragraph_separator) as [[= -> _]|_].
Qed.

Lemma parse_escape_char m r :
  multi m = true → parse_string false (escape_char m +:+ r) = prepend m (parse_string false r).
Proof.
  intros Hm. unfold escape_char. destruct (String.eqb_spec m line_separator) as [->|_]; [done|].
  destruct (String.eqb_spec m paragraph_separator) as [->|_]; [done|]. by apply parse_bytes, multi_high.
Qed.

Lemma parse_escape_byte c r :
  in_range 0 127 c = true → is_char 0 c = false →
  parse_string false (escape_byte c +:+ r) = prepend (String c "") (parse_string false r).
Proof. destruct c as [[] [] [] [] [] [] [] []]; try done; intros _ _; reflexivity. Qed.

(** Decoding what the encoder wrote. *)
Lemma parse_escaped s r :
  utf8 s → no_nul s = true → parse_string false (escape_string s +:+ String quote r) = Some (s, r).
Proof.
  induction 1 as [|c s Hc Hs IH|m s Hm Hs IH]; intros Hn; [done|..].
  - unfold no_nul in Hn. simpl in Hn. apply andb_true_iff in Hn as [Hc0%negb_true_iff Hn].
    rewrite escape_single by (eapply is_char_range; [exact Hc|by right]).
    rewrite str_app_assoc, parse_escape_byte, IH by done. done.
  - unfold no_nul in Hn. rewrite all_bytes_app in Hn. apply andb_true_iff in Hn as [_ Hn].
    rewrite escape_multi, str_app_assoc, parse_escape_char, IH by done. done.
Qed.

(** ** Code points *)
Lemma chr_range n lo hi : (n < 256)%N → in_range lo hi (chr n) = true ↔ (lo ≤ n ≤ hi)%N.
Proof. intros Hn. rewrite in_range_spec. unfold chr. by rewrite Ascii.N_ascii_embedding. Qed.

Lemma byte_in n lo hi : (lo ≤ n)%N → (n ≤ hi)%N → (hi < 256)%N → in_range lo hi (chr n) = true.
Proof. intros. apply chr_range; lia. Qed.

Lemma utf8_encode_ok n :
  (n < 1114112)%N → ¬ (55296 ≤ n ≤ 57343)%N → utf8 (utf8_encode n) ∧ (n ≠ 0%N → no_nul (utf8_encode n) = true).
Proof.
  intros Hn Hs. unfold utf8_encode.
  assert (∀ m, multi m = true → utf8 m ∧ (n ≠ 0%N → no_nul m = true)) as Hmulti.
  { intros m Hm. split; [|by intros; apply high_no_nul, multi_high]. rewrite <- (str_app_nil m). by repeat constructor. }
  assert (n / 4096 = n / 64 / 64)%N as -> by (by rewrite N.Div0.div_div).
  assert (n / 262144 = n / 64 / 64 / 64)%N as -> by (by rewrite !N.Div0.div_div).
  pose proof (N.mod_lt n 64 ltac:(done)) as H1. pose proof (N.div_mod' n 64) as D1.
  pose proof (N.mod_lt (n / 64) 64 ltac:(done)) as H2. pose proof (N.div_mod' (n / 64) 64) as D2.
  pose proof (N.mod_lt (n / 64 / 64) 64 ltac:(done)) as H3. pose proof (N.div_mod' (n / 64 / 64) 64) as D3.
  destruct (N.ltb_spec n 128) as [H0|H0].
  { split; [constructor; [by apply chr_range; lia|constructor]|]. intros Hne. unfold no_nul. simpl.
    rewrite andb_true_r. apply negb_true_iff, not_true_iff_false. rewrite is_char_spec. unfold chr.
    rewrite Ascii.N_ascii_embedding; lia. }
  revert D1 H1 D2 H2 D3 H3. generalize (n mod 64)%N (n / 64)%N. intros c q1.
  generalize (q1 mod 64)%N (q1 / 64)%N. intros b q2. generalize (q2 mod 64)%N (q2 / 64)%N. intros b2 q3 D1 H1 D2 H2 D3 H3.
  destruct (N.ltb_spec n 2048) as [H8|H8].
  { apply Hmulti. simpl. unfold cont. by rewrite !byte_in by lia. }
  destruct (N.ltb_spec n 65536) as [H16|H16]; apply Hmulti; simpl; unfold cont.
  - rewrite !(byte_in _ 128 191) by lia. rewrite !andb_true_r.
    assert (q2 = 0 ∨ 1 ≤ q2 ≤ 12 ∨ q2 = 13 ∨ 14 ≤ q2 ≤ 15)%N as [->|[Hq|[->|Hq]]] by lia; rewrite ?orb_true_iff.
    + left; left; left. by rewrite !byte_in by lia.
    + left; left; right. by rewrite byte_in by lia.
    + left; right. by rewrite !byte_in by lia.
    + right. by rewrite byte_in by lia.
  - rewrite !(byte_in (128 + b)), !(byte_in (128 + c)) by lia. rewrite !andb_true_r.
    assert (q3 = 0 ∨ 1 ≤ q3 ≤ 3 ∨ q3 = 4)%N as [->|[Hq| ->]] by lia; rewrite ?orb_true_iff.
    + left; left. by rewrite !byte_in by lia.
    + left; right. by rewrite !byte_in by lia.
    + right. by rewrite !byte_in by lia.
Qed.

Lemma hex_digit_bound c n : hex_digit c = Some n → (n < 16)%N ∧ in_range 0 127 c = true.
Proof.
  unfold hex_digit. intros Hd. rewrite in_range_spec. revert Hd.
  repeat (destruct (_ && _)%bool eqn:E; [apply andb_true_iff in E as [?%N.leb_le ?%N.leb_le]; intros [= <-]; lia|clear E]).
  done.
Qed.

Lemma hex4_bound a b c d n :
  hex4 a b c d = Some n → (n < 65536)%N ∧
  in_range 0 127 a = true ∧ in_range 0 127 b = true ∧ in_range 0 127 c = true ∧ in_range 0 127 d = true.
Proof.
  unfold hex4. destruct (hex_digit a) as [x|] eqn:Ha; [|done]. destruct (hex_digit b) as [y|] eqn:Hb; [|done].
  destruct (hex_digit c) as [z|] eqn:Hc; [|done]. destruct (hex_digit d) as [t|] eqn:Hd; [|done].
  apply hex_digit_bound in Ha as [? ?], Hb as [? ?], Hc as [? ?], Hd as [? ?]. intros [= <-]. split; [lia|done].
Qed.

(** What a string literal decodes to is text without U+0000. *)
Definition plain (s : string) : Prop := utf8 s ∧ no_nul s = true.

Lemma plain_app s t : plain s → plain t → plain (s +:+ t).
Proof. intros [Hs Ns] [Ht Nt]. split; [by apply utf8_app|]. unfold no_nul in *. by rewrite all_bytes_app, Ns, Nt. Qed.

Lemma prepend_some p x v r : prepend p x = Some (v, r) → ∃ v', x = Some (v', r) ∧ v = p +:+ v'.
Proof. destruct x as [[v' r']|]; simpl; [|done]. intros [= <- <-]. eauto. Qed.

Lemma code_plain n : (n < 1114112)%N → ¬ (55296 ≤ n ≤ 57343)%N → n ≠ 0%N → plain (utf8_encode n).
Proof. intros Hn Hs H0. destruct (utf8_encode_ok n Hn Hs). split; auto. Qed.

Lemma simple_escape_plain e b : simple_escape e = Some b → plain (String b "") ∧ in_range 0 127 e = true.
Proof.
  destruct e as [[] [] [] [] [] [] [] []]; try done; intros [= <-];
    (split; [split; [by repeat constructor|done]|done]).
Qed.

Lemma is_char_ascii n c : (n ≤ 127)%N → is_char n c = true → in_range 0 127 c = true.
Proof. intros Hn Hc%is_char_spec. apply in_range_spec. lia. Qed.

Lemma parse_string_plain n s v r :
  String.length s ≤ n → utf8 s → parse_string false s = Some (v, r) → plain v ∧ utf8 r.
Proof.
  revert s v r. induction n as [|n IH]; intros s v r Hn Hs Hp; (destruct s as [|c s1]; [done|]); simpl in Hn; [lia|].
  destruct (in_range 0 127 c) eqn:Hc.
  2: { destruct (utf8_high c s1 Hc Hs) as (t & s' & -> & Hm & Hs').
    change (String c (t +:+ s')) with (String c t +:+ s') in Hp.
    rewrite parse_bytes in Hp by (by apply multi_high). apply prepend_some in Hp as (v' & Hp & ->).
    destruct (IH s' v' r) as [Hv Hr]; [rewrite str_app_length in Hn; lia|done|done|]. split; [|done].
    apply plain_app; [|done]. split; [|by apply high_no_nul, multi_high].
    rewrite <- (str_app_nil (String c t)). by repeat constructor. }
  apply utf8_ascii_tail in Hs; [|done]. simpl in Hp.
  destruct (is_char 34 c). { injection Hp as <- <-. by split; [split; [constructor|]|]. }
  destruct (is_char 92 c).
  - destruct s1 as [|e r1]; [done|]. destruct (is_char 117 e) eqn:Hu.
    + apply utf8_ascii_tail in Hs; [|by apply (is_char_ascii 117)].
      destruct r1 as [|h1 [|h2 [|h3 [|h4 r2]]]]; try done.
      destruct (hex4 h1 h2 h3 h4) as [x|] eqn:Hx; [|done]. apply hex4_bound in Hx as (Hx & ? & ? & ? & ?).
      do 4 (apply utf8_ascii_tail in Hs; [|done]). rewrite andb_true_r in Hp.
      destruct (N.eqb_spec x 0) as [|Hx0]; [done|].
      destruct ((55296 <=? x) && (x <=? 56319))%N eqn:Hhi.
      * destruct r2 as [|b [|u [|l1 [|l2 [|l3 [|l4 r3]]]]]]; try done.
        destruct (is_char 92 b && is_char 117 u) eqn:Hbu; [|done]. apply andb_true_iff in Hbu as [Hb Hu2].
        destruct (hex4 l1 l2 l3 l4) as [y|] eqn:Hy; [|done]. apply hex4_bound in Hy as (Hy & ? & ? & ? & ?).
        destruct ((56320 <=? y) && (y <=? 57343))%N eqn:Hlo; [|done].
        apply andb_true_iff in Hhi as [?%N.leb_le ?%N.leb_le], Hlo as [?%N.leb_le ?%N.leb_le].
        apply utf8_ascii_tail in Hs; [|by apply (is_char_ascii 92)].
        apply utf8_ascii_tail in Hs; [|by apply (is_char_ascii 117)].
        do 4 (apply utf8_ascii_tail in Hs; [|done]). apply prepend_some in Hp as (v' & Hp & ->).
        destruct (IH r3 v' r) as [Hv Hr]; [simpl in Hn; lia|done|done|]. split; [|done].
        apply plain_app; [|done]. apply code_plain; lia.
      * destruct ((56320 <=? x) && (x <=? 57343))%N eqn:Hlo; [done|]. apply prepend_some in Hp as (v' & Hp & ->).
        destruct (IH r2 v' r) as [Hv Hr]; [simpl in Hn; lia|done|done|]. split; [|done].
        apply plain_app; [|done]. apply code_plain; [lia| |done].
        apply andb_false_iff in Hhi as [?%N.leb_gt|?%N.leb_gt], Hlo as [?%N.leb_gt|?%N.leb_gt]; lia.
    + destruct (simple_escape e) as [b|] eqn:He; [|done]. apply simple_escape_plain in He as [Hb He].
      apply utf8_ascii_tail in Hs; [|done]. apply prepend_some in Hp as (v' & Hp & ->).
      destruct (IH r1 v' r) as [Hv Hr]; [simpl in Hn; lia|done|done|]. split; [by apply plain_app|done].
  - destruct (in_range 0 31 c) eqn:Hctl; [done|]. apply prepend_some in Hp as (v' & Hp & ->).
    destruct (IH s1 v' r) as [Hv Hr]; [lia|done|done|]. split; [|done]. apply (plain_app (String c "")); [|done].
    split; [by repeat constructor|]. unfold no_nul. simpl. rewrite andb_true_r. apply negb_true_iff, not_true_iff_false.
    intros H0%is_char_spec. apply not_true_iff_false in Hctl. apply Hctl, in_range_spec. lia.
Qed.

(** ** Number literals *)
Definition starts (p : ascii → bool) (s : string) : bool :=
  match s with String c _ => p c | EmptyString => false end.
Definition digits (d : string) : Prop := d ≠ "" ∧ all_bytes is_digit d = true.

Definition int_lit (i : string) : Prop := i = "0" ∨ (digits i ∧ starts (is_char 48) i = false).
Definition frac_lit (f : string) : Prop := f = "" ∨ ∃ d, f = String (chr 46) d ∧ digits d.
Definition exp_lit (x : string) : Prop :=
  x = "" ∨ ∃ e sg d, x = String e (sg +:+ d) ∧ (is_char 101 e || is_char 69 e) = true ∧
                     (sg = "" ∨ sg = "+" ∨ sg = "-") ∧ digits d.
Inductive num_lit : string → Prop :=
  | num_lit_intro m i f x :
      (m = "" ∨ m = "-") → int_lit i → frac_lit f → exp_lit x → num_lit (m +:+ i +:+ f +:+ x).

(** What may follow a literal so that it is read as it is. *)
Definition stops (s : string) : bool :=
  negb (starts (λ c, is_digit c || is_char 46 c || is_char 101 c || is_char 69 c) s).

Lemma take_digits_app d r :
  all_bytes is_digit d = true → starts is_digit r = false → take_digits (d +:+ r) = (d, r).
Proof.
  induction d as [|c d IH]; simpl; intros Hd Hr.
  - destruct r as [|c r]; simpl in *; [done|]. by rewrite Hr.
  - apply andb_true_iff in Hd as [Hc Hd]. rewrite Hc. by rewrite IH.
Qed.

Lemma take_digits_split s :
  s = (take_digits s).1 +:+ (take_digits s).2 ∧ all_bytes is_digit (take_digits s).1 = true ∧
  starts is_digit (take_digits s).2 = false.
Proof.
  induction s as [|c s (H1 & H2 & H3)]; simpl; [done|]. destruct (is_digit c) eqn:Hc; simpl; [|done].
  rewrite Hc. split; [by rewrite <- H1|done].
Qed.

Lemma digits1_app d r : digits d → starts is_digit r = false → digits1 (d +:+ r) = Some (d, r).
Proof. intros [Hne Hd] Hr. unfold digits1. rewrite take_digits_app by done. simpl. by rewrite str_empty_ne. Qed.

Lemma digits1_sound s d r : digits1 s = Some (d, r) → s = d +:+ r ∧ digits d ∧ starts is_digit r = false.
Proof.
  unfold digits1. destruct (take_digits_split s) as (H1 & H2 & H3). destruct (take_digits s) as [d' r']. simpl in *.
  destruct (str_empty d') eqn:He; [done|]. intros [= <- <-]. split; [done|]. split; [|done]. split; [|done]. intros Hd. by rewrite Hd in He.
Qed.

Lemma not_digit n c : is_char n c = true → (n < 48 ∨ 57 < n)%N → is_digit c = false.
Proof. intros Hc%is_char_spec Hn. apply not_true_iff_false. intros Hd%in_range_spec. lia. Qed.

Lemma digit_head d r : digits d → starts is_digit (d +:+ r) = true.
Proof. intros [Hne Hd]. destruct d as [|c d]; [done|]. by apply andb_true_iff in Hd as [? _]. Qed.

Lemma frac_stop f x r : frac_lit f → exp_lit x → stops r = true → starts is_digit (f +:+ x +:+ r) = false.
Proof.
  assert (∀ y, exp_lit y → stops r = true → starts is_digit (y +:+ r) = false) as Hexp.
  { intros y [->|(e & sg & d & -> & He & _)] Hr; simpl.
    - unfold stops in Hr. apply negb_true_iff in Hr. destruct r as [|c r]; simpl in *; [done|].
      rewrite !orb_false_iff in Hr. apply Hr.
    - apply orb_true_iff in He as [He|He]; eapply not_digit; try exact He; lia. }
  intros [->|(d & -> & Hd)] Hx Hr; simpl; [by apply Hexp|]. done.
Qed.

Lemma exp_stop x r : exp_lit x → stops r = true → starts is_digit (x +:+ r) = false.
Proof. intros Hx Hr. apply (frac_stop ""); [by left|done..]. Qed.

Lemma take_int_app i r : int_lit i → starts is_digit r = false → take_int (i +:+ r) = Some (i, r).
Proof.
  intros [->|[Hd Hz]] Hr; [done|]. rewrite <- (digits1_app i r) by done. destruct Hd as [Hne _].
  destruct i as [|c i]; [done|]. simpl in *. by rewrite Hz.
Qed.

Lemma take_frac_app f x r : frac_lit f → exp_lit x → stops r = true → take_frac (f +:+ x +:+ r) = Some (f, x +:+ r).
Proof.
  intros [->|(d & -> & Hd)] Hx Hr; simpl.
  - assert (starts (is_char 46) (x +:+ r) = false) as Hs.
    { destruct Hx as [->|(e & sg & d & -> & He & _)]; simpl.
      - unfold stops in Hr. apply negb_true_iff in Hr. destruct r as [|c r]; simpl in *; [done|].
        rewrite !orb_false_iff in Hr. apply Hr.
      - apply not_true_iff_false. intros Hc%is_char_spec.
        apply orb_true_iff in He as [He%is_char_spec|He%is_char_spec]; congruence. }
    destruct (x +:+ r) as [|c s]; [done|]. simpl in *. by rewrite Hs.
  - rewrite digits1_app; [done|done|]. by apply exp_stop.
Qed.

Lemma take_exp_app x r : exp_lit x → stops r = true → take_exp (x +:+ r) = Some (x, r).
Proof.
  intros Hx Hr. assert (starts is_digit r = false) as Hdr by (apply (exp_stop ""); [by left|done]).
  destruct Hx as [->|(e & sg & d & -> & He & Hsg & Hd)]; simpl.
  - unfold stops in Hr. apply negb_true_iff in Hr. destruct r as [|c r]; simpl in *; [done|].
    rewrite !orb_false_iff in Hr. destruct Hr as [[_ H1] H2]. by rewrite H1, H2.
  - rewrite He, str_app_assoc.
    assert (take_sign (sg +:+ d +:+ r) = (sg, d +:+ r)) as ->.
    { destruct Hsg as [->|[->| ->]]; [|done..]. simpl. pose proof (digit_head d r Hd) as Hh.
      destruct (d +:+ r) as [|c s]; [done|]. simpl in *.
      destruct (is_char 43 c || is_char 45 c) eqn:E; [|done]. exfalso.
      apply orb_true_iff in E as [E|E]; rewrite (not_digit _ _ E) in Hh by lia; done. }
    simpl. by rewrite digits1_app.
Qed.

Lemma parse_number_app l r : num_lit l → stops r = true → parse_number (l +:+ r) = Some (l, r).
Proof.
  intros [m i f x Hm Hi Hf Hx] Hr. unfold parse_number. rewrite !str_app_assoc.
  assert (take_minus (m +:+ i +:+ f +:+ x +:+ r) = (m, i +:+ f +:+ x +:+ r)) as ->.
  { destruct Hm as [->| ->]; [|done]. simpl. destruct i as [|c i]; [by destruct Hi as [?|[[? _] _]]|]. simpl.
    destruct (is_char 45 c) eqn:E; [|done]. exfalso. destruct Hi as [[= -> _]|[[_ Hd] _]]; [done|].
    simpl in Hd. rewrite (not_digit 45 c E) in Hd by lia. done. }
  simpl. rewrite take_int_app by (done || by apply frac_stop). simpl.
  rewrite take_frac_app by done. simpl. by rewrite take_exp_app.
Qed.

Lemma parse_number_sound s l r : parse_number s = Some (l, r) → s = l +:+ r ∧ num_lit l.
Proof.
  unfold parse_number. intros Hp.
  assert (s = (take_minus s).1 +:+ (take_minus s).2 ∧ ((take_minus s).1 = "" ∨ (take_minus s).1 = "-")) as [Es Hm].
  { destruct s as [|c s]; simpl; [auto|]. destruct (is_char 45 c) eqn:E; simpl; [|auto]. apply chr_of in E as ->. auto. }
  destruct (take_minus s) as [m s1]. simpl in *.
  destruct (take_int s1) as [[i s2]|] eqn:Hi; [|done]. simpl in Hp.
  assert (s1 = i +:+ s2 ∧ int_lit i) as [Es1 Li].
  { destruct s1 as [|c s1]; [done|]. simpl in Hi. destruct (is_char 48 c) eqn:E.
    - injection Hi as <- <-. apply chr_of in E as ->. split; [done|by left].
    - apply digits1_sound in Hi as (Es1 & Hd & _). split; [done|]. right. split; [done|].
      destruct i as [|c' i]; [by destruct Hd|]. simpl in *. by injection Es1 as <- _. }
  destruct (take_frac s2) as [[f s3]|] eqn:Hf; [|done]. simpl in Hp.
  assert (s2 = f +:+ s3 ∧ frac_lit f) as [Es2 Lf].
  { destruct s2 as [|c s2]; simpl in Hf; [injection Hf as <- <-; split; [done|by left]|].
    destruct (is_char 46 c) eqn:E; [|injection Hf as <- <-; split; [done|by left]]. apply chr_of in E as ->.
    destruct (digits1 s2) as [[d r']|] eqn:Hd; [|done]. injection Hf as <- <-.
    apply digits1_sound in Hd as (-> & Hd & _). split; [done|]. right. eauto. }
  destruct (take_exp s3) as [[x s4]|] eqn:Hx; [|done]. simpl in Hp. injection Hp as <- <-.
  assert (s3 = x +:+ s4 ∧ exp_lit x) as [Es3 Lx].
  { destruct s3 as [|c s3]; simpl in Hx; [injection Hx as <- <-; split; [done|by left]|].
    destruct (is_char 101 c || is_char 69 c) eqn:E; [|injection Hx as <- <-; split; [done|by left]].
    assert (s3 = (take_sign s3).1 +:+ (take_sign s3).2 ∧
      ((take_sign s3).1 = "" ∨ (take_sign s3).1 = "+" ∨ (take_sign s3).1 = "-")) as [Esg Lsg].
    { destruct s3 as [|c' s3]; simpl; [auto|]. destruct (is_char 43 c' || is_char 45 c') eqn:E'; simpl; [|auto].
      split; [done|]. by apply orb_true_iff in E' as [->%chr_of| ->%chr_of]; auto. }
    destruct (take_sign s3) as [sg s5]. simpl in *. destruct (digits1 s5) as [[d r']|] eqn:Hd; [|done].
    injection Hx as <- <-. apply digits1_sound in Hd as (-> & Hd & _). rewrite Esg. simpl.
    split; [by rewrite str_app_assoc|]. right. exists c, sg, d. done. }
  split; [|by constructor]. rewrite Es, Es1, Es2, Es3. by rewrite !str_app_assoc.
Qed.

Lemma num_lit_bytes l : num_lit l → all_bytes (in_range 0 127) l = true.
Proof.
  assert (∀ d, all_bytes is_digit d = true → all_bytes (in_range 0 127) d = true) as Hd.
  { induction d as [|c d IH]; simpl; [done|]. intros [Hc Hd]%andb_true_iff. rewrite IH by done.
    unfold is_digit in Hc. by rewrite (in_range_weaken 48 57 0 127 c). }
  intros [m i f x Hm Hi Hf Hx]. rewrite !all_bytes_app, !andb_true_iff. repeat split.
  - by destruct Hm as [->| ->].
  - destruct Hi as [->|[[_ Hi] _]]; [done|by apply Hd].
  - destruct Hf as [->|(d & -> & _ & Hf)]; [done|]. simpl. by apply Hd.
  - destruct Hx as [->|(e & sg & d & -> & He & Hs & _ & Hx)]; [done|]. simpl. rewrite all_bytes_app, (Hd d Hx).
    assert (in_range 0 127 e = true) as -> by (apply orb_true_iff in He as [He|He]; by eapply is_char_ascii; [|exact He]).
    by destruct Hs as [->|[->| ->]].
Qed.

Lemma num_lit_head l r : num_lit l → starts (λ c, is_digit c || is_char 45 c) (l +:+ r) = true.
Proof.
  intros [m i f x Hm Hi _ _]. rewrite !str_app_assoc. destruct Hm as [->| ->]; [|done].
  destruct Hi as [->|[Hd _]]; [done|]. simpl. destruct Hd as [Hne Hd]. destruct i as [|c i]; [done|].
  simpl in *. apply andb_true_iff in Hd as [-> _]. done.
Qed.
