(* ===== verification/ClientPayload.v ===== *)
(** * ClientPayload: revisioned updates of a job's opaque client state

    [clientpayload/payload.go]: validation of updates, compare-and-swap on the
    revision, JSON merge patch, and the canonical text behind payload digests. *)

From S2P Require Import Prelude Types Json.

(** [Update]; a missing [Value] is distinct from a present JSON null. *)
Record Update := mkUpdate {
  u_Mode : string;
  u_Value : option string;
  u_ExpectedRevision : option Z
}.

(** [ValidateUpdate] *)
Definition ValidateUpdate (u : option Update) (initial : bool) : result () :=
  match u with
  | None => Ok tt
  | Some u =>
      let? _ := (if initial
        then guard_err (bool_decide (u_ExpectedRevision u = None)) ErrInvalidPayload
        else guard_err (match u_ExpectedRevision u with Some r => (0 <=? r)%Z | None => false end)
               ErrInvalidPayload) in
      let? _ := (if String.eqb (u_Mode u) "patch"
        then guard_err (bool_decide (u_Value u ≠ None)) ErrInvalidPayload
        else guard_err (String.eqb (u_Mode u) "reset") ErrInvalidPayload) in
      match u_Value u with
      | Some raw => let? _ := parse raw in Ok tt
      | None => Ok tt
      end
  end.

(** [merge]: RFC 7396.  The loop ranges over the patch's map; a missing member of
    the target is Go's [nil], the same as a JSON null. *)
Definition members_of (v : json) : list (string * json) :=
  match v with JObj l => l | _ => [] end.
Definition member (k : string) (l : list (string * json)) : json := default JNull (obj_get k l).
Definition is_null (v : json) : bool := match v with JNull => true | _ => false end.

Fixpoint merge (target patch : json) {struct patch} : json :=
  match patch with
  | JObj obj =>
      JObj ((fix go (obj dst : list (string * json)) : list (string * json) :=
        match obj with
        | [] => dst
        | (k, v) :: obj =>
            go obj (if is_null v then obj_del k dst else obj_set k (merge (member k dst) v) dst)
        end) obj (members_of target))
  | _ => patch
  end.

(** One round of the loop, and the loop in the order [obj] lists the entries. *)
Definition merge_entry (dst : list (string * json)) (kv : string * json) : list (string * json) :=
  if is_null kv.2 then obj_del kv.1 dst else obj_set kv.1 (merge (member kv.1 dst) kv.2) dst.
Definition merge_loop (dst obj : list (string * json)) : list (string * json) :=
  foldl merge_entry dst obj.

(** [applyValue] *)
Definition applyValue (current : option string) (u : Update) : result (option string) :=
  if String.eqb (u_Mode u) "reset" then Ok (u_Value u)
  else
    let? patch := parse (default "" (u_Value u)) in
    let? target := match current with Some raw => parse raw | None => Ok JNull end in
    let out := Marshal (merge target patch) in
    let? _ := parse out in Ok (Some out).

(** [Apply] *)
Definition Apply (current : option string) (revision : Z) (u : option Update)
    : result (option string * Z) :=
  let? _ := ValidateUpdate u false in
  match u with
  | None => Ok (current, revision)
  | Some u =>
      let? _ := guard_err (bool_decide (u_ExpectedRevision u = Some revision)) ErrConflict in
      let? _ := guard_err (bool_decide (revision ≠ MaxInt64)) ErrConflict in
      let? value := applyValue current u in
      Ok (value, (revision + 1)%Z)
  end.

(** [Initial] *)
Definition Initial (u : option Update) : result (option string * Z) :=
  let? _ := ValidateUpdate u true in
  match u with
  | None => Ok (None, 0%Z)
  | Some u =>
      let? value := applyValue None u in
      match value with
      | None => Ok (None, 0%Z)
      | Some v => Ok (Some v, 1%Z)
      end
  end.

(** ** Entry lists as maps *)
Definition key_lt (a b : string) : Prop := str_le a b ∧ a ≠ b.
Fixpoint keys_sorted (l : list (string * json)) : Prop :=
  match l with
  | [] => True
  | (k, _) :: l => Forall (λ kv, key_lt k kv.1) l ∧ keys_sorted l
  end.

Lemma key_lt_trans a b c : key_lt a b → key_lt b c → key_lt a c.
Proof.
  intros [H1 H2] [H3 H4]. split; [by etrans|]. intros ->. apply H2. by apply (anti_symm str_le).
Qed.

Lemma key_lt_not_le a b : a ≠ b → str_leb a b = false → key_lt b a.
Proof.
  intros Hne Hle. split; [|congruence]. destruct (total str_le a b) as [H|H]; [|done].
  unfold str_le in H. congruence.
Qed.

Lemma obj_get_above k l : Forall (λ kv : string * json, key_lt k kv.1) l → obj_get k l = None.
Proof.
  induction 1 as [|[k' v'] l [_ Hk] HF IH]; simpl; [done|].
  simpl in Hk. by destruct (String.eqb_spec k k').
Qed.

Lemma obj_set_above b k v l :
  key_lt b k → Forall (λ kv : string * json, key_lt b kv.1) l →
  Forall (λ kv : string * json, key_lt b kv.1) (obj_set k v l).
Proof.
  intros Hb. induction 1 as [|[k' v'] l Hk HF IH]; simpl; [by constructor|].
  destruct (String.eqb k k'); [by constructor|].
  destruct (str_leb k k'); constructor; try done. by constructor.
Qed.

Lemma obj_set_sorted k v l : keys_sorted l → keys_sorted (obj_set k v l).
Proof.
  induction l as [|[k' v'] l IH]; simpl; [done|]. intros [Hk Hs].
  destruct (String.eqb_spec k k') as [->|Hne]; [done|].
  destruct (str_leb k k') eqn:Hle; simpl.
  - split; [|done]. constructor; [done|]. eapply Forall_impl; [exact Hk|].
    intros [k0 v0] H0. eapply key_lt_trans; [|exact H0]. done.
  - split; [|by apply IH]. apply obj_set_above; [by apply key_lt_not_le|done].
Qed.

Lemma obj_del_above b k l :
  Forall (λ kv : string * json, key_lt b kv.1) l →
  Forall (λ kv : string * json, key_lt b kv.1) (obj_del k l).
Proof.
  induction 1 as [|[k' v'] l Hk HF IH]; simpl; [done|]. destruct (String.eqb k k'); [done|by constructor].
Qed.

Lemma obj_del_sorted k l : keys_sorted l → keys_sorted (obj_del k l).
Proof.
  induction l as [|[k' v'] l IH]; simpl; [done|]. intros [Hk Hs].
  destruct (String.eqb k k'); [done|]. simpl. split; [by apply obj_del_above|by apply IH].
Qed.

Lemma obj_get_set k k' v l : obj_get k' (obj_set k v l) = if String.eqb k' k then Some v else obj_get k' l.
Proof.
  induction l as [|[k0 v0] l IH]; simpl; [done|].
  destruct (String.eqb_spec k k0) as [->|Hne]; simpl.
  - by destruct (String.eqb k' k0).
  - destruct (str_leb k k0); simpl; [done|]. rewrite IH.
    destruct (String.eqb_spec k' k0) as [->|]; [|done].
    by destruct (String.eqb_spec k0 k); [congruence|].
Qed.

Lemma obj_get_del k k' l :
  keys_sorted l → obj_get k' (obj_del k l) = if String.eqb k' k then None else obj_get k' l.
Proof.
  induction l as [|[k0 v0] l IH]; simpl; [by destruct (String.eqb k' k)|]. intros [Hk Hs].
  destruct (String.eqb_spec k k0) as [->|Hne]; simpl.
  - destruct (String.eqb_spec k' k0) as [->|]; [|done]. by apply obj_get_above.
  - rewrite IH by done. destruct (String.eqb_spec k' k0) as [->|]; [|done].
    by destruct (String.eqb_spec k0 k); [congruence|].
Qed.

(** Sorted entry lists are determined by their lookups. *)
Lemma obj_ext l1 l2 :
  keys_sorted l1 → keys_sorted l2 → (∀ k, obj_get k l1 = obj_get k l2) → l1 = l2.
Proof.
  revert l2. induction l1 as [|[k1 v1] l1 IH]; intros [|[k2 v2] l2] Hs1 Hs2 Hget; [done|..].
  - specialize (Hget k2). simpl in Hget. by rewrite String.eqb_refl in Hget.
  - specialize (Hget k1). simpl in Hget. by rewrite String.eqb_refl in Hget.
  - destruct Hs1 as [Ha1 Hs1], Hs2 as [Ha2 Hs2]. simpl in *.
    assert (k1 = k2) as ->.
    { pose proof (Hget k1) as H1. pose proof (Hget k2) as H2. rewrite String.eqb_refl in H1, H2.
      destruct (String.eqb_spec k1 k2) as [|Hne]; [done|exfalso].
      destruct (String.eqb_spec k2 k1) as [|_]; [done|].
      assert (∀ k v l, obj_get k l = Some v → Exists (λ kv : string * json, kv.1 = k) l) as Hex.
      { clear. intros k v l. induction l as [|[k0 v0] l IH]; simpl; [done|].
        destruct (String.eqb_spec k k0) as [->|]; [by left|]. intros. right. auto. }
      symmetry in H1. apply Hex in H1, H2.
      apply Exists_exists in H1 as ([? ?] & Hin1 & E1), H2 as ([? ?] & Hin2 & E2). simpl in *. subst.
      rewrite Forall_forall in Ha1, Ha2. apply Ha2 in Hin1 as [Hle1 _]. apply Ha1 in Hin2 as [Hle2 _].
      simpl in *. apply Hne. by apply (anti_symm str_le). }
    assert (v1 = v2) as ->.
    { specialize (Hget k2). rewrite String.eqb_refl in Hget. congruence. }
    f_equal. apply IH; [done|done|]. intros k. specialize (Hget k).
    destruct (String.eqb_spec k k2) as [Heq|_]; [|done]. subst k. by rewrite !obj_get_above.
Qed.

(** ** Merging *)
Lemma merge_obj t obj : merge t (JObj obj) = JObj (merge_loop (members_of t) obj).
Proof.
  simpl. f_equal. unfold merge_loop. generalize (members_of t).
  induction obj as [|[k v] obj IH]; intros dst; simpl; [done|]. by rewrite IH.
Qed.

Lemma merge_entry_sorted dst kv : keys_sorted dst → keys_sorted (merge_entry dst kv).
Proof.
  intros Hs. unfold merge_entry. destruct (is_null kv.2); [by apply obj_del_sorted|by apply obj_set_sorted].
Qed.

Lemma merge_loop_sorted obj dst : keys_sorted dst → keys_sorted (merge_loop dst obj).
Proof.
  revert dst. induction obj as [|kv obj IH]; intros dst Hs; simpl; [done|].
  by apply IH, merge_entry_sorted.
Qed.

(** What a member of the result is. *)
Definition merged_member (dst obj : list (string * json)) (k : string) : option json :=
  match obj_get k obj with
  | None => obj_get k dst
  | Some v => if is_null v then None else Some (merge (member k dst) v)
  end.

Lemma merge_entry_get dst kv k :
  keys_sorted dst →
  obj_get k (merge_entry dst kv) =
    if String.eqb k kv.1 then (if is_null kv.2 then None else Some (merge (member k dst) kv.2))
    else obj_get k dst.
Proof.
  intros Hs. unfold merge_entry. destruct (is_null kv.2).
  - by rewrite obj_get_del.
  - rewrite obj_get_set. by destruct (String.eqb_spec k kv.1) as [->|].
Qed.

Lemma obj_get_none_nodup k v obj : NoDup ((k, v) :: obj).*1 → obj_get k obj = None.
Proof.
  rewrite fmap_cons, NoDup_cons. simpl. intros [Hk _]. induction obj as [|[k' v'] obj IH]; simpl in *; [done|].
  destruct (String.eqb_spec k k') as [->|]; [set_solver|]. apply IH. set_solver.
Qed.

Lemma merge_loop_get obj dst k :
  keys_sorted dst → NoDup obj.*1 → obj_get k (merge_loop dst obj) = merged_member dst obj k.
Proof.
  revert dst. induction obj as [|[k0 v0] obj IH]; intros dst Hs Hnd; [done|].
  pose proof (obj_get_none_nodup k0 v0 obj Hnd) as Hk0.
  rewrite fmap_cons in Hnd. apply NoDup_cons in Hnd as [_ Hnd].
  change (merge_loop dst ((k0, v0) :: obj)) with (merge_loop (merge_entry dst (k0, v0)) obj).
  rewrite IH; [|by apply merge_entry_sorted|done]. unfold merged_member. simpl.
  destruct (String.eqb_spec k k0) as [->|Hne].
  - rewrite Hk0, merge_entry_get by done. simpl. by rewrite String.eqb_refl.
  - unfold member. rewrite merge_entry_get by done. simpl.
    by destruct (String.eqb_spec k k0) as [?|?].
Qed.

Lemma obj_get_perm obj obj' k : obj ≡ₚ obj' → NoDup obj.*1 → obj_get k obj = obj_get k obj'.
Proof.
  induction 1 as [|[k0 v0] l l' HP IH|[k1 v1] [k2 v2] l|l1 l2 l3 H12 IH1 H23 IH2]; intros Hnd; simpl; [done|..].
  - rewrite fmap_cons in Hnd. apply NoDup_cons in Hnd as [_ Hnd]. by rewrite IH.
  - destruct (String.eqb_spec k k1), (String.eqb_spec k k2); subst; try done.
    rewrite !fmap_cons in Hnd. apply NoDup_cons in Hnd as [Hn _]. set_solver.
  - rewrite IH1 by done. apply IH2. by rewrite <- H12.
Qed.

(** Well-formed values: objects list their keys in increasing order. *)
Inductive json_wf : json → Prop :=
  | wf_null : json_wf JNull
  | wf_bool b : json_wf (JBool b)
  | wf_num l : json_wf (JNum l)
  | wf_str s : json_wf (JStr s)
  | wf_arr l : Forall json_wf l → json_wf (JArr l)
  | wf_obj l : keys_sorted l → Forall (λ kv, json_wf kv.2) l → json_wf (JObj l).

Lemma keys_sorted_nodup l : keys_sorted l → NoDup l.*1.
Proof.
  induction l as [|[k v] l IH]; simpl; [constructor|]. intros [Hk Hs].
  constructor; [|by apply IH]. intros Hin. change (k ∈ l.*1) in Hin.
  apply list_elem_of_fmap in Hin as ([k' v'] & -> & Hin). rewrite Forall_forall in Hk.
  by apply Hk in Hin as [_ ?].
Qed.

(** Structural induction through arrays and objects. *)
Section json_rect.
Variable P : json → Prop.
Hypothesis Hnull : P JNull.
Hypothesis Hbool : ∀ b, P (JBool b).
Hypothesis Hnum : ∀ l, P (JNum l).
Hypothesis Hstr : ∀ s, P (JStr s).
Hypothesis Harr : ∀ l, Forall P l → P (JArr l).
Hypothesis Hobj : ∀ l, Forall (λ kv, P kv.2) l → P (JObj l).
Fixpoint json_nested_ind (v : json) : P v :=
  match v with
  | JNull => Hnull
  | JBool b => Hbool b
  | JNum l => Hnum l
  | JStr s => Hstr s
  | JArr l => Harr l ((fix go l : Forall P l := match l with
      | [] => Forall_nil_2 P
      | v :: l => Forall_cons_2 P v l (json_nested_ind v) (go l)
      end) l)
  | JObj l => Hobj l ((fix go l : Forall (λ kv : string * json, P kv.2) l := match l with
      | [] => Forall_nil_2 _
      | kv :: l => Forall_cons_2 _ kv l (json_nested_ind kv.2) (go l)
      end) l)
  end.
End json_rect.

(** ** The parser yields well-formed values *)
Lemma obj_set_forall (Q : json → Prop) k v l :
  Q v → Forall (λ kv, Q kv.2) l → Forall (λ kv, Q kv.2) (obj_set k v l).
Proof.
  intros Hv. induction 1 as [|[k' v'] l Hk HF IH]; simpl; [by constructor|].
  destruct (String.eqb k k'); [by constructor|].
  destruct (str_leb k k'); constructor; try done. by constructor.
Qed.

Lemma parse_wf_mutual fuel az :
  (∀ d s v r, parse_value fuel az d s = Some (v, r) → json_wf v) ∧
  (∀ d acc s v r, Forall json_wf acc → parse_elems fuel az d acc s = Some (v, r) → json_wf v) ∧
  (∀ d acc s v r, keys_sorted acc → Forall (λ kv, json_wf kv.2) acc →
     parse_members fuel az d acc s = Some (v, r) → json_wf v).
Proof.
  induction fuel as [|fuel (IHv & IHe & IHm)]; [done|]. split; [|split].
  - intros d s v r Hv. simpl in Hv.
    assert (json_wf (JObj []) ∧ json_wf (JArr [])) as [] by (by repeat constructor).
    repeat (case_match; simplify_eq; try done);
      first [by eapply IHm; [..|done]; constructor|by eapply IHe; [..|done]; constructor|apply wf_str|apply wf_bool|apply wf_null
            |apply wf_num].
  - intros d acc s v r Hacc Hv. simpl in Hv.
    destruct (parse_value fuel az (d + 1) s) as [[v1 r1]|] eqn:H1; [|done]. apply IHv in H1.
    assert (Forall json_wf (acc ++ [v1])) by (apply Forall_app; split; [done|by repeat constructor]).
    repeat (case_match; simplify_eq); [by eapply IHe|by constructor].
  - intros d acc s v r Hs Hacc Hv. simpl in Hv.
    destruct (skip_ws s) as [|q r0]; [done|]. destruct (negb (is_char 34 q)); [done|].
    destruct (parse_string az r0) as [[k r1]|]; [|done]. destruct (obj_get k acc); [done|].
    destruct (skip_ws r1) as [|col r2]; [done|]. destruct (negb (is_char 58 col)); [done|].
    destruct (parse_value fuel az (d + 1) r2) as [[v1 r3]|] eqn:H1; [|done]. apply IHv in H1.
    pose proof (obj_set_sorted k v1 acc Hs) as Hs'.
    pose proof (obj_set_forall json_wf k v1 acc H1 Hacc) as Ha'.
    repeat (case_match; simplify_eq); [by eapply IHm|by constructor].
Qed.

Lemma parse_wf raw v : parse raw = Ok v → json_wf v.
Proof.
  unfold parse, parseWithLimit. intros Hp. destruct (_ <? _)%nat; [done|].
  destruct (negb _); [done|]. destruct (parse_value _ _ _ _) as [[v' r]|] eqn:Hv; [|done].
  case_match; [|done]. simplify_eq. exact (proj1 (parse_wf_mutual _ _) _ _ _ _ Hv).
Qed.

Lemma members_sorted t : json_wf t → keys_sorted (members_of t).
Proof. by destruct 1. Qed.

Lemma member_wf t k : json_wf t → json_wf (member k (members_of t)).
Proof.
  intros Ht. unfold member. destruct Ht as [| | | | |l _ HF]; simpl; try constructor.
  induction HF as [|[k' v'] l Hk HF IH]; simpl; [constructor|]. by destruct (String.eqb k k').
Qed.

Lemma obj_get_elem k l v : obj_get k l = Some v → (k, v) ∈ l.
Proof.
  induction l as [|[k' v'] l IH]; simpl; [done|].
  destruct (String.eqb_spec k k') as [->|]; [intros [= ->]; set_solver|]. intros. set_solver.
Qed.

(** Merging the same patch again changes nothing. *)
Lemma merge_again p : json_wf p → ∀ t, json_wf t → merge (merge t p) p = merge t p.
Proof.
  induction p as [| | | | |l IH] using json_nested_ind; intros Hp t Ht; try done.
  inversion Hp as [| | | | |? Hs HF]; subst. rewrite !merge_obj. simpl. f_equal.
  pose proof (keys_sorted_nodup l Hs) as Hnd. pose proof (members_sorted t Ht) as Hst.
  apply obj_ext; [by apply merge_loop_sorted, merge_loop_sorted|by apply merge_loop_sorted|].
  intros k. rewrite merge_loop_get; [|by apply merge_loop_sorted|done].
  unfold merged_member at 1, member. rewrite merge_loop_get by done. unfold merged_member.
  destruct (obj_get k l) as [v|] eqn:Hk; [|done]. destruct (is_null v); [done|]. simpl. f_equal.
  apply obj_get_elem in Hk. rewrite Forall_forall in IH, HF.
  apply (IH (k, v) Hk); [exact (HF (k, v) Hk)|]. by apply member_wf.
Qed.

(** ** Theorems *)

Definition payload_ok (p : option string) : Prop :=
  match p with Some raw => ∃ v, parse raw = Ok v | None => True end.

Lemma apply_value_ok cur u v :
  ValidateUpdate (Some u) false = Ok tt ∨ ValidateUpdate (Some u) true = Ok tt →
  applyValue cur u = Ok v → payload_ok v.
Proof.
  intros Hval Hv. unfold applyValue in Hv. destruct (String.eqb_spec (u_Mode u) "reset") as [Hm|Hm].
  - injection Hv as <-.
    assert (match u_Value u with Some raw => rbind (parse raw) (λ _, Ok tt) | None => Ok tt end = Ok tt) as Hp.
    { destruct Hval as [Hval|Hval]; simpl in Hval;
        do 2 (apply bind_ok in Hval as ([] & _ & Hval)); exact Hval. }
    destruct (u_Value u) as [raw|]; simpl in *; [|done].
    apply bind_ok in Hp as (x & Hx & _). eauto.
  - apply bind_ok in Hv as (patch & _ & Hv). apply bind_ok in Hv as (target & _ & Hv).
    apply bind_ok in Hv as (x & Hx & Hv). injection Hv as <-. simpl. eauto.
Qed.

(** C13. Updating a client payload is a compare-and-swap: without an update
    nothing changes; an update succeeds only at the revision it names, advances
    the revision by one, keeps it within an int64, and leaves a payload that
    parses; the same update then conflicts. *)
Theorem apply_compare_and_swap cur rev u v rev' :
  payload_ok cur → (0 ≤ rev ≤ MaxInt64)%Z → Apply cur rev u = Ok (v, rev') →
  payload_ok v ∧ (0 ≤ rev' ≤ MaxInt64)%Z ∧
  match u with
  | None => v = cur ∧ rev' = rev
  | Some u => u_ExpectedRevision u = Some rev ∧ rev' = (rev + 1)%Z ∧
              ∀ cur', Apply cur' rev' (Some u) = Err ErrConflict
  end.
Proof.
  intros Hcur Hrev Ha. apply bind_ok in Ha as ([] & Hval & Ha).
  destruct u as [u|]; [|by simplify_eq].
  apply bind_ok in Ha as ([] & He & Ha). apply bind_ok in Ha as ([] & Hmax & Ha).
  apply bind_ok in Ha as (value & Hv & Ha). injection Ha as <- <-.
  unfold guard_err in He, Hmax. case_bool_decide as He'; [|done]. case_bool_decide as Hm; [|done].
  split; [by eapply apply_value_ok; [left|]|]. split; [lia|]. split; [done|]. split; [done|].
  intros cur'. unfold Apply. rewrite Hval. simpl. rewrite bool_decide_false; [done|].
  assert (rev ≠ rev + 1)%Z by lia. congruence.
Qed.

(** The patch rule is RFC 7396 and does not depend on the order in which Go
    ranges over the patch: a member absent from the patch is kept, a null removes
    it, any other value is merged into the old one (a missing one counts as
    null); a patch that is not an object replaces the target. *)
Theorem merge_patch_rule t p :
  json_wf t → json_wf p →
  match p with
  | JObj obj =>
      (∀ order, order ≡ₚ obj → merge t p = JObj (merge_loop (members_of t) order)) ∧
      ∀ k, obj_get k (members_of (merge t p)) =
           match obj_get k obj with
           | None => obj_get k (members_of t)
           | Some JNull => None
           | Some v => Some (merge (member k (members_of t)) v)
           end
  | _ => merge t p = p
  end.
Proof.
  intros Ht Hp. destruct p as [| | | | |obj]; try done. inversion Hp as [| | | | |? Hs _]; subst.
  pose proof (keys_sorted_nodup obj Hs) as Hnd. pose proof (members_sorted t Ht) as Hst. split.
  - intros order Ho. rewrite merge_obj. f_equal.
    assert (NoDup order.*1) by (by rewrite Ho).
    apply obj_ext; [by apply merge_loop_sorted..|]. intros k.
    rewrite !merge_loop_get by done. unfold merged_member. by rewrite (obj_get_perm order obj).
  - intros k. rewrite merge_obj. simpl. rewrite merge_loop_get by done. unfold merged_member.
    by destruct (obj_get k obj) as [[]|].
Qed.

(** Retrying a patch is harmless: merging it a second time gives the same
    value. *)
Theorem merge_idempotent raw1 raw2 t p :
  parse raw1 = Ok t → parse raw2 = Ok p → merge (merge t p) p = merge t p.
Proof. intros Ht Hp. apply merge_again; by eapply parse_wf. Qed.

(** ** Witnesses *)
Definition sample_update : Update := mkUpdate "patch" (Some (text "{'b':2,'a':null}")) (Some 3%Z).
Definition sample_payload : string := text "{'a':1,'c':{}}".

Lemma apply_compare_and_swap_witness :
  Apply (Some sample_payload) 3 (Some sample_update) = Ok (Some (text "{'b':2,'c':{}}"), 4%Z) ∧
  ∀ cur', Apply cur' 4 (Some sample_update) = Err ErrConflict.
Proof.
  assert (Apply (Some sample_payload) 3 (Some sample_update) = Ok (Some (text "{'b':2,'c':{}}"), 4%Z)) as Ha
    by (vm_compute; reflexivity).
  split; [exact Ha|].
  assert (payload_ok (Some sample_payload)) as Hp by (eexists; vm_compute; reflexivity).
  assert (0 ≤ 3 ≤ MaxInt64)%Z as Hr by (vm_compute; split; discriminate).
  apply (apply_compare_and_swap (Some sample_payload) 3 (Some sample_update) _ 4 Hp Hr Ha).
Defined.

Lemma merge_patch_rule_witness :
  obj_get "a" (members_of (merge (JObj [("a", JNum "1")]) (JObj [("a", JNull)]))) = None.
Proof.
  assert (json_wf (JObj [("a", JNum "1")])) as Ht by (repeat constructor).
  assert (json_wf (JObj [("a", JNull)])) as Hp by (repeat constructor).
  rewrite (proj2 (merge_patch_rule _ _ Ht Hp)). reflexivity.
Defined.

Lemma merge_idempotent_witness :
  ∃ t p, parse sample_payload = Ok t ∧ parse (text "{'a':{'x':1}}") = Ok p ∧
         merge (merge t p) p = merge t p.
Proof.
  eexists _, _. split; [vm_compute; reflexivity|]. split; [vm_compute; reflexivity|].
  apply (merge_idempotent sample_payload (text "{'a':{'x':1}}")); vm_compute; reflexivity.
Defined.
