(* ===== verification/JsonRoundtrip.v ===== *)
(** * JsonRoundtrip: encoding and decoding payloads are inverse

    [good d v]: what the decoder of [Json] can produce at nesting depth [d].  Every
    decoded value is good, merging keeps values good, and a good value is encoded to
    text that decodes to the same value. *)

From S2P Require Import Prelude Types Json JsonText ClientPayload.

#[local] Arguments String.append !_ _ / : simpl nomatch.

Inductive good : Z → json → Prop :=
  | good_null d : good d JNull
  | good_bool d b : good d (JBool b)
  | good_num d l : num_lit l → good d (JNum l)
  | good_str d s : plain s → good d (JStr s)
  | good_arr d l : (d < MaxDepth)%Z → Forall (good (d + 1)) l → good d (JArr l)
  | good_obj d l : (d < MaxDepth)%Z → keys_sorted l →
      Forall (λ kv, plain kv.1 ∧ good (d + 1) kv.2) l → good d (JObj l).

(** ** What the decoder yields *)
Lemma skip_ws_utf8 s : utf8 s → utf8 (skip_ws s).
Proof.
  induction s as [|c s IH]; [done|]. simpl. destruct (is_ws c) eqn:Hc; [|done]. intros Hs.
  apply IH. eapply utf8_ascii_tail; [|exact Hs]. unfold is_ws in Hc.
  rewrite !orb_true_iff in Hc. destruct Hc as [[[Hc|Hc]|Hc]|Hc]; by eapply is_char_ascii; [|exact Hc].
Qed.

Lemma take_literal_utf8 lit s r :
  all_bytes (in_range 0 127) lit = true → utf8 s → take_literal lit s = Some r → utf8 r.
Proof.
  revert s. induction lit as [|a lit IH]; intros s Hl Hs Ht; simpl in *; [by injection Ht as <-|].
  apply andb_true_iff in Hl as [Ha Hl]. destruct s as [|b s]; [done|].
  destruct (Ascii.eqb_spec a b) as [->|]; [|done]. eapply IH; [done| |exact Ht]. by eapply utf8_ascii_tail.
Qed.

Lemma utf8_tail_of n c s : (n ≤ 127)%N → is_char n c = true → utf8 (String c s) → utf8 s.
Proof. intros Hn Hc. apply utf8_ascii_tail. by eapply is_char_ascii. Qed.

Lemma utf8_app_tail p s : all_bytes (in_range 0 127) p = true → utf8 (p +:+ s) → utf8 s.
Proof.
  induction p as [|c p IH]; simpl; [done|]. intros [Hc Hp]%andb_true_iff Hs. by eapply IH, utf8_ascii_tail.
Qed.

Lemma obj_set_plain (Q : string * json → Prop) k v l : Q (k, v) → Forall Q l → Forall Q (obj_set k v l).
Proof.
  intros Hv. induction 1 as [|[k' v'] l Hk HF IH]; simpl; [by constructor|].
  destruct (String.eqb k k'); [by constructor|]. destruct (str_leb k k'); by repeat constructor.
Qed.

Definition good_entry (d : Z) (kv : string * json) : Prop := plain kv.1 ∧ good (d + 1) kv.2.

Lemma parse_good_mutual fuel :
  (∀ d s v r, utf8 s → parse_value fuel false d s = Some (v, r) → good d v ∧ utf8 r) ∧
  (∀ d acc s v r, (d < MaxDepth)%Z → utf8 s → Forall (good (d + 1)) acc →
     parse_elems fuel false d acc s = Some (v, r) → good d v ∧ utf8 r) ∧
  (∀ d acc s v r, (d < MaxDepth)%Z → utf8 s → keys_sorted acc → Forall (good_entry d) acc →
     parse_members fuel false d acc s = Some (v, r) → good d v ∧ utf8 r).
Proof.
  induction fuel as [|fuel (IHv & IHe & IHm)]; [done|]. split; [|split].
  - intros d s v r Hs Hv. simpl in Hv. apply skip_ws_utf8 in Hs. destruct (skip_ws s) as [|c s1]; [done|].
    destruct (is_char 123 c) eqn:E1.
    { destruct (Z.leb_spec MaxDepth d) as [|Hd]; [done|].
      apply (utf8_tail_of 123), skip_ws_utf8 in Hs; [|done..]. destruct (skip_ws s1) as [|c' s2]; [done|].
      destruct (is_char 125 c') eqn:E2; [|by eapply IHm; [..|exact Hv]].
      injection Hv as <- <-. split; [by constructor|by eapply (utf8_tail_of 125)]. }
    destruct (is_char 91 c) eqn:E2.
    { destruct (Z.leb_spec MaxDepth d) as [|Hd]; [done|].
      apply (utf8_tail_of 91), skip_ws_utf8 in Hs; [|done..]. destruct (skip_ws s1) as [|c' s2]; [done|].
      destruct (is_char 93 c') eqn:E3; [|by eapply IHe; [..|exact Hv]].
      injection Hv as <- <-. split; [by constructor|by eapply (utf8_tail_of 93)]. }
    destruct (is_char 34 c) eqn:E3.
    { apply (utf8_tail_of 34) in Hs; [|done..]. destruct (parse_string false s1) as [[k r']|] eqn:Hp; [|done].
      injection Hv as <- <-. destruct (parse_string_plain _ _ _ _ (le_n _) Hs Hp). split; [by constructor|done]. }
    assert (∀ lit b, all_bytes (in_range 0 127) lit = true → good d b →
      match take_literal lit (String c s1) with Some r' => Some (b, r') | None => None end = Some (v, r) → good d v ∧ utf8 r)
      as Hlit.
    { intros lit b Hl Hb Ht. destruct (take_literal lit (String c s1)) as [r'|] eqn:E; [|done]. injection Ht as <- <-.
      split; [done|by eapply take_literal_utf8]. }
    destruct (is_char 116 c); [by eapply (Hlit "true"); [| |exact Hv]; [|constructor]|].
    destruct (is_char 102 c); [by eapply (Hlit "false"); [| |exact Hv]; [|constructor]|].
    destruct (is_char 110 c); [by eapply (Hlit "null"); [| |exact Hv]; [|constructor]|].
    destruct (parse_number (String c s1)) as [[l r']|] eqn:Hp; [|done]. injection Hv as <- <-.
    apply parse_number_sound in Hp as [Es Hl]. split; [by constructor|]. rewrite Es in Hs.
    by eapply utf8_app_tail; [apply num_lit_bytes|].
  - intros d acc s v r Hd Hs Hacc Hv. simpl in Hv.
    destruct (parse_value fuel false (d + 1) s) as [[v1 r1]|] eqn:H1; [|done]. apply IHv in H1 as [Hv1 Hr1]; [|done].
    apply skip_ws_utf8 in Hr1. destruct (skip_ws r1) as [|c r2]; [done|].
    assert (Forall (good (d + 1)) (acc ++ [v1])) as Hall by (apply Forall_app; by repeat constructor).
    destruct (is_char 44 c) eqn:E1; [eapply IHe; [exact Hd| |exact Hall|exact Hv]; by eapply (utf8_tail_of 44)|].
    destruct (is_char 93 c) eqn:E2; [|done]. injection Hv as <- <-. split; [by constructor|by eapply (utf8_tail_of 93)].
  - intros d acc s v r Hd Hs Hsort Hacc Hv. simpl in Hv. apply skip_ws_utf8 in Hs.
    destruct (skip_ws s) as [|q r0]; [done|]. destruct (is_char 34 q) eqn:Eq; [|done]. simpl in Hv.
    apply (utf8_tail_of 34) in Hs; [|done..]. destruct (parse_string false r0) as [[k r1]|] eqn:Hk; [|done].
    destruct (parse_string_plain _ _ _ _ (le_n _) Hs Hk) as [Pk Hr1]. destruct (obj_get k acc); [done|].
    apply skip_ws_utf8 in Hr1. destruct (skip_ws r1) as [|col r2]; [done|].
    destruct (is_char 58 col) eqn:Ecol; [|done]. simpl in Hv. apply (utf8_tail_of 58) in Hr1; [|done..].
    destruct (parse_value fuel false (d + 1) r2) as [[v1 r3]|] eqn:H1; [|done]. apply IHv in H1 as [Hv1 Hr3]; [|done].
    apply skip_ws_utf8 in Hr3. destruct (skip_ws r3) as [|c r4]; [done|].
    pose proof (obj_set_sorted k v1 acc Hsort) as Hsort'.
    assert (Forall (good_entry d) (obj_set k v1 acc)) as Hall by (by apply obj_set_plain).
    destruct (is_char 44 c) eqn:E1; [eapply IHm; [exact Hd| |exact Hsort'|exact Hall|exact Hv]; by eapply (utf8_tail_of 44)|].
    destruct (is_char 125 c) eqn:E2; [|done]. injection Hv as <- <-. split; [by constructor|by eapply (utf8_tail_of 125)].
Qed.

Lemma parse_good raw v : parse raw = Ok v → good 0 v.
Proof.
  unfold parse, parseWithLimit. intros Hp. destruct (_ <? _)%nat; [done|].
  destruct (ValidString raw) eqn:Hu; [|done]. apply utf8_valid in Hu. revert Hp. generalize (S (String.length raw)).
  intros fuel Hp. simpl in Hp. destruct (parse_value _ _ _ _) as [[v' r]|] eqn:Hv; [|done]. destruct (str_empty _); [|done]. injection Hp as <-.
  by apply (proj1 (parse_good_mutual fuel)) in Hv as [? _].
Qed.

(** ** Merging *)
Lemma member_good d k l : Forall (good_entry d) l → good (d + 1) (member k l).
Proof.
  intros HF. unfold member. destruct (obj_get k l) as [v|] eqn:Hk; [|constructor].
  apply obj_get_elem in Hk. rewrite Forall_forall in HF. by apply HF in Hk as [_ ?].
Qed.

Lemma members_good d t : good d t → keys_sorted (members_of t) ∧ Forall (good_entry d) (members_of t).
Proof. by destruct 1. Qed.

Lemma obj_del_forall (Q : string * json → Prop) k l : Forall Q l → Forall Q (obj_del k l).
Proof.
  induction 1 as [|[k' v'] l Hk HF IH]; simpl; [constructor|]. destruct (String.eqb k k'); [done|by constructor].
Qed.

Lemma merge_good p : ∀ d t, good d t → good d p → good d (merge t p).
Proof.
  induction p as [| | | | |obj IH] using json_nested_ind; intros d t Ht Hp; try exact Hp.
  rewrite merge_obj. inversion Hp as [| | | | |d' obj' Hd Hsort Hobj]; subst.
  destruct (members_good d t Ht) as [Hs Ha]. constructor; [done|by apply merge_loop_sorted|].
  clear Hsort Hs Ht Hp. revert Ha. generalize (members_of t).
  induction Hobj as [|[k v] obj [Hk Hv] Hobj IHl]; intros dst Ha; [done|].
  apply Forall_cons in IH as [IHv IH]. simpl in *. unfold merge_loop. simpl. apply IHl; [done|].
  unfold merge_entry. simpl. destruct (is_null v); [by apply obj_del_forall|].
  apply obj_set_plain; [|done]. split; [done|]. simpl. apply IHv; [by apply member_good|done].
Qed.

(** ** Encoding *)
Fixpoint elems (l : list json) : string :=
  match l with
  | [] => ""
  | [v] => Marshal v
  | v :: l => Marshal v +:+ "," +:+ elems l
  end.
Fixpoint members (l : list (string * json)) : string :=
  match l with
  | [] => ""
  | [(k, v)] => marshal_string k +:+ ":" +:+ Marshal v
  | (k, v) :: l => marshal_string k +:+ ":" +:+ Marshal v +:+ "," +:+ members l
  end.

Lemma marshal_arr l : Marshal (JArr l) = "[" +:+ elems l +:+ "]".
Proof. done. Qed.
Lemma marshal_obj l : Marshal (JObj l) = "{" +:+ members l +:+ "}".
Proof. done. Qed.

(** What the members of a list have in common with what follows them. *)
Definition sep_elems (l : list json) : string := match l with [] => "" | _ => String (chr 44) (elems l) end.
Definition sep_members (l : list (string * json)) : string := match l with [] => "" | _ => String (chr 44) (members l) end.
Lemma elems_cons v l : elems (v :: l) = Marshal v +:+ sep_elems l.
Proof. destruct l; simpl; [by rewrite str_app_nil|done]. Qed.
Lemma members_cons k v l : members ((k, v) :: l) = marshal_string k +:+ ":" +:+ Marshal v +:+ sep_members l.
Proof. destruct l; simpl; [by rewrite str_app_nil|done]. Qed.

#[local] Arguments elems : simpl never.
#[local] Arguments members : simpl never.

(** The text of an encoded value starts with neither a space nor a closing bracket. *)
Definition value_head (c : ascii) : bool := negb (is_ws c || is_char 93 c || is_char 125 c).
Lemma marshal_head d v r : good d v → starts value_head (Marshal v +:+ r) = true.
Proof.
  intros Hg. destruct Hg as [d|d b|d l Hl| | |]; [done|by destruct b| |done..].
  pose proof (num_lit_head l r Hl) as Hh. simpl. destruct (l +:+ r) as [|c s]; [done|]. simpl in *.
  unfold value_head, is_ws. apply orb_true_iff in Hh as [Hc|Hc%chr_of]; [|by subst].
  unfold is_digit in Hc. by rewrite !(is_char_range _ 48 57 c) by (done || lia).
Qed.

Lemma head_no_ws s : starts value_head s = true → skip_ws s = s.
Proof.
  destruct s as [|c s]; [done|]. simpl. unfold value_head. intros Hc%negb_true_iff. rewrite !orb_false_iff in Hc.
  by destruct Hc as [[-> _] _].
Qed.

(** Appending a larger key. *)
Lemma obj_set_end k v l : Forall (λ kv : string * json, key_lt kv.1 k) l → obj_set k v l = l ++ [(k, v)] ∧ obj_get k l = None.
Proof.
  induction 1 as [|[k' v'] l [Hle Hne] HF [IH1 IH2]]; simpl; [done|]. simpl in *.
  destruct (String.eqb_spec k k') as [->|_]; [done|].
  destruct (str_leb k k') eqn:Hk; [exfalso; apply Hne; by apply (anti_symm str_le)|]. by rewrite IH1.
Qed.

Lemma keys_sorted_app l1 l2 :
  keys_sorted (l1 ++ l2) → keys_sorted l2 ∧ ∀ kv, kv ∈ l2 → Forall (λ kv' : string * json, key_lt kv'.1 kv.1) l1.
Proof.
  induction l1 as [|[k v] l1 IH]; simpl; [done|]. intros [Hk Hs]. destruct (IH Hs) as [? H2]. split; [done|].
  intros kv Hkv. constructor; [|by apply H2]. rewrite Forall_forall in Hk. apply Hk. set_solver.
Qed.

(** ** Decoding what was encoded *)
Definition reads_back (v : json) : Prop := ∀ d fuel r,
  good d v → String.length (Marshal v) < fuel → stops r = true → parse_value fuel false d (Marshal v +:+ r) = Some (v, r).

Lemma elems_stop l r : stops (sep_elems l +:+ String (chr 93) r) = true.
Proof. by destruct l. Qed.
Lemma members_stop l r : stops (sep_members l +:+ String (chr 125) r) = true.
Proof. by destruct l. Qed.

Lemma elems_read_back d l : ∀ acc fuel r,
  Forall reads_back l → l ≠ [] → Forall (good (d + 1)) l → String.length (elems l) + 1 < fuel →
  parse_elems fuel false d acc (elems l +:+ String (chr 93) r) = Some (JArr (acc ++ l), r).
Proof.
  induction l as [|v l IH]; [done|]. intros acc fuel r HF _ Hg Hfuel.
  apply Forall_cons in HF as [Hv HF]. apply Forall_cons in Hg as [Gv Hg].
  rewrite elems_cons in *. rewrite str_app_length in Hfuel. destruct fuel as [|fuel]; [lia|].
  rewrite str_app_assoc. simpl. rewrite Hv; [|done|lia|apply elems_stop].
  destruct l as [|v' l]; [done|]. simpl in Hfuel |- *.
  rewrite IH; [by rewrite <- app_assoc|done|done|done|lia].
Qed.

Lemma members_read_back d l : ∀ acc fuel r,
  Forall (λ kv, reads_back kv.2) l → l ≠ [] → keys_sorted (acc ++ l) → Forall (good_entry d) l →
  String.length (members l) + 1 < fuel →
  parse_members fuel false d acc (members l +:+ String (chr 125) r) = Some (JObj (acc ++ l), r).
Proof.
  induction l as [|[k v] l IH]; [done|]. intros acc fuel r HF _ Hs Hg Hfuel.
  apply Forall_cons in HF as [Hv HF]. apply Forall_cons in Hg as [[[Pk Nk] Gv] Hg]. simpl in Hv, Pk, Nk, Gv.
  destruct (keys_sorted_app _ _ Hs) as [_ Habove].
  destruct (obj_set_end k v acc (Habove (k, v) ltac:(set_solver))) as [Hset Hget].
  rewrite members_cons in *. unfold marshal_string in *. destruct fuel as [|fuel]; [lia|].
  rewrite !str_app_length in Hfuel. simpl in Hfuel. rewrite !str_app_length in Hfuel. simpl in Hfuel.
  rewrite !str_app_assoc. simpl. rewrite !str_app_assoc. simpl. rewrite parse_escaped, Hget by done. simpl.
  rewrite Hv; [|done|lia|apply members_stop].
  destruct l as [|kv l]; [simpl; by rewrite Hset|]. simpl in Hfuel |- *.
  rewrite Hset, IH; [by rewrite <- app_assoc|done|done|by rewrite <- app_assoc|done|lia].
Qed.

Lemma marshal_reads_back v : reads_back v.
Proof.
  induction v as [|b|l|s|l IH|l IH] using json_nested_ind; intros d fuel r Hg Hfuel Hr; (destruct fuel as [|fuel]; [lia|]).
  - done.
  - by destruct b.
  - inversion Hg as [| |d' l' Hl| | |]; subst. pose proof (num_lit_head l r Hl) as Hh.
    simpl. rewrite head_no_ws by (by eapply (marshal_head d (JNum l))).
    pose proof (parse_number_app l r Hl Hr) as Hp. destruct (l +:+ r) as [|c s]; [done|]. simpl in Hh.
    assert (∀ n, (n < 45 ∨ 57 < n)%N → is_char n c = false) as Hno.
    { intros n Hn. apply not_true_iff_false. intros Hc%is_char_spec. subst n.
      apply orb_true_iff in Hh as [Hd%in_range_spec|Hm%is_char_spec]; lia. }
    rewrite !Hno by lia. by rewrite Hp.
  - inversion Hg as [| | |d' s' [Hs Hn]| |]; subst. simpl. unfold marshal_string. simpl. rewrite str_app_assoc. simpl.
    by rewrite parse_escaped.
  - inversion Hg as [| | | |d' l' Hd Hl|]; subst. rewrite marshal_arr in *. rewrite !str_app_assoc.
    simpl in Hfuel |- *. rewrite str_app_length in Hfuel. simpl in Hfuel.
    destruct (Z.leb_spec MaxDepth d) as [|_]; [lia|]. destruct l as [|v l]; [done|].
    apply Forall_cons in Hl as Hl'. destruct Hl' as [Gv _].
    pose proof (marshal_head _ v (sep_elems l +:+ String (chr 93) r) Gv) as Hh. rewrite <- str_app_assoc, <- elems_cons in Hh.
    pose proof (elems_read_back d (v :: l) [] fuel r IH ltac:(done) Hl ltac:(lia)) as He. simpl app in He.
    change (Ascii.Ascii true false true true true false true false) with (chr 93).
    rewrite head_no_ws by done.
    destruct (elems (v :: l) +:+ String (chr 93) r) as [|c s]; [done|]. simpl in Hh. unfold value_head in Hh.
    apply negb_true_iff in Hh. rewrite !orb_false_iff in Hh. destruct Hh as [[_ ->] _]. exact He.
  - inversion Hg as [| | | | |d' l' Hd Hsort Hl]; subst. rewrite marshal_obj in *. rewrite !str_app_assoc.
    simpl in Hfuel |- *. rewrite str_app_length in Hfuel. simpl in Hfuel.
    destruct (Z.leb_spec MaxDepth d) as [|_]; [lia|]. destruct l as [|[k v] l]; [done|].
    pose proof (members_read_back d ((k, v) :: l) [] fuel r IH ltac:(done) Hsort Hl ltac:(lia)) as He. simpl app in He.
    change (Ascii.Ascii true false true true true true true false) with (chr 125).
    assert (∃ s, members ((k, v) :: l) +:+ String (chr 125) r = String quote s) as [s Es] by (rewrite members_cons; by eexists).
    rewrite Es in *. exact He.
Qed.

(** ** The encoded text is UTF-8 *)
Lemma escape_byte_utf8 c : in_range 0 127 c = true → utf8 (escape_byte c).
Proof. intros Hc. apply ascii_utf8. revert Hc. by destruct c as [[] [] [] [] [] [] [] []]. Qed.

Lemma escape_char_utf8 m : multi m = true → utf8 (escape_char m).
Proof.
  intros Hm. unfold escape_char. destruct (String.eqb m line_separator); [by apply ascii_utf8|].
  destruct (String.eqb m paragraph_separator); [by apply ascii_utf8|].
  rewrite <- (str_app_nil m). by repeat constructor.
Qed.

Lemma escape_string_utf8 s : utf8 s → utf8 (escape_string s).
Proof.
  induction 1 as [|c s Hc Hs IH|m s Hm Hs IH]; [constructor|..].
  - rewrite escape_single by (eapply is_char_range; [exact Hc|by right]). apply utf8_app; [by apply escape_byte_utf8|done].
  - rewrite escape_multi by done. apply utf8_app; [by apply escape_char_utf8|done].
Qed.

Lemma marshal_string_utf8 s : plain s → utf8 (marshal_string s).
Proof.
  intros [Hs _]. unfold marshal_string. constructor; [done|]. apply utf8_app; [by apply escape_string_utf8|].
  by apply ascii_utf8.
Qed.

Lemma marshal_utf8 v : ∀ d, good d v → utf8 (Marshal v).
Proof.
  induction v as [|b|l|s|l IH|l IH] using json_nested_ind; intros d Hg.
  - by apply ascii_utf8.
  - destruct b; by apply ascii_utf8.
  - inversion Hg; subst. by apply ascii_utf8, num_lit_bytes.
  - inversion Hg; subst. by apply marshal_string_utf8.
  - inversion Hg as [| | | |d' l' _ Hl|]; subst. rewrite marshal_arr.
    apply (utf8_app "["); [by apply ascii_utf8|]. apply utf8_app; [|by apply ascii_utf8]. clear Hg.
    induction l as [|v l IHl]; [constructor|]. apply Forall_cons in IH as [Hv IH]. apply Forall_cons in Hl as [Gv Hl].
    rewrite elems_cons. apply utf8_app; [by eapply Hv|]. destruct l; [constructor|]. constructor; [done|by apply IHl].
  - inversion Hg as [| | | | |d' l' _ _ Hl]; subst. rewrite marshal_obj.
    apply (utf8_app "{"); [by apply ascii_utf8|]. apply utf8_app; [|by apply ascii_utf8]. clear Hg.
    induction l as [|[k v] l IHl]; [constructor|]. apply Forall_cons in IH as [Hv IH].
    apply Forall_cons in Hl as [[Pk Gv] Hl]. simpl in *. rewrite members_cons.
    apply utf8_app; [by apply marshal_string_utf8|]. apply (utf8_app ":"); [by apply ascii_utf8|].
    apply utf8_app; [by eapply Hv|]. destruct l; [constructor|]. constructor; [done|by apply IHl].
Qed.

Lemma parse_fits raw v : parse raw = Ok v → String.length raw ≤ MaxBytes.
Proof. unfold parse, parseWithLimit. destruct (Nat.ltb_spec MaxBytes (String.length raw)); [done|]. intros _. lia. Qed.

(** The decoder inverts the encoder, up to the size limit. *)
Lemma parse_marshal v :
  good 0 v →
  parse (Marshal v) = if MaxBytes <? String.length (Marshal v) then Err ErrPayloadTooLarge else Ok v.
Proof.
  intros Hg. unfold parse, parseWithLimit. destruct (_ <? _); [done|].
  assert (ValidString (Marshal v) = true) as -> by (eapply utf8_valid, marshal_utf8; done).
  pose proof (marshal_reads_back v 0%Z (S (String.length (Marshal v))) "" Hg ltac:(lia) eq_refl) as Hr.
  rewrite str_app_nil in Hr. cbn [negb]. by rewrite Hr.
Qed.

Lemma merged_good raw1 raw2 t p : parse raw1 = Ok t → parse raw2 = Ok p → good 0 (merge t p).
Proof. intros Ht Hp. apply merge_good; by eapply parse_good. Qed.

(** C35. Payload text round-trips.  Writing a decoded payload and decoding it again
    gives the same value, unless the text has become too large.  Hence a patch of
    a stored payload fails only for its size, and otherwise stores text that
    decodes to exactly the merge of the two values: the check of the output in
    [applyValue] refuses nothing else. *)
Theorem payload_roundtrip raw v cur target :
  parse raw = Ok v → parse cur = Ok target →
  parse (Marshal v) = (if MaxBytes <? String.length (Marshal v) then Err ErrPayloadTooLarge else Ok v) ∧
  ∀ e, match applyValue (Some cur) (mkUpdate "patch" (Some raw) e) with
       | Ok None => False
       | Ok (Some out) => parse out = Ok (merge target v) ∧ out = Marshal (merge target v)
       | Err e => e = ErrPayloadTooLarge ∧ MaxBytes < String.length (Marshal (merge target v))
       end.
Proof.
  intros Hv Ht. pose proof (parse_marshal v (parse_good _ _ Hv)) as Hpv. split; [exact Hpv|]. intros e.
  pose proof (parse_marshal _ (merged_good _ _ _ _ Ht Hv)) as Hm.
  assert (applyValue (Some cur) (mkUpdate "patch" (Some raw) e) =
    let? patch := parse raw in let? target := parse cur in let out := Marshal (merge target patch) in
    let? _ := parse out in Ok (Some out)) as -> by done.
  rewrite Hv, Ht. cbn [rbind]. rewrite Hm.
  destruct (Nat.ltb_spec MaxBytes (String.length (Marshal (merge target v)))) as [Hl|Hl]; [done|].
  by split.
Qed.

Definition spelled : string := text "{'n':1.50,'s':'\u003cé'}".
Definition spelled_value : json := JObj [("n", JNum "1.50"); ("s", JStr "<é")].
Definition stored_value : json := JObj [("a", JNum "1"); ("c", JObj [])].
Lemma spelled_parses : parse spelled = Ok spelled_value.
Proof. vm_compute. reflexivity. Qed.
Lemma stored_parses : parse sample_payload = Ok stored_value.
Proof. vm_compute. reflexivity. Qed.

Lemma payload_roundtrip_witness :
  parse (Marshal spelled_value) = Ok spelled_value ∧
  ∀ e, ∃ out, applyValue (Some sample_payload) (mkUpdate "patch" (Some spelled) e) = Ok (Some out) ∧
              parse out = Ok (merge stored_value spelled_value).
Proof.
  pose proof (payload_roundtrip spelled spelled_value sample_payload stored_value spelled_parses stored_parses) as [H1 H2].
  assert ((MaxBytes <? String.length (Marshal spelled_value)) = false) as E1 by (vm_compute; reflexivity).
  assert ((MaxBytes <? String.length (Marshal (merge stored_value spelled_value))) = false) as E2 by (vm_compute; reflexivity).
  rewrite E1 in H1. split; [exact H1|]. intros e. specialize (H2 e).
  destruct (applyValue _ _) as [[out|]|err]; [exists out; split; [reflexivity|exact (proj1 H2)]|destruct H2|].
  exfalso. apply Nat.ltb_ge in E2. lia.
Defined.
