(* ===== verification/Cells.v ===== *)
(** * Cells: the cell registry

    [pkg/jobdb/cells.go] (cells, authority, validation) and
    [runtime/cellstate] (the registry of one tenant).  Random bytes, ksuid
    generation and the clock are arguments; what the registry needs of Go's
    [net/url], [strings.ToLower], [encoding/json] and SHA-256 is the class
    [CellText]. *)

From S2P Require Import Prelude Types.

Inductive CellState := CellActive | CellRetired.
#[export] Instance CellState_eq_dec : EqDecision CellState.
Proof. solve_decision. Defined.

(** [Cell]; metadata maps a key to the JSON text of its value. *)
Record Cell := mkCell {
  c_TenantID : string;
  c_ID : string;
  c_Name : string;
  c_Repo : string;
  c_Description : string;
  c_Metadata : gmap string string;
  c_State : CellState;
  c_Aliases : list string;
  c_Revision : string;
  c_CreatedAt : time;
  c_UpdatedAt : time;
  c_RetiredAt : option time
}.
#[export] Instance eta_Cell : Eta Cell := λ c,
  mkCell (c_TenantID c) (c_ID c) (c_Name c) (c_Repo c) (c_Description c) (c_Metadata c) (c_State c)
    (c_Aliases c) (c_Revision c) (c_CreatedAt c) (c_UpdatedAt c) (c_RetiredAt c).
#[export] Instance Cell_eq_dec : EqDecision Cell.
Proof. solve_decision. Defined.

Record CellKey := mkCellKey { ce_TenantID : string; ce_CellID : string }.
Record CreateCellRequest := mkCreateCell {
  cr_TenantID : string; cr_Name : string; cr_Repo : string; cr_Description : string;
  cr_Metadata : gmap string string; cr_RequestID : string
}.
#[export] Instance eta_CreateCellRequest : Eta CreateCellRequest := λ r,
  mkCreateCell (cr_TenantID r) (cr_Name r) (cr_Repo r) (cr_Description r) (cr_Metadata r) (cr_RequestID r).
(** A present but nil [Metadata] map is [Some None]. *)
Record UpdateCellRequest := mkUpdateCell {
  uc_CellKey : CellKey; uc_IfMatch : string; uc_Name : option string; uc_Repo : option string;
  uc_Description : option string; uc_Metadata : option (option (gmap string string))
}.
Record RetireCellRequest := mkRetireCell { rc_CellKey : CellKey; rc_IfMatch : string }.

Record ResolvedCell := mkResolvedCell { rs_Cell : string; rs_CellID : string; rs_CellRepo : string }.
#[export] Instance eta_ResolvedCell : Eta ResolvedCell := λ r,
  mkResolvedCell (rs_Cell r) (rs_CellID r) (rs_CellRepo r).
#[export] Instance ResolvedCell_eq_dec : EqDecision ResolvedCell.
Proof. solve_decision. Defined.
Definition Resolved (c : Cell) : ResolvedCell := mkResolvedCell (c_Name c) (c_ID c) (c_Repo c).

(** ** Authority

    [CellAuthority] with the two values the runtime puts in a context beside it:
    the lease proof of a child submission and the schedule of an occurrence. *)
Record CellAuthority := mkAuthority {
  ca_Principal : string; ca_TenantID : string;
  ca_Permissions : gset string; ca_Cells : option (gset string)
}.
Record LeaseProof := mkLeaseProof { lp_JobKey : JobKey; lp_LeaseID : string; lp_WorkerID : string }.
Record ScheduleKey := mkScheduleKey { sk_TenantId : string; sk_ScheduleId : string }.
#[export] Instance ScheduleKey_eq_dec : EqDecision ScheduleKey.
Proof. solve_decision. Defined.
#[export] Instance ScheduleKey_countable : Countable ScheduleKey.
Proof.
  refine (inj_countable' (λ k, (sk_TenantId k, sk_ScheduleId k)) (λ p, mkScheduleKey p.1 p.2) _).
  by intros [].
Defined.
Record Context := mkContext {
  cx_Authority : option CellAuthority; cx_Lease : option LeaseProof; cx_Schedule : option ScheduleKey
}.
#[export] Instance eta_Context : Eta Context := λ c,
  mkContext (cx_Authority c) (cx_Lease c) (cx_Schedule c).
Definition WithCellAuthority (ctx : Context) (a : CellAuthority) : Context := ctx <| cx_Authority := Some a |>.
Definition WithLease (ctx : Context) (p : LeaseProof) : Context := ctx <| cx_Lease := Some p |>.
Definition WithSchedule (ctx : Context) (k : ScheduleKey) : Context := ctx <| cx_Schedule := Some k |>.

(** [AuthorizeCell] *)
Definition AuthorizeCell (ctx : Context) (tenant id permission : string) : result () :=
  match cx_Authority ctx with
  | None => Err (ErrCell ErrCellForbidden)
  | Some a =>
      if str_empty tenant || str_empty (ca_Principal a)
         || (negb (String.eqb (ca_TenantID a) tenant) && negb (String.eqb (ca_TenantID a) "*"))
         || negb (bool_decide (permission ∈ ca_Permissions a))
      then Err (ErrCell ErrCellForbidden)
      else match ca_Cells a with
      | Some cells => if negb (str_empty id) && negb (bool_decide (id ∈ cells))
                      then Err (ErrCell ErrCellNotFound) else Ok tt
      | None => Ok tt
      end
  end.

(** ** Validation *)
Definition name_char (c : Ascii.ascii) : bool :=
  in_range 65 90 c || in_range 97 122 c || in_range 48 57 c
  || in_range 46 46 c || in_range 95 95 c || in_range 45 45 c.

(** [ValidateCellName]: the pattern [[A-Za-z0-9._-]{1,128}], neither [.] nor [..]. *)
Definition ValidateCellName (s : string) : result () :=
  guard_err (negb (str_empty s) && (String.length s <=? 128)%nat
             && negb (str_contains (λ c, negb (name_char c)) s)
             && negb (String.eqb s ".") && negb (String.eqb s "..")) (ErrCell ErrInvalidCell).

(** The parts of a parsed URL the locator rules look at. *)
Record URL := mkURL {
  url_Scheme : string; url_Host : string; url_Hostname : string; url_Port : string; url_Path : string;
  url_RawPath : string; url_RawQuery : string; url_Fragment : string;
  url_User : bool; url_Password : bool
}.

(** Go library functions the registry relies on: [url.Parse], [strings.ToLower],
    [json.Valid], decoding and re-encoding one JSON text, the length of an encoded
    metadata map, and the SHA-256 of an encoded request. *)
Class CellText := {
  url_Parse : string → option URL;
  ToLower : string → string;
  json_Valid : string → bool;
  json_reencode : string → string;
  metadata_len : gmap string string → nat;
  request_digest : CreateCellRequest → string
}.

Fixpoint trim_suffix (suf s : string) : string :=
  if String.eqb s suf then "" else match s with
  | EmptyString => ""
  | String c r => String c (trim_suffix suf r)
  end.
Definition TrimSuffix (s suf : string) : string :=
  if str_empty suf then s else trim_suffix suf s.
Definition trim_slash (s : string) : string :=
  match s with String c r => if in_range 47 47 c then r else s | EmptyString => s end.

(** [strings.Cut] at a character. *)
Fixpoint Cut (sep : N) (s : string) : option (string * string) :=
  match s with
  | EmptyString => None
  | String c r => if in_range sep sep c then Some ("", r)
                  else match Cut sep r with Some (a, b) => Some (String c a, b) | None => None end
  end.
Fixpoint Split (sep : N) (s : string) : list string :=
  match s with
  | EmptyString => [""]
  | String c r => if in_range sep sep c then "" :: Split sep r
                  else match Split sep r with
                       | [] => [String c ""]
                       | p :: ps => String c p :: ps
                       end
  end.

(** [strings.Contains(s, "://")] *)
Fixpoint has_scheme (s : string) : bool :=
  match s with
  | EmptyString => false
  | String _ r => String.prefix "://" s || has_scheme r
  end.

(** [strings.TrimSpace(s) == s], given that [s] has no ASCII white space. *)
Fixpoint ends_space (s : string) : bool :=
  match s with
  | EmptyString => false
  | String a r => blank s || ends_space r
  end.
Definition starts_space (s : string) : bool :=
  match s with
  | String a (String b (String c _)) => space1 a || space2 a b || space3 a b c
  | String a (String b EmptyString) => space1 a || space2 a b
  | String a EmptyString => space1 a
  | EmptyString => false
  end.

Definition locator_chars : string :=
  String (Ascii.ascii_of_N 9) (String (Ascii.ascii_of_N 10) (String (Ascii.ascii_of_N 13) "?#\ ")).

Section registry.
Context `{CellText}.

(** [NormalizeCellRepo]'s choice of host and path. *)
Definition repo_parts (s : string) : result (string * string) :=
  let bad := Err (ErrCell ErrInvalidCell) in
  if has_scheme s then
    match url_Parse s with
    | None => bad
    | Some u =>
        if str_empty (url_Host u) || negb (str_empty (url_RawQuery u))
           || negb (str_empty (url_Fragment u)) || negb (str_empty (url_RawPath u)) then bad
        else if negb (String.eqb (url_Scheme u) "https") && negb (String.eqb (url_Scheme u) "ssh") then bad
        else if String.eqb (url_Scheme u) "https" && url_User u then bad
        else if url_User u && url_Password u then bad
        else if negb (str_empty (url_Port u))
                && negb (String.eqb (url_Scheme u) "https" && String.eqb (url_Port u) "443")
                && negb (String.eqb (url_Scheme u) "ssh" && String.eqb (url_Port u) "22") then bad
        else Ok (url_Hostname u, trim_slash (url_Path u))
    end
  else match Cut 64 s with
  | Some (user, rest) =>
      if str_empty user then bad
      else of_option (ErrCell ErrInvalidCell) (Cut 58 rest)
  | None => of_option (ErrCell ErrInvalidCell) (Cut 47 s)
  end.

Definition bad_part (p : string) : bool := str_empty p || String.eqb p "." || String.eqb p "..".

(** [NormalizeCellRepo] *)
Definition NormalizeCellRepo (s : string) : result string :=
  let? _ := guard_err (negb (str_empty s || ContainsAny s locator_chars || starts_space s || ends_space s))
              (ErrCell ErrInvalidCell) in
  let? hp := repo_parts s in
  let host := ToLower hp.1 in
  let path := TrimSuffix (TrimSuffix hp.2 "/") ".git" in
  let? _ := guard_err (negb (bad_part host || ContainsAny host ":/@%"
                             || str_empty path || ContainsAny path ":@%")) (ErrCell ErrInvalidCell) in
  let? _ := guard_err (negb (existsb bad_part (Split 47 path))) (ErrCell ErrInvalidCell) in
  let? _ := guard_err (ValidString path && (String.length host + String.length path + 1 <=? 2048)%nat)
              (ErrCell ErrInvalidCell) in
  Ok (host +:+ "/" +:+ path).

(** [utf8.RuneCountInString] of a valid string: the bytes that start a rune. *)
Fixpoint RuneCount (s : string) : nat :=
  match s with
  | EmptyString => 0
  | String c r => (if cont c then 0 else 1) + RuneCount r
  end.

(** [ValidateCellProperties] *)
Definition bad_property (kv : string * string) : bool :=
  negb (ValidString kv.1) || (RuneCount kv.1 <? 1)%nat || (128 <? RuneCount kv.1)%nat || negb (json_Valid kv.2).
Definition ValidateCellProperties (description : string) (metadata : gmap string string) : result () :=
  let? _ := guard_err (ValidString description && (RuneCount description <=? N.to_nat 2048)%nat
                       && (size metadata <=? 64)%nat) (ErrCell ErrInvalidCell) in
  let? _ := guard_err (negb (existsb bad_property (map_to_list metadata))) (ErrCell ErrInvalidCell) in
  guard_err (metadata_len metadata <=? N.to_nat 16384)%nat (ErrCell ErrInvalidCell).

Definition quote_char : Ascii.ascii := Ascii.ascii_of_N 34.
(** The revision in double quotes; a revision is a ksuid, which needs no escapes. *)
Definition quoted (revision : string) : string :=
  String quote_char (revision +:+ String quote_char "").
(** A header of the form quote, non-empty text, quote, without the characters
    that would need escaping or separate several entity tags. *)
Definition header_shape (h : string) : bool :=
  match h with
  | String q r =>
      in_range 34 34 q && (3 <=? String.length h)%nat &&
      String.eqb r (TrimSuffix r (String quote_char "") +:+ String quote_char "") &&
      negb (str_contains (λ c, in_range 34 34 c || in_range 92 92 c || in_range 44 44 c
                               || in_range 13 13 c || in_range 10 10 c)
              (TrimSuffix r (String quote_char "")))
  | EmptyString => false
  end.

(** [CheckCellRevision] *)
Definition CheckCellRevision (header revision : string) : result () :=
  let? _ := guard_err (negb (str_empty header)) (ErrCell ErrCellPreconditionRequired) in
  let? _ := guard_err (header_shape header) (ErrCell ErrInvalidCell) in
  guard_err (String.eqb header (quoted revision)) (ErrCell ErrCellPrecondition).

(** [canonicalMetadata] *)
Definition canonicalMetadata (m : gmap string string) : gmap string string := json_reencode <$> m.
End registry.
