(* ===== verification/CellState.v ===== *)
(** * CellState: the registry of one tenant's cells

    [runtime/cellstate/state.go], [lease.go] and [lookup.go]: creating, updating,
    retiring, resolving and selecting cells. *)

From S2P Require Import Prelude Types Cells.

Record Creation := mkCreation {
  cn_Principal : string; cn_RequestID : string; cn_Descriptor : string; cn_Result : Cell
}.
Record State := mkState {
  cs_CursorKey : string;
  cs_Cells : gmap string Cell;
  cs_Creations : list Creation
}.
#[export] Instance eta_State : Eta State := λ s, mkState (cs_CursorKey s) (cs_Cells s) (cs_Creations s).

(** [New]: an empty registry with a random cursor key. *)
Definition New (key : string) : State := mkState key ∅ [].

Section state.
Context `{CellText} `{RangeOrder}.

(** The names a cell answers to. *)
Definition names (c : Cell) : list string := c_Name c :: c_Aliases c.
Definition has_name (n : string) (c : Cell) : bool := bool_decide (n ∈ names c).

(** [State.ByName]: the first cell the map iteration meets. *)
Definition ByName (s : State) (name : string) : option Cell :=
  (λ p, p.2.2) <$> list_find (λ kc, has_name name kc.2 = true) (range (cs_Cells s)).

(** [State.unique] *)
Definition unique (s : State) (c : Cell) : result () :=
  let? _ := guard_err (negb (existsb (λ kc, negb (String.eqb (c_ID kc.2) (c_ID c))
                                         && String.eqb (c_Repo kc.2) (c_Repo c)) (range (cs_Cells s))))
              (ErrCell ErrCellConflict) in
  guard_err (negb (existsb (λ n, match ByName s n with
                                 | Some old => negb (String.eqb (c_ID old) (c_ID c))
                                 | None => false
                                 end) (names c))) (ErrCell ErrCellConflict).

(** The principal [CellAuthorityFromContext] reports; none gives the zero value. *)
Definition principal (ctx : Context) : string :=
  match cx_Authority ctx with Some a => ca_Principal a | None => "" end.

Definition same_request (ctx : Context) (req : CreateCellRequest) (r : Creation) : bool :=
  String.eqb (cn_Principal r) (principal ctx) && String.eqb (cn_RequestID r) (cr_RequestID req).

(** [State.Create]: [id] and [revision] are the two generated ksuids. *)
Definition Create (ctx : Context) (req : CreateCellRequest) (now : time) (id revision : string)
    : M State Cell := λ s,
  match
    let? _ := AuthorizeCell ctx (cr_TenantID req) "" "cells.create" in
    let? _ := ValidateCellName (cr_Name req) in
    let? repo := NormalizeCellRepo (cr_Repo req) in
    let? _ := ValidateCellProperties (cr_Description req) (cr_Metadata req) in
    let req' := req <| cr_Repo := repo |> <| cr_Metadata := canonicalMetadata (cr_Metadata req) |> in
    let? _ := guard_err (String.length (cr_RequestID req) <=? 128)%nat (ErrCell ErrInvalidCell) in
    Ok req'
  with
  | Err e => (s, Err e)
  | Ok req' =>
      match (if str_empty (cr_RequestID req') then None
             else snd <$> list_find (λ r, same_request ctx req' r = true) (cs_Creations s)) with
      | Some r =>
          (s, if negb (String.eqb (cn_Descriptor r) (request_digest req'))
              then Err (ErrCell ErrCellRequestConflict)
              else match cs_Cells s !! c_ID (cn_Result r) with
              | Some c => if bool_decide (c_State c = CellRetired)
                          then Err (ErrCell ErrCellRetired) else Ok (cn_Result r)
              | None => Ok (cn_Result r)
              end)
      | None =>
          let c := mkCell (cr_TenantID req') id (cr_Name req') (cr_Repo req') (cr_Description req')
                     (cr_Metadata req') CellActive [] revision now now None in
          match unique s c with
          | Err e => (s, Err e)
          | Ok _ =>
              (s <| cs_Cells := <[id := c]> (cs_Cells s) |>
                 <| cs_Creations := if str_empty (cr_RequestID req') then cs_Creations s
                      else cs_Creations s ++
                           [mkCreation (principal ctx) (cr_RequestID req') (request_digest req') c] |>,
               Ok c)
          end
      end
  end.

(** [State.CreateWithLease]: [principal] is the formatted lease principal. *)
Definition CreateWithLease (ctx : Context) (p : LeaseProof) (lease_principal : string)
    (req : CreateCellRequest) (now : time) (id revision : string) : M State Cell := λ s,
  if negb (str_empty (cr_TenantID req)) && negb (String.eqb (cr_TenantID req) (jk_TenantId (lp_JobKey p)))
  then (s, Err (ErrCell ErrCellForbidden))
  else
    let req' := req <| cr_TenantID := jk_TenantId (lp_JobKey p) |> in
    Create (WithCellAuthority ctx (mkAuthority lease_principal (cr_TenantID req') {["cells.create"]} None))
      req' now id revision s.

(** [State.Get] *)
Definition Get (ctx : Context) (key : CellKey) (s : State) : result Cell :=
  let? _ := AuthorizeCell ctx (ce_TenantID key) (ce_CellID key) "cells.get" in
  of_option (ErrCell ErrCellNotFound) (cs_Cells s !! ce_CellID key).

(** The renaming step of [State.Update]. *)
Definition rename (c : Cell) (n : string) : Cell :=
  if String.eqb n (c_Name c) then c
  else c <| c_Aliases := merge_sort str_le (c_Name c :: filter (λ a, a ≠ n) (c_Aliases c)) |>
         <| c_Name := n |>.

(** The new contents [State.Update] computes, before uniqueness is checked. *)
Definition updated (r : UpdateCellRequest) (c : Cell) : result Cell :=
  let? c1 := match uc_Name r with
    | Some n => let? _ := ValidateCellName n in Ok (rename c n)
    | None => Ok c
    end in
  let? c2 := match uc_Repo r with
    | Some raw => let? repo := NormalizeCellRepo raw in Ok (c1 <| c_Repo := repo |>)
    | None => Ok c1
    end in
  let c3 := match uc_Description r with Some d => c2 <| c_Description := d |> | None => c2 end in
  let? c4 := match uc_Metadata r with
    | None => Ok c3
    | Some None => Err (ErrCell ErrInvalidCell)
    | Some (Some m) =>
        let? _ := ValidateCellProperties (c_Description c3) m in
        Ok (c3 <| c_Metadata := canonicalMetadata m |>)
    end in
  let? _ := ValidateCellProperties (c_Description c4) (c_Metadata c4) in
  Ok c4.

Definition no_change_requested (r : UpdateCellRequest) : bool :=
  bool_decide (uc_Name r = None) && bool_decide (uc_Repo r = None)
  && bool_decide (uc_Description r = None) && bool_decide (uc_Metadata r = None).

(** [State.Update] *)
Definition Update (ctx : Context) (r : UpdateCellRequest) (now : time) (revision : string)
    : M State Cell := λ s,
  match
    let? c := Get ctx (uc_CellKey r) s in
    let? _ := AuthorizeCell ctx (ce_TenantID (uc_CellKey r)) (c_ID c) "cells.update" in
    let? _ := CheckCellRevision (uc_IfMatch r) (c_Revision c) in
    let? _ := guard_err (bool_decide (c_State c = CellActive)) (ErrCell ErrCellRetired) in
    let? _ := guard_err (negb (no_change_requested r)) (ErrCell ErrInvalidCell) in
    let? c' := updated r c in
    let? _ := unique s c' in
    Ok (c, c')
  with
  | Err e => (s, Err e)
  | Ok (old, c) =>
      if bool_decide (old = c) then (s, Ok c)
      else
        let c' := c <| c_Revision := revision |> <| c_UpdatedAt := now |> in
        (s <| cs_Cells := <[c_ID c := c']> (cs_Cells s) |>, Ok c')
  end.

(** [State.Retire]: [busy] asks the runtime whether the cell is still in use. *)
Definition Retire (ctx : Context) (r : RetireCellRequest) (busy : string → result bool)
    (now : time) (revision : string) : M State Cell := λ s,
  match
    let? c := Get ctx (rc_CellKey r) s in
    let? _ := AuthorizeCell ctx (ce_TenantID (rc_CellKey r)) (c_ID c) "cells.retire" in
    let? _ := CheckCellRevision (rc_IfMatch r) (c_Revision c) in
    Ok c
  with
  | Err e => (s, Err e)
  | Ok c =>
      if bool_decide (c_State c = CellRetired) then (s, Ok c)
      else match busy (c_ID c) with
      | Err e => (s, Err e)
      | Ok true => (s, Err (ErrCell ErrCellBusy))
      | Ok false =>
          let c' := c <| c_State := CellRetired |> <| c_RetiredAt := Some now |>
                      <| c_UpdatedAt := now |> <| c_Revision := revision |> in
          (s <| cs_Cells := <[c_ID c := c']> (cs_Cells s) |>, Ok c')
      end
  end.

(** [State.Resolve] *)
Definition Resolve (ctx : Context) (tenant name repo : string) (parent : option Cell)
    (existing : option ResolvedCell) (confirmation : bool) (s : State) : result ResolvedCell :=
  let? _ := ValidateCellName name in
  let restricted := bool_decide (parent = None) || bool_decide (is_Some (cx_Authority ctx)) in
  let? _ := (if restricted then AuthorizeCell ctx tenant "" "jobs.submit" else Ok tt) in
  let? repo := (if str_empty repo then Ok repo else NormalizeCellRepo repo) in
  let? _ := match ByName s name with
    | Some c => if restricted then AuthorizeCell ctx tenant (c_ID c) "jobs.submit" else Ok tt
    | None => Ok tt
    end in
  match existing, ByName s name with
  | Some ex, Some c =>
      let? _ := guard_err (String.eqb (c_ID c) (rs_CellID ex)
                           && (str_empty repo || String.eqb repo (rs_CellRepo ex)))
                  (ErrExistingJobMismatch "cell identity or repo differs") in
      let? _ := guard_err (confirmation || negb (bool_decide (c_State c = CellRetired)))
                  (ErrCell ErrCellRetired) in
      Ok (ex <| rs_Cell := c_Name c |>)
  | Some _, None => Err (ErrExistingJobMismatch "cell identity or repo differs")
  | None, Some c =>
      let? _ := guard_err (negb (bool_decide (c_State c = CellRetired))) (ErrCell ErrCellRetired) in
      let? _ := guard_err (str_empty repo || String.eqb repo (c_Repo c)) (ErrCell ErrCellRepoMismatch) in
      Ok (Resolved c)
  | None, None => Err (ErrCell ErrCellNotFound)
  end.

(** [State.Lookup] *)
Definition Lookup (name : string) (s : State) : result ResolvedCell :=
  let? _ := ValidateCellName name in
  match ByName s name with
  | None => Err (ErrCell ErrCellNotFound)
  | Some c => if bool_decide (c_State c = CellRetired) then Err (ErrCell ErrCellRetired)
              else Ok (Resolved c)
  end.

(** [State.Select]: [names] is nil when the caller asked for every cell. *)
Definition select_one (ctx : Context) (tenant permission : string) (s : State)
    (out : gset string) (name : string) : result (gset string) :=
  let? _ := ValidateCellName name in
  let? c := of_option (ErrCell ErrCellNotFound) (ByName s name) in
  let? _ := AuthorizeCell ctx tenant (c_ID c) permission in
  Ok ({[c_ID c]} ∪ out).
Definition Select (ctx : Context) (tenant : string) (ns : option (list string)) (permission : string)
    (s : State) : result (gset string) :=
  let? _ := AuthorizeCell ctx tenant "" permission in
  match ns with
  | Some [] => Err (ErrCell ErrInvalidCell)
  | Some ns => fold_result (select_one ctx tenant permission s) ∅ ns
  | None => Ok (list_to_set (filter (λ id, is_ok (AuthorizeCell ctx tenant id permission) = true)
                              (range (cs_Cells s)).*1))
  end.
End state.
