(* ===== verification/CellTheorems.v ===== *)
(** * CellTheorems: names identify cells, for good

    The registry's invariant (names, aliases and repos are unique across cells),
    its preservation, and what follows: resolution by name does not depend on map
    order and is stable, revisions guard updates, and retirement is final. *)

From S2P Require Import Prelude Types Cells CellState.

(** The mutating operations with the values they draw. *)
Inductive cell_op :=
  | CreateOp (ctx : Context) (req : CreateCellRequest) (now : time) (id revision : string)
  | LeaseCreateOp (ctx : Context) (p : LeaseProof) (lp : string) (req : CreateCellRequest)
      (now : time) (id revision : string)
  | UpdateOp (ctx : Context) (r : UpdateCellRequest) (now : time) (revision : string)
  | RetireOp (ctx : Context) (r : RetireCellRequest) (busy : string → result bool)
      (now : time) (revision : string).

Section registry.
Context `{CellText} `{RangeOrder}.

Definition run_cell (op : cell_op) : M State Cell :=
  match op with
  | CreateOp ctx req now id rev => Create ctx req now id rev
  | LeaseCreateOp ctx p lp req now id rev => CreateWithLease ctx p lp req now id rev
  | UpdateOp ctx r now rev => Update ctx r now rev
  | RetireOp ctx r busy now rev => Retire ctx r busy now rev
  end.

(** A generated ID is new. *)
Definition fresh_id (op : cell_op) (s : State) : Prop :=
  match op with
  | CreateOp _ _ _ id _ | LeaseCreateOp _ _ _ _ _ id _ => cs_Cells s !! id = None
  | _ => True
  end.

Record reg_ok (s : State) : Prop := {
  ro_id : ∀ id c, cs_Cells s !! id = Some c → c_ID c = id;
  ro_names : ∀ id1 id2 c1 c2 n, cs_Cells s !! id1 = Some c1 → cs_Cells s !! id2 = Some c2 →
    n ∈ names c1 → n ∈ names c2 → id1 = id2;
  ro_repos : ∀ id1 id2 c1 c2, cs_Cells s !! id1 = Some c1 → cs_Cells s !! id2 = Some c2 →
    c_Repo c1 = c_Repo c2 → id1 = id2;
  ro_nodup : ∀ id c, cs_Cells s !! id = Some c → NoDup (names c)
}.

Lemma by_name_some s n c :
  ByName s n = Some c → ∃ id, cs_Cells s !! id = Some c ∧ n ∈ names c.
Proof.
  unfold ByName. destruct (list_find _ _) as [[i [id c']]|] eqn:Hf; simpl; [|done].
  intros [= ->]. apply list_find_Some in Hf as (Hl & Hn & _). exists id. split.
  - apply elem_of_range. by eapply list_elem_of_lookup_2.
  - simpl in Hn. unfold has_name in Hn. by apply bool_decide_eq_true in Hn.
Qed.

Lemma by_name_exists s n id c :
  cs_Cells s !! id = Some c → n ∈ names c → ∃ c', ByName s n = Some c'.
Proof.
  intros Hc Hn. unfold ByName. destruct (list_find _ _) as [[i kc]|] eqn:Hf; [simpl; eauto|exfalso].
  apply list_find_None in Hf. rewrite Forall_forall in Hf. apply (Hf (id, c)).
  - by apply elem_of_range.
  - simpl. unfold has_name. by apply bool_decide_eq_true.
Qed.

Lemma by_name_spec s n id c :
  reg_ok s → cs_Cells s !! id = Some c → n ∈ names c → ByName s n = Some c.
Proof.
  intros Hok Hc Hn. destruct (by_name_exists s n id c Hc Hn) as [c' Hc'].
  destruct (by_name_some _ _ _ Hc') as (id' & Hl & Hn').
  assert (id' = id) as -> by (eapply ro_names; eauto). congruence.
Qed.

Lemma by_name_none s n : ByName s n = None → ∀ id c, cs_Cells s !! id = Some c → n ∉ names c.
Proof. intros Hb id c Hc Hn. destruct (by_name_exists s n id c Hc Hn). congruence. Qed.

(** What [unique] checks. *)
Lemma unique_spec s c id o :
  reg_ok s → unique s c = Ok tt → cs_Cells s !! id = Some o → id ≠ c_ID c →
  c_Repo o ≠ c_Repo c ∧ ∀ n, n ∈ names c → n ∉ names o.
Proof.
  intros Hok Hu Ho Hne. apply bind_ok in Hu as ([] & Hr & Hn). unfold guard_err in *.
  pose proof (ro_id s Hok _ _ Ho) as Hid. split.
  - intros Heq. destruct (negb (existsb _ _)) eqn:He in Hr; [|done]. apply negb_true_iff in He.
    assert (existsb (λ kc, negb (String.eqb (c_ID kc.2) (c_ID c)) && String.eqb (c_Repo kc.2) (c_Repo c))
      (range (cs_Cells s)) = true) as Ht; [|congruence].
    apply existsb_exists. exists (id, o). split; [by apply list_elem_of_In, elem_of_range|]. simpl.
    rewrite Hid, Heq, String.eqb_refl. by destruct (String.eqb_spec id (c_ID c)).
  - intros n Hnc Hno. destruct (negb (existsb _ _)) eqn:He in Hn; [|done]. apply negb_true_iff in He.
    assert (existsb (λ n, match ByName s n with
      | Some old => negb (String.eqb (c_ID old) (c_ID c)) | None => false end) (names c) = true) as Ht;
      [|congruence].
    apply existsb_exists. exists n. split; [by apply list_elem_of_In|].
    rewrite (by_name_spec s n id o Hok Ho Hno), Hid. by destruct (String.eqb_spec id (c_ID c)).
Qed.

(** Storing a unique cell keeps the invariant. *)
Lemma insert_ok s c c' cr :
  reg_ok s → unique s c = Ok tt → NoDup (names c) →
  c_ID c' = c_ID c → names c' = names c → c_Repo c' = c_Repo c →
  reg_ok (s <| cs_Cells := <[c_ID c := c']> (cs_Cells s) |> <| cs_Creations := cr |>).
Proof.
  intros Hok Hu Hnd Hid Hnames Hrepo.
  assert (∀ id o, id ≠ c_ID c → cs_Cells s !! id = Some o →
    c_Repo o ≠ c_Repo c ∧ ∀ n, n ∈ names c → n ∉ names o) as Hdis by (intros; by eapply unique_spec).
  split; simpl.
  - intros id o [[<- <-]|[_ Ho]]%lookup_insert_Some; [done|by apply (ro_id s Hok)].
  - intros id1 id2 c1 c2 n [[<- <-]|[Hn1 H1]]%lookup_insert_Some [[<- <-]|[Hn2 H2]]%lookup_insert_Some Ha Hb;
      [done|exfalso|exfalso|by eapply (ro_names s Hok)].
    + rewrite Hnames in Ha. by destruct (Hdis id2 c2 ltac:(congruence) H2) as [_ Hd]; apply (Hd n).
    + rewrite Hnames in Hb. by destruct (Hdis id1 c1 ltac:(congruence) H1) as [_ Hd]; apply (Hd n).
  - intros id1 id2 c1 c2 [[<- <-]|[Hn1 H1]]%lookup_insert_Some [[<- <-]|[Hn2 H2]]%lookup_insert_Some Heq;
      [done|exfalso|exfalso|by eapply (ro_repos s Hok)].
    + destruct (Hdis id2 c2 ltac:(congruence) H2) as [Hd _]. apply Hd. congruence.
    + destruct (Hdis id1 c1 ltac:(congruence) H1) as [Hd _]. apply Hd. congruence.
  - intros id o [[<- <-]|[_ Ho]]%lookup_insert_Some; [by rewrite Hnames|by eapply (ro_nodup s Hok)].
Qed.

(** How a cell may change: its identity is fixed, it keeps answering to the names
    it had, and once retired it is frozen. *)
Record cell_evolves (c c' : Cell) : Prop := {
  ev_id : c_ID c' = c_ID c;
  ev_tenant : c_TenantID c' = c_TenantID c;
  ev_created : c_CreatedAt c' = c_CreatedAt c;
  ev_names : ∀ n, n ∈ names c → n ∈ names c';
  ev_retired : c_State c = CellRetired → c' = c
}.
#[export] Instance cell_evolves_refl : Reflexive cell_evolves.
Proof. by intros c. Qed.

Lemma rename_names c n m : m ∈ names (rename c n) ↔ m = n ∨ m ∈ names c.
Proof.
  unfold rename. destruct (String.eqb_spec n (c_Name c)) as [->|Hne]; unfold names; simpl.
  - set_solver.
  - rewrite !elem_of_cons, (merge_sort_Permutation str_le _), elem_of_cons, list_elem_of_filter.
    split; [intros [->|[->|[_ ?]]]; auto|].
    intros [->|[->|?]]; [by left|by right; left|]. destruct (decide (m = n)); [by left|]. auto.
Qed.

Lemma rename_nodup c n : NoDup (names c) → NoDup (names (rename c n)).
Proof.
  unfold rename. destruct (String.eqb_spec n (c_Name c)) as [->|Hne]; [done|]. unfold names. simpl.
  intros [Hn Hnd]%NoDup_cons. rewrite (merge_sort_Permutation str_le _).
  apply NoDup_cons. split; [|apply NoDup_cons; split; [|by apply NoDup_filter]].
  - rewrite elem_of_cons, list_elem_of_filter. naive_solver.
  - rewrite list_elem_of_filter. naive_solver.
Qed.

Lemma updated_spec r c c' :
  updated r c = Ok c' →
  c_ID c' = c_ID c ∧ c_TenantID c' = c_TenantID c ∧ c_CreatedAt c' = c_CreatedAt c ∧
  c_State c' = c_State c ∧ c_Revision c' = c_Revision c ∧
  (∀ n, n ∈ names c → n ∈ names c') ∧ (NoDup (names c) → NoDup (names c')).
Proof.
  intros Hu. apply bind_ok in Hu as (c1 & H1 & Hu). apply bind_ok in Hu as (c2 & H2 & Hu).
  apply bind_ok in Hu as (c4 & H4 & Hu). apply bind_ok in Hu as ([] & _ & Hu). injection Hu as <-.
  assert (∀ x y : Cell, (λ c, (c_ID c, c_TenantID c, c_CreatedAt c, c_State c, c_Revision c, names c)) x =
      (λ c, (c_ID c, c_TenantID c, c_CreatedAt c, c_State c, c_Revision c, names c)) y →
    names y = names x ∧ c_ID y = c_ID x ∧ c_TenantID y = c_TenantID x ∧ c_CreatedAt y = c_CreatedAt x ∧
    c_State y = c_State x ∧ c_Revision y = c_Revision x) as Hsame by (intros x y [=]; unfold names; repeat split; congruence).
  assert (names c4 = names c1 ∧ c_ID c4 = c_ID c1 ∧ c_TenantID c4 = c_TenantID c1 ∧
    c_CreatedAt c4 = c_CreatedAt c1 ∧ c_State c4 = c_State c1 ∧ c_Revision c4 = c_Revision c1)
    as (-> & -> & -> & -> & -> & ->).
  { apply Hsame. clear Hsame. destruct (uc_Metadata r) as [[m|]|]; [|done|].
    - apply bind_ok in H4 as ([] & _ & H4). injection H4 as <-.
      destruct (uc_Repo r); [apply bind_ok in H2 as (? & _ & H2)|]; injection H2 as <-;
        by destruct (uc_Description r).
    - injection H4 as <-. destruct (uc_Repo r); [apply bind_ok in H2 as (? & _ & H2)|]; injection H2 as <-;
        by destruct (uc_Description r). }
  destruct (uc_Name r) as [n|]; [apply bind_ok in H1 as ([] & _ & H1)|]; injection H1 as <-; [|done].
  do 5 (split; [by unfold rename; destruct (String.eqb n (c_Name c))|]).
  split; [intros m Hm; apply rename_names; by right|apply rename_nodup].
Qed.

(** Every operation: the new registry, and each cell's evolution. *)
Definition cells_step (s s' : State) : Prop :=
  (reg_ok s → reg_ok s') ∧
  ∀ id c, cs_Cells s !! id = Some c → ∃ c', cs_Cells s' !! id = Some c' ∧ cell_evolves c c'.

Lemma cells_step_refl s : cells_step s s.
Proof. split; [done|]. intros id c Hc. by exists c. Qed.

Lemma create_step ctx req now id rev s :
  reg_ok s → cs_Cells s !! id = None → cells_step s (Create ctx req now id rev s).1.
Proof.
  intros Hok Hfresh. unfold Create.
  match goal with |- context [match ?m with Ok _ => _ | Err _ => _ end] => destruct m as [req'|e] end;
    [|apply cells_step_refl].
  match goal with |- context [match ?m with Some _ => _ | None => _ end] => destruct m as [r|] end;
    [apply cells_step_refl|].
  set (c := mkCell _ id _ _ _ _ _ _ _ _ _ _).
  destruct (unique s c) as [[]|e] eqn:Hu; [|apply cells_step_refl]. simpl. split.
  - intros _. apply (insert_ok s c c); [done|done| |done..]. unfold names. simpl. by apply NoDup_singleton.
  - intros id' c' Hc'. simpl. exists c'. rewrite lookup_insert_ne by congruence. by split.
Qed.

Lemma store_evolved_step s c c' :
  reg_ok s → cs_Cells s !! c_ID c = Some c → cell_evolves c c' →
  (reg_ok s → reg_ok (s <| cs_Cells := <[c_ID c := c']> (cs_Cells s) |>)) →
  cells_step s (s <| cs_Cells := <[c_ID c := c']> (cs_Cells s) |>).
Proof.
  intros Hok Hc He Hr. split; [done|]. intros id o Ho. simpl.
  destruct (decide (id = c_ID c)) as [->|Hne].
  - rewrite Hc in Ho. injection Ho as <-. exists c'. by rewrite lookup_insert_eq.
  - exists o. by rewrite lookup_insert_ne by congruence.
Qed.

Lemma get_spec ctx key s c : Get ctx key s = Ok c → cs_Cells s !! ce_CellID key = Some c.
Proof.
  intros Hg. apply bind_ok in Hg as ([] & _ & Hg). by destruct (cs_Cells s !! _); simpl in Hg; simplify_eq.
Qed.

Lemma update_step ctx r now rev s : reg_ok s → cells_step s (Update ctx r now rev s).1.
Proof.
  intros Hok. unfold Update.
  match goal with |- context [match ?m with Ok _ => _ | Err _ => _ end] => destruct m as [[old c]|e] eqn:Hm end;
    [|apply cells_step_refl].
  apply bind_ok in Hm as (c0 & Hget & Hm). do 2 (apply bind_ok in Hm as ([] & _ & Hm)).
  apply bind_ok in Hm as ([] & Hact & Hm). apply bind_ok in Hm as ([] & _ & Hm).
  apply bind_ok in Hm as (c' & Hup & Hm). apply bind_ok in Hm as ([] & Hu & Hm). injection Hm as -> ->.
  destruct (bool_decide (old = c)); [apply cells_step_refl|]. simpl.
  pose proof (get_spec _ _ _ _ Hget) as Hc. pose proof (ro_id s Hok _ _ Hc) as Hid.
  destruct (updated_spec _ _ _ Hup) as (Eid & Et & Ecr & Est & _ & En & End).
  set (c' := c <| c_Revision := rev |> <| c_UpdatedAt := now |>).
  change (s <| cs_Cells := <[c_ID c := c']> (cs_Cells s) |>)
    with (s <| cs_Cells := <[c_ID c := c']> (cs_Cells s) |> <| cs_Creations := cs_Creations s |>).
  assert (reg_ok (s <| cs_Cells := <[c_ID c := c']> (cs_Cells s) |> <| cs_Creations := cs_Creations s |>)) as Hr.
  { apply (insert_ok s c c'); try done. apply End. by eapply (ro_nodup s Hok). }
  split; [done|]. intros id o Ho. simpl. destruct (decide (id = c_ID c)) as [->|Hne].
  - rewrite Eid, Hid in Ho. rewrite Hc in Ho. injection Ho as <-. exists c'.
    rewrite lookup_insert_eq. split; [done|]. split; [done|done|done|done|].
    intros Hret. unfold guard_err in Hact. by rewrite bool_decide_false in Hact by congruence.
  - exists o. by rewrite lookup_insert_ne by congruence.
Qed.

Lemma retire_step ctx r busy now rev s : reg_ok s → cells_step s (Retire ctx r busy now rev s).1.
Proof.
  intros Hok. unfold Retire.
  match goal with |- context [match ?m with Ok _ => _ | Err _ => _ end] => destruct m as [c|e] eqn:Hm end;
    [|apply cells_step_refl].
  apply bind_ok in Hm as (c0 & Hget & Hm). do 2 (apply bind_ok in Hm as ([] & _ & Hm)). injection Hm as ->.
  pose proof (get_spec _ _ _ _ Hget) as Hc. pose proof (ro_id s Hok _ _ Hc) as Hid.
  case_bool_decide as Hst; [apply cells_step_refl|].
  destruct (busy (c_ID c)) as [[]|e]; [apply cells_step_refl| |apply cells_step_refl]. simpl.
  apply store_evolved_step; [done|by rewrite Hid|by split|]. intros _.
  destruct Hok as [R1 R2 R3 R4]. rewrite <- Hid in Hc.
  split; simpl.
  - intros id o [[<- <-]|[_ Ho]]%lookup_insert_Some; [done|by apply R1].
  - intros id1 id2 c1 c2 n [[<- <-]|[Hn1 H1]]%lookup_insert_Some [[<- <-]|[Hn2 H2]]%lookup_insert_Some Ha Hb;
      [done|by eapply (R2 _ _ c c2 n)|by eapply (R2 _ _ c1 c n)|by eapply R2].
  - intros id1 id2 c1 c2 [[<- <-]|[Hn1 H1]]%lookup_insert_Some [[<- <-]|[Hn2 H2]]%lookup_insert_Some Ha;
      [done|by eapply (R3 _ _ c c2)|by eapply (R3 _ _ c1 c)|by eapply R3].
  - intros id o [[<- <-]|[_ Ho]]%lookup_insert_Some; [by eapply (R4 _ c)|by eapply R4].
Qed.

Lemma run_step op s : reg_ok s → fresh_id op s → cells_step s (run_cell op s).1.
Proof.
  intros Hok Hf. destruct op; simpl in *.
  - by apply create_step.
  - unfold CreateWithLease. destruct (_ && _); [apply cells_step_refl|by apply create_step].
  - by apply update_step.
  - by apply retire_step.
Qed.

(** C15. The registry invariant: cell IDs key their rows, and names, aliases and
    repos are unique across the tenant's cells, initially and after every
    operation, whether or not it succeeds. *)
Theorem registry_invariant op s key :
  fresh_id op s → reg_ok s → reg_ok (New key) ∧ reg_ok (run_cell op s).1.
Proof.
  intros Hf Hok. split; [|by apply run_step]. split; simpl.
  - intros id c Hc. by rewrite lookup_empty in Hc.
  - intros id1 id2 c1 c2 n Hc. by rewrite lookup_empty in Hc.
  - intros id1 id2 c1 c2 Hc. by rewrite lookup_empty in Hc.
  - intros id c Hc. by rewrite lookup_empty in Hc.
Qed.

(** C16. Names are stable: a name that resolves to a cell resolves to the same
    cell ID after every operation, renames included, and a retired cell never
    changes again. *)
Theorem name_stability op s n c :
  fresh_id op s → reg_ok s → ByName s n = Some c →
  ∃ c', ByName (run_cell op s).1 n = Some c' ∧ c_ID c' = c_ID c ∧
        (c_State c = CellRetired → c' = c).
Proof.
  intros Hf Hok Hn. destruct (run_step op s Hok Hf) as [Hok' Hev].
  destruct (by_name_some _ _ _ Hn) as (id & Hc & Hin).
  destruct (Hev id c Hc) as (c' & Hc' & He). exists c'. split; [|split; [by apply ev_id|by apply ev_retired]].
  eapply by_name_spec; [by apply Hok'|done|by apply (ev_names _ _ He)].
Qed.
End registry.

(** Resolution by name does not depend on the order in which Go ranges over
    the registry's map. *)
Theorem by_name_order_independent (R1 R2 : RangeOrder) s n :
  reg_ok s → @ByName R1 s n = @ByName R2 s n.
Proof.
  intros Hok. destruct (@ByName R1 s n) as [c|] eqn:H1.
  - destruct (@by_name_some R1 _ _ _ H1) as (id & Hc & Hin). symmetry. by eapply (@by_name_spec R2).
  - destruct (@ByName R2 s n) as [c|] eqn:H2; [|done].
    destruct (@by_name_some R2 _ _ _ H2) as (id & Hc & Hin).
    by destruct (@by_name_none R1 _ _ H1 id c Hc).
Qed.

Section guards.
Context `{CellText} `{RangeOrder}.

Lemma check_revision_ok h rev : CheckCellRevision h rev = Ok tt → h = quoted rev.
Proof.
  intros Hc. do 2 (apply bind_ok in Hc as ([] & _ & Hc)). unfold guard_err in Hc.
  by destruct (String.eqb_spec h (quoted rev)).
Qed.

Lemma quoted_inj r1 r2 : quoted r1 = quoted r2 → r1 = r2.
Proof.
  unfold quoted. intros Hq. injection Hq as Hq. revert r2 Hq.
  induction r1 as [|a r1 IH]; intros [|b r2] Hq; simpl in Hq; [done| | |].
  - injection Hq as -> Hq. by destruct r2.
  - injection Hq as <- Hq. by destruct r1.
  - injection Hq as -> Hq. f_equal. by apply IH.
Qed.

Lemma check_revision_ne h rev rev' :
  CheckCellRevision h rev = Ok tt → rev' ≠ rev → CheckCellRevision h rev' = Err (ErrCell ErrCellPrecondition).
Proof.
  intros Hc Hne. pose proof (check_revision_ok _ _ Hc) as Hh. unfold CheckCellRevision in *.
  apply bind_ok in Hc as ([] & H1 & Hc). apply bind_ok in Hc as ([] & H2 & Hc). rewrite H1. simpl.
  rewrite H2. simpl. unfold guard_err. destruct (String.eqb_spec h (quoted rev')); [|done].
  exfalso. apply Hne, quoted_inj. congruence.
Qed.

(** Updates are guarded by the revision: a successful update named the
    stored revision of an active cell and either changed nothing or stored the
    returned cell under a new revision; repeating the request with the stale
    revision is then refused without a change. *)
Theorem update_guarded ctx r now rev s s' c now2 rev2 :
  reg_ok s → Update ctx r now rev s = (s', Ok c) →
  ∃ old, cs_Cells s !! ce_CellID (uc_CellKey r) = Some old ∧ c_State old = CellActive ∧
    uc_IfMatch r = quoted (c_Revision old) ∧ c_ID c = c_ID old ∧
    (s' = s ∧ c = old ∨
     cs_Cells s' !! ce_CellID (uc_CellKey r) = Some c ∧ c_Revision c = rev ∧
     (rev ≠ c_Revision old → Update ctx r now2 rev2 s' = (s', Err (ErrCell ErrCellPrecondition)))).
Proof.
  intros Hok Hs. unfold Update in Hs.
  match type of Hs with match ?m with Ok _ => _ | Err _ => _ end = _ =>
    destruct m as [[old c1]|e] eqn:Hm end; [|done].
  apply bind_ok in Hm as (c0 & Hget & Hm). apply bind_ok in Hm as ([] & Hauth & Hm).
  apply bind_ok in Hm as ([] & Hrev & Hm). apply bind_ok in Hm as ([] & Hact & Hm).
  apply bind_ok in Hm as ([] & _ & Hm). apply bind_ok in Hm as (c' & Hup & Hm).
  apply bind_ok in Hm as ([] & Hu & Hm). injection Hm as -> ->.
  pose proof (get_spec _ _ _ _ Hget) as Hc. pose proof (ro_id s Hok _ _ Hc) as Hid.
  destruct (updated_spec _ _ _ Hup) as (Eid & _). exists old. split; [done|].
  unfold guard_err in Hact. destruct (decide (c_State old = CellActive)) as [Ha|Ha];
    [|by rewrite bool_decide_false in Hact].
  split; [done|]. split; [by apply check_revision_ok|].
  destruct (decide (old = c1)) as [<-|Hne].
  { rewrite bool_decide_true in Hs by done. simplify_eq. by auto. }
  rewrite bool_decide_false in Hs by done. injection Hs as <- <-. split; [done|]. right.
  assert (∀ x, <[c_ID c1 := x]> (cs_Cells s) !! ce_CellID (uc_CellKey r) = Some x) as Hl
    by (intros x; rewrite Eid, Hid; apply lookup_insert_eq).
  split; [simpl; apply Hl|]. split; [done|]. intros Hr. unfold Update, Get. simpl.
  apply bind_ok in Hget as ([] & Hga & _). rewrite Hga. simpl. rewrite Hl. simpl.
  rewrite Eid, Hauth. simpl. by rewrite (check_revision_ne _ _ _ Hrev Hr).
Qed.

(** Selection never leaves the caller's authority: every cell ID returned is
    a registered cell the caller may use for that permission. *)
Theorem select_within_authority ctx tenant ns perm s ids id :
  reg_ok s → Select ctx tenant ns perm s = Ok ids → id ∈ ids →
  is_Some (cs_Cells s !! id) ∧ AuthorizeCell ctx tenant id perm = Ok tt.
Proof.
  intros Hok Hs. apply bind_ok in Hs as ([] & _ & Hs). destruct ns as [[|n ns]|]; [done| |].
  - assert (∀ l out ids, fold_result (select_one ctx tenant perm s) out l = Ok ids →
      (∀ i, i ∈ out → is_Some (cs_Cells s !! i) ∧ AuthorizeCell ctx tenant i perm = Ok tt) →
      ∀ i, i ∈ ids → is_Some (cs_Cells s !! i) ∧ AuthorizeCell ctx tenant i perm = Ok tt) as Hfold.
    { clear Hs. induction l as [|m l IH]; intros out ids' Hf Hout; simpl in Hf; [by simplify_eq|].
      apply bind_ok in Hf as (out1 & H1 & Hf). apply (IH _ _ Hf).
      apply bind_ok in H1 as ([] & _ & H1). apply bind_ok in H1 as (c & Hc & H1).
      apply bind_ok in H1 as ([] & Hauth & H1). injection H1 as <-.
      destruct (ByName s m) as [c'|] eqn:Hb; simpl in Hc; [|done]. injection Hc as ->.
      destruct (by_name_some _ _ _ Hb) as (i' & Hl & _). pose proof (ro_id s Hok _ _ Hl) as Hid.
      intros i [->%elem_of_singleton|Hi]%elem_of_union; [|by apply Hout]. rewrite Hid in *. eauto. }
    intros Hid. eapply Hfold; [exact Hs| |exact Hid]. set_solver.
  - injection Hs as <-. rewrite elem_of_list_to_set, list_elem_of_filter.
    intros [Ha ([i c] & -> & Hin)%list_elem_of_fmap]. apply elem_of_range in Hin. simpl in *.
    split; [eauto|]. by destruct (AuthorizeCell ctx tenant i perm) as [[]|].
Qed.

(** Creation with a request ID is idempotent: repeating the request returns
    the same cell and changes nothing; once that cell is retired the retry is
    refused instead. *)
Theorem create_idempotent ctx req now id rev s s' c now2 id2 rev2 :
  cs_Cells s !! id = None → cr_RequestID req ≠ "" →
  list_find (λ r, same_request ctx req r = true) (cs_Creations s) = None →
  Create ctx req now id rev s = (s', Ok c) →
  cs_Cells s' !! c_ID c = Some c ∧ Create ctx req now2 id2 rev2 s' = (s', Ok c) ∧
  ∀ s'' cr, cs_Creations s'' = cs_Creations s' → cs_Cells s'' !! c_ID c = Some cr →
    c_State cr = CellRetired → Create ctx req now2 id2 rev2 s'' = (s'', Err (ErrCell ErrCellRetired)).
Proof.
  intros Hfresh Hreq Hnew Hs. unfold Create in *.
  match type of Hs with match ?m with Ok _ => _ | Err _ => _ end = _ => destruct m as [req'|e] eqn:Hm end; [|done].
  assert (cr_RequestID req' = cr_RequestID req) as Hid.
  { do 2 (apply bind_ok in Hm as ([] & _ & Hm)). apply bind_ok in Hm as (repo & _ & Hm).
    do 2 (apply bind_ok in Hm as ([] & _ & Hm)). by injection Hm as <-. }
  assert (∀ r, same_request ctx req' r = same_request ctx req r) as Hsr
    by (intros r; unfold same_request; by rewrite Hid).
  assert (str_empty (cr_RequestID req') = false) as Hne.
  { rewrite Hid. unfold str_empty. by destruct (String.eqb_spec (cr_RequestID req) ""). }
  assert (list_find (λ r, same_request ctx req' r = true) (cs_Creations s) = None) as Hnew'.
  { apply list_find_None. apply list_find_None in Hnew. eapply Forall_impl; [exact Hnew|].
    intros r. by rewrite Hsr. }
  rewrite Hne, Hnew' in Hs. simpl in Hs. set (c0 := mkCell _ id _ _ _ _ _ _ _ _ _ _) in Hs.
  destruct (unique s c0) as [[]|e]; [|done]. injection Hs as <- <-.
  set (cn := mkCreation (principal ctx) (cr_RequestID req') (request_digest req') c0) in *.
  assert (∀ (P : Creation → Prop) `{∀ r, Decision (P r)} l, list_find P l = None → P cn →
    snd <$> list_find P (l ++ [cn]) = Some cn) as Hfind.
  { intros P HP l Hl Hcn. rewrite list_find_app_r by done. simpl. rewrite decide_True by done. done. }
  assert (same_request ctx req' cn = true) as Hcn
    by (unfold same_request; simpl; by rewrite !String.eqb_refl).
  assert (snd <$> list_find (λ r, same_request ctx req' r = true) (cs_Creations s ++ [cn]) = Some cn) as Hget
    by (by apply Hfind).
  split; [simpl; apply lookup_insert_eq|]. split.
  - rewrite Hne. simpl. rewrite Hget. simpl. rewrite String.eqb_refl. simpl.
    by rewrite lookup_insert_eq.
  - intros s'' cr Hcr Hl Hret. simpl in Hcr, Hl. rewrite Hne, Hcr, Hget. simpl.
    rewrite String.eqb_refl. simpl. rewrite Hl. by rewrite bool_decide_true.
Qed.
End guards.

(** ** A concrete registry *)
Module cell_sample.
(** Library functions on the plain locators and empty metadata used here. *)
#[export] Instance plain_text : CellText := {|
  url_Parse := λ _, None; ToLower := λ s, s; json_Valid := λ _, true; json_reencode := λ s, s;
  metadata_len := λ m, if decide (m = ∅) then 2 else N.to_nat 20000;
  request_digest := λ r, cr_Name r +:+ "|" +:+ cr_Repo r
|}.
#[export] Existing Instance stdpp_range_order.

Definition auth : CellAuthority :=
  mkAuthority "alice" "t" {["cells.create"; "cells.get"; "cells.update"; "jobs.acquire"]} None.
Definition ctx : Context := mkContext (Some auth) None None.
Definition req : CreateCellRequest := mkCreateCell "t" "alpha" "host/a" "" ∅ "r1".
Definition alpha : Cell := mkCell "t" "id1" "alpha" "host/a" "" ∅ CellActive [] "rev1" 5 5 None.
Definition one : State := mkState "k" {[ "id1" := alpha ]} [mkCreation "alice" "r1" "alpha|host/a" alpha].
Definition to_beta : UpdateCellRequest :=
  mkUpdateCell (mkCellKey "t" "id1") (quoted "rev1") (Some "beta") None None None.

Lemma create_one : Create ctx req 5 "id1" "rev1" (New "k") = (one, Ok alpha).
Proof. vm_compute. reflexivity. Qed.

Lemma one_ok : reg_ok one.
Proof.
  assert (∀ id c, cs_Cells one !! id = Some c → id = "id1" ∧ c = alpha) as Hone
    by (intros id c Hc; simpl in Hc; by apply lookup_singleton_Some in Hc as [<- <-]).
  split.
  - by intros id c [-> ->]%Hone.
  - by intros id1 id2 c1 c2 n [-> ->]%Hone [-> ->]%Hone.
  - by intros id1 id2 c1 c2 [-> ->]%Hone [-> ->]%Hone.
  - intros id c [-> ->]%Hone. apply NoDup_singleton.
Qed.
End cell_sample.

(** ** Witnesses *)
Import cell_sample.

Lemma registry_invariant_witness : reg_ok (Create ctx req 5 "id1" "rev1" (New "k")).1.
Proof.
  refine (proj2 (registry_invariant (CreateOp ctx req 5 "id1" "rev1") (New "k") "k" _ _)).
  - reflexivity.
  - split; simpl; intros *; rewrite ?lookup_empty; done.
Defined.

Lemma name_stability_witness :
  ∃ c', ByName (Update ctx to_beta 6 "rev2" one).1 "alpha" = Some c' ∧ c_ID c' = "id1" ∧ c_Name c' = "beta".
Proof.
  destruct (name_stability (UpdateOp ctx to_beta 6 "rev2") one "alpha" alpha I one_ok) as (c' & Hb & Hid & _);
    [vm_compute; reflexivity|].
  exists c'. split; [exact Hb|]. split; [exact Hid|].
  vm_compute in Hb. injection Hb as <-. reflexivity.
Defined.

Lemma by_name_order_independent_witness :
  @ByName stdpp_range_order one "alpha" = @ByName backward_range_order one "alpha".
Proof. exact (by_name_order_independent stdpp_range_order backward_range_order one "alpha" one_ok). Defined.

Definition beta : Cell := mkCell "t" "id1" "beta" "host/a" "" ∅ CellActive ["alpha"] "rev2" 5 6 None.
Definition renamed : State := mkState "k" {[ "id1" := beta ]} [mkCreation "alice" "r1" "alpha|host/a" alpha].
Lemma update_one : Update ctx to_beta 6 "rev2" one = (renamed, Ok beta).
Proof. vm_compute. reflexivity. Qed.

Lemma update_guarded_witness :
  Update ctx to_beta 9 "rev3" renamed = (renamed, Err (ErrCell ErrCellPrecondition)).
Proof.
  destruct (update_guarded ctx to_beta 6 "rev2" one renamed beta 9 "rev3" one_ok update_one)
    as (old & Hold & _ & _ & _ & [[Hs _]|(_ & _ & Hr)]).
  - vm_compute in Hs. discriminate Hs.
  - apply Hr. vm_compute in Hold. injection Hold as <-. vm_compute. discriminate.
Defined.

Lemma select_within_authority_witness :
  ∃ ids, Select ctx "t" None "jobs.acquire" one = Ok ids ∧
         AuthorizeCell ctx "t" "id1" "jobs.acquire" = Ok tt.
Proof.
  exists {["id1"]}. split; [vm_compute; reflexivity|].
  apply (select_within_authority ctx "t" None "jobs.acquire" one {["id1"]} "id1" one_ok);
    [vm_compute; reflexivity|set_solver].
Defined.

Lemma create_idempotent_witness : Create ctx req 9 "id2" "rev9" one = (one, Ok alpha).
Proof.
  apply (create_idempotent ctx req 5 "id1" "rev1" (New "k") one alpha 9 "id2" "rev9");
    [reflexivity|discriminate|reflexivity|exact create_one].
Defined.

(** Normalising a locator is not idempotent: a path with two [.git] suffixes loses
    one at a time.  A cell created for such a locator reports a repo that no longer
    matches the cell when a client sends it back. *)
Theorem repo_normalisation_not_stable :
  NormalizeCellRepo "host/a.git.git" = Ok "host/a.git" ∧
  NormalizeCellRepo "host/a.git" = Ok "host/a" ∧
  ∃ s, reg_ok s ∧ Resolve (mkContext None None None) "t" "alpha" "host/a.git" (Some alpha) None false s
       = Err (ErrCell ErrCellRepoMismatch) ∧
       ∃ c, ByName s "alpha" = Some c ∧ c_Repo c = "host/a.git".
Proof.
  split; [vm_compute; reflexivity|]. split; [vm_compute; reflexivity|].
  exists (mkState "k" {[ "id1" := alpha <| c_Repo := "host/a.git" |> ]} []). split.
  - assert (∀ id c, cs_Cells (mkState "k" {[ "id1" := alpha <| c_Repo := "host/a.git" |> ]} []) !! id = Some c →
      id = "id1" ∧ c = alpha <| c_Repo := "host/a.git" |>) as Hone
      by (intros id c Hc; simpl in Hc; by apply lookup_singleton_Some in Hc as [<- <-]).
    split.
    + by intros id c [-> ->]%Hone.
    + by intros id1 id2 c1 c2 n [-> ->]%Hone [-> ->]%Hone.
    + by intros id1 id2 c1 c2 [-> ->]%Hone [-> ->]%Hone.
    + intros id c [-> ->]%Hone. apply NoDup_singleton.
  - split; [vm_compute; reflexivity|]. eexists. split; vm_compute; reflexivity.
Qed.
