(* ===== verification/Base64.v ===== *)
(** * Base64: [base64.RawURLEncoding]

    The URL alphabet without padding, as page tokens and lease credentials use it.
    The decoder skips carriage returns and line feeds, as Go's does, and its strict
    form rejects a last digit whose unused bits are set.  Decoding undoes encoding. *)

From S2P Require Import Prelude.
Open Scope N_scope.

Definition alphabet : string := "ABCDEFGHIJKLMNOPQRSTUVWXYZabcdefghijklmnopqrstuvwxyz0123456789-_".
Definition digit (n : N) : Ascii.ascii := default (Ascii.ascii_of_N 65) (String.get (N.to_nat n) alphabet).
Fixpoint index_of (a : Ascii.ascii) (i : N) (s : string) : option N :=
  match s with
  | EmptyString => None
  | String b s => if Ascii.eqb a b then Some i else index_of a (i + 1) s
  end.
Definition digit_value (a : Ascii.ascii) : option N := index_of a 0 alphabet.

(** [EncodeToString] *)
Fixpoint raw_url_encode (s : string) : string :=
  match s with
  | EmptyString => EmptyString
  | String a EmptyString =>
      let n := Ascii.N_of_ascii a in
      String (digit (n / 4)) (String (digit (n mod 4 * 16)) EmptyString)
  | String a (String b EmptyString) =>
      let n := Ascii.N_of_ascii a * 256 + Ascii.N_of_ascii b in
      String (digit (n / 1024)) (String (digit (n / 16 mod 64)) (String (digit (n mod 16 * 4)) EmptyString))
  | String a (String b (String c s)) =>
      let n := (Ascii.N_of_ascii a * 256 + Ascii.N_of_ascii b) * 256 + Ascii.N_of_ascii c in
      String (digit (n / 262144)) (String (digit (n / 4096 mod 64)) (String (digit (n / 64 mod 64))
        (String (digit (n mod 64)) (raw_url_encode s))))
  end.

(** Line breaks are skipped wherever they are. *)
Definition line_break (a : Ascii.ascii) : bool :=
  let n := Ascii.N_of_ascii a in (n =? 10) || (n =? 13).
Fixpoint skip_breaks (s : string) : string :=
  match s with
  | EmptyString => EmptyString
  | String a s => if line_break a then skip_breaks s else String a (skip_breaks s)
  end.

(** [DecodeString], with [Strict()] or without *)
Fixpoint decode_digits (strict : bool) (s : string) : option string :=
  match s with
  | EmptyString => Some EmptyString
  | String _ EmptyString => None
  | String a (String b EmptyString) =>
      x ← digit_value a; y ← digit_value b;
      if strict && negb (y mod 16 =? 0) then None
      else Some (String (Ascii.ascii_of_N (x * 4 + y / 16)) EmptyString)
  | String a (String b (String c EmptyString)) =>
      x ← digit_value a; y ← digit_value b; z ← digit_value c;
      let n := (x * 64 + y) * 64 + z in
      if strict && negb (z mod 4 =? 0) then None
      else Some (String (Ascii.ascii_of_N (n / 1024)) (String (Ascii.ascii_of_N (n / 4 mod 256)) EmptyString))
  | String a (String b (String c (String d s))) =>
      x ← digit_value a; y ← digit_value b; z ← digit_value c; w ← digit_value d;
      let n := ((x * 64 + y) * 64 + z) * 64 + w in
      rest ← decode_digits strict s;
      Some (String (Ascii.ascii_of_N (n / 65536)) (String (Ascii.ascii_of_N (n / 256 mod 256))
        (String (Ascii.ascii_of_N (n mod 256)) rest)))
  end.
Definition raw_url_decode (strict : bool) (s : string) : option string := decode_digits strict (skip_breaks s).

(** ** Decoding undoes encoding *)
Lemma digit_ok n : n < 64 → digit_value (digit n) = Some n ∧ line_break (digit n) = false.
Proof.
  intros Hn. assert (∀ m, (m < 64)%nat →
    digit_value (digit (N.of_nat m)) = Some (N.of_nat m) ∧ line_break (digit (N.of_nat m)) = false) as Hall.
  { do 64 (intros [|m]; [split; reflexivity|revert m]). intros m Hm. lia. }
  specialize (Hall (N.to_nat n)). rewrite N2Nat.id in Hall. apply Hall. lia.
Qed.

Lemma byte_bound a : Ascii.N_of_ascii a < 256.
Proof. apply Ascii.N_ascii_bounded. Qed.

(** The encoding is a text of digits. *)
Inductive digits : string → Prop :=
  | digits_nil : digits EmptyString
  | digits_cons n s : n < 64 → digits s → digits (String (digit n) s).

Lemma digits_unbroken s : digits s → skip_breaks s = s.
Proof. induction 1 as [|n s Hn _ IH]; simpl; [done|]. by rewrite (proj2 (digit_ok n Hn)), IH. Qed.

(** Quotients and remainders by constants. *)
Ltac euclid := zify; Z.to_euclidean_division_equations; lia.
Ltac read_digits :=
  repeat match goal with
  | |- context [digit_value (digit ?n)] => rewrite (proj1 (digit_ok n ltac:(euclid)))
  end; cbn [mbind option_bind].
Ltac read_bytes :=
  repeat match goal with
  | |- context [Ascii.N_of_ascii ?a] =>
      lazymatch goal with
      | _ : Ascii.N_of_ascii a < 256 |- _ => fail
      | |- _ => pose proof (byte_bound a)
      end
  end.

Lemma encode_digits s : digits (raw_url_encode s).
Proof.
  revert s. fix IH 1. intros [|a [|b [|c s]]]; cbn [raw_url_encode]; read_bytes;
    repeat (apply digits_cons; [euclid|]); first [apply digits_nil|apply IH].
Qed.

Lemma same_byte n a : n = Ascii.N_of_ascii a → Ascii.ascii_of_N n = a.
Proof. intros ->. apply Ascii.ascii_N_embedding. Qed.

Lemma decode_encode_digits strict s : decode_digits strict (raw_url_encode s) = Some s.
Proof.
  revert s. fix IH 1. intros [|a [|b [|c s]]]; cbn [raw_url_encode decode_digits]; read_bytes; read_digits; [done| | |].
  - rewrite (proj2 (N.eqb_eq (Ascii.N_of_ascii a mod 4 * 16 mod 16) 0)) by euclid.
    rewrite andb_false_r. repeat f_equal; apply same_byte; euclid.
  - rewrite (proj2 (N.eqb_eq ((Ascii.N_of_ascii a * 256 + Ascii.N_of_ascii b) mod 16 * 4 mod 4) 0)) by euclid.
    rewrite andb_false_r. repeat f_equal; apply same_byte; euclid.
  - rewrite IH. cbn [mbind option_bind]. repeat f_equal; apply same_byte; euclid.
Qed.

Lemma raw_url_roundtrip strict s : raw_url_decode strict (raw_url_encode s) = Some s.
Proof. unfold raw_url_decode. rewrite digits_unbroken by apply encode_digits. apply decode_encode_digits. Qed.
