(* ===== verification/Delegation.v ===== *)
(** * Delegation: the policies of restricted leases

    [delegation.go], [remote/delegation_token.go] and the comparison of policies in
    [remote/attenuation.go].  A policy is an allowlist: names and chapter ordinals
    selected exactly, or all of them.  A nil pointer is [None].  Ordinals are the
    non-negative int64 the validation leaves, so their differences do not wrap. *)

From S2P Require Import Prelude.
Open Scope Z_scope.

Record DelegationNames := mkNames { dn_Any : bool; dn_Names : list string }.
Record DelegationOrdinalRange := mkRange { or_Start : Z; or_End : Z }.
Record DelegationChapters := mkChapters {
  dc_Any : bool; dc_Ordinals : list Z; dc_Ranges : list DelegationOrdinalRange
}.
Record DelegationSubmitPermission := mkSubmitPermission {
  ds_CellNames : option DelegationNames; ds_JobTypes : DelegationNames; ds_JobIDs : DelegationNames
}.
Record DelegationWritePermission := mkWritePermission {
  dw_Ordinals : list Z; dw_TaskTypes : DelegationNames; dw_ArtifactNames : DelegationNames
}.
Record DelegationPermissions := mkPermissions {
  dp_CreateCells : option DelegationNames;
  dp_Submit : option DelegationSubmitPermission;
  dp_Secrets : list string;
  dp_Read : option DelegationChapters;
  dp_Write : option DelegationWritePermission
}.
#[export] Instance eta_SubmitPermission : Eta DelegationSubmitPermission := λ s,
  mkSubmitPermission (ds_CellNames s) (ds_JobTypes s) (ds_JobIDs s).
#[export] Instance eta_DelegationPermissions : Eta DelegationPermissions := λ p,
  mkPermissions (dp_CreateCells p) (dp_Submit p) (dp_Secrets p) (dp_Read p) (dp_Write p).

(** ** What a policy allows *)

(** [slices.Contains] *)
Definition Contains {A} `{EqDecision A} (l : list A) (a : A) : bool := bool_decide (a ∈ l).

Definition namesAllow (s : DelegationNames) (name : string) : bool := dn_Any s || Contains (dn_Names s) name.
Definition in_range (r : DelegationOrdinalRange) (ordinal : Z) : bool :=
  (or_Start r <=? ordinal) && (ordinal <=? or_End r).
Definition chaptersAllow (s : option DelegationChapters) (ordinal : Z) : bool :=
  match s with
  | None => false
  | Some s =>
      negb (ordinal <? 0) &&
      (dc_Any s || Contains (dc_Ordinals s) ordinal || existsb (λ r, in_range r ordinal) (dc_Ranges s))
  end.

(** [validateDelegationPolicy] *)
Definition valid_names (s : DelegationNames) : bool :=
  negb (dn_Any s && negb (bool_decide (dn_Names s = []))) && (length (dn_Names s) <=? 256)%nat
  && forallb (λ n, negb (str_empty n) && (String.length n <=? 1024)%nat) (dn_Names s).
Definition valid_ordinals (ns : list Z) : bool := (length ns <=? 256)%nat && forallb (λ n, 0 <=? n) ns.

Definition validateDelegationPolicy (p : DelegationPermissions) : result () :=
  let? _ := guard_err (opt_all (λ s, valid_names (ds_JobTypes s) && valid_names (ds_JobIDs s)
                                     && opt_all valid_names (ds_CellNames s)) (dp_Submit p))
              (ErrMsg "invalid submission selectors") in
  let? _ := guard_err (opt_all valid_names (dp_CreateCells p)) (ErrMsg "invalid cell creation selectors") in
  let? _ := guard_err (valid_names (mkNames false (dp_Secrets p))) (ErrMsg "invalid secret names") in
  let? _ := match dp_Read p with
    | None => Ok tt
    | Some r =>
        let? _ := guard_err (valid_ordinals (dc_Ordinals r) && (length (dc_Ranges r) <=? 256)%nat
                    && negb (dc_Any r && ((0 <? length (dc_Ordinals r))%nat || (0 <? length (dc_Ranges r))%nat)))
                    (ErrMsg "invalid chapter selectors") in
        guard_err (forallb (λ a, negb ((or_Start a <? 0) || (or_End a <? or_Start a))) (dc_Ranges r))
          (ErrMsg "invalid chapter range")
    end in
  guard_err (opt_all (λ w, valid_ordinals (dw_Ordinals w) && valid_names (dw_TaskTypes w)
                           && valid_names (dw_ArtifactNames w)) (dp_Write p))
    (ErrMsg "invalid chapter write selectors").

(** [CreateDelegationRequest], [validateDelegationRequest] *)
Record CreateDelegationRequest := mkCreateDelegation {
  cd_Permissions : DelegationPermissions; cd_NotAfter : option time
}.
#[export] Instance eta_CreateDelegation : Eta CreateDelegationRequest := λ r,
  mkCreateDelegation (cd_Permissions r) (cd_NotAfter r).
Definition validateDelegationRequest (req : CreateDelegationRequest) (now : time) : result () :=
  let? _ := guard_err (opt_all (λ t, After t now) (cd_NotAfter req)) (ErrMsg "notAfter must be in the future") in
  validateDelegationPolicy (cd_Permissions req).

(** ** Comparing policies *)
Definition namesSubset (child parent : DelegationNames) : bool :=
  dn_Any parent || (negb (dn_Any child) && forallb (Contains (dn_Names parent)) (dn_Names child)).
Definition ordinalsSubset (child parent : list Z) : bool := forallb (Contains parent) child.

(** [chapterIntervals]: the selected ordinals as ranges, in the order of their
    starts, merged when they meet.  [cur] is the last merged range. *)
Definition start_le (a b : DelegationOrdinalRange) : Prop := or_Start a ≤ or_Start b.
#[export] Instance start_le_dec a b : Decision (start_le a b).
Proof. unfold start_le. apply _. Defined.
Definition ordinal_range (n : Z) : DelegationOrdinalRange := mkRange n n.
Fixpoint merge_ranges (cur : DelegationOrdinalRange) (rs : list DelegationOrdinalRange) : list DelegationOrdinalRange :=
  match rs with
  | [] => [cur]
  | r :: rs =>
      if (or_End cur <? or_Start r) && (1 <? or_Start r - or_End cur) then cur :: merge_ranges r rs
      else merge_ranges (if or_End cur <? or_End r then mkRange (or_Start cur) (or_End r) else cur) rs
  end.
Definition merge_sorted (rs : list DelegationOrdinalRange) : list DelegationOrdinalRange :=
  match rs with [] => [] | r :: rs => merge_ranges r rs end.
Definition chapterIntervals (p : DelegationChapters) : list DelegationOrdinalRange :=
  merge_sorted (merge_sort start_le (dc_Ranges p ++ (ordinal_range <$> dc_Ordinals p))).

Definition covers (r a : DelegationOrdinalRange) : bool := (or_Start a <=? or_Start r) && (or_End r <=? or_End a).
Definition chaptersSubset (c p : option DelegationChapters) : bool :=
  match c, p with
  | None, _ => true
  | Some _, None => false
  | Some c, Some p =>
      dc_Any p || (negb (dc_Any c)
        && forallb (λ r, existsb (covers r) (chapterIntervals p)) (chapterIntervals c))
  end.
Definition cellNamesSubset (c p : option DelegationNames) : bool :=
  match c, p with
  | _, None => true
  | None, Some _ => false
  | Some c, Some p => namesSubset c p
  end.
Definition permissionsSubset (c p : DelegationPermissions) : bool :=
  match dp_CreateCells c, dp_CreateCells p with
  | Some c, Some p => namesSubset c p | Some _, None => false | None, _ => true
  end &&
  match dp_Submit c, dp_Submit p with
  | Some c, Some p => namesSubset (ds_JobTypes c) (ds_JobTypes p) && namesSubset (ds_JobIDs c) (ds_JobIDs p)
                      && cellNamesSubset (ds_CellNames c) (ds_CellNames p)
  | Some _, None => false
  | None, _ => true
  end &&
  namesSubset (mkNames false (dp_Secrets c)) (mkNames false (dp_Secrets p)) &&
  chaptersSubset (dp_Read c) (dp_Read p) &&
  match dp_Write c, dp_Write p with
  | Some c, Some p => ordinalsSubset (dw_Ordinals c) (dw_Ordinals p) && namesSubset (dw_TaskTypes c) (dw_TaskTypes p)
                      && namesSubset (dw_ArtifactNames c) (dw_ArtifactNames p)
  | Some _, None => false
  | None, _ => true
  end.

(** ** The comparison of names and ordinals is inclusion *)
Lemma Contains_spec {A} `{EqDecision A} (l : list A) a : Contains l a = true ↔ a ∈ l.
Proof. unfold Contains. by rewrite bool_decide_eq_true. Qed.

Lemma namesSubset_sound c p n : namesSubset c p = true → namesAllow c n = true → namesAllow p n = true.
Proof.
  unfold namesSubset, namesAllow. destruct (dn_Any p), (dn_Any c); try done; simpl.
  rewrite forallb_forall. intros Hall Hn%Contains_spec. apply Hall. by apply list_elem_of_In.
Qed.
Lemma ordinalsSubset_sound c p n : ordinalsSubset c p = true → Contains c n = true → Contains p n = true.
Proof. unfold ordinalsSubset. rewrite forallb_forall. intros Hall Hn%Contains_spec. apply Hall. by apply list_elem_of_In. Qed.

(** ** Merged intervals

    [member] is the set a list of ranges selects; a list is [spaced] when no two of
    its ranges overlap or meet. *)
Definition member (rs : list DelegationOrdinalRange) (n : Z) : Prop := ∃ r, r ∈ rs ∧ in_range r n = true.
Definition valid_range (r : DelegationOrdinalRange) : Prop := or_Start r ≤ or_End r.
Definition spaced (rs : list DelegationOrdinalRange) : Prop :=
  StronglySorted (λ a b, or_End a + 1 < or_Start b) rs.

Lemma ordinal_range_spec r n : in_range r n = true ↔ or_Start r ≤ n ≤ or_End r.
Proof. unfold in_range. lia. Qed.

Lemma member_cons r rs n : member (r :: rs) n ↔ or_Start r ≤ n ≤ or_End r ∨ member rs n.
Proof.
  unfold member. setoid_rewrite elem_of_cons. setoid_rewrite ordinal_range_spec. split.
  - intros (a & [->|Ha] & Hn); [by left|right; eauto].
  - intros [Hn|(a & Ha & Hn)]; eauto.
Qed.
Lemma member_nil n : ¬ member [] n.
Proof. intros (r & Hr & _). by apply not_elem_of_nil in Hr. Qed.
Lemma member_perm rs rs' n : rs ≡ₚ rs' → member rs n ↔ member rs' n.
Proof. intros Hp. unfold member. by setoid_rewrite Hp. Qed.

(** Merging keeps the set, when the starts ascend. *)
Lemma merge_ranges_member cur rs n :
  Forall (start_le cur) rs → StronglySorted start_le rs → valid_range cur → Forall valid_range rs →
  member (merge_ranges cur rs) n ↔ member (cur :: rs) n.
Proof.
  revert cur. induction rs as [|r rs IH]; intros cur Hle Hs Hc Hv; simpl; [done|].
  apply Forall_cons in Hle as [Hr Hle], Hv as [Hvr Hv]. apply StronglySorted_inv in Hs as [Hs Hrs].
  unfold start_le, valid_range in *. case_match eqn:Hgap.
  - rewrite member_cons, IH by done. by rewrite (member_cons cur).
  - rewrite IH; [| |done| |done].
    + rewrite !member_cons. rewrite (assoc _). apply or_iff_compat_r. case_match eqn:He; simpl; lia.
    + eapply Forall_impl; [exact Hle|]. intros a Ha. cbn in Ha. case_match; simpl; lia.
    + case_match; simpl; lia.
Qed.

Lemma merge_ranges_spaced cur rs :
  Forall (start_le cur) rs → StronglySorted start_le rs →
  spaced (merge_ranges cur rs) ∧ Forall (start_le cur) (merge_ranges cur rs).
Proof.
  revert cur. induction rs as [|r rs IH]; intros cur Hle Hs; simpl.
  { split; [repeat constructor|]. constructor; [unfold start_le; lia|constructor]. }
  apply Forall_cons in Hle as [Hr Hle]. apply StronglySorted_inv in Hs as [Hs Hrs].
  unfold start_le in *. case_match eqn:Hgap.
  - destruct (IH r) as [Hsp Hst]; [done|done|]. split.
    + constructor; [done|]. eapply Forall_impl; [exact Hst|]. simpl. intros a Ha. lia.
    + constructor; [lia|]. eapply Forall_impl; [exact Hst|]. simpl. intros a Ha. lia.
  - match goal with |- context [merge_ranges ?c rs] => set (cur' := c) end.
    assert (or_Start cur' = or_Start cur) as He by (unfold cur'; by case_match).
    destruct (IH cur') as [Hsp Hst]; [|done|].
    + by rewrite He.
    + split; [done|]. by rewrite He in Hst.
Qed.

(** The intervals of a selector. *)
Definition selected (p : DelegationChapters) : list DelegationOrdinalRange :=
  dc_Ranges p ++ (ordinal_range <$> dc_Ordinals p).
Definition valid_chapters (p : DelegationChapters) : Prop :=
  Forall (λ r, 0 ≤ or_Start r ∧ valid_range r) (dc_Ranges p) ∧ Forall (λ n, 0 ≤ n) (dc_Ordinals p).

#[export] Instance start_le_total : Total start_le.
Proof. intros a b. unfold start_le. lia. Qed.
#[export] Instance start_le_trans : Transitive start_le.
Proof. intros a b c. unfold start_le. lia. Qed.

Lemma merge_sorted_spec rs : StronglySorted start_le rs → Forall valid_range rs →
  spaced (merge_sorted rs) ∧ ∀ n, member (merge_sorted rs) n ↔ member rs n.
Proof.
  destruct rs as [|r rs]; simpl; intros Hs Hv.
  { split; [constructor|done]. }
  apply StronglySorted_inv in Hs as [Hs Hr]. apply Forall_cons in Hv as [Hvr Hv].
  split; [by apply merge_ranges_spaced|]. intros n. by apply merge_ranges_member.
Qed.

Lemma selected_valid p : valid_chapters p → Forall valid_range (selected p).
Proof.
  intros [Hr Ho]. apply Forall_app. split.
  - eapply Forall_impl; [exact Hr|]. by intros r [_ ?].
  - apply Forall_fmap. eapply Forall_impl; [exact Ho|]. intros n _. unfold valid_range. simpl. lia.
Qed.

Lemma chapterIntervals_spec p : valid_chapters p →
  spaced (chapterIntervals p) ∧ ∀ n, member (chapterIntervals p) n ↔ member (selected p) n.
Proof.
  intros Hv. unfold chapterIntervals. fold (selected p).
  pose proof (merge_sort_Permutation start_le (selected p)) as Hp.
  destruct (merge_sorted_spec (merge_sort start_le (selected p))) as [Hs Hm].
  - apply Sorted_StronglySorted; [apply _|]. apply Sorted_merge_sort, _.
  - rewrite Hp. by apply selected_valid.
  - split; [done|]. intros n. rewrite Hm. by apply member_perm.
Qed.

Lemma chaptersAllow_spec p n : dc_Any p = false → 0 ≤ n → chaptersAllow (Some p) n = true ↔ member (selected p) n.
Proof.
  intros Ha Hn. unfold chaptersAllow. rewrite Ha. simpl.
  assert (n <? 0 = false) as -> by lia. simpl. rewrite orb_true_iff, Contains_spec, existsb_exists.
  unfold member, selected. setoid_rewrite elem_of_app. setoid_rewrite list_elem_of_fmap. split.
  - intros [Hin|(r & Hr%list_elem_of_In & Hrn)]; [|by eauto].
    exists (ordinal_range n). split; [right; by exists n|]. apply ordinal_range_spec. simpl. lia.
  - intros (r & [Hr|(m & -> & Hm)] & Hrn); [right; exists r; split; [by apply list_elem_of_In|done]|].
    apply ordinal_range_spec in Hrn. simpl in Hrn. left. by replace n with m by lia.
Qed.

(** A range lies in a set of spaced ranges only if it lies in one of them. *)
Lemma spaced_cover rs r : spaced rs → valid_range r →
  (∀ n, or_Start r ≤ n ≤ or_End r → member rs n) → existsb (covers r) rs = true.
Proof.
  unfold valid_range. intros Hs Hv Hin.
  destruct (Hin (or_Start r)) as (a & Ha & Hna%ordinal_range_spec); [lia|].
  apply existsb_exists. exists a. split; [by apply list_elem_of_In|].
  destruct (Z.le_gt_cases (or_End r) (or_End a)) as [|Hgt]; [unfold covers; lia|exfalso].
  destruct (Hin (or_End a + 1)) as (b & Hb & Hnb%ordinal_range_spec); [lia|].
  clear Hin. induction Hs as [|x rs Hs IH Hx]; [by apply not_elem_of_nil in Ha|].
  rewrite Forall_forall in Hx. apply elem_of_cons in Ha as [->|Ha], Hb as [->|Hb].
  - lia.
  - specialize (Hx _ Hb). lia.
  - specialize (Hx _ Ha). lia.
  - by apply IH.
Qed.

Lemma spaced_elem_valid rs r : Forall valid_range rs → r ∈ rs → valid_range r.
Proof. rewrite Forall_forall. auto. Qed.

Lemma merge_ranges_valid cur rs : valid_range cur → Forall valid_range rs → Forall valid_range (merge_ranges cur rs).
Proof.
  revert cur. induction rs as [|r rs IH]; intros cur Hc Hv; simpl; [by constructor|].
  apply Forall_cons in Hv as [Hr Hv]. unfold valid_range in *. case_match; [constructor; [done|by apply IH]|].
  apply IH; [|done]. case_match; simpl; lia.
Qed.
Lemma chapterIntervals_valid p : valid_chapters p → Forall valid_range (chapterIntervals p).
Proof.
  intros Hv%selected_valid. unfold chapterIntervals. fold (selected p).
  assert (Forall valid_range (merge_sort start_le (selected p))) as Hm by (by rewrite merge_sort_Permutation).
  unfold merge_sorted. destruct (merge_sort start_le (selected p)) as [|r rs]; [constructor|].
  apply Forall_cons in Hm as [??]. by apply merge_ranges_valid.
Qed.

Lemma allow_nonneg c n : chaptersAllow c n = true → 0 ≤ n.
Proof. destruct c; simpl; [|done]. destruct (Z.ltb_spec n 0); [done|lia]. Qed.

Lemma selected_nonneg c n : valid_chapters c → member (selected c) n → 0 ≤ n.
Proof.
  intros [Hr Ho] (r & Hin & Hn%ordinal_range_spec). apply elem_of_app in Hin as [Hin|Hin].
  - eapply Forall_forall in Hr; [|exact Hin]. simpl in Hr. lia.
  - apply list_elem_of_fmap in Hin as (m & -> & Hm). eapply Forall_forall in Ho; [|exact Hm]. simpl in *. lia.
Qed.

(** Between selectors that do not select everything the comparison decides inclusion. *)
Lemma chaptersSubset_exact c p :
  valid_chapters c → valid_chapters p → dc_Any c = false → dc_Any p = false →
  chaptersSubset (Some c) (Some p) = true ↔
  ∀ n, chaptersAllow (Some c) n = true → chaptersAllow (Some p) n = true.
Proof.
  intros Hc Hp Hca Hpa. unfold chaptersSubset. rewrite Hca, Hpa. cbn [negb andb orb]. rewrite forallb_forall.
  destruct (chapterIntervals_spec c Hc) as [_ Hmc]. destruct (chapterIntervals_spec p Hp) as [Hsp Hmp].
  assert (∀ n, 0 ≤ n → chaptersAllow (Some c) n = true ↔ member (chapterIntervals c) n) as Hac
    by (intros n Hn; by rewrite Hmc, chaptersAllow_spec).
  assert (∀ n, 0 ≤ n → chaptersAllow (Some p) n = true ↔ member (chapterIntervals p) n) as Hap
    by (intros n Hn; by rewrite Hmp, chaptersAllow_spec).
  split.
  - intros Hall n Hn. pose proof (allow_nonneg _ _ Hn) as H0. apply Hac in Hn as (r & Hr & Hin); [|done].
    apply Hap; [done|]. specialize (Hall r ltac:(by apply list_elem_of_In)).
    apply existsb_exists in Hall as (a & Ha%list_elem_of_In & Hcov). exists a. split; [done|].
    rewrite ordinal_range_spec in Hin |- *. unfold covers in Hcov. lia.
  - intros Hall r Hr%list_elem_of_In. apply spaced_cover; [done| |].
    + apply (spaced_elem_valid (chapterIntervals c)); [by apply chapterIntervals_valid|done].
    + intros n Hn. assert (member (chapterIntervals c) n) as Hm by (exists r; by rewrite ordinal_range_spec).
      assert (0 ≤ n) as H0 by (apply (selected_nonneg c); [done|by apply Hmc]).
      apply Hap; [done|]. apply Hall. by apply Hac.
Qed.

Lemma chaptersSubset_sound c p n :
  (∀ x, c = Some x → valid_chapters x) → (∀ x, p = Some x → valid_chapters x) →
  chaptersSubset c p = true → chaptersAllow c n = true → chaptersAllow p n = true.
Proof.
  destruct c as [c|]; [|done]. destruct p as [p|]; [|done]. intros Hc Hp Hs Hn.
  pose proof (allow_nonneg _ _ Hn) as H0. destruct (dc_Any p) eqn:Hpa.
  { simpl. rewrite Hpa. by destruct (Z.ltb_spec n 0); [lia|]. }
  destruct (dc_Any c) eqn:Hca; [simpl in Hs; by rewrite Hpa, Hca in Hs|].
  by apply (chaptersSubset_exact c p (Hc _ eq_refl) (Hp _ eq_refl) Hca Hpa).
Qed.

(** ** Actions

    The actions a policy can allow, as the server asks for them. *)
Inductive action :=
  | CreateCellNamed (name : string)
  | SubmitTo (cell jobType jobID : string)
  | ResolveSecret (name : string)
  | ReadChapter (ordinal : Z)
  | WriteChapter (ordinal : Z) (taskType : string) (artifacts : list string).
Definition permits (p : DelegationPermissions) (a : action) : bool :=
  match a with
  | CreateCellNamed n => match dp_CreateCells p with Some s => namesAllow s n | None => false end
  | SubmitTo cell ty id =>
      match dp_Submit p with
      | Some s => opt_all (λ c, namesAllow c cell) (ds_CellNames s) && namesAllow (ds_JobTypes s) ty
                  && namesAllow (ds_JobIDs s) id
      | None => false
      end
  | ResolveSecret n => Contains (dp_Secrets p) n
  | ReadChapter n => chaptersAllow (dp_Read p) n
  | WriteChapter n ty arts =>
      match dp_Write p with
      | Some w => Contains (dw_Ordinals w) n && namesAllow (dw_TaskTypes w) ty
                  && forallb (namesAllow (dw_ArtifactNames w)) arts
      | None => false
      end
  end.

Lemma policy_chapters p x : validateDelegationPolicy p = Ok tt → dp_Read p = Some x → valid_chapters x.
Proof.
  unfold validateDelegationPolicy. intros Hv Hr. rewrite Hr in Hv.
  destruct (guard_err (opt_all _ (dp_Submit p)) _) as [[]|]; [|done]. simpl in Hv.
  destruct (guard_err (opt_all _ (dp_CreateCells p)) _) as [[]|]; [|done]. simpl in Hv.
  destruct (guard_err (valid_names _) _) as [[]|]; [|done]. simpl in Hv.
  destruct (valid_ordinals (dc_Ordinals x)) eqn:Ho; [|done]. simpl in Hv.
  destruct ((length (dc_Ranges x) <=? 256)%nat && _); [|done]. simpl in Hv.
  destruct (forallb _ (dc_Ranges x)) eqn:Hrs; [|done].
  unfold valid_ordinals in Ho. apply andb_prop in Ho as [_ Ho].
  rewrite forallb_forall in Hrs, Ho. split; apply Forall_forall; intros a Ha%list_elem_of_In.
  - specialize (Hrs _ Ha). unfold valid_range. lia.
  - specialize (Ho _ Ha). lia.
Qed.

Lemma cellNamesSubset_sound c p n :
  cellNamesSubset c p = true → opt_all (λ c, namesAllow c n) c = true → opt_all (λ c, namesAllow c n) p = true.
Proof. destruct c, p; simpl; try done. apply namesSubset_sound. Qed.

Lemma forallb_impl {A} (f g : A → bool) l : (∀ a, f a = true → g a = true) → forallb f l = true → forallb g l = true.
Proof. rewrite !forallb_forall. auto. Qed.

(** A policy that passes the comparison allows nothing the other does not allow. *)
Lemma permissionsSubset_sound c p a :
  validateDelegationPolicy c = Ok tt → validateDelegationPolicy p = Ok tt →
  permissionsSubset c p = true → permits c a = true → permits p a = true.
Proof.
  intros Hc Hp Hs. unfold permissionsSubset in Hs. apply andb_prop in Hs as [Hs Hw].
  apply andb_prop in Hs as [Hs Hr]. apply andb_prop in Hs as [Hs Hse]. apply andb_prop in Hs as [Hcc Hsu].
  destruct a as [n|cell ty id|n|n|n ty arts]; simpl.
  - destruct (dp_CreateCells c), (dp_CreateCells p); try done. by apply namesSubset_sound.
  - destruct (dp_Submit c) as [s|], (dp_Submit p) as [s'|]; try done.
    apply andb_prop in Hsu as [Hsu H3]. apply andb_prop in Hsu as [H1 H2].
    intros Hall. apply andb_prop in Hall as [Hall Hid]. apply andb_prop in Hall as [Hcell Hty].
    by rewrite (cellNamesSubset_sound _ _ _ H3 Hcell), (namesSubset_sound _ _ _ H1 Hty), (namesSubset_sound _ _ _ H2 Hid).
  - apply (namesSubset_sound (mkNames false (dp_Secrets c)) (mkNames false (dp_Secrets p)) n Hse).
  - apply chaptersSubset_sound; [..|done]; intros x; by apply policy_chapters.
  - destruct (dp_Write c) as [w|], (dp_Write p) as [w'|]; try done.
    apply andb_prop in Hw as [Hw H3]. apply andb_prop in Hw as [H1 H2].
    intros Hall. apply andb_prop in Hall as [Hall Ha]. apply andb_prop in Hall as [Hn Hty].
    rewrite (ordinalsSubset_sound _ _ _ H1 Hn), (namesSubset_sound _ _ _ H2 Hty). simpl.
    eapply forallb_impl; [|exact Ha]. intros x. by apply namesSubset_sound.
Qed.
