(* ===== verification/Grants.v ===== *)
(** * Grants: the credentials of leases

    [remote/lease_token.go] (owner credentials) and [remote/attenuation.go] (grants).
    A grant is a macaroon: a signed root that names the lease, and a chain of
    restrictions that anyone holding it can extend.  [decodeGrant] reads the chain,
    [attenuateGrant] extends it, [verifyGrant] also checks the signature.

    The macaroon library and the key derivation are classes; so are the JSON texts of
    the structures that are signed.  Every error of this file that says nothing else
    is [ErrExecutionLeaseLost]. *)

From S2P Require Import Prelude Types Cells Base64 Delegation.
Open Scope Z_scope.

(** ** Data *)
Record leaseTokenClaims := mkClaims {
  lc_Cell : ResolvedCell; lc_Audience : string; lc_Grant : string; lc_Principal : option string;
  lc_TenantID : string; lc_JobID : string; lc_LeaseID : string; lc_WorkerID : string; lc_SchemaHash : string;
  lc_LeaseDurationSeconds : Z; lc_IssuedAt : Z; lc_ExpiresAt : Z; lc_ExpiresAtNS : Z
}.
#[export] Instance eta_leaseTokenClaims : Eta leaseTokenClaims := λ c,
  mkClaims (lc_Cell c) (lc_Audience c) (lc_Grant c) (lc_Principal c) (lc_TenantID c) (lc_JobID c) (lc_LeaseID c)
    (lc_WorkerID c) (lc_SchemaHash c) (lc_LeaseDurationSeconds c) (lc_IssuedAt c) (lc_ExpiresAt c) (lc_ExpiresAtNS c).
Record grantParent := mkGrantParent {
  gp_Cell : ResolvedCell; gp_Principal : option string; gp_TenantID : string; gp_JobID : string;
  gp_LeaseID : string; gp_WorkerID : string; gp_SchemaHash : string
}.
#[export] Instance grantParent_eq_dec : EqDecision grantParent.
Proof. solve_decision. Defined.
Definition parentOf (p : leaseTokenClaims) : grantParent :=
  mkGrantParent (lc_Cell p) (lc_Principal p) (lc_TenantID p) (lc_JobID p) (lc_LeaseID p) (lc_WorkerID p) (lc_SchemaHash p).
Definition parent_claims (p : grantParent) : leaseTokenClaims :=
  mkClaims (gp_Cell p) "" "" (gp_Principal p) (gp_TenantID p) (gp_JobID p) (gp_LeaseID p) (gp_WorkerID p)
    (gp_SchemaHash p) 0 0 0 0.
Record grantRoot := mkRoot {
  gr_Version : Z; gr_Purpose : string; gr_Audience : string; gr_KeyID : string; gr_ID : string;
  gr_Parent : grantParent; gr_Ceiling : string
}.
(** A decoded time carries its location; [gs_UTC] is whether that is UTC. *)
Record grantStep := mkStep {
  gs_Kind : string; gs_Version : Z; gs_ID : string; gs_Permissions : DelegationPermissions;
  gs_NotAfter : option time; gs_UTC : bool
}.
Record DelegationInfo := mkDelegation {
  di_ID : string; di_Permissions : DelegationPermissions; di_NotAfter : option time
}.
#[export] Instance eta_DelegationInfo : Eta DelegationInfo := λ d,
  mkDelegation (di_ID d) (di_Permissions d) (di_NotAfter d).
Definition no_permissions : DelegationPermissions := mkPermissions None None [] None None.
Definition no_delegation : DelegationInfo := mkDelegation "" no_permissions None.
Record delegationClaims := mkDelegationClaims {
  de_GoalID : string; de_Parent : leaseTokenClaims; de_Grant : DelegationInfo; de_Route : Route; de_ExpiresAt : time
}.
#[export] Instance eta_delegationClaims : Eta delegationClaims := λ c,
  mkDelegationClaims (de_GoalID c) (de_Parent c) (de_Grant c) (de_Route c) (de_ExpiresAt c).

(** ** What the libraries provide *)
Record Caveat := mkCaveat { cv_Id : string; cv_VerificationId : string; cv_Location : string }.
Record Macaroon := mkMacaroon {
  mc_V2 : bool; mc_Location : string; mc_Id : string; mc_Caveats : list Caveat; mc_Signature : string
}.
Class Macaroons := {
  macaroon_New : string → string → result Macaroon;
  AddFirstPartyCaveat : Macaroon → string → result Macaroon;
  VerifySignature : string → Macaroon → bool;
  MarshalBinary : Macaroon → result string;
  UnmarshalBinary : string → option Macaroon
}.
(** A macaroon is created for a key and an identifier; a first-party caveat is
    appended and the signature extended, so that it still verifies; encoding is
    read back. *)
Class MacaroonLaws `{Macaroons} := {
  new_macaroon k id m : macaroon_New k id = Ok m →
    mc_V2 m = true ∧ mc_Location m = "" ∧ mc_Id m = id ∧ mc_Caveats m = [] ∧ VerifySignature k m = true;
  add_caveat m c m' : AddFirstPartyCaveat m c = Ok m' →
    mc_V2 m' = mc_V2 m ∧ mc_Location m' = mc_Location m ∧ mc_Id m' = mc_Id m ∧
    mc_Caveats m' = mc_Caveats m ++ [mkCaveat c "" ""] ∧
    ∀ k, VerifySignature k m = true → VerifySignature k m' = true;
  macaroon_text m raw : MarshalBinary m = Ok raw → UnmarshalBinary raw = Some m
}.
Class GrantKeys := {
  hkdf : string → string → string;
  key_id : string → string;
  hmac_sha256 : string → string → string
}.
(** A SHA-256 authentication code has 32 bytes. *)
Class GrantKeyLaws `{GrantKeys} := hmac_length k m : String.length (hmac_sha256 k m) = 32%nat.
(** [json.Marshal] of the signed structures, and their strict decoding. *)
Class GrantText := {
  root_text : grantRoot → result string; root_value : string → option grantRoot;
  step_text : grantStep → result string; step_value : string → option grantStep;
  claims_text : leaseTokenClaims → result string; claims_value : string → option leaseTokenClaims
}.

(** [decodeCanonical]: only the text that encoding what was read gives back. *)
Definition decodeCanonical {A} (value : string → option A) (text : A → result string) (raw : string) : option A :=
  a ← value raw;
  match text a with Ok t => if String.eqb raw t then Some a else None | Err _ => None end.

Lemma decodeCanonical_spec {A} value (text : A → result string) raw a :
  decodeCanonical value text raw = Some a ↔ value raw = Some a ∧ text a = Ok raw.
Proof.
  unfold decodeCanonical. destruct (value raw) as [b|]; simpl; [|by split; [|intros [? _]]].
  split.
  - destruct (text b) as [t|] eqn:Ht; [|done]. destruct (String.eqb_spec raw t) as [->|]; [|done]. by intros [= <-].
  - intros [[= ->] Ht]. rewrite Ht. by rewrite String.eqb_refl.
Qed.

(** [decodeTokenBase64] *)
Definition decodeTokenBase64 (encoded : string) : option string :=
  raw ← raw_url_decode true encoded; if String.eqb (raw_url_encode raw) encoded then Some raw else None.
Lemma decodeTokenBase64_encode s : decodeTokenBase64 (raw_url_encode s) = Some s.
Proof. unfold decodeTokenBase64. rewrite raw_url_roundtrip. simpl. by rewrite String.eqb_refl. Qed.

(** ** Constants *)
Definition ownerTokenPrefix : string := "jdb-o2.".
Definition delegationTokenPrefix : string := "jdb-m2.".
Definition maxDelegationTokenBytes : nat := 16 * 1024.
Definition maxOwnerTokenBytes : nat := 32 * 1024.
Definition maxDelegationDepth : nat := 8.
Definition grantPurpose : string := "jobdb.delegation.grant.v2".
Definition grantCeiling : string := "jobdb.resource-actions.v2".
Definition isDelegationToken (t : string) : bool := String.prefix delegationTokenPrefix t.
(** [strings.TrimPrefix] *)
Definition TrimPrefix (s p : string) : string :=
  if String.prefix p s then String.substring (String.length p) (String.length s - String.length p) s else s.

Lemma prefix_app p s : String.prefix p (p +:+ s) = true.
Proof.
  induction p as [|a p IH]; [by destruct s|]. simpl. destruct (Ascii.ascii_dec a a) as [_|Hne]; [exact IH|by destruct Hne].
Qed.
Lemma substring_all s : String.substring 0 (String.length s) s = s.
Proof. induction s as [|a s IH]; simpl; [done|]. by rewrite IH. Qed.
Lemma TrimPrefix_app p s : TrimPrefix (p +:+ s) p = s.
Proof.
  unfold TrimPrefix. rewrite prefix_app, str_app_length.
  replace (String.length p + String.length s - String.length p)%nat with (String.length s) by lia.
  induction p as [|a p IH]; simpl; [apply substring_all|apply IH].
Qed.

(** The last instant of year 9999, in nanoseconds from year 1. *)
Definition year_10000 : time := 3652059 * day.

Section grants.
Context `{CellText} `{Macaroons} `{GrantKeys} `{GrantText}.

(** ** Reading a chain of restrictions ([decodeGrant]) *)
Definition valid_root (root : grantRoot) : bool :=
  let p := gr_Parent root in
  (gr_Version root =? 1) && String.eqb (gr_Purpose root) grantPurpose && String.eqb (gr_Ceiling root) grantCeiling
  && negb (str_empty (gr_ID root)) && negb (str_empty (gr_Audience root)) && negb (str_empty (gr_KeyID root))
  && negb (str_empty (gp_TenantID p)) && negb (str_empty (gp_JobID p)) && negb (str_empty (gp_LeaseID p))
  && negb (str_empty (rs_CellID (gp_Cell p))) && negb (str_empty (rs_CellRepo (gp_Cell p)))
  && is_ok (ValidateCellName (rs_Cell (gp_Cell p))).
Definition valid_step (step : grantStep) : bool :=
  String.eqb (gs_Kind step) "restrict" && (gs_Version step =? 1) && negb (str_empty (gs_ID step))
  && (String.length (gs_ID step) <=? 128)%nat && is_ok (validateDelegationPolicy (gs_Permissions step))
  && opt_all (λ t, (0 <? t) && (t <? year_10000) && gs_UTC step) (gs_NotAfter step).

(** One restriction after the policy so far; [first] is whether there is none yet. *)
Definition read_step (first : bool) (g : DelegationInfo) (cv : Caveat) : option DelegationInfo :=
  if negb (str_empty (cv_VerificationId cv)) || negb (str_empty (cv_Location cv)) then None else
  step ← decodeCanonical step_value step_text (cv_Id cv);
  if negb (valid_step step) then None
  else if negb first && negb (permissionsSubset (gs_Permissions step) (di_Permissions g)) then None
  else if match di_NotAfter g, gs_NotAfter step with Some limit, Some t => After t limit | _, _ => false end then None
  else Some (mkDelegation (gs_ID step) (gs_Permissions step)
               (match gs_NotAfter step with Some t => Some t | None => di_NotAfter g end)).
Fixpoint read_steps (first : bool) (g : DelegationInfo) (cvs : list Caveat) : option DelegationInfo :=
  match cvs with
  | [] => Some g
  | cv :: cvs => g ← read_step first g cv; read_steps false g cvs
  end.
Definition zero_route : Route := mkRoute "" "".
Definition decode_macaroon (token : string) : option Macaroon :=
  if negb (isDelegationToken token) || (maxDelegationTokenBytes <? String.length token)%nat then None else
  raw ← decodeTokenBase64 (TrimPrefix token delegationTokenPrefix);
  m ← UnmarshalBinary raw;
  if negb (mc_V2 m) || negb (str_empty (mc_Location m)) then None else
  match MarshalBinary m with
  | Ok encoded => if String.eqb raw encoded then Some m else None
  | Err _ => None
  end.
Definition read_grant (allowRoot : bool) (m : Macaroon) : option (grantRoot * delegationClaims) :=
  root ← decodeCanonical root_value root_text (mc_Id m);
  if negb (valid_root root) then None
  else if (maxDelegationDepth <? length (mc_Caveats m))%nat
    || negb allowRoot && (bool_decide (mc_Caveats m = []) || str_empty (gp_WorkerID (gr_Parent root)))
  then None else
  g ← read_steps true no_delegation (mc_Caveats m);
  Some (root, mkDelegationClaims "" (parent_claims (gr_Parent root)) g zero_route 0).
Definition decodeGrant (token : string) (allowRoot : bool) : result (Macaroon * grantRoot * delegationClaims) :=
  of_option ErrExecutionLeaseLost
    (m ← decode_macaroon token; rc ← read_grant allowRoot m; Some (m, rc.1, rc.2)).

(** [encodeGrant] *)
Definition encodeGrant (m : Macaroon) : result string :=
  match MarshalBinary m with
  | Err _ => Err ErrExecutionLeaseLost
  | Ok raw =>
      let token := delegationTokenPrefix +:+ raw_url_encode raw in
      if (maxDelegationTokenBytes <? String.length token)%nat
      then Err (ErrMsg "delegation exceeds token size limit") else Ok token
  end.

(** ** The issuer ([leaseTokenSigner]) *)
Record leaseTokenSigner := mkSigner { sg_key : string; sg_audience : string }.
Definition audienceID (s : leaseTokenSigner) : string := if str_empty (sg_audience s) then "jobdb" else sg_audience s.
Definition grantKey (s : leaseTokenSigner) : string :=
  hkdf (sg_key s) (grantPurpose +:+ String (Ascii.ascii_of_N 0) (audienceID s)).
Definition grantKeyID (s : leaseTokenSigner) : string := key_id (grantKey s).

(** [newGrant]; [id] is the generated identifier. *)
Definition newGrant (s : leaseTokenSigner) (p : leaseTokenClaims) (id : string) : result string :=
  let? raw := root_text (mkRoot 1 grantPurpose (audienceID s) (grantKeyID s) id (parentOf p) grantCeiling) in
  let? m := macaroon_New (grantKey s) raw in
  encodeGrant m.
Definition verifyGrant (s : leaseTokenSigner) (token : string) (allowRoot : bool)
    : result (Macaroon * grantRoot * delegationClaims) :=
  let? r := decodeGrant token allowRoot in
  let? _ := guard_err (String.eqb (gr_Audience r.1.2) (audienceID s) && String.eqb (gr_KeyID r.1.2) (grantKeyID s))
              ErrExecutionLeaseLost in
  let? _ := guard_err (VerifySignature (grantKey s) r.1.1) ErrExecutionLeaseLost in
  Ok r.
Definition parseDelegation (s : leaseTokenSigner) (token : string) : result delegationClaims :=
  let? r := verifyGrant s token false in Ok r.2.

(** ** Attenuation *)

(** A restriction that says nothing about cell names keeps its parent's. *)
Definition inherit_cells (caveats : list Caveat) (parent : DelegationPermissions) (req : DelegationPermissions)
    : DelegationPermissions :=
  match caveats, dp_Submit req, dp_Submit parent with
  | _ :: _, Some s, Some ps =>
      match ds_CellNames s, ds_CellNames ps with
      | None, Some inherited => req <| dp_Submit := Some (s <| ds_CellNames := Some inherited |>) |>
      | _, _ => req
      end
  | _, _, _ => req
  end.
Definition attenuateGrant (token : string) (req : CreateDelegationRequest) (now : time) (id : string)
    : result (string * delegationClaims) :=
  let? r := decodeGrant token true in
  let m := r.1.1 in let c := r.2 in
  let? _ := guard_err (negb (str_empty (gp_WorkerID (gr_Parent r.1.2)))) ErrExecutionLeaseLost in
  let req := req <| cd_Permissions := inherit_cells (mc_Caveats m) (di_Permissions (de_Grant c)) (cd_Permissions req) |> in
  let? _ := validateDelegationRequest req now in
  let? _ := guard_err (length (mc_Caveats m) <? maxDelegationDepth)%nat
              (ErrMsg "delegation exceeds maximum restriction depth") in
  let? _ := guard_err (bool_decide (mc_Caveats m = []) || permissionsSubset (cd_Permissions req) (di_Permissions (de_Grant c)))
              ErrLeasePermissionDenied in
  let? _ := guard_err match di_NotAfter (de_Grant c) with
      | Some limit => Before now limit && opt_all (λ t, negb (After t limit)) (cd_NotAfter req)
      | None => true
      end ErrLeasePermissionDenied in
  let notAfter := match cd_NotAfter req with Some t => Some t | None => di_NotAfter (de_Grant c) end in
  let? raw := step_text (mkStep "restrict" 1 id (cd_Permissions req) notAfter true) in
  let? step := of_option ErrExecutionLeaseLost (decodeCanonical step_value step_text raw) in
  let? m := match AddFirstPartyCaveat m raw with Ok m => Ok m | Err _ => Err ErrExecutionLeaseLost end in
  let? next := encodeGrant m in
  Ok (next, c <| de_Grant := mkDelegation (gs_ID step) (gs_Permissions step) (gs_NotAfter step) |>).

(** ** Owner credentials *)
Definition defaultLeaseTokenTTL : Z := 30 * second.
Definition leaseTokenExpirySkew : Z := 100000000.
(** The distance from year 1 to 1970.  [UnixNano] wraps at the width of an int64,
    which instants of the years 1678 to 2262 do not reach. *)
Definition unix_epoch : time := 719162 * day.
Definition Unix (t : time) : Z := (t - unix_epoch) / second.
Definition wrap_int64 (n : Z) : Z := (n + (MaxInt64 + 1)) mod (2 * (MaxInt64 + 1)) - (MaxInt64 + 1).
Definition UnixNano (t : time) : Z := wrap_int64 (t - unix_epoch).
Lemma UnixNano_small t : unix_epoch ≤ t → t - unix_epoch ≤ MaxInt64 → UnixNano t = t - unix_epoch.
Proof. unfold UnixNano, wrap_int64, MaxInt64. intros. rewrite Z.mod_small by lia. lia. Qed.

Definition leaseTokenExpiresAt (now leaseExpiresAt : time) (fallbackTTL : Z) : time :=
  let fallbackTTL := if fallbackTTL <=? 0 then defaultLeaseTokenTTL else fallbackTTL in
  if IsZero leaseExpiresAt then now + fallbackTTL
  else if negb (After leaseExpiresAt now) then now
  else
    let remaining := leaseExpiresAt - now in
    let skew := if remaining <=? 2 * leaseTokenExpirySkew
                then let s := remaining ÷ 10 in if s <=? 0 then nanosecond else s
                else leaseTokenExpirySkew in
    let expiresAt := leaseExpiresAt - skew in
    if Before expiresAt now then now else expiresAt.

(** [leaseTokenClaims.expiresAt] *)
Definition claims_expiresAt (c : leaseTokenClaims) : time :=
  if 0 <? lc_ExpiresAtNS c then unix_epoch + lc_ExpiresAtNS c else unix_epoch + lc_ExpiresAt c * second.
(** [leaseDuration] *)
Definition leaseDuration (c : leaseTokenClaims) : Z :=
  if lc_LeaseDurationSeconds c <=? 0 then defaultLeaseTokenTTL else lc_LeaseDurationSeconds c * second.

(** [strings.Split(s, ".")]: the text before each dot and the rest. *)
Definition dot (a : Ascii.ascii) : bool := (Ascii.N_of_ascii a =? 46)%N.
Fixpoint split_dots (s : string) : list string :=
  match s with
  | EmptyString => [""]
  | String a s =>
      if dot a then "" :: split_dots s
      else match split_dots s with p :: ps => String a p :: ps | [] => [String a ""] end
  end.

(** The parts of a token are encodings, which have no dots. *)
Lemma split_digits s : digits s → split_dots s = [s].
Proof.
  induction 1 as [|n s Hn _ IH]; simpl; [done|]. rewrite IH.
  assert (dot (digit n) = false) as ->; [|done].
  assert (∀ m, (m < 64)%nat → dot (digit (N.of_nat m)) = false) as Hall.
  { do 64 (intros [|m]; [reflexivity|revert m]). intros m Hm. lia. }
  specialize (Hall (N.to_nat n)). rewrite N2Nat.id in Hall. apply Hall. lia.
Qed.
Lemma split_digits_dot s t : digits s → split_dots (s +:+ "." +:+ t) = s :: split_dots t.
Proof.
  intros Hs. induction Hs as [|n s Hn Hs IH]; [done|].
  pose proof (split_digits (String (digit n) s) ltac:(by constructor)) as Hone. simpl in Hone |- *.
  destruct (dot (digit n)); [by destruct (split_dots s)|]. by rewrite IH.
Qed.

(** [mintWithPrincipal] *)
Definition mint_claims (s : leaseTokenSigner) (key : JobKey) (leaseID workerID schemaHash : string)
    (leaseExpiresAt : time) (ttl : Z) (principal : option string) (cell : ResolvedCell) (now : time) : leaseTokenClaims :=
  let ttl := if ttl <=? 0 then defaultLeaseTokenTTL else ttl in
  let duration := if negb (IsZero leaseExpiresAt) && After leaseExpiresAt now then leaseExpiresAt - now else ttl in
  let expires := leaseTokenExpiresAt now leaseExpiresAt ttl in
  mkClaims cell (audienceID s) "" principal (jk_TenantId key) (jk_JobId key) leaseID workerID schemaHash
    ((duration + second - 1) ÷ second) (Unix now) (Unix expires) (UnixNano expires).
Definition valid_cell (c : ResolvedCell) : bool :=
  negb (str_empty (rs_CellID c)) && negb (str_empty (rs_CellRepo c)) && is_ok (ValidateCellName (rs_Cell c)).
Definition sign_owner (s : leaseTokenSigner) (payload : string) : string :=
  let encoded := ownerTokenPrefix +:+ raw_url_encode payload in
  encoded +:+ "." +:+ raw_url_encode (hmac_sha256 (sg_key s) encoded).
Definition mintWithPrincipal (s : leaseTokenSigner) (key : JobKey) (leaseID workerID schemaHash : string)
    (leaseExpiresAt : time) (ttl : Z) (principal : option string) (cell : ResolvedCell) (now : time) (id : string)
    : result string :=
  let? _ := guard_err (negb (str_empty (sg_key s))) (ErrMsg "lease token signer is required") in
  let claims := mint_claims s key leaseID workerID schemaHash leaseExpiresAt ttl principal cell now in
  let? _ := guard_err (valid_cell cell) ErrExecutionLeaseLost in
  let? grant := newGrant s claims id in
  let? payload := claims_text (claims <| lc_Grant := grant |>) in
  let token := sign_owner s payload in
  let? _ := guard_err (String.length token <=? maxOwnerTokenBytes)%nat
              (ErrMsg "owner credential exceeds token size limit") in
  Ok token.

(** [decodeOwner] *)
Definition valid_owner (c : leaseTokenClaims) : bool :=
  valid_cell (lc_Cell c) && negb (str_empty (lc_TenantID c)) && negb (str_empty (lc_JobID c))
  && negb (str_empty (lc_LeaseID c)) && negb (lc_ExpiresAt c =? 0) && negb (str_empty (lc_Audience c))
  && negb (str_empty (lc_Grant c)).
Definition decodeOwner (token : string) : result leaseTokenClaims :=
  of_option ErrExecutionLeaseLost
    (if negb (String.prefix ownerTokenPrefix token) || (maxOwnerTokenBytes <? String.length token)%nat then None else
     match split_dots token with
     | [_; payload; signature] =>
         if str_empty signature then None else
         raw ← decodeTokenBase64 payload;
         c ← decodeCanonical claims_value claims_text raw;
         if valid_owner c then Some c else None
     | _ => None
     end).

(** [sameGrantParent] compares the texts, which are those of equal structures. *)
Definition sameGrantParent (a b : grantParent) : bool := bool_decide (a = b).

(** [parse], [validateAndParse].  [now] is the time the caller passes or, when that
    is the zero time, the clock's. *)
Definition parse_owner (s : leaseTokenSigner) (token : string) : result leaseTokenClaims :=
  let? _ := guard_err (negb (str_empty (sg_key s))) (ErrMsg "lease token signer is required") in
  let? _ := guard_err (String.prefix ownerTokenPrefix token && (String.length token <=? maxOwnerTokenBytes)%nat)
              ErrExecutionLeaseLost in
  match split_dots token with
  | [p0; p1; p2] =>
      let? actual := of_option ErrExecutionLeaseLost (decodeTokenBase64 p2) in
      let? _ := guard_err (String.eqb actual (hmac_sha256 (sg_key s) (p0 +:+ "." +:+ p1))) ErrExecutionLeaseLost in
      let? claims := decodeOwner token in
      let? _ := guard_err (String.eqb (lc_Audience claims) (audienceID s)) ErrExecutionLeaseLost in
      match verifyGrant s (lc_Grant claims) true with
      | Err _ => Err ErrExecutionLeaseLost
      | Ok r =>
          let? _ := guard_err (bool_decide (mc_Caveats r.1.1 = []) && sameGrantParent (gr_Parent r.1.2) (parentOf claims))
                      ErrExecutionLeaseLost in
          Ok claims
      end
  | _ => Err ErrExecutionLeaseLost
  end.
Definition validateAndParse (s : leaseTokenSigner) (token : string) (key : JobKey) (leaseID : string) (now : time)
    : result leaseTokenClaims :=
  let? claims := parse_owner s token in
  let? _ := guard_err (String.eqb (lc_TenantID claims) (jk_TenantId key) && String.eqb (lc_JobID claims) (jk_JobId key)
                       && String.eqb (lc_LeaseID claims) leaseID) ErrExecutionLeaseLost in
  let? _ := guard_err (Before now (claims_expiresAt claims)) ErrExecutionLeaseLost in
  Ok claims.

(** [CreateDelegation] (remote/delegation.go), up to the local lease handle: the
    holder of an owner credential or of a grant derives a narrower grant. *)
Definition setExpiry (parentExpiry : time) (c : delegationClaims) : delegationClaims :=
  c <| de_ExpiresAt := match di_NotAfter (de_Grant c) with
       | Some t => if IsZero parentExpiry || After parentExpiry t then t else parentExpiry
       | None => parentExpiry
       end |>.
Definition delegation_source (token : string) : result string :=
  if isDelegationToken token then Ok token else
  let? owner := decodeOwner token in
  match decodeGrant (lc_Grant owner) true with
  | Err _ => Err ErrExecutionLeaseLost
  | Ok r =>
      let? _ := guard_err (bool_decide (mc_Caveats r.1.1 = []) && String.eqb (gr_Audience r.1.2) (lc_Audience owner)
                           && sameGrantParent (gr_Parent r.1.2) (parentOf owner)) ErrExecutionLeaseLost in
      Ok (lc_Grant owner)
  end.
Definition CreateDelegation (token : string) (key : JobKey) (leaseID : string) (route : Route) (goal : string)
    (parentExpiry : time) (req : CreateDelegationRequest) (now : time) (id : string) : result (string * delegationClaims) :=
  let? grant := delegation_source token in
  let? r := attenuateGrant grant req now id in
  let p := de_Parent r.2 in
  let? _ := guard_err (String.eqb (lc_TenantID p) (jk_TenantId key) && String.eqb (lc_JobID p) (jk_JobId key)
                       && String.eqb (lc_LeaseID p) leaseID) ErrExecutionLeaseLost in
  Ok (r.1, setExpiry parentExpiry (r.2 <| de_Route := route |> <| de_GoalID := goal |>)).
End grants.
