(* ===== verification/Metadata.v ===== *)
(** * Metadata: stored job metadata

    The JSON object a job carries: the schema hash recorded in it
    ([internal/jobmetadata]) and the equality predicates of listing, polling and
    deletion ([toyimpl/toy.go]).  Metadata the runtime writes is modelled by its
    JSON value; absent metadata is the empty object. *)

From S2P Require Import Prelude Types Json.

(** ** Schema hash ([SchemaHashFromStoredMetadata]) *)
Definition obj_members (v : json) : option (list (string * json)) :=
  match v with JObj l => Some l | _ => None end.

(** [strings.TrimSpace] keeps what follows leading and precedes trailing space. *)
Fixpoint trim_left (s : string) : string :=
  match s with
  | EmptyString => ""
  | String a s1 =>
      if space1 a then trim_left s1
      else match s1 with
      | EmptyString => s
      | String b s2 =>
          if space2 a b then trim_left s2
          else match s2 with
          | EmptyString => s
          | String c s3 => if space3 a b c then trim_left s3 else s
          end
      end
  end.
Fixpoint trim_right (s : string) : string :=
  if blank s then "" else
  match s with
  | EmptyString => ""
  | String a r => String a (trim_right r)
  end.
Definition TrimSpace (s : string) : string := trim_right (trim_left s).

Definition schema_keys : list string := ["jobdb_schema_hash"; "schema_hash"; "schemaHash"].
Fixpoint schemaHashFromObject (keys : list string) (obj : list (string * json)) : string :=
  match keys with
  | [] => ""
  | k :: keys =>
      match obj_get k obj with
      | Some (JStr h) => if str_empty (TrimSpace h) then schemaHashFromObject keys obj else TrimSpace h
      | _ => schemaHashFromObject keys obj
      end
  end.

Definition hash_at (field : string) (root : list (string * json)) : string :=
  match obj_get field root with
  | Some (JObj o) => schemaHashFromObject schema_keys o
  | _ => ""
  end.

Definition SchemaHashFromStoredMetadata (v : json) : string :=
  match obj_members v with
  | None => ""
  | Some root =>
      let h := schemaHashFromObject schema_keys root in
      if negb (str_empty h) then h
      else let h := hash_at "app" root in
      if negb (str_empty h) then h else hash_at "internal" root
  end.

(** ** Metadata predicates *)

(** A predicate value as the caller passes it: nil, JSON text, or a Go value with
    its encoding ([None] when it cannot be encoded). *)
Inductive PredValue :=
  | PredNil
  | PredText (valid : bool) (text : string)
  | PredAny (encoded : option string).
Record MetadataPredicate := mkPredicate { mp_Path : list string; mp_Values : list PredValue }.
Record normalizedMetadataPredicate := mkNormalized { np_Path : list string; np_ValuesJSON : list string }.

(** [encodeMetadataPredicateValue] with the nil check of its caller. *)
Definition encode_pred_value (v : PredValue) : result string :=
  match v with
  | PredNil => Err (ErrMsg "metadata predicate values cannot contain nil")
  | PredText valid text => if valid then Ok text else Err (ErrMsg "metadata predicate value must be valid JSON")
  | PredAny encoded => of_option (ErrMsg "metadata predicate value must be JSON-serializable") encoded
  end.

(** [normalizeMetadataPredicates] *)
Definition normalize_predicate (p : MetadataPredicate) : result normalizedMetadataPredicate :=
  let? _ := guard_err (negb (bool_decide (mp_Path p = []))) (ErrMsg "metadata predicate path is required") in
  let? _ := guard_err (negb (existsb str_empty (mp_Path p)))
              (ErrMsg "metadata predicate path contains empty segment") in
  let? _ := guard_err (negb (bool_decide (length (mp_Values p) = 0)))
              (ErrMsg "metadata predicate values are required") in
  let? vs := map_result encode_pred_value (mp_Values p) in
  Ok (mkNormalized ("app" :: mp_Path p) vs).
Definition normalizeMetadataPredicates (ps : list MetadataPredicate)
    : result (list normalizedMetadataPredicate) := map_result normalize_predicate ps.

(** [metadataValueAtPath] *)
Fixpoint metadataValueAtPath (v : json) (path : list string) : option json :=
  match path with
  | [] => Some v
  | seg :: path => match v with
    | JObj o => match obj_get seg o with Some v' => metadataValueAtPath v' path | None => None end
    | _ => None
    end
  end.

(** Decoding into [any] without [UseNumber] sends numbers through float64;
    [float_text] is the literal that comes back for a literal. *)
Section floats.
Variable float_text : string → string.

Fixpoint refloat (v : json) : json :=
  match v with
  | JNum l => JNum (float_text l)
  | JArr l => JArr ((fix go (l : list json) : list json :=
      match l with [] => [] | v :: l => refloat v :: go l end) l)
  | JObj o => JObj ((fix go (o : list (string * json)) : list (string * json) :=
      match o with [] => [] | (k, v) :: o => (k, refloat v) :: go o end) o)
  | _ => v
  end.

(** [metadataMatches] *)
Definition predicate_matches (root : json) (p : normalizedMetadataPredicate) : bool :=
  match np_Path p with
  | [] => false
  | _ => match metadataValueAtPath root (np_Path p) with
    | Some v => existsb (String.eqb (Marshal (refloat v))) (np_ValuesJSON p)
    | None => false
    end
  end.
Definition metadataMatches (metadata : json) (ps : list normalizedMetadataPredicate) : bool :=
  forallb (predicate_matches metadata) ps.
End floats.

(** How a JSON number reads back after Go decoded it into a float64. *)
Class FloatText := float_text : string → string.
