(* ===== verification/Chapters.v ===== *)
(** * Chapters: the durable history of a job

    Chapter bodies and outcomes ([chapter.go]), the views the toy runtime derives
    from them ([toyimpl/runtime.go]), and the library-backed checks a chapter
    passes before it is stored. *)

From S2P Require Import Prelude Types Json.

(** ** Equality of JSON values *)
Fixpoint json_eqb (a b : json) {struct a} : bool :=
  match a, b with
  | JNull, JNull => true
  | JBool x, JBool y => Bool.eqb x y
  | JNum x, JNum y => String.eqb x y
  | JStr x, JStr y => String.eqb x y
  | JArr l, JArr m => (fix go (l m : list json) : bool :=
      match l, m with
      | [], [] => true
      | x :: l, y :: m => json_eqb x y && go l m
      | _, _ => false
      end) l m
  | JObj l, JObj m => (fix go (l m : list (string * json)) : bool :=
      match l, m with
      | [], [] => true
      | (k, x) :: l, (k', y) :: m => String.eqb k k' && json_eqb x y && go l m
      | _, _ => false
      end) l m
  | _, _ => false
  end.

(** ** Outcomes and bodies *)
Record AppErrorPayload := mkAppError {
  ae_Message : string; ae_Level : string; ae_Attrs : list (string * json)
}.
Record SystemErrorPayload := mkSystemError {
  se_Message : string; se_Component : string; se_Code : string
}.
Inductive ChapterOutcome :=
  | ApplicationOutputOutcome (data : string)
  | AppErrorOutcome (e : AppErrorPayload)
  | SystemErrorOutcome (e : SystemErrorPayload)
  | TimeoutOutcome (payload : json).
Inductive ChapterBody :=
  | JobStartChapter (input : string)
  | JobAttemptOutcomeChapter (o : ChapterOutcome)
  | TaskAttemptOutcomeChapter (o : ChapterOutcome)
  | RestartExtraChapter (output : string)
  | ExecutionChapter (record : string).

Record StoredArtifact := mkStoredArtifact { sa_Name : string; sa_Digest : string; sa_Size : Z }.

(** A nil body is [None]. *)
Record Chapter := mkChapter {
  ch_Ordinal : Z;
  ch_TaskType : string;
  ch_Body : option ChapterBody;
  ch_InputHash : string;
  ch_CreatedAt : time;
  ch_Metadata : json;
  ch_Artifacts : list StoredArtifact
}.
#[export] Instance eta_Chapter : Eta Chapter := λ c,
  mkChapter (ch_Ordinal c) (ch_TaskType c) (ch_Body c) (ch_InputHash c) (ch_CreatedAt c)
    (ch_Metadata c) (ch_Artifacts c).

(** [reflect.DeepEqual] of two chapters. *)
Definition attrs_eqb (l m : list (string * json)) : bool := json_eqb (JObj l) (JObj m).
Definition outcome_eqb (a b : ChapterOutcome) : bool :=
  match a, b with
  | ApplicationOutputOutcome x, ApplicationOutputOutcome y => String.eqb x y
  | AppErrorOutcome x, AppErrorOutcome y =>
      String.eqb (ae_Message x) (ae_Message y) && String.eqb (ae_Level x) (ae_Level y)
      && attrs_eqb (ae_Attrs x) (ae_Attrs y)
  | SystemErrorOutcome x, SystemErrorOutcome y =>
      String.eqb (se_Message x) (se_Message y) && String.eqb (se_Component x) (se_Component y)
      && String.eqb (se_Code x) (se_Code y)
  | TimeoutOutcome x, TimeoutOutcome y => json_eqb x y
  | _, _ => false
  end.
Definition body_eqb (a b : ChapterBody) : bool :=
  match a, b with
  | JobStartChapter x, JobStartChapter y => String.eqb x y
  | JobAttemptOutcomeChapter x, JobAttemptOutcomeChapter y => outcome_eqb x y
  | TaskAttemptOutcomeChapter x, TaskAttemptOutcomeChapter y => outcome_eqb x y
  | RestartExtraChapter x, RestartExtraChapter y => String.eqb x y
  | ExecutionChapter x, ExecutionChapter y => String.eqb x y
  | _, _ => false
  end.
Definition artifact_eqb (a b : StoredArtifact) : bool :=
  String.eqb (sa_Name a) (sa_Name b) && String.eqb (sa_Digest a) (sa_Digest b) && (sa_Size a =? sa_Size b)%Z.
Fixpoint artifacts_eqb (l m : list StoredArtifact) : bool :=
  match l, m with
  | [], [] => true
  | x :: l, y :: m => artifact_eqb x y && artifacts_eqb l m
  | _, _ => false
  end.
Definition chapter_eqb (a b : Chapter) : bool :=
  (ch_Ordinal a =? ch_Ordinal b)%Z && String.eqb (ch_TaskType a) (ch_TaskType b)
  && match ch_Body a, ch_Body b with
     | Some x, Some y => body_eqb x y
     | None, None => true
     | _, _ => false
     end
  && String.eqb (ch_InputHash a) (ch_InputHash b) && (ch_CreatedAt a =? ch_CreatedAt b)%Z
  && json_eqb (ch_Metadata a) (ch_Metadata b) && artifacts_eqb (ch_Artifacts a) (ch_Artifacts b).

(** [runtimecodec.ChapterIs(ch, ChapterTypeJobAttemptOutcome)] *)
Definition is_job_outcome (ch : Chapter) : bool :=
  match ch_Body ch with Some (JobAttemptOutcomeChapter _) => true | _ => false end.

Definition ChapterApplicationPayloadTooLargeCode : string := "chapter_application_payload_too_large".

(** [ChapterPayloadFailure]: the final outcome that reports an oversized payload. *)
Definition ChapterPayloadFailure (ch : Chapter) : bool :=
  match ch_Body ch with
  | Some (JobAttemptOutcomeChapter (AppErrorOutcome e)) =>
      match obj_get "code" (ae_Attrs e) with
      | Some (JStr c) => String.eqb c ChapterApplicationPayloadTooLargeCode
      | _ => false
      end
  | _ => false
  end.
(** [PayloadFailureChapter] *)
Definition PayloadFailureChapter (ch : Chapter) (e : AppErrorPayload) : Chapter :=
  mkChapter (ch_Ordinal ch) (ch_TaskType ch) (Some (JobAttemptOutcomeChapter (AppErrorOutcome e))) ""
    (ch_CreatedAt ch) (JObj []) [].

(** ** Views of a chapter

    [taskDataFromChapter]: the data a chapter carries, and the error its outcome
    stands for.  The bytes are the encoding of the body's payload. *)
Record TaskData := mkTaskData { td_Body : ChapterBody; td_Artifacts : list StoredArtifact }.
Inductive JobErr :=
  | JobErrCanceled
  | JobErrCancelled
  | JobErrOutcome (o : ChapterOutcome).

Definition outcome_err (o : ChapterOutcome) : option JobErr :=
  match o with ApplicationOutputOutcome _ => None | _ => Some (JobErrOutcome o) end.
Definition body_err (b : ChapterBody) : option JobErr :=
  match b with
  | JobAttemptOutcomeChapter o | TaskAttemptOutcomeChapter o => outcome_err o
  | _ => None
  end.
Definition taskDataFromChapter (ch : Chapter) : result (TaskData * option JobErr) :=
  match ch_Body ch with
  | Some b => Ok (mkTaskData b (ch_Artifacts ch), body_err b)
  | None => Err (ErrMsg "chapter body is required")
  end.

(** [extractAttemptFromMetadata], whose error the caller drops for 0. *)
Fixpoint dec_value (acc : Z) (s : string) : option Z :=
  match s with
  | EmptyString => Some acc
  | String c r => if is_digit c then dec_value (acc * 10 + (Z.of_N (N_of_ascii c) - 48)) r else None
  end.
Definition int_value (s : string) : option Z :=
  let m := take_minus s in
  match dec_value 0 m.2 with
  | Some v => Some (if str_empty m.1 then v else (- v)%Z)
  | None => None
  end.
Definition extractAttemptFromMetadata (m : json) : Z :=
  match m with
  | JObj o => match obj_get "attempt" o with
    | None | Some JNull => 1
    | Some (JNum l) => match int_value l with
      | Some 0%Z => 1
      | Some v => v
      | None => 0
      end
    | Some _ => 0
    end
  | _ => 1
  end.

(** The toy runtime's own record of a step. *)
Record toyChapter := mkToyChapter {
  tc_TaskType : string; tc_CreatedAt : time; tc_Input : option TaskData; tc_Output : option TaskData;
  tc_Attempt : Z; tc_Err : option JobErr
}.

(** ** Artifacts and checks *)

(** An upload whose reader yields its bytes, or fails. *)
Record ArtifactUpload := mkUpload { au_Name : string; au_Open : result string }.
(** Task data as the caller hands it over. *)
Record TaskInput := mkTaskInput { ti_Data : string; ti_Artifacts : list ArtifactUpload }.

(** Checks that rest on the JSON-schema compiler, the configured size limit and
    the execution-record codec, with SHA-256. *)
Class ChapterChecks := {
  ValidateChapterApplicationPayload : Chapter → result ();
  ValidateOrdinaryChapter : JobKey → string → Chapter → result ();
  ValidateLastChapter : JobKey → string → Chapter → result ();
  (** The payload-size error of a chapter, when that is why it was refused. *)
  payload_size_failure : Chapter → option AppErrorPayload;
  (** The result record that answers a stored wait record. *)
  execution_result : string → JobKey → string → Z → Z → string → list StoredArtifact → result string;
  sha256_hex : string → string;
  data_json_valid : string → bool;
  time_text : time → string
}.

(** [validateStoredArtifactDescriptors] *)
Definition descriptor_ok (p : StoredArtifact * StoredArtifact) : bool :=
  String.eqb (sa_Name p.1) (sa_Name p.2)
  && ((sa_Size p.1 =? 0)%Z || (sa_Size p.1 =? sa_Size p.2)%Z)
  && (str_empty (sa_Digest p.1) || String.eqb (sa_Digest p.1) (sa_Digest p.2)).
Definition validateStoredArtifactDescriptors (existing computed : list StoredArtifact) : result () :=
  if bool_decide (length existing = 0) then Ok tt
  else
    let? _ := guard_err (length existing =? length computed)%nat
                (ErrMsg "chapter artifact metadata count does not match uploads") in
    guard_err (forallb descriptor_ok (zip existing computed))
      (ErrMsg "chapter artifact does not match uploaded artifact").
