(* ===== verification/Digest.v ===== *)
(** * Digest: identity of JSON values up to spelling

    [clientpayload/payload.go]: [Digest] hashes a canonical text in which numbers
    are in the form mantissa, [e], exponent, without leading or trailing zeros. *)

From stdpp Require Import pretty.
From S2P Require Import Prelude Types Json ClientPayload Cells Chapters.

(** [strings.TrimLeft(s, chars)] and [strings.TrimRight] for the character 0. *)
Fixpoint trim_zeros_left (s : string) : string :=
  match s with
  | String c r => if is_char 48 c then trim_zeros_left r else s
  | EmptyString => ""
  end.
Fixpoint trim_zeros_right (s : string) : string :=
  match s with
  | String c r => let r' := trim_zeros_right r in
                  if is_char 48 c && str_empty r' then "" else String c r'
  | EmptyString => ""
  end.

(** The part before the first [e] or [E], and the part after it. *)
Fixpoint split_exponent (s : string) : string * option string :=
  match s with
  | String c r =>
      if is_char 101 c || is_char 69 c then ("", Some r)
      else let p := split_exponent r in (String c p.1, p.2)
  | EmptyString => ("", None)
  end.
(** Without a leading [+]; decimal, as [big.Int.SetString] reads it. *)
Definition exponent_value (s : option string) : Z :=
  match s with
  | None => 0
  | Some s =>
      let s := match s with String c r => if is_char 43 c then r else s | EmptyString => s end in
      default 0%Z (int_value s)
  end.

(** [normalNumber] *)
Definition normalNumber (s : string) : string :=
  let m := take_minus s in
  let x := split_exponent m.2 in
  let e := exponent_value x.2 in
  let '(digits, e) := match Cut 46 x.1 with
    | Some (i, f) => (i +:+ f, (e - Z.of_nat (String.length f))%Z)
    | None => (x.1, e)
    end in
  let d := trim_zeros_left digits in
  if str_empty d then "0"
  else
    let d' := trim_zeros_right d in
    let e := (e + Z.of_nat (String.length d - String.length d'))%Z in
    m.1 +:+ d' +:+ "e" +:+ pretty e.

(** [canonical]: entries of an object are already in key order. *)
Fixpoint canonical (v : json) : string :=
  match v with
  | JNull => "null"
  | JBool b => if b then "true" else "false"
  | JNum l => normalNumber l
  | JStr s => Marshal (JStr s)
  | JArr l => "[" +:+ (fix elems (l : list json) : string :=
      match l with
      | [] => ""
      | [v] => canonical v
      | v :: l => canonical v +:+ "," +:+ elems l
      end) l +:+ "]"
  | JObj l => "{" +:+ (fix members (l : list (string * json)) : string :=
      match l with
      | [] => ""
      | [(k, v)] => Marshal (JStr k) +:+ ":" +:+ canonical v
      | (k, v) :: l => Marshal (JStr k) +:+ ":" +:+ canonical v +:+ "," +:+ members l
      end) l +:+ "}"
  end.

Section digest.
Variable sha256_hex : string → string.

(** [digestWithLimit] and [Digest] *)
Definition digestWithLimit (raw : option string) (maxBytes : nat) (allowZero : bool) : result string :=
  match raw with
  | None => Ok (sha256_hex "absent")
  | Some raw => let? v := parseWithLimit raw maxBytes allowZero in Ok (sha256_hex (canonical v))
  end.
Definition Digest (raw : option string) : result string := digestWithLimit raw MaxBytes false.
End digest.

Example number_spellings :
  map normalNumber ["100"; "1e2"; "1.00E+2"; "-0.0"; "0.0120e1"; "-12e-1"]
  = ["1e2"; "1e2"; "1e2"; "0"; "12e-2"; "-12e-1"].
Proof. vm_compute. reflexivity. Qed.
Example digest_spellings :
  Digest id (Some (text "{ 'b' : 1.50 , 'a' : [ ] }")) = Ok (text "{'a':[],'b':15e-1}").
Proof. vm_compute. reflexivity. Qed.
