(* ===== verification/Schedule.v ===== *)
(** * Schedule: triggers, cron expressions and failure policy

    [schedule.go] and [schedule_trigger.go]: when a schedule fires next, and when
    its failure history blocks an occurrence. *)

From S2P Require Import Prelude Types Json ClientPayload Cells Metadata.

(** ** Vocabulary *)
Inductive ScheduleState :=
  ScheduleStateActive | ScheduleStatePaused | ScheduleStateArchived | ScheduleStateFailurePaused.
#[export] Instance ScheduleState_eq_dec : EqDecision ScheduleState.
Proof. solve_decision. Defined.

(** The trigger kind is a string on the wire; anything but the two kinds is an error. *)
Record ScheduleTrigger := mkTrigger {
  tr_Kind : string; tr_Expression : string; tr_Timezone : string;
  tr_StartAt : option time; tr_EndAt : option time; tr_Interval : Z
}.
Definition ScheduleTriggerCron : string := "cron".
Definition ScheduleTriggerInterval : string := "interval".

Record ScheduleFailurePolicy := mkFailurePolicy {
  fp_MinSuccessPercent : Z; fp_WindowSize : Z; fp_MaxSequentialFailures : Z
}.

(** ** Cron fields *)

(** [strings.Fields]: [cur] is the field being read. *)
Definition push_field (cur : string) (l : list string) : list string :=
  if str_empty cur then l else cur :: l.
Fixpoint fields_from (cur s : string) : list string :=
  match s with
  | EmptyString => push_field cur []
  | String a s1 =>
      if space1 a then push_field cur (fields_from "" s1)
      else match s1 with
      | EmptyString => [cur +:+ String a ""]
      | String b s2 =>
          if space2 a b then push_field cur (fields_from "" s2)
          else match s2 with
          | String c s3 => if space3 a b c then push_field cur (fields_from "" s3)
                           else fields_from (cur +:+ String a "") s1
          | EmptyString => fields_from (cur +:+ String a "") s1
          end
      end
  end.
Definition Fields (s : string) : list string := fields_from "" s.

(** [strconv.Atoi]: an optional sign and decimal digits within an int64. *)
Fixpoint digits_value (acc : Z) (s : string) : option Z :=
  match s with
  | EmptyString => Some acc
  | String c r => if is_digit c then digits_value (acc * 10 + (Z.of_N (N_of_ascii c) - 48)) r else None
  end.
Definition Atoi (s : string) : option Z :=
  let sg := take_sign s in
  if str_empty sg.2 then None else
  match digits_value 0 sg.2 with
  | Some v => let v := if String.eqb sg.1 "-" then (- v)%Z else v in
              if ((- MaxInt64 - 1 <=? v) && (v <=? MaxInt64))%Z then Some v else None
  | None => None
  end.

(** [cronRange] *)
Definition cronRange (part : string) (lo hi : Z) : result (Z * Z) :=
  if String.eqb part "*" then Ok (lo, hi)
  else if str_contains (in_range 45 45) part then
    match Split 45 part with
    | [a; b] =>
        let? s := of_option (ErrMsg "invalid range start") (Atoi a) in
        let? e := of_option (ErrMsg "invalid range end") (Atoi b) in
        let? _ := guard_err (s <=? e)%Z (ErrMsg "range start greater than end") in
        let? _ := guard_err ((lo <=? s) && (e <=? hi))%Z (ErrMsg "range out of bounds") in
        Ok (s, e)
    | _ => Err (ErrMsg "invalid range")
    end
  else
    let? v := of_option (ErrMsg "invalid value") (Atoi part) in
    let? _ := guard_err ((lo <=? v) && (v <=? hi))%Z (ErrMsg "value out of bounds") in
    Ok (v, v).

(** Sums of [int] wrap around: 64 bits, two's complement. *)
Definition wrap64 (z : Z) : Z := ((z + 2 ^ 63) mod 2 ^ 64 - 2 ^ 63)%Z.

(** The loop [for v := start; v <= end; v += step].  A step close to the largest integer
    brings [v] back below the range, which it then walks down; [cron_fuel] is enough
    in any case ([cron_loop_ends] of [ScheduleTheorems]). *)
Fixpoint cron_steps (fuel : nat) (v e step : Z) : list Z :=
  match fuel with
  | O => []
  | S fuel => if (v <=? e)%Z then v :: cron_steps fuel (wrap64 (v + step)) e step else []
  end.
Definition cron_fuel (e : Z) : nat := Z.to_nat (e + 4).
Definition cron_values (s e step : Z) : list Z := cron_steps (cron_fuel e) s e step.

(** One comma-separated segment of [parseCronField]: start, end and step. *)
Definition cron_bounds (lo hi : Z) (seg : string) : result (Z * Z * Z) :=
  let part := TrimSpace seg in
  let? _ := guard_err (negb (str_empty part)) (ErrMsg "empty segment") in
  let? ps := (if str_contains (in_range 47 47) part then
      match Split 47 part with
      | [p; q] => match Atoi q with
                  | Some n => if (0 <? n)%Z then Ok (p, n) else Err (ErrMsg "invalid step")
                  | None => Err (ErrMsg "invalid step")
                  end
      | _ => Err (ErrMsg "invalid step")
      end
    else Ok (part, 1%Z)) in
  let? r := cronRange ps.1 lo hi in
  Ok (r, ps.2).
(** [sundayAlias] *)
Definition cron_value (sundayAlias : bool) (v : Z) : Z := if sundayAlias && (v =? 7)%Z then 0%Z else v.
Definition cron_segment (lo hi : Z) (sundayAlias : bool) (seg : string) : result (gset Z) :=
  let? b := cron_bounds lo hi seg in
  Ok (list_to_set (cron_value sundayAlias <$> cron_values b.1.1 b.1.2 b.2)).

(** [parseCronField] *)
Definition parseCronField (field : string) (lo hi : Z) (sundayAlias : bool) : result (gset Z) :=
  let? sets := map_result (cron_segment lo hi sundayAlias) (Split 44 field) in
  let out := ⋃ sets in
  let? _ := guard_err (negb (bool_decide (out = ∅))) (ErrMsg "empty field") in
  Ok out.

Record cronSpec := mkCron {
  cron_minutes : gset Z; cron_hours : gset Z; cron_days : gset Z; cron_months : gset Z;
  cron_weekdays : gset Z
}.

(** [parseCronSpec] *)
Definition parseCronSpec (expr : string) : result cronSpec :=
  match Fields expr with
  | [f0; f1; f2; f3; f4] =>
      let? minutes := parseCronField f0 0 59 false in
      let? hours := parseCronField f1 0 23 false in
      let? days := parseCronField f2 1 31 false in
      let? months := parseCronField f3 1 12 false in
      let? weekdays := parseCronField f4 0 7 true in
      Ok (mkCron minutes hours days months weekdays)
  | _ => Err (ErrMsg "cron expression must have five fields")
  end.

(** ** Civil time

    The clock fields of an instant in a location. *)
Record civil := mkCivil { cv_minute : Z; cv_hour : Z; cv_day : Z; cv_month : Z; cv_weekday : Z }.

Definition hour : Z := 60 * minute.
(** Month and day of a day number of the proleptic Gregorian calendar; day 0 is
    1 January of year 1.  Years are counted from March, so that the leap day ends
    the year. *)
Definition month_day (days : Z) : Z * Z :=
  let z := (days + 306)%Z in
  let doe := (z mod 146097)%Z in
  let yoe := ((doe - doe / 1460 + doe / 36524 - doe / 146096) / 365)%Z in
  let doy := (doe - (365 * yoe + yoe / 4 - yoe / 100))%Z in
  let mp := ((5 * doy + 2) / 153)%Z in
  ((if mp <? 10 then mp + 3 else mp - 9)%Z, (doy - (153 * mp + 2) / 5 + 1)%Z).
Definition utc (t : time) : civil :=
  let days := (t / day)%Z in
  let md := month_day days in
  mkCivil (t / minute mod 60) (t / hour mod 24) md.2 md.1 ((days + 1) mod 7).

(** [time.LoadLocation]: the clock of a named zone, if the zone database has it. *)
Class TimeZones := { LoadLocation : string → option (time → civil) }.

(** [cronSpec.matches] *)
Definition matches (spec : cronSpec) (c : civil) : bool :=
  bool_decide (cv_minute c ∈ cron_minutes spec) && bool_decide (cv_hour c ∈ cron_hours spec)
  && bool_decide (cv_day c ∈ cron_days spec) && bool_decide (cv_month c ∈ cron_months spec)
  && bool_decide (cv_weekday c ∈ cron_weekdays spec).

(** ** Fire times *)
Definition search_window : nat := N.to_nat (366 * 24 * 60 * 5).

(** The minute-by-minute search; [end_ = 0] means no end ([IsZero]). *)
Fixpoint cron_search (fuel : nat) (spec : cronSpec) (loc : time → civil) (end_ cursor : time)
    : result (option time) :=
  match fuel with
  | O => Err (ErrMsg "no cron fire time found within search window")
  | S fuel =>
      if negb (IsZero end_) && After cursor end_ then Ok None
      else if matches spec (loc cursor) then Ok (Some cursor)
      else cron_search fuel spec loc end_ (cursor + minute)
  end.

Definition after_end (endAt : option time) (t : time) : bool :=
  match endAt with Some e => After t e | None => false end.

(** Where the search starts. *)
Definition cron_cursor (startAt : option time) (after : time) : time :=
  let cursor := (Truncate after minute + minute)%Z in
  match startAt with
  | Some s => if Before cursor s then Truncate s minute else cursor
  | None => cursor
  end.

Section fire.
Context `{TimeZones}.

(** [NextScheduleFire]; nil is [None]. *)
Definition NextScheduleFire (tr : ScheduleTrigger) (after : time) : result (option time) :=
  if String.eqb (tr_Kind tr) ScheduleTriggerInterval then
    let? _ := guard_err (0 <? tr_Interval tr)%Z (ErrMsg "interval trigger requires a positive interval") in
    let next := (after + tr_Interval tr)%Z in
    let next := match tr_StartAt tr with Some s => if Before next s then s else next | None => next end in
    Ok (if after_end (tr_EndAt tr) next then None else Some next)
  else if String.eqb (tr_Kind tr) ScheduleTriggerCron then
    let? spec := parseCronSpec (tr_Expression tr) in
    let? loc := (if blank (tr_Timezone tr) then Ok utc
                 else of_option (ErrMsg "load schedule timezone") (LoadLocation (tr_Timezone tr))) in
    cron_search search_window spec loc (default 0%Z (tr_EndAt tr)) (cron_cursor (tr_StartAt tr) after)
  else Err (ErrMsg "unsupported trigger kind").

(** [InitialScheduleFire] *)
Definition InitialScheduleFire (tr : ScheduleTrigger) (now : time) : result (option time) :=
  if String.eqb (tr_Kind tr) ScheduleTriggerInterval then
    let next := match tr_StartAt tr with Some s => if After s now then s else now | None => now end in
    Ok (if after_end (tr_EndAt tr) next then None else Some next)
  else if String.eqb (tr_Kind tr) ScheduleTriggerCron then
    let after := match tr_StartAt tr with
      | Some s => if After s now then (s - minute)%Z else (now - nanosecond)%Z
      | None => (now - nanosecond)%Z
      end in
    NextScheduleFire tr after
  else Err (ErrMsg "unsupported trigger kind").
End fire.

(** ** Failure history *)
Definition bit_char (c : Ascii.ascii) : bool := in_range 48 48 c || in_range 49 49 c.
Definition bits_ok (s : string) : bool := negb (str_contains (λ c, negb (bit_char c)) s).

(** [bits[n:]] *)
Fixpoint str_drop (n : nat) (s : string) : string :=
  match n, s with
  | S n, String _ r => str_drop n r
  | _, _ => s
  end.

(** [AppendScheduleFailureBit] *)
Definition AppendScheduleFailureBit (bits : string) (success : bool) (windowSize : Z) : string :=
  let bits := if bits_ok bits then bits else "" in
  let bits := bits +:+ (if success then "1" else "0") in
  if ((0 <? windowSize) && (windowSize <? Z.of_nat (String.length bits)))%Z
  then str_drop (String.length bits - Z.to_nat windowSize) bits
  else bits.

(** The backwards loop of [ScheduleFailurePolicyViolated], on the reversed bits. *)
Fixpoint leading_zeros (l : list Ascii.ascii) : Z :=
  match l with
  | c :: l => if in_range 48 48 c then (1 + leading_zeros l)%Z else 0%Z
  | [] => 0%Z
  end.
Definition trailing_failures (bits : string) : Z := leading_zeros (reverse (String.list_ascii_of_string bits)).
Fixpoint count_char (n : N) (s : string) : Z :=
  match s with
  | EmptyString => 0
  | String c r => ((if in_range n n c then 1 else 0) + count_char n r)%Z
  end.

(** [ScheduleFailurePolicyViolated] *)
Definition ScheduleFailurePolicyViolated (bits : string) (p : ScheduleFailurePolicy) : bool :=
  if str_empty bits then false
  else
    ((0 <? fp_MaxSequentialFailures p)%Z && (fp_MaxSequentialFailures p <=? trailing_failures bits)%Z)
    || ((0 <? fp_MinSuccessPercent p)%Z &&
        let successes := count_char 49 bits in
        let total := (successes + count_char 48 bits)%Z in
        (0 <? total)%Z && (successes * 100 <? fp_MinSuccessPercent p * total)%Z).

(** 29 February 2024 12:30 UTC, a Thursday. *)
Definition leap_day : time := (738944 * day + 12 * hour + 30 * minute)%Z.
Example utc_leap_day : utc leap_day = mkCivil 30 12 29 2 4.
Proof. vm_compute. reflexivity. Qed.
Example utc_new_year : utc (719162 * day)%Z = mkCivil 0 0 1 1 4.
Proof. vm_compute. reflexivity. Qed.
Example cron_five : is_ok (parseCronSpec "*/15 0-6,12 1 * 1-5/2") = true ∧ is_ok (parseCronSpec "60 * * * *") = false.
Proof. vm_compute. split; reflexivity. Qed.
