(* ===== verification/ScheduleRuns.v ===== *)
(** * ScheduleRuns: schedules, their occurrences and what jobs carry of them

    [schedule.go]: requests and their validation, the identity of occurrences, the
    envelope that marks a job as an occurrence, and the hash of a schedule's
    specification. *)

From stdpp Require Import pretty.
From S2P Require Import Prelude Types Json ClientPayload Cells Metadata Chapters Digest Schedule.

(** ** Schedules ([ScheduleInfo], [ScheduleTarget])

    [si_TenantId] and [si_ScheduleId] also are the [ScheduleKey] of an info.
    Missing metadata and missing data are [None]. *)
Record ScheduleTarget := mkScheduleTarget {
  st_Cell : string; st_CellID : string; st_CellRepo : string;
  st_ClientPayloadUpdate : option ClientPayload.Update;
  st_JobType : string; st_Data : option TaskInput; st_RunPolicy : json; st_Metadata : option json
}.
#[export] Instance eta_ScheduleTarget : Eta ScheduleTarget := λ t,
  mkScheduleTarget (st_Cell t) (st_CellID t) (st_CellRepo t) (st_ClientPayloadUpdate t) (st_JobType t)
    (st_Data t) (st_RunPolicy t) (st_Metadata t).
Record ScheduleInfo := mkScheduleInfo {
  si_PauseReason : string;
  si_TenantId : string;
  si_ScheduleId : string;
  si_State : ScheduleState;
  si_EffectiveState : ScheduleState;
  si_Generation : Z;
  si_SpecHash : string;
  si_Trigger : ScheduleTrigger;
  si_Target : ScheduleTarget;
  si_OverlapPolicy : string;
  si_FailurePolicy : ScheduleFailurePolicy;
  si_NextFireAt : option time;
  si_NextJobKey : option JobKey;
  si_CreatedAt : time;
  si_UpdatedAt : time
}.
#[export] Instance eta_ScheduleInfo : Eta ScheduleInfo := λ s,
  mkScheduleInfo (si_PauseReason s) (si_TenantId s) (si_ScheduleId s) (si_State s) (si_EffectiveState s)
    (si_Generation s) (si_SpecHash s) (si_Trigger s) (si_Target s) (si_OverlapPolicy s)
    (si_FailurePolicy s) (si_NextFireAt s) (si_NextJobKey s) (si_CreatedAt s) (si_UpdatedAt s).
Definition info_key (i : ScheduleInfo) : ScheduleKey := mkScheduleKey (si_TenantId i) (si_ScheduleId i).

(** ** Requests *)
Record UpsertScheduleRequest := mkUpsert {
  us_TenantId : string; us_ScheduleId : string; us_Trigger : ScheduleTrigger; us_Target : ScheduleTarget;
  us_OverlapPolicy : string; us_FailurePolicy : ScheduleFailurePolicy; us_Paused : bool;
  us_ExpectedGeneration : option Z; us_RequestTime : time
}.
Record ScheduleMutationRequest := mkMutation {
  sm_ScheduleKey : ScheduleKey; sm_ExpectedGeneration : option Z; sm_RequestTime : time
}.
Record TriggerScheduleRequest := mkTriggerNow {
  ts_ScheduleKey : ScheduleKey; ts_RequestID : string; ts_RequestTime : time
}.

(** [ScheduleKey.Validate] *)
Definition id_char (c : ascii) : bool :=
  in_range 65 90 c || in_range 97 122 c || is_digit c || is_char 95 c || is_char 45 c.
Definition ScheduleKey_Validate (k : ScheduleKey) : result () :=
  let? _ := guard_err (negb (str_empty (sk_TenantId k))) (ErrMsg "tenantId is required") in
  guard_err (negb (str_empty (sk_ScheduleId k)) && negb (str_contains (λ c, negb (id_char c)) (sk_ScheduleId k)))
    (ErrMsg "scheduleId must match [A-Za-z0-9_-]+").

Definition ScheduleOverlapSerial : string := "serial".
(** [NormalizeScheduleOverlapPolicy] *)
Definition NormalizeScheduleOverlapPolicy (policy : string) : string :=
  if str_empty policy then ScheduleOverlapSerial else policy.

(** [ValidateApplicationMetadata]: an object, or null, which Go decodes into a nil map. *)
Definition ValidateApplicationMetadata (m : option json) : result () :=
  match m with
  | None | Some (JObj _) | Some JNull => Ok tt
  | _ => Err (ErrMsg "metadata must be a JSON object")
  end.

(** [ValidateScheduleRequest] *)
Definition ValidateScheduleRequest (req : UpsertScheduleRequest) : result () :=
  let? _ := ScheduleKey_Validate (mkScheduleKey (us_TenantId req) (us_ScheduleId req)) in
  let? _ := guard_err (is_ok (ValidateIdentifier (st_JobType (us_Target req)))) (ErrMsg "target jobType is required") in
  let? _ := guard_err (bool_decide (is_Some (st_Data (us_Target req)))) (ErrMsg "target data is required") in
  let? _ := ValidateApplicationMetadata (st_Metadata (us_Target req)) in
  let? _ := guard_err (String.eqb (NormalizeScheduleOverlapPolicy (us_OverlapPolicy req)) ScheduleOverlapSerial)
              (ErrMsg "unsupported overlap policy") in
  let tr := us_Trigger req in
  let? _ := (if String.eqb (tr_Kind tr) ScheduleTriggerCron
             then guard_err (negb (blank (tr_Expression tr))) (ErrMsg "cron expression is required")
             else if String.eqb (tr_Kind tr) ScheduleTriggerInterval
             then guard_err (0 <? tr_Interval tr)%Z (ErrMsg "interval trigger requires a positive interval")
             else Err (ErrMsg "unsupported trigger kind")) in
  let p := us_FailurePolicy req in
  guard_err (negb ((fp_WindowSize p <? 0)%Z || (fp_MinSuccessPercent p <? 0)%Z || (100 <? fp_MinSuccessPercent p)%Z
                   || (fp_MaxSequentialFailures p <? 0)%Z)) (ErrMsg "invalid failure policy").

(** ** The identity of an occurrence *)

(** The year of a day number, by the calendar of [month_day]. *)
Definition year_of (days : Z) : Z :=
  let z := (days + 306)%Z in
  let era := (z / 146097)%Z in
  let doe := (z mod 146097)%Z in
  let yoe := ((doe - doe / 1460 + doe / 36524 - doe / 146096) / 365)%Z in
  let doy := (doe - (365 * yoe + yoe / 4 - yoe / 100))%Z in
  (yoe + era * 400 + (if (5 * doy + 2) / 153 <? 10 then 0 else 1))%Z.
(** Decimal digits with leading zeros up to a width. *)
Definition pad (width : nat) (n : Z) : string :=
  let s := pretty n in
  String.concat "" (repeat "0" (width - String.length s)) +:+ s.

(** [ScheduleRunID]: the instant to the nanosecond. *)
Definition ScheduleRunID (t : time) : string :=
  let days := (t / day)%Z in
  let md := month_day days in
  pad 4 (year_of days) +:+ pad 2 md.1 +:+ pad 2 md.2 +:+ "T" +:+ pad 2 (t / hour mod 24) +:+ pad 2 (t / minute mod 60)
    +:+ pad 2 (t / second mod 60) +:+ pad 9 (t mod second) +:+ "Z".
(** [ScheduleRunJobID] *)
Definition ScheduleRunJobID (scheduleID : string) (generation : Z) (scheduledAt : time) : string :=
  "jobdbsched_" +:+ scheduleID +:+ "_g" +:+ pretty generation +:+ "_run_" +:+ ScheduleRunID scheduledAt.
(** [ScheduleManualJobID]; [now] is the clock it reads without a request ID. *)
Definition ScheduleManualJobID (scheduleID requestID : string) (now : time) : string :=
  "jobdbsched_" +:+ scheduleID +:+ "_manual_" +:+ (if str_empty requestID then ScheduleRunID now else requestID).

(** ** Occurrence metadata *)
Record ScheduleFailureHistory := mkHistory { fh_Bits : string; fh_WindowSize : Z }.
Record ScheduleOccurrenceMetadata := mkOccurrence {
  om_ScheduleId : string; om_Kind : string; om_Generation : Z; om_SpecHash : string; om_ScheduledAt : time;
  om_RunId : string; om_Manual : bool; om_BackfillId : string; om_PreviousJobId : string;
  om_FailureHistory : ScheduleFailureHistory
}.
#[export] Instance eta_ScheduleOccurrenceMetadata : Eta ScheduleOccurrenceMetadata := λ o,
  mkOccurrence (om_ScheduleId o) (om_Kind o) (om_Generation o) (om_SpecHash o) (om_ScheduledAt o) (om_RunId o)
    (om_Manual o) (om_BackfillId o) (om_PreviousJobId o) (om_FailureHistory o).
Definition ScheduleMetadataKind : string := "schedule_tick".

(** [RuntimeJobMetadata] *)
Record RuntimeJobMetadata := mkRuntimeMetadata {
  rm_Schedule : option ScheduleOccurrenceMetadata; rm_SchemaHash : string; rm_ParentJobID : string
}.

(** What the code takes from [time] and [encoding/json] here: the text of a time
    and back, and the text of a specification, which fails on data that is not
    JSON. *)
Record scheduleHashArtifact := mkHashArtifact { ha_Name : string; ha_Digest : string; ha_Size : Z }.
Record scheduleHashTarget := mkHashTarget {
  ht_Cell : string; ht_CellRepo : string; ht_ClientPayloadDigest : string; ht_JobType : string;
  ht_Data : option string; ht_Artifacts : list scheduleHashArtifact; ht_RunPolicy : json; ht_Metadata : option json
}.
Class ScheduleText := {
  time_value : string → option time;
  spec_text : ScheduleTrigger → scheduleHashTarget → string → ScheduleFailurePolicy → result string
}.

(** Members that are left out when they have their zero value. *)
Definition omit_string (k s : string) : list (string * json) := if str_empty s then [] else [(k, JStr s)].
Definition omit_int (k : string) (n : Z) : list (string * json) := if (n =? 0)%Z then [] else [(k, JNum (pretty n))].

Section envelope.
Context `{ChapterChecks} `{FloatText} `{ScheduleText}.

(** The JSON value of an occurrence. *)
Definition occurrence_json (o : ScheduleOccurrenceMetadata) : json :=
  let h := om_FailureHistory o in
  JObj (omit_string "backfillId" (om_BackfillId o)
    ++ [("failureHistory", JObj (omit_string "bits" (fh_Bits h) ++ omit_int "windowSize" (fh_WindowSize h)));
        ("generation", JNum (pretty (om_Generation o))); ("kind", JStr (om_Kind o)); ("manual", JBool (om_Manual o))]
    ++ omit_string "previousJobId" (om_PreviousJobId o)
    ++ [("runId", JStr (om_RunId o)); ("scheduleId", JStr (om_ScheduleId o));
        ("scheduledAt", JStr (time_text (om_ScheduledAt o))); ("specHash", JStr (om_SpecHash o))]).
Definition internal_json (m : RuntimeJobMetadata) : json :=
  JObj (omit_string "parentJobId" (rm_ParentJobID m)
    ++ match rm_Schedule m with Some o => [("schedule", occurrence_json o)] | None => [] end
    ++ omit_string "schemaHash" (rm_SchemaHash m)).
(** [runtimeJobMetadataEmpty] *)
Definition runtimeJobMetadataEmpty (m : RuntimeJobMetadata) : bool :=
  bool_decide (rm_Schedule m = None) && blank (rm_SchemaHash m) && blank (rm_ParentJobID m).

(** [NormalizeJSON]: decoding and encoding again. *)
Definition NormalizeJSON (m : option json) : option json := refloat float_text <$> m.

(** [BuildJobMetadataEnvelope]; no metadata at all is [None]. *)
Definition BuildJobMetadataEnvelope (app : option json) (internal : RuntimeJobMetadata) : result (option json) :=
  let? _ := ValidateApplicationMetadata app in
  let app := NormalizeJSON app in
  Ok (if bool_decide (app = None) && runtimeJobMetadataEmpty internal then None
      else Some (JObj (match app with Some v => [("app", v)] | None => [] end
                       ++ if runtimeJobMetadataEmpty internal then [] else [("internal", internal_json internal)]))).

(** [MergeScheduleOccurrenceMetadata] *)
Definition MergeScheduleOccurrenceMetadata (app : option json) (o : ScheduleOccurrenceMetadata) (manual : bool)
    : result (option json) :=
  let o := o <| om_Kind := ScheduleMetadataKind |> <| om_RunId := ScheduleRunID (om_ScheduledAt o) |>
             <| om_Manual := manual |> in
  BuildJobMetadataEnvelope app (mkRuntimeMetadata (Some o) "" "").

(** ** Reading the envelope

    Decoding into a Go struct: a missing or null member keeps the zero value, a
    member of another type is an error, unknown members are ignored. *)
Definition bad_metadata {A} : result A := Err (ErrMsg "internal metadata must be a JSON object").
Definition field {A} (decode : json → result A) (zero : A) (k : string) (o : list (string * json)) : result A :=
  match obj_get k o with
  | None | Some JNull => Ok zero
  | Some v => decode v
  end.
Definition as_string (v : json) : result string := match v with JStr s => Ok s | _ => bad_metadata end.
Definition as_int (v : json) : result Z :=
  match v with JNum l => match Atoi l with Some n => Ok n | None => bad_metadata end | _ => bad_metadata end.
Definition as_bool (v : json) : result bool := match v with JBool b => Ok b | _ => bad_metadata end.
Definition as_time (v : json) : result time :=
  match v with JStr s => match time_value s with Some t => Ok t | None => bad_metadata end | _ => bad_metadata end.
Definition as_history (v : json) : result ScheduleFailureHistory :=
  match v with
  | JObj o =>
      let? bits := field as_string "" "bits" o in
      let? size := field as_int 0%Z "windowSize" o in
      Ok (mkHistory bits size)
  | _ => bad_metadata
  end.
Definition as_occurrence (v : json) : result (option ScheduleOccurrenceMetadata) :=
  match v with
  | JObj o =>
      let? id := field as_string "" "scheduleId" o in
      let? kind := field as_string "" "kind" o in
      let? generation := field as_int 0%Z "generation" o in
      let? spec := field as_string "" "specHash" o in
      let? at_ := field as_time 0%Z "scheduledAt" o in
      let? run := field as_string "" "runId" o in
      let? manual := field as_bool false "manual" o in
      let? backfill := field as_string "" "backfillId" o in
      let? previous := field as_string "" "previousJobId" o in
      let? history := field as_history (mkHistory "" 0) "failureHistory" o in
      Ok (Some (mkOccurrence id kind generation spec at_ run manual backfill previous history))
  | _ => bad_metadata
  end.
Definition as_runtime_metadata (v : json) : result RuntimeJobMetadata :=
  match v with
  | JObj o =>
      let? schedule := field as_occurrence None "schedule" o in
      let? hash := field as_string "" "schemaHash" o in
      let? parent := field as_string "" "parentJobId" o in
      Ok (mkRuntimeMetadata schedule hash parent)
  | JNull => Ok (mkRuntimeMetadata None "" "")
  | _ => bad_metadata
  end.

(** [ExtractScheduleOccurrenceMetadata]; [None] is a job no schedule submitted. *)
Definition ExtractScheduleOccurrenceMetadata (raw : json) : result (option ScheduleOccurrenceMetadata) :=
  let? root := match raw with
    | JObj o => Ok o
    | JNull => Ok []
    | _ => Err (ErrMsg "metadata must be a JSON object")
    end in
  match obj_get "internal" root with
  | None => Ok None
  | Some v =>
      let? m := as_runtime_metadata v in
      match rm_Schedule m with
      | None => Ok None
      | Some o =>
          let? _ := guard_err (negb (str_empty (om_ScheduleId o) || (om_Generation o <=? 0)%Z
                      || str_empty (om_SpecHash o) || IsZero (om_ScheduledAt o)))
                      (ErrMsg "schedule metadata missing required fields") in
          let? _ := guard_err (str_empty (om_Kind o) || String.eqb (om_Kind o) ScheduleMetadataKind)
                      (ErrMsg "schedule metadata kind is invalid") in
          let o := o <| om_Kind := ScheduleMetadataKind |> in
          Ok (Some (if str_empty (om_RunId o) then o <| om_RunId := ScheduleRunID (om_ScheduledAt o) |> else o))
      end
  end.

(** ** The specification hash *)

(** [scheduleArtifactsForHash]: by name, digest and size. *)
Definition hash_leb (a b : scheduleHashArtifact) : bool :=
  if String.eqb (ha_Name a) (ha_Name b) then
    if String.eqb (ha_Digest a) (ha_Digest b) then (ha_Size a <=? ha_Size b)%Z else str_leb (ha_Digest a) (ha_Digest b)
  else str_leb (ha_Name a) (ha_Name b).
Definition hash_le (a b : scheduleHashArtifact) : Prop := hash_leb a b = true.
#[export] Instance hash_le_dec a b : Decision (hash_le a b).
Proof. unfold hash_le. apply _. Defined.
Definition hash_artifact (u : ArtifactUpload) : result scheduleHashArtifact :=
  let? data := au_Open u in
  Ok (mkHashArtifact (au_Name u) (sha256_hex data) (Z.of_nat (String.length data))).
Definition scheduleArtifactsForHash (d : TaskInput) : result (list scheduleHashArtifact) :=
  let? arts := map_result hash_artifact (ti_Artifacts d) in
  Ok (merge_sort hash_le arts).

(** [ScheduleSpecHash] *)
Definition ScheduleSpecHash (tr : ScheduleTrigger) (t : ScheduleTarget) (overlap : string) (p : ScheduleFailurePolicy)
    : result string :=
  let? initial := Initial (st_ClientPayloadUpdate t) in
  let? digest := Digest sha256_hex initial.1 in
  let? arts := match st_Data t with Some d => scheduleArtifactsForHash d | None => Ok [] end in
  let? raw := spec_text tr (mkHashTarget (st_Cell t) (st_CellRepo t) digest (st_JobType t) (ti_Data <$> st_Data t)
                              arts (st_RunPolicy t) (NormalizeJSON (st_Metadata t)))
                (NormalizeScheduleOverlapPolicy overlap) p in
  Ok ("sha256:" +:+ sha256_hex raw).

(** [snapshotScheduleTarget]: the payload an occurrence starts with, and the
    artifacts read once. *)
Definition snapshot_artifact (u : ArtifactUpload) : result ArtifactUpload :=
  let? data := au_Open u in Ok (mkUpload (au_Name u) (Ok data)).
Definition snapshotScheduleTarget (t : ScheduleTarget) : result ScheduleTarget :=
  let? initial := Initial (st_ClientPayloadUpdate t) in
  let t := t <| st_ClientPayloadUpdate := match initial.1 with
    | Some v => Some (mkUpdate "reset" (Some v) None)
    | None => None
    end |> in
  match st_Data t with
  | None => Ok t
  | Some d =>
      let? arts := map_result snapshot_artifact (ti_Artifacts d) in
      Ok (t <| st_Data := Some (mkTaskInput (ti_Data d) arts) |>)
  end.
End envelope.

Example run_id : ScheduleRunID (leap_day + 1500 * second + 7)%Z = "20240229T125500000000007Z".
Proof. vm_compute. reflexivity. Qed.
Example run_job_id : ScheduleRunJobID "nightly" 8 (719162 * day)%Z = "jobdbsched_nightly_g8_run_19700101T000000000000000Z".
Proof. vm_compute. reflexivity. Qed.
Example year_ends : map year_of [0; 364; 365; 738885 + 364; 738885 + 365; 738885 + 366 + 364]%Z = [1; 1; 2; 2024; 2024; 2025]%Z.
Proof. vm_compute. reflexivity. Qed.
