(* ===== verification/ScheduleTheorems.v ===== *)
(** * ScheduleTheorems: when schedules fire and when failures block them *)

From S2P Require Import Prelude Types Json Cells Metadata Schedule.

#[local] Opaque search_window.

Lemma minute_pos : (0 < minute)%Z.
Proof. done. Qed.

Lemma truncate_le t : (Truncate t minute ≤ t < Truncate t minute + minute)%Z.
Proof. unfold Truncate. pose proof (Z.mod_pos_bound t minute minute_pos). lia. Qed.

Lemma truncate_mod t : (Truncate t minute mod minute = 0)%Z.
Proof.
  unfold Truncate. rewrite Zminus_mod, Zmod_mod, Z.sub_diag. done.
Qed.

Lemma cursor_mod s after : (cron_cursor s after mod minute = 0)%Z.
Proof.
  unfold cron_cursor. assert ((Truncate after minute + minute) mod minute = 0)%Z as Hc.
  { rewrite Z.add_mod by done. by rewrite truncate_mod. }
  destruct s as [s|]; [|done]. destruct (Before _ s); [apply truncate_mod|done].
Qed.

(** Grid points below a grid point are at least a step below. *)
Lemma grid_between c u k :
  (c mod minute = 0 → u mod minute = 0 → c ≤ u → u < c + k * minute →
   ∃ i, 0 ≤ i < k ∧ u = c + i * minute)%Z.
Proof.
  intros Hc Hu Hle Hlt. exists (u / minute - c / minute)%Z.
  pose proof (Z.div_mod c minute ltac:(done)). pose proof (Z.div_mod u minute ltac:(done)).
  pose proof minute_pos. split; nia.
Qed.

Lemma cursor_spec s after u :
  (u mod minute = 0)%Z →
  (cron_cursor s after ≤ u)%Z ↔
  (after < u ∧ match s with Some s => Truncate s minute ≤ u | None => True end)%Z.
Proof.
  intros Hu. pose proof (truncate_le after) as Ha. pose proof (truncate_mod after) as Hm.
  assert (Truncate after minute + minute ≤ u ↔ after < u)%Z as Hcur.
  { split; [lia|]. intros Hlt. destruct (decide (Truncate after minute + minute ≤ u)%Z) as [|Hn]; [done|].
    destruct (grid_between (Truncate after minute) u 1) as (i & Hi & ->); [done|done|lia|lia|]. nia. }
  unfold cron_cursor. destruct s as [s|]; [|tauto]. pose proof (truncate_le s) as Hs.
  unfold Before. destruct (Z.ltb_spec (Truncate after minute + minute) s) as [Hlt|Hge].
  - assert (Truncate after minute + minute ≤ Truncate s minute)%Z as Hts.
    { destruct (decide (Truncate after minute + minute ≤ Truncate s minute)%Z) as [|Hn]; [done|].
      destruct (grid_between (Truncate s minute) (Truncate after minute + minute) 1) as (i & Hi & Heq);
        [apply truncate_mod| |lia|lia|nia].
      rewrite Z.add_mod by done. by rewrite Hm. }
    split; [intros Hle; split; [apply Hcur; lia|done]|by intros [_ ?]].
  - rewrite Hcur. split; [|by intros [? _]]. intros Hu'. split; [done|]. apply Hcur in Hu'. lia.
Qed.

Lemma cursor_after s after : (after < cron_cursor s after)%Z.
Proof. by apply (cursor_spec s after _ (cursor_mod s after)). Qed.

Lemma search_window_Z : Z.of_nat search_window = (366 * 24 * 60 * 5)%Z.
Proof. Transparent search_window. unfold search_window. rewrite N_nat_Z. reflexivity. Qed.
#[local] Opaque search_window.

(** ** What a cron expression means *)

(** The values the loop of a segment visits, one after the other. *)
Inductive visits (s e step : Z) : Z → Prop :=
  | visits_start : (s ≤ e)%Z → visits s e step s
  | visits_next v : visits s e step v → (wrap64 (v + step) ≤ e)%Z → visits s e step (wrap64 (v + step)).

Lemma wrap64_small z : (- 2 ^ 63 ≤ z < 2 ^ 63)%Z → wrap64 z = z.
Proof. intros Hz. unfold wrap64. rewrite Z.mod_small; lia. Qed.
Lemma wrap64_over z : (2 ^ 63 ≤ z < 2 ^ 64)%Z → wrap64 z = (z - 2 ^ 64)%Z.
Proof.
  intros Hz. unfold wrap64. replace (z + 2 ^ 63)%Z with (z - 2 ^ 63 + 1 * 2 ^ 64)%Z by lia.
  rewrite Z.mod_add by done. rewrite Z.mod_small; lia.
Qed.

(** The loop leaves the range before the fuel is used up. *)
Fixpoint leaves (fuel : nat) (v e step : Z) : bool :=
  match fuel with
  | O => (e <? v)%Z
  | S fuel => if (v <=? e)%Z then leaves fuel (wrap64 (v + step)) e step else true
  end.
Lemma leaves_beyond n v e step : (e < v)%Z → leaves n v e step = true.
Proof. intros Hv. destruct n; simpl; [by apply Z.ltb_lt|]. destruct (Z.leb_spec v e); [lia|done]. Qed.
Lemma leaves_up n v e step :
  (0 ≤ v)%Z → (0 < step)%Z → (e + step < 2 ^ 63)%Z → (e - v < Z.of_nat n)%Z → leaves n v e step = true.
Proof.
  revert v. induction n as [|n IH]; intros v Hv Hs He Hn; simpl; [apply Z.ltb_lt; lia|].
  destruct (Z.leb_spec v e); [|done]. rewrite wrap64_small by lia. apply IH; lia.
Qed.
(** With a step that overflows: every other value is negative, and the others go down. *)
Lemma leaves_down n v e step :
  (0 ≤ v ≤ e)%Z → (e < 2 ^ 60)%Z → (2 ^ 63 - e ≤ step < 2 ^ 63)%Z → (v + 3 ≤ Z.of_nat n)%Z → leaves n v e step = true.
Proof.
  revert v. induction n as [n IH] using lt_wf_ind. intros v Hv He Hs Hn.
  destruct n as [|[|n]]; [lia..|]. cbn [leaves]. destruct (Z.leb_spec v e); [|done].
  destruct (decide (v + step < 2 ^ 63)%Z) as [Hlt|Hge].
  { rewrite (wrap64_small (v + step)) by lia. destruct (Z.leb_spec (v + step) e); [lia|done]. }
  rewrite (wrap64_over (v + step)) by lia. destruct (Z.leb_spec (v + step - 2 ^ 64) e); [|done].
  rewrite (wrap64_small (v + step - 2 ^ 64 + step)) by lia.
  destruct (decide (0 ≤ v + step - 2 ^ 64 + step)%Z) as [Hpos|Hneg]; [apply IH; lia|].
  destruct n as [|n]; [lia|]. cbn [leaves]. destruct (Z.leb_spec (v + step - 2 ^ 64 + step) e); [|done].
  rewrite wrap64_small by lia. apply leaves_beyond. lia.
Qed.
Lemma cron_loop_ends s e step :
  (0 ≤ s ≤ e)%Z → (e < 2 ^ 60)%Z → (0 < step ≤ MaxInt64)%Z → leaves (cron_fuel e) s e step = true.
Proof.
  intros Hs He Hst. assert (MaxInt64 = 2 ^ 63 - 1)%Z as HM by reflexivity. unfold cron_fuel.
  destruct (decide (e + step < 2 ^ 63)%Z); [apply leaves_up|apply leaves_down]; lia.
Qed.
Lemma cron_steps_visits n s v e step : visits s e step v → ∀ u, u ∈ cron_steps n v e step → visits s e step u.
Proof.
  revert v. induction n as [|n IH]; intros v Hv u; simpl; [by intros ?%elem_of_nil|].
  destruct (Z.leb_spec v e); [|by intros ?%elem_of_nil]. intros [->|Hu]%elem_of_cons; [done|].
  destruct n as [|n]; [by apply elem_of_nil in Hu|]. destruct (Z.leb_spec (wrap64 (v + step)) e) as [Hle|Hgt].
  - by apply (IH (wrap64 (v + step))); [constructor|].
  - simpl in Hu. destruct (Z.leb_spec (wrap64 (v + step)) e); [lia|by apply elem_of_nil in Hu].
Qed.
Lemma cron_steps_next n v e step u :
  leaves n v e step = true → u ∈ cron_steps n v e step → (wrap64 (u + step) ≤ e)%Z → wrap64 (u + step) ∈ cron_steps n v e step.
Proof.
  revert v. induction n as [|n IH]; intros v; simpl; [by intros _ ?%elem_of_nil|].
  destruct (Z.leb_spec v e); [|by intros _ ?%elem_of_nil]. intros Hl [->|Hu]%elem_of_cons Hle; [|right; by apply IH].
  right. destruct n as [|n]; simpl in *; [apply Z.ltb_lt in Hl; lia|].
  destruct (Z.leb_spec (wrap64 (v + step)) e); [left|lia].
Qed.
(** The model's loop visits what the code's does. *)
Lemma cron_values_visits s e step v :
  (0 ≤ s ≤ e)%Z → (e < 2 ^ 60)%Z → (0 < step ≤ MaxInt64)%Z → v ∈ cron_values s e step ↔ visits s e step v.
Proof.
  intros Hs He Hst. pose proof (cron_loop_ends s e step Hs He Hst) as Hl. unfold cron_values. split.
  - apply cron_steps_visits. constructor. lia.
  - induction 1 as [Hle|v Hv IH Hle]; [|by apply cron_steps_next].
    unfold cron_fuel. destruct (Z.to_nat (e + 4)) as [|n] eqn:Hn; [lia|]. simpl.
    destruct (Z.leb_spec s e); [left|lia].
Qed.
(** Steps that do not overflow: the multiples of the step within the range. *)
Lemma plain_visits s e step v :
  (0 ≤ s ≤ e)%Z → (0 < step)%Z → (e + step < 2 ^ 63)%Z →
  visits s e step v ↔ ∃ k, (0 ≤ k)%Z ∧ v = (s + k * step)%Z ∧ (v ≤ e)%Z.
Proof.
  intros Hs Hst He. split.
  - induction 1 as [Hle|v Hv (k & Hk & -> & Hke) Hle]; [exists 0%Z; lia|].
    rewrite wrap64_small in * by nia. exists (k + 1)%Z. lia.
  - intros (k & Hk & -> & Hke). revert Hke. pattern k. apply natlike_ind; [|..|exact Hk].
    + intros _. rewrite Z.add_0_r. constructor. lia.
    + clear k Hk. intros k Hk IH Hke. replace (s + Z.succ k * step)%Z with (wrap64 (s + k * step + step))
        by (rewrite wrap64_small; nia).
      constructor; [apply IH; nia|rewrite wrap64_small; nia].
Qed.

(** The value [n] is in a field: some segment's loop visits it. *)
Definition field_has (field : string) (lo hi : Z) (sundayAlias : bool) (n : Z) : Prop :=
  ∃ seg s e step v, seg ∈ Split 44 field ∧ cron_bounds lo hi seg = Ok (s, e, step) ∧
    visits s e step v ∧ n = cron_value sundayAlias v.
(** What the five fields of an expression say about a clock reading. *)
Definition cron_means (expr : string) (c : civil) : Prop :=
  ∃ f0 f1 f2 f3 f4, Fields expr = [f0; f1; f2; f3; f4] ∧
    field_has f0 0 59 false (cv_minute c) ∧ field_has f1 0 23 false (cv_hour c) ∧
    field_has f2 1 31 false (cv_day c) ∧ field_has f3 1 12 false (cv_month c) ∧
    field_has f4 0 7 true (cv_weekday c).

Lemma Atoi_max s n : Atoi s = Some n → (n ≤ MaxInt64)%Z.
Proof.
  unfold Atoi. destruct (str_empty _); [done|]. destruct (digits_value _ _) as [v|]; [|done].
  cbv zeta. destruct (_ && _) eqn:Hb; [|done]. intros [= <-]. apply andb_true_iff in Hb as [_ ?%Z.leb_le]. done.
Qed.
Lemma cron_range_bounds part lo hi s e : (lo ≤ hi)%Z → cronRange part lo hi = Ok (s, e) → (lo ≤ s ≤ e ∧ e ≤ hi)%Z.
Proof.
  intros Hlh. unfold cronRange. destruct (String.eqb part "*"); [intros [= <- <-]; lia|].
  assert (∀ b err, guard_err b err = Ok tt → b = true) as Hg by by intros [].
  destruct (str_contains _ _).
  - destruct (Split 45 part) as [|a [|b [|]]]; try done. intros Hr.
    apply bind_ok in Hr as (x & _ & Hr). apply bind_ok in Hr as (y & _ & Hr).
    apply bind_ok in Hr as ([] & Hxy%Hg & Hr). apply bind_ok in Hr as ([] & Hb%Hg & Hr). injection Hr as -> ->.
    apply andb_true_iff in Hb. lia.
  - intros Hr. apply bind_ok in Hr as (x & _ & Hr). apply bind_ok in Hr as ([] & Hb%Hg & Hr). injection Hr as -> ->.
    apply andb_true_iff in Hb. lia.
Qed.
Lemma cron_bounds_ok lo hi seg s e step :
  (lo ≤ hi)%Z → cron_bounds lo hi seg = Ok (s, e, step) → (lo ≤ s ≤ e ∧ e ≤ hi ∧ 0 < step ≤ MaxInt64)%Z.
Proof.
  intros Hlh. unfold cron_bounds. intros Hr. apply bind_ok in Hr as (_ & _ & Hr). apply bind_ok in Hr as ([p q] & Hps & Hr).
  apply bind_ok in Hr as ([s' e'] & Hrange & Hr). injection Hr as -> -> ->.
  apply cron_range_bounds in Hrange; [|done]. simpl in Hps |- *.
  assert (0 < step ≤ MaxInt64)%Z; [|lia]. destruct (str_contains _ _); [|by injection Hps as _ <-].
  destruct (Split 47 _) as [|a [|b [|]]]; try done. destruct (Atoi b) as [n|] eqn:Hn; [|done].
  destruct (Z.ltb_spec 0 n); [|done]. injection Hps as _ ->. split; [done|by eapply Atoi_max].
Qed.
(** The sets of a parsed expression are what it means. *)
Lemma field_meaning field lo hi alias set n :
  (0 ≤ lo ≤ hi)%Z → (hi < 2 ^ 60)%Z → parseCronField field lo hi alias = Ok set →
  n ∈ set ↔ field_has field lo hi alias n.
Proof.
  intros Hlo Hhi Hp. unfold parseCronField in Hp. apply bind_ok in Hp as (sets & Hsets & Hp).
  apply bind_ok in Hp as (_ & _ & [= <-]). rewrite elem_of_union_list. split.
  - intros (X & (seg & Hseg & HX)%(map_result_elem _ _ _ _ Hsets) & Hn). unfold cron_segment in HX.
    apply bind_ok in HX as ([[s e] step] & Hb & [= <-]). pose proof (cron_bounds_ok _ _ _ _ _ _ (proj2 Hlo) Hb) as Hok.
    apply elem_of_list_to_set, list_elem_of_fmap in Hn as (v & -> & Hv). apply cron_values_visits in Hv; [|simpl; lia..].
    by exists seg, s, e, step, v.
  - intros (seg & s & e & step & v & Hseg & Hb & Hv & ->). pose proof (cron_bounds_ok _ _ _ _ _ _ (proj2 Hlo) Hb) as Hok.
    exists (list_to_set (cron_value alias <$> cron_values s e step)). split.
    + apply (map_result_elem _ _ _ _ Hsets). exists seg. split; [done|]. unfold cron_segment. by rewrite Hb.
    + apply elem_of_list_to_set, list_elem_of_fmap. exists v. split; [done|]. apply cron_values_visits; [lia..|done].
Qed.
Lemma spec_meaning expr spec c : parseCronSpec expr = Ok spec → matches spec c = true ↔ cron_means expr c.
Proof.
  unfold parseCronSpec, cron_means, matches. destruct (Fields expr) as [|f0 [|f1 [|f2 [|f3 [|f4 [|]]]]]]; try done.
  intros Hp. apply bind_ok in Hp as (s0 & H0 & Hp). apply bind_ok in Hp as (s1 & H1 & Hp).
  apply bind_ok in Hp as (s2 & H2 & Hp). apply bind_ok in Hp as (s3 & H3 & Hp).
  apply bind_ok in Hp as (s4 & H4 & [= <-]). simpl. rewrite !andb_true_iff, !bool_decide_eq_true.
  rewrite (field_meaning f0 0 59 false s0), (field_meaning f1 0 23 false s1), (field_meaning f2 1 31 false s2),
    (field_meaning f3 1 12 false s3), (field_meaning f4 0 7 true s4) by done. split.
  - intros ((((? & ?) & ?) & ?) & ?). exists f0, f1, f2, f3, f4. done.
  - intros (? & ? & ? & ? & ? & [= <- <- <- <- <-] & ? & ? & ? & ? & ?). done.
Qed.

(** The search. *)
Lemma cron_search_spec fuel spec loc e c :
  match cron_search fuel spec loc e c with
  | Ok (Some t) => ∃ n, (0 ≤ n < Z.of_nat fuel)%Z ∧ t = (c + n * minute)%Z ∧
      matches spec (loc t) = true ∧ (e ≠ 0 → t ≤ e)%Z ∧
      ∀ i, (0 ≤ i < n)%Z → matches spec (loc (c + i * minute)%Z) = false
  | Ok None => e ≠ 0%Z ∧ ∃ n, (0 ≤ n < Z.of_nat fuel)%Z ∧ (e < c + n * minute)%Z ∧
      ∀ i, (0 ≤ i < n)%Z → matches spec (loc (c + i * minute)%Z) = false
  | Err _ => ∀ i, (0 ≤ i < Z.of_nat fuel)%Z → matches spec (loc (c + i * minute)%Z) = false
  end.
Proof.
  revert c. induction fuel as [|fuel IH]; intros c; simpl; [intros; lia|].
  unfold IsZero, After. destruct (negb (e =? 0)%Z && (e <? c)%Z) eqn:Hend.
  { split; [lia|]. exists 0%Z. split; [lia|]. split; [lia|]. intros; lia. }
  destruct (matches spec (loc c)) eqn:Hm.
  { exists 0%Z. split; [lia|]. split; [lia|]. split; [done|]. split; [lia|]. intros; lia. }
  assert (∀ n, (∀ i, (0 ≤ i < n)%Z → matches spec (loc (c + minute + i * minute)%Z) = false) →
    ∀ i, (0 ≤ i < n + 1)%Z → matches spec (loc (c + i * minute)%Z) = false) as Hshift.
  { intros n Hn i Hi. destruct (decide (i = 0)%Z) as [->|Hne]; [by rewrite Z.add_0_r|].
    specialize (Hn (i - 1)%Z ltac:(lia)). by replace (c + i * minute)%Z with (c + minute + (i - 1) * minute)%Z by lia. }
  specialize (IH (c + minute)%Z). destruct (cron_search fuel spec loc e (c + minute)) as [[t|]|err].
  - destruct IH as (n & Hn & -> & Ht & He & Hi). exists (n + 1)%Z. split; [lia|]. split; [lia|].
    split; [done|]. split; [lia|]. by apply Hshift.
  - destruct IH as (He & n & Hn & Hlt & Hi). split; [done|]. exists (n + 1)%Z. split; [lia|].
    split; [lia|]. by apply Hshift.
  - intros i Hi. apply (Hshift (Z.of_nat fuel)); [done|lia].
Qed.

Section fire.
Context `{TimeZones}.

(** The search, for a parsed expression. *)
Lemma cron_fire_spec tr after spec loc :
  tr_Kind tr = ScheduleTriggerCron → parseCronSpec (tr_Expression tr) = Ok spec →
  (if blank (tr_Timezone tr) then Some utc else LoadLocation (tr_Timezone tr)) = Some loc →
  let candidate u := (u mod minute = 0)%Z ∧ (after < u)%Z ∧
    match tr_StartAt tr with Some s => (Truncate s minute ≤ u)%Z | None => True end in
  match NextScheduleFire tr after with
  | Ok (Some t) => candidate t ∧ matches spec (loc t) = true ∧
      (match tr_EndAt tr with Some e => e ≠ 0%Z → (t ≤ e)%Z | None => True end) ∧
      ∀ u, candidate u → (u < t)%Z → matches spec (loc u) = false
  | Ok None => ∃ e, tr_EndAt tr = Some e ∧ ∀ u, candidate u → (u ≤ e)%Z → matches spec (loc u) = false
  | Err _ => ∀ u, candidate u → (u ≤ after + 366 * 5 * day)%Z → matches spec (loc u) = false
  end.
Proof.
  intros Hk Hp Hz candidate.
  assert (NextScheduleFire tr after = cron_search search_window spec loc (default 0%Z (tr_EndAt tr))
    (cron_cursor (tr_StartAt tr) after)) as ->.
  { unfold NextScheduleFire. rewrite Hk. simpl. rewrite Hp. simpl.
    destruct (blank _); [|rewrite Hz]; simpl; congruence. }
  pose proof (cron_search_spec search_window spec loc (default 0%Z (tr_EndAt tr))
    (cron_cursor (tr_StartAt tr) after)) as Hs.
  assert (∀ u, candidate u ↔ (u mod minute = 0)%Z ∧ (cron_cursor (tr_StartAt tr) after ≤ u)%Z) as Hcand.
  { intros u. unfold candidate. split; intros [Hu Hr]; (split; [done|]); by apply cursor_spec. }
  pose proof (cursor_mod (tr_StartAt tr) after) as Hc. pose proof minute_pos as Hmp.
  assert (∀ n, (∀ i, (0 ≤ i < n)%Z → matches spec (loc (cron_cursor (tr_StartAt tr) after + i * minute)%Z) = false) →
    ∀ u, candidate u → (u < cron_cursor (tr_StartAt tr) after + n * minute)%Z → matches spec (loc u) = false) as Hno.
  { intros n Hi u [Hu Hcu]%Hcand Hlt.
    destruct (grid_between (cron_cursor (tr_StartAt tr) after) u n) as (i & Hi' & ->); auto. }
  destruct (cron_search _ _ _ _ _) as [[t|]|err].
  - destruct Hs as (n & Hn & Ht & Hm & He & Hi). split; [|split; [done|split]].
    + apply Hcand. split; [rewrite Ht, Z.add_mod, Z.mod_mul, Hc by done; done|nia].
    + by destruct (tr_EndAt tr).
    + intros u Hu Hlt. apply (Hno n Hi u Hu). lia.
  - destruct Hs as (He & n & Hn & Hlt & Hi). destruct (tr_EndAt tr) as [e|]; [|done]. simpl in *.
    exists e. split; [done|]. intros u Hu Hle. apply (Hno n Hi u Hu). lia.
  - intros u Hu Hle. apply (Hno _ Hs u Hu). apply Hcand in Hu as [_ Hcu].
    rewrite search_window_Z. pose proof (cursor_after (tr_StartAt tr) after). unfold day, minute in *. lia.
Qed.

(** C19. Cron schedules fire at the earliest admissible minute, and every outcome
    of the search is justified.  What an expression means is [cron_means]: each of its
    five fields has a segment whose loop visits the clock's value.  A minute is a
    candidate when it is a whole minute strictly after the reference time, not before
    the minute of the start.  If a fire time is returned, it is a candidate, the
    expression means its reading in the schedule's zone, it does not pass the end, and
    the expression means no earlier candidate; no fire time is returned only if it
    means no candidate up to the end; the search fails only if it means no candidate in
    the next 366*5 days. *)
Theorem cron_fires_earliest tr after loc :
  tr_Kind tr = ScheduleTriggerCron → is_ok (parseCronSpec (tr_Expression tr)) = true →
  (if blank (tr_Timezone tr) then Some utc else LoadLocation (tr_Timezone tr)) = Some loc →
  let candidate u := (u mod minute = 0)%Z ∧ (after < u)%Z ∧
    match tr_StartAt tr with Some s => (Truncate s minute ≤ u)%Z | None => True end in
  let fires u := cron_means (tr_Expression tr) (loc u) in
  match NextScheduleFire tr after with
  | Ok (Some t) => candidate t ∧ fires t ∧
      (match tr_EndAt tr with Some e => e ≠ 0%Z → (t ≤ e)%Z | None => True end) ∧
      ∀ u, candidate u → (u < t)%Z → ¬ fires u
  | Ok None => ∃ e, tr_EndAt tr = Some e ∧ ∀ u, candidate u → (u ≤ e)%Z → ¬ fires u
  | Err _ => ∀ u, candidate u → (u ≤ after + 366 * 5 * day)%Z → ¬ fires u
  end.
Proof.
  intros Hk Hp Hz candidate fires. destruct (parseCronSpec _) as [spec|] eqn:Hspec; [|done].
  pose proof (cron_fire_spec tr after spec loc Hk Hspec Hz) as Hf.
  assert (∀ u, matches spec (loc u) = true ↔ fires u) as Hm by (intros u; by apply spec_meaning).
  assert (∀ u, matches spec (loc u) = false → ¬ fires u) as Hn by (intros u Hu Hfire%Hm; congruence).
  destruct (NextScheduleFire tr after) as [[t|]|err]; cbv zeta in Hf.
  - destruct Hf as (? & ? & ? & Hno). split; [done|]. split; [by apply Hm|]. split; [done|]. eauto.
  - destruct Hf as (e & ? & Hno). exists e. eauto.
  - eauto.
Qed.

(** Interval schedules fire one interval after the reference time, or at
    their start if that is later, never at or before the reference time and never
    after their end. *)
Theorem interval_fires_exactly tr after :
  tr_Kind tr = ScheduleTriggerInterval → (0 < tr_Interval tr)%Z →
  let t := Z.max (after + tr_Interval tr)%Z (default (after + tr_Interval tr)%Z (tr_StartAt tr)) in
  NextScheduleFire tr after =
    Ok (match tr_EndAt tr with Some e => if (t <=? e)%Z then Some t else None | None => Some t end) ∧
  (after < t)%Z.
Proof.
  intros Hk Hi t. unfold NextScheduleFire. rewrite Hk. simpl.
  destruct (Z.ltb_spec 0 (tr_Interval tr)); [|lia]. simpl. split; [|unfold t; lia].
  assert (match tr_StartAt tr with
    | Some s => if Before (after + tr_Interval tr) s then s else (after + tr_Interval tr)%Z
    | None => (after + tr_Interval tr)%Z end = t) as ->.
  { unfold t, Before. destruct (tr_StartAt tr) as [s|]; simpl; [|lia].
    destruct (Z.ltb_spec (after + tr_Interval tr) s); lia. }
  unfold after_end, After. destruct (tr_EndAt tr) as [e|]; [|done].
  destruct (Z.ltb_spec e t), (Z.leb_spec t e); done || lia.
Qed.
End fire.

(** *** Examples *)
Lemma cron_search_hit fuel spec loc e c k :
  (∀ i, (0 ≤ i < k)%Z → matches spec (loc (c + i * minute)%Z) = false) →
  (0 ≤ k < Z.of_nat fuel)%Z → (e = 0 ∨ c + k * minute ≤ e)%Z →
  matches spec (loc (c + k * minute)%Z) = true →
  cron_search fuel spec loc e c = Ok (Some (c + k * minute)%Z).
Proof.
  intros Hi Hk He Hm. pose proof (cron_search_spec fuel spec loc e c) as Hs. pose proof minute_pos.
  assert (∀ n, (0 ≤ n)%Z → (∀ i, (0 ≤ i < n)%Z → matches spec (loc (c + i * minute)%Z) = false) → (n ≤ k)%Z) as Hle.
  { intros n Hn Hni. destruct (decide (k < n)%Z) as [Hlt|]; [|lia]. by rewrite Hni in Hm by lia. }
  destruct (cron_search fuel spec loc e c) as [[t|]|err].
  - destruct Hs as (n & Hn & -> & Ht & _ & Hni). assert (n ≤ k)%Z by (apply Hle; [lia|done]).
    destruct (decide (n = k)) as [->|]; [done|]. by rewrite Hi in Ht by lia.
  - destruct Hs as (He' & n & Hn & Hlt & Hni). assert (n ≤ k)%Z by (apply Hle; [lia|done]). nia.
  - by rewrite Hs in Hm by lia.
Qed.

Definition no_zones : TimeZones := {| LoadLocation := λ _, None |}.
(** Every quarter of an hour from 12:01 and thirty seconds on 29 February 2024. *)
Definition quarterly : ScheduleTrigger :=
  mkTrigger ScheduleTriggerCron "*/15 * * * *" "" (Some (leap_day - 29 * minute + 30 * second)%Z) None 0.
Definition quarter_spec : cronSpec :=
  Eval vm_compute in match parseCronSpec "*/15 * * * *" with Ok s => s | Err _ => mkCron ∅ ∅ ∅ ∅ ∅ end.

Lemma quarter_parses : parseCronSpec (tr_Expression quarterly) = Ok quarter_spec.
Proof. vm_compute. reflexivity. Qed.

Lemma quarterly_fires :
  @NextScheduleFire no_zones quarterly leap_day = Ok (Some (leap_day + 15 * minute)%Z).
Proof.
  unfold NextScheduleFire. rewrite quarter_parses.
  change (cron_search search_window quarter_spec utc 0 (leap_day + minute) = Ok (Some (leap_day + 15 * minute)%Z)).
  change (leap_day + 15 * minute)%Z with (leap_day + minute + 14 * minute)%Z.
  apply cron_search_hit; [|rewrite search_window_Z; lia|by left|by vm_compute].
  intros i Hi. assert (i ∈ (Z.of_nat <$> seq 0 14)) as Hin.
  { apply list_elem_of_fmap. exists (Z.to_nat i). rewrite elem_of_seq. lia. }
  clear Hi. revert i Hin. apply Forall_forall. repeat (constructor; [by vm_compute|]). constructor.
Qed.

Lemma cron_fires_earliest_witness :
  cron_means (tr_Expression quarterly) (utc (leap_day + 15 * minute)%Z) ∧
  ¬ cron_means (tr_Expression quarterly) (utc (leap_day + 7 * minute)%Z).
Proof.
  pose proof (@cron_fires_earliest no_zones quarterly leap_day utc
    ltac:(reflexivity) ltac:(by rewrite quarter_parses) ltac:(reflexivity)) as H.
  cbv zeta in H. rewrite quarterly_fires in H. destruct H as (_ & Hm & _ & Hno).
  split; [exact Hm|]. apply Hno; [|unfold minute, second; lia]. repeat split; vm_compute; congruence.
Defined.
(** A step just below the largest integer wraps around: the expression, which reads as
    "minute 30", also fires at every even minute below. *)
Lemma huge_step_wraps :
  (let? spec := parseCronSpec "30-59/9223372036854775807 * * * *" in
   Ok (bool_decide (28 ∈ cron_minutes spec)%Z && bool_decide (0 ∈ cron_minutes spec)%Z)) = Ok true.
Proof. vm_compute. reflexivity. Qed.

Lemma interval_fires_exactly_witness :
  @NextScheduleFire no_zones (mkTrigger ScheduleTriggerInterval "" "" (Some 100%Z) (Some 90%Z) 10) 5 = Ok None.
Proof.
  apply (@interval_fires_exactly no_zones
    (mkTrigger ScheduleTriggerInterval "" "" (Some 100%Z) (Some 90%Z) 10) 5); [reflexivity|simpl; lia].
Defined.

(** A schedule whose start is not a whole minute can fire up to a minute before it
    starts: the search begins at the start rounded down. *)
Definition late_start : ScheduleTrigger :=
  mkTrigger ScheduleTriggerCron "30 12 29 2 4" "" (Some (leap_day + 30 * second)%Z) None 0.
Theorem cron_fires_before_start :
  ∃ t, @NextScheduleFire no_zones late_start (leap_day - hour)%Z = Ok (Some t) ∧
       (t < leap_day + 30 * second)%Z.
Proof.
  exists (leap_day + 0 * minute)%Z. split; [|unfold second, minute; lia].
  unfold NextScheduleFire. destruct (parseCronSpec (tr_Expression late_start)) as [spec|] eqn:E; [|by vm_compute in E].
  change (cron_search search_window spec utc 0 leap_day = Ok (Some (leap_day + 0 * minute)%Z)).
  apply cron_search_hit; [lia|rewrite search_window_Z; lia|by left|].
  vm_compute in E. injection E as <-. by vm_compute.
Qed.

(** ** Failure history *)
Lemma length_str_drop n s : String.length (str_drop n s) = (String.length s - n)%nat.
Proof. revert n. induction s as [|a s IH]; intros [|n]; simpl; auto. Qed.

Lemma bits_ok_cons a s : bits_ok (String a s) = bit_char a && bits_ok s.
Proof. unfold bits_ok. simpl. destruct (bit_char a); simpl; done. Qed.

Lemma bits_ok_app s t : bits_ok (s +:+ t) = bits_ok s && bits_ok t.
Proof.
  induction s as [|a s IH]; [done|]. change (String a s +:+ t) with (String a (s +:+ t)).
  rewrite !bits_ok_cons, IH. by rewrite andb_assoc.
Qed.

Lemma leading_zeros_le l : (0 ≤ leading_zeros l ≤ Z.of_nat (length l))%Z.
Proof. induction l as [|a l IH]; simpl; [lia|]. destruct (in_range 48 48 a); lia. Qed.

Lemma length_list_ascii s : length (String.list_ascii_of_string s) = String.length s.
Proof. induction s; simpl; auto. Qed.

Lemma trailing_failures_le s : (trailing_failures s ≤ Z.of_nat (String.length s))%Z.
Proof.
  unfold trailing_failures. etrans; [apply leading_zeros_le|].
  by rewrite length_reverse, length_list_ascii.
Qed.

Definition ascii_one : Ascii.ascii := Ascii.ascii_of_nat 49.
Definition ascii_zero : Ascii.ascii := Ascii.ascii_of_nat 48.

(** The outcomes a history string stands for, oldest first. *)
Fixpoint render (l : list bool) : string :=
  match l with
  | b :: l => String (if b : bool then ascii_one else ascii_zero) (render l)
  | [] => ""
  end.
Definition lastn {A} (n : nat) (l : list A) : list A := drop (length l - n) l.
Fixpoint run_of_failures (l : list bool) : Z :=
  match l with
  | false :: l => (1 + run_of_failures l)%Z
  | _ => 0%Z
  end.
Fixpoint count_ok (l : list bool) : Z :=
  match l with b :: l => ((if b : bool then 1 else 0) + count_ok l)%Z | [] => 0%Z end.

Lemma render_snoc l b : render (l ++ [b]) = render l +:+ (if b : bool then "1" else "0").
Proof. induction l as [|c l IH]; simpl; [by destruct b|]. by rewrite IH. Qed.

Lemma length_render l : String.length (render l) = length l.
Proof. induction l; simpl; auto. Qed.

Lemma bits_ok_render l : bits_ok (render l) = true.
Proof. induction l as [|[] l IH]; [done|..]; simpl render; by rewrite bits_ok_cons, IH. Qed.

Lemma str_drop_render n l : str_drop n (render l) = render (drop n l).
Proof. revert n. induction l as [|b l IH]; intros [|n]; simpl; auto. Qed.

Lemma render_failures l : trailing_failures (render l) = run_of_failures (reverse l).
Proof.
  unfold trailing_failures. assert (∀ l', leading_zeros
    ((λ b : bool, if b then ascii_one else ascii_zero) <$> l') = run_of_failures l') as H.
  { induction l' as [|[] l' IH]; [done|done|]. cbn [run_of_failures]. by rewrite <- IH. }
  rewrite <- H, fmap_reverse. do 2 f_equal. induction l as [|b l IH]; simpl; [done|].
  by rewrite IH.
Qed.

Lemma render_counts l :
  count_char 49 (render l) = count_ok l ∧
  (count_char 49 (render l) + count_char 48 (render l) = Z.of_nat (length l))%Z.
Proof.
  assert (in_range 49 49 ascii_one = true ∧ in_range 48 48 ascii_one = false ∧
    in_range 49 49 ascii_zero = false ∧ in_range 48 48 ascii_zero = true) as (E1 & E2 & E3 & E4) by done.
  induction l as [|b l [IH1 IH2]]; [done|]. cbn [render count_char count_ok length].
  destruct b; rewrite ?E1, ?E2, ?E3, ?E4; lia.
Qed.

Lemma lastn_snoc {A} n (l : list A) x : lastn (S n) (lastn (S n) l ++ [x]) = lastn (S n) (l ++ [x]).
Proof.
  unfold lastn. rewrite !length_app, !length_drop. simpl.
  rewrite !drop_app_le by (rewrite ?length_drop; lia). rewrite drop_drop. do 2 f_equal. lia.
Qed.

Lemma append_render l b w :
  (0 < w)%Z → AppendScheduleFailureBit (render l) b w = render (lastn (Z.to_nat w) (l ++ [b])).
Proof.
  intros Hw. unfold AppendScheduleFailureBit. rewrite bits_ok_render, <- render_snoc, length_render.
  unfold lastn. destruct (Z.ltb_spec 0 w); [|lia]. simpl.
  destruct (Z.ltb_spec w (Z.of_nat (length (l ++ [b])))); [apply str_drop_render|].
  by replace (length (l ++ [b]) - Z.to_nat w)%nat with 0%nat by lia.
Qed.

Definition record_outcomes (w : Z) (l : list bool) : string :=
  foldl (λ bits b, AppendScheduleFailureBit bits b w) "" l.

Lemma record_outcomes_render w l :
  (0 < w)%Z → record_outcomes w l = render (lastn (Z.to_nat w) l).
Proof.
  intros Hw. induction l as [|b l IH] using rev_ind; [done|].
  unfold record_outcomes in *. rewrite foldl_snoc, IH, append_render by done. f_equal.
  destruct (Z.to_nat w) eqn:E; [lia|apply lastn_snoc].
Qed.

(** C20. The failure history is a sliding window: recording a sequence of
    occurrence outcomes keeps the last [w], and the policy trips exactly when the
    most recent run of failures in the window reaches the sequential limit or the
    share of successes in the window falls below the required percentage. *)
Theorem failure_policy_window w l p :
  (0 < w)%Z →
  record_outcomes w l = render (lastn (Z.to_nat w) l) ∧
  ScheduleFailurePolicyViolated (record_outcomes w l) p =
    let win := lastn (Z.to_nat w) l in
    bool_decide (l ≠ []) &&
    ((bool_decide (0 < fp_MaxSequentialFailures p ≤ run_of_failures (reverse win))%Z)
     || bool_decide (0 < fp_MinSuccessPercent p ∧
                     count_ok win * 100 < fp_MinSuccessPercent p * Z.of_nat (length win))%Z).
Proof.
  intros Hw. split; [by apply record_outcomes_render|]. rewrite record_outcomes_render by done.
  unfold ScheduleFailurePolicyViolated. rewrite render_failures.
  destruct (render_counts (lastn (Z.to_nat w) l)) as [-> Htot].
  assert (str_empty (render (lastn (Z.to_nat w) l)) = bool_decide (l = [])) as ->.
  { unfold lastn. destruct l as [|b l]; [done|]. rewrite bool_decide_eq_false_2 by done.
    destruct (drop _ _) eqn:E; [|done]. apply (f_equal length) in E. rewrite length_drop in E.
    simpl in E. lia. }
  rewrite bool_decide_not. destruct (bool_decide_reflect (l = [])) as [->|Hne]; [done|]. cbn [negb].
  set (win := lastn (Z.to_nat w) l) in *.
  assert (0 < length win)%nat as Hpos.
  { unfold win, lastn. rewrite length_drop. destruct l; [done|simpl; lia]. }
  rewrite andb_true_l. f_equal.
  - destruct (Z.ltb_spec 0 (fp_MaxSequentialFailures p)), (Z.leb_spec (fp_MaxSequentialFailures p) (run_of_failures (reverse win)));
      simpl; symmetry; (rewrite bool_decide_eq_true || rewrite bool_decide_eq_false); lia.
  - assert (count_char 48 (render win) = Z.of_nat (length win) - count_ok win)%Z as ->
      by (destruct (render_counts win); lia).
    replace (count_ok win + (Z.of_nat (length win) - count_ok win))%Z with (Z.of_nat (length win)) by lia.
    destruct (Z.ltb_spec 0 (fp_MinSuccessPercent p)), (Z.ltb_spec 0 (Z.of_nat (length win))); [|lia| |lia]; simpl.
    + destruct (Z.ltb_spec (count_ok win * 100) (fp_MinSuccessPercent p * Z.of_nat (length win))); simpl; symmetry;
        (rewrite bool_decide_eq_true || rewrite bool_decide_eq_false); lia.
    + symmetry. rewrite bool_decide_eq_false. lia.
Qed.

Lemma failure_policy_window_witness :
  ScheduleFailurePolicyViolated (record_outcomes 3 [false; true; false; false]) (mkFailurePolicy 0 3 2) = true.
Proof.
  rewrite (proj2 (failure_policy_window 3 [false; true; false; false] (mkFailurePolicy 0 3 2) ltac:(lia))).
  reflexivity.
Defined.

(** A window smaller than the sequential limit makes the limit unreachable: such
    a policy never trips on a run of failures, whatever the outcomes. *)
Theorem short_window_hides_failures w l n :
  (0 < w < n)%Z → ScheduleFailurePolicyViolated (record_outcomes w l) (mkFailurePolicy 0 w n) = false.
Proof.
  intros Hw. rewrite record_outcomes_render by lia. unfold ScheduleFailurePolicyViolated. simpl.
  destruct (str_empty _); [done|]. rewrite orb_false_r. apply andb_false_intro2, Z.leb_gt.
  eapply Z.le_lt_trans; [apply trailing_failures_le|]. rewrite length_render. unfold lastn.
  rewrite length_drop. lia.
Qed.
