(* ===== verification/ToyState.v ===== *)
(** * ToyState: the state of the in-memory runtime

    [toyimpl/toy.go]: the engine's tables, the job record, and the projections of
    a record that need no other table.  A Go map entry holding a pointer is an
    entry of a finite map: records are never shared between keys and a record is
    only reached through the engine's table. *)

From S2P Require Import Prelude Types GoalStore Json ClientPayload Cells CellState Metadata Chapters Schedule ScheduleRuns.

(** ** Scheduler payload of a job ([workerJobPayload], [workerTaskWait]) *)
Record workerTaskWait := mkTaskWaitState {
  wt_InputStep : Z; wt_OutputStep : Z; wt_Next : string; wt_InputHash : string
}.
#[export] Instance workerTaskWait_eq_dec : EqDecision workerTaskWait.
Proof. solve_decision. Defined.
Record workerJobPayload := mkPayload { wp_RunPolicy : json; wp_TaskWait : option workerTaskWait }.

(** [bytes.Equal] of two encoded payloads. *)
Definition payload_eqb (a b : workerJobPayload) : bool :=
  json_eqb (wp_RunPolicy a) (wp_RunPolicy b) && bool_decide (wp_TaskWait a = wp_TaskWait b).

(** ** Job record ([jobRecord]) *)
Record jobRecord := mkRecord {
  jr_cell : ResolvedCell;
  jr_key : JobKey;
  jr_goalID : string;
  jr_dependencyWaitID : string;
  jr_hidden : bool;
  jr_clientPayload : option string;
  jr_clientPayloadRevision : Z;
  jr_initialPayloadDigest : string;
  jr_leaseExpiresAt : time;
  jr_leaseWorkerID : string;
  jr_status : JobStatus;
  jr_result : option TaskData;
  jr_err : option JobErr;
  jr_cancelled : bool;
  jr_finished : time;
  jr_jobType : string;
  jr_createdAt : time;
  jr_archived : option time;
  jr_payload : workerJobPayload;
  jr_metadata : json;
  jr_completionDetail : string;
  jr_completionStatus : string;
  jr_route : Route;
  jr_alternateRoute : option Route;
  jr_alternateAt : time;
  jr_step : Z;
  jr_waitFor : list string;
  jr_availableAt : time;
  jr_waitDeadline : time;
  jr_leased : bool;
  jr_leaseID : string;
  jr_chapters : gmap Z toyChapter;
  jr_consecutiveExpirations : Z
}.
#[export] Instance eta_jobRecord : Eta jobRecord := λ r,
  mkRecord (jr_cell r) (jr_key r) (jr_goalID r) (jr_dependencyWaitID r) (jr_hidden r)
    (jr_clientPayload r) (jr_clientPayloadRevision r) (jr_initialPayloadDigest r)
    (jr_leaseExpiresAt r) (jr_leaseWorkerID r) (jr_status r) (jr_result r) (jr_err r)
    (jr_cancelled r) (jr_finished r) (jr_jobType r) (jr_createdAt r) (jr_archived r)
    (jr_payload r) (jr_metadata r) (jr_completionDetail r) (jr_completionStatus r)
    (jr_route r) (jr_alternateRoute r) (jr_alternateAt r) (jr_step r) (jr_waitFor r)
    (jr_availableAt r) (jr_waitDeadline r) (jr_leased r) (jr_leaseID r) (jr_chapters r)
    (jr_consecutiveExpirations r).

(** [crashconcern.DefaultThreshold] *)
Definition DefaultThreshold : Z := 5.

Definition archived (r : jobRecord) : bool := bool_decide (is_Some (jr_archived r)).
(** [record.archived == nil && !record.cancelled] *)
Definition open (r : jobRecord) : bool := negb (archived r) && negb (jr_cancelled r).
(** The lease clock: leased, and not yet expired. *)
Definition lease_running (now : time) (r : jobRecord) : bool := jr_leased r && After (jr_leaseExpiresAt r) now.

(** [jobRecord.currentStatus] *)
Definition currentStatus (now : time) (r : jobRecord) : JobStatus :=
  if jr_leased r && negb (After (jr_leaseExpiresAt r) now) && open r then
    if (DefaultThreshold <=? jr_consecutiveExpirations r)%Z then JobStatusCrashConcern else JobStatusReady
  else jr_status r.

(** [effectiveRoute] *)
Definition alternate_due (now : time) (r : jobRecord) : bool := negb (Before now (jr_alternateAt r)).
Definition effectiveRoute (now : time) (r : jobRecord) : Route :=
  match jr_alternateRoute r with
  | Some a => if alternate_due now r then a else jr_route r
  | None => jr_route r
  end.

(** The check every lease-holder operation makes under the record lock. *)
Definition holds_lease (now : time) (leaseID workerID : string) (r : jobRecord) : bool :=
  negb (str_empty leaseID) && String.eqb (jr_leaseID r) leaseID && String.eqb (jr_leaseWorkerID r) workerID
  && lease_running now r && open r.

(** ** Job preparation ([goalstate.Preparation], [preparedGoalJob])

    The descriptor is canonical JSON text; it is compared and taken apart, so the
    model keeps the JSON value. *)
Record Preparation := mkPreparation {
  pp_Cell : string; pp_CellRepo : string; pp_Target : ResolvedCell; pp_ParentJobID : string;
  pp_Key : JobKey; pp_RequestID : string; pp_PriorJobID : string; pp_ShareGoal : bool;
  pp_Descriptor : json; pp_Dependencies : list Dependency
}.
#[export] Instance eta_Preparation : Eta Preparation := λ p,
  mkPreparation (pp_Cell p) (pp_CellRepo p) (pp_Target p) (pp_ParentJobID p) (pp_Key p) (pp_RequestID p)
    (pp_PriorJobID p) (pp_ShareGoal p) (pp_Descriptor p) (pp_Dependencies p).
Record Prepared := mkPrepared {
  pd_Target : ResolvedCell; pd_Key : JobKey; pd_GoalID : string; pd_Published : bool
}.
Record preparedGoalJob := mkPreparedGoal { pg_Request : Preparation; pg_GoalID : string }.

(** ** The engine ([ToyEngine]) *)

(** [runtimeArtifactKey] *)
Record runtimeArtifactKey := mkArtifactKey { ak_jobKey : JobKey; ak_ordinal : Z; ak_name : string }.
#[export] Instance runtimeArtifactKey_eq_dec : EqDecision runtimeArtifactKey.
Proof. solve_decision. Defined.
#[export] Instance runtimeArtifactKey_countable : Countable runtimeArtifactKey.
Proof.
  refine (inj_countable' (λ k, (ak_jobKey k, ak_ordinal k, ak_name k)) (λ p, mkArtifactKey p.1.1 p.1.2 p.2) _).
  by intros [].
Defined.

(** The goal tables of [goalstate.Memory] are three fields; the job facts its
    closures read are derived from the records ([goal_view]).  Tables created on
    first use are empty tables; [e_cursorKeys] supplies the cursor key a tenant's
    registry gets when it is created. *)
Record ToyEngine := mkEngine {
  e_cells : gmap string State;
  e_cursorKeys : string → string;
  e_GoalRows : gmap GoalKey GoalInfo;
  e_Extras : gmap CandidateKey time;
  e_WaitRows : gmap DependencyWaitKey DependencyWaitInfo;
  e_preparedGoals : gmap JobKey preparedGoalJob;
  e_goalRequests : gmap GoalKey JobKey;
  e_jobRecords : gmap JobKey jobRecord;
  e_schedules : gmap ScheduleKey ScheduleInfo;
  e_runtimeChapters : gmap JobKey (gmap Z Chapter);
  e_runtimeArtifacts : gmap runtimeArtifactKey string
}.
#[export] Instance eta_ToyEngine : Eta ToyEngine := λ e,
  mkEngine (e_cells e) (e_cursorKeys e) (e_GoalRows e) (e_Extras e) (e_WaitRows e) (e_preparedGoals e)
    (e_goalRequests e) (e_jobRecords e) (e_schedules e) (e_runtimeChapters e) (e_runtimeArtifacts e).

(** [NewToyEngine] *)
Definition NewToyEngine (keys : string → string) : ToyEngine := mkEngine ∅ keys ∅ ∅ ∅ ∅ ∅ ∅ ∅ ∅ ∅.

(** [cellsLocked] *)
Definition cellsLocked (tenant : string) (e : ToyEngine) : State :=
  default (New (e_cursorKeys e tenant)) (e_cells e !! tenant).

Definition put_record (k : JobKey) (r : jobRecord) (e : ToyEngine) : ToyEngine :=
  e <| e_jobRecords := <[k := r]> (e_jobRecords e) |>.
Definition chapters_of (k : JobKey) (e : ToyEngine) : gmap Z Chapter := default ∅ (e_runtimeChapters e !! k).
Definition put_chapter (k : JobKey) (ordinal : Z) (ch : Chapter) (e : ToyEngine) : ToyEngine :=
  e <| e_runtimeChapters := <[k := <[ordinal := ch]> (chapters_of k e)]> (e_runtimeChapters e) |>.

(** [goalJob]: what goals and waits depend on. *)
Definition goalJob (k : JobKey) (r : jobRecord) : Job :=
  mkJob k (jr_goalID r) (archived r || jr_cancelled r)
    (archived r && (String.eqb (jr_completionStatus r) "success" || String.eqb (jr_completionStatus r) "succeeded"))
    (jr_createdAt r).

(** The goal store over the engine's tables ([initGoalsLocked]). *)
Definition goal_view (e : ToyEngine) : Memory :=
  mkMemory (e_GoalRows e) (e_Extras e) (e_WaitRows e) (map_imap (λ k r, Some (goalJob k r)) (e_jobRecords e)).
Definition put_goals (m : Memory) (e : ToyEngine) : ToyEngine :=
  e <| e_GoalRows := m_GoalRows m |> <| e_Extras := m_Extras m |> <| e_WaitRows := m_WaitRows m |>.

(** An engine operation on [e.goals] itself; what it wrote stays on an error. *)
Definition run_goals {A} (m : M Memory A) : M ToyEngine A := λ e,
  let p := m (goal_view e) in (put_goals p.1 e, p.2).
(** The same on a clone that replaces [e.goals] only on success. *)
Definition run_goals_clone {A} (m : M Memory A) : M ToyEngine A := λ e,
  let p := m (goal_view e) in (if is_ok p.2 then put_goals p.1 e else e, p.2).
