(* ===== verification/ToyLease.v ===== *)
(** * ToyLease: scheduling status, acquiring, renewing and revoking leases

    [toyimpl/runtime.go], [lease_transport.go], [crash_concern.go] and
    [delete_jobs.go].  One definition per critical section: a function of the
    engine the section finds, with the clock reading [now] it makes and the
    identifiers it generates as arguments. *)

From S2P Require Import Prelude Types GoalStore GoalEngine Json ClientPayload Cells CellState Metadata Chapters Schedule ScheduleRuns.
From S2P Require Import ToyState.

Definition defaultToyRemoteLeaseDuration : Z := 30 * second.
(** [toyLeaseDurationOrDefault] *)
Definition toyLeaseDurationOrDefault (d : Z) : Z :=
  if (d <=? 0)%Z then defaultToyRemoteLeaseDuration else d.

(** ** Scheduling status *)

(** [dependencyReadyLocked] *)
Definition dependencyReadyLocked (e : ToyEngine) (now : time) (r : jobRecord) : result bool :=
  if str_empty (jr_dependencyWaitID r) then Ok true
  else
    let? w := mem_Wait (goal_view e) (mkWaitKey (jr_key r) (jr_dependencyWaitID r)) in
    Ok (negb (bool_decide (wi_State w = DependencyPending)) || deadline_passed now w).

Definition final_status (s : JobStatus) : bool :=
  bool_decide (s = JobStatusCompleted) || bool_decide (s = JobStatusCancelled).

(** The loop over [waitFor]: the records whose locks it takes, in order, and
    whether every listed job that exists has finished. *)
Fixpoint wait_loop (e : ToyEngine) (tenant : string) (ids : list string) : list JobKey * bool :=
  match ids with
  | [] => ([], true)
  | id :: ids =>
      match e_jobRecords e !! mkJobKey tenant id with
      | None => wait_loop e tenant ids
      | Some dep =>
          if final_status (jr_status dep)
          then let p := wait_loop e tenant ids in (mkJobKey tenant id :: p.1, p.2)
          else ([mkJobKey tenant id], false)
      end
  end.

(** The part of [availableStatusLocked] after the dependency wait. *)
Definition timed_status (e : ToyEngine) (tenant : string) (now : time) (r : jobRecord) (status : JobStatus)
    : JobStatus :=
  let status :=
    if bool_decide (status = JobStatusAwaitingFuture) && negb (IsZero (jr_availableAt r))
       && negb (After (jr_availableAt r) now)
    then JobStatusReady else status in
  if bool_decide (status = JobStatusPendingJobs) && negb (bool_decide (jr_waitFor r = [])) then
    if (wait_loop e tenant (jr_waitFor r)).2
       || (negb (IsZero (jr_waitDeadline r)) && negb (After (jr_waitDeadline r) now))
    then if negb (IsZero (jr_availableAt r)) && After (jr_availableAt r) now
         then JobStatusAwaitingFuture else JobStatusReady
    else status
  else status.

(** [availableStatusLocked] *)
Definition availableStatusLocked (e : ToyEngine) (tenant : string) (now : time) (r : jobRecord) : JobStatus :=
  let status := currentStatus now r in
  if open r && negb (lease_running now r) then
    match dependencyReadyLocked e now r with
    | Ok true =>
        timed_status e tenant now r
          (if negb (str_empty (jr_dependencyWaitID r)) && bool_decide (status = JobStatusPendingJobs)
           then JobStatusReady else status)
    | _ => JobStatusPendingJobs
    end
  else timed_status e tenant now r status.

(** [advanceRecordStateLocked] *)
Definition advanceRecordStateLocked (e : ToyEngine) (tenant : string) (now : time) (r : jobRecord) : jobRecord :=
  let status := availableStatusLocked e tenant now r in
  let r := if jr_leased r && negb (After (jr_leaseExpiresAt r) now) && open r
           then r <| jr_leased := false |> else r in
  let r := if bool_decide (jr_status r = JobStatusPendingJobs) && negb (bool_decide (status = JobStatusPendingJobs))
           then r <| jr_waitDeadline := 0%Z |> <| jr_waitFor := [] |> else r in
  r <| jr_status := status |>.

(** ** Acquisition *)

(** The handle a worker gets ([runtimeLease]). *)
Record runtimeLease := mkLease {
  l_jobKey : JobKey; l_leaseID : string; l_route : Route; l_payload : workerJobPayload;
  l_clientPayload : option string; l_clientPayloadRevision : Z; l_workerID : string;
  l_expiresAt : time; l_duration : Z; l_schemaHash : string
}.
#[export] Instance eta_runtimeLease : Eta runtimeLease := λ l,
  mkLease (l_jobKey l) (l_leaseID l) (l_route l) (l_payload l) (l_clientPayload l) (l_clientPayloadRevision l)
    (l_workerID l) (l_expiresAt l) (l_duration l) (l_schemaHash l).

(** Committing the alternate route. *)
Definition commit_route (now : time) (r : jobRecord) : jobRecord :=
  match jr_alternateRoute r with
  | Some a => if alternate_due now r then r <| jr_route := a |> <| jr_alternateRoute := None |> else r
  | None => r
  end.

(** The record after a worker takes the lease under the new ID [id]. *)
Definition take_lease (now : time) (id worker : string) (duration : Z) (r : jobRecord) : jobRecord :=
  let r := commit_route now r in
  r <| jr_leased := true |> <| jr_status := JobStatusActive |>
    <| jr_consecutiveExpirations :=
         (if str_empty (jr_leaseID r) then 0 else jr_consecutiveExpirations r + 1)%Z |>
    <| jr_leaseID := id |> <| jr_leaseWorkerID := worker |>
    <| jr_leaseExpiresAt := (now + toyLeaseDurationOrDefault duration)%Z |>.
Definition lease_handle (now : time) (key : JobKey) (duration : Z) (r : jobRecord) : runtimeLease :=
  mkLease key (jr_leaseID r) (jr_route r) (jr_payload r) (jr_clientPayload r) (jr_clientPayloadRevision r)
    (jr_leaseWorkerID r) (now + toyLeaseDurationOrDefault duration)%Z (toyLeaseDurationOrDefault duration)
    (SchemaHashFromStoredMetadata (jr_metadata r)).

(** The check both acquisition paths make on an advanced record. *)
Definition acquirable (now : time) (routes : list Route) (r : jobRecord) : bool :=
  negb (jr_leased r || negb (bool_decide (jr_status r = JobStatusReady)))
  && bool_decide (effectiveRoute now r ∈ filter (λ rt, str_empty (r_JobType rt) = false) routes).

Record PollWorkRequest := mkPoll {
  pw_CellNames : option (list string); pw_TenantId : string; pw_WorkerID : string; pw_Routes : list Route;
  pw_Limit : Z; pw_LeaseDuration : Z; pw_MetadataEquals : list MetadataPredicate
}.
Record GetJobLeaseRequest := mkGetLease {
  gl_JobKey : JobKey; gl_WorkerID : string; gl_Routes : list Route; gl_LeaseDuration : Z
}.

Definition validate_routes (routes : list Route) : result () :=
  let? _ := map_result Route_Validate routes in Ok tt.

Section acquire.
Context `{CellText} `{RangeOrder} `{FloatText}.

(** [PollWork]'s loop over the records: [new_id n] is the [n]th lease ID it
    generates. *)
Fixpoint poll_loop (req : PollWorkRequest) (allowed : gset string)
    (predicates : list normalizedMetadataPredicate) (limit : nat) (now : time) (new_id : nat → string)
    (keys : list JobKey) (e : ToyEngine) (out : list runtimeLease) : ToyEngine * list runtimeLease :=
  match keys with
  | [] => (e, out)
  | key :: keys =>
      match e_jobRecords e !! key with
      | None => poll_loop req allowed predicates limit now new_id keys e out
      | Some r =>
          if negb (String.eqb (jk_TenantId key) (pw_TenantId req))
             || negb (bool_decide (rs_CellID (jr_cell r) ∈ allowed))
          then poll_loop req allowed predicates limit now new_id keys e out
          else
            let r := advanceRecordStateLocked e (jk_TenantId key) now r in
            if negb (acquirable now (pw_Routes req) r)
               || negb (metadataMatches float_text (jr_metadata r) predicates)
            then poll_loop req allowed predicates limit now new_id keys (put_record key r e) out
            else
              let r := take_lease now (new_id (length out)) (pw_WorkerID req) (pw_LeaseDuration req) r in
              let e := put_record key r e in
              let out := out ++ [lease_handle now key (pw_LeaseDuration req) r] in
              if (limit <=? length out)%nat then (e, out)
              else poll_loop req allowed predicates limit now new_id keys e out
      end
  end.

(** The acquisition section of [PollWork], up to the schedule preflight. *)
Definition acquire_ready (ctx : Context) (req : PollWorkRequest) (now : time) (new_id : nat → string)
    : M ToyEngine (list runtimeLease) := λ e,
  match
    let? _ := validate_routes (pw_Routes req) in
    let? _ := guard_err (0 <=? pw_LeaseDuration req)%Z (ErrMsg "lease duration must be >= 0") in
    let? _ := guard_err (negb (str_empty (pw_TenantId req))) (ErrMsg "tenant_id is required for PollWork") in
    let? predicates := normalizeMetadataPredicates (pw_MetadataEquals req) in
    let? allowed := Select ctx (pw_TenantId req) (pw_CellNames req) "jobs.acquire" (cellsLocked (pw_TenantId req) e) in
    Ok (predicates, allowed)
  with
  | Err err => (e, Err err)
  | Ok (predicates, allowed) =>
      let limit := if (pw_Limit req <=? 0)%Z then 1 else Z.to_nat (pw_Limit req) in
      let p := poll_loop req allowed predicates limit now new_id (range (e_jobRecords e)).*1 e [] in
      (p.1, Ok p.2)
  end.

(** The acquisition section of [GetJobLease], up to the schedule preflight. *)
Definition acquire_job (ctx : Context) (req : GetJobLeaseRequest) (now : time) (id : string)
    : M ToyEngine (option runtimeLease) := λ e,
  match
    let? _ := validate_routes (gl_Routes req) in
    let? _ := guard_err (0 <=? gl_LeaseDuration req)%Z (ErrMsg "lease duration must be >= 0") in
    guard_err (negb (bool_decide (filter (λ rt, str_empty (r_JobType rt) = false) (gl_Routes req) = [])))
      (ErrMsg "at least one route is required")
  with
  | Err err => (e, Err err)
  | Ok _ =>
      let key := gl_JobKey req in
      match e_jobRecords e !! key with
      | None => (e, Ok None)
      | Some r =>
          match
            let? _ := AuthorizeCell ctx (jk_TenantId key) (rs_CellID (jr_cell r)) "jobs.acquire" in
            guard_err (match cs_Cells (cellsLocked (jk_TenantId key) e) !! rs_CellID (jr_cell r) with
                       | Some c => bool_decide (c_State c = CellActive)
                       | None => false
                       end) (ErrCell ErrCellRetired)
          with
          | Err err => (e, Err err)
          | Ok _ =>
              let r := advanceRecordStateLocked e (jk_TenantId key) now r in
              if negb (acquirable now (gl_Routes req) r) then (put_record key r e, Ok None)
              else
                let r := take_lease now id (gl_WorkerID req) (gl_LeaseDuration req) r in
                (put_record key r e, Ok (Some (lease_handle now key (gl_LeaseDuration req) r)))
          end
      end
  end.
End acquire.

(** ** Holding a lease *)

(** [runtimeLease.checkExpiry] *)
Definition checkExpiry (now : time) (l : runtimeLease) : result () :=
  guard_err (After (l_expiresAt l) now) ErrExecutionLeaseLost.

(** [KeepAliveLeaseByIDWithExpiry] *)
Definition KeepAliveLeaseByID (key : JobKey) (leaseID workerID : string) (leaseDuration : Z) (now : time)
    : M ToyEngine time := λ e,
  match e_jobRecords e !! key with
  | None => (e, Err ErrJobNotFound)
  | Some r =>
      if negb (holds_lease now leaseID workerID r) then (e, Err ErrExecutionLeaseLost)
      else
        let expiry := (now + toyLeaseDurationOrDefault leaseDuration)%Z in
        (put_record key (r <| jr_leaseExpiresAt := expiry |>) e, Ok expiry)
  end.

(** [RenewExecutionLeaseByID] *)
Definition RenewExecutionLeaseByID (key : JobKey) (leaseID workerID : string) (duration : Z) (now : time)
    : M ToyEngine runtimeLease := λ e,
  match e_jobRecords e !! key with
  | None => (e, Err ErrExecutionLeaseLost)
  | Some r =>
      if str_empty workerID || negb (holds_lease now leaseID workerID r) then (e, Err ErrExecutionLeaseLost)
      else
        let r := r <| jr_leaseExpiresAt := (now + toyLeaseDurationOrDefault duration)%Z |> in
        (put_record key r e, Ok (lease_handle now key duration r))
  end.

(** [ValidateExecutionLeaseByID] *)
Record LeaseValidity := mkValidity {
  lv_Cell : ResolvedCell; lv_GoalID : string; lv_ExpiresAt : time; lv_Route : Route
}.
Definition ValidateExecutionLeaseByID (key : JobKey) (leaseID workerID : string) (now : time) (e : ToyEngine)
    : result LeaseValidity :=
  match e_jobRecords e !! key with
  | None => Err ErrExecutionLeaseLost
  | Some r =>
      if str_empty workerID || negb (holds_lease now leaseID workerID r) then Err ErrExecutionLeaseLost
      else Ok (mkValidity (jr_cell r) (jr_goalID r) (jr_leaseExpiresAt r) (jr_route r))
  end.

(** ** Revoking *)
Section revoke.
Context `{RangeOrder} `{FloatText}.

(** [CancelJob] *)
Definition cancelled_record (now : time) (reason : string) (r : jobRecord) : jobRecord :=
  r <| jr_cancelled := true |> <| jr_completionStatus := "cancelled" |> <| jr_completionDetail := reason |>
    <| jr_status := JobStatusCancelled |> <| jr_err := Some JobErrCanceled |> <| jr_archived := Some now |>
    <| jr_leased := false |> <| jr_leaseID := "" |>.
Definition CancelJob (key : JobKey) (reason : string) (now : time) : M ToyEngine () := λ e,
  match e_jobRecords e !! key with
  | None => (e, Err ErrJobNotFound)
  | Some r =>
      if archived r then (e, Ok tt)
      else run_goals (Complete now key) (put_record key (cancelled_record now reason r) e)
  end.

(** [ClearCrashConcern] *)
Definition cleared_record (now : time) (r : jobRecord) : jobRecord :=
  let r := r <| jr_consecutiveExpirations := 0%Z |> in
  if bool_decide (jr_status r = JobStatusCrashConcern) then
    let r := r <| jr_status := if After (jr_availableAt r) now then JobStatusAwaitingFuture else JobStatusReady |> in
    if bool_decide (jr_waitFor r = []) then r else r <| jr_status := JobStatusPendingJobs |>
  else r.
Definition ClearCrashConcern (key : JobKey) (now : time) : M ToyEngine () := λ e,
  if blank (jk_TenantId key) || blank (jk_JobId key) then (e, Err (ErrMsg "invalid crash concern request"))
  else match e_jobRecords e !! key with
  | None => (e, Err ErrJobNotFound)
  | Some r =>
      if negb (open r) || jr_hidden r || lease_running now r then (e, Err ErrConflict)
      else (put_record key (cleared_record now r) e, Ok tt)
  end.

(** [DeleteJobsRequest], with the predicates [MetadataPredicates] extracts from
    its filter, and their encodability as [Validate] tests it. *)
Record DeleteJobsRequest := mkDelete {
  dj_TenantID : string; dj_JobIDs : list string; dj_CreatedBefore : option time;
  dj_Predicates : list MetadataPredicate; dj_All : bool; dj_DryRun : bool
}.
(** The instants [time.Unix(0, t.UnixNano())] reproduces. *)
Definition unix_epoch : time := (719162 * day)%Z.
Definition unix_nano_ok (t : time) : bool :=
  ((- MaxInt64 - 1 <=? t - unix_epoch) && (t - unix_epoch <=? MaxInt64))%Z.
Definition pred_encodable (v : PredValue) : bool :=
  match v with PredNil => true | PredText valid _ => valid | PredAny e => bool_decide (is_Some e) end.
(** [DeleteJobsRequest.Validate] *)
Definition DeleteJobsRequest_Validate (r : DeleteJobsRequest) : result () :=
  let bad := ErrMsg "invalid job deletion request" in
  let? _ := guard_err (negb (blank (dj_TenantID r))) bad in
  let? _ := guard_err (negb (existsb blank (dj_JobIDs r))) bad in
  let? _ := guard_err (match dj_CreatedBefore r with
                       | Some t => negb (IsZero t) && unix_nano_ok t
                       | None => true
                       end) bad in
  let? _ := guard_err (forallb (λ p, forallb pred_encodable (mp_Values p)) (dj_Predicates r)) bad in
  let filtered := negb (bool_decide (dj_JobIDs r = [])) || bool_decide (is_Some (dj_CreatedBefore r))
                  || negb (bool_decide (length (dj_Predicates r) = 0)) in
  let? _ := guard_err (negb (negb filtered && negb (dj_All r))) bad in
  guard_err (negb (filtered && dj_All r)) bad.

Definition delete_selects (req : DeleteJobsRequest) (predicates : list normalizedMetadataPredicate)
    (kr : JobKey * jobRecord) : bool :=
  String.eqb (jk_TenantId kr.1) (dj_TenantID req)
  && (bool_decide (dj_JobIDs req = []) || bool_decide (jk_JobId kr.1 ∈ dj_JobIDs req))
  && negb (jr_hidden kr.2)
  && match dj_CreatedBefore req with Some t => Before (jr_createdAt kr.2) t | None => true end
  && metadataMatches float_text (jr_metadata kr.2) predicates.

Definition deleted_record (now : time) (r : jobRecord) : jobRecord :=
  let r := r <| jr_hidden := true |> in
  let r := if archived r then r else
    r <| jr_cancelled := true |> <| jr_archived := Some now |> <| jr_finished := now |>
      <| jr_status := JobStatusCancelled |> <| jr_err := Some JobErrCanceled |>
      <| jr_completionStatus := "cancelled" |> <| jr_completionDetail := "job deleted" |> in
  r <| jr_leased := false |> <| jr_leaseID := "" |> <| jr_leaseWorkerID := "" |> <| jr_leaseExpiresAt := 0%Z |>.

(** Deleting one matched record; [Complete] runs on the key stored in it. *)
Definition delete_one (now : time) (key : JobKey) : M ToyEngine () := λ e,
  match e_jobRecords e !! key with
  | None => (e, Ok tt)
  | Some r => run_goals (Complete now (jr_key r)) (put_record key (deleted_record now r) e)
  end.

(** [DeleteJobs]: the counts of matched and deleted jobs. *)
Definition DeleteJobs (req : DeleteJobsRequest) (now : time) : M ToyEngine (Z * Z) := λ e,
  match
    let? _ := DeleteJobsRequest_Validate req in
    match normalizeMetadataPredicates (dj_Predicates req) with
    | Ok ps => Ok ps
    | Err _ => Err (ErrMsg "invalid job deletion request")
    end
  with
  | Err err => (e, Err err)
  | Ok predicates =>
      let matches := (filter (λ kr, delete_selects req predicates kr = true) (range (e_jobRecords e))).*1 in
      let n := Z.of_nat (length matches) in
      if dj_DryRun req then (e, Ok (n, 0%Z))
      else (do! m_iter (delete_one now) matches in m_ret (n, n)) e
  end.
End revoke.
