(* ===== verification/ToyChapters.v ===== *)
(** * ToyChapters: writing history, completing and rescheduling

    [toyimpl/runtime.go]: storing chapters and artifacts, and the operations that
    end a lease or hand work to an external task.  Operations that release the
    engine's lock in between are given section by section; the definition that
    carries the operation's name runs the sections one after the other. *)

From stdpp Require Import pretty.
From S2P Require Import Prelude Types GoalStore GoalEngine Json ClientPayload Cells CellState Metadata Chapters Schedule ScheduleRuns.
From S2P Require Import ToyState ToyLease.

(** ** Requests *)
Record Claims := mkClaims {
  cl_TenantID : string; cl_JobID : string; cl_LeaseID : string; cl_WorkerID : string;
  cl_SchemaHash : string; cl_ExpiresAt : time
}.
Record PutChapterRequest := mkPutChapter {
  pc_LeaseID : string; pc_JobKey : JobKey; pc_Ordinal : Z; pc_Chapter : Chapter;
  pc_ArtifactUploads : list ArtifactUpload
}.
Record CompleteExecutionRequest := mkComplete {
  ce_ClientPayloadUpdate : option ClientPayload.Update; ce_Status : string; ce_Detail : string;
  ce_Chapter : option Chapter; ce_ArtifactUploads : list ArtifactUpload
}.
Record RescheduleExecutionRequest := mkReschedule {
  re_DependencyWait : option DependencyWait; re_NextRoute : Route; re_WaitUntil : option time;
  re_WaitForJobIDs : list string; re_TaskWait : option TaskWait;
  re_ClientPayloadUpdate : option ClientPayload.Update; re_AlternateRoute : option Route;
  re_AlternateAfter : option Z
}.
Record CompleteTaskIfWaitingRequest := mkCompleteTask {
  ct_JobKey : JobKey; ct_Route : Route; ct_ResumeJobType : string; ct_InputOrdinal : Z;
  ct_OutputOrdinal : Z; ct_InputHash : string; ct_Data : option TaskInput
}.

(** ** Lease claims ([internal/leaseauth]) *)

(** [Matches] *)
Definition Matches (c : Claims) (key : JobKey) (leaseID : string) : bool :=
  String.eqb (cl_TenantID c) (jk_TenantId key) && String.eqb (cl_JobID c) (jk_JobId key)
  && String.eqb (cl_LeaseID c) leaseID.
(** [Authorize] *)
Definition Authorize (claims : option Claims) (key : JobKey) (leaseID : string) (now : time) : result () :=
  match claims with
  | None => Ok tt
  | Some c =>
      let? _ := guard_err (Matches c key leaseID) ErrExecutionLeaseLost in
      guard_err (negb (negb (IsZero (cl_ExpiresAt c)) && negb (Before now (cl_ExpiresAt c)))) ErrExecutionLeaseLost
  end.

Section chapters.
Context `{ChapterChecks} `{RangeOrder}.

(** ** Artifacts and chapters *)

(** The upload loop of [prepareChapterWrite]: bytes are stored as they are read. *)
Fixpoint write_uploads (key : JobKey) (ordinal : Z) (us : list ArtifactUpload)
    : M ToyEngine (list StoredArtifact) :=
  match us with
  | [] => m_ret []
  | u :: us =>
      let! data := m_read (λ _, au_Open u) in
      do! m_write (λ e, Ok (e <| e_runtimeArtifacts :=
        <[mkArtifactKey key ordinal (au_Name u) := data]> (e_runtimeArtifacts e) |>)) in
      let! rest := write_uploads key ordinal us in
      m_ret (mkStoredArtifact (au_Name u) (sha256_hex data) (Z.of_nat (String.length data)) :: rest)
  end.

(** [prepareChapterWrite] *)
Definition prepareChapterWrite (req : PutChapterRequest) : M ToyEngine Chapter :=
  let ch := pc_Chapter req in
  do! m_read (λ _, ValidateChapterApplicationPayload ch) in
  if bool_decide (length (pc_ArtifactUploads req) = 0) then
    do! m_read (λ _, guard_err (bool_decide (length (ch_Artifacts ch) = 0))
                       (ErrMsg "put chapter with artifact descriptors but no artifact uploads")) in
    m_ret ch
  else
    let! stored := write_uploads (pc_JobKey req) (pc_Ordinal req) (pc_ArtifactUploads req) in
    do! m_read (λ _, validateStoredArtifactDescriptors (ch_Artifacts ch) stored) in
    m_ret (ch <| ch_Artifacts := stored |>).

(** [storeRuntimeChapter], first critical section: the history. *)
Definition store_history (key : JobKey) (ordinal : Z) (ch : Chapter) : M ToyEngine () := λ e,
  match e_runtimeChapters e !! key with
  | None => (e, Err ErrJobNotFound)
  | Some chs =>
      if (ordinal <? 0)%Z then (e, Err (ErrMsg "chapter ordinal must be >= 0"))
      else if negb (ch_Ordinal ch =? ordinal)%Z then (e, Err (ErrMsg "chapter ordinal does not match target ordinal"))
      else if bool_decide (is_Some (chs !! ordinal)) then (e, Err ErrConflict)
      else if (0 <? ordinal)%Z && negb (bool_decide (is_Some (chs !! (ordinal - 1)%Z))) then (e, Err ErrConflict)
      else (put_chapter key ordinal ch e, Ok tt)
  end.
(** Second critical section: the record's own view of the step. *)
Definition store_view (key : JobKey) (ordinal : Z) (ch : Chapter) : M ToyEngine () := λ e,
  match e_jobRecords e !! key with
  | None => (e, Ok tt)
  | Some r =>
      match taskDataFromChapter ch with
      | Err err => (e, Err err)
      | Ok (td, err) =>
          if is_job_outcome ch
          then (put_record key (r <| jr_result := Some td |> <| jr_err := err |>) e, Ok tt)
          else (put_record key (r <| jr_chapters :=
                  <[ordinal := mkToyChapter (ch_TaskType ch) (ch_CreatedAt ch) (Some td) (Some td)
                                 (extractAttemptFromMetadata (ch_Metadata ch)) err]> (jr_chapters r) |>) e, Ok tt)
      end
  end.
(** [storeRuntimeChapter] *)
Definition storeRuntimeChapter (key : JobKey) (ordinal : Z) (ch : Chapter) : M ToyEngine () :=
  do! m_read (λ _, let? _ := taskDataFromChapter ch in Ok tt) in
  do! store_history key ordinal ch in store_view key ordinal ch.

(** [PutChapter]: the request checks and the lease check. *)
Definition put_check (claims : option Claims) (req : PutChapterRequest) (now : time) (e : ToyEngine) : result () :=
  let? _ := guard_err (negb (str_empty (pc_LeaseID req))) (ErrMsg "lease id is required for PutChapter") in
  let? _ := guard_err (0 <=? pc_Ordinal req)%Z (ErrMsg "chapter ordinal must be >= 0") in
  let? _ := guard_err (ch_Ordinal (pc_Chapter req) =? pc_Ordinal req)%Z
              (ErrMsg "chapter ordinal does not match target ordinal") in
  let? r := of_option ErrJobNotFound (e_jobRecords e !! pc_JobKey req) in
  let? _ := Authorize claims (pc_JobKey req) (pc_LeaseID req) now in
  guard_err (String.eqb (jr_leaseID r) (pc_LeaseID req) && lease_running now r && open r
             && match claims with Some c => String.eqb (cl_WorkerID c) (jr_leaseWorkerID r) | None => true end)
    ErrExecutionLeaseLost.
(** The schema hash of the claims, or else of the stored metadata. *)
Definition put_schema (claims : option Claims) (req : PutChapterRequest) (e : ToyEngine) : string :=
  let h := match claims with
    | Some c => if Matches c (pc_JobKey req) (pc_LeaseID req) then cl_SchemaHash c else ""
    | None => ""
    end in
  if str_empty h then match e_jobRecords e !! pc_JobKey req with
    | Some r => SchemaHashFromStoredMetadata (jr_metadata r)
    | None => ""
    end
  else h.
(** [PutChapter] *)
Definition PutChapter (claims : option Claims) (req : PutChapterRequest) (now : time) : M ToyEngine () :=
  do! m_read (put_check claims req now) in
  let! ch := prepareChapterWrite req in
  do! m_read (λ e, ValidateOrdinaryChapter (pc_JobKey req) (put_schema claims req e) ch) in
  storeRuntimeChapter (pc_JobKey req) (pc_Ordinal req) ch.

(** ** Completing a lease *)

(** The lease and payload check [completeLease] makes first. *)
Definition complete_check (key : JobKey) (leaseID workerID : string) (req : CompleteExecutionRequest)
    (now : time) (e : ToyEngine) : result string :=
  let? ch := of_option (ErrMsg "complete lease requires final chapter") (ce_Chapter req) in
  let? _ := guard_err (is_job_outcome ch) (ErrMsg "complete lease chapter must be a job attempt outcome") in
  let? r := of_option ErrJobNotFound (e_jobRecords e !! key) in
  let? _ := guard_err (holds_lease now leaseID workerID r) ErrExecutionLeaseLost in
  let? _ := Apply (jr_clientPayload r) (jr_clientPayloadRevision r) (ce_ClientPayloadUpdate req) in
  Ok (SchemaHashFromStoredMetadata (jr_metadata r)).

(** [ensureCompletionChapter] *)
Definition put_of_complete (key : JobKey) (leaseID : string) (req : CompleteExecutionRequest) (ch : Chapter)
    : PutChapterRequest := mkPutChapter leaseID key (ch_Ordinal ch) ch (ce_ArtifactUploads req).
Definition ensureCompletionChapter (key : JobKey) (leaseID schemaHash : string)
    (req : CompleteExecutionRequest) (ch : Chapter) : M ToyEngine Chapter :=
  if (ch_Ordinal ch <? 0)%Z then m_err (ErrMsg "chapter ordinal must be >= 0")
  else λ e, match chapters_of key e !! ch_Ordinal ch with
  | Some existing =>
      (let! candidate := (if bool_decide (length (ce_ArtifactUploads req) = 0) then m_ret ch
                          else prepareChapterWrite (put_of_complete key leaseID req ch)) in
       do! m_read (λ _, guard_err (chapter_eqb existing candidate) ErrConflict) in
       m_ret existing) e
  | None =>
      (let! chapter := prepareChapterWrite (put_of_complete key leaseID req ch) in
       do! m_read (λ _, ValidateLastChapter key schemaHash chapter) in
       do! storeRuntimeChapter key (ch_Ordinal ch) chapter in
       m_ret chapter) e
  end.

(** The record a completion leaves. *)
Definition completed_record (now : time) (value : option string) (revision : Z)
    (req : CompleteExecutionRequest) (r : jobRecord) : jobRecord :=
  let r := r <| jr_clientPayload := value |> <| jr_clientPayloadRevision := revision |>
             <| jr_leased := false |> <| jr_leaseID := "" |> <| jr_archived := Some now |>
             <| jr_completionDetail := ce_Detail req |>
             <| jr_completionStatus := if str_empty (ce_Status req) || String.eqb (ce_Status req) "succeeded"
                                       then "success" else ce_Status req |> in
  if String.eqb (ce_Status req) "cancelled"
  then r <| jr_status := JobStatusCancelled |> <| jr_cancelled := true |> <| jr_err := Some JobErrCancelled |>
  else r <| jr_status := JobStatusCompleted |>.
(** The final critical section of [completeLease]. *)
Definition complete_commit (key : JobKey) (leaseID workerID : string) (req : CompleteExecutionRequest)
    (now : time) : M ToyEngine () := λ e,
  match e_jobRecords e !! key with
  | None => (e, Err ErrJobNotFound)
  | Some r =>
      if negb (holds_lease now leaseID workerID r) then (e, Err ErrExecutionLeaseLost)
      else match Apply (jr_clientPayload r) (jr_clientPayloadRevision r) (ce_ClientPayloadUpdate req) with
      | Err err => (e, Err err)
      | Ok (value, revision) =>
          run_goals (Complete now key) (put_record key (completed_record now value revision req r) e)
      end
  end.

(** [completePayloadFailure] *)
Definition payload_failure (ch : Chapter) : AppErrorPayload :=
  match ch_Body ch with
  | Some (JobAttemptOutcomeChapter (AppErrorOutcome p)) => p
  | _ => mkAppError "" "" []
  end.
Definition payload_failed_record (now : time) (detail : string) (ch : Chapter) (r : jobRecord) : jobRecord :=
  let outcome := AppErrorOutcome (payload_failure ch) in
  r <| jr_err := Some (JobErrOutcome outcome) |>
    <| jr_result := Some (mkTaskData (JobAttemptOutcomeChapter outcome) []) |>
    <| jr_archived := Some now |> <| jr_status := JobStatusCompleted |>
    <| jr_completionStatus := "failed_app" |> <| jr_completionDetail := detail |>
    <| jr_leased := false |> <| jr_leaseID := "" |> <| jr_alternateRoute := None |>
    <| jr_payload := mkPayload (wp_RunPolicy (jr_payload r)) None |>.
Definition completePayloadFailure (key : JobKey) (leaseID workerID : string)
    (req : CompleteExecutionRequest) (ch : Chapter) (now : time) : M ToyEngine () := λ e,
  if negb (bool_decide (length (ce_ArtifactUploads req) = 0)) || bool_decide (is_Some (ce_ClientPayloadUpdate req))
  then (e, Err (ErrMsg "payload failure cannot carry uploads or client updates"))
  else match e_jobRecords e !! key with
  | None => (e, Err ErrJobNotFound)
  | Some r =>
      if negb (holds_lease now leaseID workerID r) then (e, Err ErrExecutionLeaseLost)
      else if negb (ch_Ordinal ch =? Z.of_nat (size (chapters_of key e)))%Z then (e, Err ErrConflict)
      else run_goals (Complete now key)
             (put_record key (payload_failed_record now (ce_Detail req) ch r) (put_chapter key (ch_Ordinal ch) ch e))
  end.

(** [completeLease]: [now] when it starts, [later] when it commits. *)
Definition completeLease (key : JobKey) (leaseID workerID : string) (req : CompleteExecutionRequest)
    (now later : time) : M ToyEngine () :=
  match ce_Chapter req with
  | Some ch =>
      if ChapterPayloadFailure ch then completePayloadFailure key leaseID workerID req ch now
      else
        let! schemaHash := m_read (complete_check key leaseID workerID req now) in
        do! ensureCompletionChapter key leaseID schemaHash req ch in
        complete_commit key leaseID workerID req later
  | None => m_err (ErrMsg "complete lease requires final chapter")
  end.

(** ** Rescheduling *)

(** [ValidateDependencyReschedule] *)
Definition ValidateDependencyReschedule (req : RescheduleExecutionRequest) : result () :=
  match re_DependencyWait req with
  | None => Ok tt
  | Some w =>
      let? _ := guard_err (bool_decide (re_WaitForJobIDs req = []) && bool_decide (re_WaitUntil req = None)
                           && bool_decide (re_AlternateRoute req = None) && bool_decide (re_AlternateAfter req = None))
                  ErrInvalidDependency in
      ValidateDependencyWait (Some w) false
  end.

(** [RescheduleTaskWait] *)
Definition RescheduleTaskWait (next : Route) (task : option TaskWait) : result (option TaskWait) :=
  let? _ := Route_Validate next in
  if str_empty (r_TaskType next) then
    match task with
    | Some _ => Err (ErrMsg "job route cannot have task coordinates")
    | None => Ok None
    end
  else match task with
  | None => Err (ErrMsg "task route requires complete task coordinates")
  | Some t =>
      let? _ := guard_err ((0 <=? tw_InputOrdinal t)%Z && (0 <=? tw_OutputOrdinal t)%Z
                           && negb (str_empty (tw_InputHash t)) && is_ok (ValidateIdentifier (tw_ResumeJobType t)))
                  (ErrMsg "task route requires complete task coordinates") in
      Ok (Some t)
  end.

(** [extractTaskType] *)
Definition extractTaskType (r : Route) : string :=
  if str_empty (r_TaskType r) then r_JobType r else r_TaskType r.

(** The goal transitions of a reschedule: close the wait the job leaves behind,
    register the one it names; the new wait ID. *)
Definition reschedule_goals (key : JobKey) (old : string) (wait : option DependencyWait) (now : time)
    : M Memory string :=
  let keeps := match wait with Some w => String.eqb (dw_WaitID w) old | None => false end in
  do! (if negb (str_empty old) && negb keeps then CloseConsumer now key else m_ret tt) in
  match wait with
  | Some w => do! Register now key w false in m_ret (dw_WaitID w)
  | None => m_ret ""
  end.

Definition wait_state (t : TaskWait) : workerTaskWait :=
  mkTaskWaitState (tw_InputOrdinal t) (tw_OutputOrdinal t) (tw_ResumeJobType t) (tw_InputHash t).

(** The pending step of a task wait. *)
Definition add_pending_step (now : time) (next : Route) (w : workerTaskWait) (r : jobRecord) : jobRecord :=
  let r := r <| jr_step := wt_OutputStep w |> in
  if bool_decide (is_Some (jr_chapters r !! wt_OutputStep w)) then r
  else
    let input := match jr_chapters r !! wt_InputStep w with
      | Some prev => match tc_Output prev with Some o => Some o | None => tc_Input prev end
      | None => None
      end in
    r <| jr_chapters := <[wt_OutputStep w := mkToyChapter (extractTaskType next) now input None 1 None]>
                          (jr_chapters r) |>.

(** The record after a reschedule: lease, route, payload and waits first. *)
Definition released_record (now : time) (req : RescheduleExecutionRequest) (waitID : string)
    (value : option string) (revision : Z) (r : jobRecord) : jobRecord :=
  let r := r <| jr_dependencyWaitID := waitID |> <| jr_clientPayload := value |>
             <| jr_clientPayloadRevision := revision |> <| jr_leased := false |> <| jr_leaseID := "" |>
             <| jr_consecutiveExpirations := 0%Z |> <| jr_route := re_NextRoute req |>
             <| jr_alternateRoute := re_AlternateRoute req |> in
  match re_AlternateAfter req with Some d => r <| jr_alternateAt := (now + d)%Z |> | None => r end.
Definition handed_over_record (now : time) (req : RescheduleExecutionRequest) (task : option TaskWait)
    (r : jobRecord) : jobRecord :=
  let r := r <| jr_payload := mkPayload (wp_RunPolicy (jr_payload r)) (wait_state <$> task) |>
             <| jr_waitFor := re_WaitForJobIDs req |> <| jr_availableAt := 0%Z |> <| jr_waitDeadline := 0%Z |>
             <| jr_step := 0%Z |> in
  match wait_state <$> task with Some w => add_pending_step now (re_NextRoute req) w r | None => r end.
(** Then the status that makes it wait. *)
Definition requeued_record (now : time) (req : RescheduleExecutionRequest) (r : jobRecord) : jobRecord :=
  if negb (bool_decide (re_WaitForJobIDs req = [])) then
    let r := r <| jr_status := JobStatusPendingJobs |> in
    match re_WaitUntil req with Some t => r <| jr_waitDeadline := t |> | None => r end
  else match re_WaitUntil req with
  | Some t => if After t now then r <| jr_status := JobStatusAwaitingFuture |> <| jr_availableAt := t |>
              else r <| jr_status := JobStatusReady |>
  | None => r <| jr_status := JobStatusReady |>
  end.
Definition rescheduled_record (now : time) (req : RescheduleExecutionRequest) (task : option TaskWait)
    (waitID : string) (value : option string) (revision : Z) (r : jobRecord) : jobRecord :=
  requeued_record now req (handed_over_record now req task (released_record now req waitID value revision r)).

(** The checks of [rescheduleLease] before it touches the goals. *)
Definition reschedule_check (key : JobKey) (leaseID workerID : string) (req : RescheduleExecutionRequest)
    (now : time) (e : ToyEngine) : result (jobRecord * option TaskWait * (option string * Z)) :=
  let? r := of_option ErrJobNotFound (e_jobRecords e !! key) in
  let? _ := guard_err (holds_lease now leaseID workerID r) ErrExecutionLeaseLost in
  let? _ := ValidateDependencyReschedule req in
  let? task := RescheduleTaskWait (re_NextRoute req) (re_TaskWait req) in
  let? _ := ValidateAlternateRoute (re_AlternateRoute req) (re_AlternateAfter req) task in
  let? vr := Apply (jr_clientPayload r) (jr_clientPayloadRevision r) (re_ClientPayloadUpdate req) in
  Ok (r, task, vr).

(** [rescheduleLease] *)
Definition rescheduleLease (key : JobKey) (leaseID workerID : string) (req : RescheduleExecutionRequest)
    (now : time) : M ToyEngine () := λ e,
  match reschedule_check key leaseID workerID req now e with
  | Err err => (e, Err err)
  | Ok (r, task, vr) =>
      match run_goals_clone (reschedule_goals key (jr_dependencyWaitID r) (re_DependencyWait req) now) e with
      | (e, Err err) => (e, Err err)
      | (e, Ok waitID) => (put_record key (rescheduled_record now req task waitID vr.1 vr.2 r) e, Ok tt)
      end
  end.

(** ** External task completion *)

(** First critical section of [CompleteTaskIfWaiting]: the payload and route of a
    job nobody holds. *)
Definition task_snapshot (key : JobKey) (now : time) : M ToyEngine (workerJobPayload * Route) := λ e,
  match e_jobRecords e !! key with
  | None => (e, Err ErrJobNotFound)
  | Some r =>
      let r := advanceRecordStateLocked e (jk_TenantId key) now r in
      (put_record key r e,
       if bool_decide (jr_status r = JobStatusReady) && open r then Ok (jr_payload r, jr_route r) else Err ErrConflict)
  end.

(** The wait must be the one the request names. *)
Definition check_wait (req : CompleteTaskIfWaitingRequest) (p : workerJobPayload) (route : Route)
    : result workerTaskWait :=
  let? w := of_option ErrConflict (wp_TaskWait p) in
  let? _ := guard_err (bool_decide (route = ct_Route req)) ErrConflict in
  let? _ := guard_err (str_empty (ct_ResumeJobType req) || String.eqb (wt_Next w) (ct_ResumeJobType req)) ErrConflict in
  let? _ := guard_err ((ct_InputOrdinal req =? 0)%Z || (wt_InputStep w =? ct_InputOrdinal req)%Z) ErrConflict in
  let? _ := guard_err (wt_OutputStep w =? ct_OutputOrdinal req)%Z ErrConflict in
  let? _ := guard_err (str_empty (ct_InputHash req) || String.eqb (wt_InputHash w) (ct_InputHash req)) ErrConflict in
  Ok w.

(** The artifacts of the answer, by name: nothing is stored yet. *)
Fixpoint read_artifacts (seen : gset string) (us : list ArtifactUpload)
    : result (list (string * string)) :=
  match us with
  | [] => Ok []
  | u :: us =>
      let? _ := guard_err (negb (str_empty (au_Name u))) (ErrMsg "artifact name is required") in
      let? _ := guard_err (bool_decide (au_Name u ∉ seen)) (ErrMsg "duplicate artifact name") in
      let? data := au_Open u in
      let? rest := read_artifacts ({[au_Name u]} ∪ seen) us in
      Ok ((au_Name u, data) :: rest)
  end.

Definition task_metadata (w : workerTaskWait) (p : workerJobPayload) (taskType : string) (now : time) : json :=
  JObj [("attempt", JNum "1"); ("created_at", JStr (time_text now)); ("input_hash", JStr (wt_InputHash w));
        ("ordinal", JNum (pretty (wt_OutputStep w))); ("run_policy", wp_RunPolicy p);
        ("task_type", JStr taskType); ("version", JNum "1")].

(** What the operation prepares outside the locks: the chapter to publish, its
    artifacts, and the size error if the answer is too large. *)
Record TaskAnswer := mkAnswer {
  ta_Chapter : Chapter; ta_Artifacts : list (string * string); ta_SizeFailure : option AppErrorPayload
}.
Definition prepare_answer (req : CompleteTaskIfWaitingRequest) (p : workerJobPayload) (route : Route)
    (w : workerTaskWait) (now : time) (e : ToyEngine) : result TaskAnswer :=
  let? input := of_option (ErrMsg "task data is required") (ct_Data req) in
  let? _ := guard_err (data_json_valid (ti_Data input)) (ErrMsg "task data must be valid JSON") in
  let? arts := read_artifacts ∅ (ti_Artifacts input) in
  let stored := (λ a, mkStoredArtifact a.1 (sha256_hex a.2) (Z.of_nat (String.length a.2))) <$> arts in
  let taskType := extractTaskType route in
  let? _ := guard_err (negb (str_empty (r_TaskType route))) (ErrMsg "task type not found in route") in
  let? inputChapter := of_option ErrChapterNotFound (chapters_of (ct_JobKey req) e !! wt_InputStep w) in
  let? body := match ch_Body inputChapter with
    | Some (ExecutionChapter rec) =>
        let? rec' := execution_result rec (ct_JobKey req) (ct_InputHash req) (ct_InputOrdinal req)
                       (ct_OutputOrdinal req) (ti_Data input) stored in
        Ok (ExecutionChapter rec')
    | _ => Ok (TaskAttemptOutcomeChapter (ApplicationOutputOutcome (ti_Data input)))
    end in
  let ch := mkChapter (wt_OutputStep w) taskType (Some body) (wt_InputHash w) now
              (task_metadata w p taskType now) stored in
  let schemaHash := match e_jobRecords e !! ct_JobKey req with
    | Some r => SchemaHashFromStoredMetadata (jr_metadata r) | None => "" end in
  match ValidateOrdinaryChapter (ct_JobKey req) schemaHash ch with
  | Ok _ => Ok (mkAnswer ch arts None)
  | Err err =>
      match payload_size_failure ch with
      | Some f => Ok (mkAnswer (PayloadFailureChapter ch f) [] (Some f))
      | None => Err err
      end
  end.

Definition put_artifacts (key : JobKey) (ordinal : Z) (arts : list (string * string)) (e : ToyEngine) : ToyEngine :=
  e <| e_runtimeArtifacts :=
    foldl (λ m a, <[mkArtifactKey key ordinal a.1 := a.2]> m) (e_runtimeArtifacts e) arts |>.

(** The record after the answer is published. *)
Definition answered_view (now : time) (w : workerTaskWait) (ch : Chapter) (td : option TaskData) (r : jobRecord)
    : jobRecord :=
  r <| jr_chapters := <[wt_OutputStep w := mkToyChapter (ch_TaskType ch) (ch_CreatedAt ch) td td 1 None]>
                        (jr_chapters r) |>.
Definition answered_record (resume : string) (p : workerJobPayload) (w : workerTaskWait) (r : jobRecord) : jobRecord :=
  r <| jr_route := mkRoute resume "" |> <| jr_alternateRoute := None |>
    <| jr_payload := mkPayload (wp_RunPolicy p) None |> <| jr_status := JobStatusReady |>
    <| jr_leased := false |> <| jr_leaseID := "" |> <| jr_step := wt_OutputStep w |>
    <| jr_consecutiveExpirations := 0%Z |>.
Definition oversized_record (now : time) (f : AppErrorPayload) (p : workerJobPayload) (w : workerTaskWait)
    (r : jobRecord) : jobRecord :=
  r <| jr_archived := Some now |> <| jr_status := JobStatusCompleted |> <| jr_completionStatus := "failed_app" |>
    <| jr_completionDetail := ae_Message f |> <| jr_err := Some (JobErrOutcome (AppErrorOutcome f)) |>
    <| jr_route := mkRoute (wt_Next w) "" |> <| jr_alternateRoute := None |>
    <| jr_payload := mkPayload (wp_RunPolicy p) None |> <| jr_step := wt_OutputStep w |>.

(** Last critical section of [CompleteTaskIfWaiting]: nothing may have changed
    since the snapshot; chapter, artifacts and scheduling move together. *)
Definition task_publish (req : CompleteTaskIfWaitingRequest) (p : workerJobPayload) (route : Route)
    (w : workerTaskWait) (a : TaskAnswer) (now : time) : M ToyEngine () := λ e,
  let key := ct_JobKey req in
  match e_jobRecords e !! key with
  | None => (e, Err ErrJobNotFound)
  | Some r =>
      let r := advanceRecordStateLocked e (jk_TenantId key) now r in
      let e := put_record key r e in
      if jr_leased r || negb (bool_decide (currentStatus now r = JobStatusReady)) || negb (open r)
         || negb (bool_decide (jr_route r = route)) || negb (payload_eqb (jr_payload r) p)
      then (e, Err ErrConflict)
      else match e_runtimeChapters e !! key with
      | None => (e, Err ErrJobNotFound)
      | Some chs =>
          if bool_decide (is_Some (chs !! wt_OutputStep w)) then (e, Err ErrConflict)
          else if negb (bool_decide (is_Some (chs !! (wt_OutputStep w - 1)%Z))) then (e, Err ErrConflict)
          else
            let ch := ta_Chapter a in
            let e := put_artifacts key (wt_OutputStep w) (ta_Artifacts a) (put_chapter key (wt_OutputStep w) ch e) in
            match ta_SizeFailure a with
            | Some f =>
                let r := oversized_record now f p w (answered_view now w ch None r) in
                (do! run_goals (Complete now key) in m_err ErrPayloadTooLarge) (put_record key r e)
            | None =>
                let td := match ch_Body ch with Some b => Some (mkTaskData b (ch_Artifacts ch)) | None => None end in
                let resume := if str_empty (ct_ResumeJobType req) then wt_Next w else ct_ResumeJobType req in
                (put_record key (answered_record resume p w (answered_view now w ch td r)) e, Ok tt)
            end
      end
  end.

(** [CompleteTaskIfWaiting] *)
Definition CompleteTaskIfWaiting (req : CompleteTaskIfWaitingRequest) (now later : time) : M ToyEngine () :=
  do! m_read (λ _, Route_Validate (ct_Route req)) in
  do! m_read (λ _, guard_err (negb (str_empty (r_TaskType (ct_Route req)))) (ErrMsg "task route required")) in
  let! pr := task_snapshot (ct_JobKey req) now in
  let! w := m_read (λ _, check_wait req pr.1 pr.2) in
  let! a := m_read (prepare_answer req pr.1 pr.2 w now) in
  task_publish req pr.1 pr.2 w a later.
End chapters.
