(* ===== verification/ToyPrepare.v ===== *)
(** * ToyPrepare: what a submission prepares before it touches the tables

    [internal/goalstate/preparation.go] and [toyimpl/runtime.go]: the descriptor
    that makes a repeated submission recognisable, the fingerprints of task data,
    and the copy of its artifacts into the engine. *)

From stdpp Require Import pretty.
From S2P Require Import Prelude Types GoalStore GoalEngine Json ClientPayload Cells CellState Metadata Chapters Schedule ScheduleRuns.
From S2P Require Import ToyState ToyLease ToyChapters.

(** [encoding/json] decoding text into an [any] with [UseNumber]. *)
Class JSONDecoding := json_decode : string → option json.

(** [SubmitJob], [JobPrerequisite], [JobSchemaSelector] *)
Record JobPrerequisite := mkPrerequisite { jp_JobID : string; jp_Condition : string }.
Record JobSchemaSelector := mkSelector { js_Hash : string; js_Schema : option json }.
Record SubmitJob := mkSubmitJob {
  sj_Cell : string; sj_CellRepo : string; sj_Dependencies : list Dependency;
  sj_ClientPayloadUpdate : option ClientPayload.Update; sj_TenantId : string; sj_JobType : string;
  sj_JobID : string; sj_Data : option TaskInput; sj_RunPolicy : json; sj_Metadata : option json;
  sj_Schema : option JobSchemaSelector; sj_AvailableAt : option time; sj_Prerequisites : list JobPrerequisite
}.

Section prepare.
Context `{ChapterChecks} `{JSONDecoding}.

(** ** JSON of the parts of a submission; a nil pointer, slice or raw value is null *)
Definition or_null {A} (f : A → json) (o : option A) : json := match o with Some a => f a | None => JNull end.
Definition list_json {A} (f : A → json) (l : list A) : json :=
  if bool_decide (length l = 0) then JNull else JArr (f <$> l).
Definition target_json (t : DependencyTarget) : json :=
  JObj (omit_string "goalId" (dt_GoalID t) ++ omit_string "jobId" (dt_JobID t)).
Definition dependency_json (d : Dependency) : json :=
  JObj [("condition", JStr (dep_Condition d)); ("target", target_json (dep_Target d))].
Definition prerequisite_json (p : JobPrerequisite) : json :=
  JObj [("Condition", JStr (jp_Condition p)); ("JobID", JStr (jp_JobID p))].
Definition selector_json (s : JobSchemaSelector) : json :=
  JObj [("Hash", JStr (js_Hash s)); ("Schema", or_null id (js_Schema s))].
Definition raw_json (raw : string) : result json := of_option (ErrMsg "invalid JSON") (json_decode raw).
Definition update_json (u : option ClientPayload.Update) : result json :=
  match u with
  | None => Ok JNull
  | Some u =>
      let? value := match u_Value u with
        | Some raw => if str_empty raw then Ok [] else let? v := raw_json raw in Ok [("value", v)]
        | None => Ok []
        end in
      Ok (JObj (match u_ExpectedRevision u with Some n => [("expectedRevision", JStr (pretty n))] | None => [] end
                ++ [("mode", JStr (u_Mode u))] ++ value))
  end.

(** ** Fingerprints *)

(** [taskFingerprint]: artifacts by name. *)
Definition artifact_le (a b : string * string) : Prop := str_le a.1 b.1.
#[export] Instance artifact_le_dec a b : Decision (artifact_le a b).
Proof. unfold artifact_le. apply _. Defined.
Definition artifact_hash (u : ArtifactUpload) : result (string * string) :=
  let? data := au_Open u in Ok (au_Name u, sha256_hex data).
Definition taskFingerprint (d : option TaskInput) : result string :=
  match d with
  | None => Ok ""
  | Some d =>
      let? arts := map_result artifact_hash (ti_Artifacts d) in
      let? data := raw_json (ti_Data d) in
      Ok (sha256_hex (Marshal (JObj
        [("Artifacts", JArr ((λ a, JObj [("Hash", JStr a.2); ("Name", JStr a.1)]) <$> merge_sort artifact_le arts));
         ("Data", data)])))
  end.

(** [jobdbInputHash] *)
Definition jobdbInputHash (d : option TaskInput) : result string :=
  match d with
  | None => Ok ""
  | Some d =>
      let? arts := map_result artifact_hash (ti_Artifacts d) in
      Ok (sha256_hex (ti_Data d +:+ String.concat "" (merge_sort str_le ((λ a, a.1 +:+ "|" +:+ a.2) <$> arts))))
  end.

(** ** The descriptor of a submission ([SubmitPreparation]) *)

(** Identity and placement of the job are left out. *)
Definition submit_descriptor (job : SubmitJob) (parent data : string) : result json :=
  let? update := update_json (sj_ClientPayloadUpdate job) in
  Ok (JObj [("Data", JStr data);
            ("Job", JObj [("AvailableAt", or_null (λ t, JStr (time_text t)) (sj_AvailableAt job)); ("Cell", JStr "");
                          ("CellRepo", JStr ""); ("ClientPayloadUpdate", update); ("Data", JNull);
                          ("Dependencies", list_json dependency_json (sj_Dependencies job)); ("JobID", JStr "");
                          ("JobType", JStr (sj_JobType job)); ("Metadata", or_null id (sj_Metadata job));
                          ("Prerequisites", list_json prerequisite_json (sj_Prerequisites job));
                          ("RunPolicy", sj_RunPolicy job); ("Schema", or_null selector_json (sj_Schema job));
                          ("TenantId", JStr (sj_TenantId job))]);
            ("Kind", JStr "submit"); ("Parent", JStr parent)]).
Definition no_target : ResolvedCell := mkResolvedCell "" "" "".
Definition SubmitPreparation (job : SubmitJob) (parent : string) : result Preparation :=
  let? _ := guard_err (bool_decide (length (sj_Prerequisites job) = 0) || bool_decide (length (sj_Dependencies job) = 0))
              ErrInvalidDependency in
  let? _ := ValidateDependencies (sj_Dependencies job) in
  let? data := taskFingerprint (sj_Data job) in
  let? descriptor := submit_descriptor job parent data in
  Ok (mkPreparation (sj_Cell job) (sj_CellRepo job) no_target parent (mkJobKey (sj_TenantId job) (sj_JobID job)) ""
        "" false descriptor (sj_Dependencies job)).

(** ** Copying task data

    [materializeTaskData] reads every artifact before it stores the first. *)
Definition snapshot_upload (u : ArtifactUpload) : result (string * string) :=
  let? data := au_Open u in Ok (au_Name u, data).
Definition stored_artifact (a : string * string) : StoredArtifact :=
  mkStoredArtifact a.1 (sha256_hex a.2) (Z.of_nat (String.length a.2)).
Definition materializeTaskData (key : JobKey) (ordinal : Z) (d : TaskInput)
    : M ToyEngine (TaskInput * list StoredArtifact) :=
  let! arts := m_read (λ _, map_result snapshot_upload (ti_Artifacts d)) in
  do! m_write (λ e, Ok (put_artifacts key ordinal arts e)) in
  m_ret (mkTaskInput (ti_Data d) ((λ a, mkUpload a.1 (Ok a.2)) <$> arts), stored_artifact <$> arts).

(** [ValidateSubmissionApplicationPayload] *)
Definition ValidateSubmissionApplicationPayload (jobType : string) (d : option TaskInput) : result () :=
  match d with
  | None => Ok tt
  | Some d => ValidateChapterApplicationPayload (mkChapter 0 jobType (Some (JobStartChapter (ti_Data d))) "" 0 (JObj []) [])
  end.

(** The metadata of a start chapter. *)
Definition start_metadata (jobType inputHash : string) (runPolicy : json) (now : time)
    (extra : list (string * json)) : json :=
  JObj ([("attempt", JNum "1"); ("created_at", JStr (time_text now)); ("input_hash", JStr inputHash);
         ("ordinal", JNum "0")] ++ extra ++ [("run_policy", runPolicy); ("task_type", JStr jobType); ("version", JNum "1")]).
End prepare.
