(* ===== verification/ToySubmit.v ===== *)
(** * ToySubmit: goals, cells and publishing jobs

    [toyimpl/goals.go], [toyimpl/cells.go] and the publication sections of
    [toyimpl/runtime.go]: reserving a job's identity, inserting its record
    together with its goal and its waits, and the cell operations that depend on
    the jobs. *)

From S2P Require Import Prelude Types GoalStore GoalEngine Json ClientPayload Cells CellState Metadata Chapters Schedule ScheduleRuns.
From S2P Require Import ToyState ToyLease.

(** [JobHandle] *)
Record JobHandle := mkHandle {
  jh_JobKey : JobKey; jh_GoalID : string; jh_Cell : string; jh_CellID : string; jh_CellRepo : string
}.
(** [ResolvedCell.Handle] *)
Definition Handle (t : ResolvedCell) (key : JobKey) (goalID : string) : JobHandle :=
  mkHandle key goalID (rs_Cell t) (rs_CellID t) (rs_CellRepo t).

(** [NewExistingJobMismatchError(m)] *)
Definition mismatch {A} (m : string) : result A := Err (ErrExistingJobMismatch m).

(** [PreparationMismatch]: which part of the descriptors differs. *)
Definition descriptor_field (path : list string) (d : json) : option json := metadataValueAtPath d path.
Definition same_field (path : list string) (a b : json) : bool :=
  match descriptor_field path a, descriptor_field path b with
  | Some x, Some y => json_eqb x y
  | None, None => true
  | _, _ => false
  end.
Definition mismatch_labels : list (string * string) :=
  [("JobType", "job type"); ("Metadata", "metadata"); ("RunPolicy", "run policy");
   ("Prerequisites", "prerequisites"); ("Dependencies", "dependencies"); ("ShareGoal", "goal sharing");
   ("ClientPayloadUpdate", "initial client payload"); ("Schema", "schema")].
Definition PreparationMismatch (old new : json) : error :=
  ErrExistingJobMismatch
    (if negb (same_field ["Data"] old new) then "different input"
     else match list_find (λ kl, same_field ["Job"; kl.1] old new = false) mismatch_labels with
     | Some (_, kl) => "different " +:+ kl.2
     | None => "different job preparation"
     end).

Section submit.
Context `{CellText} `{RangeOrder}.

(** ** Goals *)
Definition goals_only {A} (f : Memory → result A) (e : ToyEngine) : result A := f (goal_view e).
(** [GetGoal] *)
Definition GetGoal (k : GoalKey) (e : ToyEngine) : result GoalInfo :=
  let? _ := GoalKey_Validate k in mem_Goal (goal_view e) k.
(** [AddGoalCandidate] *)
Definition AddGoalCandidate (req : AddGoalCandidateRequest) (now : time) : M ToyEngine GoalCandidateInfo :=
  run_goals_clone (Add now req).
(** [FailGoal] *)
Definition FailGoal (req : FailGoalRequest) (now : time) : M ToyEngine GoalInfo := run_goals_clone (Fail now req).
(** [GetDependencyWait] *)
Definition GetDependencyWait (k : DependencyWaitKey) (now : time) (e : ToyEngine) : result DependencyWaitInfo :=
  let? _ := of_option ErrJobNotFound (e_jobRecords e !! wk_JobKey k) in
  let? w := mem_Wait (goal_view e) k in
  Evaluate now (goal_view e) w.

(** ** Cells *)
Definition on_cells {A} (tenant : string) (m : M State A) : M ToyEngine A := λ e,
  let p := m (cellsLocked tenant e) in (e <| e_cells := <[tenant := p.1]> (e_cells e) |>, p.2).

(** [CreateCell] *)
Definition CreateCell (ctx : Context) (req : CreateCellRequest) (now : time) (id revision : string)
    : M ToyEngine Cell := on_cells (cr_TenantID req) (Create ctx req now id revision).

(** [UpdateCell]: moving a cell to another repo pauses its active schedules. *)
Definition pause_on_move (c : Cell) (tenant : string) (k : ScheduleKey) (s : ScheduleInfo) : ScheduleInfo :=
  if String.eqb (sk_TenantId k) tenant && String.eqb (st_CellID (si_Target s)) (c_ID c)
     && bool_decide (si_State s = ScheduleStateActive)
  then s <| si_State := ScheduleStatePaused |> <| si_EffectiveState := ScheduleStatePaused |>
         <| si_PauseReason := "cell_repo_mismatch" |>
  else s.
Definition UpdateCell (ctx : Context) (req : UpdateCellRequest) (now : time) (revision : string)
    : M ToyEngine Cell := λ e,
  let tenant := ce_TenantID (uc_CellKey req) in
  let old_repo := match cs_Cells (cellsLocked tenant e) !! ce_CellID (uc_CellKey req) with
    | Some c => c_Repo c | None => "" end in
  match on_cells tenant (CellState.Update ctx req now revision) e with
  | (e, Err err) => (e, Err err)
  | (e, Ok c) =>
      (if String.eqb old_repo (c_Repo c) then e
       else e <| e_schedules := map_imap (λ k s, Some (pause_on_move c tenant k s)) (e_schedules e) |>, Ok c)
  end.

(** The [busy] callback of [RetireCell]: live jobs, open goals, reservations and
    active schedules keep a cell in use. *)
Fixpoint busy_records (tenant id : string) (now : time) (e : ToyEngine) (l : list (JobKey * jobRecord))
    : result bool :=
  match l with
  | [] => Ok false
  | (key, r) :: l =>
      if negb (String.eqb (jk_TenantId key) tenant) || negb (String.eqb (rs_CellID (jr_cell r)) id)
      then busy_records tenant id now e l
      else if open r || lease_running now r then Ok true
      else
        let? g := mem_Goal (goal_view e) (mkGoalKey (jk_TenantId key) (jr_goalID r)) in
        if bool_decide (gi_State g = GoalOpen) then Ok true else busy_records tenant id now e l
  end.
Definition cell_busy (tenant : string) (now : time) (e : ToyEngine) (id : string) : result bool :=
  let? jobs := busy_records tenant id now e (range (e_jobRecords e)) in
  Ok (jobs
    || existsb (λ kg, String.eqb (gk_TenantId kg.1) tenant && String.eqb (gi_CellID kg.2) id
                      && bool_decide (gi_State kg.2 = GoalOpen)) (map_to_list (e_GoalRows e))
    || existsb (λ kp, String.eqb (jk_TenantId kp.1) tenant && String.eqb (rs_CellID (pp_Target (pg_Request kp.2))) id
                      && bool_decide (e_jobRecords e !! kp.1 = None)) (map_to_list (e_preparedGoals e))
    || existsb (λ ks, String.eqb (sk_TenantId ks.1) tenant && bool_decide (si_State ks.2 = ScheduleStateActive)
                      && String.eqb (st_CellID (si_Target ks.2)) id) (map_to_list (e_schedules e))).
(** [RetireCell] *)
Definition RetireCell (ctx : Context) (req : RetireCellRequest) (now : time) (revision : string)
    : M ToyEngine Cell := λ e,
  let tenant := ce_TenantID (rc_CellKey req) in
  on_cells tenant (Retire ctx req (cell_busy tenant now e) now revision) e.

(** [cellParentLocked]: the cell of the job whose lease the caller proves. *)
Definition cellParentLocked (ctx : Context) (tenant : string) (now : time) (e : ToyEngine) : result (option Cell) :=
  match cx_Lease ctx with
  | None => Ok None
  | Some p =>
      let? _ := guard_err (String.eqb (jk_TenantId (lp_JobKey p)) tenant) (ErrCell ErrCellForbidden) in
      let? r := of_option ErrExecutionLeaseLost (e_jobRecords e !! lp_JobKey p) in
      let? _ := guard_err (negb (str_empty (lp_WorkerID p)) && holds_lease now (lp_LeaseID p) (lp_WorkerID p) r)
                  ErrExecutionLeaseLost in
      let? c := of_option ErrExecutionLeaseLost (cs_Cells (cellsLocked tenant e) !! rs_CellID (jr_cell r)) in
      let? _ := guard_err (bool_decide (c_State c = CellActive)) ErrExecutionLeaseLost in
      Ok (Some c)
  end.

(** The cell a schedule submits into, when the caller is one. *)
Definition schedule_parent (ctx : Context) (req : Preparation) (e : ToyEngine) : result (option Cell) :=
  match cx_Schedule ctx with
  | None => Ok None
  | Some k =>
      let? _ := guard_err (String.eqb (sk_TenantId k) (jk_TenantId (pp_Key req))) (ErrCell ErrCellForbidden) in
      let? s := of_option (ErrCell ErrCellNotFound) (e_schedules e !! k) in
      let? _ := guard_err (negb (bool_decide (si_State s = ScheduleStateArchived))) (ErrCell ErrCellNotFound) in
      let? c := of_option (ErrCell ErrCellNotFound)
                  (cs_Cells (cellsLocked (sk_TenantId k) e) !! st_CellID (si_Target s)) in
      let? _ := guard_err (String.eqb (c_Repo c) (st_CellRepo (si_Target s))
                           && String.eqb (pp_CellRepo req) (st_CellRepo (si_Target s)))
                  (ErrCell ErrCellRepoMismatch) in
      Ok (Some c)
  end.

(** [prepareCellLocked] *)
Definition prepareCellLocked (ctx : Context) (req : Preparation) (now : time) (e : ToyEngine) : result ResolvedCell :=
  let tenant := jk_TenantId (pp_Key req) in
  let? sched := schedule_parent ctx req e in
  let? lease := cellParentLocked ctx tenant now e in
  let parent := match sched with Some c => Some c | None => lease end in
  let own := match e_jobRecords e !! pp_Key req with
    | Some r => if str_empty (rs_CellID (jr_cell r)) then None else Some (jr_cell r)
    | None => None
    end in
  let? existing := match own with
    | Some c => Ok (Some c)
    | None =>
        if str_empty (pp_PriorJobID req) then Ok None
        else let? r := of_option ErrJobNotFound (e_jobRecords e !! mkJobKey tenant (pp_PriorJobID req)) in
             Ok (Some (jr_cell r))
    end in
  Resolve ctx tenant (pp_Cell req) (pp_CellRepo req) parent existing (bool_decide (is_Some own))
    (cellsLocked tenant e).

(** [publishCellLocked]: the target the reservation promised must still hold. *)
Definition publishCellLocked (ctx : Context) (key : JobKey) (now : time) (e : ToyEngine)
    : result (ResolvedCell * State) :=
  let? p := of_option (ErrCell ErrInvalidCell) (e_preparedGoals e !! key) in
  let? target := prepareCellLocked ctx (pg_Request p) now e in
  let? _ := guard_err (String.eqb (rs_CellID target) (rs_CellID (pp_Target (pg_Request p))))
              (ErrExistingJobMismatch "cell identity differs") in
  let? _ := guard_err (String.eqb (rs_CellRepo target) (rs_CellRepo (pp_Target (pg_Request p))))
              (ErrCell ErrCellRepoMismatch) in
  Ok (target, cellsLocked (jk_TenantId key) e).

(** [ResolveCellWithLeaseByID], [LookupCellWithLeaseByID], [CreateCellWithLeaseByID] *)
Definition ResolveCellWithLeaseByID (ctx : Context) (p : LeaseProof) (name : string) (now : time) (e : ToyEngine)
    : result ResolvedCell :=
  let tenant := jk_TenantId (lp_JobKey p) in
  let? parent := cellParentLocked (WithLease ctx p) tenant now e in
  let s := cellsLocked tenant e in
  let? _ := of_option (ErrCell ErrCellNotFound) (ByName s name) in
  Resolve (WithLease ctx p) tenant name "" parent None false s.
Definition LookupCellWithLeaseByID (ctx : Context) (p : LeaseProof) (name : string) (now : time) (e : ToyEngine)
    : result ResolvedCell :=
  let? _ := cellParentLocked (WithLease ctx p) (jk_TenantId (lp_JobKey p)) now e in
  Lookup name (cellsLocked (jk_TenantId (lp_JobKey p)) e).
Definition CreateCellWithLeaseByID (ctx : Context) (p : LeaseProof) (lease_principal : string)
    (req : CreateCellRequest) (now : time) (id revision : string) : M ToyEngine Cell := λ e,
  match cellParentLocked (WithLease ctx p) (jk_TenantId (lp_JobKey p)) now e with
  | Err err => (e, Err err)
  | Ok _ => on_cells (jk_TenantId (lp_JobKey p)) (CreateWithLease (WithLease ctx p) p lease_principal req now id revision) e
  end.

(** [cellHandleLocked] *)
Definition cellHandleLocked (key : JobKey) (r : jobRecord) (e : ToyEngine) : JobHandle :=
  let target := match cs_Cells (cellsLocked (jk_TenantId key) e) !! rs_CellID (jr_cell r) with
    | Some c => mkResolvedCell (c_Name c) (rs_CellID (jr_cell r)) (rs_CellRepo (jr_cell r))
    | None => jr_cell r
    end in
  Handle target key (jr_goalID r).

(** ** Reservations *)

(** A request ID seen before names the job it reserved. *)
Definition request_key (req : Preparation) : GoalKey := mkGoalKey (jk_TenantId (pp_Key req)) (pp_RequestID req).
Definition reserved_key (req : Preparation) (key : JobKey) (e : ToyEngine) : result JobKey :=
  if str_empty (pp_RequestID req) then Ok key
  else match e_goalRequests e !! request_key req with
  | Some prior =>
      let? _ := guard_err (str_empty (jk_JobId key) || bool_decide (key = prior))
                  (ErrExistingJobMismatch "destination differs") in
      Ok prior
  | None => Ok key
  end.

(** The reservation of a new identity: the goal is new, or shared with the job
    that is restarted. *)
Definition new_goal_id (req : Preparation) (key : JobKey) (fresh_goal : string) (e : ToyEngine) : result string :=
  if pp_ShareGoal req then
    let? source := of_option ErrJobNotFound (e_jobRecords e !! mkJobKey (jk_TenantId key) (pp_PriorJobID req)) in
    let? g := mem_Goal (goal_view e) (mkGoalKey (jk_TenantId key) (jr_goalID source)) in
    let? _ := guard_err (bool_decide (gi_State g = GoalOpen)) ErrGoalConflict in
    Ok (jr_goalID source)
  else Ok fresh_goal.

(** [PrepareJob]: [gen_job] is the engine's ID generator, [fresh_goal] the goal ID
    it would generate. *)
Definition PrepareJob (ctx : Context) (req : Preparation) (now : time) (gen_job : string → result JobKey)
    (fresh_goal : string) : M ToyEngine Prepared := λ e,
  match
    let? key0 := reserved_key req (pp_Key req) e in
    let req := req <| pp_Key := key0 |> in
    let? target := prepareCellLocked ctx req now e in
    let req := req <| pp_Target := target |> in
    let? key := reserved_key req key0 e in
    match e_preparedGoals e !! key with
    | Some old =>
        let oldreq := pg_Request old in
        let? _ := guard_err (String.eqb (rs_CellRepo (pp_Target oldreq)) (rs_CellRepo target)
                             && String.eqb (rs_CellID (pp_Target oldreq)) (rs_CellID target))
                    (ErrExistingJobMismatch "cell differs") in
        let? _ := guard_err (json_eqb (pp_Descriptor oldreq) (pp_Descriptor req)
                             && String.eqb (pp_RequestID oldreq) (pp_RequestID req))
                    (PreparationMismatch (pp_Descriptor oldreq) (pp_Descriptor req)) in
        Ok (None, mkPrepared target key (pg_GoalID old) (bool_decide (is_Some (e_jobRecords e !! key))))
    | None =>
        let? key := (if str_empty (jk_JobId key) then gen_job (jk_TenantId key) else Ok key) in
        let? _ := JobKey_Validate key in
        let? goalID := new_goal_id req key fresh_goal e in
        Ok (Some (req <| pp_Key := key |>), mkPrepared target key goalID false)
    end
  with
  | Err err => (e, Err err)
  | Ok (None, p) => (e, Ok p)
  | Ok (Some req', p) =>
      (e <| e_preparedGoals := <[pd_Key p := mkPreparedGoal req' (pd_GoalID p)]> (e_preparedGoals e) |>
         <| e_goalRequests := if str_empty (pp_RequestID req) then e_goalRequests e
                              else <[request_key req := pd_Key p]> (e_goalRequests e) |>, Ok p)
  end.

(** [DiscardJobPreparation] *)
Definition DiscardJobPreparation (key : JobKey) (e : ToyEngine) : ToyEngine :=
  if bool_decide (is_Some (e_jobRecords e !! key)) then e
  else match e_preparedGoals e !! key with
  | None => e
  | Some p =>
      e <| e_preparedGoals := delete key (e_preparedGoals e) |>
        <| e_goalRequests := if str_empty (pp_RequestID (pg_Request p)) then e_goalRequests e
             else delete (mkGoalKey (jk_TenantId key) (pp_RequestID (pg_Request p))) (e_goalRequests e) |>
  end.

(** ** Publication *)

(** The goal transitions of [publishGoalLocked]. *)
Definition publish_goals (key : JobKey) (p : preparedGoalJob) (r : jobRecord) (now : time) : M Memory () :=
  let gk := mkGoalKey (jk_TenantId key) (pg_GoalID p) in
  do! (if pp_ShareGoal (pg_Request p) then
         let! g := m_read (λ s, mem_Goal s gk) in
         m_read (λ _, guard_err (bool_decide (gi_State g = GoalOpen)) ErrGoalConflict)
       else
         m_write (λ s, mem_SaveGoal s (mkGoalInfo (rs_Cell (jr_cell r)) (rs_CellID (jr_cell r))
           (rs_CellRepo (jr_cell r)) gk GoalOpen 1 "" None (jr_createdAt r) (jr_createdAt r) None))) in
  do! (if bool_decide (length (pp_Dependencies (pg_Request p)) = 0) then m_ret tt
       else do! Register now key (mkDependencyWait "submission" (pp_Dependencies (pg_Request p)) None) true in
            m_ret tt) in
  m_read (CheckCycle now (jk_TenantId key) (mkTarget "" (pg_GoalID p))).

(** [publishGoalLocked]: the record is already in the table; on success it gets
    its cell, goal and wait, and goals and cells are committed. *)
Definition publishGoalLocked (ctx : Context) (key : JobKey) (r : jobRecord) (now : time) (e : ToyEngine)
    : result ToyEngine :=
  let? p := of_option (ErrCell ErrInvalidCell) (e_preparedGoals e !! key) in
  let? tc := publishCellLocked ctx key now e in
  let r := r <| jr_cell := tc.1 |> <| jr_goalID := pg_GoalID p |> <| jr_key := key |> in
  let res := publish_goals key p r now (goal_view (put_record key r e)) in
  let? _ := res.2 in
  let r := if bool_decide (length (pp_Dependencies (pg_Request p)) = 0) then r
           else r <| jr_dependencyWaitID := "submission" |> in
  let e := put_goals res.1 (put_record key r e) in
  Ok (e <| e_cells := <[jk_TenantId key := tc.2]> (e_cells e) |>).

(** The insertion section of [submitJobWithParent] and of
    [submitScheduledOccurrenceWithJobID]: an existing job wins; otherwise record,
    goal and first chapter appear together. *)
Definition publish_job (ctx : Context) (key : JobKey) (r : jobRecord) (start : Chapter) (now : time)
    : M ToyEngine JobHandle := λ e,
  match e_jobRecords e !! key with
  | Some existing => (e, Ok (cellHandleLocked key existing e))
  | None =>
      let e1 := put_record key r e in
      match publishGoalLocked ctx key r now e1 with
      | Err err => (e1 <| e_jobRecords := delete key (e_jobRecords e1) |>, Err err)
      | Ok e2 =>
          let e3 := put_chapter key 0 start e2 in
          (e3, Ok match e_jobRecords e3 !! key with
                  | Some r => Handle (jr_cell r) key (jr_goalID r)
                  | None => Handle (jr_cell r) key (jr_goalID r)
                  end)
      end
  end.

(** The record of a new job, before publication. *)
Definition blank_cell : ResolvedCell := mkResolvedCell "" "" "".
Definition new_record (jobType : string) (payload : option string) (revision : Z) (digest : string)
    (metadata runPolicy : json) (status : JobStatus) (waitFor : list string) (availableAt now : time)
    (chapters : gmap Z toyChapter) : jobRecord :=
  {| jr_cell := blank_cell; jr_key := mkJobKey "" ""; jr_goalID := ""; jr_dependencyWaitID := "";
     jr_hidden := false; jr_clientPayload := payload; jr_clientPayloadRevision := revision;
     jr_initialPayloadDigest := digest; jr_leaseExpiresAt := 0; jr_leaseWorkerID := "";
     jr_status := status; jr_result := None; jr_err := None; jr_cancelled := false; jr_finished := 0;
     jr_jobType := jobType; jr_createdAt := now; jr_archived := None; jr_payload := mkPayload runPolicy None;
     jr_metadata := metadata; jr_completionDetail := ""; jr_completionStatus := "";
     jr_route := mkRoute jobType ""; jr_alternateRoute := None; jr_alternateAt := 0; jr_step := 0;
     jr_waitFor := waitFor; jr_availableAt := availableAt; jr_waitDeadline := 0; jr_leased := false;
     jr_leaseID := ""; jr_chapters := chapters; jr_consecutiveExpirations := 0 |}.
(** The record's own view of the first step. *)
Definition start_step (jobType : string) (now : time) (data : option TaskData) : gmap Z toyChapter :=
  {[0%Z := mkToyChapter jobType now data data 1 None]}.

(** What a submission carries into the insertion section. *)
Record NewJob := mkNewJob {
  nj_JobType : string; nj_ClientPayload : option string; nj_Revision : Z; nj_Digest : string;
  nj_Metadata : json; nj_RunPolicy : json; nj_Data : option TaskData; nj_CreatedAt : time
}.
(** The first chapter of a job. *)
Definition start_chapter (j : NewJob) (input inputHash : string) (metadata : json) (artifacts : list StoredArtifact)
    : Chapter :=
  mkChapter 0 (nj_JobType j) (Some (JobStartChapter input)) inputHash (nj_CreatedAt j) metadata artifacts.
(** The record [submitJobWithParent] builds. *)
Definition submitted_record (j : NewJob) (availableAt : option time) : jobRecord :=
  let at_ := default (nj_CreatedAt j) availableAt in
  new_record (nj_JobType j) (nj_ClientPayload j) (nj_Revision j) (nj_Digest j) (nj_Metadata j) (nj_RunPolicy j)
    (if After at_ (nj_CreatedAt j) then JobStatusAwaitingFuture else JobStatusReady) [] at_ (nj_CreatedAt j)
    (start_step (nj_JobType j) (nj_CreatedAt j) (nj_Data j)).
(** The record [submitScheduledOccurrenceWithJobID] builds. *)
Definition scheduled_record (j : NewJob) (scheduledAt : time) (previousJobID overlap : string) : jobRecord :=
  let waitFor := if negb (str_empty previousJobID) && String.eqb overlap "serial" then [previousJobID] else [] in
  let status := if bool_decide (waitFor = [])
    then if After scheduledAt (nj_CreatedAt j) then JobStatusAwaitingFuture else JobStatusReady
    else JobStatusPendingJobs in
  new_record (nj_JobType j) (nj_ClientPayload j) (nj_Revision j) (nj_Digest j) (nj_Metadata j) (nj_RunPolicy j)
    status waitFor scheduledAt (nj_CreatedAt j) (start_step (nj_JobType j) (nj_CreatedAt j) (nj_Data j)).
End submit.
