(* ===== verification/ToySchedule.v ===== *)
(** * ToySchedule: schedules in the runtime

    [toyimpl/schedule.go] and [toyimpl/schedule_preflight.go]: creating and changing
    schedules, submitting their occurrences, and the preflight that decides whether
    a worker gets the occurrence it has just leased.  Acquisition is completed
    here: [PollWork] and [GetJobLease] run the preflight on what they acquired. *)

From stdpp Require Import pretty.
From S2P Require Import Prelude Types GoalStore GoalEngine Json ClientPayload Cells CellState Metadata Chapters Digest Schedule ScheduleRuns.
From S2P Require Import ToyState ToyLease ToyChapters ToyPrepare ToySubmit.

(** The request's own time, or else the clock. *)
Definition request_time (requested clock : time) : time := if IsZero requested then clock else requested.

(** An operation whose failure is followed by a clean-up. *)
Definition on_error {S A} (cleanup : S → S) (m : M S A) : M S A := λ s,
  match m s with
  | (s', Ok a) => (s', Ok a)
  | (s', Err e) => (cleanup s', Err e)
  end.

Definition put_schedule (k : ScheduleKey) (s : ScheduleInfo) (e : ToyEngine) : ToyEngine :=
  e <| e_schedules := <[k := s]> (e_schedules e) |>.

Section schedule.
Context `{CellText} `{RangeOrder} `{FloatText} `{ChapterChecks} `{TimeZones} `{ScheduleText} `{JSONDecoding}.

(** [GetSchedule] *)
Definition GetSchedule (k : ScheduleKey) (e : ToyEngine) : result ScheduleInfo :=
  of_option ErrJobNotFound (e_schedules e !! k).

(** ** Changing schedules *)
Definition state_eqb (a b : ScheduleState) : bool := bool_decide (a = b).

(** The first job of a generation, if the schedule is active and fires. *)
Definition next_job (k : ScheduleKey) (state : ScheduleState) (generation : Z) (next : option time) : option JobKey :=
  if state_eqb state ScheduleStateActive
  then (λ t, mkJobKey (sk_TenantId k) (ScheduleRunJobID (sk_ScheduleId k) generation t)) <$> next
  else None.

(** The critical section of [UpsertSchedule]. *)
Definition upsert_info (req : UpsertScheduleRequest) (target : ScheduleTarget) (spec : string)
    (next : option time) (now : time) (existing : option ScheduleInfo) : ScheduleInfo :=
  let key := mkScheduleKey (us_TenantId req) (us_ScheduleId req) in
  let state := if us_Paused req then ScheduleStatePaused else ScheduleStateActive in
  let generation := match existing with Some i => (si_Generation i + 1)%Z | None => 1%Z end in
  {| si_PauseReason := ""; si_TenantId := us_TenantId req; si_ScheduleId := us_ScheduleId req;
     si_State := state; si_EffectiveState := state; si_Generation := generation; si_SpecHash := spec;
     si_Trigger := us_Trigger req; si_Target := target;
     si_OverlapPolicy := NormalizeScheduleOverlapPolicy (us_OverlapPolicy req);
     si_FailurePolicy := us_FailurePolicy req; si_NextFireAt := next;
     si_NextJobKey := next_job key state generation next;
     si_CreatedAt := match existing with Some i => si_CreatedAt i | None => now end; si_UpdatedAt := now |}.
Definition upsert_section (ctx : Context) (req : UpsertScheduleRequest) (target : ScheduleTarget)
    (next : option time) (now : time) : M ToyEngine ScheduleInfo := λ e,
  let tenant := us_TenantId req in
  let key := mkScheduleKey tenant (us_ScheduleId req) in
  match
    let cells := cellsLocked tenant e in
    let? _ := of_option (ErrCell ErrCellNotFound) (ByName cells (st_Cell (us_Target req))) in
    let? binding := Resolve ctx tenant (st_Cell (us_Target req)) (st_CellRepo (us_Target req)) None None false cells in
    let target := target <| st_Cell := rs_Cell binding |> <| st_CellID := rs_CellID binding |>
                         <| st_CellRepo := rs_CellRepo binding |> in
    let? spec := ScheduleSpecHash (us_Trigger req) target (us_OverlapPolicy req) (us_FailurePolicy req) in
    let existing := e_schedules e !! key in
    let? _ := guard_err match existing with
        | Some i => negb (state_eqb (si_State i) ScheduleStateArchived) | None => true end ErrConflict in
    let? _ := guard_err match us_ExpectedGeneration req, existing with
        | Some g, Some i => (si_Generation i =? g)%Z
        | Some _, None => false
        | None, _ => true
        end ErrConflict in
    Ok (upsert_info req target spec next now existing)
  with
  | Err err => (e, Err err)
  | Ok info => (put_schedule key info e, Ok info)
  end.

(** The critical section of [mutateScheduleState]: a resumed schedule's cell must
    still be the one it was made for.  The pause reason is already cleared when
    the trigger turns out to have no fire time to compute. *)
Definition resume_check (ctx : Context) (tenant : string) (t : ScheduleTarget) (e : ToyEngine) : result () :=
  match cs_Cells (cellsLocked tenant e) !! st_CellID t with
  | None => Err (ErrCell ErrCellNotFound)
  | Some c =>
      let? _ := guard_err (bool_decide (c_State c = CellActive)) (ErrCell ErrCellRetired) in
      let? _ := guard_err (String.eqb (c_Repo c) (st_CellRepo t)) (ErrCell ErrCellRepoMismatch) in
      AuthorizeCell ctx tenant (c_ID c) "jobs.submit"
  end.
Definition mutated_info (key : ScheduleKey) (state : ScheduleState) (next : option time) (now : time) (i : ScheduleInfo)
    : ScheduleInfo :=
  let active := state_eqb state ScheduleStateActive in
  let generation := (si_Generation i + 1)%Z in
  i <| si_State := state |> <| si_EffectiveState := state |> <| si_Generation := generation |>
    <| si_UpdatedAt := now |> <| si_NextFireAt := if active then next else None |>
    <| si_NextJobKey := next_job key state generation next |>.
Definition mutate_section (ctx : Context) (req : ScheduleMutationRequest) (state : ScheduleState) (now : time)
    : M ToyEngine ScheduleInfo := λ e,
  let key := sm_ScheduleKey req in
  match e_schedules e !! key with
  | None => (e, Err ErrJobNotFound)
  | Some i =>
      if match sm_ExpectedGeneration req with Some g => negb (si_Generation i =? g)%Z | None => false end
      then (e, Err ErrConflict)
      else if state_eqb (si_State i) ScheduleStateArchived && negb (state_eqb state ScheduleStateArchived)
      then (e, Err ErrConflict)
      else match (if state_eqb state ScheduleStateActive then resume_check ctx (sk_TenantId key) (si_Target i) e
                  else Ok tt) with
      | Err err => (e, Err err)
      | Ok _ =>
          let i := if state_eqb state ScheduleStateActive then i <| si_PauseReason := "" |> else i in
          match InitialScheduleFire (si_Trigger i) now with
          | Err err => (put_schedule key i e, Err err)
          | Ok next => let i := mutated_info key state next now i in (put_schedule key i e, Ok i)
          end
      end
  end.

(** Both sections change the schedules and nothing else. *)
Lemma same_schedules (e : ToyEngine) : e = e <| e_schedules := e_schedules e |>.
Proof. by destruct e. Qed.
Lemma upsert_schedules ctx req target next now e :
  ∃ m, (upsert_section ctx req target next now e).1 = e <| e_schedules := m |>.
Proof.
  unfold upsert_section. destruct (rbind _ _) as [info|]; [by eexists|].
  exists (e_schedules e). apply same_schedules.
Qed.
Lemma mutate_schedules ctx req state now e :
  ∃ m, (mutate_section ctx req state now e).1 = e <| e_schedules := m |>.
Proof.
  assert (∃ m, e = e <| e_schedules := m |>) as Hsame by (eexists; apply same_schedules).
  unfold mutate_section. destruct (e_schedules e !! _) as [i|]; [|exact Hsame].
  destruct (match sm_ExpectedGeneration req with Some _ => _ | None => _ end); [exact Hsame|].
  destruct (_ && _); [exact Hsame|]. destruct (if state_eqb state _ then _ else _); [|exact Hsame].
  destruct (InitialScheduleFire _ _); by eexists.
Qed.

(** ** Occurrences *)

(** The submission of an occurrence's job. *)
Definition occurrence_job (i : ScheduleInfo) (jobID : string) : SubmitJob :=
  let t := si_Target i in
  mkSubmitJob (st_Cell t) (st_CellRepo t) [] None (si_TenantId i) (st_JobType t) jobID (st_Data t) (st_RunPolicy t)
    (st_Metadata t) None None [].
Definition occurrence_metadata (i : ScheduleInfo) (scheduledAt : time) (previousJobID failureBits : string)
    : ScheduleOccurrenceMetadata :=
  let window := fp_WindowSize (si_FailurePolicy i) in
  mkOccurrence (si_ScheduleId i) "" (si_Generation i) (si_SpecHash i) scheduledAt "" false "" previousJobID
    (mkHistory failureBits (if (window <=? 0)%Z then Z.of_nat (String.length failureBits) else window)).

(** What is prepared between the reservation and the insertion. *)
Definition prepare_occurrence (i : ScheduleInfo) (key : JobKey) (scheduledAt : time)
    (previousJobID failureBits : string) (manual : bool) (now : time) : M ToyEngine (NewJob * Chapter) :=
  let t := si_Target i in
  let! metadata := m_read (λ _, MergeScheduleOccurrenceMetadata (st_Metadata t)
    (occurrence_metadata i scheduledAt previousJobID failureBits) manual) in
  let! data := m_read (λ _, of_option (ErrMsg "target data is required") (st_Data t)) in
  let! copied := materializeTaskData key 0 data in
  let! hash := m_read (λ _, jobdbInputHash (Some copied.1)) in
  let! initial := m_read (λ _, Initial (st_ClientPayloadUpdate t)) in
  let! digest := m_read (λ _, Digest sha256_hex initial.1) in
  let input := ti_Data copied.1 in
  let j := mkNewJob (st_JobType t) initial.1 initial.2 digest (default (JObj []) metadata) (st_RunPolicy t)
             (Some (mkTaskData (JobStartChapter input) copied.2)) now in
  let start := start_chapter j input hash (start_metadata (st_JobType t) hash (st_RunPolicy t) now []) copied.2 in
  do! m_read (λ _, ValidateChapterApplicationPayload start) in
  m_ret (j, start).

(** An occurrence names its job: no ID is generated. *)
Definition no_generated_key (tenant : string) : result JobKey := Err (ErrMsg "job id is required").

(** [submitScheduledOccurrenceWithJobID]: a failure gives the reservation back. *)
Definition submitScheduledOccurrenceWithJobID (ctx : Context) (i : ScheduleInfo) (jobID : string) (scheduledAt : time)
    (previousJobID failureBits : string) (manual : bool) (now : time) (fresh_goal : string) : M ToyEngine JobKey :=
  let key := mkJobKey (si_TenantId i) jobID in
  let ctx := WithSchedule ctx (info_key i) in
  let! prep := m_read (λ _, SubmitPreparation (occurrence_job i jobID) "") in
  do! PrepareJob ctx prep now no_generated_key fresh_goal in
  on_error (DiscardJobPreparation key)
    (let! prepared := prepare_occurrence i key scheduledAt previousJobID failureBits manual now in
     do! publish_job ctx key (scheduled_record prepared.1 scheduledAt previousJobID (si_OverlapPolicy i)) prepared.2 now in
     m_ret key).
(** [submitScheduledOccurrence] *)
Definition submitScheduledOccurrence (ctx : Context) (i : ScheduleInfo) (scheduledAt : time)
    (previousJobID failureBits : string) (now : time) (fresh_goal : string) : M ToyEngine JobKey :=
  submitScheduledOccurrenceWithJobID ctx i (ScheduleRunJobID (si_ScheduleId i) (si_Generation i) scheduledAt)
    scheduledAt previousJobID failureBits false now fresh_goal.

(** ** Operations on schedules *)

(** The first occurrence of a new generation. *)
Definition submit_first (ctx : Context) (i : ScheduleInfo) (now : time) (fresh_goal : string)
    : M ToyEngine ScheduleInfo :=
  match si_NextFireAt i with
  | Some t =>
      if state_eqb (si_State i) ScheduleStateActive
      then do! submitScheduledOccurrence ctx i t "" "" now fresh_goal in m_ret i
      else m_ret i
  | None => m_ret i
  end.

(** [UpsertSchedule]; [clock] is read when the request names no time. *)
Definition UpsertSchedule (ctx : Context) (req : UpsertScheduleRequest) (clock : time) (fresh_goal : string)
    : M ToyEngine ScheduleInfo :=
  let now := request_time (us_RequestTime req) clock in
  let! prepared := m_read (λ _,
    let? _ := ValidateScheduleRequest req in
    let? _ := ValidateSubmissionApplicationPayload (st_JobType (us_Target req)) (st_Data (us_Target req)) in
    let? target := snapshotScheduleTarget (us_Target req) in
    let? _ := ScheduleSpecHash (us_Trigger req) target (us_OverlapPolicy req) (us_FailurePolicy req) in
    let? next := InitialScheduleFire (us_Trigger req) now in
    Ok (target, next)) in
  let! info := upsert_section ctx req prepared.1 prepared.2 now in
  submit_first ctx info clock fresh_goal.

(** [mutateScheduleState], for the three state changes *)
Definition mutateScheduleState (ctx : Context) (req : ScheduleMutationRequest) (state : ScheduleState)
    (submitFirst : bool) (clock : time) (fresh_goal : string) : M ToyEngine ScheduleInfo :=
  let! info := mutate_section ctx req state (request_time (sm_RequestTime req) clock) in
  if submitFirst then submit_first ctx info clock fresh_goal else m_ret info.
Definition PauseSchedule (ctx : Context) (req : ScheduleMutationRequest) (clock : time) (fresh_goal : string) :=
  mutateScheduleState ctx req ScheduleStatePaused false clock fresh_goal.
Definition ResumeSchedule (ctx : Context) (req : ScheduleMutationRequest) (clock : time) (fresh_goal : string) :=
  mutateScheduleState ctx req ScheduleStateActive true clock fresh_goal.
Definition ArchiveSchedule (ctx : Context) (req : ScheduleMutationRequest) (clock : time) (fresh_goal : string) :=
  mutateScheduleState ctx req ScheduleStateArchived false clock fresh_goal.

(** [TriggerSchedule]; the handle is the one [GetJob] reports. *)
Definition TriggerSchedule (ctx : Context) (req : TriggerScheduleRequest) (clock : time) (fresh_goal : string)
    : M ToyEngine JobHandle :=
  let! info := m_read (GetSchedule (ts_ScheduleKey req)) in
  do! m_read (λ _, guard_err (negb (state_eqb (si_State info) ScheduleStateArchived)) ErrConflict) in
  let now := request_time (ts_RequestTime req) clock in
  let! key := submitScheduledOccurrenceWithJobID ctx info (ScheduleManualJobID (si_ScheduleId info) (ts_RequestID req) clock)
                now "" "" true clock fresh_goal in
  m_read (λ e, let? r := of_option ErrJobNotFound (e_jobRecords e !! key) in Ok (cellHandleLocked key r e)).

(** ** The preflight of a scheduled lease *)

(** [scheduleCancelDetail], [cancellationForOccurrence] *)
Record scheduleCancelDetail := mkCancelDetail {
  cd_ReasonCode : string; cd_Message : string; cd_ScheduleId : string; cd_ExpectedGeneration : Z;
  cd_ActualGeneration : Z; cd_ExpectedSpecHash : string; cd_ActualSpecHash : string; cd_ScheduledAt : time
}.
Definition cancellationForOccurrence (o : ScheduleOccurrenceMetadata) (reason message : string) (generation : Z)
    (spec : string) : scheduleCancelDetail :=
  mkCancelDetail reason message (om_ScheduleId o) (om_Generation o) generation (om_SpecHash o) spec (om_ScheduledAt o).
(** Its text lists the members in the order of the struct. *)
Definition detail_text (d : scheduleCancelDetail) : string :=
  Marshal (JObj ([("kind", JStr "schedule_preflight_outcome"); ("status", JStr "cancelled");
                  ("reasonCode", JStr (cd_ReasonCode d))]
    ++ omit_string "message" (cd_Message d) ++ omit_string "scheduleId" (cd_ScheduleId d)
    ++ omit_int "expectedGeneration" (cd_ExpectedGeneration d) ++ omit_int "actualGeneration" (cd_ActualGeneration d)
    ++ omit_string "expectedSpecHash" (cd_ExpectedSpecHash d) ++ omit_string "actualSpecHash" (cd_ActualSpecHash d)
    ++ [("scheduledAt", JStr (time_text (cd_ScheduledAt d)))])).

(** [schedulePreflightCancelChapter] *)
Definition schedulePreflightCancelChapter (taskType : string) (d : scheduleCancelDetail) (now : time) : Chapter :=
  mkChapter 1 taskType
    (Some (JobAttemptOutcomeChapter (SystemErrorOutcome
       (mkSystemError (cd_Message d) "jobdb.schedule_preflight" (cd_ReasonCode d))))) "" now (JObj []) [].

(** [runtimeLease.Complete] and [cancelScheduledLease] *)
Definition lease_Complete (l : runtimeLease) (req : CompleteExecutionRequest) (now : time) : M ToyEngine () :=
  do! m_read (λ _, checkExpiry now l) in
  completeLease (l_jobKey l) (l_leaseID l) (l_workerID l) req now now.
Definition cancelScheduledLease (l : runtimeLease) (d : scheduleCancelDetail) (now : time) : M ToyEngine bool :=
  do! lease_Complete l (mkComplete None "cancelled" (detail_text d)
        (Some (schedulePreflightCancelChapter (r_JobType (l_route l)) d now)) []) now in
  m_ret false.

(** [previousJobSucceeded] *)
Definition previousJobSucceeded (tenant job : string) (e : ToyEngine) : bool :=
  match e_jobRecords e !! mkJobKey tenant job with
  | Some r => bool_decide (jr_status r = JobStatusCompleted) && negb (jr_cancelled r)
  | None => false
  end.

(** What the checks of [preflightScheduleLease] conclude. *)
Inductive verdict :=
  | Run
  | Refuse (d : scheduleCancelDetail)
  | Continue (i : ScheduleInfo) (failureBits : string).

(** The checks of an occurrence against its schedule. *)
Definition occurrence_verdict (tenant : string) (o : ScheduleOccurrenceMetadata) (e : ToyEngine) : verdict :=
  match GetSchedule (mkScheduleKey tenant (om_ScheduleId o)) e with
  | Err _ => Refuse (cancellationForOccurrence o "schedule_missing" "schedule missing before app start" 0 "")
  | Ok i =>
      let refuse reason message := Refuse (cancellationForOccurrence o reason message (si_Generation i) (si_SpecHash i)) in
      if String.eqb (si_PauseReason i) "cell_repo_mismatch" then Run
      else if state_eqb (si_State i) ScheduleStatePaused then refuse "schedule_paused" "schedule paused before app start"
      else if state_eqb (si_State i) ScheduleStateArchived
      then refuse "schedule_archived" "schedule archived before app start"
      else if negb (si_Generation i =? om_Generation o)%Z
      then refuse "schedule_generation_mismatch" "schedule generation changed before app start"
      else if negb (String.eqb (si_SpecHash i) (om_SpecHash o))
      then refuse "schedule_spec_mismatch" "schedule spec changed before app start"
      else
        let h := om_FailureHistory o in
        let window := if (fp_WindowSize (si_FailurePolicy i) <=? 0)%Z then fh_WindowSize h
                      else fp_WindowSize (si_FailurePolicy i) in
        let bits := if str_empty (om_PreviousJobId o) then fh_Bits h
                    else AppendScheduleFailureBit (fh_Bits h) (previousJobSucceeded tenant (om_PreviousJobId o) e) window in
        if ScheduleFailurePolicyViolated bits (si_FailurePolicy i)
        then refuse "failure_policy" "schedule failure policy blocked this occurrence"
        else Continue i bits
  end.
(** A job with more than its start chapter has started; it runs whatever became
    of the schedule. *)
Definition preflight_verdict (key : JobKey) (e : ToyEngine) : result verdict :=
  let? r := of_option ErrJobNotFound (e_jobRecords e !! key) in
  let? occ := ExtractScheduleOccurrenceMetadata (jr_metadata r) in
  match occ with
  | None => Ok Run
  | Some o => if (1 <? size (chapters_of key e))%nat then Ok Run else Ok (occurrence_verdict (jk_TenantId key) o e)
  end.

(** [preflightScheduleLease]: whether the worker gets the lease. *)
Definition preflightScheduleLease (ctx : Context) (l : runtimeLease) (now : time) (fresh_goal : string)
    : M ToyEngine bool :=
  let! v := m_read (preflight_verdict (l_jobKey l)) in
  match v with
  | Run => m_ret true
  | Refuse d => cancelScheduledLease l d now
  | Continue i bits =>
      let! next := m_read (λ _, NextScheduleFire (si_Trigger i) now) in
      match next with
      | Some t => do! submitScheduledOccurrence ctx i t (jk_JobId (l_jobKey l)) bits now fresh_goal in m_ret true
      | None => m_ret true
      end
  end.

(** ** Acquisition *)

(** [GetJobLease] *)
Definition GetJobLease (ctx : Context) (req : GetJobLeaseRequest) (now : time) (id fresh_goal : string)
    : M ToyEngine (option runtimeLease) :=
  let! found := acquire_job ctx req now id in
  match found with
  | None => m_ret None
  | Some l => let! ok := preflightScheduleLease ctx l now fresh_goal in m_ret (if ok then Some l else None)
  end.

(** [PollWork]: the first preflight that fails fails the request. *)
Fixpoint preflight_all (ctx : Context) (ls : list runtimeLease) (now : time) (fresh_goal : nat → string)
    : M ToyEngine (list runtimeLease) :=
  match ls with
  | [] => m_ret []
  | l :: ls =>
      let! ok := preflightScheduleLease ctx l now (fresh_goal (length ls)) in
      let! rest := preflight_all ctx ls now fresh_goal in
      m_ret (if ok then l :: rest else rest)
  end.
Definition PollWork (ctx : Context) (req : PollWorkRequest) (now : time) (new_id fresh_goal : nat → string)
    : M ToyEngine (list runtimeLease) :=
  let! ls := acquire_ready ctx req now new_id in preflight_all ctx ls now fresh_goal.
End schedule.
