(* ===== verification/DelegationServer.v ===== *)
(** * DelegationServer: requests under a restricted lease

    [remote/delegation_server.go]: the boundary every HTTP request with a grant
    passes before it is routed, and the operations that filter by the policy.  The
    runtime behind the server is a parameter: what it says of a lease, and its
    chapters.  So are the decoders of request bodies, whose types are generated. *)

From S2P Require Import Prelude Types Json Cells Schedule ToyState ToyLease.
From S2P Require Import Base64 Delegation Grants.
Open Scope Z_scope.

(** ** Paths and numbers of a request *)

(** [strings.Split(s, "/")] *)
Definition slash (a : Ascii.ascii) : bool := (Ascii.N_of_ascii a =? 47)%N.
Fixpoint split_path (s : string) : list string :=
  match s with
  | EmptyString => [""]
  | String a s =>
      if slash a then "" :: split_path s
      else match split_path s with p :: ps => String a p :: ps | [] => [String a ""] end
  end.
(** [strings.Join(p, "/")] *)
Fixpoint join_path (p : list string) : string :=
  match p with
  | [] => ""
  | [s] => s
  | s :: p => s +:+ String (Ascii.ascii_of_N 47) (join_path p)
  end.

(** [url.PathUnescape] *)
Fixpoint PathUnescape (s : string) : option string :=
  match s with
  | EmptyString => Some EmptyString
  | String a rest =>
      if (Ascii.N_of_ascii a =? 37)%N then
        match rest with
        | String h (String l rest) =>
            x ← hex_digit h; y ← hex_digit l; out ← PathUnescape rest;
            Some (String (Ascii.ascii_of_N (x * 16 + y)) out)
        | _ => None
        end
      else out ← PathUnescape rest; Some (String a out)
  end.

(** ** What the server is given *)
Record WritableChapter := mkWritable {
  wc_Ordinal : Z; wc_TaskType : string; wc_TaskOutcome : bool; wc_Uploads : list string; wc_Artifacts : list string
}.
Record SubmitBody := mkSubmitBody { sb_Cell : string; sb_JobType : string; sb_InlineSchema : bool }.
Class RequestBodies := {
  name_body : string → option string;
  cell_body : string → option string;
  chapter_body : string → option WritableChapter;
  submit_body : string → option SubmitBody
}.
(** [ValidateExecutionLeaseByID] of the runtime, at a time. *)
Class LeaseChecker := lease_validity : time → JobKey → string → string → result LeaseValidity.

Record Request := mkRequest {
  rq_Method : string; rq_Tokens : list string; rq_Path : string; rq_Body : option string
}.

(** ** Answers

    An error of the server package has a status and a code; any other error that
    reaches [writeDelegationError] writes nothing, and the response stays empty. *)
Inductive refusal :=
  | DelegationError (status : Z) (code : string)
  | PlainError (e : error).
Definition delegationDenied : refusal := DelegationError 403 "lease_permission_denied".
Definition invalid_request : refusal := DelegationError 400 "invalid_delegation_request".

Section server.
Context `{CellText} `{Macaroons} `{GrantKeys} `{GrantText} `{RequestBodies} `{LeaseChecker}.

(** [parentValidity]: the lease of the grant must still be live, in the cell it was
    granted for. *)
Definition parentValidity (p : leaseTokenClaims) (now : time) : LeaseValidity + refusal :=
  match lease_validity now (mkJobKey (lc_TenantID p) (lc_JobID p)) (lc_LeaseID p) (lc_WorkerID p) with
  | Err (ErrExecutionLeaseLost | ErrJobNotFound) => inr (DelegationError 409 "execution_lease_lost")
  | Err _ => inr (DelegationError 503 "delegation_unavailable")
  | Ok v =>
      if str_empty (rs_CellID (lc_Cell p)) || negb (String.eqb (rs_CellID (lc_Cell p)) (rs_CellID (lv_Cell v)))
         || negb (String.eqb (rs_CellRepo (lc_Cell p)) (rs_CellRepo (lv_Cell v)))
      then inr (PlainError ErrExecutionLeaseLost)
      else if negb (After (lv_ExpiresAt v) now) then inr (DelegationError 409 "execution_lease_lost")
      else inl v
  end.

(** [checkedDelegation] *)
Definition delegation_key (c : delegationClaims) : JobKey := mkJobKey (lc_TenantID (de_Parent c)) (lc_JobID (de_Parent c)).
Definition live_claims (c : delegationClaims) (v : LeaseValidity) : delegationClaims :=
  (setExpiry (lv_ExpiresAt v) c) <| de_Route := lv_Route v |> <| de_GoalID := lv_GoalID v |>
    <| de_Parent := (de_Parent c) <| lc_Cell := lv_Cell v |> |>.
Definition checkedDelegation (s : leaseTokenSigner) (token : string) (key : JobKey) (leaseID : string) (now : time)
    : delegationClaims + refusal :=
  match parseDelegation s token with
  | Err _ => inr (DelegationError 401 "invalid_delegation_credential")
  | Ok c =>
      if negb (bool_decide (delegation_key c = key) && String.eqb (lc_LeaseID (de_Parent c)) leaseID)
      then inr (DelegationError 401 "invalid_delegation_credential") else
      match parentValidity (de_Parent c) now with
      | inr e => inr e
      | inl v =>
          if negb (opt_all (λ t, After t now) (di_NotAfter (de_Grant c)))
          then inr (DelegationError 403 "delegation_deadline_reached")
          else inl (live_claims c v)
      end
  end.

(** ** The boundary ([prepareDelegationRequest]) *)

(** Whether the policy has anything to do with the operation at all.
    [strconv.ParseInt(s, 10, 64)] reads what [strconv.Atoi] reads. *)
Definition operation_allowed (policy : DelegationPermissions) (method : string) (p : list string) : bool :=
  let suffix := join_path (drop 8 p) in
  let get := String.eqb method "GET" in let post := String.eqb method "POST" in
  let nested (name : string) := bool_decide (length p = 10%nat) && String.eqb (default "" (p !! 8%nat)) name in
  if get && bool_decide (length p = 8%nat) then true
  else if get && String.eqb suffix "chapters" then bool_decide (is_Some (dp_Read policy))
  else if get && nested "chapters" then
    match Atoi (default "" (p !! 9%nat)) with Some n => chaptersAllow (dp_Read policy) n | None => false end
  else if post && String.eqb suffix "secrets/resolve" then (0 <? length (dp_Secrets policy))%nat
  else if post && String.eqb suffix "add_chapter" then bool_decide (is_Some (dp_Write policy))
  else if post && String.eqb suffix "cells/resolve" then bool_decide (is_Some (dp_Submit policy))
  else if post && String.eqb suffix "cells/lookup" then true
  else if post && String.eqb suffix "cells" then bool_decide (is_Some (dp_CreateCells policy))
  else if post && String.eqb suffix "jobs" then
    match dp_Submit policy with Some s => dn_Any (ds_JobIDs s) | None => false end
  else if String.eqb method "PUT" && nested "jobs" then
    match PathUnescape (default "" (p !! 9%nat)), dp_Submit policy with
    | Some id, Some s => namesAllow (ds_JobIDs s) id
    | _, _ => false
    end
  else false.

(** Whether the body stays within the selectors; [None] admits it. *)
Definition cell_selector (policy : DelegationPermissions) (cell : string) : bool :=
  match dp_Submit policy with Some s => opt_all (λ c, namesAllow c cell) (ds_CellNames s) | None => false end.
Definition body_refusal (policy : DelegationPermissions) (suffix raw : string) : option refusal :=
  if String.eqb suffix "cells" then
    match name_body raw with
    | Some name =>
        if negb (is_ok (ValidateCellName name)) then Some invalid_request
        else if match dp_CreateCells policy with Some s => namesAllow s name | None => false end then None
        else Some delegationDenied
    | None => Some invalid_request
    end
  else if String.eqb suffix "cells/resolve" then
    match cell_body raw with
    | Some cell =>
        if negb (is_ok (ValidateCellName cell)) then Some invalid_request
        else if cell_selector policy cell then None else Some delegationDenied
    | None => Some invalid_request
    end
  else if String.eqb suffix "add_chapter" then
    match chapter_body raw, dp_Write policy with
    | Some ch, Some w =>
        if negb (Contains (dw_Ordinals w) (wc_Ordinal ch)) || negb (namesAllow (dw_TaskTypes w) (wc_TaskType ch))
        then Some delegationDenied
        else if negb (wc_TaskOutcome ch) then Some delegationDenied
        else if negb (forallb (namesAllow (dw_ArtifactNames w)) (wc_Uploads ch)) then Some delegationDenied
        else if negb (forallb (Contains (wc_Uploads ch)) (wc_Artifacts ch)) then Some delegationDenied
        else None
    | Some _, None => Some delegationDenied
    | None, _ => Some invalid_request
    end
  else
    match submit_body raw, dp_Submit policy with
    | Some b, Some s =>
        if negb (cell_selector policy (sb_Cell b)) || negb (namesAllow (ds_JobTypes s) (sb_JobType b)) || sb_InlineSchema b
        then Some delegationDenied else None
    | Some _, None => Some delegationDenied
    | None, _ => Some invalid_request
    end.

(** What follows the check of the credential. *)
Definition maxDelegationBody : Z := 64 * 1024 * 1024.
Definition request_refusal (policy : DelegationPermissions) (method : string) (body : option string) (p : list string)
    : option refusal :=
  let suffix := join_path (drop 8 p) in
  if String.eqb method "POST" && String.eqb suffix "keepalive" then None
  else if negb (operation_allowed policy method p) then Some delegationDenied
  else if String.eqb method "GET" || String.eqb suffix "secrets/resolve" || String.eqb suffix "cells/lookup" then None
  else match body with
  | None => Some invalid_request
  | Some raw =>
      if (maxDelegationBody <? Z.of_nat (String.length raw)) then Some invalid_request
      else body_refusal policy suffix raw
  end.

(** The lease a path is about: [/v1/tenants/t/jobs/j/leases/l] and what follows. *)
Definition lease_path (p : list string) : option (JobKey * string) :=
  let part i := default "" (p !! i) in
  if (length p <? 8)%nat || negb (String.eqb (part 1%nat) "v1" && String.eqb (part 2%nat) "tenants"
     && String.eqb (part 4%nat) "jobs" && String.eqb (part 6%nat) "leases") then None else
  tenant ← PathUnescape (part 3%nat); job ← PathUnescape (part 5%nat); lease ← PathUnescape (part 7%nat);
  Some (mkJobKey tenant job, lease).

(** [None] lets the request pass to the handlers. *)
Definition prepareDelegationRequest (s : leaseTokenSigner) (r : Request) (now : time) : option refusal :=
  let token := default "" (head (rq_Tokens r)) in
  if negb (isDelegationToken token) then None
  else if negb (bool_decide (length (rq_Tokens r) = 1%nat))
  then Some (DelegationError 401 "invalid_delegation_credential") else
  let p := split_path (rq_Path r) in
  match lease_path p with
  | None => Some delegationDenied
  | Some (key, lease) =>
      match checkedDelegation s token key lease now with
      | inr e => Some e
      | inl c => request_refusal (di_Permissions (de_Grant c)) (rq_Method r) (rq_Body r) p
      end
  end.

(** ** Operations that filter *)

(** [readLeaseClaims]: what a credential may read. *)
Definition all_chapters : DelegationChapters := mkChapters true [] [].
Definition readLeaseClaims (s : leaseTokenSigner) (token : string) (key : JobKey) (leaseID : string) (now : time)
    : option DelegationChapters + refusal :=
  if isDelegationToken token then
    match checkedDelegation s token key leaseID now with
    | inr e => inr e
    | inl c =>
        match dp_Read (di_Permissions (de_Grant c)) with
        | None => inr delegationDenied
        | Some p => inl (Some p)
        end
    end
  else match validateAndParse s token key leaseID now with
  | Err _ => inr (PlainError ErrExecutionLeaseLost)
  | Ok p => match parentValidity p now with inr e => inr e | inl _ => inl (Some all_chapters) end
  end.

(** [ListChaptersWithLease] over the chapters the runtime lists; the credential is
    checked again, at [after], once they are read. *)
Definition ListChaptersWithLease {C} (ordinal : C → Z) (s : leaseTokenSigner) (token : string) (key : JobKey)
    (leaseID : string) (chapters : list C) (now after : time) : list C + refusal :=
  match readLeaseClaims s token key leaseID now with
  | inr e => inr e
  | inl policy =>
      match readLeaseClaims s token key leaseID after with
      | inr e => inr e
      | inl _ => inl (filter (λ c, chaptersAllow policy (ordinal c) = true) chapters)
      end
  end.

(** [ResolveSecretsWithLease]: the names passed on to the provider. *)
Definition delegated_secrets (policy : DelegationPermissions) (names : list string) : list string + refusal :=
  if bool_decide (dp_Secrets policy = []) then inr delegationDenied
  else inl (filter (λ n, Contains (dp_Secrets policy) n = true) names).
End server.

(** The in-memory runtime behind the server. *)
Definition toy_checker (e : ToyEngine) : LeaseChecker := λ now key leaseID workerID,
  ValidateExecutionLeaseByID key leaseID workerID now e.
Definition toy_boundary `{CellText} `{Macaroons} `{GrantKeys} `{GrantText} `{RequestBodies} (e : ToyEngine)
    (s : leaseTokenSigner) (r : Request) (now : time) : option refusal :=
  let _ := toy_checker e in prepareDelegationRequest s r now.
