(* ===== verification/Paging.v ===== *)
(** * Paging: listings read page by page

    The listings of the program all page the same way: the matching rows are sorted
    by a key, rows up to the key in the page token are skipped, and when more rows
    are left than fit, the last key of the page becomes the next token.  This file
    has what follows from that, whatever happens to the rows between two pages. *)

From S2P Require Import Prelude.

(** The order a listing is sorted in: [ltb a b] when [a] is listed before [b]. *)
Class ListOrder {K} (ltb : K → K → bool) := {
  ltb_irrefl k : ltb k k = false;
  ltb_trans a b c : ltb a b = true → ltb b c = true → ltb a c = true;
  ltb_total a b : ltb a b = false → ltb b a = false → a = b
}.

Lemma elem_concat {A} (a : A) ls : a ∈ concat ls ↔ ∃ l, a ∈ l ∧ l ∈ ls.
Proof.
  induction ls as [|l ls IH]; simpl.
  - split; [by intros ?%not_elem_of_nil|by intros (? & _ & ?%not_elem_of_nil)].
  - rewrite elem_of_app, IH. setoid_rewrite elem_of_cons. naive_solver.
Qed.

(** A page that is cut off has a last row. *)
Lemma cut_page {A} n (rest : list A) : (0 < n)%nat →
  ((n <? length rest)%nat = true ∧ ∃ a, last (take n rest) = Some a) ∨ (n <? length rest)%nat = false.
Proof.
  intros Hn. destruct (Nat.ltb_spec n (length rest)) as [Hlt|]; [left|by right]. split; [done|].
  destruct (last (take n rest)) as [a|] eqn:Hl; [by exists a|].
  apply last_None, (f_equal length) in Hl. rewrite length_take in Hl. cbn [length] in Hl. lia.
Qed.

Section paging.
Context {A K : Type} (key : A → K) (ltb : K → K → bool) {order : ListOrder ltb}.

Definition row_le (a b : A) : Prop := ltb (key b) (key a) = false.
#[export] Instance row_le_dec a b : Decision (row_le a b).
Proof. unfold row_le. apply _. Defined.
Definition row_lt (a b : A) : Prop := ltb (key a) (key b) = true.

(** The rows behind a position; [None] is the start. *)
Definition behind (c : option K) (k : K) : bool := match c with Some p => ltb p k | None => true end.

(** One page of at most [n] of the rows that are [listed], and the position to
    continue from. *)
Definition page_of (n : nat) (c : option K) (listed : A → Prop) (page : list A) (next : option K) : Prop :=
  ∃ rest, (∀ a, a ∈ rest ↔ listed a ∧ behind c (key a) = true) ∧ StronglySorted row_lt rest ∧
    page = take n rest ∧ next = if (n <? length rest)%nat then key <$> last page else None.

#[export] Instance row_le_total : Total row_le.
Proof.
  intros a b. unfold row_le. destruct (ltb (key b) (key a)) eqn:Hba; [|by left].
  destruct (ltb (key a) (key b)) eqn:Hab; [|by right].
  pose proof (ltb_trans _ _ _ Hab Hba) as Hl. by rewrite ltb_irrefl in Hl.
Qed.
#[export] Instance row_le_trans : Transitive row_le.
Proof.
  intros a b c. unfold row_le. intros Hba Hcb. apply not_true_iff_false. intros Hca.
  destruct (ltb (key a) (key b)) eqn:Hab.
  - by rewrite (ltb_trans _ _ _ Hca Hab) in Hcb.
  - rewrite <-(ltb_total _ _ Hab Hba) in Hcb. congruence.
Qed.
Lemma row_lt_trans a b c : row_lt a b → row_lt b c → row_lt a c.
Proof. apply ltb_trans. Qed.

(** Sorting rows with distinct keys sorts them strictly. *)
Lemma sorted_strictly rows : NoDup (key <$> rows) → StronglySorted row_le rows → StronglySorted row_lt rows.
Proof.
  intros Hnd Hs. induction Hs as [|a rows Hs IH Ha]; [constructor|].
  cbn [fmap list_fmap] in Hnd. apply NoDup_cons in Hnd as [Hni Hnd]. constructor; [by apply IH|].
  apply Forall_forall. intros b Hb. rewrite Forall_forall in Ha. specialize (Ha b Hb). unfold row_le, row_lt in *.
  destruct (ltb (key a) (key b)) eqn:Hlt; [done|]. exfalso. apply Hni.
  rewrite (ltb_total _ _ Hlt Ha). by apply list_elem_of_fmap_2.
Qed.
Lemma sort_strict rows : NoDup (key <$> rows) → StronglySorted row_lt (merge_sort row_le rows).
Proof.
  intros Hnd. apply sorted_strictly; [by rewrite merge_sort_Permutation|]. apply (StronglySorted_merge_sort row_le).
Qed.
Lemma filter_strict (P : A → Prop) `{∀ a, Decision (P a)} rows :
  StronglySorted row_lt rows → StronglySorted row_lt (filter P rows).
Proof.
  induction 1 as [|a rows Hs IH Ha]; [constructor|]. rewrite filter_cons. destruct (decide (P a)); [|done].
  constructor; [done|]. rewrite Forall_forall in *. intros b [_ Hb]%list_elem_of_filter. by apply Ha.
Qed.

(** Both orders of work give a page: filter the sorted rows, or sort the filtered. *)
Lemma page_sort_filter n c listed rows : NoDup (key <$> rows) → (∀ a, a ∈ rows ↔ listed a) →
  let rest := filter (λ a, behind c (key a) = true) (merge_sort row_le rows) in
  page_of n c listed (take n rest) (if (n <? length rest)%nat then key <$> last (take n rest) else None).
Proof.
  intros Hnd Hl rest. exists rest. split_and!; [|by apply filter_strict, sort_strict|done|done].
  intros a. unfold rest. rewrite list_elem_of_filter, merge_sort_Permutation, Hl. tauto.
Qed.
Lemma page_filter_sort n c listed rows : NoDup (key <$> rows) → (∀ a, a ∈ rows ↔ listed a ∧ behind c (key a) = true) →
  let rest := merge_sort row_le rows in
  page_of n c listed (take n rest) (if (n <? length rest)%nat then key <$> last (take n rest) else None).
Proof.
  intros Hnd Hl rest. exists rest. split_and!; [|by apply sort_strict|done|done].
  intros a. unfold rest. by rewrite merge_sort_Permutation.
Qed.
Lemma nodup_key_filter (P : A → Prop) `{∀ a, Decision (P a)} rows : NoDup (key <$> rows) → NoDup (key <$> filter P rows).
Proof.
  induction rows as [|a rows IH]; [done|]. rewrite fmap_cons, NoDup_cons, filter_cons. intros [Hni Hnd].
  destruct (decide (P a)); [|by apply IH]. rewrite fmap_cons, NoDup_cons. split; [|by apply IH].
  intros (b & Hb & [_ Hin]%list_elem_of_filter)%list_elem_of_fmap. apply Hni. rewrite Hb. by apply list_elem_of_fmap_2.
Qed.
(** ** One page *)
Section page.
Context {n : nat} {c : option K} {listed : A → Prop} {page : list A} {next : option K}.
Hypothesis Hpage : page_of n c listed page next.

Lemma page_row a : a ∈ page → listed a ∧ behind c (key a) = true.
Proof. destruct Hpage as (rest & Hp & _ & -> & _). intros Ha%subseteq_take. by apply Hp. Qed.
Lemma page_sorted : StronglySorted row_lt page.
Proof. destruct Hpage as (rest & _ & Hs & -> & _). by apply (StronglySorted_app_1_l _ _ (drop n rest)); rewrite take_drop. Qed.

Lemma page_rest a : listed a → behind c (key a) = true →
  a ∈ page ∨ (∃ k, next = Some k ∧ ltb k (key a) = true) ∨ n = 0%nat.
Proof.
  destruct Hpage as (rest & Hp & Hs & -> & ->). intros Ha Hb.
  assert (a ∈ rest) as Hin by by apply Hp.
  rewrite <-(take_drop n rest) in Hin. apply elem_of_app in Hin as [Hin|Hin]; [by left|right].
  destruct n as [|m]; [by right|left].
  assert (S m < length rest)%nat as Hlen.
  { pose proof (length_drop rest (S m)) as Hl. destruct (drop (S m) rest); [by apply not_elem_of_nil in Hin|]. cbn [length] in Hl. lia. }
  rewrite (proj2 (Nat.ltb_lt _ _) Hlen). rewrite <-(take_drop (S m) rest) in Hs.
  destruct (last (take (S m) rest)) as [z|] eqn:Hz.
  - exists (key z). split; [done|]. apply (StronglySorted_app_1_elem_of row_lt _ _ _ _ Hs); [by apply last_Some_elem_of|done].
  - apply last_None in Hz. apply (f_equal length) in Hz. rewrite length_take in Hz. cbn [length] in Hz. lia.
Qed.

Lemma page_last k : next = Some k → ∃ a, last page = Some a ∧ key a = k ∧ listed a.
Proof.
  destruct Hpage as (rest & Hp & _ & -> & ->). destruct (_ <? _)%nat; [|done].
  destruct (last (take n rest)) as [z|] eqn:Hz; [|done]. intros [= <-]. exists z. split_and!; [done|done|].
  by apply last_Some_elem_of, subseteq_take, Hp in Hz as [? _].
Qed.
Lemma page_next k : next = Some k → ∃ a, a ∈ page ∧ key a = k ∧ ∀ b, b ∈ page → b = a ∨ row_lt b a.
Proof.
  pose proof page_sorted as Hs. destruct Hpage as (rest & _ & _ & -> & ->). destruct (_ <? _)%nat; [|done].
  destruct (last (take n rest)) as [z|] eqn:Hz; [|done]. intros [= <-]. exists z. split; [by apply last_Some_elem_of|].
  split; [done|]. apply last_Some in Hz as [front Hz]. rewrite Hz in *.
  intros b [Hb| ->%list_elem_of_singleton]%elem_of_app; [right|by left].
  apply (StronglySorted_app_1_elem_of row_lt _ _ _ _ Hs); [done|by left].
Qed.
End page.

(** ** Following the tokens

    [reading c views pages ended]: a page is read from each of the views, each from
    where the one before ended; [ended] when the last one had no continuation. *)
Inductive reading : option K → list (A → Prop) → list (list A) → bool → Prop :=
  | reading_open c : reading c [] [] false
  | reading_last n c listed page : (0 < n)%nat → page_of n c listed page None → reading c [listed] [page] true
  | reading_more n c listed page k views pages ended : (0 < n)%nat → page_of n c listed page (Some k) →
      reading (Some k) views pages ended → reading c (listed :: views) (page :: pages) ended.

Lemma reading_behind c views pages ended : reading c views pages ended →
  ∀ a, a ∈ concat pages → behind c (key a) = true.
Proof.
  induction 1 as [c|n c listed page _ Hp|n c listed page k views pages ended _ Hp _ IH]; intros a Ha; simpl in Ha.
  - by apply not_elem_of_nil in Ha.
  - rewrite app_nil_r in Ha. by apply (page_row Hp).
  - apply elem_of_app in Ha as [Ha|Ha]; [by apply (page_row Hp)|]. apply IH in Ha. simpl in Ha.
    destruct (page_next Hp k eq_refl) as (z & Hz & <- & _). apply (page_row Hp) in Hz as [_ Hz].
    destruct c as [p|]; [|done]. by apply (ltb_trans _ _ _ Hz).
Qed.

(** Rows are read in the order of the listing, and no key is read twice. *)
Lemma reading_sorted c views pages ended : reading c views pages ended → StronglySorted row_lt (concat pages).
Proof.
  induction 1 as [c|n c listed page _ Hp|n c listed page k views pages ended _ Hp Hr IH]; simpl; [constructor| |].
  - rewrite app_nil_r. by apply (page_sorted Hp).
  - apply StronglySorted_app. split_and!; [|by apply (page_sorted Hp)|done].
    intros a b Ha Hb. apply (reading_behind _ _ _ _ Hr) in Hb. simpl in Hb.
    destruct (page_next Hp k eq_refl) as (z & _ & <- & Hmax). destruct (Hmax a Ha) as [->|Hlt]; [done|].
    by apply (ltb_trans _ _ _ Hlt).
Qed.
Lemma strict_nodup rows : StronglySorted row_lt rows → NoDup (key <$> rows).
Proof.
  induction 1 as [|a rows Hs IH Ha]; [constructor|]. rewrite fmap_cons. constructor; [|done].
  intros (b & Hb & Hin)%list_elem_of_fmap. rewrite Forall_forall in Ha. specialize (Ha b Hin).
  unfold row_lt in Ha. by rewrite Hb, ltb_irrefl in Ha.
Qed.

Lemma reading_sound c views pages ended : reading c views pages ended → Forall2 (λ (listed : A → Prop) page, ∀ a, a ∈ page → listed a) views pages.
Proof.
  induction 1 as [c|n c listed page _ Hp|n c listed page k views pages ended _ Hp _ IH]; constructor; try done;
    intros a Ha; by apply (page_row Hp).
Qed.

(** A row that stays while the listing is read is read. *)
Lemma reading_complete c views pages k : reading c views pages true → behind c k = true →
  (∀ listed, listed ∈ views → ∃ a, listed a ∧ key a = k) → ∃ a, a ∈ concat pages ∧ key a = k.
Proof.
  intros Hr. remember true as ended eqn:He in Hr. revert He.
  induction Hr as [c|n c listed page Hn Hp|n c listed page k' views pages ended Hn Hp _ IH]; intros He Hb Hall; [done|..].
  - destruct (Hall listed) as (a & Ha & <-); [by left|]. exists a. split; [|done]. simpl. rewrite app_nil_r.
    destruct (page_rest Hp a Ha Hb) as [?|[(? & ? & _)|?]]; [done|done|lia].
  - destruct (Hall listed) as (a & Ha & <-); [by left|]. simpl.
    destruct (page_rest Hp a Ha Hb) as [Hin|[(? & [= <-] & Hlt)|?]]; [|..|lia].
    + exists a. split; [|done]. apply elem_of_app. by left.
    + destruct IH as (b & Hin & Hk); [done|exact Hlt|intros; apply Hall; by right|].
      exists b. split; [|done]. apply elem_of_app. by right.
Qed.

(** Reading ends: it takes no more pages than there are keys to read. *)
Lemma reading_ends c views pages ks : reading c views pages false →
  (∀ (listed : A → Prop) a, listed ∈ views → listed a → key a ∈ ks) → (length views ≤ length ks)%nat.
Proof.
  intros Hr Hks. transitivity (length (key <$> concat pages)).
  - clear Hks. remember false as ended eqn:He. revert He.
    induction Hr as [c|n c listed page Hn Hp|n c listed page k views pages ended Hn Hp _ IH]; intros He; simpl; [lia|done|].
    destruct (page_next Hp k eq_refl) as (z & Hz & _). destruct page as [|y page]; [by apply not_elem_of_nil in Hz|].
    specialize (IH He). rewrite length_fmap in *. rewrite length_app. simpl. lia.
  - apply submseteq_length, NoDup_submseteq; [by eapply strict_nodup, reading_sorted|].
    intros k (a & -> & (page & Ha & Hpage)%elem_concat)%list_elem_of_fmap.
    pose proof (reading_sound _ _ _ _ Hr) as Hs. apply list_elem_of_lookup in Hpage as [i Hi].
    destruct (Forall2_lookup_r _ _ _ _ _ Hs Hi) as (listed & Hrows & Hsub).
    apply (Hks listed); [by eapply list_elem_of_lookup_2|by apply Hsub].
Qed.
End paging.

(** ** Clients

    A client repeats a request with the token of the last page; a view is what one
    of these calls finds. *)
Section client.
Context {V A K : Type} (key : A → K) (ltb : K → K → bool) {order : ListOrder ltb}.
Context (call : string → V → result (list A * string)) (lists : V → A → Prop).

Fixpoint follow (token : string) (views : list V) : result (list (list A) * bool) :=
  match views with
  | [] => Ok ([], false)
  | v :: views =>
      let? r := call token v in
      if str_empty r.2 then Ok ([r.1], true)
      else let? rest := follow r.2 views in Ok (r.1 :: rest.1, rest.2)
  end.

(** What reading page by page achieves.  Rows come in the order of the listing and
    none twice; each page shows rows of its view; when there is no further token,
    what was listed in every view is on a page; and there are never more pages than
    different rows.  [start] is where the first page starts. *)
Definition read_in_pages (start : option K) (views : list V) (pages : list (list A))
    (ended : bool) : Prop :=
  StronglySorted (row_lt key ltb) (concat pages) ∧ NoDup (key <$> concat pages) ∧
  Forall2 (λ v page, ∀ a, a ∈ page → lists v a) (take (length pages) views) pages ∧
  (ended = true → ∀ k, behind ltb start k = true →
     (∀ v, v ∈ take (length pages) views → ∃ a, lists v a ∧ key a = k) → ∃ a, a ∈ concat pages ∧ key a = k) ∧
  (ended = false → ∀ ks, (∀ v a, v ∈ views → lists v a → key a ∈ ks) → (length views ≤ length ks)%nat).

(** A listing whose calls answer with pages of its rows, and whose tokens lead behind
    the last row: [at_ token c] when a token leads to a position. *)
Context (good : V → Prop) (at_ : string → option K → Prop).
Hypothesis call_page : ∀ token c v page tok, good v → at_ token c → call token v = Ok (page, tok) →
  ∃ n next, (0 < n)%nat ∧ page_of key ltb n c (lists v) page next ∧
    match next with Some k => tok ≠ "" ∧ at_ tok (Some k) | None => tok = "" end.

Lemma follow_reading : ∀ views token c pages ended,
  follow token views = Ok (pages, ended) → (∀ v, v ∈ views → good v) → at_ token c →
  reading key ltb c (lists <$> take (length pages) views) pages ended ∧ (ended = false → length pages = length views).
Proof.
  induction views as [|v views IH]; intros token c pages ended Hf Hgood Htok; simpl in Hf.
  - injection Hf as <- <-. split; [constructor|done].
  - apply bind_ok in Hf as ([page tok] & Hl & Hf). cbn [fst snd] in Hf.
    destruct (call_page _ _ _ _ _ (Hgood v ltac:(by left)) Htok Hl) as (n & next & Hn & Hp & Hnext).
    destruct next as [k|].
    + destruct Hnext as [Hne Hat]. rewrite (str_empty_ne _ Hne) in Hf.
      apply bind_ok in Hf as ([pages' ended'] & Hf & [= <- <-]).
      apply (IH _ (Some k)) in Hf as [Hr Hlen]; [|intros v' Hin; apply Hgood; by right|done].
      split; [by eapply reading_more|]. intros Hend. simpl. by rewrite (Hlen Hend).
    + rewrite Hnext in Hf. injection Hf as <- <-. split; [by eapply reading_last|done].
Qed.

Lemma follow_pages token start views pages ended :
  follow token views = Ok (pages, ended) → (∀ v, v ∈ views → good v) → at_ token start →
  read_in_pages start views pages ended.
Proof.
  intros Hf Hok Htok. destruct (follow_reading _ _ _ _ _ Hf Hok Htok) as [Hr Hlen].
  pose proof (reading_sorted _ _ _ _ _ _ Hr) as Hs.
  split_and!; [done|by apply (strict_nodup key ltb)| | |].
  - pose proof (reading_sound _ _ _ _ _ _ Hr) as Hp. by rewrite Forall2_fmap_l in Hp.
  - intros -> k Hb Hall. apply (reading_complete _ _ _ _ _ k Hr Hb).
    intros listed (v & -> & Hv)%list_elem_of_fmap. by apply Hall.
  - intros -> ks Hks. rewrite (Hlen eq_refl), firstn_all in Hr. rewrite <-(length_fmap lists).
    apply (reading_ends _ _ _ _ _ ks Hr). intros listed a (v & -> & Hv)%list_elem_of_fmap. by apply Hks.
Qed.
End client.

(** ** Orders of listings *)
#[export] Instance str_listing : ListOrder str_lt.
Proof.
  unfold str_lt, String.ltb. split.
  - intros k. pose proof (String.compare_antisym k k) as Hk. by destruct (String.compare k k).
  - intros a b c. destruct (String.compare a b) eqn:H1; try done. destruct (String.compare b c) eqn:H2; try done.
    by rewrite (str_compare_trans a b c).
  - intros a b. rewrite (String.compare_antisym a b). destruct (String.compare b a) eqn:Hc; simpl; try done.
    intros _ _. by apply String.compare_eq_iff in Hc.
Qed.
(** By a first component, then by a second. *)
Definition pair_lt {A B} (eqa : A → A → bool) (lta : A → A → bool) (ltb : B → B → bool) (p q : A * B) : bool :=
  lta p.1 q.1 || (eqa p.1 q.1 && ltb p.2 q.2).
Lemma pair_listing {A B} (eqa : A → A → bool) (lta : A → A → bool) (ltb : B → B → bool) :
  (∀ a b, eqa a b = true ↔ a = b) → ListOrder lta → ListOrder ltb → ListOrder (pair_lt eqa lta ltb).
Proof.
  intros Heq Ha Hb. split; unfold pair_lt.
  - intros [a b]. simpl. by rewrite (ltb_irrefl (ltb := lta)), (ltb_irrefl (ltb := ltb)), andb_false_r.
  - intros [a b] [a' b'] [a'' b'']. simpl. rewrite !orb_true_iff, !andb_true_iff, !Heq.
    intros [H1|[-> H1]] [H2|[-> H2]]; [|by left..|].
    + left. by eapply (ltb_trans (ltb := lta)).
    + right. split; [done|]. by eapply (ltb_trans (ltb := ltb)).
  - intros [a b] [a' b']. simpl. rewrite !orb_false_iff. intros [H1 H2] [H3 H4].
    assert (a = a') as -> by (by apply (ltb_total (ltb := lta))). rewrite (proj2 (Heq a' a') eq_refl) in H2, H4.
    simpl in H2, H4. f_equal. by apply (ltb_total (ltb := ltb)).
Qed.
(** The order from the other end. *)
Lemma reversed_listing {A} (lta : A → A → bool) : ListOrder lta → ListOrder (λ a b, lta b a).
Proof.
  intros Ha. split.
  - intros k. apply ltb_irrefl.
  - intros a b c H1 H2. by eapply (ltb_trans (ltb := lta)).
  - intros a b H1 H2. by apply (ltb_total (ltb := lta)).
Qed.
#[export] Instance int_listing : ListOrder Z.ltb.
Proof. split; intros; rewrite ?Z.ltb_lt, ?Z.ltb_ge in *; lia. Qed.
