(* ===== verification/JobFilters.v ===== *)
(** * JobFilters: the requests of listings

    [list_jobs.go] and the cursors of [cellstate/job_cursor.go] and
    [goal_discovery.go]: metadata filters and the predicates they stand for, the
    request of a job listing, page sizes, page tokens and what they are bound to.

    A filter holds its values in Go slices that filters built from one another can
    share; [filters_share_storage] shows where that matters, everywhere else the values are
    lists.  The JSON texts of the cursors are a class. *)

From S2P Require Import Prelude Types Json Cells Metadata Chapters Base64 Paging.

(** ** Metadata filters *)
Inductive MetadataFilter :=
  | metadataEmpty
  | metadataEqual (field : string) (value : PredValue)
  | metadataOr (field : string) (values : list PredValue)
  | metadataAnd (left right : MetadataFilter).

Definition is_nil (v : PredValue) : bool := match v with PredNil => true | _ => false end.
Definition dot_char (a : Ascii.ascii) : bool := (Ascii.N_of_ascii a =? 46)%N.
(** [validateField]; [missing] when the value is nil. *)
Definition validateField (field : string) (missing : bool) : result () :=
  let name := TrimSpace field in
  let? _ := guard_err (negb (str_empty name)) (ErrMsg "metadata field name is required") in
  let? _ := guard_err (negb (str_contains dot_char name)) (ErrMsg "metadata field must be a top-level field") in
  guard_err (negb missing) (ErrMsg "metadata field value is required").
Definition newEqualFilter (field : string) (value : PredValue) : result MetadataFilter :=
  let? _ := validateField field (is_nil value) in Ok (metadataEqual field value).

(** The builders; [None] is a nil filter. *)
Definition AndFilter (m : MetadataFilter) (other : option MetadataFilter) : MetadataFilter :=
  match other with
  | None => m
  | Some o => match m with metadataEmpty => o | _ => metadataAnd m o end
  end.
Definition or_mismatch : result MetadataFilter := Err (ErrMsg "metadata OR requires matching fields").
Definition OrFilter (m : MetadataFilter) (other : option MetadataFilter) : result MetadataFilter :=
  match other with
  | None => Ok m
  | Some o =>
      match m, o with
      | metadataEmpty, _ => Ok o
      | metadataEqual f v, metadataEqual f' v' => if String.eqb f f' then Ok (metadataOr f [v; v']) else or_mismatch
      | metadataEqual f v, metadataOr f' vs => if String.eqb f f' then Ok (metadataOr f (v :: vs)) else or_mismatch
      | metadataOr f vs, metadataEqual f' v' => if String.eqb f f' then Ok (metadataOr f (vs ++ [v'])) else or_mismatch
      | metadataOr f vs, metadataOr f' vs' => if String.eqb f f' then Ok (metadataOr f (vs ++ vs')) else or_mismatch
      | _, _ => or_mismatch
      end
  end.
Definition EqualFilter (m : MetadataFilter) (field : string) (value : PredValue) : result MetadataFilter :=
  let? eq := newEqualFilter field value in
  Ok match m with metadataEmpty => eq | _ => metadataAnd m eq end.

(** [predicateFromEqual], [collectMetadataPredicates], [MetadataPredicates] *)
Definition predicateFromEqual (field : string) (values : list PredValue) : result MetadataPredicate :=
  let? _ := validateField field false in
  let? _ := guard_err (negb (existsb is_nil values)) (ErrMsg "metadata field value is required") in
  Ok (mkPredicate [field] values).
Fixpoint collectMetadataPredicates (filter : MetadataFilter) : result (list MetadataPredicate) :=
  match filter with
  | metadataEmpty => Ok []
  | metadataEqual f v => let? p := predicateFromEqual f [v] in Ok [p]
  | metadataOr f vs => let? p := predicateFromEqual f vs in Ok [p]
  | metadataAnd l r =>
      let? ps := collectMetadataPredicates l in
      let? qs := collectMetadataPredicates r in
      Ok (ps ++ qs)
  end.
Definition MetadataPredicates (filter : option MetadataFilter) : result (list MetadataPredicate) :=
  match filter with None => Ok [] | Some f => collectMetadataPredicates f end.

(** ** What a filter means

    A field of the application metadata has one of the values, compared as encoded. *)
Section meaning.
Context `{FloatText}.
Definition field_is (metadata : json) (field : string) (v : PredValue) : bool :=
  match metadataValueAtPath metadata ["app"; field], encode_pred_value v with
  | Some x, Ok text => String.eqb (Marshal (refloat float_text x)) text
  | _, _ => false
  end.
Fixpoint satisfies (metadata : json) (f : MetadataFilter) : bool :=
  match f with
  | metadataEmpty => true
  | metadataEqual f v => field_is metadata f v
  | metadataOr f vs => existsb (field_is metadata f) vs
  | metadataAnd l r => satisfies metadata l && satisfies metadata r
  end.

Lemma predicate_means metadata f vs p n :
  predicateFromEqual f vs = Ok p → normalize_predicate p = Ok n →
  predicate_matches float_text metadata n = existsb (field_is metadata f) vs.
Proof.
  unfold predicateFromEqual, normalize_predicate. intros Hp Hn.
  apply bind_ok in Hp as ([] & _ & Hp). apply bind_ok in Hp as ([] & _ & [= <-]). cbn [mp_Path mp_Values] in Hn.
  apply bind_ok in Hn as ([] & _ & Hn). apply bind_ok in Hn as ([] & _ & Hn). apply bind_ok in Hn as ([] & _ & Hn).
  apply bind_ok in Hn as (texts & Ht & [= <-]). unfold predicate_matches. cbn [np_Path np_ValuesJSON].
  unfold field_is. destruct (metadataValueAtPath metadata ["app"; f]) as [x|]; [|by clear Ht; induction vs].
  revert texts Ht. induction vs as [|v vs IH]; intros texts Ht; simpl in Ht.
  - by injection Ht as <-.
  - apply bind_ok in Ht as (t & Hv & Ht). apply bind_ok in Ht as (ts & Hts & [= <-]). simpl. by rewrite Hv, (IH _ Hts).
Qed.
Lemma matches_app metadata ns ms :
  metadataMatches float_text metadata (ns ++ ms) = metadataMatches float_text metadata ns && metadataMatches float_text metadata ms.
Proof. apply forallb_app. Qed.
Lemma normalize_app ps qs ns : normalizeMetadataPredicates (ps ++ qs) = Ok ns →
  ∃ n1 n2, normalizeMetadataPredicates ps = Ok n1 ∧ normalizeMetadataPredicates qs = Ok n2 ∧ ns = n1 ++ n2.
Proof.
  revert ns. induction ps as [|p ps IH]; intros ns Hn; simpl in Hn; [by exists [], ns|].
  apply bind_ok in Hn as (n & Hp & Hn). apply bind_ok in Hn as (ns' & Hr & [= <-]).
  destruct (IH _ Hr) as (n1 & n2 & H1 & H2 & ->). exists (n :: n1), n2. split_and!; [|done|done].
  unfold normalizeMetadataPredicates in *. simpl. rewrite Hp. simpl. by rewrite H1.
Qed.

(** The predicates of a filter match exactly the metadata that satisfies it. *)
Lemma filter_predicates metadata f : ∀ ps ns, collectMetadataPredicates f = Ok ps → normalizeMetadataPredicates ps = Ok ns →
  metadataMatches float_text metadata ns = satisfies metadata f.
Proof.
  induction f as [|f v|f vs|l IHl r IHr]; simpl; intros ps ns Hc Hn.
  - injection Hc as <-. by injection Hn as <-.
  - apply bind_ok in Hc as (p & Hp & [= <-]). apply bind_ok in Hn as (n & Hn & [= <-]).
    simpl. rewrite (predicate_means metadata f [v] p n Hp Hn). simpl. by rewrite orb_false_r, andb_true_r.
  - apply bind_ok in Hc as (p & Hp & [= <-]). apply bind_ok in Hn as (n & Hn & [= <-]).
    simpl. by rewrite (predicate_means metadata f vs p n Hp Hn), andb_true_r.
  - apply bind_ok in Hc as (ps1 & H1 & Hc). apply bind_ok in Hc as (ps2 & H2 & [= <-]).
    apply normalize_app in Hn as (n1 & n2 & Hn1 & Hn2 & ->). rewrite matches_app.
    by rewrite (IHl _ _ H1 Hn1), (IHr _ _ H2 Hn2).
Qed.

(** What the builders make of the meanings; the empty filter is neutral. *)
Lemma and_filter_meaning metadata m o : satisfies metadata (AndFilter m (Some o)) = satisfies metadata m && satisfies metadata o.
Proof. by destruct m. Qed.
Lemma or_filter_meaning metadata m o r : OrFilter m (Some o) = Ok r → m ≠ metadataEmpty →
  satisfies metadata r = satisfies metadata m || satisfies metadata o.
Proof.
  unfold OrFilter, or_mismatch. destruct m as [|f v|f vs|]; [done| | |done]; destruct o as [|f' v'|f' vs'|]; try done;
    (destruct (String.eqb_spec f f') as [->|]; [|done]); intros [= <-] _; simpl.
  - by rewrite orb_false_r.
  - done.
  - by rewrite existsb_app; simpl; rewrite orb_false_r.
  - by rewrite existsb_app.
Qed.
Lemma equal_filter_meaning metadata m f v r : EqualFilter m f v = Ok r →
  satisfies metadata r = satisfies metadata m && field_is metadata f v.
Proof.
  intros (eq & He & [= <-])%bind_ok. unfold newEqualFilter in He. apply bind_ok in He as ([] & _ & [= <-]). by destruct m.
Qed.
End meaning.

(** ** Filters that share their values

    [metadataOr.OrFilter] appends to the slice of its receiver.  A slice is a window
    on an array; appending writes into the array while there is room and moves to a
    new one, at least twice as large, when there is none. *)
Record Slice := mkSlice { sl_array : nat; sl_len : nat; sl_cap : nat }.
Definition Arrays := list (list PredValue).
Definition slice_values (h : Arrays) (s : Slice) : list PredValue := take (sl_len s) (default [] (h !! sl_array s)).
(** A slice literal. *)
Definition literal (vs : list PredValue) : M Arrays Slice := λ h,
  (h ++ [vs], Ok (mkSlice (length h) (length vs) (length vs))).
Definition append (s : Slice) (v : PredValue) : M Arrays Slice := λ h,
  if (sl_len s <? sl_cap s)%nat
  then (alter (λ a, <[sl_len s := v]> a) (sl_array s) h, Ok (mkSlice (sl_array s) (S (sl_len s)) (sl_cap s)))
  else let cap := Nat.max 1 (2 * sl_cap s) in
    (h ++ [slice_values h s ++ v :: repeat PredNil (cap - S (sl_len s))], Ok (mkSlice (length h) (S (sl_len s)) cap)).

(** Two filters built from the same one: the second overwrites a value of the first. *)
Definition text_value (s : string) : PredValue := PredText true s.
Definition sharing : M Arrays (Slice * Slice) := λ h,
  (m_bind (literal [text_value "1"; text_value "2"]) (λ two,
   m_bind (append two (text_value "3")) (λ three,
   m_bind (append three (text_value "4")) (λ c,
   m_bind (append three (text_value "5")) (λ d, m_ret (c, d)))))) h.
Lemma filters_share_storage :
  let r := sharing [] in
  (λ p, (slice_values r.1 p.1, slice_values r.1 p.2)) <$> (match r.2 with Ok p => Some p | Err _ => None end) =
  Some (text_value <$> ["1"; "2"; "3"; "5"], text_value <$> ["1"; "2"; "3"; "5"]).
Proof. reflexivity. Qed.

(** ** Requests ([ListJobsRequest]) *)
Inductive JobStore := JobStoreActive | JobStoreArchived.
#[export] Instance JobStore_eq_dec : EqDecision JobStore.
Proof. solve_decision. Defined.
Record ListJobsRequest := mkListJobs {
  lj_CellNames : option (list string); lj_GoalIDs : list string; lj_IncludeHidden : bool; lj_TenantIds : list string;
  lj_Statuses : list JobStatus; lj_Stores : list JobStore; lj_JobTypes : list string; lj_JobTasks : list Route;
  lj_AvailableRoutes : list Route; lj_JobKeys : list JobKey; lj_ParentJobIDs : list string; lj_RootOnly : bool;
  lj_MetadataFilter : option MetadataFilter; lj_CreatedAfter : option time; lj_CreatedBefore : option time;
  lj_PageSize : Z; lj_PageToken : string
}.
#[export] Instance eta_ListJobsRequest : Eta ListJobsRequest := λ r,
  mkListJobs (lj_CellNames r) (lj_GoalIDs r) (lj_IncludeHidden r) (lj_TenantIds r) (lj_Statuses r) (lj_Stores r)
    (lj_JobTypes r) (lj_JobTasks r) (lj_AvailableRoutes r) (lj_JobKeys r) (lj_ParentJobIDs r) (lj_RootOnly r)
    (lj_MetadataFilter r) (lj_CreatedAfter r) (lj_CreatedBefore r) (lj_PageSize r) (lj_PageToken r).

(** [ValidateRoutes] *)
Definition check_task (t : Route) : result () :=
  let? _ := Route_Validate t in
  guard_err (negb (str_empty (r_TaskType t))) (ErrMsg "task filter requires a task type").
Definition ValidateRoutes (req : ListJobsRequest) : result () :=
  let? _ := map_result Route_Validate (lj_AvailableRoutes req) in
  let? _ := map_result ValidateIdentifier (lj_JobTypes req) in
  let? _ := map_result check_task (lj_JobTasks req) in
  Ok tt.

(** An empty list of values allows every value. *)
Definition allows {A} `{EqDecision A} (l : list A) (a : A) : bool := bool_decide (l = []) || bool_decide (a ∈ l).

(** Page sizes. *)
Definition DefaultListJobsPageSize : Z := 100.
Definition MaxListJobsPageSize : Z := 200.
Definition DiscoveryPageSize (n : Z) : Z :=
  (if n <=? 0 then DefaultListJobsPageSize else Z.min n MaxListJobsPageSize)%Z.
Lemma DiscoveryPageSize_bounds n : (1 <= DiscoveryPageSize n <= MaxListJobsPageSize)%Z.
Proof. unfold DiscoveryPageSize, DefaultListJobsPageSize, MaxListJobsPageSize. destruct (Z.leb_spec n 0); lia. Qed.
Lemma DiscoveryPageSize_pos n : (0 < Z.to_nat (DiscoveryPageSize n))%nat.
Proof. pose proof (DiscoveryPageSize_bounds n). lia. Qed.

(** ** Page tokens

    A token is the last row's creation time and key, wrapped with a digest of the
    query it continues. *)
Record pageCursor := mkPageCursor { pc_CreatedAt : time; pc_TenantId : string; pc_JobID : string }.
Record jobCursor := mkJobCursor { jc_Version : Z; jc_Binding : string; jc_Position : string }.
(** [json.Marshal] and [json.Unmarshal] of the cursors, and the text of a query. *)
Class PageText := {
  cursor_text : pageCursor → result string; cursor_value : string → option pageCursor;
  job_cursor_text : jobCursor → string; job_cursor_value : string → option jobCursor;
  query_text : ListJobsRequest → option CellAuthority → list string → string
}.
(** A JSON text is not empty, that of valid strings is read back, and a digest in
    hexadecimal is ASCII. *)
Class PageTextLaws `{ChapterChecks} `{PageText} := {
  digest_valid req a selected : ValidString (sha256_hex (query_text req a selected)) = true;
  cursor_text_some c raw : cursor_text c = Ok raw → raw ≠ "";
  job_cursor_text_some c : job_cursor_text c ≠ "";
  cursor_keeps c raw : cursor_text c = Ok raw → ValidString (pc_TenantId c) = true → ValidString (pc_JobID c) = true →
    cursor_value raw = Some c;
  job_cursor_keeps c : ValidString (jc_Binding c) = true → ValidString (jc_Position c) = true →
    job_cursor_value (job_cursor_text c) = Some c
}.

(** The digits of an encoding are ASCII. *)
Lemma digits_valid s : digits s → ValidString s = true.
Proof.
  induction 1 as [|n s Hn _ IH]; [done|].
  assert (∀ m, (m < 64)%nat → Types.in_range 0 127 (digit (N.of_nat m)) = true) as Hall.
  { do 64 (intros [|m]; [reflexivity|revert m]). intros m Hm. lia. }
  specialize (Hall (N.to_nat n)). rewrite N2Nat.id in Hall. cbn [ValidString]. rewrite Hall by lia. exact IH.
Qed.
Lemma raw_url_empty s : raw_url_encode s = "" → s = "".
Proof. by destruct s as [|a [|b [|c s]]]. Qed.

Section tokens.
Context `{ChapterChecks} `{PageText}.
Definition EncodeListJobsPageToken (createdAt : time) (key : JobKey) : result string :=
  let? raw := cursor_text (mkPageCursor createdAt (jk_TenantId key) (jk_JobId key)) in Ok (raw_url_encode raw).
Definition DecodeListJobsPageToken (tok : string) : result (time * JobKey) :=
  let bad := ErrMsg "invalid page token" in
  let? raw := of_option bad (raw_url_decode false tok) in
  let? c := of_option bad (cursor_value raw) in
  Ok (pc_CreatedAt c, mkJobKey (pc_TenantId c) (pc_JobID c)).

(** [JobQueryBinding].  The filter types have no exported fields, so that the text
    of any filter is the empty object. *)
Definition visible (req : ListJobsRequest) : ListJobsRequest :=
  req <| lj_PageToken := "" |> <| lj_PageSize := 0%Z |> <| lj_CellNames := None |>
    <| lj_MetadataFilter := match lj_MetadataFilter req with Some _ => Some metadataEmpty | None => None end |>.
Definition JobQueryBinding (ctx : Context) (req : ListJobsRequest) (selected : list string) : string :=
  sha256_hex (query_text (visible req) (cx_Authority ctx) (merge_sort str_le selected)).
Definition WrapJobCursor (position binding : string) : string :=
  if str_empty position then "" else raw_url_encode (job_cursor_text (mkJobCursor 1 binding position)).
Definition UnwrapJobCursor (token binding : string) : result string :=
  if str_empty token then Ok "" else
  of_option (ErrCell ErrInvalidCellPageToken)
    (raw ← raw_url_decode false token; c ← job_cursor_value raw;
     if (jc_Version c =? 1)%Z && String.eqb (jc_Binding c) binding && negb (str_empty (jc_Position c))
     then Some (jc_Position c) else None).

(** Two filters make the same binding: the token of one is accepted with the other. *)
Lemma binding_ignores_filter ctx req selected f g :
  JobQueryBinding ctx (req <| lj_MetadataFilter := Some f |>) selected =
  JobQueryBinding ctx (req <| lj_MetadataFilter := Some g |>) selected.
Proof. reflexivity. Qed.

(** ** Tokens are read back *)
Context {laws : PageTextLaws}.
Lemma page_token_roundtrip t k tok : EncodeListJobsPageToken t k = Ok tok →
  ValidString (jk_TenantId k) = true → ValidString (jk_JobId k) = true →
  DecodeListJobsPageToken tok = Ok (t, k).
Proof.
  unfold EncodeListJobsPageToken. intros (raw & Hraw & [= <-])%bind_ok Ht Hj.
  unfold DecodeListJobsPageToken. rewrite raw_url_roundtrip. simpl.
  rewrite (cursor_keeps _ _ Hraw Ht Hj). simpl. by destruct k.
Qed.
Lemma page_token_some t k tok : EncodeListJobsPageToken t k = Ok tok → tok ≠ "" ∧ ValidString tok = true.
Proof.
  unfold EncodeListJobsPageToken. intros (raw & Hraw & [= <-])%bind_ok.
  split; [|by apply digits_valid, encode_digits]. intros He%raw_url_empty. by apply (cursor_text_some _ _ Hraw).
Qed.
Lemma wrapped_roundtrip position binding : position ≠ "" → ValidString binding = true → ValidString position = true →
  WrapJobCursor position binding ≠ "" ∧ UnwrapJobCursor (WrapJobCursor position binding) binding = Ok position.
Proof.
  intros Hne Hb Hp. unfold WrapJobCursor, UnwrapJobCursor. rewrite (str_empty_ne _ Hne).
  assert (raw_url_encode (job_cursor_text (mkJobCursor 1 binding position)) ≠ "") as Hsome
    by (intros He%raw_url_empty; by apply job_cursor_text_some in He).
  split; [done|]. rewrite (str_empty_ne _ Hsome), raw_url_roundtrip. cbn [mbind option_bind].
  rewrite job_cursor_keeps by done. simpl. by rewrite String.eqb_refl, (str_empty_ne _ Hne).
Qed.
(** Whatever query it is used with, a token only leads where it was made for. *)
Lemma unwrapped_position position binding binding' p :
  position ≠ "" → ValidString binding = true → ValidString position = true →
  UnwrapJobCursor (WrapJobCursor position binding) binding' = Ok p → p = position.
Proof.
  intros Hne Hb Hp. unfold WrapJobCursor, UnwrapJobCursor. rewrite (str_empty_ne _ Hne).
  rewrite (str_empty_ne (raw_url_encode _)) by (intros He%raw_url_empty; by apply job_cursor_text_some in He).
  rewrite raw_url_roundtrip. cbn [mbind option_bind]. rewrite job_cursor_keeps by done.
  cbn [mbind option_bind jc_Position]. destruct (_ && _); [|done]. by intros [= <-].
Qed.
End tokens.
