(* ===== verification/ToyListing.v ===== *)
(** * ToyListing: the listings of the in-memory runtime

    [toyimpl/toy.go] ([ListJobs]), [toyimpl/goal_discovery.go] and the listings of
    [toyimpl/schedule.go]: which rows match, what a row shows, and the pages.  Each
    listing runs in one critical section and changes nothing.

    [sort.Slice] leaves rows with equal keys in any order; [merge_sort] picks one.
    Absent metadata and an empty object are one value, as everywhere. *)

From S2P Require Import Prelude Types GoalStore GoalEngine Json ClientPayload Cells CellState Metadata Chapters Schedule ScheduleRuns.
From S2P Require Import ToyState ToyLease Base64 Paging JobFilters.
Open Scope Z_scope.

(** ** What a row shows *)

(** [ExtractParentJobID]; the flag is whether the job has a parent. *)
Definition ExtractParentJobID `{ScheduleText} (raw : json) : result (string * bool) :=
  match raw with
  | JNull => Ok ("", false)
  | JObj root =>
      match obj_get "internal" root with
      | None => Ok ("", false)
      | Some v =>
          let? m := as_runtime_metadata v in
          let parent := TrimSpace (rm_ParentJobID m) in
          Ok (parent, negb (str_empty parent))
      end
  | _ => Err (ErrMsg "metadata must be a JSON object")
  end.

(** [AppMetadataFromStoredMetadata] ([StripRuntimeMetadata]): the application's part
    of an envelope; other metadata is the application's altogether.  [JObj []] is
    also the answer when there is none. *)
Definition storedInternalMetadataKnown (v : json) : bool :=
  match v with
  | JObj o => bool_decide (is_Some (obj_get "schedule" o)) || bool_decide (is_Some (obj_get "schemaHash" o))
              || bool_decide (is_Some (obj_get "parentJobId" o))
  | _ => false
  end.
Definition envelope_app `{ScheduleText} (raw : json) (root : list (string * json)) : json :=
  match (match obj_get "internal" root with Some v => as_runtime_metadata v | None => Ok (mkRuntimeMetadata None "" "") end) with
  | Err _ => raw
  | Ok _ => match obj_get "app" root with None | Some JNull => JObj [] | Some app => app end
  end.
Definition AppMetadataFromStoredMetadata `{ScheduleText} (raw : json) : json :=
  match raw with
  | JObj root =>
      if bool_decide (is_Some (obj_get "app" root)) then envelope_app raw root
      else match obj_get "internal" root with
      | Some v => if storedInternalMetadataKnown v then envelope_app raw root else raw
      | None => raw
      end
  | v => v
  end.

(** [ExecutionState], [toyExecutionState] *)
Record ExecutionState := mkExecutionState { es_RunPolicy : json; es_TaskWait : option TaskWait }.
Definition toyExecutionState (p : workerJobPayload) : ExecutionState :=
  mkExecutionState (wp_RunPolicy p)
    ((λ t, mkTaskWait (wt_InputStep t) (wt_OutputStep t) (wt_InputHash t) (wt_Next t)) <$> wp_TaskWait p).

(** [DependencyWaitSummary], [JobSummary] *)
Record DependencyWaitSummary := mkWaitSummary { dws_WaitID : string; dws_Deadline : option time }.
Record JobSummary := mkJobSummary {
  js_Cell : string; js_CellID : string; js_CellRepo : string; js_BlockingWait : option DependencyWaitSummary;
  js_GoalID : string; js_OtherGoalIDs : list string; js_JobKey : JobKey; js_Status : JobStatus;
  js_CompletionStatus : string; js_CompletionDetail : string; js_WaitFor : list string;
  js_ClientPayload : option string; js_ClientPayloadRevision : Z; js_ExecutionState : ExecutionState;
  js_JobType : string; js_NextRoute : Route; js_AvailableAt : time; js_CancelRequested : bool;
  js_CreatedAt : time; js_ArchivedAt : option time; js_Metadata : json; js_SchemaHash : string; js_ParentJobID : string
}.

(** The order of job listings: newest first, then by key from the end. *)
Definition job_position := (time * string)%type.
Definition job_before : job_position → job_position → bool :=
  pair_lt Z.eqb (λ a b, b <? a) (λ a b, str_lt b a).
#[export] Instance job_listing : ListOrder job_before.
Proof. apply pair_listing; [apply Z.eqb_eq|apply (reversed_listing Z.ltb), _|apply (reversed_listing str_lt), _]. Qed.
Definition summary_key (s : JobSummary) : job_position := (js_CreatedAt s, JobKey_String (js_JobKey s)).

Section listing.
Context `{RangeOrder} `{ChapterChecks} `{FloatText} `{ScheduleText} `{PageText}.

(** [otherGoalsLocked] *)
Definition otherGoalsLocked (e : ToyEngine) (key : JobKey) : list string :=
  merge_sort str_le ((λ kv, gk_GoalID (ck_Goal kv.1)) <$>
    filter (λ kv, gk_TenantId (ck_Goal kv.1) = jk_TenantId key ∧ ck_JobID kv.1 = jk_JobId key) (range (e_Extras e))).

(** [blockingWaitLocked], [blockingWaitSummaryLocked] *)
Definition waits_for (r : jobRecord) : bool := negb (str_empty (jr_dependencyWaitID r)) && open r.
Definition blockingWaitLocked (e : ToyEngine) (key : JobKey) (r : jobRecord) (now : time)
    : result (option DependencyWaitInfo) :=
  if negb (waits_for r) then Ok None else
  let? w := mem_Wait (goal_view e) (mkWaitKey key (jr_dependencyWaitID r)) in
  let? w := Evaluate now (goal_view e) w in
  Ok (if bool_decide (wi_State w = DependencyPending) then Some w else None).
Definition blockingWaitSummaryLocked (e : ToyEngine) (key : JobKey) (r : jobRecord) (now : time)
    : result (option DependencyWaitSummary) :=
  if negb (waits_for r) then Ok None else
  let? w := mem_Wait (goal_view e) (mkWaitKey key (jr_dependencyWaitID r)) in
  Ok (if bool_decide (wi_State w = DependencyPending) && negb (deadline_passed now w)
      then Some (mkWaitSummary (wi_WaitID w) (wi_Deadline w)) else None).

(** The current name of a cell; a cell that is not there has none. *)
Definition cell_name (e : ToyEngine) (tenant id : string) : string :=
  match cs_Cells (cellsLocked tenant e) !! id with Some c => c_Name c | None => "" end.

(** ** [ListJobs] *)

(** The stores a request reads; [None] when it names neither, which cannot happen. *)
Definition listed_stores (req : ListJobsRequest) : bool * bool :=
  match lj_Statuses req with
  | [] => match lj_Stores req with
          | [] => (true, true)
          | st => (bool_decide (JobStoreActive ∈ st), bool_decide (JobStoreArchived ∈ st))
          end
  | sts => (existsb (λ s, negb (bool_decide (s = JobStatusCompleted))) sts, bool_decide (JobStatusCompleted ∈ sts))
  end.
Definition store_of (s : JobStatus) : JobStore := if bool_decide (s = JobStatusCompleted) then JobStoreArchived else JobStoreActive.
Definition jobTaskAllowed (req : ListJobsRequest) (r : jobRecord) : bool :=
  bool_decide (lj_JobTasks req = []) ||
  (negb (str_empty (r_JobType (jr_route r))) &&
   existsb (λ t, negb (str_empty (r_JobType t) || str_empty (r_TaskType t)) && bool_decide (jr_route r = t)) (lj_JobTasks req)).

(** The conditions before the metadata is looked at, and those on the metadata. *)
Definition plain_match (req : ListJobsRequest) (allowed : gset string) (e : ToyEngine) (now : time) (key : JobKey)
    (r : jobRecord) : bool :=
  let status := availableStatusLocked e (jk_TenantId key) now r in
  let stores := listed_stores req in
  (negb (jr_hidden r) || lj_IncludeHidden req)
  && allows (lj_TenantIds req) (jk_TenantId key) && bool_decide (rs_CellID (jr_cell r) ∈ allowed)
  && (if bool_decide (status = JobStatusCompleted) then stores.2 else stores.1)
  && allows (lj_Stores req) (store_of status) && allows (lj_Statuses req) status
  && allows (lj_JobKeys req) key && allows (lj_JobTypes req) (jr_jobType r) && jobTaskAllowed req r
  && (bool_decide (lj_AvailableRoutes req = [])
      || (bool_decide (status = JobStatusReady) && bool_decide (effectiveRoute now r ∈ lj_AvailableRoutes req))).
Definition meta_match (req : ListJobsRequest) (preds : list normalizedMetadataPredicate) (r : jobRecord)
    (parent : string * bool) : bool :=
  negb (lj_RootOnly req && parent.2) && allows (lj_ParentJobIDs req) parent.1
  && opt_all (λ t, negb (Before (jr_createdAt r) t)) (lj_CreatedAfter req)
  && opt_all (λ t, negb (After (jr_createdAt r) t)) (lj_CreatedBefore req)
  && (bool_decide (length preds = 0%nat) || metadataMatches float_text (jr_metadata r) preds).
Definition goal_match (req : ListJobsRequest) (e : ToyEngine) (key : JobKey) (r : jobRecord) : bool :=
  bool_decide (lj_GoalIDs req = []) || bool_decide (jr_goalID r ∈ lj_GoalIDs req)
  || existsb (λ g, bool_decide (g ∈ lj_GoalIDs req)) (otherGoalsLocked e key).

Definition job_summary (e : ToyEngine) (now : time) (key : JobKey) (r : jobRecord) (parent : string)
    (blocking : option DependencyWaitSummary) : JobSummary :=
  mkJobSummary (cell_name e (jk_TenantId key) (rs_CellID (jr_cell r))) (rs_CellID (jr_cell r)) (rs_CellRepo (jr_cell r))
    blocking (jr_goalID r) [] key (availableStatusLocked e (jk_TenantId key) now r) (jr_completionStatus r)
    (jr_completionDetail r) (jr_waitFor r) (jr_clientPayload r) (jr_clientPayloadRevision r)
    (toyExecutionState (jr_payload r)) (jr_jobType r) (jr_route r) (jr_createdAt r) (jr_cancelled r) (jr_createdAt r)
    (jr_archived r) (AppMetadataFromStoredMetadata (jr_metadata r)) (SchemaHashFromStoredMetadata (jr_metadata r)) parent.

(** One round of the loop over the records; [None] leaves the job out. *)
Definition list_row (req : ListJobsRequest) (preds : list normalizedMetadataPredicate) (allowed : gset string)
    (e : ToyEngine) (now : time) (kr : JobKey * jobRecord) : result (option JobSummary) :=
  if negb (plain_match req allowed e now kr.1 kr.2) then Ok None else
  let? parent := ExtractParentJobID (jr_metadata kr.2) in
  if negb (meta_match req preds kr.2 parent && goal_match req e kr.1 kr.2) then Ok None else
  let? blocking := blockingWaitSummaryLocked e kr.1 kr.2 now in
  Ok (Some (job_summary e now kr.1 kr.2 parent.1 blocking)).

Definition allowed_cells (ctx : Context) (req : ListJobsRequest) (e : ToyEngine) : result (gset string) :=
  fold_result (λ out tenant,
    let? ids := Select ctx tenant (lj_CellNames req) "jobs.list" (cellsLocked tenant e) in Ok (ids ∪ out))
    ∅ (lj_TenantIds req).
Definition job_predicates (req : ListJobsRequest) : result (list normalizedMetadataPredicate) :=
  let? raw := MetadataPredicates (lj_MetadataFilter req) in normalizeMetadataPredicates raw.
(** The rows a request matches, in the order the records are visited. *)
Definition job_rows (ctx : Context) (req : ListJobsRequest) (e : ToyEngine) (now : time) : result (list JobSummary) :=
  let? preds := job_predicates req in
  let? allowed := allowed_cells ctx req e in
  let? rows := map_result (list_row req preds allowed e now) (range (e_jobRecords e)) in
  Ok (omap id rows).
Definition query_binding (ctx : Context) (req : ListJobsRequest) (allowed : gset string) : string :=
  JobQueryBinding ctx req (if bool_decide (is_Some (lj_CellNames req)) then elements allowed else []).
(** The position in a token, after its wrapping is taken off. *)
Definition job_cursor (position : string) : result (option job_position) :=
  if str_empty position then Ok None else
  let? d := DecodeListJobsPageToken position in Ok (Some (d.1, JobKey_String d.2)).
(** A token is only left out when it cannot be encoded. *)
Definition next_job_token (page : list JobSummary) : string :=
  match last page with
  | Some s => match EncodeListJobsPageToken (js_CreatedAt s) (js_JobKey s) with Ok tok => tok | Err _ => "" end
  | None => ""
  end.
Definition job_le := row_le summary_key job_before.
#[export] Instance job_le_dec a b : Decision (job_le a b).
Proof. unfold job_le. apply _. Defined.

Definition ListJobs (ctx : Context) (req : ListJobsRequest) (now : time) (e : ToyEngine) : result (list JobSummary * string) :=
  let? _ := ValidateRoutes req in
  let? _ := guard_err (negb (bool_decide (lj_TenantIds req = []))) (ErrMsg "tenant_ids is required for ListJobs") in
  let? _ := guard_err (negb (lj_RootOnly req && negb (bool_decide (lj_ParentJobIDs req = []))))
              (ErrMsg "RootOnly cannot be combined with ParentJobIDs") in
  let size := Z.to_nat (DiscoveryPageSize (lj_PageSize req)) in
  let stores := listed_stores req in
  if negb (stores.1 || stores.2) then Ok ([], "") else
  let? _ := job_predicates req in
  let? allowed := allowed_cells ctx req e in
  let binding := query_binding ctx req allowed in
  let? position := UnwrapJobCursor (lj_PageToken req) binding in
  let? cursor := job_cursor position in
  let? rows := job_rows ctx req e now in
  let rest := filter (λ s, behind job_before cursor (summary_key s) = true) (merge_sort job_le rows) in
  let page := take size rest in
  Ok (page, if (size <? length rest)%nat then WrapJobCursor (next_job_token page) binding else "").

(** ** Schedules and their runs *)
Record ListSchedulesRequest := mkListSchedules {
  ls_TenantId : string; ls_ScheduleIds : list string; ls_States : list ScheduleState; ls_TargetJobTypes : list string;
  ls_PageSize : Z; ls_PageToken : string
}.
Definition schedule_position (i : ScheduleInfo) : job_position := (si_UpdatedAt i, si_ScheduleId i).
Definition schedule_le := row_le schedule_position job_before.
#[export] Instance schedule_le_dec a b : Decision (schedule_le a b).
Proof. unfold schedule_le. apply _. Defined.
Definition schedule_listed (req : ListSchedulesRequest) (kv : ScheduleKey * ScheduleInfo) : bool :=
  (str_empty (ls_TenantId req) || String.eqb (sk_TenantId kv.1) (ls_TenantId req))
  && allows (ls_ScheduleIds req) (si_ScheduleId kv.2) && allows (ls_States req) (si_State kv.2)
  && allows (ls_TargetJobTypes req) (st_JobType (si_Target kv.2)).
(** All schedules in one page: the page size and token are not looked at. *)
Definition ListSchedules (req : ListSchedulesRequest) (e : ToyEngine) : list ScheduleInfo * string :=
  (merge_sort schedule_le (snd <$> filter (λ kv, schedule_listed req kv = true) (range (e_schedules e))), "").

Record ListScheduleRunsRequest := mkListRuns {
  lr_ScheduleKey : ScheduleKey; lr_ScheduledAfter : option time; lr_ScheduledBefore : option time;
  lr_Statuses : list JobStatus; lr_PageSize : Z; lr_PageToken : string
}.
#[export] Instance eta_ListScheduleRunsRequest : Eta ListScheduleRunsRequest := λ r,
  mkListRuns (lr_ScheduleKey r) (lr_ScheduledAfter r) (lr_ScheduledBefore r) (lr_Statuses r) (lr_PageSize r) (lr_PageToken r).
Record ScheduleRunSummary := mkRunSummary {
  rs_Job : JobSummary; rs_ScheduleId : string; rs_ScheduledAt : time; rs_ReasonCode : string
}.
(** [scheduleReasonFromCompletionDetail] *)
Definition scheduleReasonFromCompletionDetail (detail : string) : string :=
  match Json.parse detail with
  | Ok (JObj o) => match field as_string "" "reasonCode" o with Ok code => code | Err _ => "" end
  | _ => ""
  end.
Definition run_summary (req : ListScheduleRunsRequest) (e : ToyEngine) (now : time) (key : JobKey) (r : jobRecord)
    (scheduledAt : time) : ScheduleRunSummary :=
  mkRunSummary
    (mkJobSummary (rs_Cell (jr_cell r)) (rs_CellID (jr_cell r)) (rs_CellRepo (jr_cell r)) None (jr_goalID r)
       (otherGoalsLocked e key) key (currentStatus now r) (jr_completionStatus r) (jr_completionDetail r) (jr_waitFor r)
       (jr_clientPayload r) (jr_clientPayloadRevision r) (toyExecutionState (jr_payload r)) (jr_jobType r) (jr_route r)
       (jr_availableAt r) (jr_cancelled r) (jr_createdAt r) (jr_archived r) (AppMetadataFromStoredMetadata (jr_metadata r))
       "" "")
    (sk_ScheduleId (lr_ScheduleKey req)) scheduledAt (scheduleReasonFromCompletionDetail (jr_completionDetail r)).
Definition run_key (s : ScheduleRunSummary) : job_position := summary_key (rs_Job s).
Definition run_le := row_le run_key job_before.
#[export] Instance run_le_dec a b : Decision (run_le a b).
Proof. unfold run_le. apply _. Defined.

(** One round of the loop; the status compared is the stored one. *)
Definition run_row (req : ListScheduleRunsRequest) (e : ToyEngine) (now : time) (kr : JobKey * jobRecord)
    : result (option ScheduleRunSummary) :=
  let key := kr.1 in let r := kr.2 in
  if negb (String.eqb (jk_TenantId key) (sk_TenantId (lr_ScheduleKey req))) || jr_hidden r then Ok None else
  let? occ := ExtractScheduleOccurrenceMetadata (jr_metadata r) in
  match occ with
  | None => Ok None
  | Some o =>
      if negb (String.eqb (om_ScheduleId o) (sk_ScheduleId (lr_ScheduleKey req))) then Ok None
      else if negb (opt_all (λ t, negb (Before (om_ScheduledAt o) t)) (lr_ScheduledAfter req)
                    && opt_all (λ t, negb (After (om_ScheduledAt o) t)) (lr_ScheduledBefore req)
                    && allows (lr_Statuses req) (jr_status r)) then Ok None
      else Ok (Some (run_summary req e now key r (om_ScheduledAt o)))
  end.
Definition run_rows (req : ListScheduleRunsRequest) (e : ToyEngine) (now : time) : result (list ScheduleRunSummary) :=
  let? rows := map_result (run_row req e now) (range (e_jobRecords e)) in Ok (omap id rows).
Definition ListScheduleRuns (req : ListScheduleRunsRequest) (now : time) (e : ToyEngine)
    : result (list ScheduleRunSummary * string) :=
  let? _ := ScheduleKey_Validate (lr_ScheduleKey req) in
  let size := Z.to_nat (DiscoveryPageSize (lr_PageSize req)) in
  let? cursor := job_cursor (lr_PageToken req) in
  let? rows := run_rows req e now in
  let rest := merge_sort run_le (filter (λ s, behind job_before cursor (run_key s) = true) rows) in
  let page := take size rest in
  Ok (page, if (size <? length rest)%nat then next_job_token (rs_Job <$> page) else "").

(** ** One job and its history *)

(** [JobInfo]; the data of a job that is not complete is an error. *)
Record JobInfo := mkJobInfo {
  ji_Cell : string; ji_CellID : string; ji_CellRepo : string; ji_NextRoute : Route; ji_CompletionStatus : string;
  ji_CompletionDetail : string; ji_WaitFor : list string; ji_BlockingWait : option DependencyWaitInfo;
  ji_GoalID : string; ji_OtherGoalIDs : list string; ji_ClientPayload : option string;
  ji_ClientPayloadRevision : Z; ji_ExecutionState : ExecutionState; ji_Status : JobStatus;
  ji_Data : option (option TaskData * option JobErr); ji_SchemaHash : string
}.
Definition GetJob (key : JobKey) (now : time) (e : ToyEngine) : result JobInfo :=
  let? r := of_option ErrJobNotFound (e_jobRecords e !! key) in
  let? blocking := blockingWaitLocked e key r now in
  Ok (mkJobInfo (cell_name e (jk_TenantId key) (rs_CellID (jr_cell r))) (rs_CellID (jr_cell r)) (rs_CellRepo (jr_cell r))
        (jr_route r) (jr_completionStatus r) (jr_completionDetail r) (jr_waitFor r) blocking (jr_goalID r)
        (otherGoalsLocked e key) (jr_clientPayload r) (jr_clientPayloadRevision r) (toyExecutionState (jr_payload r))
        (availableStatusLocked e (jk_TenantId key) now r)
        (if final_status (jr_status r) then Some (jr_result r, jr_err r) else None)
        (SchemaHashFromStoredMetadata (jr_metadata r))).

(** [GetChapter], [ListChapters] *)
Definition requirePublishedJob (key : JobKey) (e : ToyEngine) : result () :=
  let? _ := of_option ErrJobNotFound (e_jobRecords e !! key) in Ok tt.
Definition GetChapter (key : JobKey) (ordinal : Z) (e : ToyEngine) : result Chapter :=
  let? _ := requirePublishedJob key e in
  let? chapters := of_option ErrChapterNotFound (e_runtimeChapters e !! key) in
  of_option ErrChapterNotFound (chapters !! ordinal).
Definition ordinal_listed (first : Z) (last : option Z) (n : Z) : bool := (first <=? n) && opt_all (λ b, n <=? b) last.
Definition ListChapters (key : JobKey) (first : Z) (last : option Z) (e : ToyEngine) : result (list Chapter) :=
  let? _ := requirePublishedJob key e in
  let? _ := guard_err (0 <=? first) (ErrMsg "start ordinal must be >= 0") in
  let? chapters := of_option ErrJobNotFound (e_runtimeChapters e !! key) in
  Ok (omap (λ n, chapters !! n) (filter (λ n, ordinal_listed first last n = true)
        (merge_sort Z.le (range chapters).*1))).
End listing.
