(* ===== verification/Discovery.v ===== *)
(** * Discovery: listing goals and dependency waits

    [goal_discovery.go] (requests, validation, page tokens) and
    [toyimpl/goal_discovery.go] ([ListGoals], [ListDependencyWaits]).  A page token
    holds the last row's ID and a digest of the filters it belongs to.

    Go values of metadata predicates that are byte slices are refused; here they are
    values without an encoding. *)

From S2P Require Import Prelude Types GoalStore GoalEngine Json Cells Metadata Chapters.
From S2P Require Import ToyState Base64 Paging JobFilters.
Open Scope Z_scope.

(** ** Requests *)
Record GoalCandidateFilter := mkCandidateFilter {
  gf_JobIDs : list string; gf_JobTypes : list string; gf_MetadataEquals : list MetadataPredicate
}.
Record ListGoalsRequest := mkListGoals {
  lg_TenantId : string; lg_GoalIDs : list string; lg_States : list GoalState;
  lg_CreatedAfter : option time; lg_CreatedBefore : option time; lg_UpdatedAfter : option time; lg_UpdatedBefore : option time;
  lg_Candidate : option GoalCandidateFilter; lg_PageSize : Z; lg_PageToken : string
}.
#[export] Instance eta_ListGoalsRequest : Eta ListGoalsRequest := λ r,
  mkListGoals (lg_TenantId r) (lg_GoalIDs r) (lg_States r) (lg_CreatedAfter r) (lg_CreatedBefore r) (lg_UpdatedAfter r)
    (lg_UpdatedBefore r) (lg_Candidate r) (lg_PageSize r) (lg_PageToken r).
Record GoalSummary := mkGoalSummary {
  gs_Goal : GoalInfo; gs_CandidateCount : Z; gs_NonTerminalCandidateCount : Z; gs_TerminalCandidateCount : Z;
  gs_UnavailableCandidateCount : Z
}.
Record ListDependencyWaitsRequest := mkListWaits {
  lw_TenantId : string; lw_ConsumerJobID : string; lw_Target : option DependencyTarget; lw_States : list DependencyState;
  lw_PageSize : Z; lw_PageToken : string
}.
#[export] Instance eta_ListDependencyWaitsRequest : Eta ListDependencyWaitsRequest := λ r,
  mkListWaits (lw_TenantId r) (lw_ConsumerJobID r) (lw_Target r) (lw_States r) (lw_PageSize r) (lw_PageToken r).

(** [discoveryCursor]; the texts of requests and cursors, and whether a text decodes
    into a string, a boolean or a number. *)
Record discoveryCursor := mkDiscoveryCursor { dc_Scope : string; dc_After : list string }.
Class DiscoveryText := {
  discovery_text : discoveryCursor → string; discovery_value : string → option discoveryCursor;
  goals_query : ListGoalsRequest → result string; waits_query : ListDependencyWaitsRequest → result string;
  json_scalar : string → bool
}.
Class DiscoveryTextLaws `{ChapterChecks} `{DiscoveryText} := {
  discovery_text_some c : discovery_text c ≠ "";
  discovery_keeps c : ValidString (dc_Scope c) = true → Forall (λ s, ValidString s = true) (dc_After c) →
    discovery_value (discovery_text c) = Some c;
  query_digest_valid raw : ValidString (sha256_hex raw) = true
}.

Section discovery.
Context `{RangeOrder} `{ChapterChecks} `{FloatText} `{DiscoveryText}.

(** [ListGoalsRequest.Validate], [ListDependencyWaitsRequest.Validate] *)
Definition in_order (a b : option time) : bool :=
  match a, b with Some a, Some b => negb (After a b) | _, _ => true end.
Definition scalar_value (v : PredValue) : bool :=
  match v with
  | PredNil => false
  | PredText valid text => valid && json_scalar text
  | PredAny (Some text) => json_scalar text
  | PredAny None => false
  end.
Definition valid_equality (p : MetadataPredicate) : bool :=
  negb (bool_decide (mp_Path p = [])) && (0 <? length (mp_Values p))%nat && forallb scalar_value (mp_Values p)
  && forallb (λ part, negb (str_empty part)) (mp_Path p).
Definition ListGoalsRequest_Validate (r : ListGoalsRequest) : result () :=
  guard_err (negb (blank (lg_TenantId r)) && in_order (lg_CreatedAfter r) (lg_CreatedBefore r)
             && in_order (lg_UpdatedAfter r) (lg_UpdatedBefore r)
             && opt_all (λ f, forallb valid_equality (gf_MetadataEquals f)) (lg_Candidate r)) ErrInvalidDependency.
Definition ListDependencyWaitsRequest_Validate (r : ListDependencyWaitsRequest) : result () :=
  let? _ := guard_err (negb (blank (lw_TenantId r) || (str_empty (lw_ConsumerJobID r) && bool_decide (lw_Target r = None))))
              ErrInvalidDependency in
  match lw_Target r with
  | Some t =>
      let? _ := ValidateDependencies [mkDependency t JobPrereqSuccess] in
      guard_err (bool_decide (lw_States r = []) || bool_decide (lw_States r = [DependencyPending])) ErrInvalidDependency
  | None => Ok tt
  end.

(** [DiscoveryPageScope], [DecodeDiscoveryPage], [EncodeDiscoveryPage] *)
Definition DiscoveryPageScope (type : string) (raw : result string) : result string :=
  match raw with Ok raw => Ok (type +:+ ":" +:+ sha256_hex raw) | Err _ => Err ErrInvalidDependency end.
Definition goals_scope (r : ListGoalsRequest) : result string :=
  DiscoveryPageScope "jobdb.ListGoalsRequest" (goals_query (r <| lg_PageToken := "" |> <| lg_PageSize := 0 |>)).
Definition waits_scope (r : ListDependencyWaitsRequest) : result string :=
  DiscoveryPageScope "jobdb.ListDependencyWaitsRequest" (waits_query (r <| lw_PageToken := "" |> <| lw_PageSize := 0 |>)).
Definition DecodeDiscoveryPage (token scope : string) (dimensions : nat) : result (list string) :=
  if str_empty token then Ok (repeat "" dimensions) else
  of_option ErrInvalidDependency
    (raw ← raw_url_decode false token; c ← discovery_value raw;
     if String.eqb (dc_Scope c) scope && bool_decide (length (dc_After c) = dimensions) then Some (dc_After c) else None).
Definition EncodeDiscoveryPage (scope : string) (after : list string) : string :=
  raw_url_encode (discovery_text (mkDiscoveryCursor scope after)).

(** ** Listing goals *)
(** The candidates of a goal: the jobs that belong to it and those added to it. *)
Definition goal_members (e : ToyEngine) (k : GoalKey) : gset string :=
  list_to_set (((λ kr, jk_JobId kr.1) <$>
                  filter (λ kr, jk_TenantId kr.1 = gk_TenantId k ∧ jr_goalID kr.2 = gk_GoalID k) (range (e_jobRecords e)))
               ++ ((λ p, ck_JobID p.1) <$> filter (λ p, ck_Goal p.1 = k) (range (e_Extras e)))).
Definition candidate_record (e : ToyEngine) (k : GoalKey) (id : string) : option jobRecord :=
  e_jobRecords e !! mkJobKey (gk_TenantId k) id.
Definition candidate_terminal (k : GoalKey) (id : string) (r : jobRecord) : bool :=
  j_Terminal (goalJob (mkJobKey (gk_TenantId k) id) r).
Definition count (f : string → bool) (ids : list string) : Z := Z.of_nat (length (filter (λ id, f id = true) ids)).
Definition record_test (e : ToyEngine) (k : GoalKey) (f : string → jobRecord → bool) (id : string) : bool :=
  match candidate_record e k id with Some r => f id r | None => false end.
Definition goal_summary (e : ToyEngine) (k : GoalKey) (g : GoalInfo) : GoalSummary :=
  let ids := elements (goal_members e k) in
  mkGoalSummary g (Z.of_nat (length ids))
    (count (record_test e k (λ id r, negb (candidate_terminal k id r))) ids)
    (count (record_test e k (candidate_terminal k)) ids)
    (count (λ id, negb (bool_decide (is_Some (candidate_record e k id)))) ids).

(** Whether one of the candidates passes the filter. *)
Definition candidate_match (f : GoalCandidateFilter) (e : ToyEngine) (k : GoalKey) (id : string) : result bool :=
  match candidate_record e k id with
  | None => Ok false
  | Some r =>
      if negb (allows (gf_JobIDs f) id && allows (gf_JobTypes f) (jr_jobType r)) then Ok false else
      let? preds := normalizeMetadataPredicates (gf_MetadataEquals f) in
      Ok (metadataMatches float_text (jr_metadata r) preds)
  end.
Definition goal_matched (req : ListGoalsRequest) (e : ToyEngine) (k : GoalKey) : result bool :=
  match lg_Candidate req with
  | None => Ok true
  | Some f => let? ms := map_result (candidate_match f e k) (elements (goal_members e k)) in Ok (existsb id ms)
  end.
Definition within (t : time) (from until : option time) : bool :=
  opt_all (λ a, negb (Before t a)) from && opt_all (λ b, negb (After t b)) until.

(** One round of the loop over the goals, after [after]. *)
Definition goal_row (req : ListGoalsRequest) (after : string) (e : ToyEngine) (kg : GoalKey * GoalInfo)
    : result (option GoalSummary) :=
  let k := kg.1 in
  if negb (String.eqb (gk_TenantId k) (lg_TenantId req)) || negb (str_lt after (gk_GoalID k)) then Ok None else
  let? g := mem_Goal (goal_view e) k in
  if negb (allows (lg_GoalIDs req) (gk_GoalID k) && allows (lg_States req) (gi_State g)
           && within (gi_CreatedAt g) (lg_CreatedAfter req) (lg_CreatedBefore req)
           && within (gi_UpdatedAt g) (lg_UpdatedAfter req) (lg_UpdatedBefore req)) then Ok None else
  let? matched := goal_matched req e k in
  Ok (if matched then Some (goal_summary e k g) else None).
Definition goal_position (s : GoalSummary) : string := gk_GoalID (gi_GoalKey (gs_Goal s)).
Definition goal_le := row_le goal_position str_lt.
#[export] Instance goal_le_dec a b : Decision (goal_le a b).
Proof. unfold goal_le. apply _. Defined.
Definition page_token (scope : string) (after : option (list string)) : string :=
  match after with Some a => EncodeDiscoveryPage scope a | None => "" end.

Definition ListGoals (req : ListGoalsRequest) (e : ToyEngine) : result (list GoalSummary * string) :=
  let? _ := ListGoalsRequest_Validate req in
  let size := Z.to_nat (DiscoveryPageSize (lg_PageSize req)) in
  let? scope := goals_scope req in
  let? after := DecodeDiscoveryPage (lg_PageToken req) scope 1 in
  let? rows := map_result (goal_row req (default "" (after !! 0%nat)) e) (range (e_GoalRows e)) in
  let rest := merge_sort goal_le (omap id rows) in
  let page := take size rest in
  Ok (page, if (size <? length rest)%nat
            then page_token scope ((λ s, [goal_position s]) <$> last page) else "").

(** ** Listing dependency waits *)
Definition waits_on (t : DependencyTarget) (w : DependencyWaitInfo) : bool :=
  bool_decide (wi_State w = DependencyPending) &&
  existsb (λ d, bool_decide (dr_Target d = t) && bool_decide (dr_State d = DependencyPending)) (wi_Dependencies w).
Definition wait_position (w : DependencyWaitInfo) : string * string := (jk_JobId (wi_JobKey w), wi_WaitID w).
Definition wait_before : string * string → string * string → bool := pair_lt String.eqb str_lt str_lt.
#[export] Instance wait_listing : ListOrder wait_before.
Proof. apply pair_listing; [apply String.eqb_eq|apply _..]. Qed.
Definition wait_le := row_le wait_position wait_before.
#[export] Instance wait_le_dec a b : Decision (wait_le a b).
Proof. unfold wait_le. apply _. Defined.
Definition wait_row (req : ListDependencyWaitsRequest) (after : string * string) (now : time) (e : ToyEngine)
    (kw : DependencyWaitKey * DependencyWaitInfo) : result (option DependencyWaitInfo) :=
  let key := kw.1 in
  if negb (String.eqb (jk_TenantId (wk_JobKey key)) (lw_TenantId req))
     || (negb (str_empty (lw_ConsumerJobID req)) && negb (String.eqb (jk_JobId (wk_JobKey key)) (lw_ConsumerJobID req)))
     || negb (wait_before after (jk_JobId (wk_JobKey key), wk_WaitID key)) then Ok None else
  let? w := mem_Wait (goal_view e) key in
  let? w := Evaluate now (goal_view e) w in
  Ok (if opt_all (λ t, waits_on t w) (lw_Target req) && allows (lw_States req) (wi_State w) then Some w else None).
Definition ListDependencyWaits (req : ListDependencyWaitsRequest) (now : time) (e : ToyEngine)
    : result (list DependencyWaitInfo * string) :=
  let? _ := ListDependencyWaitsRequest_Validate req in
  let size := Z.to_nat (DiscoveryPageSize (lw_PageSize req)) in
  let? scope := waits_scope req in
  let? after := DecodeDiscoveryPage (lw_PageToken req) scope 2 in
  let? rows := map_result (wait_row req (default "" (after !! 0%nat), default "" (after !! 1%nat)) now e)
                 (range (e_WaitRows e)) in
  let rest := merge_sort wait_le (omap id rows) in
  let page := take size rest in
  Ok (page, if (size <? length rest)%nat
            then page_token scope ((λ w, [(wait_position w).1; (wait_position w).2]) <$> last page) else "").
End discovery.
