(* ===== verification/CellPages.v ===== *)
(** * CellPages: listing the cells of a tenant

    [State.List] of [runtime/cellstate/state.go].  A page token is the text of a
    cursor with an authentication code under the registry's own key; it names the
    caller and the filters it belongs to and expires a day after the first page. *)

From S2P Require Import Prelude Types Cells CellState Base64 Grants Paging.
Open Scope Z_scope.

Record ListCellsRequest := mkListCells {
  lq_TenantID : string; lq_Name : string; lq_State : string; lq_PageToken : string; lq_PageSize : Z
}.
#[export] Instance eta_ListCellsRequest : Eta ListCellsRequest := λ r,
  mkListCells (lq_TenantID r) (lq_Name r) (lq_State r) (lq_PageToken r) (lq_PageSize r).
(** [cursor] *)
Record cellCursor := mkCellCursor {
  cu_Tenant : string; cu_Principal : string; cu_Name : string; cu_State : string; cu_After : string; cu_ExpiresAt : Z
}.
#[export] Instance eta_cellCursor : Eta cellCursor := λ c,
  mkCellCursor (cu_Tenant c) (cu_Principal c) (cu_Name c) (cu_State c) (cu_After c) (cu_ExpiresAt c).
#[export] Instance cellCursor_eq_dec : EqDecision cellCursor.
Proof. solve_decision. Defined.
(** [json.Marshal] and [json.Unmarshal] of a cursor. *)
Class CellCursorText := { cell_cursor_text : cellCursor → string; cell_cursor_value : string → option cellCursor }.
(** A valid string in a cursor is read back. *)
Class CellCursorLaws `{CellCursorText} := {
  cell_cursor_keeps c c' : ValidString (cu_After c) = true → cell_cursor_value (cell_cursor_text c) = Some c' →
    cu_After c' = cu_After c
}.

Section cells.
Context `{CellText} `{RangeOrder} `{GrantKeys} `{CellCursorText}.

Definition state_text (s : CellState) : string := match s with CellActive => "ACTIVE" | CellRetired => "RETIRED" end.
Definition visible_cell (ctx : Context) (id : string) : bool :=
  match cx_Authority ctx with Some a => opt_all (λ cells, bool_decide (id ∈ cells)) (ca_Cells a) | None => true end.
Definition named (s : State) (name id : string) : bool :=
  str_empty name || match ByName s name with Some c => String.eqb (c_ID c) id | None => false end.
(** The request with its defaults. *)
Definition cells_state (r : ListCellsRequest) : string := if str_empty (lq_State r) then "ACTIVE" else lq_State r.
Definition cells_size (r : ListCellsRequest) : Z := if lq_PageSize r =? 0 then 100 else lq_PageSize r.
Definition cell_listed (ctx : Context) (r : ListCellsRequest) (s : State) (id : string) (c : Cell) : bool :=
  visible_cell ctx id && (String.eqb (cells_state r) "ALL" || String.eqb (state_text (c_State c)) (cells_state r))
  && named s (lq_Name r) id.

(** The token of a page, and the cursor a token stands for. *)
Definition seal_cursor (s : State) (c : cellCursor) : string :=
  let raw := cell_cursor_text c in
  raw_url_encode raw +:+ "." +:+ raw_url_encode (hmac_sha256 (cs_CursorKey s) raw).
Definition open_cursor (s : State) (want : cellCursor) (token : string) (now : time) : option cellCursor :=
  match split_dots token with
  | [p0; p1] =>
      raw ← raw_url_decode false p0; signature ← raw_url_decode false p1;
      if negb (String.eqb signature (hmac_sha256 (cs_CursorKey s) raw)) then None else
      got ← cell_cursor_value raw;
      let want := want <| cu_After := cu_After got |> <| cu_ExpiresAt := cu_ExpiresAt got |> in
      if (cu_ExpiresAt got <=? Unix now) || negb (bool_decide (got = want)) then None else Some want
  | _ => None
  end.

Definition after_token (ctx : Context) (r : ListCellsRequest) (now : time) (s : State) : result cellCursor :=
  let want := mkCellCursor (lq_TenantID r) (principal ctx) (lq_Name r) (cells_state r) "" (Unix (now + day)) in
  if str_empty (lq_PageToken r) then Ok want
  else of_option (ErrCell ErrInvalidCellPageToken) (open_cursor s want (lq_PageToken r) now).
(** Cells in the order of the keys of their rows. *)
Definition cell_rows (s : State) : list (string * Cell) :=
  omap (λ id, (λ c, (id, c)) <$> cs_Cells s !! id) (merge_sort str_le (range (cs_Cells s)).*1).
Definition CellList (ctx : Context) (r : ListCellsRequest) (now : time) (s : State) : result (list Cell * string) :=
  let? _ := AuthorizeCell ctx (lq_TenantID r) "" "cells.list" in
  let state := cells_state r in
  let? _ := guard_err (String.eqb state "ACTIVE" || String.eqb state "RETIRED" || String.eqb state "ALL") (ErrCell ErrInvalidCell) in
  let? _ := if str_empty (lq_Name r) then Ok tt else ValidateCellName (lq_Name r) in
  let size := cells_size r in
  let? _ := guard_err ((1 <=? size) && (size <=? 1000)) (ErrCell ErrInvalidCell) in
  let? want := after_token ctx r now s in
  let rest := snd <$> filter (λ kc, str_lt (cu_After want) kc.1 = true ∧ cell_listed ctx r s kc.1 kc.2 = true) (cell_rows s) in
  let page := take (Z.to_nat size) rest in
  Ok (page, if (Z.to_nat size <? length rest)%nat
            then match last page with Some c => seal_cursor s (want <| cu_After := c_ID c |>) | None => "" end
            else "").
End cells.
