(* ===== verification/ToyRestart.v ===== *)
(** * ToyRestart: jobs that start from a retained history

    The critical section of [submitRestartJobWithParent] with the history it
    selects and the comparison with an existing job ([toyimpl/runtime.go]). *)

From S2P Require Import Prelude Types GoalStore GoalEngine Json ClientPayload Cells CellState Metadata Chapters Schedule ScheduleRuns.
From S2P Require Import ToyState ToyLease ToySubmit.

(** What the section works on: the request after the restart point was resolved,
    with the execution record to append, if any. *)
Record RestartJob := mkRestart {
  rj_PriorJobKey : JobKey; rj_LastStepToKeep : Z; rj_ExecutionRestart : option string;
  rj_HasExtraOutput : bool; rj_SchemaHash : string
}.

(** [extractRunPolicyFromMetadata] *)
Definition extractRunPolicyFromMetadata (m : json) : json :=
  match m with
  | JObj o => default (JObj []) (obj_get "run_policy" o)
  | _ => JObj []
  end.

Section restart.
Context `{CellText} `{RangeOrder} `{ChapterChecks}.

(** The retained prefix: every chapter up to [LastStepToKeep], the next one must
    exist and must not continue a retry chain. *)
Definition execution_chapter (ordinal : Z) (rec : string) : Chapter :=
  mkChapter ordinal "__execution__" (Some (ExecutionChapter rec)) "" 0 (JObj []) [].
Definition retained (key : JobKey) (job : RestartJob) (source : gmap Z Chapter) : result (gmap Z Chapter) :=
  let last := rj_LastStepToKeep job in
  let? next := of_option (ErrMsg "LastStepToKeep invalid: no chapter at the next ordinal") (source !! (last + 1)%Z) in
  let attempt := extractAttemptFromMetadata (ch_Metadata next) in
  let? _ := guard_err (negb (attempt =? 0)%Z) (ErrMsg "chapter metadata is not readable") in
  let? _ := guard_err (negb (bool_decide (rj_ExecutionRestart job = None) && (1 <? attempt)%Z))
              (ErrMsg "LastStepToKeep cuts into retry chain") in
  let kept := filter (λ oc : Z * Chapter, (oc.1 ≤ last)%Z) source in
  let kept := match rj_ExecutionRestart job with
    | Some rec => <[(last + 1)%Z := execution_chapter (last + 1) rec]> kept
    | None => kept
    end in
  let? _ := guard_err (bool_decide (is_Some (kept !! 0%Z))) ErrJobNotFound in
  let? _ := match rj_ExecutionRestart job with
    | Some rec => ValidateOrdinaryChapter key (rj_SchemaHash job) (execution_chapter (last + 1) rec)
    | None => Ok tt
    end in
  Ok kept.

(** [existingEquivalentRestartJob]: the comparisons, in order. *)
Fixpoint same_prefix (n : nat) (from : Z) (expected existing : gmap Z Chapter) : bool :=
  match n with
  | O => true
  | S n => match expected !! from, existing !! from with
    | Some want, Some got => chapter_eqb got want && same_prefix n (from + 1) expected existing
    | _, _ => false
    end
  end.
Definition body_at (o : Z) (chs : gmap Z Chapter) : option ChapterBody := chs !! o ≫= ch_Body.
Definition existingEquivalentRestartJob (key : JobKey) (r : jobRecord) (job : RestartJob) (digest : string)
    (expected : gmap Z Chapter) (metadata : json) (e : ToyEngine) : result JobHandle :=
  let differs := ErrExistingJobMismatch in
  let last := rj_LastStepToKeep job in
  let? _ := guard_err (String.eqb (jr_initialPayloadDigest r) digest) (differs "initial client payload differs") in
  let? _ := guard_err (json_eqb (jr_metadata r) metadata) (differs "different metadata") in
  let? existing := of_option (differs "without runtime chapters") (e_runtimeChapters e !! key) in
  let? _ := guard_err (same_prefix (Z.to_nat (last + 1)) 0 expected existing) (differs "different restart history") in
  let? _ := match rj_ExecutionRestart job with
    | None => Ok tt
    | Some _ => guard_err (match body_at (last + 1) existing, body_at (last + 1) expected with
                           | Some a, Some b => body_eqb a b
                           | _, _ => false
                           end) (differs "execution restart payload differs")
    end in
  let? _ := guard_err (negb (match body_at (last + 1) existing with
                             | Some (RestartExtraChapter _) => negb (rj_HasExtraOutput job)
                             | _ => false
                             end)) (differs "restart extra output that was not requested") in
  Ok (Handle (jr_cell r) key (jr_goalID r)).

(** The record's views of the retained chapters: a chapter whose outcome is an
    error stops the restart with that error. *)
Definition restart_step (oc : Z * Chapter) : result (Z * toyChapter) :=
  let? te := taskDataFromChapter oc.2 in
  match te.2 with
  | Some _ => Err (ErrMsg "chapter outcome is an error")
  | None => Ok (oc.1, mkToyChapter (ch_TaskType oc.2) (ch_CreatedAt oc.2) (Some te.1) (Some te.1) 1 None)
  end.
Definition restart_record (nj : NewJob) (jobType : string) (runPolicy : json) (chs : gmap Z toyChapter) : jobRecord :=
  new_record jobType (nj_ClientPayload nj) (nj_Revision nj) (nj_Digest nj) (nj_Metadata nj) runPolicy
    JobStatusReady [] (nj_CreatedAt nj) (nj_CreatedAt nj) chs.

(** The critical section; chapters appear after the goal transitions succeed. *)
Definition publish_restart (ctx : Context) (key : JobKey) (job : RestartJob) (nj : NewJob) (now : time)
    : M ToyEngine JobHandle := λ e,
  match
    let? source := of_option ErrJobNotFound (e_runtimeChapters e !! rj_PriorJobKey job) in
    retained key job source
  with
  | Err err => (e, Err err)
  | Ok kept =>
      match e_jobRecords e !! key with
      | Some r => (e, existingEquivalentRestartJob key r job (nj_Digest nj) kept (nj_Metadata nj) e)
      | None =>
          match
            let? steps := map_result restart_step (range kept) in
            let? chap0 := of_option ErrJobNotFound (kept !! 0%Z) in
            Ok (restart_record nj (ch_TaskType chap0) (extractRunPolicyFromMetadata (ch_Metadata chap0))
                  (list_to_map steps))
          with
          | Err err => (e, Err err)
          | Ok r =>
              let e1 := put_record key r e in
              match publishGoalLocked ctx key r now e1 with
              | Err err => (e1 <| e_jobRecords := delete key (e_jobRecords e1) |>, Err err)
              | Ok e2 =>
                  let e3 := e2 <| e_runtimeChapters := <[key := kept]> (e_runtimeChapters e2) |> in
                  (e3, Ok match e_jobRecords e3 !! key with
                          | Some r => Handle (jr_cell r) key (jr_goalID r)
                          | None => Handle (jr_cell r) key (jr_goalID r)
                          end)
              end
          end
      end
  end.
End restart.
