(* ===== verification/ToyRun.v ===== *)
(** * ToyRun: the runtime as a transition system

    Requests run concurrently; what they do between taking and releasing the
    engine's lock is atomic.  [section] lists these critical sections, [exec] is
    what each does, and [step] lets any request whose arguments are available run
    its next section at any moment: every interleaving of requests is a sequence
    of steps.  A section that continues a request is a step of its own with the
    data the request carried over, whatever happened in between. *)

From S2P Require Import Prelude Types GoalStore GoalEngine Json ClientPayload Cells CellState Metadata Chapters Schedule ScheduleRuns.
From S2P Require Import ToyState ToyLease ToyChapters ToySubmit ToySchedule ToyRestart.

Inductive section :=
  | SPrepare (ctx : Context) (req : Preparation) (gen : string → result JobKey) (goal : string)
  | SDiscard (key : JobKey)
  | SSubmit (ctx : Context) (key : JobKey) (j : NewJob) (availableAt : option time)
      (input hash : string) (metadata : json) (arts : list StoredArtifact)
  | SScheduled (ctx : Context) (key : JobKey) (j : NewJob) (at_ : time) (previous overlap : string)
      (input hash : string) (metadata : json) (arts : list StoredArtifact)
  | SRestart (ctx : Context) (key : JobKey) (job : RestartJob) (j : NewJob)
  | SPoll (ctx : Context) (req : PollWorkRequest) (new_id : nat → string)
  | SGetLease (ctx : Context) (req : GetJobLeaseRequest) (id : string)
  | SKeepAlive (key : JobKey) (leaseID workerID : string) (duration : Z)
  | SRenew (key : JobKey) (leaseID workerID : string) (duration : Z)
  | SUpload (key : JobKey) (ordinal : Z) (uploads : list ArtifactUpload)
  | SStoreHistory (key : JobKey) (ordinal : Z) (ch : Chapter)
  | SStoreView (key : JobKey) (ordinal : Z) (ch : Chapter)
  | SComplete (key : JobKey) (leaseID workerID : string) (req : CompleteExecutionRequest)
  | SPayloadFailure (key : JobKey) (leaseID workerID : string) (req : CompleteExecutionRequest) (ch : Chapter)
  | SReschedule (key : JobKey) (leaseID workerID : string) (req : RescheduleExecutionRequest)
  | STaskSnapshot (key : JobKey)
  | STaskPublish (req : CompleteTaskIfWaitingRequest) (p : workerJobPayload) (route : Route)
      (w : workerTaskWait) (a : TaskAnswer)
  | SCancel (key : JobKey) (reason : string)
  | SClear (key : JobKey)
  | SDelete (req : DeleteJobsRequest)
  | SAddCandidate (req : AddGoalCandidateRequest)
  | SFailGoal (req : FailGoalRequest)
  | SCreateCell (ctx : Context) (req : CreateCellRequest) (id revision : string)
  | SCreateCellWithLease (ctx : Context) (p : LeaseProof) (principal : string) (req : CreateCellRequest)
      (id revision : string)
  | SUpdateCell (ctx : Context) (req : UpdateCellRequest) (revision : string)
  | SRetireCell (ctx : Context) (req : RetireCellRequest) (revision : string)
  | SUpsert (ctx : Context) (req : UpsertScheduleRequest) (target : ScheduleTarget) (next : option time)
  | SMutate (ctx : Context) (req : ScheduleMutationRequest) (state : ScheduleState).

Section run.
Context `{CellText} `{RangeOrder} `{FloatText} `{ChapterChecks} `{TimeZones} `{ScheduleText}.

Definition drop_result {A} (m : M ToyEngine A) : M ToyEngine () := do! m in m_ret tt.

Lemma drop_result_fst {A} (m : M ToyEngine A) e : (drop_result m e).1 = (m e).1.
Proof. unfold drop_result, m_bind, m_ret. by destruct (m e) as [? []]. Qed.

Definition exec (s : section) (now : time) : M ToyEngine () :=
  match s with
  | SPrepare ctx req gen goal => drop_result (PrepareJob ctx req now gen goal)
  | SDiscard key => λ e, (DiscardJobPreparation key e, Ok tt)
  | SSubmit ctx key j at_ input hash md arts =>
      drop_result (publish_job ctx key (submitted_record j at_) (start_chapter j input hash md arts) now)
  | SScheduled ctx key j at_ prev overlap input hash md arts =>
      drop_result (publish_job ctx key (scheduled_record j at_ prev overlap) (start_chapter j input hash md arts) now)
  | SRestart ctx key job j => drop_result (publish_restart ctx key job j now)
  | SPoll ctx req new_id => drop_result (acquire_ready ctx req now new_id)
  | SGetLease ctx req id => drop_result (acquire_job ctx req now id)
  | SKeepAlive key id wk d => drop_result (KeepAliveLeaseByID key id wk d now)
  | SRenew key id wk d => drop_result (RenewExecutionLeaseByID key id wk d now)
  | SUpload key o us => drop_result (write_uploads key o us)
  | SStoreHistory key o ch => store_history key o ch
  | SStoreView key o ch => store_view key o ch
  | SComplete key id wk req => complete_commit key id wk req now
  | SPayloadFailure key id wk req ch => completePayloadFailure key id wk req ch now
  | SReschedule key id wk req => rescheduleLease key id wk req now
  | STaskSnapshot key => drop_result (task_snapshot key now)
  | STaskPublish req p route w a => task_publish req p route w a now
  | SCancel key reason => CancelJob key reason now
  | SClear key => ClearCrashConcern key now
  | SDelete req => drop_result (DeleteJobs req now)
  | SAddCandidate req => drop_result (AddGoalCandidate req now)
  | SFailGoal req => drop_result (FailGoal req now)
  | SCreateCell ctx req id rev => drop_result (CreateCell ctx req now id rev)
  | SCreateCellWithLease ctx p pr req id rev => drop_result (CreateCellWithLeaseByID ctx p pr req now id rev)
  | SUpdateCell ctx req rev => drop_result (UpdateCell ctx req now rev)
  | SRetireCell ctx req rev => drop_result (RetireCell ctx req now rev)
  | SUpsert ctx req target next => drop_result (upsert_section ctx req target next (request_time (us_RequestTime req) now))
  | SMutate ctx req state => drop_result (mutate_section ctx req state (request_time (sm_RequestTime req) now))
  end.

(** ** Generated identifiers

    Identifiers come from a generator of printable tokens that never repeats
    itself: those a section generates are new, distinct and not blank. *)
Definition generated (s : section) (e : ToyEngine) : list string :=
  match s with
  | SPrepare _ _ _ goal => [goal]
  | SPoll _ _ new_id => new_id <$> seq 0 (size (e_jobRecords e))
  | SGetLease _ _ id => [id]
  | _ => []
  end.

(** What a section carries over from the rest of its request. *)
Definition carried_ok (s : section) : Prop :=
  match s with
  | STaskPublish _ _ _ w a => ch_Ordinal (ta_Chapter a) = wt_OutputStep w
  | _ => True
  end.

(** ** Worlds and steps *)
Record World := mkWorld { w_now : time; w_used : gset string; w_engine : ToyEngine }.

Inductive step (s : section) (w w' : World) : Prop :=
  | step_intro :
      (w_now w ≤ w_now w')%Z →
      NoDup (generated s (w_engine w)) →
      (∀ id, id ∈ generated s (w_engine w) → id ∉ w_used w ∧ blank id = false) →
      carried_ok s →
      w_used w' = w_used w ∪ list_to_set (generated s (w_engine w)) →
      w_engine w' = (exec s (w_now w') (w_engine w)).1 →
      step s w w'.

Definition any_step (w w' : World) : Prop := ∃ s, step s w w'.
Definition initial (w : World) : Prop := ∃ keys, w_engine w = NewToyEngine keys.
Definition reachable (w : World) : Prop := ∃ w0, initial w0 ∧ rtc any_step w0 w.

(** A sequence of sections with their clock readings, run one after the other. *)
Definition run_section (e : ToyEngine) (st : section * time) : ToyEngine := (exec st.1 st.2 e).1.
Definition run_sections (e : ToyEngine) (l : list (section * time)) : ToyEngine := foldl run_section e l.
End run.
