(* ===== verification/ToyMoves.v ===== *)
(** * ToyMoves: what a critical section can do to one job's record

    An abstract lifecycle of a record: [move] lists the transitions, each with the
    guard under which the code makes it, and [exec_moves] shows that every
    critical section changes every record only along these transitions. *)

From S2P Require Import Prelude Types GoalStore GoalEngine Json ClientPayload Cells CellState Metadata Chapters Schedule ScheduleRuns.
From S2P Require Import ToyState ToyLease ToyChapters ToySubmit ToySchedule ToyRestart ToyRun.

(** The fields that decide who may run a job and what became of it. *)
Definition core (r : jobRecord) :=
  (jr_status r, jr_leased r, jr_leaseID r, jr_leaseWorkerID r, jr_leaseExpiresAt r, jr_archived r,
   jr_cancelled r, jr_completionStatus r, jr_completionDetail r, jr_consecutiveExpirations r,
   (jr_dependencyWaitID r, jr_key r, jr_goalID r, jr_createdAt r, jr_hidden r)).

(** The sections that can hand the lease of [k] to worker [wk]. *)
Definition acquires (s : section) (k : JobKey) (wk : string) : Prop :=
  match s with
  | SPoll _ req _ => pw_TenantId req = jk_TenantId k ∧ pw_WorkerID req = wk
  | SGetLease _ req _ => gl_JobKey req = k ∧ gl_WorkerID req = wk
  | _ => False
  end.
(** The section that publishes the answer of an external task of [k]. *)
Definition answers (s : section) (k : JobKey) : Prop :=
  match s with STaskPublish req _ _ _ _ => ct_JobKey req = k | _ => False end.

(** The result and error a job reports, and the section that sets them from the
    outcome chapter it stored. *)
Definition report (r : jobRecord) := (jr_result r, jr_err r).
Definition reports (s : section) (k : JobKey) : Prop :=
  match s with SStoreView key _ ch => key = k ∧ is_job_outcome ch = true | _ => False end.

(** The transitions of the record under [k] in section [s] at [now]; [e0] is the
    engine the section found. *)
Inductive move (s : section) (now : time) (e0 : ToyEngine) (k : JobKey) : jobRecord → jobRecord → Prop :=
  | move_view r r' : core r = core r' → report r = report r' ∨ reports s k → move s now e0 k r r'
  | move_advance e r : e_WaitRows e = e_WaitRows e0 → move s now e0 k r (advanceRecordStateLocked e (jk_TenantId k) now r)
  | move_take e r id wk d :
      acquires s k wk → e_WaitRows e = e_WaitRows e0 → id ∈ generated s e0 →
      jr_leased (advanceRecordStateLocked e (jk_TenantId k) now r) = false →
      jr_status (advanceRecordStateLocked e (jk_TenantId k) now r) = JobStatusReady →
      move s now e0 k r (take_lease now id wk d (advanceRecordStateLocked e (jk_TenantId k) now r))
  | move_extend r id wk t :
      holds_lease now id wk r = true → (now < t)%Z → move s now e0 k r (r <| jr_leaseExpiresAt := t |>)
  | move_complete r id wk req v n :
      s = SComplete k id wk req → holds_lease now id wk r = true →
      move s now e0 k r (completed_record now v n req r)
  | move_payload r id wk req ch :
      s = SPayloadFailure k id wk req ch → holds_lease now id wk r = true →
      move s now e0 k r (payload_failed_record now (ce_Detail req) ch r)
  | move_reschedule r id wk req task wid v n :
      s = SReschedule k id wk req → holds_lease now id wk r = true →
      move s now e0 k r (rescheduled_record now req task wid v n r)
  | move_answer r resume p w :
      answers s k → jr_leased r = false → currentStatus now r = JobStatusReady → open r = true →
      move s now e0 k r (answered_record resume p w r)
  | move_oversized r f p w :
      answers s k → jr_leased r = false → currentStatus now r = JobStatusReady → open r = true →
      move s now e0 k r (oversized_record now f p w r)
  | move_cancel r reason :
      s = SCancel k reason → archived r = false → move s now e0 k r (cancelled_record now reason r)
  | move_clear r :
      s = SClear k → open r = true → lease_running now r = false → move s now e0 k r (cleared_record now r)
  | move_delete r req :
      s = SDelete req → jk_TenantId k = dj_TenantID req → move s now e0 k r (deleted_record now r).

(** A record as it first appears. *)
Record born (k : JobKey) (r : jobRecord) : Prop := {
  bo_key : jr_key r = k;
  bo_leased : jr_leased r = false;
  bo_id : jr_leaseID r = "";
  bo_archived : jr_archived r = None;
  bo_cancelled : jr_cancelled r = false;
  bo_hidden : jr_hidden r = false;
  bo_count : jr_consecutiveExpirations r = 0%Z;
  bo_status : jr_status r ∈ [JobStatusReady; JobStatusAwaitingFuture; JobStatusPendingJobs]
}.

(** The sections that insert a record, and where. *)
Definition publishes (s : section) (k : JobKey) : Prop :=
  match s with SSubmit _ key _ _ _ _ _ _ | SScheduled _ key _ _ _ _ _ _ _ _ | SRestart _ key _ _ => key = k | _ => False end.

(** Tables whose records moved, none appearing. *)
Definition moved (s : section) (now : time) (e0 : ToyEngine) (m m' : gmap JobKey jobRecord) : Prop :=
  ∀ k, match m !! k, m' !! k with
       | Some r, Some r' => rtc (move s now e0 k) r r'
       | None, None => True
       | _, _ => False
       end.

Section moved.
Variables (s : section) (now : time) (e0 : ToyEngine).
#[local] Abbreviation moved := (moved s now e0).

Lemma moved_refl m : moved m m.
Proof. intros k. by destruct (m !! k). Qed.

Lemma moved_trans m1 m2 m3 : moved m1 m2 → moved m2 m3 → moved m1 m3.
Proof.
  intros H1 H2 k. specialize (H1 k). specialize (H2 k).
  destruct (m1 !! k), (m2 !! k), (m3 !! k); try done. by etrans.
Qed.

Lemma moved_insert m k r r' : m !! k = Some r → rtc (move s now e0 k) r r' → moved m (<[k := r']> m).
Proof.
  intros Hk Hr k'. destruct (decide (k = k')) as [<-|Hne].
  - by rewrite Hk, lookup_insert_eq.
  - rewrite lookup_insert_ne by done. by destruct (m !! k').
Qed.

Lemma moved_put e k r r' :
  e_jobRecords e !! k = Some r → rtc (move s now e0 k) r r' → moved (e_jobRecords e) (e_jobRecords (put_record k r' e)).
Proof. apply moved_insert. Qed.

Lemma move_once k r r' : move s now e0 k r r' → rtc (move s now e0 k) r r'.
Proof. apply rtc_once. Qed.

Lemma move_view_eq k r r' : core r = core r' → report r = report r' → rtc (move s now e0 k) r r'.
Proof. intros. apply rtc_once, move_view; [done|by left]. Qed.

Lemma advance_once e k r :
  e_WaitRows e = e_WaitRows e0 → rtc (move s now e0 k) r (advanceRecordStateLocked e (jk_TenantId k) now r).
Proof. intros. by apply rtc_once, move_advance. Qed.
End moved.
#[export] Hint Resolve moved_refl move_view_eq : jobdb.

Lemma core_status now r r' :
  core r = core r' →
  jr_leased r = jr_leased r' ∧ currentStatus now r = currentStatus now r' ∧ open r = open r'.
Proof.
  unfold core. intros Hc. injection Hc as Hs Hl Hid Hw He Ha Hca Hcs Hcd Hn Hd Hk Hg Hcr Hh.
  unfold currentStatus, open, archived. by rewrite Hs, Hl, He, Ha, Hca, Hn.
Qed.

(** ** Facts about acquisition *)
Lemma duration_pos d : (0 < toyLeaseDurationOrDefault d)%Z.
Proof. unfold toyLeaseDurationOrDefault, defaultToyRemoteLeaseDuration, second. destruct (Z.leb_spec d 0); lia. Qed.

Lemma acquirable_spec now routes r :
  acquirable now routes r = true → jr_leased r = false ∧ jr_status r = JobStatusReady ∧
  effectiveRoute now r ∈ routes.
Proof.
  unfold acquirable. intros [Ha Hr]%andb_true_iff. apply negb_true_iff, orb_false_iff in Ha as [Hl Hs].
  apply negb_false_iff, bool_decide_eq_true in Hs. apply bool_decide_eq_true in Hr.
  apply list_elem_of_filter in Hr as [_ Hr]. done.
Qed.

Lemma run_goals_records {A} (m : M Memory A) e : e_jobRecords (run_goals m e).1 = e_jobRecords e.
Proof. done. Qed.

Lemma run_goals_clone_records {A} (m : M Memory A) e : e_jobRecords (run_goals_clone m e).1 = e_jobRecords e.
Proof. unfold run_goals_clone. simpl. by destruct (is_ok _). Qed.

(** ** Every section moves records along the transitions *)
Section exec.
Context `{CellText} `{RangeOrder} `{FloatText} `{ChapterChecks} `{TimeZones} `{ScheduleText}.

(** The records after a section: those that were there moved, others were born. *)
Definition records_evolve (s : section) (now : time) (e e' : ToyEngine) : Prop :=
  ∀ k, match e_jobRecords e !! k, e_jobRecords e' !! k with
       | Some r, Some r' => rtc (move s now e k) r r'
       | None, None => True
       | None, Some r' => born k r' ∧ publishes s k
       | Some _, None => False
       end.

Lemma moved_evolve s now e e' : moved s now e (e_jobRecords e) (e_jobRecords e') → records_evolve s now e e'.
Proof. intros Hm k. specialize (Hm k). by destruct (e_jobRecords e !! k), (e_jobRecords e' !! k). Qed.

Lemma same_evolve s now e e' : e_jobRecords e' = e_jobRecords e → records_evolve s now e e'.
Proof. intros He. apply moved_evolve. rewrite He. apply moved_refl. Qed.

Lemma poll_moved ctx req new_id now e0 allowed ps limit keys e out :
  e_WaitRows e = e_WaitRows e0 → (length out + length keys ≤ size (e_jobRecords e0))%nat →
  moved (SPoll ctx req new_id) now e0 (e_jobRecords e)
    (e_jobRecords (poll_loop req allowed ps limit now new_id keys e out).1).
Proof.
  revert e out. induction keys as [|k keys IH]; intros e out HW Hlen; simpl in *; [apply moved_refl|].
  destruct (e_jobRecords e !! k) as [r|] eqn:Hr; [|apply IH; [done|lia]].
  destruct (_ || _) eqn:Hsel in |- *; [apply IH; [done|lia]|].
  apply orb_false_iff in Hsel as [Ht _]. apply negb_false_iff, String.eqb_eq in Ht.
  set (r1 := advanceRecordStateLocked e (jk_TenantId k) now r).
  assert (rtc (move (SPoll ctx req new_id) now e0 k) r r1) as Hadv by (by apply advance_once).
  destruct (negb (acquirable now (pw_Routes req) r1) || _) eqn:Hacq.
  - eapply moved_trans; [by eapply moved_put|]. apply IH; [done|lia].
  - apply orb_false_iff in Hacq as [Ha _]. apply negb_false_iff, acquirable_spec in Ha as (Hl & Hs & _).
    set (r2 := take_lease _ _ _ _ r1).
    assert (moved (SPoll ctx req new_id) now e0 (e_jobRecords e) (e_jobRecords (put_record k r2 e))) as Hput.
    { eapply moved_put; [done|]. apply rtc_once, move_take; [done|done| |done|done].
      simpl. apply list_elem_of_fmap. exists (length out). split; [done|]. apply elem_of_seq. lia. }
    destruct (_ <=? _)%nat; [exact Hput|].
    eapply moved_trans; [exact Hput|]. apply IH; [done|]. rewrite length_app. simpl. lia.
Qed.

Lemma poll_evolve ctx req new_id now e :
  records_evolve (SPoll ctx req new_id) now e (exec (SPoll ctx req new_id) now e).1.
Proof.
  apply moved_evolve. simpl. rewrite drop_result_fst. unfold acquire_ready.
  destruct (rbind _ _) as [[ps allowed]|err]; [|apply moved_refl]. simpl.
  apply poll_moved; [done|]. simpl. rewrite length_fmap, range_perm.
  by rewrite length_map_to_list.
Qed.

Lemma get_lease_evolve ctx req id now e :
  records_evolve (SGetLease ctx req id) now e (exec (SGetLease ctx req id) now e).1.
Proof.
  apply moved_evolve. simpl. rewrite drop_result_fst. unfold acquire_job.
  destruct (rbind _ _); [|apply moved_refl]. destruct (_ !! _) as [r|] eqn:Hr; [|apply moved_refl].
  destruct (rbind _ _); [|apply moved_refl].
  set (r1 := advanceRecordStateLocked e _ now r).
  destruct (negb (acquirable now (gl_Routes req) r1)) eqn:Ha.
  - eapply moved_put; [done|]. by apply advance_once.
  - apply negb_false_iff, acquirable_spec in Ha as (Hl & Hs & _). eapply moved_put; [done|].
    apply rtc_once, move_take; [done|done|set_solver|done|done].
Qed.

Lemma keepalive_evolve s key id wk d now e :
  records_evolve s now e (KeepAliveLeaseByID key id wk d now e).1.
Proof.
  apply moved_evolve. unfold KeepAliveLeaseByID. destruct (_ !! _) as [r|] eqn:Hr; [|apply moved_refl].
  destruct (negb (holds_lease now id wk r)) eqn:Hh; [apply moved_refl|]. apply negb_false_iff in Hh.
  eapply moved_put; [done|]. apply rtc_once. eapply move_extend; [done|].
  pose proof (duration_pos d). lia.
Qed.

Lemma renew_evolve s key id wk d now e :
  records_evolve s now e (RenewExecutionLeaseByID key id wk d now e).1.
Proof.
  apply moved_evolve. unfold RenewExecutionLeaseByID. destruct (_ !! _) as [r|] eqn:Hr; [|apply moved_refl].
  destruct (_ || negb (holds_lease now id wk r)) eqn:Hh; [apply moved_refl|].
  apply orb_false_iff in Hh as [_ Hh]. apply negb_false_iff in Hh.
  eapply moved_put; [done|]. apply rtc_once. eapply move_extend; [done|].
  pose proof (duration_pos d). lia.
Qed.

Lemma cancel_evolve key reason now e :
  records_evolve (SCancel key reason) now e (CancelJob key reason now e).1.
Proof.
  apply moved_evolve. unfold CancelJob. destruct (_ !! _) as [r|] eqn:Hr; [|apply moved_refl].
  destruct (archived r) eqn:Ha; [apply moved_refl|]. rewrite run_goals_records.
  eapply moved_put; [done|]. by apply rtc_once, move_cancel.
Qed.

Lemma clear_evolve key now e : records_evolve (SClear key) now e (ClearCrashConcern key now e).1.
Proof.
  apply moved_evolve. unfold ClearCrashConcern. destruct (_ || _); [apply moved_refl|].
  destruct (_ !! _) as [r|] eqn:Hr; [|apply moved_refl].
  destruct (_ || _) eqn:Hc; [apply moved_refl|]. apply orb_false_iff in Hc as [Hc Hl].
  apply orb_false_iff in Hc as [Ho _]. apply negb_false_iff in Ho.
  eapply moved_put; [done|]. by apply rtc_once, move_clear.
Qed.

Lemma delete_evolve req now e : records_evolve (SDelete req) now e (DeleteJobs req now e).1.
Proof.
  apply moved_evolve. unfold DeleteJobs. destruct (rbind _ _) as [ps|]; [|apply moved_refl].
  destruct (dj_DryRun req); [apply moved_refl|]. set (ms := (filter _ _).*1).
  assert (∀ k, k ∈ ms → jk_TenantId k = dj_TenantID req) as Hms.
  { intros k ([k' r] & -> & [Hsel _]%list_elem_of_filter)%list_elem_of_fmap. simpl.
    unfold delete_selects in Hsel. rewrite !andb_true_iff in Hsel. destruct Hsel as [[[[Ht _] _] _] _].
    by apply String.eqb_eq in Ht. }
  assert (moved (SDelete req) now e (e_jobRecords e) (e_jobRecords (m_iter (delete_one now) ms e).1)) as Hm.
  { apply (m_iter_inv (λ e', moved (SDelete req) now e (e_jobRecords e) (e_jobRecords e'))); [|apply moved_refl].
    intros k e' Hk Hm. eapply moved_trans; [exact Hm|]. unfold delete_one.
    destruct (_ !! k) as [r|] eqn:Hr; [|apply moved_refl]. rewrite run_goals_records.
    eapply moved_put; [done|]. apply rtc_once. eapply move_delete; eauto. }
  unfold m_bind, m_ret. by destruct (m_iter _ _ e) as [e' [[]|]].
Qed.

Lemma uploads_records key o us e : e_jobRecords (write_uploads key o us e).1 = e_jobRecords e.
Proof.
  revert e. induction us as [|u us IH]; intros e; [done|]. simpl. unfold m_bind, m_read, m_write, m_ret.
  destruct (au_Open u) as [data|]; [|done]. simpl.
  match goal with |- context [write_uploads key o us ?e1] => specialize (IH e1); destruct (write_uploads key o us e1) as [e2 [rest|]] end;
    simpl in *; by rewrite IH.
Qed.

Lemma history_records key o ch e : e_jobRecords (store_history key o ch e).1 = e_jobRecords e.
Proof. unfold store_history. destruct (e_runtimeChapters e !! key); [|done]. by repeat case_match. Qed.

Lemma view_evolve key o ch now e : records_evolve (SStoreView key o ch) now e (store_view key o ch e).1.
Proof.
  apply moved_evolve. unfold store_view. destruct (_ !! _) as [r|] eqn:Hr; [|apply moved_refl].
  destruct (taskDataFromChapter ch) as [[td err]|]; [|apply moved_refl].
  destruct (is_job_outcome ch) eqn:Ho; (eapply moved_put; [done|]).
  - apply rtc_once, move_view; [done|by right].
  - by apply move_view_eq.
Qed.

Lemma complete_evolve key id wk req now e :
  records_evolve (SComplete key id wk req) now e (complete_commit key id wk req now e).1.
Proof.
  apply moved_evolve. unfold complete_commit. destruct (_ !! _) as [r|] eqn:Hr; [|apply moved_refl].
  destruct (negb _) eqn:Hh; [apply moved_refl|]. apply negb_false_iff in Hh.
  destruct (Apply _ _ _) as [[v n]|]; [|apply moved_refl]. rewrite run_goals_records.
  eapply moved_put; [done|]. by eapply rtc_once, move_complete.
Qed.

Lemma payload_evolve key id wk req ch now e :
  records_evolve (SPayloadFailure key id wk req ch) now e (completePayloadFailure key id wk req ch now e).1.
Proof.
  apply moved_evolve. unfold completePayloadFailure. destruct (_ || _); [apply moved_refl|].
  destruct (_ !! _) as [r|] eqn:Hr; [|apply moved_refl].
  destruct (negb (holds_lease _ _ _ _)) eqn:Hh; [apply moved_refl|]. apply negb_false_iff in Hh.
  destruct (negb _); [apply moved_refl|]. rewrite run_goals_records.
  apply (moved_insert _ _ _ _ _ _ _ Hr). by eapply rtc_once, move_payload.
Qed.

Lemma reschedule_check_ok key id wk req now e r task vn :
  reschedule_check key id wk req now e = Ok (r, task, vn) →
  e_jobRecords e !! key = Some r ∧ holds_lease now id wk r = true.
Proof.
  unfold reschedule_check. intros Hc. split_res Hc. unfold of_option, guard_err in *.
  destruct (e_jobRecords e !! key); simplify_eq. by destruct (holds_lease now id wk r).
Qed.

Lemma reschedule_evolve key id wk req now e :
  records_evolve (SReschedule key id wk req) now e (rescheduleLease key id wk req now e).1.
Proof.
  apply moved_evolve. unfold rescheduleLease.
  destruct (reschedule_check _ _ _ _ _ _) as [[[r task] [v n]]|] eqn:Hc; [|apply moved_refl].
  apply reschedule_check_ok in Hc as [Hr Hh].
  pose proof (run_goals_clone_records (reschedule_goals key (jr_dependencyWaitID r) (re_DependencyWait req) now) e) as Hrec.
  destruct (run_goals_clone _ e) as [e1 [wid|err]]; cbn [fst] in *; [|rewrite Hrec; apply moved_refl].
  simpl. rewrite Hrec. eapply moved_insert; [done|]. by eapply rtc_once, move_reschedule.
Qed.

Lemma snapshot_evolve s key now e : records_evolve s now e (task_snapshot key now e).1.
Proof.
  apply moved_evolve. unfold task_snapshot. destruct (_ !! _) as [r|] eqn:Hr; [|apply moved_refl].
  eapply moved_put; [done|]. by apply advance_once.
Qed.

Lemma task_publish_evolve s req p route w a now e :
  answers s (ct_JobKey req) → records_evolve s now e (task_publish req p route w a now e).1.
Proof.
  intros Hans. apply moved_evolve. unfold task_publish. destruct (_ !! _) as [r|] eqn:Hr; [|apply moved_refl].
  set (r1 := advanceRecordStateLocked e _ now r).
  assert (rtc (move s now e (ct_JobKey req)) r r1) as Hadv by (by apply advance_once).
  clearbody r1.
  destruct (_ || _) eqn:Hg; [by eapply moved_put|].
  rewrite !orb_false_iff in Hg. destruct Hg as ((((Hl & Hs) & Ho) & _) & _).
  apply negb_false_iff in Hs, Ho. apply bool_decide_eq_true in Hs.
  destruct (e_runtimeChapters _ !! _) as [chs|]; [|by eapply moved_put].
  destruct (bool_decide _); [by eapply moved_put|]. destruct (negb _); [by eapply moved_put|].
  assert (∀ td r2, (∀ r3, core r3 = core r1 → move s now e (ct_JobKey req) r3 (r2 r3)) →
     moved s now e (e_jobRecords e)
       (<[ct_JobKey req := r2 (answered_view now w (ta_Chapter a) td r1)]>
          (<[ct_JobKey req := r1]> (e_jobRecords e)))) as Hput.
  { intros td r2 Hr2. rewrite insert_insert_eq. eapply moved_insert; [done|].
    etrans; [exact Hadv|]. eapply rtc_l; [apply (move_view _ _ _ _ _ (answered_view now w (ta_Chapter a) td r1)); [done|by left]|].
    apply rtc_once, Hr2. done. }
  destruct (ta_SizeFailure a) as [f|].
  - unfold m_bind.
    pose proof (run_goals_records (Complete now (ct_JobKey req)) (put_record (ct_JobKey req)
      (oversized_record now f p w (answered_view now w (ta_Chapter a) None r1))
      (put_artifacts (ct_JobKey req) (wt_OutputStep w) (ta_Artifacts a)
         (put_chapter (ct_JobKey req) (wt_OutputStep w) (ta_Chapter a) (put_record (ct_JobKey req) r1 e))))) as Hrec.
    destruct (run_goals _ _) as [e1 [[]|err]]; unfold m_err; simpl in *; rewrite Hrec;
      (apply (Hput None (oversized_record now f p w)); intros r3 (Hc1 & Hc2 & Hc3)%(core_status now);
       apply move_oversized; [done|congruence..]).
  - simpl. match goal with |- context [answered_record ?res p w (answered_view now w _ ?td r1)] =>
      apply (Hput td (answered_record res p w)) end.
    intros r3 (Hc1 & Hc2 & Hc3)%(core_status now). apply move_answer; [done|congruence..].
Qed.

(** Publication: the record of a new job gets its cell, key, goal and wait. *)
Lemma publish_goal_ok ctx key r now e e' :
  publishGoalLocked ctx key r now e = Ok e' →
  ∃ p cell wait, e_preparedGoals e !! key = Some p ∧
    wait = (if bool_decide (length (pp_Dependencies (pg_Request p)) = 0) then jr_dependencyWaitID r else "submission") ∧
    e_jobRecords e' = <[key := r <| jr_cell := cell |> <| jr_goalID := pg_GoalID p |> <| jr_key := key |>
                               <| jr_dependencyWaitID := wait |>]> (e_jobRecords e) ∧
    e_runtimeChapters e' = e_runtimeChapters e.
Proof.
  unfold publishGoalLocked. destruct (e_preparedGoals e !! key) as [p|]; [|done]. simpl.
  destruct (publishCellLocked ctx key now e) as [[cell cells]|]; [|done]. simpl.
  destruct (publish_goals _ _ _ _ _) as [m [[]|]]; [|done]. simpl. intros [= <-].
  exists p, cell, (if bool_decide (length (pp_Dependencies (pg_Request p)) = 0) then jr_dependencyWaitID r else "submission").
  split; [done|]. split; [done|]. split; [|done].
  unfold put_record. simpl. f_equal. by destruct (bool_decide _), r.
Qed.

Lemma born_published key r cell goal wait :
  born (jr_key r) r →
  born key (r <| jr_cell := cell |> <| jr_goalID := goal |> <| jr_key := key |> <| jr_dependencyWaitID := wait |>).
Proof. by intros [_ ? ? ? ? ? ? ?]. Qed.

Lemma publish_evolve s ctx key r now e0 e (after : ToyEngine → ToyEngine) :
  publishes s key → e_jobRecords e = e_jobRecords e0 → e_jobRecords e0 !! key = None → born (jr_key r) r →
  (∀ e', e_jobRecords (after e') = e_jobRecords e') →
  records_evolve s now e0
    match publishGoalLocked ctx key r now (put_record key r e) with
    | Err _ => put_record key r e <| e_jobRecords := delete key (e_jobRecords (put_record key r e)) |>
    | Ok e2 => after e2
    end.
Proof.
  intros Hp0 He Hk Hb Hafter. destruct (publishGoalLocked _ _ _ _ _) as [e2|] eqn:Hp.
  - apply publish_goal_ok in Hp as (p & cell & wait & _ & _ & Hrec & _). intros k. rewrite Hafter, Hrec.
    simpl. rewrite insert_insert_eq, He. destruct (decide (key = k)) as [<-|Hne].
    + rewrite Hk, lookup_insert_eq. split; [by apply born_published|done].
    + rewrite lookup_insert_ne by done. by destruct (e_jobRecords e0 !! k).
  - apply same_evolve. simpl. rewrite delete_insert_id by (by rewrite He). done.
Qed.

Lemma born_new jobType payload revision digest metadata runPolicy status waitFor at_ k chs :
  status ∈ [JobStatusReady; JobStatusAwaitingFuture; JobStatusPendingJobs] →
  born (jr_key (new_record jobType payload revision digest metadata runPolicy status waitFor at_ k chs))
    (new_record jobType payload revision digest metadata runPolicy status waitFor at_ k chs).
Proof. by split. Qed.

Lemma publish_job_evolve s ctx key r start now e :
  publishes s key → born (jr_key r) r → records_evolve s now e (publish_job ctx key r start now e).1.
Proof.
  intros Hs Hb. unfold publish_job. destruct (e_jobRecords e !! key) eqn:Hk; [by apply same_evolve|].
  pose proof (publish_evolve s ctx key r now e e (put_chapter key 0 start) Hs eq_refl Hk Hb (λ _, eq_refl)) as Hp.
  by destruct (publishGoalLocked ctx key r now (put_record key r e)).
Qed.

Lemma publish_restart_evolve s ctx key job j now e :
  publishes s key → records_evolve s now e (publish_restart ctx key job j now e).1.
Proof.
  intros Hs. unfold publish_restart. destruct (rbind _ _) as [kept|]; [|by apply same_evolve].
  destruct (e_jobRecords e !! key) eqn:Hk; [by apply same_evolve|].
  destruct (rbind _ _) as [r|] eqn:Hr; [|by apply same_evolve].
  assert (born (jr_key r) r) as Hb.
  { apply bind_ok in Hr as (steps & _ & Hr). apply bind_ok in Hr as (c0 & _ & [= <-]).
    apply born_new. set_solver. }
  pose proof (publish_evolve s ctx key r now e e (λ e2, e2 <| e_runtimeChapters := <[key := kept]> (e_runtimeChapters e2) |>)
    Hs eq_refl Hk Hb (λ _, eq_refl)) as Hp.
  by destruct (publishGoalLocked ctx key r now (put_record key r e)).
Qed.

Lemma on_cells_records {A} tenant (m : M State A) e : e_jobRecords (on_cells tenant m e).1 = e_jobRecords e.
Proof. done. Qed.

Lemma prepare_records ctx req now gen goal e : e_jobRecords (PrepareJob ctx req now gen goal e).1 = e_jobRecords e.
Proof. unfold PrepareJob. by destruct (rbind _ _) as [[[req'|] p]|]. Qed.

Lemma discard_records key e : e_jobRecords (DiscardJobPreparation key e) = e_jobRecords e.
Proof. unfold DiscardJobPreparation. by repeat case_match. Qed.

Lemma update_cell_records ctx req now rev e : e_jobRecords (UpdateCell ctx req now rev e).1 = e_jobRecords e.
Proof.
  unfold UpdateCell. pose proof (on_cells_records (ce_TenantID (uc_CellKey req)) (CellState.Update ctx req now rev) e) as He.
  destruct (on_cells _ _ e) as [e1 [c|]]; cbn [fst] in *; [|done]. by destruct (String.eqb _ _).
Qed.

(** Every critical section moves every record along [move]s and lets new records
    appear only in their initial form. *)
Theorem exec_moves s now e : records_evolve s now e (exec s now e).1.
Proof.
  destruct s; simpl exec; rewrite ?drop_result_fst.
  - apply same_evolve, prepare_records.
  - apply same_evolve, discard_records.
  - apply publish_job_evolve; [done|]. apply born_new. destruct (After _ _); set_solver.
  - apply publish_job_evolve; [done|]. apply born_new.
    destruct (bool_decide _); [|set_solver]. destruct (After _ _); set_solver.
  - by apply publish_restart_evolve.
  - rewrite <- drop_result_fst. apply poll_evolve.
  - rewrite <- drop_result_fst. apply get_lease_evolve.
  - apply keepalive_evolve.
  - apply renew_evolve.
  - apply same_evolve, uploads_records.
  - apply same_evolve, history_records.
  - apply view_evolve.
  - apply complete_evolve.
  - apply payload_evolve.
  - apply reschedule_evolve.
  - apply snapshot_evolve.
  - by apply task_publish_evolve.
  - apply cancel_evolve.
  - apply clear_evolve.
  - apply delete_evolve.
  - apply same_evolve, run_goals_clone_records.
  - apply same_evolve, run_goals_clone_records.
  - by apply same_evolve.
  - apply same_evolve. unfold CreateCellWithLeaseByID. by destruct (cellParentLocked _ _ _ _).
  - apply same_evolve, update_cell_records.
  - by apply same_evolve.
  - apply same_evolve. by edestruct upsert_schedules as [m ->].
  - apply same_evolve. by edestruct mutate_schedules as [m ->].
Qed.
End exec.
