(* ===== verification/ToyTables.v ===== *)
(** * ToyTables: the goal tables under the runtime's critical sections

    Rows stay filed under their keys, and dependency waits only move forward,
    whatever a section does and whatever error it returns. *)

From S2P Require Import Prelude Types GoalStore GoalEngine GoalWaits GoalInvariant.
From S2P Require Import Json ClientPayload Cells CellState Metadata Chapters Schedule ScheduleRuns.
From S2P Require Import ToyState ToyLease ToyChapters ToySubmit ToySchedule ToyRestart ToyRun.

Section tables.
Context `{RangeOrder}.

Definition tables_ok (e : ToyEngine) : Prop :=
  (∀ k g, e_GoalRows e !! k = Some g → gi_GoalKey g = k) ∧
  (∀ k w, e_WaitRows e !! k = Some w → wait_key w = k).

Lemma goal_view_jobs e k : m_Jobs (goal_view e) !! k = goalJob k <$> e_jobRecords e !! k.
Proof. simpl. rewrite map_lookup_imap. by destruct (e_jobRecords e !! k). Qed.

Lemma tables_memory e : tables_ok e → memory_ok (goal_view e).
Proof.
  intros [Hg Hw]. split; [exact Hg|exact Hw|]. intros k j. rewrite goal_view_jobs.
  destruct (e_jobRecords e !! k); [|done]. by intros [= <-].
Qed.

Definition waits_fwd (s s' : Memory) : Prop :=
  ∀ k w, mem_Wait s k = Ok w → ∃ w', mem_Wait s' k = Ok w' ∧ wait_evolves w w'.

Lemma waits_fwd_refl s : waits_fwd s s.
Proof. intros k w Hw. exists w. split; [done|reflexivity]. Qed.
Lemma waits_fwd_trans s1 s2 s3 : waits_fwd s1 s2 → waits_fwd s2 s3 → waits_fwd s1 s3.
Proof.
  intros H1 H2 k w Hw. destruct (H1 k w Hw) as (w1 & Hw1 & He1).
  destruct (H2 k w1 Hw1) as (w2 & Hw2 & He2). exists w2. split; [done|]. by etrans.
Qed.
Lemma waits_fwd_rows s s' : m_WaitRows s' = m_WaitRows s → waits_fwd s s'.
Proof. intros Hr k w Hw. exists w. split; [|reflexivity]. unfold mem_Wait in *. by rewrite Hr. Qed.

(** Computations on the goal store that keep it in order. *)
Definition forward {A} (m : M Memory A) : Prop :=
  ∀ s, memory_ok s → memory_ok (m s).1 ∧ waits_fwd s (m s).1.

Lemma forward_ret {A} (a : A) : forward (m_ret a).
Proof. intros s Hok. split; [done|]. apply waits_fwd_refl. Qed.
Lemma forward_read {A} (f : Memory → result A) : forward (m_read f).
Proof. intros s Hok. split; [done|]. apply waits_fwd_refl. Qed.
Lemma forward_bind {A B} (m : M Memory A) (f : A → M Memory B) :
  forward m → (∀ a, forward (f a)) → forward (m_bind m f).
Proof.
  intros Hm Hf s Hok. unfold m_bind. destruct (Hm s Hok) as [Hok1 Hw1].
  destruct (m s) as [s1 [a|err]]; simpl in *; [|done]. destruct (Hf a s1 Hok1) as [Hok2 Hw2].
  split; [done|]. by eapply waits_fwd_trans.
Qed.
Lemma forward_save_goal (g : GoalInfo) : forward (m_write (λ s, mem_SaveGoal s g)).
Proof.
  intros s Hok. unfold m_write. simpl. split; [|by apply waits_fwd_rows].
  by apply (@save_goal_ok _ _ memory_laws s g).
Qed.
Lemma forward_mono {A} W C (m : M Memory A) : mono W C m → forward m.
Proof. intros Hm s Hok. destruct (Hm s Hok) as [Hok' He]. split; [done|]. intros k w. apply (ev_wait _ _ _ _ He). Qed.
End tables.

Section forward_ops.
Context `{RangeOrder}.

Lemma forward_complete now key : forward (Complete now key).
Proof. apply (forward_mono (λ _, True) (λ _ _, True)), Complete_mono. Qed.
Lemma forward_close now key : forward (CloseConsumer now key).
Proof. apply (forward_mono (λ _, True) (λ _ _, True)), close_mono. Qed.
Lemma forward_register now key req sub : forward (Register now key req sub).
Proof. apply (forward_mono (λ _, True) (λ _ _, True)). by apply Register_mono. Qed.
Lemma forward_add now req : forward (Add now req).
Proof. apply (forward_mono (λ _, True) (λ _ _, True)). by apply Add_mono. Qed.
Lemma forward_fail now req : forward (Fail now req).
Proof. apply (forward_mono (λ _, True) (λ _ _, True)), Fail_mono. Qed.

Lemma forward_reschedule key old w now : forward (reschedule_goals key old w now).
Proof.
  unfold reschedule_goals. apply forward_bind.
  - destruct (_ && _); [apply forward_close|apply forward_ret].
  - intros _. destruct w as [w|]; [|apply forward_ret].
    apply forward_bind; [apply forward_register|]. intros _. apply forward_ret.
Qed.

Lemma forward_publish key p r now : forward (publish_goals key p r now).
Proof.
  unfold publish_goals. apply forward_bind; [|intros _; apply forward_bind; [|intros _; apply forward_read]].
  - destruct (pp_ShareGoal _); [|apply forward_save_goal].
    apply forward_bind; [apply forward_read|]. intros g. apply forward_read.
  - destruct (bool_decide _); [apply forward_ret|]. apply forward_bind; [apply forward_register|].
    intros _. apply forward_ret.
Qed.

(** ** The engine's tables *)
Definition engine_fwd (e e' : ToyEngine) : Prop := tables_ok e' ∧ waits_fwd (goal_view e) (goal_view e').

Lemma engine_same e e' :
  tables_ok e → e_GoalRows e' = e_GoalRows e → e_WaitRows e' = e_WaitRows e → engine_fwd e e'.
Proof.
  intros [Hg Hw] HG HW. split; [split; by rewrite ?HG, ?HW|]. by apply waits_fwd_rows.
Qed.

Lemma engine_fwd_trans e1 e2 e3 : engine_fwd e1 e2 → engine_fwd e2 e3 → engine_fwd e1 e3.
Proof. intros [_ H1] [? H2]. split; [done|]. by eapply waits_fwd_trans. Qed.

Lemma engine_goals {A} (m : M Memory A) e :
  forward m → tables_ok e → engine_fwd e (put_goals (m (goal_view e)).1 e).
Proof.
  intros Hm Hok. destruct (Hm _ (tables_memory _ Hok)) as [[Hg Hw _] Hf].
  split; [by split|]. eapply waits_fwd_trans; [exact Hf|]. by apply waits_fwd_rows.
Qed.

Lemma engine_run {A} (m : M Memory A) e :
  forward m → tables_ok e → engine_fwd e (run_goals m e).1.
Proof. apply engine_goals. Qed.

Lemma engine_run_clone {A} (m : M Memory A) e :
  forward m → tables_ok e → engine_fwd e (run_goals_clone m e).1.
Proof.
  intros Hm Hok. unfold run_goals_clone. simpl.
  destruct (is_ok _); [by apply engine_goals|]. by apply engine_same.
Qed.
End forward_ops.
#[export] Hint Resolve forward_complete forward_add forward_fail forward_reschedule forward_publish : jobdb.

Section exec.
Context `{CellText} `{RangeOrder} `{FloatText} `{ChapterChecks} `{TimeZones} `{ScheduleText}.

Lemma poll_tables req allowed ps limit now new_id keys e out :
  e_GoalRows (poll_loop req allowed ps limit now new_id keys e out).1 = e_GoalRows e ∧
  e_WaitRows (poll_loop req allowed ps limit now new_id keys e out).1 = e_WaitRows e.
Proof.
  revert e out. induction keys as [|k keys IH]; intros e out; simpl; [done|].
  destruct (e_jobRecords e !! k); [|apply IH]. destruct (_ || _); [apply IH|].
  destruct (_ || _); [apply (IH (put_record k _ e))|].
  destruct (_ <=? _)%nat; [done|apply (IH (put_record k _ e))].
Qed.

Lemma uploads_tables key o us e :
  e_GoalRows (write_uploads key o us e).1 = e_GoalRows e ∧ e_WaitRows (write_uploads key o us e).1 = e_WaitRows e.
Proof.
  revert e. induction us as [|u us IH]; intros e; [done|]. simpl. unfold m_bind, m_read, m_write, m_ret.
  destruct (au_Open u) as [data|]; [|done]. simpl.
  match goal with |- context [write_uploads key o us ?e1] => specialize (IH e1); destruct (write_uploads key o us e1) as [e2 [rest|]] end;
    simpl in *; by rewrite !(proj1 IH), !(proj2 IH).
Qed.

Lemma publish_goal_fwd ctx key r now e e' :
  tables_ok e → publishGoalLocked ctx key r now (put_record key r e) = Ok e' → engine_fwd e e'.
Proof.
  intros Hok. unfold publishGoalLocked. destruct (_ !! key) as [p|]; [|done]. simpl.
  destruct (publishCellLocked _ _ _ _) as [[cell cells]|]; [|done]. simpl.
  match goal with |- context [publish_goals key p ?r1 now (goal_view ?e2)] =>
    set (e1 := e2); assert (engine_fwd e e1) as Hfw by (by apply engine_same);
    pose proof (engine_goals (publish_goals key p r1 now) e1 (forward_publish _ _ _ _) (proj1 Hfw)) as [Hk Hw];
    destruct (publish_goals key p r1 now (goal_view e1)) as [m [[]|]] end; [|done].
  simpl in *. intros [= <-]. split; [exact Hk|exact Hw].
Qed.

Lemma publish_job_fwd ctx key r start now e :
  tables_ok e → engine_fwd e (publish_job ctx key r start now e).1.
Proof.
  intros Hok. unfold publish_job. destruct (e_jobRecords e !! key); [by apply engine_same|].
  destruct (publishGoalLocked ctx key r now (put_record key r e)) as [e2|] eqn:Hp; [|by apply engine_same].
  eapply engine_fwd_trans; [by eapply publish_goal_fwd|].
  apply publish_goal_fwd in Hp as [Hk _]; [|done]. by apply engine_same.
Qed.

(** Completing after changes that leave the tables alone. *)
Lemma complete_after now key e e1 :
  tables_ok e → e_GoalRows e1 = e_GoalRows e → e_WaitRows e1 = e_WaitRows e →
  engine_fwd e (run_goals (Complete now key) e1).1.
Proof.
  intros Hok HG HW. pose proof (engine_same e e1 Hok HG HW) as Hfw.
  eapply engine_fwd_trans; [exact Hfw|]. apply engine_run; [apply forward_complete|apply Hfw].
Qed.

Lemma goals_then_err {A B} (m : M ToyEngine A) err e : ((do! m in m_err (A := B) err) e).1 = (m e).1.
Proof. unfold m_bind, m_err. by destruct (m e) as [? []]. Qed.

(** The tables after any section. *)
Lemma exec_tables s now e : tables_ok e → engine_fwd e (exec s now e).1.
Proof.
  intros Hok. destruct s; simpl exec; rewrite ?drop_result_fst.
  - unfold PrepareJob. destruct (rbind _ _) as [[[req'|] p]|]; by apply engine_same.
  - unfold DiscardJobPreparation. simpl. repeat case_match; by apply engine_same.
  - by apply publish_job_fwd.
  - by apply publish_job_fwd.
  - unfold publish_restart. destruct (rbind _ _) as [kept|]; [|by apply engine_same].
    destruct (e_jobRecords e !! key); [by apply engine_same|].
    destruct (rbind _ _) as [r|]; [|by apply engine_same].
    destruct (publishGoalLocked ctx key r now (put_record key r e)) as [e2|] eqn:Hp; [|by apply engine_same].
    eapply engine_fwd_trans; [by eapply publish_goal_fwd|].
    apply publish_goal_fwd in Hp as [Hk _]; [|done]. by apply engine_same.
  - unfold acquire_ready. destruct (rbind _ _) as [[ps allowed]|]; [|by apply engine_same]. simpl.
    apply engine_same; [done|apply poll_tables|apply poll_tables].
  - unfold acquire_job. destruct (rbind _ _); [|by apply engine_same].
    destruct (_ !! _); [|by apply engine_same]. destruct (rbind _ _); [|by apply engine_same].
    destruct (negb _); by apply engine_same.
  - unfold KeepAliveLeaseByID. destruct (_ !! _); [|by apply engine_same]. destruct (negb _); by apply engine_same.
  - unfold RenewExecutionLeaseByID. destruct (_ !! _); [|by apply engine_same].
    destruct (_ || _); by apply engine_same.
  - apply engine_same; [done|apply uploads_tables|apply uploads_tables].
  - unfold store_history. destruct (_ !! _); [|by apply engine_same]. repeat case_match; by apply engine_same.
  - unfold store_view. destruct (_ !! _); [|by apply engine_same]. repeat case_match; by apply engine_same.
  - unfold complete_commit. destruct (_ !! _); [|by apply engine_same].
    destruct (negb _); [by apply engine_same|]. destruct (Apply _ _ _) as [[v n]|]; [|by apply engine_same].
    by apply complete_after.
  - unfold completePayloadFailure. destruct (_ || _); [by apply engine_same|].
    destruct (_ !! _); [|by apply engine_same]. destruct (negb _); [by apply engine_same|].
    destruct (negb _); [by apply engine_same|]. by apply complete_after.
  - unfold rescheduleLease. destruct (reschedule_check _ _ _ _ _ _) as [[[r task] [v n]]|]; [|by apply engine_same].
    pose proof (engine_run_clone (reschedule_goals key (jr_dependencyWaitID r) (re_DependencyWait req) now) e
      (forward_reschedule _ _ _ _) Hok) as Hf.
    destruct (run_goals_clone _ e) as [e1 [wid|]]; cbn [fst] in *; [|done].
    eapply engine_fwd_trans; [exact Hf|]. apply engine_same; [apply Hf|done..].
  - unfold task_snapshot. destruct (_ !! _); by apply engine_same.
  - unfold task_publish. destruct (_ !! _) as [r|]; [|by apply engine_same].
    destruct (_ || _); [by apply engine_same|]. destruct (e_runtimeChapters _ !! _); [|by apply engine_same].
    destruct (bool_decide _); [by apply engine_same|]. destruct (negb _); [by apply engine_same|].
    destruct (ta_SizeFailure a); [|by apply engine_same]. rewrite goals_then_err. by apply complete_after.
  - unfold CancelJob. destruct (_ !! _); [|by apply engine_same].
    destruct (archived _); [by apply engine_same|]. by apply complete_after.
  - unfold ClearCrashConcern. destruct (_ || _); [by apply engine_same|].
    destruct (_ !! _); [|by apply engine_same]. destruct (_ || _); by apply engine_same.
  - unfold DeleteJobs. destruct (rbind _ _); [|by apply engine_same].
    destruct (dj_DryRun req); [by apply engine_same|]. set (ms := (filter _ _).*1).
    assert (engine_fwd e (m_iter (delete_one now) ms e).1) as Hf.
    { apply (m_iter_inv (engine_fwd e)); [|by apply engine_same]. intros k e1 _ Hfw.
      eapply engine_fwd_trans; [exact Hfw|]. destruct Hfw as [Hfw _].
      unfold delete_one. destruct (_ !! k); [|by apply engine_same]. by apply complete_after. }
    unfold m_bind, m_ret. by destruct (m_iter _ _ e) as [e1 [[]|]].
  - apply engine_run_clone; [apply forward_add|done].
  - apply engine_run_clone; [apply forward_fail|done].
  - by apply engine_same.
  - unfold CreateCellWithLeaseByID. destruct (cellParentLocked _ _ _ _); by apply engine_same.
  - unfold UpdateCell. destruct (on_cells _ _ e) as [e1 [c|]] eqn:Ho; unfold on_cells in Ho; injection Ho as <- _;
      simpl; [destruct (String.eqb _ _)|]; by apply engine_same.
  - by apply engine_same.
  - edestruct upsert_schedules as [m ->]. by apply engine_same.
  - edestruct mutate_schedules as [m ->]. by apply engine_same.
Qed.
End exec.
