(* ===== verification/ToyLifecycle.v ===== *)
(** * ToyLifecycle: the invariant of a job record

    What holds of every record in every reachable world, proved by following the
    record's transitions ([ToyMoves]). *)

From S2P Require Import Prelude Types GoalStore GoalEngine GoalWaits GoalInvariant.
From S2P Require Import Json ClientPayload Cells CellState Metadata Chapters Schedule ScheduleRuns.
From S2P Require Import ToyState ToyLease ToyChapters ToySubmit ToySchedule ToyRestart ToyRun ToyMoves ToyTables.

(** ** Dependency waits that are over *)
Definition dep_done (e : ToyEngine) (now : time) (r : jobRecord) : Prop :=
  jr_dependencyWaitID r = "" ∨
  ∃ w, mem_Wait (goal_view e) (mkWaitKey (jr_key r) (jr_dependencyWaitID r)) = Ok w ∧
       (wi_State w ≠ DependencyPending ∨ deadline_passed now w = true).

Lemma dep_done_ready e now r : dependencyReadyLocked e now r = Ok true ↔ dep_done e now r.
Proof.
  unfold dependencyReadyLocked, dep_done. destruct (str_empty _) eqn:He.
  { apply str_empty_spec in He. split; [by left|done]. }
  assert (jr_dependencyWaitID r ≠ "") as Hne by (intros Heq; by rewrite Heq in He).
  destruct (mem_Wait _ _) as [w|]; simpl; split.
  - intros [= Hr]. right. exists w. split; [done|]. apply orb_true_iff in Hr as [Hr|Hr]; [left|by right].
    apply negb_true_iff, bool_decide_eq_false in Hr. done.
  - intros [|(w' & [= <-] & Hw)]; [done|]. f_equal. apply orb_true_iff.
    destruct Hw as [Hw|Hw]; [left|by right]. by rewrite bool_decide_eq_false_2.
  - done.
  - by intros [|(w' & [=] & _)].
Qed.

Lemma dep_done_rows e e' now r : e_WaitRows e' = e_WaitRows e → dep_done e now r → dep_done e' now r.
Proof. intros Hw. unfold dep_done, mem_Wait. simpl. by rewrite Hw. Qed.

Lemma dep_done_fwd e e' now now' r :
  waits_fwd (goal_view e) (goal_view e') → (now ≤ now')%Z → dep_done e now r → dep_done e' now' r.
Proof.
  intros Hf Hle [Hd|(w & Hw & Hd)]; [by left|right]. destruct (Hf _ _ Hw) as (w' & Hw' & He).
  exists w'. split; [done|]. destruct (decide (wi_State w = DependencyPending)) as [Hp|Hp].
  - destruct Hd as [|Hd]; [done|right]. unfold deadline_passed, Before in *. rewrite (we_deadline _ _ He).
    destruct (wi_Deadline w); [|done]. apply negb_true_iff in Hd. apply negb_true_iff. lia.
  - left. by rewrite (we_final _ _ He Hp).
Qed.

(** ** The invariant *)
Record record_ok (e : ToyEngine) (now : time) (used : gset string) (k : JobKey) (r : jobRecord) : Prop := {
  ok_key : jr_key r = k;
  ok_used : jr_leaseID r ≠ "" → jr_leaseID r ∈ used;
  ok_leased : jr_leased r = true →
    jr_leaseID r ≠ "" ∧ jr_status r = JobStatusActive ∧ jr_archived r = None ∧ jr_cancelled r = false;
  ok_active : jr_status r = JobStatusActive → jr_leased r = true;
  ok_expired : jr_status r ≠ JobStatusExpired;
  ok_final : is_Some (jr_archived r) ↔ final_status (jr_status r) = true;
  ok_cancel : jr_cancelled r = true → is_Some (jr_archived r);
  ok_count : (0 ≤ jr_consecutiveExpirations r ≤ DefaultThreshold)%Z;
  ok_crash : jr_status r = JobStatusCrashConcern → jr_consecutiveExpirations r = DefaultThreshold;
  ok_blocked : jr_consecutiveExpirations r = DefaultThreshold →
    jr_leased r = true ∨ jr_status r = JobStatusCrashConcern ∨ is_Some (jr_archived r);
  ok_dep : jr_leased r = true ∨ jr_status r = JobStatusCrashConcern → dep_done e now r
}.

Lemma record_ok_fwd e e' now now' used used' k r :
  waits_fwd (goal_view e) (goal_view e') → (now ≤ now')%Z → used ⊆ used' →
  record_ok e now used k r → record_ok e' now' used' k r.
Proof.
  intros Hf Hle Hu []. split; try done; [set_solver|].
  intros Hc. eapply dep_done_fwd; [done|done|auto].
Qed.

(** A record nobody ever leased, or that was put back in the queue. *)
Lemma queued_ok e now used k r :
  jr_key r = k → jr_leaseID r = "" → jr_leased r = false → jr_archived r = None → jr_cancelled r = false →
  jr_consecutiveExpirations r = 0%Z →
  jr_status r ∈ [JobStatusReady; JobStatusAwaitingFuture; JobStatusPendingJobs] →
  record_ok e now used k r.
Proof.
  intros Hk Hi Hl Ha Hc Hn Hs. split; try congruence; rewrite ?Hl, ?Hi, ?Ha, ?Hc, ?Hn; try done.
  - intros Hs'. rewrite Hs' in Hs. set_solver.
  - intros Hs'. rewrite Hs' in Hs. set_solver.
  - split; [by intros []|]. intros Hf. unfold final_status in Hf.
    apply orb_true_iff in Hf as [Hf|Hf]; apply bool_decide_eq_true in Hf; rewrite Hf in Hs; set_solver.
  - intros Hs'. rewrite Hs' in Hs. set_solver.
  - intros [|Hs']; [done|]. rewrite Hs' in Hs. set_solver.
Qed.

Lemma born_ok e now used k r : born k r → record_ok e now used k r.
Proof. intros []. by apply queued_ok. Qed.

Lemma holds_open now id wk r :
  holds_lease now id wk r = true →
  id ≠ "" ∧ jr_leaseID r = id ∧ jr_leaseWorkerID r = wk ∧ jr_leased r = true ∧ (now < jr_leaseExpiresAt r)%Z ∧
  jr_archived r = None ∧ jr_cancelled r = false.
Proof.
  unfold holds_lease, lease_running, open, archived, After. rewrite !andb_true_iff, !negb_true_iff.
  intros [[[[He Hi] Hw] [Hl Hx]] [Ha Hc]]. apply String.eqb_eq in Hi, Hw. apply Z.ltb_lt in Hx.
  apply bool_decide_eq_false, eq_None_not_Some in Ha. split; [|done]. intros ->. done.
Qed.

Lemma not_final_open s : final_status s = true → s = JobStatusCompleted ∨ s = JobStatusCancelled.
Proof. unfold final_status. intros [H|H]%orb_true_iff; apply bool_decide_eq_true in H; auto. Qed.

(** ** Advancing the record *)
Lemma timed_status_keeps e tenant now r s :
  s ≠ JobStatusAwaitingFuture → s ≠ JobStatusPendingJobs → timed_status e tenant now r s = s.
Proof. intros H1 H2. unfold timed_status. rewrite (bool_decide_eq_false_2 (s = _)) by done. simpl. by rewrite bool_decide_eq_false_2. Qed.

Lemma timed_status_cases e tenant now r s :
  timed_status e tenant now r s = s ∨
  timed_status e tenant now r s ∈ [JobStatusReady; JobStatusAwaitingFuture; JobStatusPendingJobs].
Proof.
  destruct (decide (s = JobStatusAwaitingFuture)) as [->|H1];
    [|destruct (decide (s = JobStatusPendingJobs)) as [->|H2]; [|left; by apply timed_status_keeps]];
    right; unfold timed_status; repeat case_match; set_solver.
Qed.

(** The status [advanceRecordStateLocked] stores, by the record's situation. *)
Lemma available_cases e tenant now used k r :
  record_ok e now used k r →
  (lease_running now r = true ∧ availableStatusLocked e tenant now r = JobStatusActive) ∨
  (is_Some (jr_archived r) ∧ availableStatusLocked e tenant now r = jr_status r) ∨
  (lease_running now r = false ∧ jr_archived r = None ∧ jr_cancelled r = false ∧
   ((jr_consecutiveExpirations r = DefaultThreshold ∧ availableStatusLocked e tenant now r = JobStatusCrashConcern) ∨
    (availableStatusLocked e tenant now r ∈ [JobStatusReady; JobStatusAwaitingFuture; JobStatusPendingJobs] ∧
     jr_consecutiveExpirations r ≠ DefaultThreshold)) ∧
   (availableStatusLocked e tenant now r = JobStatusReady → dep_done e now r)).
Proof.
  intros Hok. unfold availableStatusLocked. destruct (lease_running now r) eqn:Hrun.
  { left. split; [done|]. rewrite andb_false_r. unfold lease_running in Hrun.
    apply andb_true_iff in Hrun as [Hl Hx]. destruct (ok_leased _ _ _ _ _ Hok Hl) as (_ & Hs & _).
    unfold currentStatus. rewrite Hl, Hx. simpl. rewrite Hs. by apply timed_status_keeps. }
  destruct (jr_archived r) as [t|] eqn:Ha.
  { right. left. split; [done|]. assert (open r = false) as Ho by (unfold open, archived; by rewrite Ha).
    rewrite Ho. simpl. unfold currentStatus. rewrite Ho, andb_false_r.
    pose proof (proj1 (ok_final _ _ _ _ _ Hok)) as Hf. rewrite Ha in Hf. specialize (Hf ltac:(done)).
    apply not_final_open in Hf as [->| ->]; by apply timed_status_keeps. }
  right. right. split; [done|]. split; [done|].
  assert (jr_cancelled r = false) as Hc.
  { destruct (jr_cancelled r) eqn:Hc; [|done]. pose proof (ok_cancel _ _ _ _ _ Hok Hc) as Hx. rewrite Ha in Hx. by destruct Hx. }
  split; [done|]. assert (open r = true) as Ho by (unfold open, archived; by rewrite Ha, Hc).
  rewrite Ho. simpl.
  assert (jr_consecutiveExpirations r = DefaultThreshold ∧ currentStatus now r = JobStatusCrashConcern ∧ dep_done e now r ∨
          currentStatus now r ∈ [JobStatusReady; JobStatusAwaitingFuture; JobStatusPendingJobs] ∧
          jr_consecutiveExpirations r ≠ DefaultThreshold) as Hcur.
  { unfold currentStatus. rewrite Ho. unfold lease_running in Hrun. destruct (jr_leased r) eqn:Hl; simpl in *.
    - rewrite Hrun. simpl. pose proof (ok_count _ _ _ _ _ Hok).
      destruct (Z.leb_spec DefaultThreshold (jr_consecutiveExpirations r)).
      + left. split; [lia|]. split; [done|]. apply (ok_dep _ _ _ _ _ Hok). by left.
      + right. split; [set_solver|lia].
    - destruct (decide (jr_consecutiveExpirations r = DefaultThreshold)) as [Hn|Hn].
      + left. split; [done|]. destruct (ok_blocked _ _ _ _ _ Hok Hn) as [?|[Hs|Hx]]; [congruence| |rewrite Ha in Hx; by destruct Hx].
        split; [done|]. apply (ok_dep _ _ _ _ _ Hok). by right.
      + right. split; [|done]. destruct (jr_status r) eqn:Hs; try set_solver.
        * by pose proof (ok_expired _ _ _ _ _ Hok).
        * by rewrite (ok_active _ _ _ _ _ Hok Hs) in Hl.
        * by pose proof (ok_crash _ _ _ _ _ Hok Hs).
        * pose proof (proj2 (ok_final _ _ _ _ _ Hok)) as Hx. rewrite Hs, Ha in Hx. by destruct (Hx eq_refl).
        * pose proof (proj2 (ok_final _ _ _ _ _ Hok)) as Hx. rewrite Hs, Ha in Hx. by destruct (Hx eq_refl). }
  destruct (dependencyReadyLocked e now r) as [[]|] eqn:Hdep.
  - assert (dep_done e now r) as Hd by (by apply dep_done_ready).
    split; [|done]. destruct Hcur as [(Hn & -> & _)|[Hcur Hn]]; [left|right].
    + split; [done|]. rewrite andb_false_r. by apply timed_status_keeps.
    + split; [|done]. destruct (negb _ && _).
      * rewrite timed_status_keeps by done. set_solver.
      * destruct (timed_status_cases e tenant now r (currentStatus now r)) as [->|?]; done.
  - assert (¬ dep_done e now r) as Hnd by (intros Hd; apply dep_done_ready in Hd; congruence).
    split; [|done]. right. destruct Hcur as [(_ & _ & Hd)|[_ Hn]]; [done|]. split; [set_solver|done].
  - assert (¬ dep_done e now r) as Hnd by (intros Hd; apply dep_done_ready in Hd; congruence).
    split; [|done]. right. destruct Hcur as [(_ & _ & Hd)|[_ Hn]]; [done|]. split; [set_solver|done].
Qed.

Lemma advance_core e tenant now r :
  core (advanceRecordStateLocked e tenant now r) =
  core (r <| jr_status := availableStatusLocked e tenant now r |>
          <| jr_leased := jr_leased r && negb (jr_leased r && negb (After (jr_leaseExpiresAt r) now) && open r) |>).
Proof.
  unfold advanceRecordStateLocked. destruct (jr_leased r && _ && _) eqn:Hx.
  - apply andb_true_iff in Hx as [Hx _]. apply andb_true_iff in Hx as [Hl _].
    destruct (_ && negb (bool_decide _)); unfold core; simpl; by rewrite ?Hl.
  - rewrite andb_true_r. by destruct (_ && negb (bool_decide _)).
Qed.

Lemma core_fields r r' :
  core r = core r' →
  jr_status r = jr_status r' ∧ jr_leased r = jr_leased r' ∧ jr_leaseID r = jr_leaseID r' ∧
  jr_leaseWorkerID r = jr_leaseWorkerID r' ∧ jr_leaseExpiresAt r = jr_leaseExpiresAt r' ∧
  jr_archived r = jr_archived r' ∧ jr_cancelled r = jr_cancelled r' ∧
  jr_completionStatus r = jr_completionStatus r' ∧ jr_completionDetail r = jr_completionDetail r' ∧
  jr_consecutiveExpirations r = jr_consecutiveExpirations r' ∧
  jr_dependencyWaitID r = jr_dependencyWaitID r' ∧ jr_key r = jr_key r' ∧ jr_hidden r = jr_hidden r'.
Proof. unfold core. intros Hc. injection Hc as ? ? ? ? ? ? ? ? ? ? ? ? ? ? ?. tauto. Qed.

Lemma record_ok_core e now used k r r' : core r = core r' → record_ok e now used k r → record_ok e now used k r'.
Proof.
  intros (Hs & Hl & Hi & Hw & Hx & Ha & Hc & _ & _ & Hn & Hd & Hk & _)%core_fields [].
  split; unfold dep_done in *; by rewrite <- ?Hs, <- ?Hl, <- ?Hi, <- ?Ha, <- ?Hc, <- ?Hn, <- ?Hd, <- ?Hk.
Qed.

(** How far [advanceRecordStateLocked] takes the lease fields. *)
Lemma advance_fields e tenant now r (r' := advanceRecordStateLocked e tenant now r) :
  jr_status r' = availableStatusLocked e tenant now r ∧
  jr_leased r' = jr_leased r && negb (jr_leased r && negb (After (jr_leaseExpiresAt r) now) && open r) ∧
  jr_leaseID r' = jr_leaseID r ∧ jr_leaseWorkerID r' = jr_leaseWorkerID r ∧
  jr_leaseExpiresAt r' = jr_leaseExpiresAt r ∧
  jr_archived r' = jr_archived r ∧ jr_cancelled r' = jr_cancelled r ∧
  jr_completionStatus r' = jr_completionStatus r ∧ jr_completionDetail r' = jr_completionDetail r ∧
  jr_consecutiveExpirations r' = jr_consecutiveExpirations r ∧
  jr_dependencyWaitID r' = jr_dependencyWaitID r ∧ jr_key r' = jr_key r.
Proof. destruct (core_fields _ _ (advance_core e tenant now r)) as (? & ? & ? & ? & ? & ? & ? & ? & ? & ? & ? & ? & ?). tauto. Qed.

(** After advancing, the record is leased exactly if its lease still runs. *)
Lemma advance_leased e tenant now used k r :
  record_ok e now used k r →
  jr_leased (advanceRecordStateLocked e tenant now r) = lease_running now r.
Proof.
  intros Hok. destruct (advance_fields e tenant now r) as (_ & -> & _). unfold lease_running.
  destruct (jr_leased r) eqn:Hl; [|done]. simpl. destruct (ok_leased _ _ _ _ _ Hok Hl) as (_ & _ & Ha & Hc).
  unfold open, archived. rewrite Ha, Hc. simpl. rewrite andb_true_r, negb_involutive. done.
Qed.

Lemma advance_ok e tenant now used k r :
  record_ok e now used k r → record_ok e now used k (advanceRecordStateLocked e tenant now r).
Proof.
  intros Hok. pose proof (advance_leased e tenant now used k r Hok) as Hl'.
  destruct (advance_fields e tenant now r) as (Hs' & _ & Hi & _ & _ & Ha & Hc & _ & _ & Hn & Hd & Hk).
  assert (dep_done e now (advanceRecordStateLocked e tenant now r) ↔ dep_done e now r) as Hdep
    by (unfold dep_done; by rewrite Hd, Hk).
  set (r' := advanceRecordStateLocked e tenant now r) in *. clearbody r'.
  destruct (available_cases e tenant now used k r Hok) as [[Hrun Hs]|[[Hx Hs]|(Hrun & Hna & Hnc & Hs & Hready)]];
    rewrite Hs in Hs' || rewrite Hrun in Hl'.
  - assert (jr_leased r = true) as Hl by (unfold lease_running in Hrun; by apply andb_true_iff in Hrun as [? _]).
    destruct (ok_leased _ _ _ _ _ Hok Hl) as (Hne & Hact & Hna & Hnc). destruct Hok.
    split; rewrite ?Hs', ?Hl', ?Hi, ?Ha, ?Hc, ?Hn, ?Hk, ?Hdep; try done; [by rewrite Hna, Hact in *|by left|].
    intros _. apply ok_dep0. by left.
  - assert (jr_leased r = false) as Hl.
    { destruct (jr_leased r) eqn:Hl; [|done]. destruct (ok_leased _ _ _ _ _ Hok Hl) as (_ & _ & Hna & _).
      rewrite Hna in Hx. by destruct Hx. }
    assert (lease_running now r = false) as Hrun by (unfold lease_running; by rewrite Hl).
    rewrite Hrun in Hl'. destruct Hok.
    split; rewrite ?Hs', ?Hl', ?Hi, ?Ha, ?Hc, ?Hn, ?Hk, ?Hdep; try done.
    + intros Hact. specialize (ok_active0 Hact). congruence.
    + by right; right.
    + intros [|Hcr]; [done|]. apply ok_dep0. by right.
  - destruct Hok. rewrite Hna in *.
    assert (jr_status r' ∈ [JobStatusReady; JobStatusAwaitingFuture; JobStatusPendingJobs; JobStatusCrashConcern]) as Hin.
    { rewrite Hs'. destruct Hs as [[_ ->]|[Hs _]]; set_solver. }
    split; rewrite ?Hl', ?Hi, ?Ha, ?Hc, ?Hn, ?Hk, ?Hdep; try done.
    + intros Hact. rewrite Hact in Hin. set_solver.
    + intros Hact. rewrite Hact in Hin. set_solver.
    + split; [by intros []|]. intros [Hf|Hf]%not_final_open; rewrite Hf in Hin; set_solver.
    + intros Hcr. destruct Hs as [[? _]|[Hs _]]; [done|]. rewrite <- Hs', Hcr in Hs. set_solver.
    + intros Hd5. destruct Hs as [[_ Hs]|[_ ?]]; [|done]. right. left. congruence.
    + intros [|Hcr]; [done|]. destruct Hs as [[Hd5 _]|[Hs _]]; [|rewrite <- Hs', Hcr in Hs; set_solver].
      destruct (ok_blocked0 Hd5) as [Hl|[Hcr'|Hx]]; [apply ok_dep0; by left|apply ok_dep0; by right|by destruct Hx].
Qed.

(** ** Every transition keeps the invariant *)
Lemma advance_ok_rows e e0 tenant now used k r :
  e_WaitRows e = e_WaitRows e0 → record_ok e0 now used k r →
  record_ok e0 now used k (advanceRecordStateLocked e tenant now r).
Proof.
  intros HW Hok.
  apply (record_ok_fwd e e0 now now used used); [by apply waits_fwd_rows|done|done|]. apply advance_ok.
  apply (record_ok_fwd e0 e now now used used); [by apply waits_fwd_rows|done|done|done].
Qed.

Lemma commit_route_core now r : core (commit_route now r) = core r.
Proof. unfold commit_route. destruct (jr_alternateRoute r); [|done]. by destruct (alternate_due now r). Qed.

Lemma take_ok e now used k id wk d r :
  id ∈ used → id ≠ "" → jr_leased r = false → jr_status r = JobStatusReady → dep_done e now r →
  record_ok e now used k r → record_ok e now used k (take_lease now id wk d r).
Proof.
  intros Hid Hne Hl Hs Hd Hok.
  destruct (core_fields _ _ (commit_route_core now r)) as (Es & El & Ei & _ & _ & Ea & Ec & _ & _ & En & Ed & Ek & _).
  unfold take_lease. set (r1 := commit_route now r) in *. clearbody r1.
  destruct Hok. rewrite Hs in *.
  assert (jr_archived r = None) as Hna.
  { destruct (jr_archived r) eqn:Ha; [|done]. destruct ok_final0 as [Hf _]. by specialize (Hf ltac:(done)). }
  assert (jr_cancelled r = false) as Hnc.
  { destruct (jr_cancelled r); [|done]. rewrite Hna in *. by destruct (ok_cancel0 eq_refl). }
  assert (jr_consecutiveExpirations r ≠ DefaultThreshold) as Hn5.
  { intros Hn. destruct (ok_blocked0 Hn) as [?|[?|Hx]]; [congruence|done|]. rewrite Hna in Hx. by destruct Hx. }
  split; simpl; rewrite ?Ea, ?Ec, ?En, ?Ek, ?Ei, ?Hna, ?Hnc; try done.
  - unfold DefaultThreshold in *. destruct (str_empty _); lia.
  - by left.
  - intros _. unfold dep_done in *. simpl. by rewrite Ed.
Qed.

(** Transitions that end the job. *)
Lemma ended_ok e now used k r r' :
  record_ok e now used k r → jr_key r' = jr_key r →
  (jr_leaseID r' = jr_leaseID r ∨ jr_leaseID r' = "") → jr_leased r' = false →
  is_Some (jr_archived r') → final_status (jr_status r') = true →
  jr_consecutiveExpirations r' = jr_consecutiveExpirations r →
  record_ok e now used k r'.
Proof.
  intros [] Hk Hi Hl Ha Hs Hn.
  assert (jr_status r' = JobStatusCompleted ∨ jr_status r' = JobStatusCancelled) as Hs' by (by apply not_final_open).
  split; rewrite ?Hk, ?Hl, ?Hn; try done.
  - intros Hne. destruct Hi as [Hi|Hi]; [rewrite Hi in *; auto|congruence].
  - destruct Hs' as [->| ->]; done.
  - destruct Hs' as [->| ->]; done.
  - destruct Hs' as [->| ->]; done.
  - by right; right.
  - destruct Hs' as [->| ->]; by intros [].
Qed.


Lemma open_fields r : open r = true ↔ jr_archived r = None ∧ jr_cancelled r = false.
Proof. unfold open, archived. rewrite andb_true_iff, !negb_true_iff, bool_decide_eq_false, eq_None_not_Some. done. Qed.

Lemma handed_over_core now req task r : core (handed_over_record now req task r) = core r.
Proof.
  unfold handed_over_record. destruct task as [t|]; [|done]. cbn [fmap option_fmap option_map].
  unfold add_pending_step. by destruct (bool_decide _).
Qed.

Lemma requeued_fields now req r (r' := requeued_record now req r) :
  core r' = core (r <| jr_status := jr_status r' |>) ∧
  jr_status r' ∈ [JobStatusReady; JobStatusAwaitingFuture; JobStatusPendingJobs].
Proof.
  unfold r', requeued_record. destruct (negb _), (re_WaitUntil req) as [t|]; [| |destruct (After t now)|];
    (split; [done|]); simpl; rewrite !elem_of_cons; auto.
Qed.

Lemma rescheduled_fields now req task wid v n r (r' := rescheduled_record now req task wid v n r) :
  jr_key r' = jr_key r ∧ jr_leaseID r' = "" ∧ jr_leased r' = false ∧ jr_archived r' = jr_archived r ∧
  jr_cancelled r' = jr_cancelled r ∧ jr_consecutiveExpirations r' = 0%Z ∧
  jr_completionStatus r' = jr_completionStatus r ∧ jr_completionDetail r' = jr_completionDetail r ∧
  jr_dependencyWaitID r' = wid ∧ jr_hidden r' = jr_hidden r ∧
  jr_status r' ∈ [JobStatusReady; JobStatusAwaitingFuture; JobStatusPendingJobs].
Proof.
  unfold r', rescheduled_record. set (r0 := released_record now req wid v n r).
  destruct (core_fields _ _ (handed_over_core now req task r0)) as (_ & Hl & Hi & _ & _ & Ha & Hc & Hcs & Hcd & Hn & Hd & Hk & Hh).
  set (r1 := handed_over_record now req task r0) in *. clearbody r1.
  destruct (requeued_fields now req r1) as [Hcore Hs].
  set (r2 := requeued_record now req r1) in *. clearbody r2.
  destruct (core_fields _ _ Hcore) as (_ & Hl' & Hi' & _ & _ & Ha' & Hc' & Hcs' & Hcd' & Hn' & Hd' & Hk' & Hh').
  simpl in *. rewrite Hk', Hi', Hl', Ha', Hc', Hn', Hcs', Hcd', Hd', Hh', Hk, Hi, Hl, Ha, Hc, Hn, Hcs, Hcd, Hd, Hh.
  unfold r0, released_record. by destruct (re_AlternateAfter req).
Qed.

Lemma cleared_fields now r (r' := cleared_record now r) :
  jr_key r' = jr_key r ∧ jr_leaseID r' = jr_leaseID r ∧ jr_leased r' = jr_leased r ∧
  jr_archived r' = jr_archived r ∧ jr_cancelled r' = jr_cancelled r ∧ jr_consecutiveExpirations r' = 0%Z ∧
  jr_dependencyWaitID r' = jr_dependencyWaitID r ∧
  jr_completionStatus r' = jr_completionStatus r ∧ jr_completionDetail r' = jr_completionDetail r ∧
  ((jr_status r' = jr_status r ∧ jr_status r ≠ JobStatusCrashConcern) ∨
   jr_status r = JobStatusCrashConcern ∧
   jr_status r' ∈ [JobStatusReady; JobStatusAwaitingFuture; JobStatusPendingJobs]).
Proof.
  unfold r', cleared_record. simpl. destruct (bool_decide_reflect (jr_status r = JobStatusCrashConcern)) as [Hs|Hs].
  - assert (∀ b : bool, (if b then JobStatusAwaitingFuture else JobStatusReady)
      ∈ [JobStatusReady; JobStatusAwaitingFuture; JobStatusPendingJobs]) as Hin by (intros []; set_solver).
    destruct (bool_decide (jr_waitFor r = [])); simpl; repeat (split; [done|]); right; (split; [done|]);
      [apply Hin|set_solver].
  - simpl. repeat (split; [done|]). by left.
Qed.

Lemma queued_status s :
  s ∈ [JobStatusReady; JobStatusAwaitingFuture; JobStatusPendingJobs] →
  s ≠ JobStatusCrashConcern ∧ s ≠ JobStatusActive ∧ s ≠ JobStatusExpired ∧ final_status s = false.
Proof. rewrite !elem_of_cons. by intros [->|[->|[->|?%elem_of_nil]]]. Qed.

Lemma clear_ok e now used k r :
  open r = true → record_ok e now used k r → record_ok e now used k (cleared_record now r).
Proof.
  intros [Ha Hc]%open_fields Hok.
  destruct (cleared_fields now r) as (Hk & Hi & Hl & Ha' & Hc' & Hn & Hd & _ & _ & Hs).
  set (r' := cleared_record now r) in *. clearbody r'. destruct Hok.
  assert (jr_status r' = jr_status r ∧ jr_status r ≠ JobStatusCrashConcern ∨
    jr_status r = JobStatusCrashConcern ∧ jr_status r' ≠ JobStatusCrashConcern ∧
    jr_status r' ≠ JobStatusActive ∧ jr_status r' ≠ JobStatusExpired ∧ final_status (jr_status r') = false) as Hs'.
  { destruct Hs as [?|[? ?%queued_status]]; tauto. }
  clear Hs. split; rewrite ?Hk, ?Hi, ?Hl, ?Ha', ?Hc', ?Hn; try done.
  - intros Hl'. destruct (ok_leased0 Hl') as (? & Hact & ? & ?).
    destruct Hs' as [[-> _]|[Hcr _]]; [done|congruence].
  - destruct Hs' as [[-> _]|(_ & _ & ? & _)]; [done|]. by intros.
  - destruct Hs' as [[-> _]|(_ & _ & _ & ? & _)]; done.
  - destruct Hs' as [[-> _]|(_ & _ & _ & _ & ->)]; [done|]. rewrite Ha. by split; [intros []|].
  - destruct Hs' as [[-> ?]|(_ & ? & _)]; by intros.
  - intros [Hl'|Hcr]; [|destruct Hs' as [[Heq ?]|(_ & ? & _)]; congruence].
    unfold dep_done in *. rewrite Hd, Hk. apply ok_dep0. by left.
Qed.

Lemma extend_ok e now used k r t :
  record_ok e now used k r → record_ok e now used k (r <| jr_leaseExpiresAt := t |>).
Proof. by intros []. Qed.

Lemma move_ok s e now used k r r' :
  (∀ id, id ∈ generated s e → id ∈ used ∧ id ≠ "") → move s now e k r r' →
  record_ok e now used k r → record_ok e now used k r'.
Proof.
  intros Hids Hm Hok.
  assert (∀ id wk, holds_lease now id wk r = true → jr_key r = k) as Hkey by (intros; by destruct Hok).
  destruct Hm as [r r' Hc _|e1 r HW|e1 r id wk d _ HW Hid Hl Hs|r id wk t Hh _|r id wk req v n _ Hh|r id wk req ch _ Hh
    |r id wk req task wid v n _ Hh|r resume p w _ Hl Hs Ho|r f p w _ Hl Hs Ho|r reason _ Ha|r _ Ho _|r req _ _].
  - by eapply record_ok_core.
  - by apply advance_ok_rows.
  - destruct (Hids id Hid) as [Hu Hne]. apply take_ok; try done; [|by apply advance_ok_rows].
    destruct (advance_fields e1 (jk_TenantId k) now r) as (Es & _ & _ & _ & _ & _ & _ & _ & _ & _ & Ed & Ek).
    assert (record_ok e1 now used k r) as Hok1
      by (apply (record_ok_fwd e e1 now now used used); [by apply waits_fwd_rows|done..]).
    assert (dep_done e1 now r) as Hd.
    { rewrite Es in Hs. destruct (available_cases e1 (jk_TenantId k) now used k r Hok1) as [[_ Hx]|[[Hx Hx']|(_ & _ & _ & _ & Hr)]].
      - congruence.
      - pose proof (proj1 (ok_final _ _ _ _ _ Hok) Hx) as Hf. rewrite <- Hx', Hs in Hf. done.
      - by apply Hr. }
    apply (dep_done_rows e1); [done|]. unfold dep_done in *. by rewrite Ed, Ek.
  - by apply extend_ok.
  - apply holds_open in Hh as (_ & _ & _ & Hl & _). unfold completed_record.
    eapply ended_ok; [done|..]; destruct (String.eqb _ _); simpl; auto.
  - eapply ended_ok; [done|..]; simpl; auto.
  - apply holds_open in Hh as (_ & _ & _ & _ & _ & Ha & Hc).
    destruct (rescheduled_fields now req task wid v n r) as (Hk & Hi & Hl & Ha' & Hc' & Hn & _ & _ & _ & _ & Hst).
    apply queued_ok; try done; [by rewrite Hk; destruct Hok|congruence|congruence].
  - apply open_fields in Ho as [Ha Hc]. apply queued_ok; simpl; try done; [by destruct Hok|set_solver].
  - eapply ended_ok; [done|..]; simpl; auto.
  - eapply ended_ok; [done|..]; simpl; auto.
  - by apply clear_ok.
  - unfold deleted_record. destruct (archived (r <| jr_hidden := true |>)) eqn:Ha; unfold archived in Ha; simpl in Ha.
    + apply bool_decide_eq_true in Ha. eapply ended_ok; [done|..]; simpl; auto. by apply (ok_final _ _ _ _ _ Hok).
    + eapply ended_ok; [done|..]; simpl; auto.
Qed.

Lemma moves_ok s e now used k r r' :
  (∀ id, id ∈ generated s e → id ∈ used ∧ id ≠ "") → rtc (move s now e k) r r' →
  record_ok e now used k r → record_ok e now used k r'.
Proof. intros Hids. induction 1; [done|]. intros. eauto using move_ok. Qed.
