(* ===== verification/ToyHistory.v ===== *)
(** * ToyHistory: the chapters of a job form an append-only sequence

    What the critical sections do to [runtimeChapters]. *)

From S2P Require Import Prelude Types GoalStore GoalEngine Json ClientPayload Cells CellState Metadata Chapters Schedule ScheduleRuns.
From S2P Require Import ToyState ToyLease ToyChapters ToySubmit ToySchedule ToyRestart ToyRun ToyMoves.

(** Chapters are stored under their ordinals, which start at 0 without gaps. *)
Definition history (chs : gmap Z Chapter) : Prop :=
  ∀ i ch, chs !! i = Some ch → (0 ≤ i)%Z ∧ ch_Ordinal ch = i ∧ (i ≠ 0%Z → is_Some (chs !! (i - 1)%Z)).

(** The first ordinal that is still free. *)
Lemma history_gap chs n :
  (∀ i, (0 ≤ i < Z.of_nat n)%Z → is_Some (chs !! i)) → (n ≤ size (chs : gmap Z Chapter))%nat.
Proof.
  intros Hn. rewrite <- size_dom.
  assert (list_to_set (C := gset Z) (Z.of_nat <$> seq 0 n) ⊆ dom chs) as Hsub.
  { intros i. rewrite elem_of_list_to_set, list_elem_of_fmap. intros (j & -> & Hj%elem_of_seq).
    apply elem_of_dom, Hn. lia. }
  apply subseteq_size in Hsub. rewrite size_list_to_set in Hsub.
  - by rewrite length_fmap, length_seq in Hsub.
  - apply NoDup_fmap_2; [apply _|apply NoDup_seq].
Qed.

Lemma history_below chs i j : history chs → is_Some (chs !! i) → (0 ≤ j ≤ i)%Z → is_Some (chs !! j).
Proof.
  intros Hh Hi Hj. assert (∃ n, i = (j + Z.of_nat n)%Z) as [n ->] by (exists (Z.to_nat (i - j)); lia).
  destruct Hj as [Hj _]. induction n as [|n IH]; [by replace (j + Z.of_nat 0)%Z with j in Hi by lia|].
  apply IH. destruct Hi as [ch Hch]. destruct (Hh _ _ Hch) as (Hnn & _ & Hprev).
  replace (j + Z.of_nat n)%Z with (j + Z.of_nat (S n) - 1)%Z by lia. apply Hprev. lia.
Qed.

(** The ordinals in use are exactly those below the number of chapters. *)
Lemma history_size chs i : history chs → is_Some (chs !! i) ↔ (0 ≤ i < Z.of_nat (size chs))%Z.
Proof.
  intros Hh. split.
  - intros Hi. assert (0 ≤ i)%Z as Hi0 by (destruct Hi as [ch Hch]; by destruct (Hh _ _ Hch)).
    assert (Z.to_nat (i + 1) ≤ size chs)%nat; [|lia].
    apply history_gap. intros j Hj. apply (history_below chs i); [done|done|lia].
  - intros Hi. destruct (chs !! i) eqn:Hn; [done|]. exfalso.
    assert (dom chs ⊆ list_to_set (C := gset Z) (Z.of_nat <$> seq 0 (Z.to_nat i))) as Hsub.
    { intros j Hj%elem_of_dom. rewrite elem_of_list_to_set, list_elem_of_fmap.
      assert (0 ≤ j)%Z as Hj0 by (destruct Hj as [ch Hch]; by destruct (Hh _ _ Hch)).
      destruct (decide (j < i)%Z) as [|Hge].
      - exists (Z.to_nat j). rewrite elem_of_seq. lia.
      - destruct (history_below chs j i Hh Hj ltac:(lia)) as [ch Hch]. congruence. }
    apply subseteq_size in Hsub. rewrite size_dom, size_list_to_set in Hsub.
    + rewrite length_fmap, length_seq in Hsub. lia.
    + apply NoDup_fmap_2; [apply _|apply NoDup_seq].
Qed.

Lemma history_insert chs i ch :
  history chs → ch_Ordinal ch = i → (0 ≤ i)%Z → (i ≠ 0%Z → is_Some (chs !! (i - 1)%Z)) → history (<[i := ch]> chs).
Proof.
  intros Hh Ho Hi Hp j c. rewrite lookup_insert. case_decide as Hij.
  - intros [= <-]. subst j. split; [done|]. split; [done|]. intros Hne.
    rewrite lookup_insert_ne by lia. by apply Hp.
  - intros Hc. destruct (Hh _ _ Hc) as (Hj & Hoc & Hpc). split; [done|]. split; [done|].
    intros Hne. rewrite lookup_insert. case_decide; [done|]. by apply Hpc.
Qed.

Lemma history_filter chs last : history chs → history (filter (λ oc : Z * Chapter, (oc.1 ≤ last)%Z) chs).
Proof.
  intros Hh i ch [Hc Hle]%map_lookup_filter_Some. destruct (Hh _ _ Hc) as (Hi & Ho & Hp).
  split; [done|]. split; [done|]. intros Hne. destruct (Hp Hne) as [c' Hc']. exists c'.
  apply map_lookup_filter_Some. simpl in *. split; [done|lia].
Qed.

Lemma history_start ch : ch_Ordinal ch = 0%Z → history {[0%Z := ch]}.
Proof. intros Ho i c [<- <-]%lookup_singleton_Some. by repeat split. Qed.

(** ** Histories across sections *)

(** A job has a history from its publication on, and only then. *)
Record histories_ok (e : ToyEngine) : Prop := {
  ho_domain : ∀ k, is_Some (e_runtimeChapters e !! k) ↔ is_Some (e_jobRecords e !! k);
  ho_history : ∀ k chs, e_runtimeChapters e !! k = Some chs → history chs ∧ is_Some (chs !! 0%Z)
}.

(** Stored chapters stay where they are, unchanged. *)
Definition histories_grow (e e' : ToyEngine) : Prop :=
  ∀ k i ch, chapters_of k e !! i = Some ch → chapters_of k e' !! i = Some ch.

(** A section either leaves histories alone, adds one chapter at a free ordinal
    of an existing history, or starts the history of a new job. *)
Inductive history_step (e e' : ToyEngine) : Prop :=
  | hs_same : e_runtimeChapters e' = e_runtimeChapters e → history_step e e'
  | hs_append k chs i ch :
      e_runtimeChapters e !! k = Some chs → chs !! i = None → (0 ≤ i)%Z → ch_Ordinal ch = i →
      (i ≠ 0%Z → is_Some (chs !! (i - 1)%Z)) →
      e_runtimeChapters e' = <[k := <[i := ch]> chs]> (e_runtimeChapters e) → history_step e e'
  | hs_new k chs :
      e_jobRecords e !! k = None → is_Some (e_jobRecords e' !! k) → history chs → is_Some (chs !! 0%Z) →
      e_runtimeChapters e' = <[k := chs]> (e_runtimeChapters e) → history_step e e'.

Lemma history_step_grows e e' : histories_ok e → history_step e e' → histories_grow e e'.
Proof.
  intros [Hd Hh] Hs k i ch. unfold chapters_of.
  destruct Hs as [->|k0 chs i0 ch0 Hk Hn _ _ _ ->|k0 chs Hk _ _ _ ->]; [done|..];
    rewrite lookup_insert; case_decide as Heq; try done; subst k0.
  - rewrite Hk. simpl. rewrite lookup_insert. case_decide; [|done]. congruence.
  - assert (e_runtimeChapters e !! k = None) as ->; [|done].
    apply eq_None_not_Some. intros [? ?]%Hd. congruence.
Qed.

Lemma history_step_histories e e' k chs :
  histories_ok e → history_step e e' → e_runtimeChapters e' !! k = Some chs → history chs ∧ is_Some (chs !! 0%Z).
Proof.
  intros [Hd Hh] Hs. destruct Hs as [->|k0 chs0 i0 ch0 Hk Hn Hi Ho Hp ->|k0 chs0 Hk _ Hh0 Hs0 ->]; [apply Hh|..];
    (rewrite lookup_insert; case_decide as Heq; [|apply Hh]); intros [= <-]; [|done].
  destruct (Hh _ _ Hk) as [Hh1 Hs1]. split; [by apply history_insert|].
  rewrite lookup_insert. case_decide; [done|exact Hs1].
Qed.

(** ** What each section does to the histories *)
Section exec.
Context `{CellText} `{RangeOrder} `{FloatText} `{ChapterChecks} `{TimeZones} `{ScheduleText}.
#[local] Notation "e ⇝h e'" := (history_step e e') (at level 70).

Lemma step_same e e' : e_runtimeChapters e' = e_runtimeChapters e → e ⇝h e'.
Proof. apply hs_same. Qed.

Lemma poll_chapters req allowed ps limit now new_id keys e out :
  e_runtimeChapters (poll_loop req allowed ps limit now new_id keys e out).1 = e_runtimeChapters e.
Proof.
  revert e out. induction keys as [|k keys IH]; intros e out; simpl; [done|].
  destruct (e_jobRecords e !! k); [|apply IH]. destruct (_ || _); [apply IH|].
  destruct (_ || _); [apply (IH (put_record k _ e))|].
  destruct (_ <=? _)%nat; [done|apply (IH (put_record k _ e))].
Qed.

Lemma uploads_chapters key o us e : e_runtimeChapters (write_uploads key o us e).1 = e_runtimeChapters e.
Proof.
  revert e. induction us as [|u us IH]; intros e; [done|]. simpl. unfold m_bind, m_read, m_write, m_ret.
  destruct (au_Open u) as [data|]; [|done]. simpl.
  match goal with |- context [write_uploads key o us ?e1] => specialize (IH e1); destruct (write_uploads key o us e1) as [e2 [rest|]] end;
    simpl in *; by rewrite IH.
Qed.

Lemma clone_chapters {A} (m : M Memory A) e : e_runtimeChapters (run_goals_clone m e).1 = e_runtimeChapters e.
Proof. unfold run_goals_clone. simpl. by destruct (is_ok _). Qed.

Lemma delete_chapters req now e : e_runtimeChapters (DeleteJobs req now e).1 = e_runtimeChapters e.
Proof.
  unfold DeleteJobs. destruct (rbind _ _); [|done]. destruct (dj_DryRun req); [done|].
  set (ms := (filter _ _).*1).
  assert (e_runtimeChapters (m_iter (delete_one now) ms e).1 = e_runtimeChapters e) as Hm.
  { apply (m_iter_inv (λ e1, e_runtimeChapters e1 = e_runtimeChapters e)); [|done].
    intros k e1 _ <-. unfold delete_one. by destruct (_ !! k). }
  unfold m_bind, m_ret. by destruct (m_iter _ _ e) as [e1 [[]|]].
Qed.

Lemma store_step key o ch e : e ⇝h (store_history key o ch e).1.
Proof.
  unfold store_history. destruct (e_runtimeChapters e !! key) as [chs|] eqn:Hk; [|by apply step_same].
  destruct (Z.ltb_spec o 0); [by apply step_same|]. destruct (negb _) eqn:Ho; [by apply step_same|].
  apply negb_false_iff, Z.eqb_eq in Ho. destruct (bool_decide _) eqn:Hn; [by apply step_same|].
  apply bool_decide_eq_false, eq_None_not_Some in Hn. destruct (_ && _) eqn:Hp; [by apply step_same|].
  eapply (hs_append _ _ key chs o ch); [done..| |by simpl; unfold chapters_of; rewrite Hk].
  intros Hne. apply andb_false_iff in Hp as [Hp|Hp]; [apply Z.ltb_ge in Hp; lia|].
  by apply negb_false_iff, bool_decide_eq_true in Hp.
Qed.

Lemma payload_step key id wk req ch now e :
  histories_ok e → e ⇝h (completePayloadFailure key id wk req ch now e).1.
Proof.
  intros [Hd Hh]. unfold completePayloadFailure. destruct (_ || _); [by apply step_same|].
  destruct (e_jobRecords e !! key) as [r|] eqn:Hr; [|by apply step_same]. destruct (negb _); [by apply step_same|].
  destruct (negb _) eqn:Ho; [by apply step_same|]. apply negb_false_iff, Z.eqb_eq in Ho. simpl.
  destruct (proj2 (Hd key)) as [chs Hk]; [by rewrite Hr|].
  unfold chapters_of in *. rewrite Hk in *. change (default ∅ (Some chs)) with chs in *. destruct (Hh _ _ Hk) as [Hhist _].
  eapply (hs_append _ _ key chs (ch_Ordinal ch) ch); [done| |lia|done| |by simpl; unfold chapters_of; rewrite Hk].
  - apply eq_None_not_Some. intros Hs%history_size; [|done]. lia.
  - intros Hne. apply history_size; [done|lia].
Qed.

Lemma answer_step req p route w a now e :
  ch_Ordinal (ta_Chapter a) = wt_OutputStep w → histories_ok e → e ⇝h (task_publish req p route w a now e).1.
Proof.
  intros Ho [Hd Hh]. unfold task_publish. destruct (e_jobRecords e !! _) as [r|] eqn:Hr; [|by apply step_same].
  set (r1 := advanceRecordStateLocked _ _ _ _). destruct (_ || _) in |- *; [by apply step_same|].
  change (e_runtimeChapters (put_record (ct_JobKey req) r1 e)) with (e_runtimeChapters e).
  destruct (e_runtimeChapters e !! ct_JobKey req) as [chs|] eqn:Hk; [|by apply step_same].
  destruct (bool_decide _) eqn:Hn; [by apply step_same|]. apply bool_decide_eq_false, eq_None_not_Some in Hn.
  destruct (negb _) eqn:Hp; [by apply step_same|]. apply negb_false_iff, bool_decide_eq_true in Hp.
  destruct (Hh _ _ Hk) as [Hhist _].
  assert (∀ e', e_runtimeChapters e' = <[ct_JobKey req := <[wt_OutputStep w := ta_Chapter a]> (chapters_of (ct_JobKey req) e)]>
     (e_runtimeChapters e) → e ⇝h e') as Hend.
  { intros e' He'. unfold chapters_of in He'. rewrite Hk in He'.
    eapply hs_append; [done..| |done|done|exact He']. destruct Hp as [c Hc]. destruct (Hhist _ _ Hc). lia. }
  destruct (ta_SizeFailure a); apply Hend; [|done].
  unfold m_bind, m_err. by destruct (run_goals _ _) as [e1 [[]|]] eqn:Hg; injection Hg as <- _.
Qed.

Lemma publish_step ctx key r start now e :
  ch_Ordinal start = 0%Z → histories_ok e → e ⇝h (publish_job ctx key r start now e).1.
Proof.
  intros Ho [Hd Hh]. unfold publish_job. destruct (e_jobRecords e !! key) eqn:Hr; [by apply step_same|].
  destruct (publishGoalLocked _ _ _ _ _) as [e2|] eqn:Hp; [|by apply step_same].
  apply publish_goal_ok in Hp as (p & cell & wait & _ & _ & Hrec & Hc).
  assert (e_runtimeChapters e !! key = None) as Hk by (apply eq_None_not_Some; intros [? ?]%Hd; congruence).
  apply (hs_new _ _ key {[0%Z := start]}); [done| |by apply history_start|by exists start; apply lookup_singleton_eq|].
  - simpl. rewrite Hrec. by rewrite lookup_insert_eq.
  - simpl. unfold chapters_of. rewrite Hc. simpl. by rewrite Hk.
Qed.

Lemma retained_history key job source kept :
  history source → retained key job source = Ok kept → history kept ∧ is_Some (kept !! 0%Z).
Proof.
  intros Hh. unfold retained, guard_err, of_option. intros Hr. split_res Hr. simplify_eq.
  assert (is_Some (source !! (rj_LastStepToKeep job + 1)%Z)) as Hlast
    by (by destruct (source !! (rj_LastStepToKeep job + 1)%Z)).
  match goal with Hk : (if bool_decide (is_Some (?m !! 0%Z)) then _ else _) = _ |- _ =>
    destruct (bool_decide_reflect (is_Some (m !! 0%Z))) as [Hz|]; [|done]; split; [|exact Hz] end.
  pose proof (history_filter source (rj_LastStepToKeep job) Hh) as Hf.
  destruct (rj_ExecutionRestart job) as [rec|]; [|done]. destruct Hlast as [c Hc].
  destruct (Hh _ _ Hc) as (Hpos & _ & Hprev). apply history_insert; [done|done|done|].
  intros Hne. destruct (Hprev Hne) as [c' Hc']. exists c'. apply map_lookup_filter_Some. simpl. split; [done|lia].
Qed.

Lemma restart_step_history ctx key job j now e :
  histories_ok e → e ⇝h (publish_restart ctx key job j now e).1.
Proof.
  intros [Hd Hh]. unfold publish_restart. destruct (rbind _ _) as [kept|] eqn:Hk; [|by apply step_same].
  apply bind_ok in Hk as (source & Hsrc & Hkept). unfold of_option in Hsrc.
  destruct (e_runtimeChapters e !! rj_PriorJobKey job) as [chs|] eqn:Hp; simplify_eq.
  destruct (retained_history _ _ _ _ (proj1 (Hh _ _ Hp)) Hkept) as [Hhist Hz].
  destruct (e_jobRecords e !! key) eqn:Hr; [by apply step_same|]. destruct (rbind _ _) as [r|]; [|by apply step_same].
  destruct (publishGoalLocked _ _ _ _ _) as [e2|] eqn:Hpub; [|by apply step_same].
  apply publish_goal_ok in Hpub as (p & cell & wait & _ & _ & Hrec & Hc).
  apply (hs_new _ _ key kept); [done| |done..|]; simpl; [|by rewrite Hc]. rewrite Hrec. by rewrite lookup_insert_eq.
Qed.

(** Every section changes histories in one of the three ways. *)
Lemma exec_history s now e : histories_ok e → carried_ok s → e ⇝h (exec s now e).1.
Proof.
  intros Hok Hc. destruct s; simpl exec; rewrite ?drop_result_fst; try by apply step_same.
  - apply step_same. unfold PrepareJob. by destruct (rbind _ _) as [[[req'|] p]|].
  - apply step_same. unfold DiscardJobPreparation. simpl. by repeat case_match.
  - by apply publish_step.
  - by apply publish_step.
  - by apply restart_step_history.
  - apply step_same. unfold acquire_ready. destruct (rbind _ _) as [[ps allowed]|]; [|done]. apply poll_chapters.
  - apply step_same. unfold acquire_job. destruct (rbind _ _); [|done].
    destruct (_ !! _); [|done]. destruct (rbind _ _); [|done]. by destruct (negb _).
  - apply step_same. unfold KeepAliveLeaseByID. destruct (_ !! _); [|done]. by destruct (negb _).
  - apply step_same. unfold RenewExecutionLeaseByID. destruct (_ !! _); [|done]. by destruct (_ || _).
  - apply step_same, uploads_chapters.
  - apply store_step.
  - apply step_same. unfold store_view. destruct (_ !! _); [|done]. by repeat case_match.
  - apply step_same. unfold complete_commit. destruct (_ !! _); [|done].
    destruct (negb _); [done|]. by destruct (Apply _ _ _) as [[v n]|].
  - by apply payload_step.
  - apply step_same. unfold rescheduleLease. destruct (reschedule_check _ _ _ _ _ _) as [[[r task] [v n]]|]; [|done].
    pose proof (clone_chapters (reschedule_goals key (jr_dependencyWaitID r) (re_DependencyWait req) now) e) as Hcl.
    by destruct (run_goals_clone _ e) as [e1 [wid|]].
  - apply step_same. unfold task_snapshot. by destruct (_ !! _).
  - by apply answer_step.
  - apply step_same. unfold CancelJob. destruct (_ !! _); [|done]. by destruct (archived _).
  - apply step_same. unfold ClearCrashConcern. destruct (_ || _); [done|].
    destruct (_ !! _); [|done]. by destruct (_ || _).
  - apply step_same, delete_chapters.
  - apply step_same, clone_chapters.
  - apply step_same, clone_chapters.
  - apply step_same. unfold CreateCellWithLeaseByID. by destruct (cellParentLocked _ _ _ _).
  - apply step_same. unfold UpdateCell. destruct (on_cells _ _ e) as [e1 [c|]] eqn:Ho; unfold on_cells in Ho; injection Ho as <- _;
      simpl; [by destruct (String.eqb _ _)|done].
  - apply step_same. by edestruct upsert_schedules as [m ->].
  - apply step_same. by edestruct mutate_schedules as [m ->].
Qed.
(** ** A job's record and its history appear together *)
Lemma publish_job_together ctx key r start now e :
  is_Some (e_jobRecords (publish_job ctx key r start now e).1 !! key) → e_jobRecords e !! key = None →
  is_Some (e_runtimeChapters (publish_job ctx key r start now e).1 !! key).
Proof.
  intros Hs Hk. revert Hs. unfold publish_job. rewrite Hk.
  destruct (publishGoalLocked _ _ _ _ _); simpl; rewrite ?lookup_insert_eq; [done|].
  rewrite lookup_delete_eq. by intros [].
Qed.

Lemma publish_restart_together ctx key job j now e :
  is_Some (e_jobRecords (publish_restart ctx key job j now e).1 !! key) → e_jobRecords e !! key = None →
  is_Some (e_runtimeChapters (publish_restart ctx key job j now e).1 !! key).
Proof.
  intros Hs Hk. revert Hs. unfold publish_restart. destruct (rbind _ _) as [kept|]; [|simpl; rewrite Hk; by intros []].
  rewrite Hk. destruct (rbind _ _) as [r|]; [|simpl; rewrite Hk; by intros []].
  destruct (publishGoalLocked _ _ _ _ _); simpl; rewrite ?lookup_insert_eq; [done|].
  rewrite lookup_delete_eq. by intros [].
Qed.

Lemma exec_together s now e k :
  is_Some (e_jobRecords (exec s now e).1 !! k) → e_jobRecords e !! k = None →
  is_Some (e_runtimeChapters (exec s now e).1 !! k).
Proof.
  intros Hs Hk. pose proof (exec_moves s now e k) as Hm. rewrite Hk in Hm.
  destruct Hs as [r' Hr']. rewrite Hr' in Hm. destruct Hm as [_ Hp]. revert Hr'.
  destruct s; simpl in Hp; try done; subst; simpl exec; rewrite drop_result_fst; intros Hr'.
  - apply publish_job_together; [by rewrite Hr'|done].
  - apply publish_job_together; [by rewrite Hr'|done].
  - apply publish_restart_together; [by rewrite Hr'|done].
Qed.

Lemma exec_histories_ok s now e : histories_ok e → carried_ok s → histories_ok (exec s now e).1.
Proof.
  intros Hok Hc. pose proof (exec_history s now e Hok Hc) as Hs.
  assert (∀ k, is_Some (e_jobRecords e !! k) → is_Some (e_jobRecords (exec s now e).1 !! k)) as Hstay.
  { intros k [r Hr]. pose proof (exec_moves s now e k) as Hm. rewrite Hr in Hm.
    by destruct (e_jobRecords (exec s now e).1 !! k). }
  split; [|intros k chs; by eapply history_step_histories].
  intros k. split.
  - destruct Hok as [Hd Hh].
    destruct Hs as [->|k0 chs i ch Hk _ _ _ _ ->|k0 chs _ Hr _ _ ->]; [|rewrite lookup_insert; case_decide; subst..].
    + intros Hk. by apply Hstay, Hd.
    + intros _. apply Hstay, Hd. by rewrite Hk.
    + intros Hk'. by apply Hstay, Hd.
    + done.
    + intros Hk'. by apply Hstay, Hd.
  - intros Hr. destruct (e_jobRecords e !! k) as [r|] eqn:Hk; [|by apply exec_together].
    destruct (proj2 (ho_domain _ Hok k)) as [chs Hchs]; [by rewrite Hk|].
    destruct (ho_history _ Hok _ _ Hchs) as [_ [ch Hch]].
    assert (chapters_of k e !! 0%Z = Some ch) as Hat by (unfold chapters_of; by rewrite Hchs).
    apply (history_step_grows _ _ Hok Hs) in Hat. unfold chapters_of in Hat.
    by destruct (e_runtimeChapters (exec s now e).1 !! k).
Qed.
End exec.
