(* ===== verification/ToyWorld.v ===== *)
(** * ToyWorld: the runtime's invariant and its abstract life cycle

    The record invariant, the goal tables and the histories together, in every
    reachable world; and the phases a job goes through as an outsider sees them. *)

From S2P Require Import Prelude Types GoalStore GoalEngine GoalWaits GoalInvariant.
From S2P Require Import Json ClientPayload Cells CellState Metadata Chapters Schedule ScheduleRuns.
From S2P Require Import ToyState ToyLease ToyChapters ToySubmit ToySchedule ToyRestart ToyRun ToyMoves ToyTables ToyLifecycle ToyHistory.

(** ** Who holds a job *)

(** The lease [id] is live: it is the record's current lease, not expired, and the
    job is open.  [holds_lease] also asks for the worker. *)
Definition live (now : time) (id : string) (r : jobRecord) : bool :=
  String.eqb (jr_leaseID r) id && lease_running now r && open r.

Lemma holds_live now id wk r : holds_lease now id wk r = true → live now id r = true.
Proof. unfold holds_lease, live. rewrite !andb_true_iff. tauto. Qed.

Lemma live_false_holds now id wk r : live now id r = false → holds_lease now id wk r = false.
Proof. intros Hl. apply not_true_iff_false. intros Hh%holds_live. congruence. Qed.

Lemma live_core now id r r' : core r = core r' → live now id r = live now id r'.
Proof.
  intros (_ & Hl & Hi & _ & Hx & Ha & Hc & _)%core_fields. unfold live, lease_running, open, archived.
  by rewrite Hl, Hi, Hx, Ha, Hc.
Qed.

Lemma running_later now now' r : (now ≤ now')%Z → lease_running now r = false → lease_running now' r = false.
Proof. unfold lease_running, After. intros Hle [->|Hx]%andb_false_iff; [done|]. apply andb_false_iff. right. lia. Qed.

Lemma live_later now now' id r : (now ≤ now')%Z → live now id r = false → live now' id r = false.
Proof.
  intros Hle [[Hi|Hr]%andb_false_iff|Ho]%andb_false_iff; unfold live.
  - by rewrite Hi.
  - by rewrite (running_later now now'), andb_false_r.
  - by rewrite Ho, andb_false_r.
Qed.

Lemma not_leased_not_live now id r : jr_leased r = false → live now id r = false.
Proof. unfold live, lease_running. intros ->. by rewrite andb_false_r. Qed.

(** Advancing a record changes nothing about its lease, as a client sees it. *)
Lemma advance_running e tenant now r :
  open r = true → lease_running now (advanceRecordStateLocked e tenant now r) = lease_running now r.
Proof.
  intros Ho. destruct (advance_fields e tenant now r) as (_ & Hl & _ & _ & Hx & _).
  unfold lease_running. rewrite Hl, Hx, Ho. destruct (jr_leased r), (After _ _); done.
Qed.

Lemma advance_open e tenant now r : open (advanceRecordStateLocked e tenant now r) = open r.
Proof.
  destruct (advance_fields e tenant now r) as (_ & _ & _ & _ & _ & Ha & Hc & _). unfold open, archived. by rewrite Ha, Hc.
Qed.

Lemma advance_live e tenant now id r : live now id (advanceRecordStateLocked e tenant now r) = live now id r.
Proof.
  unfold live. destruct (advance_fields e tenant now r) as (_ & _ & Hi & _). rewrite Hi, advance_open.
  destruct (open r) eqn:Ho; [|by rewrite !andb_false_r]. by rewrite advance_running.
Qed.

Lemma holds_fields now id wk r :
  holds_lease now id wk r = true ↔
  id ≠ "" ∧ jr_leaseID r = id ∧ jr_leaseWorkerID r = wk ∧ jr_leased r = true ∧ (now < jr_leaseExpiresAt r)%Z ∧
  jr_archived r = None ∧ jr_cancelled r = false.
Proof.
  split; [apply holds_open|]. intros (Hne & Hi & Hw & Hl & Hx & Ha & Hc).
  unfold holds_lease, lease_running, open, archived, After. rewrite Hi, Hw, Hl, Ha, Hc, !String.eqb_refl.
  apply Z.ltb_lt in Hx. rewrite Hx. unfold str_empty. by destruct id.
Qed.

Section world.
Context `{CellText} `{RangeOrder} `{FloatText} `{ChapterChecks} `{TimeZones} `{ScheduleText}.

(** ** The invariant *)
Record world_ok (w : World) : Prop := {
  wo_tables : tables_ok (w_engine w);
  wo_records : ∀ k r, e_jobRecords (w_engine w) !! k = Some r → record_ok (w_engine w) (w_now w) (w_used w) k r;
  wo_histories : histories_ok (w_engine w)
}.

Lemma initial_ok w : initial w → world_ok w.
Proof.
  intros [keys He]. split; rewrite He; simpl.
  - split; simpl; by intros k x Hx%lookup_empty_Some.
  - by intros k r Hr%lookup_empty_Some.
  - split; simpl.
    + intros k. split; by intros [? ?%lookup_empty_Some].
    + by intros k chs Hk%lookup_empty_Some.
Qed.

(** What a step does to a record that was there. *)
Lemma step_record s w w' k r :
  step s w w' → e_jobRecords (w_engine w) !! k = Some r →
  ∃ r', e_jobRecords (w_engine w') !! k = Some r' ∧ rtc (move s (w_now w') (w_engine w) k) r r'.
Proof.
  intros [Hle _ _ _ _ He] Hk. pose proof (exec_moves s (w_now w') (w_engine w) k) as Hm.
  rewrite <- He, Hk in Hm. destruct (e_jobRecords (w_engine w') !! k) as [r'|]; [by exists r'|done].
Qed.

Lemma step_ids s w w' id :
  step s w w' → id ∈ generated s (w_engine w) → id ∈ w_used w' ∧ id ≠ "" ∧ id ∉ w_used w.
Proof.
  intros [_ _ Hids _ -> _] Hid. destruct (Hids id Hid) as [Hn Hb]. split; [set_solver|]. split; [by intros ->|done].
Qed.

(** The record invariant at the moment the section runs. *)
Lemma step_before s w w' k r :
  step s w w' → world_ok w → e_jobRecords (w_engine w) !! k = Some r →
  record_ok (w_engine w) (w_now w') (w_used w') k r.
Proof.
  intros [Hle _ _ _ Hu _] Hok Hk. eapply record_ok_fwd; [apply waits_fwd_refl|exact Hle| |by apply Hok].
  rewrite Hu. set_solver.
Qed.

Lemma step_world_ok s w w' : step s w w' → world_ok w → world_ok w'.
Proof.
  intros Hs Hok. pose proof Hs as [Hle _ _ Hc Hu He].
  destruct (exec_tables s (w_now w') (w_engine w) (wo_tables _ Hok)) as [Ht Hf]. rewrite <- He in Ht, Hf.
  split; [done| |rewrite He; by apply exec_histories_ok; [apply Hok|]].
  intros k r' Hr'. eapply record_ok_fwd; [exact Hf|reflexivity|reflexivity|].
  pose proof (exec_moves s (w_now w') (w_engine w) k) as Hm. rewrite <- He, Hr' in Hm.
  destruct (e_jobRecords (w_engine w) !! k) as [r|] eqn:Hr; [|destruct Hm as [Hb _]; by apply born_ok].
  eapply moves_ok; [|exact Hm|by eapply step_before].
  intros id Hid. by destruct (step_ids _ _ _ _ Hs Hid) as (? & ? & _).
Qed.

Lemma steps_world_ok w w' : rtc any_step w w' → world_ok w → world_ok w'.
Proof. induction 1 as [|w w1 w' [s Hs] _ IH]; [done|]. intros. by eapply IH, step_world_ok. Qed.

Lemma reachable_world_ok w : reachable w → world_ok w.
Proof. intros (w0 & Hi & Hs). eapply steps_world_ok; [done|by apply initial_ok]. Qed.

Lemma reachable_steps w w' : reachable w → rtc any_step w w' → reachable w'.
Proof. intros (w0 & Hi & Hs) Hs'. exists w0. split; [done|]. by etrans. Qed.

Lemma steps_clock w w' : rtc any_step w w' → (w_now w ≤ w_now w')%Z ∧ w_used w ⊆ w_used w'.
Proof.
  induction 1 as [|w w1 w' [s [Hle _ _ _ Hu _]] _ [IHn IHu]]; [done|]. rewrite Hu in IHu. split; [lia|set_solver].
Qed.

(** Following a record through many steps: [P] is a property of records that each
    section preserves. *)
Lemma steps_keep (P : World → option jobRecord → Prop) k w w' :
  (∀ s w w', step s w w' → world_ok w → P w (e_jobRecords (w_engine w) !! k) → P w' (e_jobRecords (w_engine w') !! k)) →
  rtc any_step w w' → world_ok w → P w (e_jobRecords (w_engine w) !! k) → P w' (e_jobRecords (w_engine w') !! k).
Proof.
  intros Hstep. induction 1 as [|w w1 w' [s Hs] _ IH]; [done|]. intros Hok HP.
  apply IH; [by eapply step_world_ok|by eapply Hstep].
Qed.
End world.
