(* ===== verification/ToyGoals.v ===== *)
(** * ToyGoals: the goal store inside the runtime

    [goals_ok]: the goal store an engine's tables form ([goal_view]) keeps the
    invariant of [GoalStable], every reservation that is still to be published
    brings a goal of its own, and every record's wait exists. *)

From S2P Require Import Prelude Types GoalStore GoalEngine GoalCycles GoalWaits GoalInvariant GoalLive GoalGraph GoalTotal.
From S2P Require Import GoalProgress GoalStable.
From S2P Require Import Json ClientPayload Cells CellState Metadata Chapters Schedule ScheduleRuns.
From S2P Require Import ToyState ToyLease ToyChapters ToySubmit ToySchedule ToyRestart ToyRun ToyMoves ToyTables ToyLifecycle.

(** ** Reservations

    A reservation that shares no goal and whose job does not exist yet: its goal
    is its own, and does not exist either. *)
Definition private (e : ToyEngine) (key : JobKey) (p : preparedGoalJob) : Prop :=
  e_preparedGoals e !! key = Some p ∧ pp_ShareGoal (pg_Request p) = false ∧ e_jobRecords e !! key = None.

Record reservations_ok (used : gset string) (e : ToyEngine) : Prop := {
  rv_fresh : ∀ key p, private e key p →
    e_GoalRows e !! mkGoalKey (jk_TenantId key) (pg_GoalID p) = None ∧ pg_GoalID p ∈ used ∧
    blank (pg_GoalID p) = false;
  rv_distinct : ∀ key1 p1 key2 p2, private e key1 p1 → private e key2 p2 → pg_GoalID p1 = pg_GoalID p2 → key1 = key2;
  rv_rows : ∀ k, is_Some (e_GoalRows e !! k) → gk_GoalID k ∈ used
}.

Section goals.
Context `{RangeOrder}.

Record goals_ok (now : time) (used : gset string) (e : ToyEngine) : Prop := {
  go_inv : goals_inv now (goal_view e);
  go_reservations : reservations_ok used e;
  go_key : ∀ k r, e_jobRecords e !! k = Some r → jr_key r = k;
  go_wait : ∀ k r, e_jobRecords e !! k = Some r → jr_dependencyWaitID r ≠ "" →
    is_Some (e_WaitRows e !! mkWaitKey k (jr_dependencyWaitID r))
}.

Lemma goals_ok_later now now' used used' e :
  (now ≤ now')%Z → used ⊆ used' → goals_ok now used e → goals_ok now' used' e.
Proof.
  intros Hle Hu [Hi [Rf Rd Rr] Hk Hw]. split; [by eapply goals_inv_later| |done|done].
  split; [|done|set_solver]. intros key p Hp. destruct (Rf key p Hp) as (? & ? & ?). set_solver.
Qed.

(** ** Frames *)

(** What of a record the goals depend on. *)
Definition light (k : JobKey) (r : jobRecord) := (goalJob k r, jr_key r, jr_dependencyWaitID r).
Definition goal_tables (e : ToyEngine) := (e_GoalRows e, e_Extras e, e_WaitRows e, e_preparedGoals e).
Definition same_light (e e' : ToyEngine) : Prop :=
  ∀ k, light k <$> e_jobRecords e' !! k = light k <$> e_jobRecords e !! k.

Lemma same_light_some e e' k r' :
  same_light e e' → e_jobRecords e' !! k = Some r' →
  ∃ r, e_jobRecords e !! k = Some r ∧ light k r' = light k r.
Proof.
  intros Hs Hr. specialize (Hs k). rewrite Hr in Hs. simpl in Hs.
  destruct (e_jobRecords e !! k) as [r|]; [|done]. exists r. split; [done|]. by apply (inj Some) in Hs.
Qed.

Lemma same_light_none e e' k : same_light e e' → e_jobRecords e' !! k = None ↔ e_jobRecords e !! k = None.
Proof. intros Hs. specialize (Hs k). by destruct (e_jobRecords e' !! k), (e_jobRecords e !! k). Qed.

Lemma goal_view_eq e e' : goal_tables e' = goal_tables e → same_light e e' → goal_view e' = goal_view e.
Proof.
  unfold goal_tables, goal_view. intros [= -> -> -> _] Hs. f_equal. apply map_eq. intros k.
  rewrite !map_lookup_imap. specialize (Hs k).
  destruct (e_jobRecords e' !! k), (e_jobRecords e !! k); simpl in *; try done. apply (inj Some) in Hs. unfold light in Hs. congruence.
Qed.

Lemma same_light_refl e e' : e_jobRecords e' = e_jobRecords e → same_light e e'.
Proof. intros Hr k. by rewrite Hr. Qed.

Lemma goals_ok_frame now used e e' :
  goal_tables e' = goal_tables e → same_light e e' → goals_ok now used e → goals_ok now used e'.
Proof.
  intros Ht Hs [Hi [Rf Rd Rr] Hk Hw]. pose proof Ht as Ht'. unfold goal_tables in Ht'. injection Ht' as HG HE HW HP.
  assert (∀ key p, private e' key p → private e key p) as Hpriv.
  { unfold private. intros key p (Hp & Hsh & Hn). rewrite HP in Hp. split; [done|]. split; [done|].
    by apply (same_light_none e e'). }
  split.
  - by rewrite (goal_view_eq e e').
  - split; rewrite ?HG; eauto.
  - intros k r' Hr'. destruct (same_light_some e e' k r' Hs Hr') as (r & Hr & Hl). unfold light in Hl.
    injection Hl as _ _ _ _ Hkey _. rewrite Hkey. by apply Hk.
  - intros k r' Hr'. destruct (same_light_some e e' k r' Hs Hr') as (r & Hr & Hl). unfold light in Hl.
    injection Hl as _ _ _ _ _ Hwid. rewrite Hwid, HW. by apply Hw.
Qed.

Lemma goals_ok_same now used e e' :
  goal_tables e' = goal_tables e → e_jobRecords e' = e_jobRecords e → goals_ok now used e → goals_ok now used e'.
Proof. intros Ht Hr. apply goals_ok_frame; [done|by apply same_light_refl]. Qed.

(** ** New goal tables *)
Lemma goal_view_put s e : m_Jobs s = m_Jobs (goal_view e) → goal_view (put_goals s e) = s.
Proof. destruct s as [g x w js]. simpl. intros ->. done. Qed.

Lemma goal_view_record k r e : goal_view (put_record k r e) = set_job k (goalJob k r) (goal_view e).
Proof.
  unfold goal_view, set_job. simpl. f_equal. apply map_eq. intros k'. rewrite map_lookup_imap.
  destruct (decide (k = k')) as [<-|Hne]; [by rewrite !lookup_insert_eq|].
  rewrite !lookup_insert_ne by done. by rewrite map_lookup_imap.
Qed.

(** A record is replaced and goals and waits evolve. *)
Lemma goals_ok_put now used e k r r' s :
  goals_ok now used e → e_jobRecords e !! k = Some r → jr_key r' = jr_key r →
  goals_inv now s → m_Jobs s = m_Jobs (goal_view (put_record k r' e)) →
  (∀ g, is_Some (m_GoalRows s !! g) ↔ is_Some (e_GoalRows e !! g)) →
  (∀ w, is_Some (e_WaitRows e !! w) → is_Some (m_WaitRows s !! w)) →
  (jr_dependencyWaitID r' ≠ "" → is_Some (m_WaitRows s !! mkWaitKey k (jr_dependencyWaitID r'))) →
  goals_ok now used (put_goals s (put_record k r' e)).
Proof.
  intros [Hi [Rf Rd Rr] Hk Hw] Hr Hkey Hs HJ HG HW Hwid.
  assert (∀ key p, private (put_goals s (put_record k r' e)) key p → private e key p) as Hpriv.
  { intros key p (Hp & Hsh & Hn). split; [done|]. split; [done|]. simpl in Hn.
    by apply lookup_insert_None in Hn as [Hn _]. }
  split.
  - by rewrite goal_view_put.
  - split.
    + intros key p Hp%Hpriv. destruct (Rf key p Hp) as (Hn & ? & ?). split; [|done].
      apply eq_None_not_Some. intros Hg%HG. rewrite Hn in Hg. by destruct Hg.
    + intros key1 p1 key2 p2 H1%Hpriv H2%Hpriv. eauto.
    + intros g Hg%HG. by apply Rr.
  - simpl. intros k' r0 [[<- <-]|[_ Hr0]]%lookup_insert_Some; [|by apply Hk]. rewrite Hkey. by apply Hk.
  - simpl. intros k' r0 [[<- <-]|[_ Hr0]]%lookup_insert_Some; [done|]. intros. by apply HW, Hw.
Qed.

(** Goals and waits evolve, the records stay. *)
Lemma goals_ok_run {A} W now used (m : M Memory A) e :
  stable W now m → goals_ok now used e → goals_ok now used (run_goals_clone m e).1.
Proof.
  intros Hm Hok. unfold run_goals_clone. simpl. destruct (m (goal_view e)) as [s [a|err]] eqn:Hs; simpl; [|done].
  destruct (Hm _ _ _ (go_inv _ _ _ Hok) Hs) as [Hi He]. pose proof (evolve_jobs _ _ _ _ He) as HJ.
  destruct Hok as [_ [Rf Rd Rr] Hk Hw]. split; [by rewrite goal_view_put| |done|].
  - split.
    + intros key p Hp. destruct (Rf key p Hp) as (Hn & ? & ?). split; [|done].
      apply eq_None_not_Some. intros Hg%(evolve_goal_dom _ _ _ _ _ He). simpl in Hg. rewrite Hn in Hg. by destruct Hg.
    + exact Rd.
    + intros g Hg%(evolve_goal_dom _ _ _ _ _ He). by apply Rr.
  - intros k r Hr Hne. eapply (evolve_wait_dom _ _ (goal_view e)); [exact He|]. by apply Hw.
Qed.

(** ** Finishing a job *)
Lemma goals_ok_complete now used e key r r' :
  goals_ok now used e → e_jobRecords e !! key = Some r → finishes (goalJob key r) (goalJob key r') →
  jr_key r' = jr_key r → jr_dependencyWaitID r' = jr_dependencyWaitID r →
  let p := run_goals (Complete now key) (put_record key r' e) in p.2 = Ok tt ∧ goals_ok now used p.1.
Proof.
  intros Hok Hr Hf Hk Hw. unfold run_goals. simpl. rewrite (goal_view_record key r' e).
  destruct (complete_finishes now (goal_view e) key (goalJob key r) (goalJob key r')) as (s & Hs & Hi & He).
  - apply Hok.
  - rewrite goal_view_jobs. by rewrite Hr.
  - done.
  - rewrite Hs. simpl. split; [done|]. eapply (goals_ok_put _ _ _ _ r); try done.
    + rewrite goal_view_record. exact (evolve_jobs _ _ _ _ He).
    + intros g. exact (evolve_goal_dom _ _ _ _ g He).
    + intros w. exact (evolve_wait_dom _ _ _ _ w He).
    + rewrite Hw. intros Hne. eapply (evolve_wait_dom _ _ _ _ _ He). simpl. by eapply go_wait.
Qed.

(** A record that is no longer open. *)
Lemma finishes_record key r r' :
  jr_goalID r' = jr_goalID r → jr_createdAt r' = jr_createdAt r → archived r' || jr_cancelled r' = true →
  (open r = false → goalJob key r' = goalJob key r) → finishes (goalJob key r) (goalJob key r').
Proof.
  intros Hg Hc Ht Ho. split; simpl; try done. intros Hd. apply Ho. unfold open.
  by destruct (archived r), (jr_cancelled r).
Qed.
End goals.
