(* ===== verification/ToyGoalSteps.v ===== *)
(** * ToyGoalSteps: every critical section keeps the goal invariant

    Section by section: most leave the goals alone, publications insert a job,
    completions finish one, and the rest run an operation of the goal engine. *)

From S2P Require Import Prelude Types GoalStore GoalEngine GoalCycles GoalWaits GoalInvariant GoalLive GoalGraph GoalTotal.
From S2P Require Import GoalProgress GoalStable.
From S2P Require Import Json ClientPayload Cells CellState Metadata Chapters Schedule ScheduleRuns.
From S2P Require Import ToyState ToyLease ToyChapters ToySubmit ToySchedule ToyRestart ToyRun ToyMoves ToyTables ToyLifecycle ToyWorld ToyGoals.

Section sections.
Context `{CellText} `{RangeOrder} `{FloatText} `{ChapterChecks} `{TimeZones} `{ScheduleText}.

(** ** Sections that touch neither goals nor what they depend on *)
Definition quiet (s : section) : bool :=
  match s with
  | SPrepare _ _ _ _ | SDiscard _ | SSubmit _ _ _ _ _ _ _ _ | SScheduled _ _ _ _ _ _ _ _ _ _ | SRestart _ _ _ _
  | SComplete _ _ _ _ | SPayloadFailure _ _ _ _ _ | SReschedule _ _ _ _ | STaskPublish _ _ _ _ _
  | SCancel _ _ | SDelete _ | SAddCandidate _ | SFailGoal _ => false
  | _ => true
  end.

Lemma core_light k r r' : core r = core r' → light k r = light k r'.
Proof.
  unfold core. intros Hc. injection Hc as _ _ _ _ _ Ha Hca Hcs _ _ Hd Hk Hg Hcr _.
  unfold light, goalJob, archived. by rewrite Ha, Hca, Hcs, Hd, Hk, Hg, Hcr.
Qed.

Lemma advance_light e tenant now k r : light k (advanceRecordStateLocked e tenant now r) = light k r.
Proof. unfold advanceRecordStateLocked. by destruct (_ && _); destruct (_ && _). Qed.

Lemma take_light now id wk d k r : light k (take_lease now id wk d r) = light k r.
Proof. unfold take_lease, commit_route. by destruct (jr_alternateRoute r); [destruct (alternate_due _ _)|]. Qed.

Lemma quiet_move s now e0 k r r' : quiet s = true → move s now e0 k r r' → light k r' = light k r.
Proof.
  intros Hq Hm. destruct Hm as [r1 r2 Hc _|e r1 _|e r1 id wk d _ _ _ _ _|r1 id wk t _ _|r1 id wk req v n -> _|r1 id wk req ch -> _
    |r1 id wk req task wid v n -> _|r1 resume p w Ha _ _ _|r1 f p w Ha _ _ _|r1 reason -> _|r1 _ _ _|r1 req -> _]; try done.
  - symmetry. by apply core_light.
  - apply advance_light.
  - rewrite take_light. apply advance_light.
  - by destruct s.
  - unfold cleared_record. simpl. repeat case_match; done.
Qed.

Lemma quiet_moves s now e0 k r r' : quiet s = true → rtc (move s now e0 k) r r' → light k r' = light k r.
Proof.
  intros Hq. induction 1 as [|r1 r2 r3 Hm _ IH]; [done|]. rewrite IH. by eapply quiet_move.
Qed.

Lemma poll_only req allowed ps limit now new_id keys e out :
  goal_tables (poll_loop req allowed ps limit now new_id keys e out).1 = goal_tables e.
Proof.
  revert e out. induction keys as [|k keys IH]; intros e out; simpl; [done|].
  destruct (e_jobRecords e !! k); [|apply IH]. destruct (_ || _); [apply IH|].
  destruct (_ || _); [apply (IH (put_record k _ e))|].
  destruct (_ <=? _)%nat; [done|apply (IH (put_record k _ e))].
Qed.

Lemma uploads_only key o us e : goal_tables (write_uploads key o us e).1 = goal_tables e.
Proof.
  revert e. induction us as [|u us IH]; intros e; [done|]. simpl. unfold m_bind, m_read, m_write, m_ret.
  destruct (au_Open u) as [data|]; [|done]. simpl.
  match goal with |- context [write_uploads key o us ?e1] => specialize (IH e1); destruct (write_uploads key o us e1) as [e2 [rest|]] end;
    simpl in *; by rewrite IH.
Qed.

Lemma quiet_tables s now e : quiet s = true → goal_tables (exec s now e).1 = goal_tables e.
Proof.
  intros Hq. destruct s; try done; simpl exec; rewrite ?drop_result_fst.
  - unfold acquire_ready. destruct (rbind _ _) as [[ps allowed]|]; [|done]. apply poll_only.
  - unfold acquire_job. destruct (rbind _ _); [|done]. destruct (_ !! _); [|done]. destruct (rbind _ _); [|done].
    by destruct (negb _).
  - unfold KeepAliveLeaseByID. destruct (_ !! _); [|done]. by destruct (negb _).
  - unfold RenewExecutionLeaseByID. destruct (_ !! _); [|done]. by destruct (_ || _).
  - apply uploads_only.
  - unfold store_history. destruct (_ !! _); [|done]. by repeat case_match.
  - unfold store_view. destruct (_ !! _); [|done]. by repeat case_match.
  - unfold task_snapshot. by destruct (_ !! _).
  - unfold ClearCrashConcern. destruct (_ || _); [done|]. destruct (_ !! _); [|done]. by destruct (_ || _).
  - done.
  - unfold CreateCellWithLeaseByID. by destruct (cellParentLocked _ _ _ _).
  - unfold UpdateCell. destruct (on_cells _ _ e) as [e1 [c|]] eqn:Ho; unfold on_cells in Ho; injection Ho as <- _;
      simpl; [by destruct (String.eqb _ _)|done].
  - done.  - by edestruct upsert_schedules as [m ->].
  - by edestruct mutate_schedules as [m ->].
Qed.

Lemma quiet_ok s now used e : quiet s = true → goals_ok now used e → goals_ok now used (exec s now e).1.
Proof.
  intros Hq. apply goals_ok_frame; [by apply quiet_tables|]. intros k. pose proof (exec_moves s now e k) as Hm.
  destruct (e_jobRecords e !! k) as [r|], (e_jobRecords (exec s now e).1 !! k) as [r'|]; try done.
  - simpl. f_equal. by eapply quiet_moves.
  - destruct Hm as [_ Hp]. by destruct s.
Qed.

(** ** Reservations *)
Lemma prepare_cases ctx req now gen goal e :
  (PrepareJob ctx req now gen goal e).1 = e ∨
  ∃ key p, (pp_ShareGoal (pg_Request p) = false → pg_GoalID p = goal) ∧
    goal_tables (PrepareJob ctx req now gen goal e).1 =
      (e_GoalRows e, e_Extras e, e_WaitRows e, <[key := p]> (e_preparedGoals e)).
Proof.
  unfold PrepareJob. destruct (rbind _ _) as [[[req'|] p]|] eqn:Hr; [|by left..].
  right. simpl. unfold goal_tables. simpl.
  apply bind_ok in Hr as (key0 & _ & Hr). apply bind_ok in Hr as (target & _ & Hr).
  apply bind_ok in Hr as (key1 & _ & Hr). destruct (e_preparedGoals e !! key1) as [old|] eqn:Hold.
  { apply bind_ok in Hr as ([] & _ & Hr). by apply bind_ok in Hr as ([] & _ & [=]). }
  apply bind_ok in Hr as (key & Hkey & Hr). apply bind_ok in Hr as ([] & Hval & Hr).
  apply bind_ok in Hr as (g & Hg & [= <- <-]).
  eexists key, _. split; [|reflexivity]. simpl. intros Hsh. unfold new_goal_id in Hg. simpl in Hg.
  rewrite Hsh in Hg. by injection Hg as <-.
Qed.

Lemma prepare_ok ctx req now gen goal used e :
  goal ∉ used → blank goal = false → goals_ok now used e →
  goals_ok now (used ∪ {[goal]}) (PrepareJob ctx req now gen goal e).1.
Proof.
  intros Hf Hb Hok.
  destruct (prepare_cases ctx req now gen goal e) as [->|(key & p & Hp & Ht)].
  { eapply goals_ok_later; [done| |done]. set_solver. }
  pose proof (prepare_records ctx req now gen goal e) as Hrec.
  set (e' := (PrepareJob ctx req now gen goal e).1) in *. unfold goal_tables in Ht. injection Ht as HG HE HW HP.
  destruct Hok as [Hi [Rf Rd Rr] Hk Hw].
  assert (∀ key' p', private e' key' p' →
    key' = key ∧ pg_GoalID p' = goal ∨ private e key' p' ∧ pg_GoalID p' ∈ used) as Hpriv.
  { intros key' p' (Hp' & Hsh & Hn). rewrite HP in Hp'. rewrite Hrec in Hn.
    apply lookup_insert_Some in Hp' as [[<- <-]|[_ Hp']]; [left; auto|right].
    assert (private e key' p') as Hpr by done. split; [done|]. by destruct (Rf _ _ Hpr) as (_ & ? & _). }
  split.
  - unfold goal_view. rewrite HG, HE, HW, Hrec. exact Hi.
  - split; rewrite ?HG.
    + intros key' p' [[-> ->]|[Hpr _]]%Hpriv; [|destruct (Rf _ _ Hpr) as (? & ? & ?); set_solver].
      split; [|set_solver]. apply eq_None_not_Some. intros Hg%Rr. done.
    + intros key1 p1 key2 p2 [[-> E1]|[Q1 U1]]%Hpriv [[-> E2]|[Q2 U2]]%Hpriv Heq; [done|congruence|congruence|eauto].
    + intros k Hk'%Rr. set_solver.
  - rewrite Hrec. exact Hk.
  - rewrite Hrec, HW. exact Hw.
Qed.

Lemma discard_ok key now used e : goals_ok now used e → goals_ok now used (DiscardJobPreparation key e).
Proof.
  intros Hok. unfold DiscardJobPreparation. destruct (bool_decide _); [done|].
  destruct (e_preparedGoals e !! key) as [p|]; [|done].
  destruct Hok as [Hi [Rf Rd Rr] Hk Hw]. match goal with |- goals_ok now used ?x => set (e' := x) end.
  assert (∀ key' p', private e' key' p' → private e key' p') as Hpriv.
  { unfold private. intros key' p' (Hp' & ?). simpl in Hp'. by apply lookup_delete_Some in Hp' as [_ ?]. }
  split; [exact Hi| |exact Hk|exact Hw]. split; [|intros key1 p1 key2 p2 Q1%Hpriv Q2%Hpriv; eauto|exact Rr].
  intros key' p' Hp%Hpriv. by apply Rf.
Qed.

(** ** Publication *)

(** The goal transitions of a publication, from the store without the job. *)
Lemma publish_goals_inv now s key p r s' (j := goalJob key r) :
  goals_inv now s → m_Jobs s !! key = None → blank (jk_JobId key) = false → jr_goalID r = pg_GoalID p →
  (pp_ShareGoal (pg_Request p) = false →
   m_GoalRows s !! mkGoalKey (jk_TenantId key) (pg_GoalID p) = None ∧ blank (pg_GoalID p) = false) →
  publish_goals key p r now (set_job key j s) = (s', Ok tt) →
  goals_inv now s' ∧ m_Jobs s' = <[key := j]> (m_Jobs s) ∧
  (∀ g, is_Some (m_GoalRows s' !! g) ↔
     g = mkGoalKey (jk_TenantId key) (pg_GoalID p) ∨ is_Some (m_GoalRows s !! g)) ∧
  (∀ w, is_Some (m_WaitRows s !! w) → is_Some (m_WaitRows s' !! w)) ∧
  (length (pp_Dependencies (pg_Request p)) ≠ 0 → is_Some (m_WaitRows s' !! mkWaitKey key "submission")) ∧
  (pp_ShareGoal (pg_Request p) = true → is_Some (m_GoalRows s !! mkGoalKey (jk_TenantId key) (pg_GoalID p))).
Proof.
  intros Hi Hn Hb Hg Hfresh Hs. set (gk := mkGoalKey (jk_TenantId key) (pg_GoalID p)) in *.
  apply m_bind_inv in Hs as ([] & s1 & H1' & Hs). apply m_bind_inv in Hs as ([] & s2 & H2' & Hs).
  unfold m_read in Hs. injection Hs as <- _.
  assert (∃ rows, s1 = mkMemory rows (m_Extras s) (m_WaitRows s) (<[key := j]> (m_Jobs s)) ∧ inserts s key j rows ∧
    (∀ g, is_Some (rows !! g) ↔ g = gk ∨ is_Some (m_GoalRows s !! g)) ∧
    (pp_ShareGoal (pg_Request p) = true → is_Some (m_GoalRows s !! gk))) as (rows & -> & Hin & Hrows & Hshared).
  { assert (mkGoalKey (jk_TenantId key) (j_GoalID j) = gk) as Hgk by (unfold j, gk; simpl; by rewrite Hg).
    destruct (pp_ShareGoal (pg_Request p)).
    - apply m_bind_inv in H1' as (g & s3 & Hr & H1'). unfold m_read in Hr, H1'. injection Hr as <- Hr.
      injection H1' as <- _. apply mem_goal_ok in Hr as (v & Hv & _). simpl in Hv.
      exists (m_GoalRows s). split; [done|]. split.
      + split; [done|done|done|rewrite Hgk; eauto|by left].
      + split; [|eauto]. intros g0. split; [by right|]. intros [->|?]; [eauto|done].
    - unfold m_write in H1'. injection H1' as <-. destruct (Hfresh eq_refl) as [Hnone Hblank].
      eexists. split; [reflexivity|]. split.
      + split; [done|done|done|rewrite Hgk; apply lookup_insert_is_Some'; by left|].
        right. rewrite Hgk. split; [done|]. split; [unfold j; simpl; by rewrite Hg|].
        eexists. by split; [|reflexivity].
      + split; [|done]. intros g0. rewrite lookup_insert_is_Some'. simpl. naive_solver. }
  pose proof (insert_inv now s key j rows Hi Hin) as Hi1.
  destruct (bool_decide_reflect (length (pp_Dependencies (pg_Request p)) = 0)) as [Hd|Hd].
  - unfold m_ret in H2'. injection H2' as <-. split; [done|]. split; [done|]. by split; [exact Hrows|].
  - apply m_bind_inv in H2' as (w & s3 & Hreg & H2'). unfold m_ret in H2'. injection H2' as <-.
    destruct (register_stable _ _ _ _ _ _ _ Hi1 Hreg) as [Hi2 He].
    split; [done|]. split; [by rewrite (evolve_jobs _ _ _ _ He)|]. split; [|split; [|split; [|done]]].
    + intros g. rewrite (evolve_goal_dom _ _ _ _ g He). apply Hrows.
    + intros w0 Hw0. by eapply (evolve_wait_dom _ _ _ _ w0 He).
    + intros _. exact (register_stores _ _ _ _ _ _ _ (goals_ok_memory _ _ Hi1) Hreg).
Qed.

(** The record a publication files, and its successful runs. *)
Definition published (cell : ResolvedCell) (key : JobKey) (p : preparedGoalJob) (r : jobRecord) : jobRecord :=
  r <| jr_cell := cell |> <| jr_goalID := pg_GoalID p |> <| jr_key := key |>.

Lemma publish_goal_inv ctx key r now e e' :
  publishGoalLocked ctx key r now e = Ok e' →
  ∃ p cell cells s, e_preparedGoals e !! key = Some p ∧
    publish_goals key p (published cell key p r) now (goal_view (put_record key (published cell key p r) e)) = (s, Ok tt) ∧
    e' = put_goals s (put_record key
           (if bool_decide (length (pp_Dependencies (pg_Request p)) = 0) then published cell key p r
            else published cell key p r <| jr_dependencyWaitID := "submission" |>) e) <| e_cells := cells |>.
Proof.
  unfold publishGoalLocked. intros (p & Hp & He)%bind_ok. apply bind_ok in He as ([cell cells] & _ & He).
  apply bind_ok in He as ([] & Hs & He). injection He as <-.
  exists p, cell, (<[jk_TenantId key := cells]> (e_cells e)). eexists. split; [|split].
  - unfold of_option in Hp. destruct (e_preparedGoals e !! key); [by injection Hp as ->|done].
  - apply injective_projections; [reflexivity|exact Hs].
  - reflexivity.
Qed.

Lemma publish_goal_goals ctx key r now used e e' :
  goals_ok now used e → e_jobRecords e !! key = None → blank (jk_JobId key) = false → jr_dependencyWaitID r = "" →
  publishGoalLocked ctx key r now (put_record key r e) = Ok e' → goals_ok now used e'.
Proof.
  intros Hok Hn Hb Hwid (p & cell & cells & s & Hprep & Hs & ->)%publish_goal_inv. simpl in Hprep.
  set (r1 := published cell key p r) in *.
  destruct Hok as [Hi [Rf Rd Rr] Hk Hw].
  assert (goal_view (put_record key r1 (put_record key r e)) = set_job key (goalJob key r1) (goal_view e)) as Hview.
  { rewrite <- goal_view_record. unfold goal_view. simpl. by rewrite insert_insert_eq. }
  rewrite Hview in Hs.
  assert (pp_ShareGoal (pg_Request p) = false → private e key p) as Hpr by done.
  destruct (publish_goals_inv now (goal_view e) key p r1 s) as (Hi' & HJ & HG & HW & Hsub & Hshared); [done| |done|done| |done|].
  { rewrite goal_view_jobs. by rewrite Hn. }
  { intros Hsh. by destruct (Rf key p (Hpr Hsh)) as (? & _ & ?). }
  match goal with |- goals_ok now used ?x => set (e2 := x) end.
  assert (∃ r2, e_jobRecords e2 = <[key := r2]> (e_jobRecords e) ∧ goalJob key r2 = goalJob key r1 ∧ jr_key r2 = key ∧
    (jr_dependencyWaitID r2 ≠ "" → is_Some (e_WaitRows e2 !! mkWaitKey key (jr_dependencyWaitID r2)))) as (r2 & HR & HJ2 & HK2 & HW2).
  { eexists. split; [unfold e2; simpl; by rewrite !insert_insert_eq|].
    destruct (bool_decide_reflect (length (pp_Dependencies (pg_Request p)) = 0)) as [Hd|Hd]; simpl.
    - split; [done|]. split; [done|]. by rewrite Hwid.
    - split; [done|]. split; [done|]. intros _. by apply Hsub. }
  assert (∀ key' p', private e2 key' p' → private e key' p' ∧ key' ≠ key) as Hpriv.
  { intros key' p' (Hp' & Hsh & Hn'). rewrite HR in Hn'. by apply lookup_insert_None in Hn' as [? ?]. }
  split.
  - assert (goal_view e2 = s) as ->; [|done]. unfold goal_view. rewrite HR. destruct s as [g x w js].
    simpl in HJ |- *. f_equal. rewrite HJ. apply map_eq. intros k.
    rewrite map_lookup_imap. destruct (decide (key = k)) as [<-|Hne].
    + rewrite !lookup_insert_eq. simpl. by rewrite HJ2.
    + rewrite !lookup_insert_ne by done. by rewrite map_lookup_imap.
  - split; [| |].
    + intros key' p' [Hpr' Hne]%Hpriv. destruct (Rf _ _ Hpr') as (Hnone & Hu & Hbl). split; [|done].
      apply eq_None_not_Some. intros [[= Ht Hgid]|Hg]%HG; [|simpl in Hg; rewrite Hnone in Hg; by destruct Hg].
      destruct (pp_ShareGoal (pg_Request p)) eqn:Hsh.
      * destruct (Hshared eq_refl) as [g Hg]. simpl in Hg. rewrite Ht, Hgid in Hnone. by rewrite Hg in Hnone.
      * apply Hne. eapply Rd; [exact Hpr'|by apply Hpr|done].
    + intros key1 p1 key2 p2 [Q1 _]%Hpriv [Q2 _]%Hpriv. eauto.
    + intros g [->|Hg]%HG; [|by apply Rr]. destruct (pp_ShareGoal (pg_Request p)) eqn:Hsh; [by apply Rr, Hshared|].
      by destruct (Rf key p (Hpr eq_refl)) as (_ & ? & _).
  - rewrite HR. intros k r0 [[<- <-]|[_ Hr0]]%lookup_insert_Some; [done|by apply Hk].
  - rewrite HR. intros k r0 [[<- <-]|[_ Hr0]]%lookup_insert_Some; [done|]. intros Hne. by apply HW, Hw.
Qed.

(** No job's ID is blank ([JobKey.Validate] only asks that it is not empty). *)
Definition named_jobs (e : ToyEngine) : Prop := ∀ k, is_Some (e_jobRecords e !! k) → blank (jk_JobId k) = false.

Lemma publication_ok ctx key r now used e (after : ToyEngine → ToyEngine) :
  goals_ok now used e → e_jobRecords e !! key = None → jr_dependencyWaitID r = "" →
  (∀ e', goal_tables (after e') = goal_tables e' ∧ e_jobRecords (after e') = e_jobRecords e') →
  let e' := match publishGoalLocked ctx key r now (put_record key r e) with
    | Err _ => put_record key r e <| e_jobRecords := delete key (e_jobRecords (put_record key r e)) |>
    | Ok e2 => after e2
    end in
  named_jobs e' → goals_ok now used e'.
Proof.
  intros Hok Hn Hwid Hafter. simpl. destruct (publishGoalLocked _ _ _ _ _) as [e2|] eqn:Hp; intros Hnamed.
  - destruct (Hafter e2) as [Ht Hr]. eapply goals_ok_same; [exact Ht|exact Hr|].
    apply (publish_goal_goals ctx key r now used e); try done. apply Hnamed. rewrite Hr.
    apply publish_goal_ok in Hp as (p & cell & wait & _ & _ & -> & _). rewrite lookup_insert_eq. eauto.
  - eapply goals_ok_same; [..|exact Hok]; [done|]. simpl. by rewrite delete_insert_id.
Qed.

Lemma publish_job_goals ctx key r start now used e :
  jr_dependencyWaitID r = "" → goals_ok now used e →
  named_jobs (publish_job ctx key r start now e).1 → goals_ok now used (publish_job ctx key r start now e).1.
Proof.
  intros Hw Hok. unfold publish_job. destruct (e_jobRecords e !! key) eqn:Hk; [done|].
  pose proof (publication_ok ctx key r now used e (put_chapter key 0 start) Hok Hk Hw) as Hp.
  destruct (publishGoalLocked ctx key r now (put_record key r e)); by apply Hp.
Qed.

Lemma publish_restart_goals ctx key job j now used e :
  goals_ok now used e → named_jobs (publish_restart ctx key job j now e).1 →
  goals_ok now used (publish_restart ctx key job j now e).1.
Proof.
  intros Hok. unfold publish_restart. destruct (rbind _ _) as [kept|]; [|done].
  destruct (e_jobRecords e !! key) eqn:Hk; [done|]. destruct (rbind _ _) as [r|] eqn:Hr; [|done].
  assert (jr_dependencyWaitID r = "") as Hw.
  { apply bind_ok in Hr as (steps & _ & Hr). by apply bind_ok in Hr as (c0 & _ & [= <-]). }
  pose proof (publication_ok ctx key r now used e (λ e2, e2 <| e_runtimeChapters := <[key := kept]> (e_runtimeChapters e2) |>)
    Hok Hk Hw) as Hp.
  destruct (publishGoalLocked ctx key r now (put_record key r e)); by apply Hp.
Qed.

(** ** Finishing jobs *)

(** [Complete] after the record of [key] was closed; [e0] is the engine before
    other tables were written. *)
Lemma close_record now used e e1 key r r' :
  goals_ok now used e → goal_tables e1 = goal_tables e → e_jobRecords e1 = e_jobRecords e →
  e_jobRecords e !! key = Some r → archived r' || jr_cancelled r' = true →
  (open r = false → goalJob key r' = goalJob key r) →
  (jr_key r', jr_goalID r', jr_dependencyWaitID r', jr_createdAt r') =
    (jr_key r, jr_goalID r, jr_dependencyWaitID r, jr_createdAt r) →
  (run_goals (Complete now key) (put_record key r' e1)).2 = Ok tt ∧
  goals_ok now used (run_goals (Complete now key) (put_record key r' e1)).1.
Proof.
  intros Hok Ht HR Hr Hd Ho [= Hk Hg Hw Hc]. apply (goals_ok_same now used e e1) in Hok; [|done..].
  rewrite <- HR in Hr. eapply (goals_ok_complete now used e1 key r r'); try done. by apply finishes_record.
Qed.

Lemma complete_goals key id wk req now used e :
  goals_ok now used e →
  goals_ok now used (complete_commit key id wk req now e).1 ∧
  ∀ r vn, e_jobRecords e !! key = Some r → holds_lease now id wk r = true →
    Apply (jr_clientPayload r) (jr_clientPayloadRevision r) (ce_ClientPayloadUpdate req) = Ok vn →
    (complete_commit key id wk req now e).2 = Ok tt.
Proof.
  intros Hok. unfold complete_commit. destruct (_ !! _) as [r|] eqn:Hr; [|done].
  destruct (negb _) eqn:Hh; [split; [done|]; intros r' vn [= <-] Hl; by rewrite Hl in Hh|].
  apply negb_false_iff, holds_open in Hh as (_ & _ & _ & _ & _ & Ha & Hc).
  destruct (Apply _ _ _) as [[v n]|] eqn:Hap; [|split; [done|]; intros r' vn [= <-] _; congruence].
  destruct (close_record now used e e key r (completed_record now v n req r)) as [Hres Hok']; try done;
    try (unfold completed_record; by destruct (String.eqb _ "cancelled")).
  unfold open, archived. by rewrite Ha, Hc.
Qed.

Lemma payload_goals key id wk req ch now used e :
  goals_ok now used e → goals_ok now used (completePayloadFailure key id wk req ch now e).1.
Proof.
  intros Hok. unfold completePayloadFailure. destruct (_ || _); [done|].
  destruct (_ !! _) as [r|] eqn:Hr; [|done]. destruct (negb (holds_lease _ _ _ _)) eqn:Hh; [done|].
  apply negb_false_iff, holds_open in Hh as (_ & _ & _ & _ & _ & Ha & Hc). destruct (negb _); [done|].
  eapply (close_record _ _ e (put_chapter key (ch_Ordinal ch) ch e)); try done.
  unfold open, archived. by rewrite Ha, Hc.
Qed.

Lemma cancel_goals key reason now used e :
  goals_ok now used e →
  goals_ok now used (CancelJob key reason now e).1 ∧
  (is_Some (e_jobRecords e !! key) → (CancelJob key reason now e).2 = Ok tt).
Proof.
  intros Hok. unfold CancelJob. destruct (_ !! _) as [r|] eqn:Hr; [|split; [done|by intros []]].
  destruct (archived r) eqn:Ha; [done|].
  destruct (close_record now used e e key r (cancelled_record now reason r)) as [Hres Hok']; try done.
  unfold open. rewrite Ha. simpl. intros Hc%negb_false_iff. unfold goalJob. by rewrite Ha, Hc.
Qed.

Lemma delete_one_goals key now used e :
  goals_ok now used e → (delete_one now key e).2 = Ok tt ∧ goals_ok now used (delete_one now key e).1.
Proof.
  intros Hok. unfold delete_one. destruct (_ !! _) as [r|] eqn:Hr; [|done].
  rewrite (go_key _ _ _ Hok _ _ Hr). eapply (close_record _ _ e e); try done.
  - unfold deleted_record, archived. simpl. by destruct (jr_archived r) eqn:Ha; simpl; rewrite ?Ha.
  - unfold deleted_record, goalJob, open, archived. simpl. destruct (jr_archived r) eqn:Ha; simpl; rewrite ?Ha; [done|].
    by intros ->%negb_false_iff.
  - unfold deleted_record. by destruct (archived _).
Qed.

Lemma delete_goals req now used e :
  goals_ok now used e →
  goals_ok now used (DeleteJobs req now e).1 ∧
  ∀ ps, DeleteJobsRequest_Validate req = Ok tt → normalizeMetadataPredicates (dj_Predicates req) = Ok ps →
    ∃ n, (DeleteJobs req now e).2 = Ok n.
Proof.
  intros Hok. unfold DeleteJobs. destruct (rbind _ _) as [ps|err] eqn:Hreq.
  2: { split; [done|]. intros ps Hv Hn. rewrite Hv in Hreq. simpl in Hreq. by rewrite Hn in Hreq. }
  destruct (dj_DryRun req); [split; [done|eauto]|]. set (ms := (filter _ _).*1).
  destruct (m_iter_total (λ e' (_ : list JobKey), goals_ok now used e') (delete_one now) ms e Hok) as (e' & Hm & Hok').
  - intros k l e1 Hok1. destruct (delete_one_goals k now used e1 Hok1) as [Hres Hok2].
    destruct (delete_one now k e1) as [e2 [[]|err]] eqn:He; simpl in *; [|done]. by exists e2.
  - rewrite (m_bind_ok _ _ _ _ _ Hm). unfold m_ret. simpl. split; [done|eauto].
Qed.

Lemma put_light now used e key r r' :
  goals_ok now used e → e_jobRecords e !! key = Some r → light key r' = light key r →
  goals_ok now used (put_record key r' e).
Proof.
  intros Hok Hr Hl. eapply goals_ok_frame; [..|exact Hok]; [done|]. intros k. simpl.
  destruct (decide (key = k)) as [<-|Hne]; [by rewrite lookup_insert_eq, Hr; simpl; rewrite Hl|].
  by rewrite lookup_insert_ne.
Qed.

Lemma task_publish_goals req p route w a now used e :
  goals_ok now used e → goals_ok now used (task_publish req p route w a now e).1.
Proof.
  intros Hok. unfold task_publish. set (key := ct_JobKey req). destruct (_ !! _) as [r|] eqn:Hr; [|done].
  set (r1 := advanceRecordStateLocked e _ now r).
  pose proof (put_light now used e key r r1 Hok Hr (advance_light _ _ _ _ _)) as Hok1. clearbody r1.
  destruct (_ || _) eqn:Hg; [done|]. rewrite !orb_false_iff in Hg. destruct Hg as ((((_ & _) & Ho) & _) & _).
  apply negb_false_iff in Ho. destruct (e_runtimeChapters _ !! _) as [chs|]; [|done].
  destruct (bool_decide _); [done|]. destruct (negb _); [done|].
  assert (e_jobRecords (put_record key r1 e) !! key = Some r1) as Hr1 by apply lookup_insert_eq.
  destruct (ta_SizeFailure a) as [f|].
  - rewrite goals_then_err. match goal with |- context [put_record key ?x ?y] =>
      apply (close_record now used (put_record key r1 e) y key r1 x) end; try done.
    intros Hn. congruence.
  - simpl. match goal with |- goals_ok _ _ (put_record key ?x ?y) => apply (put_light now used y key r1 x) end; [|done|done].
    by apply (goals_ok_same now used (put_record key r1 e)).
Qed.

(** ** Rescheduling *)
Lemma reschedule_goals_stable key old w now : stable (λ _, True) now (reschedule_goals key old w now).
Proof.
  apply stable_bind.
  - destruct (_ && _); [|apply stable_ret]. by eapply stable_weaken, close_stable.
  - intros _. destruct w as [w|]; [|apply stable_ret].
    apply stable_bind; [by eapply stable_weaken, register_stable|intros; apply stable_ret].
Qed.

Lemma reschedule_stores key old w now s s' wid :
  goals_inv now s → reschedule_goals key old w now s = (s', Ok wid) → wid ≠ "" →
  is_Some (m_WaitRows s' !! mkWaitKey key wid).
Proof.
  intros Hi ([] & s1 & Hclose & Hs)%m_bind_inv Hne.
  assert (goals_inv now s1) as Hi1.
  { destruct (_ && _); [|unfold m_ret in Hclose; by simplify_eq]. by eapply close_stable. }
  destruct w as [w|]; [|unfold m_ret in Hs; by simplify_eq].
  apply m_bind_inv in Hs as (w' & s2 & Hreg & Hs). unfold m_ret in Hs. simplify_eq.
  eapply register_stores; [|exact Hreg]. by eapply goals_ok_memory.
Qed.

Lemma rescheduled_light now req task wid v n key r :
  light key (rescheduled_record now req task wid v n r) = (goalJob key r, jr_key r, wid).
Proof.
  unfold rescheduled_record, requeued_record, handed_over_record, released_record, add_pending_step, light.
  destruct (re_AlternateAfter req), task; simpl; repeat case_match; done.
Qed.

Lemma reschedule_ok key id wk req now used e :
  goals_ok now used e → goals_ok now used (rescheduleLease key id wk req now e).1.
Proof.
  intros Hok. unfold rescheduleLease.
  destruct (reschedule_check _ _ _ _ _ _) as [[[r task] [v n]]|] eqn:Hc; [|done].
  apply reschedule_check_ok in Hc as [Hr _].
  pose proof (goals_ok_run _ now used _ e (reschedule_goals_stable key (jr_dependencyWaitID r) (re_DependencyWait req) now) Hok) as Hrun.
  unfold run_goals_clone in *. destruct (reschedule_goals _ _ _ _ (goal_view e)) as [s [wid|err]] eqn:Hs; simpl in *; [|done].
  destruct (reschedule_goals_stable _ _ _ _ _ _ _ (go_inv _ _ _ Hok) Hs) as [Hi He].
  pose proof (rescheduled_light now req task wid v n key r) as Hl.
  set (r' := rescheduled_record now req task wid v n r) in *. unfold light in Hl.
  assert (goalJob key r' = goalJob key r ∧ jr_key r' = jr_key r ∧ jr_dependencyWaitID r' = wid) as (HJ & HK & HW)
    by (split; [congruence|split; congruence]).
  apply (goals_ok_put now used e key r r' s); try done.
  - rewrite (evolve_jobs _ _ _ _ He), goal_view_record. simpl. rewrite HJ, insert_id; [done|].
    rewrite map_lookup_imap. by rewrite Hr.
  - intros g. by rewrite (evolve_goal_dom _ _ _ _ g He).
  - intros w. by apply (evolve_wait_dom _ _ _ _ w He).
  - rewrite HW. by apply (reschedule_stores _ _ _ _ _ _ _ (go_inv _ _ _ Hok) Hs).
Qed.

(** ** Every section *)
Theorem exec_goals s now used e :
  (∀ id, id ∈ generated s e → id ∉ used ∧ blank id = false) → named_jobs (exec s now e).1 →
  goals_ok now used e → goals_ok now (used ∪ list_to_set (generated s e)) (exec s now e).1.
Proof.
  intros Hids Hn Hok.
  assert (∀ e', goals_ok now used e' → goals_ok now (used ∪ list_to_set (generated s e)) e') as Hmore
    by (intros e'; apply goals_ok_later; [done|set_solver]).
  destruct (quiet s) eqn:Hq; [by apply Hmore, quiet_ok|].
  destruct s; try done; simpl exec in *; rewrite ?drop_result_fst in *.
  - destruct (Hids goal) as [Hf Hb]; [set_solver|]. simpl. rewrite union_empty_r_L. by apply prepare_ok.
  - by apply Hmore, discard_ok.
  - by apply Hmore, publish_job_goals.
  - by apply Hmore, publish_job_goals.
  - by apply Hmore, publish_restart_goals.
  - by apply Hmore, complete_goals.
  - by apply Hmore, payload_goals.
  - by apply Hmore, reschedule_ok.
  - by apply Hmore, task_publish_goals.
  - by apply Hmore, cancel_goals.
  - by apply Hmore, delete_goals.
  - apply Hmore. eapply goals_ok_run; [apply add_stable|done].
  - apply Hmore. eapply goals_ok_run; [apply fail_stable|done].
Qed.

(** ** Every reachable world *)
Lemma empty_goals now : goals_inv now (mkMemory ∅ ∅ ∅ ∅).
Proof.
  assert (∀ k w, mem_Wait (mkMemory ∅ ∅ ∅ ∅) k ≠ Ok w) as HW by (intros k w (v & Hv & _)%mem_wait_ok; done).
  assert (∀ k g, mem_Goal (mkMemory ∅ ∅ ∅ ∅) k ≠ Ok g) as HG by (intros k g (v & Hv & _)%mem_goal_ok; done).
  assert (∀ k j, LookupJob (mkMemory ∅ ∅ ∅ ∅) k ≠ Ok j) as HJ by (intros k j Hj%lookup_job_ok; done).
  split.
  - split; [by split|..]; intros k w; intros; by destruct (HW k w).
  - split; simpl; [done|by intros ck []|done].
  - intros tenant x [z Hz]%tc_first. destruct Hz as [n g id j t _ Hg|n j wid y d _ Hj]; [by apply HG in Hg|by apply HJ in Hj].
  - split; intros k x Hx; [by destruct (HJ k x)|by destruct (HG k x)].
  - done.
Qed.

Lemma initial_goals w : initial w → goals_ok (w_now w) (w_used w) (w_engine w).
Proof.
  intros [keys ->]. split.
  - apply empty_goals.
  - split; [by intros key p (Hp & _)|by intros key1 p1 key2 p2 (Hp & _)|by intros k []].
  - done.
  - done.
Qed.

Lemma step_named s w w' : step s w w' → named_jobs (w_engine w') → named_jobs (w_engine w).
Proof. intros Hs Hn k [r Hr]. apply Hn. destruct (step_record s w w' k r Hs Hr) as (r' & Hr' & _). eauto. Qed.

Lemma step_goals s w w' :
  step s w w' → named_jobs (w_engine w') → goals_ok (w_now w) (w_used w) (w_engine w) →
  goals_ok (w_now w') (w_used w') (w_engine w').
Proof.
  intros Hs Hn Hok. destruct Hs as [Hle _ Hids _ Hu He]. rewrite Hu. rewrite He in Hn |- *.
  apply exec_goals; [done|done|]. by eapply goals_ok_later.
Qed.

Lemma reachable_goals w :
  reachable w → named_jobs (w_engine w) → goals_ok (w_now w) (w_used w) (w_engine w).
Proof.
  intros (w0 & Hi & Hs). revert w Hs. apply (rtc_ind_r (λ w, named_jobs (w_engine w) → goals_ok (w_now w) (w_used w) (w_engine w))).
  - intros _. by apply initial_goals.
  - intros w w' _ [s Hs] IH Hn. eapply step_goals; [done|done|]. apply IH. by eapply step_named.
Qed.
End sections.
