(* ===== verification/ToyPhases.v ===== *)
(** * ToyPhases: what each transition does to leases, outcomes and crash counters

    The consequences of a record's transitions for the clients of the runtime, and
    the abstract life cycle of a job with the simulation onto it. *)

From S2P Require Import Prelude Types GoalStore GoalEngine GoalWaits GoalInvariant.
From S2P Require Import Json ClientPayload Cells CellState Metadata Chapters Schedule ScheduleRuns.
From S2P Require Import ToyState ToyLease ToyChapters ToySubmit ToySchedule ToyRestart ToyRun ToyMoves ToyTables ToyLifecycle ToyHistory ToyWorld.

Lemma cleared_running now r : lease_running now (cleared_record now r) = lease_running now r.
Proof. unfold cleared_record. repeat case_match; done. Qed.

Lemma cleared_live now id r : live now id (cleared_record now r) = live now id r.
Proof.
  destruct (cleared_fields now r) as (_ & Hi & _ & Ha & Hc & _). unfold live, open, archived.
  by rewrite cleared_running, Hi, Ha, Hc.
Qed.

Lemma completed_leased now v n req r : jr_leased (completed_record now v n req r) = false.
Proof. unfold completed_record. by destruct (String.eqb _ _). Qed.

Lemma rescheduled_leased now req task wid v n r : jr_leased (rescheduled_record now req task wid v n r) = false.
Proof. apply rescheduled_fields. Qed.

Lemma deleted_leased now r : jr_leased (deleted_record now r) = false.
Proof. done. Qed.
#[export] Hint Resolve completed_leased rescheduled_leased deleted_leased : jobdb.

(** ** A lease that is not live stays so *)
Lemma move_dead s now e k r r' id :
  move s now e k r r' → id ∉ generated s e → live now id r = false → live now id r' = false.
Proof.
  intros Hm Hid Hl.
  destruct Hm as [r r' Hc _|e1 r HW|e1 r id' wk d _ HW Hg Hl1 Hs|r id' wk t Hh _|r id' wk req v n _ Hh|r id' wk req ch _ Hh
    |r id' wk req task wid v n _ Hh|r resume p w _ Hl1 Hs Ho|r f p w _ Hl1 Hs Ho|r reason _ Ha|r _ Ho _|r req _ _];
    try by apply not_leased_not_live; auto with jobdb.
  - by rewrite <- (live_core _ _ _ _ Hc).
  - by rewrite advance_live.
  - unfold live, take_lease. simpl. destruct (String.eqb_spec id' id) as [->|]; done.
  - apply holds_fields in Hh as (_ & <- & _ & Hl1 & Hx & Ha & Hc). unfold live in *. simpl.
    destruct (String.eqb_spec (jr_leaseID r) id) as [Heq|]; [|done].
    unfold lease_running, open, archived, After in Hl. rewrite Hl1, Ha, Hc in Hl. apply Z.ltb_lt in Hx. by rewrite Hx in Hl.
  - by rewrite cleared_live.
Qed.

Lemma moves_dead s now e k r r' id :
  rtc (move s now e k) r r' → id ∉ generated s e → live now id r = false → live now id r' = false.
Proof. intros Hm Hid. induction Hm as [|r1 r2 r3 Hm _ IH]; [done|]. intros Hl. by eapply IH, move_dead. Qed.

Lemma born_not_live now id k r : born k r → live now id r = false.
Proof. intros Hb. by apply not_leased_not_live, Hb. Qed.

(** ** A live lease is only ended by its holder, by cancelling or by deleting *)
Definition ends (key : JobKey) (id wk : string) (s : section) : Prop :=
  match s with
  | SComplete k i w _ | SPayloadFailure k i w _ _ | SReschedule k i w _ => k = key ∧ i = id ∧ w = wk
  | SCancel k _ => k = key
  | SDelete req => jk_TenantId key = dj_TenantID req
  | _ => False
  end.

Lemma holds_core now id wk r r' : core r = core r' → holds_lease now id wk r = true → holds_lease now id wk r' = true.
Proof.
  intros (_ & Hl & Hi & Hw & Hx & Ha & Hc & _)%core_fields. rewrite !holds_fields. by rewrite Hl, Hi, Hw, Hx, Ha, Hc.
Qed.

Lemma advance_holds e tenant now id wk r :
  holds_lease now id wk r = true → holds_lease now id wk (advanceRecordStateLocked e tenant now r) = true.
Proof.
  intros Hh. pose proof Hh as (Hne & Hi & Hw & Hl & Hx & Ha & Hc)%holds_fields.
  destruct (advance_fields e tenant now r) as (_ & Hl' & Hi' & Hw' & Hx' & Ha' & Hc' & _).
  apply holds_fields. rewrite Hl', Hi', Hw', Hx', Ha', Hc', Hl, Ha, Hc. unfold After.
  apply Z.ltb_lt in Hx as Hx1. rewrite Hx1. repeat split; try done; lia.
Qed.

Lemma move_held s now e used k r r' id wk :
  move s now e k r r' → record_ok e now used k r → holds_lease now id wk r = true →
  ends k id wk s ∨ holds_lease now id wk r' = true.
Proof.
  intros Hm Hok Hh. pose proof Hh as (Hne & Hi & Hw & Hl & Hx & Ha & Hc)%holds_fields.
  assert (∀ id' wk', holds_lease now id' wk' r = true → id' = id ∧ wk' = wk) as Huniq.
  { intros id' wk' (_ & Hi' & Hw' & _)%holds_fields. split; congruence. }
  destruct Hm as [r r' Hco _|e1 r HW|e1 r id' wk' d _ HW Hg Hl1 Hs|r id' wk' t Hh' Ht|r id' wk' req v n -> Hh'|r id' wk' req ch -> Hh'
    |r id' wk' req task wid v n -> Hh'|r resume p w _ Hl1 Hs Ho|r f p w _ Hl1 Hs Ho|r reason -> _|r _ Ho Hl1|r req -> Ht].
  - right. by eapply holds_core.
  - right. by apply advance_holds.
  - exfalso. destruct (advance_fields e1 (jk_TenantId k) now r) as (_ & El & _). rewrite El, Hl in Hl1.
    unfold After in Hl1. apply Z.ltb_lt in Hx. by rewrite Hx in Hl1.
  - right. apply holds_fields. simpl. repeat split; try done.
  - left. destruct (Huniq _ _ Hh') as [-> ->]. done.
  - left. destruct (Huniq _ _ Hh') as [-> ->]. done.
  - left. destruct (Huniq _ _ Hh') as [-> ->]. done.
  - congruence.
  - congruence.
  - by left.
  - exfalso. unfold lease_running, After in Hl1. apply Z.ltb_lt in Hx. by rewrite Hl, Hx in Hl1.
  - by left.
Qed.

Lemma moves_held s now e used k r r' id wk :
  (∀ i, i ∈ generated s e → i ∈ used ∧ i ≠ "") → rtc (move s now e k) r r' → record_ok e now used k r →
  holds_lease now id wk r = true → ends k id wk s ∨ holds_lease now id wk r' = true.
Proof.
  intros Hids Hm. induction Hm as [|r1 r2 r3 Hm _ IH]; [by right|]. intros Hok Hh.
  destruct (move_held _ _ _ _ _ _ _ _ _ Hm Hok Hh) as [|Hh2]; [by left|].
  apply IH; [by eapply move_ok|done].
Qed.

(** ** The outcome of a job is final

    How the job was closed, and the whole outcome with the result and error reported
    for it. *)
Definition closing (r : jobRecord) :=
  (jr_archived r, jr_status r, jr_cancelled r, jr_completionStatus r, jr_completionDetail r).
Definition outcome (r : jobRecord) := (closing r, report r).

Lemma archived_idle e now used k r : record_ok e now used k r → is_Some (jr_archived r) → jr_leased r = false.
Proof.
  intros Hok Ha. destruct (jr_leased r) eqn:Hl; [|done]. destruct (ok_leased _ _ _ _ _ Hok Hl) as (_ & _ & Hna & _).
  rewrite Hna in Ha. by destruct Ha.
Qed.

Lemma closed_holds now id wk r : is_Some (jr_archived r) → holds_lease now id wk r ≠ true.
Proof. intros [t Ht] (_ & _ & _ & _ & _ & Ha & _)%holds_fields. congruence. Qed.

Lemma closed_open r : is_Some (jr_archived r) → open r ≠ true.
Proof. intros [t Ht] [Ha _]%open_fields. congruence. Qed.

Lemma advance_closing e1 tenant now e used k r :
  e_WaitRows e1 = e_WaitRows e → record_ok e now used k r → is_Some (jr_archived r) →
  closing (advanceRecordStateLocked e1 tenant now r) = closing r.
Proof.
  intros HW Hok Ha.
  assert (record_ok e1 now used k r) as Hok1 by (apply (record_ok_fwd e e1 now now used used); [by apply waits_fwd_rows|done..]).
  destruct (advance_fields e1 tenant now r) as (Es & _ & _ & _ & _ & Ea & Ec & Ecs & Ecd & _).
  unfold closing. rewrite Ea, Ec, Ecs, Ecd, Es. do 4 f_equal.
  destruct (available_cases e1 tenant now used k r Hok1) as [[Hr _]|[[_ ->]|(_ & Hna & _)]]; [|done|].
  - unfold lease_running in Hr. by rewrite (archived_idle _ _ _ _ _ Hok Ha) in Hr.
  - rewrite Hna in Ha. by destruct Ha.
Qed.

Lemma advance_report e tenant now r : report (advanceRecordStateLocked e tenant now r) = report r.
Proof. unfold report, advanceRecordStateLocked. by destruct (jr_leased r && _ && _), (bool_decide _ && negb _). Qed.

Lemma closing_archived r r' : closing r' = closing r → jr_archived r' = jr_archived r.
Proof. intros Hv. exact (f_equal (λ x, x.1.1.1.1) Hv). Qed.

(** What a transition does to an archived record: nothing to how it was closed, and to
    what it reports only when it stores an outcome chapter. *)
Lemma move_outcome s now e used k r r' :
  move s now e k r r' → record_ok e now used k r → is_Some (jr_archived r) →
  closing r' = closing r ∧ (report r' = report r ∨ reports s k).
Proof.
  intros Hm Hok Ha.
  destruct Hm as [r r' Hc Hrep|e1 r HW|e1 r id' wk' d _ HW Hg Hl1 Hs|r id' wk' t Hh' Ht|r id' wk' req v n _ Hh'|r id' wk' req ch _ Hh'
    |r id' wk' req task wid v n _ Hh'|r resume p w _ Hl1 Hs Ho|r f p w _ Hl1 Hs Ho|r reason _ Hna|r _ Ho Hl1|r req _ Ht];
    try (by exfalso; eapply closed_holds); try (by exfalso; eapply closed_open).
  - apply core_fields in Hc. unfold closing. destruct Hc as (-> & _ & _ & _ & _ & -> & -> & -> & -> & _).
    split; [done|]. by destruct Hrep as [->|]; [left|right].
  - split; [by eapply advance_closing|left; apply advance_report].
  - exfalso. pose proof (advance_closing e1 (jk_TenantId k) now e used k r HW Hok Ha) as Ho.
    assert (jr_status (advanceRecordStateLocked e1 (jk_TenantId k) now r) = jr_status r) as Hs'
      by exact (f_equal (λ x, x.1.1.1.2) Ho).
    rewrite Hs in Hs'.
    pose proof (proj1 (ok_final _ _ _ _ _ Hok) Ha) as Hf. by rewrite <- Hs' in Hf.
  - unfold archived in Hna. apply bool_decide_eq_false in Hna. done.
  - unfold deleted_record, archived. simpl. rewrite bool_decide_eq_true_2 by done. split; [done|by left].
Qed.

Lemma moves_outcome s now e used k r r' :
  (∀ i, i ∈ generated s e → i ∈ used ∧ i ≠ "") → rtc (move s now e k) r r' → record_ok e now used k r →
  is_Some (jr_archived r) → closing r' = closing r ∧ (report r' = report r ∨ reports s k).
Proof.
  intros Hids Hm. induction Hm as [|r1 r2 r3 Hm _ IH]; [by intros; split; [|left]|]. intros Hok Ha.
  destruct (move_outcome _ _ _ _ _ _ _ Hm Hok Ha) as [Hv Hr].
  destruct IH as [Hv' Hr']; [by eapply move_ok|by rewrite (closing_archived _ _ Hv)|].
  split; [congruence|]. destruct Hr as [<-|]; [done|by right].
Qed.

(** ** A job in crash concern is not handed out *)
Definition blocked (now : time) (r : jobRecord) : Prop :=
  is_Some (jr_archived r) ∨ jr_consecutiveExpirations r = DefaultThreshold ∧ lease_running now r = false.

Lemma advance_idle e tenant now r :
  lease_running now r = false → lease_running now (advanceRecordStateLocked e tenant now r) = false.
Proof.
  destruct (advance_fields e tenant now r) as (_ & Hl & _ & _ & Hx & _). unfold lease_running.
  rewrite Hl, Hx. destruct (jr_leased r); [|done]. simpl. intros ->. by rewrite andb_false_r.
Qed.

Lemma blocked_not_ready e tenant now used k r :
  record_ok e now used k r → blocked now r → jr_status (advanceRecordStateLocked e tenant now r) ≠ JobStatusReady.
Proof.
  intros Hok Hb. destruct (advance_fields e tenant now r) as (-> & _). intros Hr.
  destruct (available_cases e tenant now used k r Hok) as [[_ Hs]|[[Ha Hs]|(_ & Hna & _ & Hs & _)]].
  - congruence.
  - pose proof (proj1 (ok_final _ _ _ _ _ Hok) Ha) as Hf. by rewrite <- Hs, Hr in Hf.
  - destruct Hs as [[_ Hs]|[_ Hn]]; [congruence|]. destruct Hb as [[t Ht]|[? _]]; congruence.
Qed.

Lemma advance_blocked e tenant now r : blocked now r → blocked now (advanceRecordStateLocked e tenant now r).
Proof.
  destruct (advance_fields e tenant now r) as (_ & _ & _ & _ & _ & Ha & _ & _ & _ & Hn & _).
  intros [?|[? ?]]; [left; congruence|right]. split; [congruence|]. by apply advance_idle.
Qed.

Lemma blocked_holds now id wk r : blocked now r → holds_lease now id wk r ≠ true.
Proof.
  intros [Ha|[_ Hr]] Hh; [by eapply closed_holds|].
  apply holds_fields in Hh as (_ & _ & _ & Hl & Hx & _). unfold lease_running, After in Hr.
  apply Z.ltb_lt in Hx. by rewrite Hl, Hx in Hr.
Qed.

Lemma blocked_not_idle_ready e now used k r :
  record_ok e now used k r → blocked now r → open r = true → jr_leased r = false → currentStatus now r ≠ JobStatusReady.
Proof.
  intros Hok Hb [Ha _]%open_fields Hl. unfold currentStatus. rewrite Hl. simpl.
  destruct Hb as [[t Ht]|[Hn _]]; [congruence|].
  destruct (ok_blocked _ _ _ _ _ Hok Hn) as [?|[Hs|[t Ht]]]; congruence.
Qed.

Lemma move_blocked s now e used k r r' :
  s ≠ SClear k → move s now e k r r' → record_ok e now used k r → blocked now r → blocked now r'.
Proof.
  intros Hns Hm Hok Hb.
  destruct Hm as [r r' Hc _|e1 r HW|e1 r id' wk' d _ HW Hg Hl1 Hs|r id' wk' t Hh' Ht|r id' wk' req v n _ Hh'|r id' wk' req ch _ Hh'
    |r id' wk' req task wid v n _ Hh'|r resume p w _ Hl1 Hs Ho|r f p w _ Hl1 Hs Ho|r reason _ Hna|r -> Ho Hl1|r req _ Ht];
    try done; try (by exfalso; eapply blocked_holds); try (by exfalso; eapply blocked_not_idle_ready).
  - apply core_fields in Hc as (_ & El & _ & _ & Ex & Ea & _ & _ & _ & En & _).
    unfold blocked, lease_running in *. by rewrite <- El, <- Ex, <- Ea, <- En.
  - by apply advance_blocked.
  - exfalso. revert Hs. apply (blocked_not_ready e1 (jk_TenantId k) now used k r); [|done].
    apply (record_ok_fwd e e1 now now used used); [by apply waits_fwd_rows|done..].
  - by left.
  - left. unfold deleted_record, archived. simpl.
    destruct (bool_decide_reflect (is_Some (jr_archived r))); simpl; done.
Qed.

Lemma moves_blocked s now e used k r r' :
  s ≠ SClear k → (∀ i, i ∈ generated s e → i ∈ used ∧ i ≠ "") → rtc (move s now e k) r r' →
  record_ok e now used k r → blocked now r → blocked now r'.
Proof.
  intros Hns Hids Hm. induction Hm as [|r1 r2 r3 Hm _ IH]; [done|]. intros Hok Hb.
  apply IH; [by eapply move_ok|by eapply move_blocked].
Qed.

(** ** The abstract life cycle

    A job is queued, held by one worker under one lease, or ended with its outcome.
    The labels say which request may take which transition. *)
Inductive phase :=
  | Queued
  | Held (id worker : string)
  | Ended (status : JobStatus) (completion detail : string).

Definition phase_of (now : time) (r : jobRecord) : phase :=
  match jr_archived r with
  | Some _ => Ended (jr_status r) (jr_completionStatus r) (jr_completionDetail r)
  | None => if lease_running now r then Held (jr_leaseID r) (jr_leaseWorkerID r) else Queued
  end.

(** The outcome a completion records. *)
Definition completion_phase (req : CompleteExecutionRequest) : phase :=
  Ended (if String.eqb (ce_Status req) "cancelled" then JobStatusCancelled else JobStatusCompleted)
    (if str_empty (ce_Status req) || String.eqb (ce_Status req) "succeeded" then "success" else ce_Status req)
    (ce_Detail req).

Definition not_ended (p : phase) : Prop := match p with Ended _ _ _ => False | _ => True end.

Inductive phase_step (s : section) (e : ToyEngine) (k : JobKey) : phase → phase → Prop :=
  | ph_acquire id wk : acquires s k wk → id ∈ generated s e → phase_step s e k Queued (Held id wk)
  | ph_release id wk req : s = SReschedule k id wk req → phase_step s e k (Held id wk) Queued
  | ph_complete id wk req : s = SComplete k id wk req → phase_step s e k (Held id wk) (completion_phase req)
  | ph_oversized id wk req ch :
      s = SPayloadFailure k id wk req ch →
      phase_step s e k (Held id wk) (Ended JobStatusCompleted "failed_app" (ce_Detail req))
  | ph_answer_failed detail : answers s k → phase_step s e k Queued (Ended JobStatusCompleted "failed_app" detail)
  | ph_cancel p reason : s = SCancel k reason → not_ended p → phase_step s e k p (Ended JobStatusCancelled "cancelled" reason)
  | ph_delete p req :
      s = SDelete req → jk_TenantId k = dj_TenantID req → not_ended p →
      phase_step s e k p (Ended JobStatusCancelled "cancelled" "job deleted").

Lemma phase_open now r : jr_archived r = None → not_ended (phase_of now r).
Proof. unfold phase_of. intros ->. by destruct (lease_running now r). Qed.

Lemma phase_held now id wk r : holds_lease now id wk r = true → phase_of now r = Held id wk.
Proof.
  intros (_ & Hi & Hw & Hl & Hx & Ha & _)%holds_fields. unfold phase_of, lease_running, After. apply Z.ltb_lt in Hx.
  by rewrite Ha, Hl, Hx, Hi, Hw.
Qed.

Lemma phase_queued now r : jr_leased r = false → jr_archived r = None → phase_of now r = Queued.
Proof. unfold phase_of, lease_running. by intros -> ->. Qed.

Lemma advance_phase e1 tenant now e used k r :
  e_WaitRows e1 = e_WaitRows e → record_ok e now used k r →
  phase_of now (advanceRecordStateLocked e1 tenant now r) = phase_of now r.
Proof.
  intros HW Hok. destruct (jr_archived r) as [t|] eqn:Ha.
  - assert (is_Some (jr_archived r)) as Hsa by (by rewrite Ha).
    pose proof (advance_closing e1 tenant now e used k r HW Hok Hsa) as Ho.
    assert (jr_archived (advanceRecordStateLocked e1 tenant now r) = jr_archived r) as Ea by exact (f_equal (λ x, x.1.1.1.1) Ho).
    assert (jr_status (advanceRecordStateLocked e1 tenant now r) = jr_status r) as Es by exact (f_equal (λ x, x.1.1.1.2) Ho).
    destruct (advance_fields e1 tenant now r) as (_ & _ & _ & _ & _ & _ & _ & Ecs & Ecd & _).
    unfold phase_of. by rewrite Ea, Ha, Es, Ecs, Ecd.
  - assert (open r = true) as Ho.
    { apply open_fields. split; [done|]. destruct (jr_cancelled r) eqn:Hc; [|done].
      pose proof (ok_cancel _ _ _ _ _ Hok Hc) as Hx. rewrite Ha in Hx. by destruct Hx. }
    destruct (advance_fields e1 tenant now r) as (_ & _ & Ei & Ew & _ & Ea & _).
    unfold phase_of. by rewrite Ea, Ha, advance_running, Ei, Ew.
Qed.

Lemma take_phase now id wk d r :
  jr_archived r = None → phase_of now (take_lease now id wk d r) = Held id wk.
Proof.
  intros Ha. destruct (core_fields _ _ (commit_route_core now r)) as (_ & _ & _ & _ & _ & Ea & _).
  unfold take_lease. set (r1 := commit_route now r) in *. clearbody r1.
  unfold phase_of, lease_running, After. simpl. rewrite Ea, Ha.
  pose proof (duration_pos d). destruct (Z.ltb_spec now (now + toyLeaseDurationOrDefault d)); [done|lia].
Qed.

Lemma completed_phase now v n req r : phase_of now (completed_record now v n req r) = completion_phase req.
Proof. unfold completed_record, completion_phase. by destruct (String.eqb (ce_Status req) "cancelled"). Qed.

Lemma extended_phase now id wk t r :
  holds_lease now id wk r = true → (now < t)%Z → phase_of now (r <| jr_leaseExpiresAt := t |>) = phase_of now r.
Proof.
  intros Hh Ht. rewrite (phase_held _ _ _ _ Hh). apply phase_held.
  apply holds_fields in Hh as (? & ? & ? & ? & ? & ? & ?). apply holds_fields. simpl. by repeat split.
Qed.

Lemma released_phase now req task wid v n r :
  jr_archived r = None → phase_of now (rescheduled_record now req task wid v n r) = Queued.
Proof.
  intros Ha. destruct (rescheduled_fields now req task wid v n r) as (_ & _ & Hl & Ha' & _).
  apply phase_queued; congruence.
Qed.

Lemma cleared_phase now r :
  jr_archived r = None → phase_of now (cleared_record now r) = phase_of now r.
Proof.
  intros Ha. destruct (cleared_fields now r) as (_ & Ei & _ & Ea & _).
  assert (jr_leaseWorkerID (cleared_record now r) = jr_leaseWorkerID r) as Ew
    by (unfold cleared_record; by repeat case_match).
  unfold phase_of. by rewrite Ea, Ha, cleared_running, Ei, Ew.
Qed.

Lemma deleted_phase now r :
  phase_of now (deleted_record now r) =
  match jr_archived r with Some _ => phase_of now r | None => Ended JobStatusCancelled "cancelled" "job deleted" end.
Proof.
  unfold deleted_record, phase_of, archived. simpl. by destruct (jr_archived r) eqn:Ha; simpl; rewrite ?Ha.
Qed.

Lemma payload_phase now detail ch r :
  phase_of now (payload_failed_record now detail ch r) = Ended JobStatusCompleted "failed_app" detail.
Proof. done. Qed.

Lemma oversized_phase now f p w r :
  phase_of now (oversized_record now f p w r) = Ended JobStatusCompleted "failed_app" (ae_Message f).
Proof. done. Qed.

Lemma answered_phase now resume p w r :
  jr_archived r = None → phase_of now (answered_record resume p w r) = Queued.
Proof. intros Ha. unfold phase_of. simpl. by rewrite Ha. Qed.

Lemma cancelled_phase now reason r :
  phase_of now (cancelled_record now reason r) = Ended JobStatusCancelled "cancelled" reason.
Proof. done. Qed.

Lemma advance_not_archived e1 now e used k r :
  e_WaitRows e1 = e_WaitRows e → record_ok e now used k r →
  jr_status (advanceRecordStateLocked e1 (jk_TenantId k) now r) = JobStatusReady →
  jr_archived (advanceRecordStateLocked e1 (jk_TenantId k) now r) = None.
Proof.
  intros HW Hok Hs. apply eq_None_not_Some. intros Ha.
  assert (record_ok e now used k (advanceRecordStateLocked e1 (jk_TenantId k) now r)) as Hok1 by (by apply advance_ok_rows).
  pose proof (proj1 (ok_final _ _ _ _ _ Hok1) Ha) as Hf. by rewrite Hs in Hf.
Qed.

Lemma move_phase s now e used k r r' :
  move s now e k r r' → record_ok e now used k r →
  phase_of now r' = phase_of now r ∨ phase_step s e k (phase_of now r) (phase_of now r').
Proof.
  intros Hm Hok.
  destruct Hm as [r r' Hc _|e1 r HW|e1 r id' wk' d Hacq HW Hg Hl1 Hs|r id' wk' t Hh' Ht|r id' wk' req v n Heq Hh'|r id' wk' req ch Heq Hh'
    |r id' wk' req task wid v n Heq Hh'|r resume p w Hans Hl1 Hs Ho|r f p w Hans Hl1 Hs Ho|r reason Heq Hna|r _ Ho Hl1|r req Heq Ht].
  - left. apply core_fields in Hc as (Es & El & Ei & Ew & Ex & Ea & _ & Ecs & Ecd & _).
    unfold phase_of, lease_running. by rewrite Es, El, Ei, Ew, Ex, Ea, Ecs, Ecd.
  - left. by apply (advance_phase e1 _ now e used k).
  - right. rewrite <- (advance_phase e1 (jk_TenantId k) now e used k) by done.
    pose proof (advance_not_archived e1 now e used k r HW Hok Hs) as Ha.
    rewrite take_phase, phase_queued by done. by constructor.
  - left. by eapply extended_phase.
  - right. rewrite (phase_held _ _ _ _ Hh'), completed_phase. by eapply ph_complete.
  - right. rewrite (phase_held _ _ _ _ Hh'). rewrite payload_phase. by eapply ph_oversized.
  - right. rewrite (phase_held _ _ _ _ Hh').
    apply holds_fields in Hh' as (_ & _ & _ & _ & _ & Ha & _). rewrite released_phase by done. by eapply ph_release.
  - left. apply open_fields in Ho as [Ha _]. rewrite answered_phase by done. by rewrite phase_queued.
  - right. apply open_fields in Ho as [Ha _]. rewrite oversized_phase, phase_queued by done. by apply ph_answer_failed.
  - right. unfold archived in Hna. apply bool_decide_eq_false, eq_None_not_Some in Hna.
    rewrite cancelled_phase. eapply (ph_cancel _ _ _ _ reason); [done|by apply phase_open].
  - left. apply open_fields in Ho as [Ha _]. by apply cleared_phase.
  - rewrite deleted_phase. destruct (jr_archived r) eqn:Ha; [by left|right].
    eapply (ph_delete _ _ _ _ req); [done|done|by apply phase_open].
Qed.

Lemma moves_phase s now e used k r r' :
  (∀ i, i ∈ generated s e → i ∈ used ∧ i ≠ "") → rtc (move s now e k) r r' → record_ok e now used k r →
  rtc (phase_step s e k) (phase_of now r) (phase_of now r').
Proof.
  intros Hids Hm. induction Hm as [|r1 r2 r3 Hm _ IH]; [done|]. intros Hok.
  assert (record_ok e now used k r2) as Hok2 by (by eapply move_ok).
  destruct (move_phase _ _ _ _ _ _ _ Hm Hok) as [<-|Hstep]; [by apply IH|].
  eapply rtc_l; [exact Hstep|by apply IH].
Qed.

(** The clock alone can only take a held job back to the queue. *)
Lemma phase_later now now' r :
  (now ≤ now')%Z →
  phase_of now' r = phase_of now r ∨ (∃ id wk, phase_of now r = Held id wk) ∧ phase_of now' r = Queued.
Proof.
  intros Hle. unfold phase_of. destruct (jr_archived r); [by left|].
  destruct (lease_running now r) eqn:Hr.
  - destruct (lease_running now' r); [by left|right]. split; [by eexists _, _|done].
  - rewrite (running_later now now' r); [by left|done..].
Qed.
