(* ===== verification/ToyAcquire.v ===== *)
(** * ToyAcquire: what polling and direct acquisition hand out

    The loop of [PollWork] and the single acquisition of [GetJobLease], described
    by the lease they return and the record they leave. *)

From S2P Require Import Prelude Types GoalStore GoalEngine GoalWaits GoalInvariant.
From S2P Require Import Json ClientPayload Cells CellState Metadata Chapters Schedule ScheduleRuns.
From S2P Require Import ToyState ToyLease ToyChapters ToySubmit ToySchedule ToyRestart ToyRun ToyMoves ToyTables ToyLifecycle ToyHistory ToyWorld ToyPhases.

(** The lease [l] was taken on the record [r] of its job: after advancing, the record
    was ready on one of the routes, and the engine now holds it under [id]. *)
Definition taken (now : time) (routes : list Route) (wk : string) (d : Z) (id : string) (e e' : ToyEngine)
    (r : jobRecord) (l : runtimeLease) : Prop :=
  ∃ e1, e_WaitRows e1 = e_WaitRows e ∧
    let r1 := advanceRecordStateLocked e1 (jk_TenantId (l_jobKey l)) now r in
    acquirable now routes r1 = true ∧
    e_jobRecords e' !! l_jobKey l = Some (take_lease now id wk d r1) ∧
    l = lease_handle now (l_jobKey l) d (take_lease now id wk d r1).

(** What a worker can rely on about a lease it was handed. *)
Record granted (now : time) (routes : list Route) (wk : string) (id : string) (e e' : ToyEngine)
    (l : runtimeLease) : Prop := {
  gr_record : ∃ r r', e_jobRecords e !! l_jobKey l = Some r ∧ e_jobRecords e' !! l_jobKey l = Some r' ∧
    holds_lease now id wk r' = true ∧ lease_running now r = false ∧
    dep_done e now r ∧ jr_route r' = l_route l ∧ (now < l_expiresAt l)%Z ∧
    jr_leaseExpiresAt r' = l_expiresAt l ∧
    jr_consecutiveExpirations r' = (if str_empty (jr_leaseID r) then 0 else jr_consecutiveExpirations r + 1)%Z ∧
    l_clientPayload l = jr_clientPayload r ∧ l_clientPayloadRevision l = jr_clientPayloadRevision r;
  gr_id : l_leaseID l = id;
  gr_worker : l_workerID l = wk;
  gr_route : l_route l ∈ routes
}.

(** The fields of the record that no transition of its status touches. *)
Lemma advance_static e tenant now r :
  let r' := advanceRecordStateLocked e tenant now r in
  jr_route r' = jr_route r ∧ jr_alternateRoute r' = jr_alternateRoute r ∧ jr_alternateAt r' = jr_alternateAt r ∧
  jr_clientPayload r' = jr_clientPayload r ∧ jr_clientPayloadRevision r' = jr_clientPayloadRevision r ∧
  jr_metadata r' = jr_metadata r ∧ jr_cell r' = jr_cell r ∧ jr_payload r' = jr_payload r.
Proof.
  unfold advanceRecordStateLocked. simpl.
  destruct (jr_leased r && _ && _), (bool_decide _ && negb _); done.
Qed.

Lemma commit_route_effective now r : jr_route (commit_route now r) = effectiveRoute now r.
Proof. unfold commit_route, effectiveRoute. destruct (jr_alternateRoute r); [|done]. by destruct (alternate_due now r). Qed.

Lemma commit_route_payload now r :
  jr_clientPayload (commit_route now r) = jr_clientPayload r ∧
  jr_clientPayloadRevision (commit_route now r) = jr_clientPayloadRevision r.
Proof. unfold commit_route. destruct (jr_alternateRoute r); [|done]. by destruct (alternate_due now r). Qed.

(** A lease that was taken is granted. *)
Lemma taken_granted now routes wk d id e e' used r l :
  id ≠ "" → record_ok e now used (l_jobKey l) r → e_jobRecords e !! l_jobKey l = Some r →
  taken now routes wk d id e e' r l → granted now routes wk id e e' l.
Proof.
  intros Hne Hok Hr (e1 & HW & Hacq & Hr' & Hl). set (r1 := advanceRecordStateLocked _ _ _ _) in *.
  apply acquirable_spec in Hacq as (Hl1 & Hs & Hroute).
  destruct (advance_fields e1 (jk_TenantId (l_jobKey l)) now r) as (_ & _ & Ei & _ & _ & Ea & Ec & _ & _ & En & _).
  destruct (advance_static e1 (jk_TenantId (l_jobKey l)) now r) as (_ & _ & _ & Ep & Eq & _).
  assert (record_ok e1 now used (l_jobKey l) r) as Hok1
    by (apply (record_ok_fwd e e1 now now used used); [by apply waits_fwd_rows|done..]).
  destruct (commit_route_payload now r1) as [Ecp Ecq]. pose proof (duration_pos d) as Hd.
  destruct (core_fields _ _ (commit_route_core now r1)) as (_ & _ & Ei1 & _ & _ & Ea1 & Ec1 & _ & _ & En1 & _).
  assert (jr_archived r1 = None) as Hna by (by eapply (advance_not_archived e1 now e used)).
  assert (jr_cancelled r1 = false) as Hnc.
  { destruct (jr_cancelled r1) eqn:Hc; [|done]. unfold r1 in Hc, Hna. rewrite Ec in Hc.
    pose proof (ok_cancel _ _ _ _ _ Hok Hc) as Hx. rewrite Ea in Hna. rewrite Hna in Hx. by destruct Hx. }
  split.
  - exists r, (take_lease now id wk d r1). split; [done|]. split; [done|]. split.
    { apply holds_fields. unfold take_lease. simpl. rewrite Ea1, Ec1. repeat split; try done. lia. }
    split; [by rewrite <- (advance_leased e1 (jk_TenantId (l_jobKey l)) now used (l_jobKey l) r)|].
    split.
    { apply (dep_done_rows e1); [done|].
      destruct (available_cases e1 (jk_TenantId (l_jobKey l)) now used _ r Hok1) as [[Hrun _]|[[Ha _]|(_ & _ & _ & _ & Hd1)]].
      - rewrite <- (advance_leased e1 (jk_TenantId (l_jobKey l)) now used _ r Hok1) in Hrun. unfold r1 in Hl1. congruence.
      - unfold r1 in Hna. rewrite Ea in Hna. rewrite Hna in Ha. by destruct Ha.
      - apply Hd1. destruct (advance_fields e1 (jk_TenantId (l_jobKey l)) now r) as (Es & _). unfold r1 in Hs. by rewrite <- Es. }
    rewrite Hl. simpl. split; [done|]. split; [lia|]. split; [done|].
    split; [unfold take_lease; cbn [jr_consecutiveExpirations]; rewrite Ei1, En1; unfold r1; by rewrite Ei, En|]. split; [rewrite Ecp; exact Ep|rewrite Ecq; exact Eq].
  - by rewrite Hl.
  - by rewrite Hl.
  - rewrite Hl. simpl. by rewrite commit_route_effective.
Qed.

Section acquire.
Context `{CellText} `{RangeOrder} `{FloatText} `{ChapterChecks} `{TimeZones} `{ScheduleText}.

(** ** The loop *)
Section loop.
Variables (req : PollWorkRequest) (allowed : gset string) (ps : list normalizedMetadataPredicate).
Variables (limit : nat) (now : time) (new_id : nat → string).
#[local] Abbreviation loop := (poll_loop req allowed ps limit now new_id).

Lemma loop_rows keys e out : e_WaitRows (loop keys e out).1 = e_WaitRows e.
Proof. apply poll_tables. Qed.

Lemma loop_frame keys e out k : k ∉ keys → e_jobRecords (loop keys e out).1 !! k = e_jobRecords e !! k.
Proof.
  revert e out. induction keys as [|k0 keys IH]; intros e out Hk; simpl; [done|].
  apply not_elem_of_cons in Hk as [Hne Hk].
  assert (∀ r, e_jobRecords (put_record k0 r e) !! k = e_jobRecords e !! k) as Hput
    by (intros r; simpl; by rewrite lookup_insert_ne).
  destruct (e_jobRecords e !! k0); [|by apply IH]. destruct (_ || _); [by apply IH|].
  destruct (_ || _); [by rewrite IH, Hput|]. destruct (_ <=? _)%nat; [apply Hput|by rewrite IH, Hput].
Qed.

(** The selection of the loop besides readiness. *)
Definition selected (key : JobKey) (r : jobRecord) : Prop :=
  jk_TenantId key = pw_TenantId req ∧ rs_CellID (jr_cell r) ∈ allowed ∧
  metadataMatches float_text (jr_metadata r) ps = true.

(** What a record the loop did not hand out may have become. *)
Definition passed (e0 e' : ToyEngine) (k : JobKey) : Prop :=
  e_jobRecords e' !! k = e_jobRecords e0 !! k ∨
  ∃ r e1, e_jobRecords e0 !! k = Some r ∧ e_WaitRows e1 = e_WaitRows e0 ∧
    e_jobRecords e' !! k = Some (advanceRecordStateLocked e1 (jk_TenantId k) now r).
Definition given (e0 e' : ToyEngine) (n : nat) (l : runtimeLease) : Prop :=
  ∃ r, e_jobRecords e0 !! l_jobKey l = Some r ∧ selected (l_jobKey l) r ∧
    taken now (pw_Routes req) (pw_WorkerID req) (pw_LeaseDuration req) (new_id n) e0 e' r l.

(** The loop over [keys] from the leases [out]: it adds leases of distinct keys, in
    order, up to the limit. *)
Definition loop_post (e0 : ToyEngine) (keys : list JobKey) (out : list runtimeLease)
    (p : ToyEngine * list runtimeLease) : Prop :=
  ∃ new, p.2 = out ++ new ∧ l_jobKey <$> new `sublist_of` keys ∧ (length out + length new ≤ limit)%nat ∧
    (∀ n l, new !! n = Some l → given e0 p.1 (length out + n) l) ∧
    (∀ k, k ∈ keys → k ∉ l_jobKey <$> new → passed e0 p.1 k).

Lemma loop_post_skip e0 keys out p k :
  passed e0 p.1 k → loop_post e0 keys out p → loop_post e0 (k :: keys) out p.
Proof.
  intros Hk (new & ? & ? & ? & ? & Hrest). exists new. split; [done|]. split; [by apply sublist_cons|].
  split; [done|]. split; [done|]. intros k' [->|Hin]%elem_of_cons Hni; [done|by apply Hrest].
Qed.

Lemma loop_post_take e0 keys out p l :
  given e0 p.1 (length out) l → loop_post e0 keys (out ++ [l]) p → loop_post e0 (l_jobKey l :: keys) out p.
Proof.
  intros Hl (new & Heq & Hsub & Hlen & Hnew & Hrest). rewrite length_app in Hlen, Hnew. simpl in Hlen, Hnew.
  exists (l :: new). split; [by rewrite Heq, <- app_assoc|]. split; [by apply sublist_skip|].
  split; [simpl; lia|]. split.
  - intros [|n] l' Hl'; simpl in Hl'; [injection Hl' as <-; by rewrite Nat.add_0_r|].
    replace (length out + S n)%nat with (length out + 1 + n)%nat by lia. by apply Hnew.
  - intros k' Hin Hni. rewrite fmap_cons in Hni. apply not_elem_of_cons in Hni as [Hne Hni].
    apply elem_of_cons in Hin as [->|Hin]; [done|]. by apply Hrest.
Qed.

Lemma loop_spec e0 keys e out :
  NoDup keys → (∀ k, k ∈ keys → e_jobRecords e !! k = e_jobRecords e0 !! k) → e_WaitRows e = e_WaitRows e0 →
  (length out < limit)%nat → loop_post e0 keys out (loop keys e out).
Proof.
  revert e out. induction keys as [|k keys IH]; intros e out Hnd Hsame HW Hlim.
  { exists []. rewrite app_nil_r. split; [done|]. split; [done|]. split; [simpl; lia|]. split; [done|].
    by intros k ?%elem_of_nil. }
  apply NoDup_cons in Hnd as [Hk Hnd].
  assert (e_jobRecords e0 !! k = e_jobRecords e !! k) as Hsk by (symmetry; apply Hsame; set_solver).
  assert (∀ k', k' ∈ keys → e_jobRecords e !! k' = e_jobRecords e0 !! k') as Hsame' by (intros; apply Hsame; set_solver).
  assert (∀ r k', k' ∈ keys → e_jobRecords (put_record k r e) !! k' = e_jobRecords e0 !! k') as Hput.
  { intros r k' Hk'. simpl. rewrite lookup_insert_ne; [by apply Hsame'|]. by intros <-. }
  assert (loop_post e0 (k :: keys) out (loop keys e out)) as Hskip.
  { apply loop_post_skip; [left; by rewrite loop_frame|by apply IH]. }
  cbn [poll_loop]. destruct (e_jobRecords e !! k) as [r|] eqn:Hr; [|exact Hskip].
  destruct (_ || _) eqn:Hsel; [exact Hskip|]. clear Hskip.
  apply orb_false_iff in Hsel as [Ht Hc]. apply negb_false_iff, String.eqb_eq in Ht.
  apply negb_false_iff, bool_decide_eq_true in Hc.
  cbv zeta. set (r1 := advanceRecordStateLocked e (jk_TenantId k) now r).
  destruct (negb (acquirable now (pw_Routes req) r1) || _) eqn:Hacq.
  { apply loop_post_skip; [|apply IH; [done|apply Hput|done|done]]. right. exists r, e. split; [done|]. split; [done|].
    rewrite loop_frame by done. apply lookup_insert_eq. }
  apply orb_false_iff in Hacq as [Hacq Hmd]. apply negb_false_iff in Hacq, Hmd.
  set (r2 := take_lease now (new_id (length out)) (pw_WorkerID req) (pw_LeaseDuration req) r1).
  set (l := lease_handle now k (pw_LeaseDuration req) r2).
  assert (∀ e', e_jobRecords e' !! k = Some r2 → given e0 e' (length out) l) as Hgiven.
  { intros e' He'. exists r. split; [exact Hsk|]. split; [|by exists e].
    destruct (advance_static e (jk_TenantId k) now r) as (_ & _ & _ & _ & _ & Em & _).
    split; [done|]. split; [done|]. rewrite <- Em. exact Hmd. }
  destruct (Nat.leb_spec limit (length (out ++ [l]))) as [Hle|Hlt]; rewrite length_app in *; simpl in *.
  - apply (loop_post_take e0 keys out _ l); [apply Hgiven; apply lookup_insert_eq|].
    exists []. rewrite app_nil_r, length_app. split; [done|]. split; [apply sublist_nil_l|].
    split; [simpl; lia|]. split; [done|].
    intros k' Hin _. left. by apply Hput.
  - apply (loop_post_take e0 keys out _ l).
    + apply Hgiven. rewrite loop_frame by done. apply lookup_insert_eq.
    + apply IH; [done|apply Hput|done|]. rewrite length_app. simpl. lia.
Qed.
End loop.

(** [PollWork] hands out what the loop hands out, within the caller's selection. *)
Lemma poll_work_post ctx req now new_id e e' ls :
  acquire_ready ctx req now new_id e = (e', Ok ls) →
  ∃ ps allowed, let limit := if (pw_Limit req <=? 0)%Z then 1%nat else Z.to_nat (pw_Limit req) in
    Select ctx (pw_TenantId req) (pw_CellNames req) "jobs.acquire" (cellsLocked (pw_TenantId req) e) = Ok allowed ∧
    normalizeMetadataPredicates (pw_MetadataEquals req) = Ok ps ∧
    loop_post req allowed ps limit now new_id e (range (e_jobRecords e)).*1 [] (e', ls).
Proof.
  unfold acquire_ready. destruct (rbind _ _) as [[ps allowed]|] eqn:Hg; [|done].
  set (limit := if (pw_Limit req <=? 0)%Z then 1%nat else Z.to_nat (pw_Limit req)).
  simpl. intros Hp. exists ps, allowed.
  assert (Select ctx (pw_TenantId req) (pw_CellNames req) "jobs.acquire" (cellsLocked (pw_TenantId req) e) = Ok allowed ∧
    normalizeMetadataPredicates (pw_MetadataEquals req) = Ok ps) as [Hsel Hps].
  { apply bind_ok in Hg as (_ & _ & Hg). apply bind_ok in Hg as (_ & _ & Hg). apply bind_ok in Hg as (_ & _ & Hg).
    apply bind_ok in Hg as (ps' & Hps & Hg). apply bind_ok in Hg as (al & Hsel & Hg). by simplify_eq. }
  split; [done|]. split; [done|].
  assert (poll_loop req allowed ps limit now new_id (range (e_jobRecords e)).*1 e [] = (e', ls)) as <-.
  { rewrite (surjective_pairing (poll_loop _ _ _ _ _ _ _ _ _)). congruence. }
  apply loop_spec; [apply range_nodup|done|done|]. simpl. unfold limit.
  destruct (Z.leb_spec (pw_Limit req) 0); lia.
Qed.

(** [GetJobLease] hands out the lease of an acquirable record; otherwise it only
    advances it. *)
Lemma get_lease_post ctx req now id e e' l :
  acquire_job ctx req now id e = (e', Ok (Some l)) →
  l_jobKey l = gl_JobKey req ∧
  ∃ r, e_jobRecords e !! gl_JobKey req = Some r ∧
    AuthorizeCell ctx (jk_TenantId (gl_JobKey req)) (rs_CellID (jr_cell r)) "jobs.acquire" = Ok tt ∧
    taken now (gl_Routes req) (gl_WorkerID req) (gl_LeaseDuration req) id e e' r l ∧
    ∀ k, k ≠ gl_JobKey req → e_jobRecords e' !! k = e_jobRecords e !! k.
Proof.
  unfold acquire_job. destruct (rbind _ _); [|done].
  destruct (e_jobRecords e !! gl_JobKey req) as [r|] eqn:Hr; [|done].
  destruct (rbind _ _) as [[]|] eqn:Hauth; [|done]. cbv zeta.
  destruct (negb _) eqn:Hacq; [done|]. apply negb_false_iff in Hacq. intros Hp.
  injection Hp as <- <-. split; [done|]. exists r. split; [done|].
  apply bind_ok in Hauth as ([] & Hauth & _). split; [done|]. split.
  - exists e. split; [done|]. split; [done|]. split; [|done]. apply lookup_insert_eq.
  - intros k Hne. by apply lookup_insert_ne.
Qed.
End acquire.
