(* ===== verification/ToyPreflight.v ===== *)
(** * ToyPreflight: what a worker gets of a schedule

    The preflight of [ToySchedule] in reachable worlds: what the specification asks of
    an occurrence that has not started, where the code departs from it, what becomes
    of an occurrence that is refused, and which records a preflight leaves alone. *)

From stdpp Require Import pretty.
From S2P Require Import Prelude Types GoalStore GoalEngine GoalCycles GoalWaits GoalInvariant GoalLive GoalGraph GoalTotal.
From S2P Require Import GoalProgress GoalStable.
From S2P Require Import Json ClientPayload Cells CellState Metadata Chapters Schedule ScheduleRuns.
From S2P Require Import ToyState ToyLease ToyChapters ToyPrepare ToySubmit ToySchedule ToyRestart ToyRun ToyMoves ToyTables ToyLifecycle ToyHistory ToyWorld ToyGoals ToyGoalSteps ToyPhases ToyAcquire.

Section preflight.
Context `{CellText} `{RangeOrder} `{FloatText} `{ChapterChecks} `{TimeZones} `{ScheduleText} `{JSONDecoding}.

(** ** Submitting an occurrence keeps every record that is there *)
Definition keeps_records (e e' : ToyEngine) : Prop :=
  ∀ k r, e_jobRecords e !! k = Some r → e_jobRecords e' !! k = Some r.
#[local] Instance keeps_records_pre : PreOrder keeps_records.
Proof. split; [intros e k r; done|]. intros e1 e2 e3 H12 H23 k r Hr. by apply H23, H12. Qed.

Lemma same_keeps e e' : e_jobRecords e' = e_jobRecords e → keeps_records e e'.
Proof. intros He k r. by rewrite He. Qed.

Lemma publish_goal_keeps ctx key r now e e2 :
  publishGoalLocked ctx key r now e = Ok e2 →
  is_Some (e_jobRecords e2 !! key) ∧ ∀ k, k ≠ key → e_jobRecords e2 !! k = e_jobRecords e !! k.
Proof.
  unfold publishGoalLocked. intros Hp. split_res Hp. simpl.
  split; [rewrite lookup_insert_eq; eauto|]. intros k Hne. by rewrite lookup_insert_ne.
Qed.

Lemma publish_keeps ctx key r start now e :
  keeps_records e (publish_job ctx key r start now e).1 ∧
  (is_ok (publish_job ctx key r start now e).2 = true → is_Some (e_jobRecords (publish_job ctx key r start now e).1 !! key)).
Proof.
  unfold publish_job. destruct (e_jobRecords e !! key) as [r0|] eqn:Hk; [split; [done|intros _; simpl; rewrite Hk; eauto]|].
  destruct (publishGoalLocked ctx key r now (put_record key r e)) as [e2|err] eqn:Hp; simpl.
  - apply publish_goal_keeps in Hp as [Hs Ho]. split; [|done]. intros k r0 Hr.
    assert (k ≠ key) as Hne by congruence. rewrite Ho by done. simpl. by rewrite lookup_insert_ne.
  - split; [|done]. intros k r0 Hr. assert (k ≠ key) as Hne by congruence.
    simpl. by rewrite lookup_delete_ne, lookup_insert_ne.
Qed.

Lemma prepared_records i key at_ prev bits manual now e :
  e_jobRecords (prepare_occurrence i key at_ prev bits manual now e).1 = e_jobRecords e.
Proof.
  unfold prepare_occurrence, materializeTaskData, m_bind, m_read, m_write, m_ret.
  repeat (case_match; simplify_eq; simpl; try done).
Qed.

Lemma submission_keeps ctx i id at_ prev bits manual now goal e e' res :
  submitScheduledOccurrenceWithJobID ctx i id at_ prev bits manual now goal e = (e', res) →
  keeps_records e e' ∧
  ∀ key, res = Ok key → key = mkJobKey (si_TenantId i) id ∧ is_Some (e_jobRecords e' !! key).
Proof.
  unfold submitScheduledOccurrenceWithJobID. set (key := mkJobKey (si_TenantId i) id).
  unfold m_bind, m_read. destruct (SubmitPreparation _ _) as [p|]; [|by intros [= <- <-]].
  pose proof (prepare_records (WithSchedule ctx (info_key i)) p now no_generated_key goal e) as He1.
  destruct (PrepareJob _ _ _ _ _ e) as [e1 [reserved|]]; cbn [fst] in He1;
    [|intros [= <- <-]; split; [by apply same_keeps|done]].
  unfold on_error. pose proof (prepared_records i key at_ prev bits manual now e1) as He2.
  destruct (prepare_occurrence i key at_ prev bits manual now e1) as [e2 [[j start]|]]; cbn [fst snd] in *.
  2: { intros [= <- <-]. split; [|done]. apply same_keeps. by rewrite discard_records, He2, He1. }
  destruct (publish_keeps (WithSchedule ctx (info_key i)) key (scheduled_record j at_ prev (si_OverlapPolicy i)) start now e2)
    as [Hk Hs].
  destruct (publish_job _ _ _ _ _ e2) as [e3 [h|]]; cbn [fst snd] in *; intros [= <- <-].
  - split; [|intros k [= <-]; split; [done|by apply Hs]]. etrans; [|exact Hk]. apply same_keeps. congruence.
  - split; [|done]. intros k r Hr. rewrite discard_records. apply Hk. congruence.
Qed.

(** ** Cancelling an occurrence *)

(** The validators have no objection to the chapter that ends the job. *)
Definition accepts (k : JobKey) (ch : Chapter) : Prop :=
  ValidateChapterApplicationPayload ch = Ok tt ∧ ∀ schema, ValidateLastChapter k schema ch = Ok tt.

(** What a refused occurrence becomes. *)
Definition cancelled_by_preflight (now : time) (d : scheduleCancelDetail) (taskType : string) (k : JobKey) (e : ToyEngine)
    : Prop :=
  (∃ r, e_jobRecords e !! k = Some r ∧ jr_archived r = Some now ∧ jr_status r = JobStatusCancelled ∧
     jr_leased r = false ∧ jr_completionStatus r = "cancelled" ∧ jr_completionDetail r = detail_text d) ∧
  chapters_of k e !! 1%Z = Some (schedulePreflightCancelChapter taskType d now).

Lemma chapters_run_goals {A} (m : M Memory A) k e : chapters_of k (run_goals m e).1 = chapters_of k e.
Proof. done. Qed.

Lemma one_chapter k e :
  histories_ok e → is_Some (e_jobRecords e !! k) → size (chapters_of k e) ≤ 1 →
  ∃ chs ch, e_runtimeChapters e !! k = Some chs ∧ chs !! 0%Z = Some ch ∧ chs !! 1%Z = None.
Proof.
  intros Hh Hr Hsize. destruct (proj2 (ho_domain _ Hh k) Hr) as [chs Hchs].
  destruct (ho_history _ Hh _ _ Hchs) as [_ [ch Hch]]. exists chs, ch. split; [done|]. split; [done|].
  unfold chapters_of in Hsize. rewrite Hchs in Hsize. simpl in Hsize.
  destruct (chs !! 1%Z) as [ch'|] eqn:Hn1; [exfalso|done].
  rewrite <- (insert_delete_id chs 0%Z ch Hch) in Hsize. rewrite map_size_insert_None in Hsize by apply lookup_delete_eq.
  assert (size (delete 0%Z chs) = 0) as Hz by lia. apply map_size_empty_iff in Hz.
  assert (delete 0%Z chs !! 1%Z = Some ch') as Hd by (by rewrite lookup_delete_ne).
  by rewrite Hz in Hd.
Qed.

Lemma refusal_cancels l d now used e r :
  goals_ok now used e → histories_ok e → e_jobRecords e !! l_jobKey l = Some r →
  holds_lease now (l_leaseID l) (l_workerID l) r = true → (now < l_expiresAt l)%Z →
  size (chapters_of (l_jobKey l) e) ≤ 1 →
  accepts (l_jobKey l) (schedulePreflightCancelChapter (r_JobType (l_route l)) d now) →
  ∃ e', cancelScheduledLease l d now e = (e', Ok false) ∧
        cancelled_by_preflight now d (r_JobType (l_route l)) (l_jobKey l) e'.
Proof.
  intros Hok Hh Hr Hl Hx Hsize [Ha1 Ha2]. set (k := l_jobKey l) in *. set (ch := schedulePreflightCancelChapter _ _ _) in *.
  destruct (one_chapter k e Hh ltac:(eauto) Hsize) as (chs & ch0 & Hchs & Hc0 & Hn1).
  set (req := mkComplete None "cancelled" (detail_text d) (Some ch) []).
  set (e1 := put_chapter k 1 ch e). set (r1 := r <| jr_result := Some (mkTaskData (JobAttemptOutcomeChapter
    (SystemErrorOutcome (mkSystemError (cd_Message d) "jobdb.schedule_preflight" (cd_ReasonCode d)))) []) |>
    <| jr_err := body_err (JobAttemptOutcomeChapter
    (SystemErrorOutcome (mkSystemError (cd_Message d) "jobdb.schedule_preflight" (cd_ReasonCode d)))) |>).
  set (e2 := put_record k r1 e1).
  assert (Hist : store_history k 1 ch e = (e1, Ok tt)).
  { unfold store_history. rewrite Hchs. change (ch_Ordinal ch) with 1%Z. change (1 - 1)%Z with 0%Z.
    rewrite (bool_decide_false (is_Some (chs !! 1%Z))) by (rewrite Hn1; by intros []).
    by rewrite (bool_decide_true (is_Some (chs !! 0%Z))) by (rewrite Hc0; eauto). }
  assert (Hview : store_view k 1 ch e1 = (e2, Ok tt)).
  { unfold store_view. change (e_jobRecords e1) with (e_jobRecords e). by rewrite Hr. }
  assert (ensureCompletionChapter k (l_leaseID l) (SchemaHashFromStoredMetadata (jr_metadata r)) req ch e = (e2, Ok ch)) as Hens.
  { unfold ensureCompletionChapter. change (ch_Ordinal ch <? 0)%Z with false. cbv iota. change (ch_Ordinal ch) with 1%Z.
    unfold chapters_of at 1. rewrite Hchs. simpl default. rewrite Hn1.
    unfold prepareChapterWrite, m_bind, m_read, m_ret. simpl. rewrite Ha1, Ha2. unfold storeRuntimeChapter, m_bind, m_read. simpl.
    by rewrite Hist, Hview. }
  assert (goals_ok now used e2) as Hok2.
  { pose proof (quiet_ok (SStoreHistory k 1 ch) now used e eq_refl Hok) as Hq. simpl in Hq. rewrite Hist in Hq.
    pose proof (quiet_ok (SStoreView k 1 ch) now used e1 eq_refl Hq) as Hq2. simpl in Hq2. by rewrite Hview in Hq2. }
  assert (e_jobRecords e2 !! k = Some r1) as Hr1 by apply lookup_insert_eq.
  destruct (complete_goals k (l_leaseID l) (l_workerID l) req now used e2 Hok2) as [_ Hdone].
  specialize (Hdone r1 _ Hr1 Hl eq_refl).
  assert (holds_lease now (l_leaseID l) (l_workerID l) r1 = true) as Hl1 by exact Hl.
  set (r2 := completed_record now (jr_clientPayload r) (jr_clientPayloadRevision r) req r1).
  assert (complete_commit k (l_leaseID l) (l_workerID l) req now e2 = run_goals (Complete now k) (put_record k r2 e2)) as Hcommit.
  { unfold complete_commit. rewrite Hr1, Hl1. done. }
  exists (run_goals (Complete now k) (put_record k r2 e2)).1. split.
  - unfold cancelScheduledLease, lease_Complete. fold ch. fold req. fold k. unfold checkExpiry, After.
    rewrite (proj2 (Z.ltb_lt _ _) Hx). rewrite Hcommit in Hdone.
    assert (complete_check k (l_leaseID l) (l_workerID l) req now e = Ok (SchemaHashFromStoredMetadata (jr_metadata r))) as Hc.
    { unfold complete_check. rewrite Hr. simpl. by rewrite Hl. }
    unfold completeLease. change (ce_Chapter req) with (Some ch). cbv iota. change (ChapterPayloadFailure ch) with false.
    cbv iota. unfold m_bind, m_read, m_ret. simpl guard_err. cbv iota beta. rewrite Hc, Hens, Hcommit.
    destruct (run_goals _ _) as [e3 res]. simpl in Hdone |- *. by subst res.
  - split.
    + exists r2. split; [rewrite run_goals_records; apply lookup_insert_eq|]. done.
    + rewrite chapters_run_goals. unfold chapters_of. simpl. rewrite lookup_insert_eq. simpl. apply lookup_insert_eq.
Qed.

(** ** What the checks of the preflight mean *)

(** The history of outcomes the policy is applied to. *)
Definition outcome_bits (tenant : string) (o : ScheduleOccurrenceMetadata) (i : ScheduleInfo) (e : ToyEngine) : string :=
  let h := om_FailureHistory o in
  let size := fp_WindowSize (si_FailurePolicy i) in
  if str_empty (om_PreviousJobId o) then fh_Bits h
  else AppendScheduleFailureBit (fh_Bits h) (previousJobSucceeded tenant (om_PreviousJobId o) e)
         (if (size <=? 0)%Z then fh_WindowSize h else size).

(** What the specification of schedules asks of an occurrence that has not started:
    the schedule is neither paused nor archived, has the generation and specification
    the occurrence was submitted for, had not ended at the occurrence's time, and its
    failure policy allows another run. *)
Record wants (tenant : string) (o : ScheduleOccurrenceMetadata) (i : ScheduleInfo) (e : ToyEngine) : Prop := {
  wa_not_paused : si_State i ≠ ScheduleStatePaused;
  wa_not_archived : si_State i ≠ ScheduleStateArchived;
  wa_generation : si_Generation i = om_Generation o;
  wa_spec : si_SpecHash i = om_SpecHash o;
  wa_policy : ScheduleFailurePolicyViolated (outcome_bits tenant o i e) (si_FailurePolicy i) = false
}.
Definition ended (o : ScheduleOccurrenceMetadata) (i : ScheduleInfo) : bool :=
  after_end (tr_EndAt (si_Trigger i)) (om_ScheduledAt o).
Definition spec_wants (tenant : string) (o : ScheduleOccurrenceMetadata) (i : ScheduleInfo) (e : ToyEngine) : Prop :=
  wants tenant o i e ∧ ended o i = false.
(** The code departs from it twice: it does not look at the end, and it lets
    everything pass when the schedule still carries the reason of a pause that the
    move of its cell caused. *)
Definition exempt (i : ScheduleInfo) : Prop := si_PauseReason i = "cell_repo_mismatch".

Lemma verdict_spec tenant o e :
  match occurrence_verdict tenant o e with
  | Run => ∃ i, e_schedules e !! mkScheduleKey tenant (om_ScheduleId o) = Some i ∧ exempt i
  | Refuse _ => ∀ i, e_schedules e !! mkScheduleKey tenant (om_ScheduleId o) = Some i → ¬ exempt i ∧ ¬ wants tenant o i e
  | Continue i bits => e_schedules e !! mkScheduleKey tenant (om_ScheduleId o) = Some i ∧ wants tenant o i e
  end.
Proof.
  unfold occurrence_verdict, GetSchedule, state_eqb. destruct (e_schedules e !! _) as [i|]; simpl; [|done].
  destruct (String.eqb_spec (si_PauseReason i) "cell_repo_mismatch") as [Hp|Hp]; [by exists i|].
  destruct (bool_decide_reflect (si_State i = ScheduleStatePaused)) as [Hs|Hs]; [by intros i' [= <-]; split; [|intros []]|].
  destruct (bool_decide_reflect (si_State i = ScheduleStateArchived)) as [Ha|Ha]; [by intros i' [= <-]; split; [|intros []]|].
  destruct (Z.eqb_spec (si_Generation i) (om_Generation o)) as [Hg|Hg]; simpl; [|by intros i' [= <-]; split; [|intros []]].
  destruct (String.eqb_spec (si_SpecHash i) (om_SpecHash o)) as [Hh|Hh]; simpl; [|by intros i' [= <-]; split; [|intros []]].
  fold (outcome_bits tenant o i e).
  destruct (ScheduleFailurePolicyViolated (outcome_bits tenant o i e) (si_FailurePolicy i)) eqn:Hv.
  - intros i' [= <-]. split; [done|]. intros []. congruence.
  - split; [done|]. by split.
Qed.

(** ** What a preflight leaves alone *)

(** Operations that do not touch the record of [k]. *)
Definition leaves {A} (k : JobKey) (m : M ToyEngine A) : Prop := ∀ e, e_jobRecords (m e).1 !! k = e_jobRecords e !! k.

Lemma leaves_ret {A} k (a : A) : leaves k (m_ret a).
Proof. done. Qed.
Lemma leaves_read {A} k (f : ToyEngine → result A) : leaves k (m_read f).
Proof. done. Qed.
Lemma leaves_bind {A B} k (m : M ToyEngine A) (f : A → M ToyEngine B) :
  leaves k m → (∀ a, leaves k (f a)) → leaves k (m_bind m f).
Proof.
  intros Hm Hf e. unfold m_bind. specialize (Hm e). destruct (m e) as [e1 [a|err]]; simpl in *; [|done]. by rewrite Hf.
Qed.
#[local] Hint Resolve leaves_ret leaves_read leaves_bind : core.

Lemma leaves_same {A} k (m : M ToyEngine A) : (∀ e, e_jobRecords (m e).1 = e_jobRecords e) → leaves k m.
Proof. intros Hm e. by rewrite Hm. Qed.

Lemma view_leaves key o ch k : k ≠ key → leaves k (store_view key o ch).
Proof.
  intros Hne e. unfold store_view. repeat case_match; simpl; try done; by rewrite lookup_insert_ne.
Qed.

Lemma store_leaves key o ch k : k ≠ key → leaves k (storeRuntimeChapter key o ch).
Proof.
  intros Hne. apply leaves_bind; [done|]. intros _. apply leaves_bind; [|intros; by apply view_leaves].
  apply leaves_same, history_records.
Qed.

Lemma prepare_leaves req k : leaves k (prepareChapterWrite req).
Proof.
  apply leaves_bind; [done|]. intros _. destruct (bool_decide _); [auto|].
  apply leaves_bind; [apply leaves_same; intros; apply uploads_records|auto].
Qed.

Lemma ensure_leaves key id schema req ch k : k ≠ key → leaves k (ensureCompletionChapter key id schema req ch).
Proof.
  intros Hne e. unfold ensureCompletionChapter. destruct (_ <? _)%Z; [done|]. destruct (chapters_of key e !! _).
  - apply leaves_bind; [by destruct (bool_decide _); [|apply prepare_leaves]|auto].
  - apply leaves_bind; [apply prepare_leaves|]. intros. apply leaves_bind; [done|]. intros.
    apply leaves_bind; [by apply store_leaves|auto].
Qed.

Lemma commit_leaves key id wk req now k : k ≠ key → leaves k (complete_commit key id wk req now).
Proof.
  intros Hne e. unfold complete_commit. repeat case_match; try done. rewrite run_goals_records. simpl.
  by rewrite lookup_insert_ne.
Qed.

Lemma cancel_leaves l d now k : k ≠ l_jobKey l → leaves k (cancelScheduledLease l d now).
Proof.
  intros Hne. apply leaves_bind; [|auto]. apply leaves_bind; [done|]. intros _. unfold completeLease. simpl.
  apply leaves_bind; [done|]. intros. apply leaves_bind; [by apply ensure_leaves|]. intros. by apply commit_leaves.
Qed.

(** A preflight keeps the records of the other jobs, and that of its own job when
    it lets the worker have it. *)
Lemma preflight_frame ctx l now goal e e' res k r :
  preflightScheduleLease ctx l now goal e = (e', res) → e_jobRecords e !! k = Some r →
  k ≠ l_jobKey l ∨ res = Ok true → e_jobRecords e' !! k = Some r.
Proof.
  intros Hp Hr Hk. unfold preflightScheduleLease, m_bind, m_read in Hp.
  destruct (preflight_verdict _ e) as [[|d|i bits]|err]; [by injection Hp as <- <-| | |by injection Hp as <- <-].
  - destruct Hk as [Hne|Hres].
    + pose proof (cancel_leaves l d now k Hne e) as Hl. rewrite Hp in Hl. simpl in Hl. by rewrite Hl.
    + exfalso. revert Hp. unfold cancelScheduledLease, m_bind, m_ret.
      destruct (lease_Complete _ _ _ _) as [e2 [[]|]]; intros [= _ <-]; done.
  - destruct (NextScheduleFire _ _) as [[t|]|]; [|by injection Hp as <- <-..].
    unfold submitScheduledOccurrence in Hp.
    destruct (submitScheduledOccurrenceWithJobID _ _ _ _ _ _ _ _ _ _) as [e2 rs] eqn:Hsub.
    apply submission_keeps in Hsub as [Hkeep _]. destruct rs; injection Hp as <- <-; by apply Hkeep.
Qed.

Lemma preflight_all_frame ctx ls now fresh e e' res k r :
  preflight_all ctx ls now fresh e = (e', res) → e_jobRecords e !! k = Some r → k ∉ l_jobKey <$> ls →
  e_jobRecords e' !! k = Some r.
Proof.
  revert e res. induction ls as [|l ls IH]; intros e res; simpl; [by intros [= <- <-]|]. unfold m_bind.
  destruct (preflightScheduleLease _ _ _ _ e) as [e1 [ok|]] eqn:Hp; intros Hrun Hr Hk;
    apply not_elem_of_cons in Hk as [Hne Hk];
    assert (e_jobRecords e1 !! k = Some r) as Hr1 by (eapply preflight_frame; [exact Hp|exact Hr|by left]);
    [|by injection Hrun as <- <-].
  destruct (preflight_all ctx ls now fresh e1) as [e2 [rest|]] eqn:Hall; injection Hrun as <- <-; by eapply IH.
Qed.

(** The leases that pass the preflights, with their records as acquired. *)
Lemma preflight_all_sound ctx ls now fresh e e' out :
  NoDup (l_jobKey <$> ls) → preflight_all ctx ls now fresh e = (e', Ok out) →
  out `sublist_of` ls ∧ ∀ l r, l ∈ out → e_jobRecords e !! l_jobKey l = Some r → e_jobRecords e' !! l_jobKey l = Some r.
Proof.
  revert e out. induction ls as [|l ls IH]; intros e out; simpl.
  { intros _ [= <- <-]. split; [done|]. by intros l r ?%elem_of_nil. }
  intros [Hl Hnd]%NoDup_cons. unfold m_bind.
  destruct (preflightScheduleLease _ _ _ _ e) as [e1 [ok|]] eqn:Hp; [|done].
  destruct (preflight_all ctx ls now fresh e1) as [e2 [rest|]] eqn:Hall; [|done].
  intros [= <- <-]. destruct (IH e1 rest Hnd Hall) as [Hsub Hkeep].
  assert (∀ l' r, l' ∈ rest → e_jobRecords e !! l_jobKey l' = Some r → e_jobRecords e2 !! l_jobKey l' = Some r) as Hrest.
  { intros l' r Hin Hr. apply Hkeep; [done|]. eapply preflight_frame; [exact Hp|exact Hr|]. left. intros Heq.
    apply Hl. rewrite <- Heq. apply list_elem_of_fmap_2. by eapply elem_of_sublist. }
  destruct ok; split; [by apply sublist_skip| |by apply sublist_cons|exact Hrest].
  intros l' r [->|Hin]%elem_of_cons Hr; [|by apply Hrest].
  eapply preflight_all_frame; [exact Hall| |exact Hl]. eapply preflight_frame; [exact Hp|exact Hr|by right].
Qed.

(** ** Acquiring an occurrence *)

(** An acquisition leads to a reachable world in which the worker holds the job. *)
Lemma acquired_world w ctx req now id e1 l :
  reachable w → (w_now w ≤ now)%Z → blank id = false → id ∉ w_used w →
  acquire_job ctx req now id (w_engine w) = (e1, Ok (Some l)) →
  ∃ w1 r, reachable w1 ∧ w_engine w1 = e1 ∧ w_now w1 = now ∧ l_jobKey l = gl_JobKey req ∧
    e_jobRecords e1 !! gl_JobKey req = Some r ∧ holds_lease now (l_leaseID l) (l_workerID l) r = true ∧
    (now < l_expiresAt l)%Z ∧ ∀ k, is_Some (e_jobRecords e1 !! k) → is_Some (e_jobRecords (w_engine w) !! k).
Proof.
  intros Hw Hle Hb Hu Hp. assert (id ≠ "") as Hne by (intros ->; done).
  destruct (get_lease_post _ _ _ _ _ _ _ Hp) as (Hk & r0 & Hr0 & _ & Ht & Ho).
  assert (step (SGetLease ctx req id) w (mkWorld now (w_used w ∪ {[id]}) e1)) as Hs.
  { constructor; try done; simpl; [apply NoDup_singleton|by intros i ->%list_elem_of_singleton|set_solver|].
    by rewrite drop_result_fst, Hp. }
  pose proof (wo_records _ (reachable_world_ok _ Hw) _ _ Hr0) as Hok.
  assert (record_ok (w_engine w) now (w_used w) (l_jobKey l) r0) as Hok'.
  { rewrite Hk. eapply record_ok_fwd; [apply waits_fwd_refl|exact Hle|reflexivity|exact Hok]. }
  pose proof (taken_granted _ _ _ _ _ _ _ (w_used w) r0 l Hne Hok' ltac:(by rewrite Hk) Ht) as [Hrec Hid Hwk _].
  destruct Hrec as (ra & rb & Hra & Hrb & Hh & _ & _ & _ & Hx & _). rewrite Hk in Hra, Hrb.
  exists (mkWorld now (w_used w ∪ {[id]}) e1), rb.
  split; [eapply reachable_steps; [exact Hw|]; apply rtc_once; by eexists|].
  do 3 (split; [done|]). split; [done|]. split; [by rewrite Hid, Hwk|]. split; [done|].
  intros k Hk'. destruct (decide (k = gl_JobKey req)) as [->|Hn]; [by rewrite Hr0|by rewrite <- Ho].
Qed.
End preflight.
