(* ===== verification/ToyScheduleLife.v ===== *)
(** * ToyScheduleLife: what becomes of a schedule

    Which critical sections change schedules, and along which lines a schedule
    changes: [later] relates a schedule to itself at a later moment. *)

From S2P Require Import Prelude Types GoalStore GoalEngine.
From S2P Require Import Json ClientPayload Cells CellState Metadata Chapters Schedule ScheduleRuns.
From S2P Require Import ToyState ToyLease ToyChapters ToySubmit ToySchedule ToyRestart ToyRun.

(** What an occurrence is submitted from. *)
Definition spec_of (i : ScheduleInfo) :=
  (si_Trigger i, si_Target i, si_SpecHash i, si_OverlapPolicy i, si_FailurePolicy i).

Record later (i i' : ScheduleInfo) : Prop := {
  lt_generation : (si_Generation i ≤ si_Generation i')%Z;
  lt_created : si_CreatedAt i' = si_CreatedAt i;
  lt_archived : si_State i = ScheduleStateArchived → si_State i' = ScheduleStateArchived;
  lt_spec : si_Generation i' = si_Generation i → spec_of i' = spec_of i;
  lt_state : si_Generation i' = si_Generation i →
    si_State i' = si_State i ∨ (si_State i = ScheduleStateActive ∧ si_State i' = ScheduleStatePaused)
}.

#[export] Instance later_pre : PreOrder later.
Proof.
  split; [intros i; split; auto; lia|]. intros i1 i2 i3 [G12 C12 A12 P12 S12] [G23 C23 A23 P23 S23].
  split; [lia|congruence|auto| |].
  - intros He. rewrite P23 by lia. apply P12. lia.
  - intros He. destruct (S12 ltac:(lia)) as [E1|[H1 H2]], (S23 ltac:(lia)) as [E2|[H3 H4]];
      rewrite ?E1, ?E2 in *; auto; congruence.
Qed.

(** A new generation of a schedule that is not archived. *)
Lemma later_new i i' :
  si_Generation i' = (si_Generation i + 1)%Z → si_CreatedAt i' = si_CreatedAt i →
  (si_State i = ScheduleStateArchived → si_State i' = ScheduleStateArchived) → later i i'.
Proof. intros Hg Hc Ha. split; [lia|done|done|lia|lia]. Qed.

Lemma later_pause_reason i reason : later i (i <| si_PauseReason := reason |>).
Proof. split; simpl; auto. lia. Qed.

Lemma later_moved c tenant k i : later i (pause_on_move c tenant k i).
Proof.
  unfold pause_on_move. destruct (_ && bool_decide _) eqn:He; [|done].
  apply andb_true_iff in He as [_ Ha%bool_decide_eq_true]. split; simpl; auto; [lia|congruence].
Qed.

(** Tables whose schedules are later ones; some may be new. *)
Definition schedules_later (e e' : ToyEngine) : Prop :=
  ∀ k i, e_schedules e !! k = Some i → ∃ i', e_schedules e' !! k = Some i' ∧ later i i'.

Lemma later_same e e' : e_schedules e' = e_schedules e → schedules_later e e'.
Proof. intros He k i Hi. rewrite He. by exists i. Qed.

Lemma later_put k i e : (∀ i0, e_schedules e !! k = Some i0 → later i0 i) → schedules_later e (put_schedule k i e).
Proof.
  intros Hl k' i' Hi'. simpl. destruct (decide (k = k')) as [<-|Hne].
  - rewrite lookup_insert_eq. eauto.
  - rewrite lookup_insert_ne by done. by exists i'.
Qed.

Section life.
Context `{CellText} `{RangeOrder} `{FloatText} `{ChapterChecks} `{TimeZones} `{ScheduleText}.

(** ** Sections that change schedules *)
Lemma upsert_later ctx req target next now e : schedules_later e (upsert_section ctx req target next now e).1.
Proof.
  unfold upsert_section. destruct (rbind _ _) as [info|] eqn:Hr; [|by apply later_same]. simpl. apply later_put.
  apply bind_ok in Hr as (c & _ & Hr). apply bind_ok in Hr as (b & _ & Hr). apply bind_ok in Hr as (spec & _ & Hr).
  apply bind_ok in Hr as ([] & Ha & Hr). apply bind_ok in Hr as ([] & _ & Hr). intros i Hi. rewrite Hi in Ha, Hr.
  injection Hr as <-. apply later_new; [done|done|]. intros Hs. unfold state_eqb in Ha. by rewrite Hs in Ha.
Qed.

Lemma mutate_later ctx req state now e : schedules_later e (mutate_section ctx req state now e).1.
Proof.
  unfold mutate_section. destruct (e_schedules e !! sm_ScheduleKey req) as [i|] eqn:Hi; [|by apply later_same].
  destruct (match sm_ExpectedGeneration req with Some _ => _ | None => _ end); [by apply later_same|].
  destruct (_ && negb _) eqn:Ha; [by apply later_same|].
  destruct (if state_eqb state _ then _ else _); [|by apply later_same].
  set (i1 := if state_eqb state ScheduleStateActive then _ else i).
  assert (later i i1) as Hl by (unfold i1; destruct (state_eqb state ScheduleStateActive); [apply later_pause_reason|done]).
  destruct (InitialScheduleFire _ _) as [next|]; apply later_put; intros i0; rewrite Hi; intros [= <-]; [|done].
  etrans; [exact Hl|]. apply later_new; [done|done|]. simpl. intros Hs.
  assert (si_State i = ScheduleStateArchived) as Hs' by (revert Hs; unfold i1; by destruct (state_eqb state ScheduleStateActive)).
  unfold state_eqb in Ha. rewrite Hs' in Ha. simpl in Ha. by destruct (bool_decide_reflect (state = ScheduleStateArchived)).
Qed.

Lemma update_cell_later ctx req now rev e : schedules_later e (UpdateCell ctx req now rev e).1.
Proof.
  unfold UpdateCell. destruct (on_cells _ _ e) as [e1 [c|]] eqn:Ho; unfold on_cells in Ho; injection Ho as <- _;
    [|by apply later_same]. simpl. destruct (String.eqb _ _); [by apply later_same|].
  intros k i Hi. simpl. rewrite map_lookup_imap, Hi. simpl. eexists. split; [done|apply later_moved].
Qed.

(** ** The others *)
Lemma poll_schedules req allowed ps limit now new_id keys e out :
  e_schedules (poll_loop req allowed ps limit now new_id keys e out).1 = e_schedules e.
Proof.
  revert e out. induction keys as [|k keys IH]; intros e out; simpl; [done|].
  destruct (e_jobRecords e !! k); [|apply IH]. destruct (_ || _); [apply IH|].
  destruct (_ || _); [apply (IH (put_record k _ e))|].
  destruct (_ <=? _)%nat; [done|apply (IH (put_record k _ e))].
Qed.

Lemma uploads_schedules key o us e : e_schedules (write_uploads key o us e).1 = e_schedules e.
Proof.
  revert e. induction us as [|u us IH]; intros e; [done|]. simpl. unfold m_bind, m_read, m_write, m_ret.
  destruct (au_Open u) as [data|]; [|done]. simpl.
  match goal with |- context [write_uploads key o us ?e1] => specialize (IH e1); destruct (write_uploads key o us e1) as [e2 [rest|]] end;
    simpl in *; by rewrite IH.
Qed.

Lemma clone_schedules {A} (m : M Memory A) e : e_schedules (run_goals_clone m e).1 = e_schedules e.
Proof. unfold run_goals_clone. simpl. by destruct (is_ok _). Qed.

Lemma publish_goal_schedules ctx key r now e e2 :
  publishGoalLocked ctx key r now e = Ok e2 → e_schedules e2 = e_schedules e.
Proof. unfold publishGoalLocked. intros Hp. by split_res Hp. Qed.

Lemma publish_schedules ctx key r start now e :
  e_schedules (publish_job ctx key r start now e).1 = e_schedules e.
Proof.
  unfold publish_job. destruct (e_jobRecords e !! key); [done|].
  destruct (publishGoalLocked _ _ _ _ _) as [e2|] eqn:Hp; [|done]. by apply publish_goal_schedules in Hp.
Qed.

Lemma restart_schedules ctx key job j now e : e_schedules (publish_restart ctx key job j now e).1 = e_schedules e.
Proof.
  unfold publish_restart. destruct (rbind _ _) as [kept|]; [|done]. destruct (e_jobRecords e !! key); [done|].
  destruct (rbind _ _) as [r|]; [|done]. destruct (publishGoalLocked _ _ _ _ _) as [e2|] eqn:Hp; [|done].
  by apply publish_goal_schedules in Hp.
Qed.

Lemma delete_schedules req now e : e_schedules (DeleteJobs req now e).1 = e_schedules e.
Proof.
  unfold DeleteJobs. destruct (rbind _ _); [|done]. destruct (dj_DryRun req); [done|]. set (ms := (filter _ _).*1).
  assert (e_schedules (m_iter (delete_one now) ms e).1 = e_schedules e) as Hm.
  { apply (m_iter_inv (λ e1, e_schedules e1 = e_schedules e)); [|done].
    intros k e1 _ <-. unfold delete_one. by destruct (_ !! k). }
  unfold m_bind, m_ret. by destruct (m_iter _ _ e) as [e1 [[]|]].
Qed.

Lemma task_publish_schedules req p route w a now e :
  e_schedules (task_publish req p route w a now e).1 = e_schedules e.
Proof.
  unfold task_publish. destruct (_ !! _); [|done]. destruct (_ || _); [done|]. destruct (e_runtimeChapters _ !! _); [|done].
  destruct (bool_decide _); [done|]. destruct (negb _); [done|]. destruct (ta_SizeFailure a); [|done].
  unfold m_bind, m_err. by destruct (run_goals _ _) as [e1 [[]|]] eqn:Hg; unfold run_goals in Hg; injection Hg as <- _.
Qed.

(** Every critical section changes schedules only along [later]. *)
Lemma exec_schedules s now e : schedules_later e (exec s now e).1.
Proof.
  destruct s; simpl exec; rewrite ?drop_result_fst; try by apply later_same.
  - apply later_same. unfold PrepareJob. by destruct (rbind _ _) as [[[req'|] p]|].
  - apply later_same. unfold DiscardJobPreparation. simpl. by repeat case_match.
  - apply later_same, publish_schedules.
  - apply later_same, publish_schedules.
  - apply later_same, restart_schedules.
  - apply later_same. unfold acquire_ready. destruct (rbind _ _) as [[ps allowed]|]; [|done]. apply poll_schedules.
  - apply later_same. unfold acquire_job. destruct (rbind _ _); [|done]. destruct (_ !! _); [|done].
    destruct (rbind _ _); [|done]. by destruct (negb _).
  - apply later_same. unfold KeepAliveLeaseByID. destruct (_ !! _); [|done]. by destruct (negb _).
  - apply later_same. unfold RenewExecutionLeaseByID. destruct (_ !! _); [|done]. by destruct (_ || _).
  - apply later_same, uploads_schedules.
  - apply later_same. unfold store_history. destruct (_ !! _); [|done]. by repeat case_match.
  - apply later_same. unfold store_view. destruct (_ !! _); [|done]. by repeat case_match.
  - apply later_same. unfold complete_commit. destruct (_ !! _); [|done].
    destruct (negb _); [done|]. by destruct (Apply _ _ _) as [[v n]|].
  - apply later_same. unfold completePayloadFailure. destruct (_ || _); [done|]. destruct (_ !! _); [|done].
    destruct (negb _); [done|]. by destruct (negb _).
  - apply later_same. unfold rescheduleLease. destruct (reschedule_check _ _ _ _ _ _) as [[[r task] [v n]]|]; [|done].
    pose proof (clone_schedules (reschedule_goals key (jr_dependencyWaitID r) (re_DependencyWait req) now) e) as Hcl.
    by destruct (run_goals_clone _ e) as [e1 [wid|]].
  - apply later_same. unfold task_snapshot. by destruct (_ !! _).
  - apply later_same, task_publish_schedules.
  - apply later_same. unfold CancelJob. destruct (_ !! _); [|done]. by destruct (archived _).
  - apply later_same. unfold ClearCrashConcern. destruct (_ || _); [done|]. destruct (_ !! _); [|done]. by destruct (_ || _).
  - apply later_same, delete_schedules.
  - apply later_same, clone_schedules.
  - apply later_same, clone_schedules.
  - apply later_same. unfold CreateCellWithLeaseByID. by destruct (cellParentLocked _ _ _ _).
  - apply update_cell_later.
  - apply upsert_later.
  - apply mutate_later.
Qed.

Lemma steps_schedules w w' : rtc any_step w w' → schedules_later (w_engine w) (w_engine w').
Proof.
  induction 1 as [w|w w1 w' [s [_ _ _ _ _ He]] _ IH]; [by apply later_same|]. intros k i Hi.
  destruct (exec_schedules s (w_now w1) (w_engine w) k i Hi) as (i1 & Hi1 & Hl). rewrite <- He in Hi1.
  destruct (IH k i1 Hi1) as (i2 & Hi2 & Hl2). exists i2. split; [done|]. by etrans.
Qed.
End life.
