(* ===== verification/ToyScenario.v ===== *)
(** * ToyScenario: one run of the runtime

    A concrete history the theorems about the runtime are tried on: a cell is
    created, a job is prepared and submitted, and workers take its lease. *)

From stdpp Require Import pretty.
From S2P Require Import Prelude Types GoalStore GoalEngine.
From S2P Require Import Json ClientPayload Cells CellState CellTheorems Metadata Chapters Schedule ScheduleRuns.
From S2P Require Import ToyState ToyLease ToyChapters ToySubmit ToySchedule ToyRestart ToyRun Base64.
#[export] Existing Instance cell_sample.plain_text.
#[export] Existing Instance stdpp_range_order.

#[export] Instance plain_float : FloatText := id.
#[export] Instance open_checks : ChapterChecks := {|
  ValidateChapterApplicationPayload _ := Ok tt;
  ValidateOrdinaryChapter _ _ _ := Ok tt;
  ValidateLastChapter _ _ _ := Ok tt;
  payload_size_failure _ := None;
  execution_result _ _ _ _ _ _ _ := Err (ErrMsg "no execution record");
  sha256_hex := raw_url_encode;
  data_json_valid _ := true;
  time_text t := pretty t
|}.
(** Times spelled in nanoseconds, and no named time zones. *)
#[export] Instance no_zones : TimeZones := {| LoadLocation _ := None |}.
#[export] Instance plain_schedules : ScheduleText := {|
  time_value := Atoi;
  spec_text tr t overlap p := Ok (tr_Kind tr +:+ tr_Expression tr +:+ ht_Cell t +:+ ht_JobType t +:+ overlap)
|}.

Definition boss : Context := mkContext
  (Some (mkAuthority "p" "t" {["cells.create"; "jobs.submit"; "jobs.acquire"]} None)) None None.
Definition job : JobKey := mkJobKey "t" "j".
Definition prep : Preparation := mkPreparation "a" "" blank_cell "" job "" "" false (JObj []) [].
Definition fresh : NewJob := mkNewJob "w" None 0 "" (JObj []) (JObj []) None 1.

Definition s_cell : section := SCreateCell boss (mkCreateCell "t" "a" "h/r" "" ∅ "") "c" "v".
Definition s_prepare : section := SPrepare boss prep (λ _, Ok job) "g".
Definition s_submit : section := SSubmit boss job fresh None "{}" "h" (JObj []) [].
Definition take (id : string) : section := SGetLease boss (mkGetLease job "w1" [mkRoute "w" ""] 10) id.

Definition e0 : ToyEngine := NewToyEngine (λ _, "k").
Definition e1 : ToyEngine := Eval vm_compute in (exec s_cell 1 e0).1.
Definition e2 : ToyEngine := Eval vm_compute in (exec s_prepare 1 e1).1.
Definition e3 : ToyEngine := Eval vm_compute in (exec s_submit 1 e2).1.
Definition e4 : ToyEngine := Eval vm_compute in (exec (take "A") 10 e3).1.
Lemma run1 : (exec s_cell 1 e0).1 = e1. Proof. vm_compute. reflexivity. Qed.
Lemma run2 : (exec s_prepare 1 e1).1 = e2. Proof. vm_compute. reflexivity. Qed.
Lemma run3 : (exec s_submit 1 e2).1 = e3. Proof. vm_compute. reflexivity. Qed.
Lemma run4 : (exec (take "A") 10 e3).1 = e4. Proof. vm_compute. reflexivity. Qed.

(** ** The worlds of the run *)
Definition w0 : World := mkWorld 0 ∅ e0.
Definition w1 : World := mkWorld 1 ∅ e1.
Definition w2 : World := mkWorld 1 {["g"]} e2.
Definition w3 : World := mkWorld 1 {["g"]} e3.
Definition w4 : World := mkWorld 10 {["g"; "A"]} e4.

(** A step given the computed engine. *)
Lemma section_step s w now' used' e' :
  (w_now w ≤ now')%Z → NoDup (generated s (w_engine w)) →
  (∀ id, id ∈ generated s (w_engine w) → id ∉ w_used w) →
  forallb (λ id, negb (blank id)) (generated s (w_engine w)) = true → carried_ok s →
  used' = w_used w ∪ list_to_set (generated s (w_engine w)) → (exec s now' (w_engine w)).1 = e' →
  step s w (mkWorld now' used' e').
Proof.
  intros ? ? Hids Hb ? -> <-. constructor; try done. intros id Hid. split; [by apply Hids|].
  apply Is_true_true, forallb_True in Hb. rewrite Forall_forall in Hb. specialize (Hb id Hid). by destruct (blank id).
Qed.

Lemma step1 : step s_cell w0 w1.
Proof. apply section_step; [done|apply NoDup_nil_2|set_solver|done|done|set_solver|exact run1]. Qed.
Lemma step2 : step s_prepare w1 w2.
Proof. apply section_step; [done|apply NoDup_singleton|set_solver|done|done|set_solver|exact run2]. Qed.
Lemma step3 : step s_submit w2 w3.
Proof. apply section_step; [done|apply NoDup_nil_2|set_solver|done|done|set_solver|exact run3]. Qed.
Lemma step4 : step (take "A") w3 w4.
Proof. apply section_step; [done|apply NoDup_singleton|set_solver|done|done|set_solver|exact run4]. Qed.

Lemma reach3 : reachable w3.
Proof.
  exists w0. split; [by exists (λ _, "k")|].
  eapply rtc_l; [exists s_cell; exact step1|]. eapply rtc_l; [exists s_prepare; exact step2|].
  apply rtc_once. exists s_submit. exact step3.
Qed.
Lemma reach4 : reachable w4.
Proof. destruct reach3 as (w & Hi & Hs). exists w. split; [done|]. etrans; [exact Hs|]. apply rtc_once. exists (take "A"). exact step4. Qed.

(** ** Records and leases of the run *)
Definition no_record : jobRecord := new_record "" None 0 "" JNull JNull JobStatusReady [] 0 0 ∅.
Definition record_in (e : ToyEngine) : jobRecord := default no_record (e_jobRecords e !! job).
Definition r3 : jobRecord := Eval vm_compute in record_in e3.
Definition r4 : jobRecord := Eval vm_compute in record_in e4.
Lemma at3 : e_jobRecords e3 !! job = Some r3. Proof. vm_compute. reflexivity. Qed.
Lemma at4 : e_jobRecords e4 !! job = Some r4. Proof. vm_compute. reflexivity. Qed.

Definition start0 : Chapter := start_chapter fresh "{}" "h" (JObj []) [].
Lemma start3 : chapters_of job e3 !! 0%Z = Some start0. Proof. vm_compute. reflexivity. Qed.

Definition want : GetJobLeaseRequest := mkGetLease job "w1" [mkRoute "w" ""] 10.
Definition l4 : runtimeLease := mkLease job "A" (mkRoute "w" "") (mkPayload (JObj []) None) None 0 "w1" 20 10 "".
Lemma lease4 : acquire_job boss want 10 "A" e3 = (e4, Ok (Some l4)). Proof. vm_compute. reflexivity. Qed.

Definition poll : PollWorkRequest := mkPoll None "t" "w1" [mkRoute "w" ""] 3 10 [].
Lemma poll3 : acquire_ready boss poll 10 (λ _, "A") e3 = (e4, Ok [l4]). Proof. vm_compute. reflexivity. Qed.

(** ** The job is cancelled *)
Definition s_cancel : section := SCancel job "stop".
Definition e5 : ToyEngine := Eval vm_compute in (exec s_cancel 12 e4).1.
Lemma run5 : (exec s_cancel 12 e4).1 = e5. Proof. vm_compute. reflexivity. Qed.
Definition w5 : World := mkWorld 12 {["g"; "A"]} e5.
Definition r5 : jobRecord := Eval vm_compute in record_in e5.
Lemma at5 : e_jobRecords e5 !! job = Some r5. Proof. vm_compute. reflexivity. Qed.
Lemma step5 : step s_cancel w4 w5.
Proof. apply section_step; [done|apply NoDup_nil_2|set_solver|done|done|set_solver|exact run5]. Qed.
Lemma reach5 : reachable w5.
Proof. destruct reach4 as (w & Hi & Hs). exists w. split; [done|]. etrans; [exact Hs|]. apply rtc_once. exists s_cancel. exact step5. Qed.

(** ** The lease expires again and again *)
Definition x1 : ToyEngine := Eval vm_compute in (exec (take "B") 100 e4).1.
Definition x2 : ToyEngine := Eval vm_compute in (exec (take "C") 200 x1).1.
Definition x3 : ToyEngine := Eval vm_compute in (exec (take "D") 300 x2).1.
Definition x4 : ToyEngine := Eval vm_compute in (exec (take "E") 400 x3).1.
Definition x5 : ToyEngine := Eval vm_compute in (exec (take "F") 500 x4).1.
Lemma expire1 : (exec (take "B") 100 e4).1 = x1. Proof. vm_compute. reflexivity. Qed.
Lemma expire2 : (exec (take "C") 200 x1).1 = x2. Proof. vm_compute. reflexivity. Qed.
Lemma expire3 : (exec (take "D") 300 x2).1 = x3. Proof. vm_compute. reflexivity. Qed.
Lemma expire4 : (exec (take "E") 400 x3).1 = x4. Proof. vm_compute. reflexivity. Qed.
Lemma expire5 : (exec (take "F") 500 x4).1 = x5. Proof. vm_compute. reflexivity. Qed.
Definition s_other : section := SDiscard (mkJobKey "t" "z").
Lemma other5 : (exec s_other 600 x5).1 = x5. Proof. vm_compute. reflexivity. Qed.

Definition u1 : World := mkWorld 100 {["g"; "A"; "B"]} x1.
Definition u2 : World := mkWorld 200 {["g"; "A"; "B"; "C"]} x2.
Definition u3 : World := mkWorld 300 {["g"; "A"; "B"; "C"; "D"]} x3.
Definition u4 : World := mkWorld 400 {["g"; "A"; "B"; "C"; "D"; "E"]} x4.
Definition u5 : World := mkWorld 500 {["g"; "A"; "B"; "C"; "D"; "E"; "F"]} x5.
Definition u6 : World := mkWorld 600 {["g"; "A"; "B"; "C"; "D"; "E"; "F"]} x5.

Lemma expire_reach : reachable u1 ∧ reachable u6.
Proof.
  destruct reach4 as (w & Hi & Hs).
  assert (rtc any_step w u1) as Hu1.
  { etrans; [exact Hs|]. apply rtc_once. exists (take "B").
    apply section_step; [done|apply NoDup_singleton|set_solver|done|done|set_solver|exact expire1]. }
  split; [by exists w|]. exists w. split; [done|]. etrans; [exact Hu1|].
  eapply rtc_l; [exists (take "C"); apply (section_step _ _ 200 (w_used u2)); [done|apply NoDup_singleton|set_solver|done|done|set_solver|exact expire2]|].
  eapply rtc_l; [exists (take "D"); apply (section_step _ _ 300 (w_used u3)); [done|apply NoDup_singleton|set_solver|done|done|set_solver|exact expire3]|].
  eapply rtc_l; [exists (take "E"); apply (section_step _ _ 400 (w_used u4)); [done|apply NoDup_singleton|set_solver|done|done|set_solver|exact expire4]|].
  eapply rtc_l; [exists (take "F"); apply (section_step _ _ 500 (w_used u5)); [done|apply NoDup_singleton|set_solver|done|done|set_solver|exact expire5]|].
  apply rtc_once. exists s_other.
  apply section_step; [done|apply NoDup_nil_2|set_solver|done|done|set_solver|exact other5].
Qed.
Definition q1 : jobRecord := Eval vm_compute in record_in x1.
Definition q5 : jobRecord := Eval vm_compute in record_in x5.
Lemma expired1 : e_jobRecords x1 !! job = Some q1. Proof. vm_compute. reflexivity. Qed.
Lemma expired5 : e_jobRecords x5 !! job = Some q5. Proof. vm_compute. reflexivity. Qed.

(** ** A second job depends on the first *)
Definition job2 : JobKey := mkJobKey "t" "k".
Definition prep2 : Preparation := mkPreparation "a" "" blank_cell "" job2 "" "" false (JObj [])
  [mkDependency (mkTarget "j" "") JobPrereqSuccess].
Definition s_prepare2 : section := SPrepare boss prep2 (λ _, Ok job2) "h".
Definition s_submit2 : section := SSubmit boss job2 fresh None "{}" "h" (JObj []) [].
Definition d1 : ToyEngine := Eval vm_compute in (exec s_prepare2 2 e3).1.
Definition d2 : ToyEngine := Eval vm_compute in (exec s_submit2 2 d1).1.
Lemma depend1 : (exec s_prepare2 2 e3).1 = d1. Proof. vm_compute. reflexivity. Qed.
Lemma depend2 : (exec s_submit2 2 d1).1 = d2. Proof. vm_compute. reflexivity. Qed.
Definition v1 : World := mkWorld 2 {["g"; "h"]} d1.
Definition v2 : World := mkWorld 2 {["g"; "h"]} d2.
Lemma depend_reach : reachable v2.
Proof.
  destruct reach3 as (w & Hi & Hs). exists w. split; [done|]. etrans; [exact Hs|].
  eapply rtc_l; [exists s_prepare2; apply (section_step _ _ 2 (w_used v1)); [done|apply NoDup_singleton|set_solver|done|done|set_solver|exact depend1]|].
  apply rtc_once. exists s_submit2. apply section_step; [done|apply NoDup_nil_2|set_solver|done|done|set_solver|exact depend2].
Qed.
Definition waiting2 : jobRecord := Eval vm_compute in default no_record (e_jobRecords d2 !! job2).
Lemma waiting_at : e_jobRecords d2 !! job2 = Some waiting2. Proof. vm_compute. reflexivity. Qed.
Lemma waiting_keys k : is_Some (e_jobRecords d2 !! k) → k = job ∨ k = job2.
Proof.
  intros [r Hr]. apply elem_of_map_to_list in Hr. revert Hr.
  assert ((map_to_list (e_jobRecords d2)).*1 = [job2; job] ∨ (map_to_list (e_jobRecords d2)).*1 = [job; job2]) as Hl
    by (vm_compute; auto).
  intros Hr. apply (list_elem_of_fmap_2 fst) in Hr. change ((k, r).1) with k in Hr.
  destruct Hl as [Hl|Hl]; rewrite Hl in Hr;
    apply elem_of_cons in Hr as [->|Hr%list_elem_of_singleton]; auto.
Qed.
