(* ===== verification/ToyTheorems.v ===== *)
(** * ToyTheorems: what the in-memory runtime promises in every reachable world

    Safety of leases, finality of outcomes, append-only histories, crash concern,
    and the refinement of the abstract life cycle, for every interleaving of
    requests. *)

From S2P Require Import Prelude Types GoalStore GoalEngine GoalWaits GoalInvariant.
From S2P Require Import Json ClientPayload Cells CellState Metadata Chapters Schedule ScheduleRuns.
From S2P Require Import ToyState ToyLease ToyChapters ToySubmit ToySchedule ToyRestart ToyRun ToyMoves ToyTables ToyLifecycle ToyHistory ToyWorld ToyPhases ToyAcquire.
From S2P Require Import ToyScenario.

(** The sections in which the runtime checks the lease [id] of [key].  A chapter
    write checks it in the section it begins with ([put_check]) and not in those
    that store the chapter: see [lease_request]. *)
Definition uses (key : JobKey) (id : string) (s : section) : Prop :=
  match s with
  | SKeepAlive k i _ _ | SRenew k i _ _ | SComplete k i _ _ | SReschedule k i _ _ | SPayloadFailure k i _ _ _ =>
      k = key ∧ i = id
  | SCreateCellWithLease _ p _ _ _ _ => lp_JobKey p = key ∧ lp_LeaseID p = id
  | _ => False
  end.

(** A payload failure with uploads or a payload update is refused before anything else. *)
Definition malformed_failure (req : CompleteExecutionRequest) : Prop :=
  length (ce_ArtifactUploads req) ≠ 0 ∨ is_Some (ce_ClientPayloadUpdate req).
Definition malformed (s : section) : Prop :=
  match s with SPayloadFailure _ _ _ req _ => malformed_failure req | _ => False end.

(** The requests a worker makes under a lease, from beginning to end; [later] is the
    clock when a completion commits. *)
Inductive lease_request :=
  | RKeepAlive (duration : Z)
  | RRenew (duration : Z)
  | RPutChapter (claims : option Claims) (ordinal : Z) (ch : Chapter) (uploads : list ArtifactUpload)
  | RComplete (req : CompleteExecutionRequest) (later : time)
  | RReschedule (req : RescheduleExecutionRequest)
  | RCreateCell (ctx : Context) (principal : string) (req : CreateCellRequest) (id revision : string).

(** The requests that are refused for what they say. *)
Definition malformed_request (leaseID : string) (q : lease_request) : Prop :=
  match q with
  | RPutChapter _ ordinal ch _ => leaseID = "" ∨ (ordinal < 0)%Z ∨ ch_Ordinal ch ≠ ordinal
  | RComplete req _ =>
      match ce_Chapter req with
      | Some ch => if ChapterPayloadFailure ch then malformed_failure req else is_job_outcome ch = false
      | None => True
      end
  | _ => False
  end.

Section promises.
Context `{CellText} `{RangeOrder} `{FloatText} `{ChapterChecks} `{TimeZones} `{ScheduleText}.

(** Serving one of them. *)
Definition serve (key : JobKey) (leaseID workerID : string) (q : lease_request) (now : time) : M ToyEngine () :=
  match q with
  | RKeepAlive d => drop_result (KeepAliveLeaseByID key leaseID workerID d now)
  | RRenew d => drop_result (RenewExecutionLeaseByID key leaseID workerID d now)
  | RPutChapter claims ordinal ch ups => PutChapter claims (mkPutChapter leaseID key ordinal ch ups) now
  | RComplete req later => completeLease key leaseID workerID req now later
  | RReschedule req => rescheduleLease key leaseID workerID req now
  | RCreateCell ctx principal req id revision =>
      drop_result (CreateCellWithLeaseByID ctx (mkLeaseProof key leaseID workerID) principal req now id revision)
  end.

Lemma dead_payload key id wk req ch now e r :
  e_jobRecords e !! key = Some r → live now id r = false →
  ∃ err, completePayloadFailure key id wk req ch now e = (e, Err err) ∧ (err = ErrExecutionLeaseLost ∨ malformed_failure req).
Proof.
  intros Hr Hl. unfold completePayloadFailure, malformed_failure. rewrite Hr, (live_false_holds _ _ _ _ Hl). simpl.
  destruct (bool_decide_reflect (length (ce_ArtifactUploads req) = 0)); simpl; [|by eexists; split; [done|right; left]].
  destruct (bool_decide_reflect (is_Some (ce_ClientPayloadUpdate req))); simpl; [|by eexists; split; [done|left]].
  by eexists; split; [done|right; right].
Qed.

Lemma dead_reschedule key id wk req now e r :
  e_jobRecords e !! key = Some r → live now id r = false →
  rescheduleLease key id wk req now e = (e, Err ErrExecutionLeaseLost).
Proof.
  intros Hr Hl. unfold rescheduleLease, reschedule_check. rewrite Hr. simpl. by rewrite (live_false_holds _ _ _ _ Hl).
Qed.

Lemma dead_extensions key id wk d now e r :
  e_jobRecords e !! key = Some r → live now id r = false →
  KeepAliveLeaseByID key id wk d now e = (e, Err ErrExecutionLeaseLost) ∧
  RenewExecutionLeaseByID key id wk d now e = (e, Err ErrExecutionLeaseLost).
Proof.
  intros Hr Hl. unfold KeepAliveLeaseByID, RenewExecutionLeaseByID.
  rewrite Hr, (live_false_holds _ _ _ _ Hl). by rewrite orb_true_r.
Qed.

Lemma dead_cell ctx p principal req now id rev e r :
  e_jobRecords e !! lp_JobKey p = Some r → live now (lp_LeaseID p) r = false →
  CreateCellWithLeaseByID ctx p principal req now id rev e = (e, Err ErrExecutionLeaseLost).
Proof.
  intros Hr Hl. unfold CreateCellWithLeaseByID, cellParentLocked. simpl. rewrite String.eqb_refl. simpl.
  rewrite Hr. simpl. by rewrite (live_false_holds _ _ _ _ Hl), andb_false_r.
Qed.

(** Sections under a lease that is not live change nothing. *)
Lemma dead_refused s key id now e r :
  uses key id s → e_jobRecords e !! key = Some r → live now id r = false →
  ∃ err, exec s now e = (e, Err err) ∧ (err = ErrExecutionLeaseLost ∨ malformed s).
Proof.
  intros Hu Hr Hl. destruct s; simpl in Hu; try done; destruct Hu as [Hk Hi]; subst; simpl exec.
  - destruct (dead_extensions _ _ workerID duration _ _ _ Hr Hl) as [He _].
    exists ErrExecutionLeaseLost. split; [|by left]. unfold drop_result, m_bind. by rewrite He.
  - destruct (dead_extensions _ _ workerID duration _ _ _ Hr Hl) as [_ He].
    exists ErrExecutionLeaseLost. split; [|by left]. unfold drop_result, m_bind. by rewrite He.
  - exists ErrExecutionLeaseLost. split; [|by left]. unfold complete_commit. by rewrite Hr, (live_false_holds _ _ _ _ Hl).
  - by eapply dead_payload.
  - exists ErrExecutionLeaseLost. split; [by eapply dead_reschedule|by left].
  - exists ErrExecutionLeaseLost. split; [|by left]. unfold drop_result, m_bind. by rewrite (dead_cell _ _ _ _ _ _ _ _ _ Hr Hl).
Qed.

Lemma put_check_dead claims key id ordinal ch ups now e r :
  e_jobRecords e !! key = Some r → live now id r = false →
  ∃ err, put_check claims (mkPutChapter id key ordinal ch ups) now e = Err err ∧
    (err = ErrExecutionLeaseLost ∨ id = "" ∨ (ordinal < 0)%Z ∨ ch_Ordinal ch ≠ ordinal).
Proof.
  intros Hr Hl. unfold put_check. cbn [pc_LeaseID pc_Ordinal pc_Chapter pc_JobKey].
  destruct (str_empty id) eqn:Hid; simpl.
  { eexists; split; [done|]. right. left. by apply str_empty_spec. }
  destruct (Z.leb_spec 0 ordinal); simpl; [|by eexists; split; [done|right; right; left]].
  destruct (Z.eqb_spec (ch_Ordinal ch) ordinal); simpl; [|by eexists; split; [done|right; right; right]].
  rewrite Hr. simpl. exists ErrExecutionLeaseLost. split; [|by left].
  destruct (Authorize claims key id now) as [[]|err] eqn:Hauth; simpl.
  - unfold live in Hl. by rewrite Hl.
  - unfold Authorize, guard_err in Hauth. repeat case_match; simplify_eq/=; congruence.
Qed.

(** Requests begun under a lease that is not live change nothing. *)
Lemma dead_request key id wk q now e r :
  e_jobRecords e !! key = Some r → live now id r = false →
  ∃ err, serve key id wk q now e = (e, Err err) ∧ (err = ErrExecutionLeaseLost ∨ malformed_request id q).
Proof.
  intros Hr Hl. destruct q; simpl serve; simpl malformed_request.
  - by apply (dead_refused (SKeepAlive key id wk duration) key id now e r).
  - by apply (dead_refused (SRenew key id wk duration) key id now e r).
  - destruct (put_check_dead claims key id ordinal ch uploads now e r Hr Hl) as (err & Hc & He). exists err.
    split; [|done]. unfold PutChapter, m_bind, m_read. by rewrite Hc.
  - unfold completeLease. destruct (ce_Chapter req) as [ch|] eqn:Hch; [|by eexists; split; [done|right]].
    destruct (ChapterPayloadFailure ch); [by eapply dead_payload|].
    unfold m_bind, m_read, complete_check. rewrite Hch. simpl. destruct (is_job_outcome ch); simpl;
      [|by eexists; split; [done|right]].
    rewrite Hr. simpl. rewrite (live_false_holds _ _ _ _ Hl). simpl. eexists. split; [done|by left].
  - eexists. split; [by eapply dead_reschedule|by left].
  - apply (dead_refused (SCreateCellWithLease ctx (mkLeaseProof key id wk) principal req id0 revision) key id now e r); done.
Qed.

(** ** Following one record *)
Lemma steps_dead w w' key id r :
  world_ok w → e_jobRecords (w_engine w) !! key = Some r → id ∈ w_used w → live (w_now w) id r = false →
  rtc any_step w w' → ∃ r', e_jobRecords (w_engine w') !! key = Some r' ∧ live (w_now w') id r' = false.
Proof.
  intros Hok Hr Hid Hl Hs. revert r Hok Hr Hid Hl. induction Hs as [|w w1 w' [s Hs] _ IH]; [by eauto|].
  intros r Hok Hr Hid Hl. destruct (step_record s w w1 key r Hs Hr) as (r1 & Hr1 & Hm).
  apply (IH r1); [by eapply step_world_ok|done| |].
  - destruct Hs as [_ _ _ _ -> _]. set_solver.
  - eapply moves_dead; [exact Hm| |].
    + intros Hg. destruct (step_ids _ _ _ _ Hs Hg) as (_ & _ & Hn). done.
    + eapply live_later; [|exact Hl]. apply Hs.
Qed.

Lemma step_outcome s w w' key r :
  step s w w' → world_ok w → e_jobRecords (w_engine w) !! key = Some r → is_Some (jr_archived r) →
  ∃ r', e_jobRecords (w_engine w') !! key = Some r' ∧ closing r' = closing r ∧ (report r' = report r ∨ reports s key).
Proof.
  intros Hs Hok Hr Ha. destruct (step_record s w w' key r Hs Hr) as (r' & Hr' & Hm). exists r'. split; [done|].
  eapply moves_outcome; [|exact Hm|by eapply step_before|done].
  intros id Hg. destruct (step_ids _ _ _ _ Hs Hg) as (? & ? & _). done.
Qed.

(** Steps other than storing the record's view of an outcome chapter of [key]. *)
Definition step_but_report (key : JobKey) (w w' : World) : Prop := ∃ s, step s w w' ∧ ¬ reports s key.

Lemma steps_closing w w' key r :
  world_ok w → e_jobRecords (w_engine w) !! key = Some r → is_Some (jr_archived r) → rtc any_step w w' →
  ∃ r', e_jobRecords (w_engine w') !! key = Some r' ∧ closing r' = closing r.
Proof.
  intros Hok Hr Ha Hs. revert r Hok Hr Ha. induction Hs as [|w w1 w' [s Hs] _ IH]; [by eauto|].
  intros r Hok Hr Ha. destruct (step_outcome s w w1 key r Hs Hok Hr Ha) as (r1 & Hr1 & Hv & _).
  destruct (IH r1) as (r' & Hr' & Hv'); [by eapply step_world_ok|done|by rewrite (closing_archived _ _ Hv)|].
  exists r'. split; [done|congruence].
Qed.

Lemma steps_outcome w w' key r :
  world_ok w → e_jobRecords (w_engine w) !! key = Some r → is_Some (jr_archived r) → rtc (step_but_report key) w w' →
  ∃ r', e_jobRecords (w_engine w') !! key = Some r' ∧ outcome r' = outcome r.
Proof.
  intros Hok Hr Ha Hs. revert r Hok Hr Ha. induction Hs as [|w w1 w' [s [Hs Hns]] _ IH]; [by eauto|].
  intros r Hok Hr Ha. destruct (step_outcome s w w1 key r Hs Hok Hr Ha) as (r1 & Hr1 & Hv & [Hp|]); [|done].
  destruct (IH r1) as (r' & Hr' & Ho); [by eapply step_world_ok|done|by rewrite (closing_archived _ _ Hv)|].
  exists r'. split; [done|]. rewrite Ho. unfold outcome. by rewrite Hv, Hp.
Qed.

Lemma steps_histories w w' : world_ok w → rtc any_step w w' → histories_grow (w_engine w) (w_engine w').
Proof.
  intros Hok Hs. revert Hok. induction Hs as [|w w1 w' [s Hs] _ IH]; [by intros _ k i ch|].
  intros Hok k i ch Hch. apply IH; [by eapply step_world_ok|].
  pose proof Hs as [_ _ _ Hc _ He]. rewrite He.
  eapply history_step_grows; [by apply Hok|by apply exec_history; [apply Hok|]|done].
Qed.

(** Steps other than clearing the crash concern of [key]. *)
Definition step_but_clear (key : JobKey) (w w' : World) : Prop := ∃ s, step s w w' ∧ s ≠ SClear key.

Lemma steps_blocked w w' key r :
  world_ok w → e_jobRecords (w_engine w) !! key = Some r → blocked (w_now w) r → rtc (step_but_clear key) w w' →
  world_ok w' ∧ ∃ r', e_jobRecords (w_engine w') !! key = Some r' ∧ blocked (w_now w') r'.
Proof.
  intros Hok Hr Hb Hs. revert r Hok Hr Hb. induction Hs as [|w w1 w' [s [Hs Hns]] _ IH]; [by eauto|].
  intros r Hok Hr Hb. destruct (step_record s w w1 key r Hs Hr) as (r1 & Hr1 & Hm).
  apply (IH r1); [by eapply step_world_ok|done|].
  eapply moves_blocked; [exact Hns| |exact Hm|by eapply step_before|].
  - intros id Hg. destruct (step_ids _ _ _ _ Hs Hg) as (? & ? & _). done.
  - destruct Hb as [|[? ?]]; [by left|right]. split; [done|]. eapply running_later; [|done]. apply Hs.
Qed.

(** Neither way of acquiring hands out a job whose record never gets ready. *)
Lemma blocked_not_polled ctx req now new_id e e' ls key r used :
  record_ok e now used key r → e_jobRecords e !! key = Some r → blocked now r →
  acquire_ready ctx req now new_id e = (e', Ok ls) → ∀ l, l ∈ ls → l_jobKey l ≠ key.
Proof.
  intros Hok Hr Hb Hp l Hl <-. apply poll_work_post in Hp as (ps & allowed & _ & _ & new & Heq & _ & _ & Hnew & _).
  simpl in Heq. subst new. apply list_elem_of_lookup in Hl as [n Hn].
  destruct (Hnew n l Hn) as (r' & Hr' & _ & e1 & HW & Hacq & _). rewrite Hr in Hr'. injection Hr' as <-.
  apply acquirable_spec in Hacq as (_ & Hs & _). revert Hs.
  apply (blocked_not_ready e1 _ now used (l_jobKey l) r); [|done].
  apply (record_ok_fwd e e1 now now used used); [by apply waits_fwd_rows|done..].
Qed.

Lemma blocked_not_leased ctx req now id e e' r used :
  record_ok e now used (gl_JobKey req) r → e_jobRecords e !! gl_JobKey req = Some r → blocked now r →
  ∀ l, acquire_job ctx req now id e ≠ (e', Ok (Some l)).
Proof.
  intros Hok Hr Hb l Hg. apply get_lease_post in Hg as (Hk & r' & Hr' & _ & (e1 & HW & Hacq & _) & _).
  rewrite Hr in Hr'. injection Hr' as <-. apply acquirable_spec in Hacq as (_ & Hs & _). revert Hs. rewrite Hk.
  apply (blocked_not_ready e1 _ now used (gl_JobKey req) r); [|done].
  apply (record_ok_fwd e e1 now now used used); [by apply waits_fwd_rows|done..].
Qed.

(** ** The promises *)

(** C21. In every reachable world, whatever the interleaving: goal and wait rows
    are filed under their keys; every job's record satisfies the lease, counter and
    status invariant [record_ok]; and every job has exactly one history, gap-free
    from ordinal 0. *)
Theorem runtime_invariant w : reachable w → world_ok w.
Proof. apply reachable_world_ok. Qed.

(** C22. A lost lease stays lost: once a lease ID that was handed out is not the
    live lease of a job, it never is again, and every keep-alive, renewal, chapter
    write, completion, payload failure, reschedule and cell creation begun under it
    is refused without a change, as are the later sections of such requests that
    check the lease again.  (A chapter write whose own check came before the lease
    was lost is not stopped: its later sections do not look at the lease.) *)
Theorem lost_lease_stays_lost w w' key id r :
  reachable w → e_jobRecords (w_engine w) !! key = Some r → id ∈ w_used w → live (w_now w) id r = false →
  rtc any_step w w' →
  (∃ r', e_jobRecords (w_engine w') !! key = Some r' ∧ live (w_now w') id r' = false) ∧
  (∀ q wk now, (w_now w' ≤ now)%Z →
    ∃ err, serve key id wk q now (w_engine w') = (w_engine w', Err err) ∧
      (err = ErrExecutionLeaseLost ∨ malformed_request id q)) ∧
  ∀ s now, uses key id s → (w_now w' ≤ now)%Z →
    ∃ err, exec s now (w_engine w') = (w_engine w', Err err) ∧ (err = ErrExecutionLeaseLost ∨ malformed s).
Proof.
  intros Hw Hr Hid Hl Hs.
  destruct (steps_dead w w' key id r (reachable_world_ok _ Hw) Hr Hid Hl Hs) as (r' & Hr' & Hl').
  split; [by exists r'|]. split.
  - intros q wk now Hle. eapply dead_request; [exact Hr'|by eapply live_later].
  - intros s now Hu Hle. eapply dead_refused; [exact Hu|exact Hr'|by eapply live_later].
Qed.

(** C23. A live lease excludes everybody else: until its expiry no step but its
    holder's own completion, payload failure or reschedule, a cancellation or a
    deletion ends it; in particular nobody else acquires the job. *)
Theorem live_lease_excludes s w w' key id wk r :
  reachable w → step s w w' → e_jobRecords (w_engine w) !! key = Some r →
  holds_lease (w_now w') id wk r = true → ¬ ends key id wk s →
  ∃ r', e_jobRecords (w_engine w') !! key = Some r' ∧ holds_lease (w_now w') id wk r' = true.
Proof.
  intros Hw Hs Hr Hh Hne. destruct (step_record s w w' key r Hs Hr) as (r' & Hr' & Hm). exists r'. split; [done|].
  destruct (moves_held s (w_now w') (w_engine w) (w_used w') key r r' id wk) as [|]; try done.
  - intros i Hg. destruct (step_ids _ _ _ _ Hs Hg) as (? & ? & _). done.
  - eapply step_before; [done|by apply reachable_world_ok|done].
Qed.

(** C24. The outcome of a job is final: once archived, its archival time, status,
    cancellation flag, completion status and detail never change, whatever runs
    afterwards, and it is never leased again; and nothing but a request that was
    already storing an outcome chapter for it (the second section of
    [storeRuntimeChapter], which looks at neither lease nor archival) changes the
    result and the error it reports. *)
Theorem outcome_is_final w w' key r :
  reachable w → e_jobRecords (w_engine w) !! key = Some r → is_Some (jr_archived r) → rtc any_step w w' →
  ∃ r', e_jobRecords (w_engine w') !! key = Some r' ∧ closing r' = closing r ∧ jr_leased r' = false ∧
    (rtc (step_but_report key) w w' → outcome r' = outcome r).
Proof.
  intros Hw Hr Ha Hs. pose proof (reachable_world_ok _ Hw) as Hok.
  destruct (steps_closing w w' key r Hok Hr Ha Hs) as (r' & Hr' & Hv).
  exists r'. split; [done|]. split; [done|]. split.
  - eapply archived_idle; [apply (steps_world_ok _ _ Hs Hok), Hr'|by rewrite (closing_archived _ _ Hv)].
  - intros Hb. destruct (steps_outcome w w' key r Hok Hr Ha Hb) as (r2 & Hr2 & Ho). congruence.
Qed.

(** C25. Histories are append-only: a stored chapter stays, unchanged, and the
    ordinals in use are always exactly those below the number of chapters. *)
Theorem history_append_only w w' key i ch :
  reachable w → chapters_of key (w_engine w) !! i = Some ch → rtc any_step w w' →
  chapters_of key (w_engine w') !! i = Some ch ∧ ch_Ordinal ch = i ∧
  ∀ j, is_Some (chapters_of key (w_engine w') !! j) ↔ (0 ≤ j < Z.of_nat (size (chapters_of key (w_engine w'))))%Z.
Proof.
  intros Hw Hch Hs. pose proof (reachable_world_ok _ Hw) as Hok.
  pose proof (steps_histories w w' Hok Hs key i ch Hch) as Hch'.
  assert (history (chapters_of key (w_engine w'))) as Hh.
  { pose proof (wo_histories _ (steps_world_ok _ _ Hs Hok)) as [_ Hh]. unfold chapters_of in *.
    destruct (e_runtimeChapters (w_engine w') !! key) as [chs|] eqn:Hk; [by destruct (Hh _ _ Hk)|].
    simpl in Hch'. by apply lookup_empty_Some in Hch'. }
  split; [done|]. split; [apply (Hh _ _ Hch')|]. intros j. by apply history_size.
Qed.

(** C26. Crash concern holds a job back: once an expired lease has been reclaimed five
    times in a row and the lease of the fifth reclaim (the sixth in all) has expired
    as well, no poll and no direct acquisition hands the job out, at any later time,
    until its crash concern is cleared. *)
Theorem crash_concern_blocks w w' key r :
  reachable w → e_jobRecords (w_engine w) !! key = Some r →
  jr_consecutiveExpirations r = DefaultThreshold → lease_running (w_now w) r = false →
  rtc (step_but_clear key) w w' →
  ∀ ctx now, (w_now w' ≤ now)%Z →
    (∀ req new_id e' ls, acquire_ready ctx req now new_id (w_engine w') = (e', Ok ls) → ∀ l, l ∈ ls → l_jobKey l ≠ key) ∧
    (∀ req id e' l, gl_JobKey req = key → acquire_job ctx req now id (w_engine w') ≠ (e', Ok (Some l))).
Proof.
  intros Hw Hr Hn Hrun Hs ctx now Hle.
  destruct (steps_blocked w w' key r (reachable_world_ok _ Hw) Hr (or_intror (conj Hn Hrun)) Hs) as (Hok & r' & Hr' & Hb).
  assert (record_ok (w_engine w') now (w_used w') key r') as Hrok.
  { eapply record_ok_fwd; [apply waits_fwd_refl|exact Hle|reflexivity|by apply Hok]. }
  assert (blocked now r') as Hb' by (destruct Hb as [|[? ?]]; [by left|right; split; [done|by eapply running_later]]).
  split.
  - intros req new_id e' ls Hp. by eapply blocked_not_polled.
  - intros req id e' l <-. by eapply blocked_not_leased.
Qed.

(** C27. The runtime refines the abstract life cycle: seen through [phase_of], every
    step takes a job along labelled transitions only (queued to held by an
    acquisition under a new ID, held to queued by its holder's reschedule or by
    expiry, to ended by its holder, a cancellation, a deletion or a failed task
    answer), and nothing leaves the ended phase. *)
Theorem lifecycle_refinement s w w' key r :
  reachable w → step s w w' → e_jobRecords (w_engine w) !! key = Some r →
  ∃ p r', e_jobRecords (w_engine w') !! key = Some r' ∧
    (p = phase_of (w_now w) r ∨ (∃ id wk, phase_of (w_now w) r = Held id wk) ∧ p = Queued) ∧
    rtc (phase_step s (w_engine w) key) p (phase_of (w_now w') r').
Proof.
  intros Hw Hs Hr. destruct (step_record s w w' key r Hs Hr) as (r' & Hr' & Hm).
  exists (phase_of (w_now w') r), r'. split; [done|]. split; [apply phase_later, Hs|].
  eapply moves_phase; [|exact Hm|eapply step_before; [done|by apply reachable_world_ok|done]].
  intros i Hg. destruct (step_ids _ _ _ _ Hs Hg) as (? & ? & _). done.
Qed.

(** What the acquisition of [PollWork] hands out, before the preflight of scheduled
    jobs. *)
Lemma acquire_ready_sound w ctx req now new_id e' ls :
  reachable w → (w_now w ≤ now)%Z → (∀ n, new_id n ≠ "") →
  acquire_ready ctx req now new_id (w_engine w) = (e', Ok ls) →
  ∃ ps allowed,
    normalizeMetadataPredicates (pw_MetadataEquals req) = Ok ps ∧
    Select ctx (pw_TenantId req) (pw_CellNames req) "jobs.acquire" (cellsLocked (pw_TenantId req) (w_engine w)) = Ok allowed ∧
    (length ls ≤ Nat.max 1 (Z.to_nat (pw_Limit req)))%nat ∧ NoDup (l_jobKey <$> ls) ∧
    ∀ n l, ls !! n = Some l →
      (∃ r, e_jobRecords (w_engine w) !! l_jobKey l = Some r ∧ selected req allowed ps (l_jobKey l) r) ∧
      granted now (pw_Routes req) (pw_WorkerID req) (new_id n) (w_engine w) e' l.
Proof.
  intros Hw Hle Hne Hp. apply poll_work_post in Hp as (ps & allowed & Hsel & Hps & new & Heq & Hsub & Hlen & Hnew & _).
  simpl in Heq, Hlen, Hnew. subst new. exists ps, allowed. split; [done|]. split; [done|].
  split; [destruct (Z.leb_spec (pw_Limit req) 0); lia|].
  split; [eapply sublist_NoDup; [apply (range_nodup (e_jobRecords (w_engine w)))|exact Hsub]|].
  intros n l Hl. destruct (Hnew n l Hl) as (r & Hr & Hs & Ht). split; [by exists r|].
  eapply (taken_granted _ _ _ _ _ _ _ (w_used w)); [apply Hne| |exact Hr|exact Ht].
  eapply record_ok_fwd; [apply waits_fwd_refl|exact Hle|reflexivity|]. by apply (wo_records _ (reachable_world_ok _ Hw)).
Qed.

(** What the acquisition of [GetJobLease] hands out is sound: the job it was asked for, in a cell
    the caller may take work from, granted as above; no other record changes. *)
Theorem get_job_lease_sound w ctx req now id e' l :
  reachable w → (w_now w ≤ now)%Z → id ≠ "" →
  acquire_job ctx req now id (w_engine w) = (e', Ok (Some l)) →
  l_jobKey l = gl_JobKey req ∧ granted now (gl_Routes req) (gl_WorkerID req) id (w_engine w) e' l ∧
  (∃ r, e_jobRecords (w_engine w) !! gl_JobKey req = Some r ∧
        AuthorizeCell ctx (jk_TenantId (gl_JobKey req)) (rs_CellID (jr_cell r)) "jobs.acquire" = Ok tt) ∧
  ∀ k, k ≠ gl_JobKey req → e_jobRecords e' !! k = e_jobRecords (w_engine w) !! k.
Proof.
  intros Hw Hle Hne Hg. apply get_lease_post in Hg as (Hk & r & Hr & Ha & Ht & Hrest).
  split; [done|]. split; [|split; [by exists r|done]]. rewrite <- Hk in Hr.
  eapply (taken_granted _ _ _ _ _ _ _ (w_used w)); [exact Hne| |exact Hr|exact Ht].
  eapply record_ok_fwd; [apply waits_fwd_refl|exact Hle|reflexivity|]. by apply (wo_records _ (reachable_world_ok _ Hw)).
Qed.
End promises.

(** ** The promises on the run of [ToyScenario] *)
Lemma runtime_invariant_witness : world_ok w4.
Proof. apply (runtime_invariant w4). exact reach4. Defined.

(** A completion whose check came before the job was cancelled: its chapter is
    stored, and replaces the result and the error of the cancelled job. *)
Definition late_outcome : Chapter :=
  mkChapter 1 "$job" (Some (JobAttemptOutcomeChapter (ApplicationOutputOutcome "{}"))) "h" 20 (JObj []) [].
Definition late_completion : CompleteExecutionRequest := mkComplete None "" "" (Some late_outcome) [].
Lemma late_outcome_overwrites :
  is_ok (complete_check job "A" "w1" late_completion 11 e4) = true ∧ jr_err r5 = Some JobErrCanceled ∧
  ∃ r, e_jobRecords (run_sections e5 [(SStoreHistory job 1 late_outcome, 13); (SStoreView job 1 late_outcome, 13)])%Z !! job = Some r ∧
    jr_err r = None ∧ jr_result r ≠ jr_result r5 ∧ closing r = closing r5.
Proof.
  split; [vm_compute; reflexivity|]. split; [reflexivity|].
  eexists. split; [vm_compute; reflexivity|]. vm_compute. by repeat split.
Qed.

Definition late_chapter : Chapter :=
  mkChapter 1 "t" (Some (TaskAttemptOutcomeChapter (ApplicationOutputOutcome "{}"))) "h" 20 (JObj []) [].
Lemma lost_lease_stays_lost_witness :
  exec (SKeepAlive job "A" "w1" 10) 105 x1 = (x1, Err ErrExecutionLeaseLost) ∧
  PutChapter None (mkPutChapter "A" job 1 late_chapter []) 105 x1 = (x1, Err ErrExecutionLeaseLost).
Proof.
  destruct (lost_lease_stays_lost u1 u1 job "A" q1 (proj1 expire_reach) expired1) as (_ & Hreq & Hall);
    [set_solver|vm_compute; reflexivity|reflexivity|].
  split.
  - destruct (Hall (SKeepAlive job "A" "w1" 10) 105%Z) as (err & He & [->|[]]); [by split|done|exact He].
  - destruct (Hreq (RPutChapter None 1 late_chapter []) "w1" 105%Z) as (err & He & [->|Hm]); [done|exact He|].
    destruct Hm as [Hm|[Hm|Hm]]; [discriminate Hm|lia|by destruct Hm].
Defined.

Lemma live_lease_excludes_witness :
  ∃ r', e_jobRecords (exec (take "C") 15 e4).1 !! job = Some r' ∧ holds_lease 15 "A" "w1" r' = true.
Proof.
  apply (live_lease_excludes (take "C") w4 (mkWorld 15 {["g"; "A"; "C"]} (exec (take "C") 15 e4).1) job "A" "w1" r4);
    [exact reach4| |exact at4|vm_compute; reflexivity|intros []].
  apply section_step; [done|apply NoDup_singleton|set_solver|done|done|set_solver|reflexivity].
Defined.

Lemma outcome_is_final_witness :
  ∃ r', e_jobRecords e5 !! job = Some r' ∧ outcome r' = outcome r5 ∧ jr_leased r' = false.
Proof.
  destruct (outcome_is_final w5 w5 job r5) as (r' & Hr' & _ & Hl & Ho); [exact reach5|exact at5|by eexists|reflexivity|].
  exists r'. split; [exact Hr'|]. split; [by apply Ho|exact Hl].
Defined.

Lemma history_append_only_witness : chapters_of job e4 !! 0%Z = Some start0.
Proof.
  apply (history_append_only w3 w4 job 0 start0); [exact reach3|exact start3|].
  apply rtc_once. exists (take "A"). exact step4.
Defined.

Lemma crash_concern_blocks_witness :
  jr_consecutiveExpirations q5 = 5%Z ∧ ∀ id e' l, acquire_job boss want 700 id x5 ≠ (e', Ok (Some l)).
Proof.
  split; [reflexivity|]. intros id e' l.
  destruct (crash_concern_blocks u6 u6 job q5 (proj2 expire_reach) expired5) with (ctx := boss) (now := 700%Z) as [_ Hg];
    [reflexivity|vm_compute; reflexivity|reflexivity|done|].
  by apply Hg.
Defined.

Lemma lifecycle_refinement_witness :
  ∃ p r', e_jobRecords e4 !! job = Some r' ∧
    (p = Queued ∨ (∃ id wk, Queued = Held id wk) ∧ p = Queued) ∧
    rtc (phase_step (take "A") e3 job) p (phase_of 10 r').
Proof. exact (lifecycle_refinement (take "A") w3 w4 job r3 reach3 step4 at3). Defined.

Lemma get_job_lease_sound_witness : granted 10 [mkRoute "w" ""] "w1" "A" e3 e4 l4.
Proof. by apply (get_job_lease_sound w3 boss want 10 "A" e4 l4 reach3); [..|exact lease4]. Defined.
