(* ===== verification/DelegationTheorems.v ===== *)
(** * DelegationTheorems: what restricted leases promise

    The claims about [Delegation], [Grants] and [DelegationServer]: selectors are
    compared exactly, a chain of restrictions only narrows, a derived grant is
    admitted nowhere its parent is not, credentials never outlive their lease, and
    in the in-memory runtime a grant dies with its lease. *)

From S2P Require Import Prelude Types GoalStore Json Cells Metadata Chapters Schedule ScheduleRuns ToyState ToyLease ToyChapters ToyPrepare ToySubmit ToySchedule ToyRestart ToyRun ToyMoves ToyTables ToyLifecycle ToyHistory ToyWorld ToyTheorems.
From S2P Require Import Base64 Delegation Grants DelegationServer.
Open Scope Z_scope.

(** ** The boundary and the comparison of policies *)
Section boundary.
Context {CT : CellText} {RB : RequestBodies}.

Lemma subset_parts c p : permissionsSubset c p = true →
  (∀ x, dp_CreateCells c = Some x → ∃ y, dp_CreateCells p = Some y ∧ namesSubset x y = true) ∧
  (∀ x, dp_Submit c = Some x → ∃ y, dp_Submit p = Some y ∧ namesSubset (ds_JobTypes x) (ds_JobTypes y) = true ∧
     namesSubset (ds_JobIDs x) (ds_JobIDs y) = true ∧ cellNamesSubset (ds_CellNames x) (ds_CellNames y) = true) ∧
  namesSubset (mkNames false (dp_Secrets c)) (mkNames false (dp_Secrets p)) = true ∧
  chaptersSubset (dp_Read c) (dp_Read p) = true ∧
  (∀ x, dp_Write c = Some x → ∃ y, dp_Write p = Some y ∧ ordinalsSubset (dw_Ordinals x) (dw_Ordinals y) = true ∧
     namesSubset (dw_TaskTypes x) (dw_TaskTypes y) = true ∧ namesSubset (dw_ArtifactNames x) (dw_ArtifactNames y) = true).
Proof.
  unfold permissionsSubset. rewrite !andb_true_iff. intros [[[[Hc Hs] Hse] Hr] Hw]. split_and!; [| |done|done|].
  - intros x Hx. rewrite Hx in Hc. destruct (dp_CreateCells p) as [y|]; [|done]. by exists y.
  - intros x Hx. rewrite Hx in Hs. destruct (dp_Submit p) as [y|]; [|done]. exists y. rewrite !andb_true_iff in Hs. by destruct Hs as [[? ?] ?].
  - intros x Hx. rewrite Hx in Hw. destruct (dp_Write p) as [y|]; [|done]. exists y. rewrite !andb_true_iff in Hw. by destruct Hw as [[? ?] ?].
Qed.

Lemma secrets_subset c p : namesSubset (mkNames false (dp_Secrets c)) (mkNames false (dp_Secrets p)) = true →
  (0 <? length (dp_Secrets c))%nat = true → (0 <? length (dp_Secrets p))%nat = true.
Proof.
  destruct (dp_Secrets c) as [|n l]; [done|]. simpl. destruct (dp_Secrets p) as [|m l']; [|done].
  unfold namesSubset. simpl. done.
Qed.

Lemma operation_monotone c p method path :
  validateDelegationPolicy c = Ok tt → validateDelegationPolicy p = Ok tt → permissionsSubset c p = true →
  operation_allowed c method path = true → operation_allowed p method path = true.
Proof.
  intros Hvc Hvp (Hc & Hs & Hse & Hr & Hw)%subset_parts. unfold operation_allowed.
  destruct (_ && bool_decide (length path = 8%nat)); [done|].
  destruct (_ && String.eqb _ "chapters").
  { rewrite !bool_decide_eq_true. intros [x Hx]. rewrite Hx in Hr. destruct (dp_Read p) as [y|]; [by exists y|done]. }
  destruct (String.eqb method "GET" && _).
  { destruct (Atoi _) as [n|]; [|done]. apply chaptersSubset_sound; [..|done]; intros x; by apply policy_chapters. }
  destruct (_ && String.eqb _ "secrets/resolve"); [by apply secrets_subset|].
  destruct (_ && String.eqb _ "add_chapter").
  { rewrite !bool_decide_eq_true. intros [x Hx]. destruct (Hw x Hx) as (y & Hy & _). by exists y. }
  destruct (_ && String.eqb _ "cells/resolve").
  { rewrite !bool_decide_eq_true. intros [x Hx]. destruct (Hs x Hx) as (y & Hy & _). by exists y. }
  destruct (_ && String.eqb _ "cells/lookup"); [done|].
  destruct (_ && String.eqb _ "cells").
  { rewrite !bool_decide_eq_true. intros [x Hx]. destruct (Hc x Hx) as (y & Hy & _). by exists y. }
  destruct (_ && String.eqb _ "jobs").
  { destruct (dp_Submit c) as [x|]; [|done]. destruct (Hs x eq_refl) as (y & -> & _ & Hid & _).
    unfold namesSubset in Hid. destruct (dn_Any (ds_JobIDs y)), (dn_Any (ds_JobIDs x)); done. }
  destruct (String.eqb method "PUT" && _); [|done].
  destruct (PathUnescape _) as [id|]; [|done].
  destruct (dp_Submit c) as [x|]; [|done]. destruct (Hs x eq_refl) as (y & -> & _ & Hid & _). by apply namesSubset_sound.
Qed.

Lemma cell_selector_monotone c p cell : permissionsSubset c p = true →
  cell_selector c cell = true → cell_selector p cell = true.
Proof.
  intros (_ & Hs & _)%subset_parts. unfold cell_selector. destruct (dp_Submit c) as [x|]; [|done].
  destruct (Hs x eq_refl) as (y & -> & _ & _ & Hcn). by apply cellNamesSubset_sound.
Qed.

Lemma body_monotone c p suffix raw : permissionsSubset c p = true →
  body_refusal c suffix raw = None → body_refusal p suffix raw = None.
Proof.
  intros Hsub. pose proof (subset_parts _ _ Hsub) as (Hc & Hs & _ & _ & Hw). unfold body_refusal.
  destruct (String.eqb suffix "cells").
  { destruct (name_body raw) as [n|]; [|done]. destruct (negb (is_ok _)); [done|].
    destruct (dp_CreateCells c) as [x|]; [|done]. destruct (Hc x eq_refl) as (y & -> & Hn).
    destruct (namesAllow x n) eqn:Hx; [|done]. by rewrite (namesSubset_sound _ _ _ Hn Hx). }
  destruct (String.eqb suffix "cells/resolve").
  { destruct (cell_body raw) as [n|]; [|done]. destruct (negb (is_ok _)); [done|].
    destruct (cell_selector c n) eqn:Hx; [|done]. by rewrite (cell_selector_monotone _ _ _ Hsub Hx). }
  destruct (String.eqb suffix "add_chapter").
  { destruct (chapter_body raw) as [ch|]; [|done]. destruct (dp_Write c) as [x|]; [|done].
    destruct (Hw x eq_refl) as (y & -> & Ho & Ht & Ha).
    destruct (Contains (dw_Ordinals x) (wc_Ordinal ch)) eqn:Eo; [|done].
    destruct (namesAllow (dw_TaskTypes x) (wc_TaskType ch)) eqn:Et; [|done].
    rewrite (ordinalsSubset_sound _ _ _ Ho Eo), (namesSubset_sound _ _ _ Ht Et). simpl.
    destruct (negb (wc_TaskOutcome ch)); [done|].
    destruct (forallb (namesAllow (dw_ArtifactNames x)) (wc_Uploads ch)) eqn:Ea; [|done].
    assert (forallb (namesAllow (dw_ArtifactNames y)) (wc_Uploads ch) = true) as ->; [|done].
    eapply forallb_impl; [|exact Ea]. intros a. by apply namesSubset_sound. }
  destruct (submit_body raw) as [b|]; [|done]. destruct (dp_Submit c) as [x|] eqn:Ex; [|done].
  destruct (Hs x eq_refl) as (y & -> & Ht & _ & _).
  destruct (cell_selector c (sb_Cell b)) eqn:Ec; [|done]. rewrite (cell_selector_monotone _ _ _ Hsub Ec).
  destruct (namesAllow (ds_JobTypes x) (sb_JobType b)) eqn:Ety; [|done]. by rewrite (namesSubset_sound _ _ _ Ht Ety).
Qed.

Lemma request_monotone c p method body path :
  validateDelegationPolicy c = Ok tt → validateDelegationPolicy p = Ok tt → permissionsSubset c p = true →
  request_refusal c method body path = None → request_refusal p method body path = None.
Proof.
  intros Hvc Hvp Hsub. unfold request_refusal. destruct (_ && _); [done|].
  destruct (operation_allowed c method path) eqn:Ho; [|done].
  rewrite (operation_monotone _ _ _ _ Hvc Hvp Hsub Ho). simpl. destruct (_ || _ || _); [done|].
  destruct body as [raw|]; [|done]. destruct (_ <? _); [done|]. by apply body_monotone.
Qed.
End boundary.

(** ** Chains of restrictions *)

(** [g'] allows no more than [g], and for no longer. *)
Record narrower `{CellText} `{RequestBodies} (g g' : DelegationInfo) : Prop := mkNarrower {
  nr_permits : ∀ a, permits (di_Permissions g') a = true → permits (di_Permissions g) a = true;
  nr_requests : ∀ method body path, request_refusal (di_Permissions g') method body path = None →
                request_refusal (di_Permissions g) method body path = None;
  nr_deadline : ∀ t, di_NotAfter g = Some t → ∃ t', di_NotAfter g' = Some t' ∧ t' ≤ t
}.
#[export] Instance narrower_preorder `{CellText} `{RequestBodies} : PreOrder narrower.
Proof.
  split.
  - intros g. split; [done|done|]. intros t Ht. by exists t.
  - intros a b c [Ha1 Ha2 Ha3] [Hb1 Hb2 Hb3]. split; [auto|auto|]. intros t Ht.
    destruct (Ha3 t Ht) as (t1 & Ht1 & Hle). destruct (Hb3 t1 Ht1) as (t2 & Ht2 & Hle2). exists t2. split; [done|lia].
Qed.

Lemma is_ok_unit (r : result ()) : is_ok r = true → r = Ok tt.
Proof. by destruct r as [[]|]. Qed.

Section chains.
Context `{CellText} `{Macaroons} `{GrantKeys} `{GrantText} `{RequestBodies}.

(** The decoded restriction of a caveat. *)
Definition step_of (cv : Caveat) (step : grantStep) : Prop :=
  step_value (cv_Id cv) = Some step ∧ step_text step = Ok (cv_Id cv) ∧ valid_step step = true.

Lemma valid_step_policy step : valid_step step = true → validateDelegationPolicy (gs_Permissions step) = Ok tt.
Proof. unfold valid_step. rewrite !andb_true_iff. intros [[_ Hp] _]. by apply is_ok_unit. Qed.

Lemma read_step_inv first g cv g' : read_step first g cv = Some g' →
  ∃ step, step_of cv step ∧ di_ID g' = gs_ID step ∧ di_Permissions g' = gs_Permissions step ∧
    (first = false → permissionsSubset (gs_Permissions step) (di_Permissions g) = true) ∧
    di_NotAfter g' = match gs_NotAfter step with Some t => Some t | None => di_NotAfter g end ∧
    (∀ t limit, gs_NotAfter step = Some t → di_NotAfter g = Some limit → t ≤ limit).
Proof.
  unfold read_step. destruct (_ || _); [done|].
  destruct (decodeCanonical _ _ _) as [step|] eqn:Hd; [|done]. apply decodeCanonical_spec in Hd as [Hv Ht]. simpl.
  destruct (valid_step step) eqn:Hok; [|done]. simpl.
  destruct (negb first && _) eqn:Hsub; [done|].
  destruct (match di_NotAfter g, gs_NotAfter step with Some _, Some _ => _ | _, _ => _ end) eqn:Hlim; [done|].
  intros [= <-]. exists step. split; [done|]. split; [done|]. split; [done|]. split; [|split; [done|]].
  - intros ->. simpl in Hsub. by apply negb_false_iff in Hsub.
  - intros t limit Hst Hg. rewrite Hst, Hg in Hlim. unfold After in Hlim. lia.
Qed.

Lemma read_step_narrower g cv g' :
  validateDelegationPolicy (di_Permissions g) = Ok tt → read_step false g cv = Some g' →
  narrower g g' ∧ validateDelegationPolicy (di_Permissions g') = Ok tt.
Proof.
  intros Hg (step & (_ & _ & Hok) & _ & Hp & Hsub & Hna & Hlim)%read_step_inv.
  pose proof (valid_step_policy _ Hok) as Hv. rewrite Hp. split; [|done]. split.
  - intros a. rewrite Hp. by apply permissionsSubset_sound, Hsub.
  - intros method body path. rewrite Hp. by apply request_monotone, Hsub.
  - intros t Ht. rewrite Hna. destruct (gs_NotAfter step) as [t'|] eqn:Hs; [|by exists t].
    exists t'. split; [done|]. by eapply Hlim.
Qed.

Lemma read_steps_narrower g cvs g' :
  validateDelegationPolicy (di_Permissions g) = Ok tt → read_steps false g cvs = Some g' →
  narrower g g' ∧ validateDelegationPolicy (di_Permissions g') = Ok tt.
Proof.
  revert g. induction cvs as [|cv cvs IH]; intros g Hg; simpl; [intros [= <-]; by split|].
  destruct (read_step false g cv) as [g1|] eqn:Hg1; [|done]. simpl. intros Hg2.
  destruct (read_step_narrower _ _ _ Hg Hg1) as [Hn1 Hv1]. destruct (IH g1 Hv1 Hg2) as [Hn2 Hv2].
  split; [|done]. by etrans.
Qed.

Lemma read_steps_app first g l1 l2 :
  read_steps first g (l1 ++ l2) = g1 ← read_steps first g l1; read_steps (first && bool_decide (l1 = [])) g1 l2.
Proof.
  revert first g. induction l1 as [|cv l1 IH]; intros first g; simpl.
  - by rewrite andb_true_r.
  - destruct (read_step first g cv) as [g1|]; simpl; [|done]. rewrite IH. by rewrite andb_false_r.
Qed.

Lemma read_steps_first cv cvs g : read_steps true no_delegation (cv :: cvs) = Some g →
  validateDelegationPolicy (di_Permissions g) = Ok tt.
Proof.
  simpl. destruct (read_step true no_delegation cv) as [g1|] eqn:Hg1; [|done]. simpl.
  apply read_step_inv in Hg1 as (step & (_ & _ & Hok) & _ & Hp & _).
  intros [_ Hv]%read_steps_narrower; [done|]. rewrite Hp. by apply valid_step_policy.
Qed.

Lemma read_steps_year first g cvs g' :
  (∀ t, di_NotAfter g = Some t → t < year_10000) → read_steps first g cvs = Some g' →
  ∀ t, di_NotAfter g' = Some t → t < year_10000.
Proof.
  revert first g. induction cvs as [|cv cvs IH]; intros first g Hg; simpl; [by intros [= <-]|].
  destruct (read_step first g cv) as [g1|] eqn:Hs; [|done]. simpl. apply IH.
  apply read_step_inv in Hs as (step & (_ & _ & Hok) & _ & _ & _ & Hna & _). intros t. rewrite Hna.
  unfold valid_step in Hok. destruct (gs_NotAfter step) as [u|]; [|by apply Hg].
  intros [= <-]. rewrite !andb_true_iff in Hok. destruct Hok as [_ Hu]. simpl in Hu. lia.
Qed.

(** Extending a restricted chain narrows it. *)
Lemma extension_narrower l extra g g' : l ≠ [] →
  read_steps true no_delegation l = Some g → read_steps true no_delegation (l ++ extra) = Some g' → narrower g g'.
Proof.
  intros Hne Hl. rewrite read_steps_app, Hl. simpl. rewrite bool_decide_eq_false_2 by done.
  destruct l as [|cv l]; [done|]. intros He. apply (read_steps_narrower g extra g'); [|done]. by eapply read_steps_first.
Qed.

(** Every restriction of a chain bounds the policy that is read from it. *)
Lemma chain_bounds cvs g : read_steps true no_delegation cvs = Some g → ∀ cv, cv ∈ cvs →
  ∃ step, step_of cv step ∧ (∀ a, permits (di_Permissions g) a = true → permits (gs_Permissions step) a = true) ∧
    (∀ t, gs_NotAfter step = Some t → ∃ t', di_NotAfter g = Some t' ∧ t' ≤ t).
Proof.
  intros Hr cv (l1 & l2 & ->)%list_elem_of_split.
  replace (l1 ++ cv :: l2) with ((l1 ++ [cv]) ++ l2) in Hr by (by rewrite <- app_assoc).
  pose proof Hr as Hfull. rewrite read_steps_app in Hr.
  destruct (read_steps true no_delegation (l1 ++ [cv])) as [g1|] eqn:Hg1; [|done].
  assert (l1 ++ [cv] ≠ []) as Hne by (by destruct l1).
  pose proof (extension_narrower _ l2 g1 g Hne Hg1 Hfull) as [Hp _ Hd].
  rewrite read_steps_app in Hg1. destruct (read_steps true no_delegation l1) as [g0|]; [|done]. simpl in Hg1.
  destruct (read_step _ g0 cv) as [g1'|] eqn:Hs; [|done]. simpl in Hg1. injection Hg1 as ->.
  apply read_step_inv in Hs as (step & Hst & _ & Hpe & _ & Hna & _). exists step. split; [done|]. split.
  - intros a Ha. rewrite <- Hpe. by apply Hp.
  - intros t Ht. apply Hd. by rewrite Hna, Ht.
Qed.
End chains.

(** ** Grants as tokens *)
Section tokens.
Context `{CellText} `{Macaroons} `{GrantKeys} `{GrantText} `{RequestBodies} `{LeaseChecker}.

Lemma read_grant_inv allow m root c : read_grant allow m = Some (root, c) →
  decodeCanonical root_value root_text (mc_Id m) = Some root ∧ valid_root root = true ∧
  (length (mc_Caveats m) ≤ maxDelegationDepth)%nat ∧
  (allow = false → mc_Caveats m ≠ [] ∧ str_empty (gp_WorkerID (gr_Parent root)) = false) ∧
  c = mkDelegationClaims "" (parent_claims (gr_Parent root)) (de_Grant c) zero_route 0 ∧
  read_steps true no_delegation (mc_Caveats m) = Some (de_Grant c).
Proof.
  unfold read_grant. destruct (decodeCanonical _ _ _) as [root'|]; [|done]. simpl.
  destruct (valid_root root') eqn:Hv; [|done]. simpl. destruct (_ || _) eqn:Hcond; [done|].
  apply orb_false_iff in Hcond as [Hlen Hallow]. apply Nat.ltb_ge in Hlen.
  destruct (read_steps _ _ _) as [g|]; [|done]. simpl. intros [= -> <-]. split_and!; try done.
  intros ->. simpl in Hallow. apply orb_false_iff in Hallow as [Hne Hw]. split; [|done].
  by apply bool_decide_eq_false in Hne.
Qed.

(** What is read does not depend on whether roots are allowed. *)
Lemma read_grant_restricted m root c :
  read_grant true m = Some (root, c) → mc_Caveats m ≠ [] → str_empty (gp_WorkerID (gr_Parent root)) = false →
  read_grant false m = Some (root, c).
Proof.
  unfold read_grant. destruct (decodeCanonical _ _ _) as [root'|]; [|done]. simpl.
  destruct (valid_root root'); [|done]. simpl. intros Hr Hne Hw.
  assert (root' = root) as ->. { destruct (_ || _); [done|]. destruct (read_steps _ _ _); [|done]. simpl in Hr. congruence. }
  rewrite Hw, bool_decide_eq_false_2 by done. simpl. by rewrite orb_false_r in *.
Qed.

Lemma decode_macaroon_inv token m : decode_macaroon token = Some m →
  isDelegationToken token = true ∧ mc_V2 m = true ∧ mc_Location m = "".
Proof.
  unfold decode_macaroon. destruct (isDelegationToken token); [|done]. simpl. destruct (_ <? _)%nat; [done|].
  destruct (decodeTokenBase64 _) as [raw|]; [|done]. simpl. destruct (UnmarshalBinary raw) as [m'|]; [|done]. simpl.
  destruct (mc_V2 m') eqn:Hv; [|done]. destruct (str_empty (mc_Location m')) eqn:Hl; [|done]. simpl.
  destruct (MarshalBinary m') as [t|]; [|done]. destruct (String.eqb raw t); [|done]. intros [= <-].
  by rewrite str_empty_spec in Hl.
Qed.

Lemma decodeGrant_inv token allow m root c : decodeGrant token allow = Ok (m, root, c) ↔
  decode_macaroon token = Some m ∧ read_grant allow m = Some (root, c).
Proof.
  unfold decodeGrant. destruct (decode_macaroon token) as [m'|]; simpl; [|naive_solver].
  destruct (read_grant allow m') as [[root' c']|] eqn:Hr; simpl; [|naive_solver].
  split; [intros [= <- <- <-]; done|]. intros [[= ->] Hr']. rewrite Hr in Hr'. by injection Hr' as -> ->.
Qed.

Lemma verifyGrant_inv s token allow m root c : verifyGrant s token allow = Ok (m, root, c) ↔
  decodeGrant token allow = Ok (m, root, c) ∧ gr_Audience root = audienceID s ∧ gr_KeyID root = grantKeyID s ∧
  VerifySignature (grantKey s) m = true.
Proof.
  unfold verifyGrant. destruct (decodeGrant token allow) as [[[m' root'] c']|]; simpl; [|naive_solver].
  destruct (String.eqb_spec (gr_Audience root') (audienceID s)); simpl; [|split; [done|intros ([= <- <- <-] & ? & _); done]].
  destruct (String.eqb_spec (gr_KeyID root') (grantKeyID s)); simpl; [|split; [done|intros ([= <- <- <-] & _ & ? & _); done]].
  destruct (VerifySignature (grantKey s) m') eqn:Hv; simpl; [|split; [done|intros ([= <- <- <-] & _ & _ & ?); congruence]].
  split; [intros [= <- <- <-]; done|]. by intros ([= <- <- <-] & _).
Qed.

(** *** Requests under an extension of a grant *)

(** [token'] carries the restrictions of [token] and more, under the same root. *)
Definition extends (token token' : string) : Prop :=
  ∃ m m' extra, decode_macaroon token = Some m ∧ decode_macaroon token' = Some m' ∧
    mc_Id m' = mc_Id m ∧ mc_Caveats m' = mc_Caveats m ++ extra.

Lemma extends_claims s token token' c c' : extends token token' →
  parseDelegation s token = Ok c → parseDelegation s token' = Ok c' →
  de_Parent c' = de_Parent c ∧ narrower (de_Grant c) (de_Grant c').
Proof.
  intros (m & m' & extra & Hm & Hm' & Hid & Hcv). unfold parseDelegation. intros Hp Hp'.
  apply bind_ok in Hp as ([[n root] d] & Hp & [= <-]), Hp' as ([[n' root'] d'] & Hp' & [= <-]). simpl.
  apply verifyGrant_inv in Hp as (Hp & _), Hp' as (Hp' & _).
  apply decodeGrant_inv in Hp as [Hn Hr], Hp' as [Hn' Hr']. rewrite Hm in Hn. rewrite Hm' in Hn'.
  injection Hn as <-. injection Hn' as <-.
  apply read_grant_inv in Hr as (Hroot & _ & _ & Hne & Hpar & Hg), Hr' as (Hroot' & _ & _ & _ & Hpar' & Hg').
  destruct (Hne eq_refl) as [Hne' _]. rewrite Hid, Hroot in Hroot'. injection Hroot' as <-.
  split; [by rewrite Hpar, Hpar'|]. rewrite Hcv in Hg'. by eapply extension_narrower.
Qed.

Lemma extension_admitted s token token' r now c :
  extends token token' → parseDelegation s token = Ok c →
  prepareDelegationRequest s (mkRequest (rq_Method r) [token'] (rq_Path r) (rq_Body r)) now = None →
  prepareDelegationRequest s (mkRequest (rq_Method r) [token] (rq_Path r) (rq_Body r)) now = None.
Proof.
  intros Hext Hp. unfold prepareDelegationRequest. simpl.
  pose proof Hext as (m & m' & extra & Hm & Hm' & _).
  apply decode_macaroon_inv in Hm as (-> & _), Hm' as (-> & _). simpl.
  destruct (lease_path _) as [[key lease]|]; [|done]. unfold checkedDelegation. rewrite Hp.
  destruct (parseDelegation s token') as [c'|] eqn:Hp'; [|done].
  destruct (extends_claims _ _ _ _ _ Hext Hp Hp') as [Hpar [_ Hreq Hdead]].
  unfold delegation_key. rewrite Hpar. destruct (negb _); [done|].
  destruct (parentValidity (de_Parent c) now) as [v|]; [|done].
  destruct (opt_all (λ t, After t now) (di_NotAfter (de_Grant c'))) eqn:Ht'; [|done].
  assert (opt_all (λ t, After t now) (di_NotAfter (de_Grant c)) = true) as ->.
  { destruct (di_NotAfter (de_Grant c)) as [t|]; [|done]. destruct (Hdead t eq_refl) as (t' & Ht & Hle).
    rewrite Ht in Ht'. simpl in *. unfold After in *. lia. }
  simpl. apply Hreq.
Qed.

(** *** Deriving a grant *)

(** The policy the derived grant asks for. *)
Definition requested (m : Macaroon) (c : delegationClaims) (req : CreateDelegationRequest) : DelegationPermissions :=
  inherit_cells (mc_Caveats m) (di_Permissions (de_Grant c)) (cd_Permissions req).
Definition deadline (c : delegationClaims) (req : CreateDelegationRequest) : option time :=
  match cd_NotAfter req with Some t => Some t | None => di_NotAfter (de_Grant c) end.
Definition new_step (m : Macaroon) (c : delegationClaims) (req : CreateDelegationRequest) (id : string) : grantStep :=
  mkStep "restrict" 1 id (requested m c req) (deadline c req) true.

(** JSON gives a structure back, as it does when its strings are valid UTF-8. *)
Definition json_keeps {A} (value : string → option A) (text : A → result string) (a : A) : Prop :=
  ∀ raw, text a = Ok raw → value raw = Some a.

Lemma guard_ok b e x : guard_err b e = Ok x ↔ b = true ∧ x = tt.
Proof. unfold guard_err. destruct b, x; naive_solver. Qed.

Lemma attenuate_inv token req now id token' c' : attenuateGrant token req now id = Ok (token', c') →
  ∃ m root c raw step m',
    decodeGrant token true = Ok (m, root, c) ∧ str_empty (gp_WorkerID (gr_Parent root)) = false ∧
    opt_all (λ t, After t now) (cd_NotAfter req) = true ∧ validateDelegationPolicy (requested m c req) = Ok tt ∧
    (length (mc_Caveats m) < maxDelegationDepth)%nat ∧
    (mc_Caveats m ≠ [] → permissionsSubset (requested m c req) (di_Permissions (de_Grant c)) = true) ∧
    (∀ limit, di_NotAfter (de_Grant c) = Some limit → now < limit ∧ ∀ t, cd_NotAfter req = Some t → t ≤ limit) ∧
    step_text (new_step m c req id) = Ok raw ∧ decodeCanonical step_value step_text raw = Some step ∧
    AddFirstPartyCaveat m raw = Ok m' ∧ encodeGrant m' = Ok token' ∧
    c' = c <| de_Grant := mkDelegation (gs_ID step) (gs_Permissions step) (gs_NotAfter step) |>.
Proof.
  unfold attenuateGrant. intros Hr. apply bind_ok in Hr as ([[m root] c] & Hd & Hr). simpl in Hr.
  apply bind_ok in Hr as ([] & [Hw%negb_true_iff _]%guard_ok & Hr).
  apply bind_ok in Hr as ([] & Hv & Hr). unfold validateDelegationRequest in Hv.
  apply bind_ok in Hv as ([] & [Hna _]%guard_ok & Hv).
  apply bind_ok in Hr as ([] & [Hlen%Nat.ltb_lt _]%guard_ok & Hr).
  apply bind_ok in Hr as ([] & [Hsub _]%guard_ok & Hr).
  apply bind_ok in Hr as ([] & [Hlim _]%guard_ok & Hr).
  apply bind_ok in Hr as (raw & Ht & Hr). apply bind_ok in Hr as (step & Hs & Hr).
  apply bind_ok in Hr as (m' & Hm & Hr). apply bind_ok in Hr as (next & He & [= <- <-]).
  exists m, root, c, raw, step, m'. split_and!; try done.
  - intros Hne. by rewrite bool_decide_eq_false_2 in Hsub.
  - intros limit Hl. rewrite Hl in Hlim. simpl in Hlim. apply andb_prop in Hlim as [Hb Hall].
    apply Before_spec in Hb. split; [done|]. intros t Htt. rewrite Htt in Hall. simpl in Hall.
    unfold After in Hall. lia.
  - destruct (decodeCanonical _ _ raw) as [st|]; [|done]. simpl in Hs. by injection Hs as ->.
  - destruct (AddFirstPartyCaveat m raw); [|done]. by injection Hm as ->.
Qed.

Context {laws : MacaroonLaws} {key_laws : GrantKeyLaws}.

Lemma decode_encode m token :
  encodeGrant m = Ok token → mc_V2 m = true → mc_Location m = "" → decode_macaroon token = Some m.
Proof.
  unfold encodeGrant. destruct (MarshalBinary m) as [raw|] eqn:Hm; [|done].
  destruct (Nat.ltb_spec maxDelegationTokenBytes (String.length (delegationTokenPrefix +:+ raw_url_encode raw)));
    [done|]. intros [= <-] Hv Hl. unfold decode_macaroon, isDelegationToken.
  rewrite prefix_app. rewrite (proj2 (Nat.ltb_ge _ _)) by lia. cbn [negb orb].
  rewrite TrimPrefix_app, decodeTokenBase64_encode. cbn [mbind option_bind].
  rewrite (macaroon_text _ _ Hm). cbn [mbind option_bind]. rewrite Hv, Hl, Hm. simpl. by rewrite String.eqb_refl.
Qed.

(** A grant that is derived extends the one it is derived from. *)
Lemma derived_extends token req now id token' c' :
  attenuateGrant token req now id = Ok (token', c') → extends token token'.
Proof.
  intros (m & root & c & raw & step & m' & Hd & _ & _ & _ & _ & _ & _ & _ & _ & Hadd & Henc & _)%attenuate_inv.
  apply decodeGrant_inv in Hd as [Hm _]. pose proof (decode_macaroon_inv _ _ Hm) as (_ & Hv & Hl).
  destruct (add_caveat _ _ _ Hadd) as (Hv' & Hl' & Hid & Hcv & _).
  exists m, m', [mkCaveat raw "" ""]. split; [done|]. split; [apply decode_encode; congruence|]. done.
Qed.

(** The chain with the new restriction reads as the claims returned for it. *)
Lemma new_step_valid m c req id now :
  0 ≤ now → str_empty id = false → (String.length id ≤ 128)%nat →
  validateDelegationPolicy (requested m c req) = Ok tt →
  (∀ t, deadline c req = Some t → now < t ∧ t < year_10000) →
  valid_step (new_step m c req id) = true.
Proof.
  intros Hnow Hid Hlen Hv Hd. unfold valid_step, new_step. simpl. rewrite Hid, Hv. simpl.
  rewrite (proj2 (Nat.leb_le _ _)) by done. simpl. destruct (deadline c req) as [t|] eqn:Ht; [|done].
  destruct (Hd t eq_refl). simpl. lia.
Qed.

(** The deadline asked for is ahead, and no later than the one so far. *)
Lemma deadline_bounds m root c req now :
  read_grant true m = Some (root, c) → opt_all (λ t, After t now) (cd_NotAfter req) = true →
  (∀ t, cd_NotAfter req = Some t → t < year_10000) →
  (∀ limit, di_NotAfter (de_Grant c) = Some limit → now < limit ∧ ∀ t, cd_NotAfter req = Some t → t ≤ limit) →
  (∀ t, deadline c req = Some t → now < t ∧ t < year_10000) ∧
  (∀ limit, di_NotAfter (de_Grant c) = Some limit → ∃ t, deadline c req = Some t ∧ t ≤ limit).
Proof.
  intros Hr Hna Hyear Hlim. apply read_grant_inv in Hr as (_ & _ & _ & _ & _ & Hg). unfold deadline.
  destruct (cd_NotAfter req) as [t0|].
  - split.
    + intros t [= <-]. split; [|by apply Hyear]. simpl in Hna. unfold After in Hna. lia.
    + intros limit Hl. exists t0. split; [done|]. by apply (Hlim _ Hl).
  - split; [|intros limit Hl; by exists limit]. intros t Ht. split; [by apply (Hlim _ Ht)|].
    by eapply (read_steps_year true no_delegation); [|exact Hg|].
Qed.

Lemma read_new_step first m c req id raw :
  step_text (new_step m c req id) = Ok raw → step_value raw = Some (new_step m c req id) →
  valid_step (new_step m c req id) = true →
  (first = false → permissionsSubset (requested m c req) (di_Permissions (de_Grant c)) = true) →
  (∀ limit, di_NotAfter (de_Grant c) = Some limit → ∃ t, deadline c req = Some t ∧ t ≤ limit) →
  read_step first (de_Grant c) (mkCaveat raw "" "") = Some (mkDelegation id (requested m c req) (deadline c req)).
Proof.
  intros Ht Hv Hok Hsub Hlim. unfold read_step. cbn [cv_VerificationId cv_Location cv_Id].
  assert (decodeCanonical step_value step_text raw = Some (new_step m c req id)) as -> by (by apply decodeCanonical_spec).
  simpl. rewrite Hok. simpl.
  assert (negb first && negb (permissionsSubset (requested m c req) (di_Permissions (de_Grant c))) = false) as ->
    by (destruct first; [done|simpl; by rewrite Hsub]).
  destruct (di_NotAfter (de_Grant c)) as [limit|] eqn:Hl.
  - destruct (Hlim _ eq_refl) as (t & Ht' & Hle). rewrite Ht'. unfold After.
    assert (limit <? t = false) as -> by lia. done.
  - by destruct (deadline c req).
Qed.

Lemma derived_reads token req now id token' c' m root c :
  attenuateGrant token req now id = Ok (token', c') → decodeGrant token true = Ok (m, root, c) →
  0 ≤ now → str_empty id = false → (String.length id ≤ 128)%nat →
  (∀ t, cd_NotAfter req = Some t → t < year_10000) →
  json_keeps step_value step_text (new_step m c req id) →
  c' = c <| de_Grant := mkDelegation id (requested m c req) (deadline c req) |> ∧
  ∃ m', decodeGrant token' false = Ok (m', root, c') ∧
    ∀ k, VerifySignature k m = true → VerifySignature k m' = true.
Proof.
  intros Ha Hdec Hnow Hid Hlen Hyear Hkeep.
  destruct (attenuate_inv _ _ _ _ _ _ Ha) as (m0 & root0 & c0 & raw & step & m' & Hd & Hw & Hna & Hv & Hdep & Hsub & Hlim & Ht & Hs & Hadd & Henc & ->).
  rewrite Hdec in Hd. injection Hd as <- <- <-.
  apply decodeCanonical_spec in Hs as [Hsv _]. rewrite (Hkeep raw Ht) in Hsv. injection Hsv as <-. split; [done|].
  apply decodeGrant_inv in Hdec as [Hm Hr]. pose proof (decode_macaroon_inv _ _ Hm) as (_ & Hv2 & Hloc).
  destruct (add_caveat _ _ _ Hadd) as (Hv' & Hl' & Hmid & Hcv & Hsig).
  destruct (deadline_bounds _ _ _ _ _ Hr Hna Hyear Hlim) as [Hdl Hdl'].
  pose proof (read_grant_inv _ _ _ _ Hr) as (Hroot & Hvr & _ & _ & Hpar & Hg).
  exists m'. split; [|done]. apply decodeGrant_inv. split; [apply decode_encode; congruence|].
  apply read_grant_restricted; [|rewrite Hcv; by destruct (mc_Caveats m)|done].
  unfold read_grant. rewrite Hmid, Hroot. simpl. rewrite Hvr. simpl. rewrite Hcv, length_app.
  rewrite (proj2 (Nat.ltb_ge _ _)) by (simpl; lia). simpl. rewrite read_steps_app, Hg. simpl.
  rewrite (read_new_step _ m c req id raw Ht (Hkeep raw Ht)); [|by eapply new_step_valid| |done].
  - simpl. by rewrite Hpar.
  - intros Hne%bool_decide_eq_false. by apply Hsub.
Qed.

(** *** Credentials of owners *)

(** The expiry of a credential lies between now and the expiry of the lease. *)
Lemma token_expiry now lease ttl : 0 ≤ now → now < lease →
  now ≤ leaseTokenExpiresAt now lease ttl < lease ∧
  (1 < lease - now → now < leaseTokenExpiresAt now lease ttl).
Proof.
  intros Hnow Hle. unfold leaseTokenExpiresAt, IsZero, After, Before, leaseTokenExpirySkew, nanosecond.
  destruct (lease =? 0) eqn:Hz; [lia|]. rewrite (proj2 (Z.ltb_lt _ _)) by done. simpl.
  assert (0 ≤ (lease - now) ÷ 10 ∧ 10 * ((lease - now) ÷ 10) ≤ lease - now) as Hq by (Z.to_euclidean_division_equations; lia).
  destruct (lease - now <=? 2 * 100000000) eqn:Hs.
  - destruct ((lease - now) ÷ 10 <=? 0) eqn:Hp; case_match; lia.
  - case_match; lia.
Qed.

Lemma split_owner s payload :
  split_dots (sign_owner s payload) =
    ["jdb-o2"; raw_url_encode payload; raw_url_encode (hmac_sha256 (sg_key s) (ownerTokenPrefix +:+ raw_url_encode payload))].
Proof.
  unfold sign_owner. cbv zeta. set (sig := raw_url_encode (hmac_sha256 _ _)). rewrite str_app_assoc.
  transitivity ("jdb-o2" :: split_dots (raw_url_encode payload +:+ "." +:+ sig)); [reflexivity|].
  rewrite split_digits_dot by apply encode_digits. unfold sig. by rewrite split_digits by apply encode_digits.
Qed.

(** What identifies a lease must not be blank. *)
Definition named_lease (s : leaseTokenSigner) (key : JobKey) (leaseID id : string) : Prop :=
  jk_TenantId key ≠ "" ∧ jk_JobId key ≠ "" ∧ leaseID ≠ "" ∧ id ≠ "" ∧ grantKeyID s ≠ "".

Lemma audience_named s : audienceID s ≠ "".
Proof. unfold audienceID. destruct (str_empty (sg_audience s)) eqn:He; [done|]. intros Ha%str_empty_spec. congruence. Qed.

Definition issued_root (s : leaseTokenSigner) (p : leaseTokenClaims) (id : string) : grantRoot :=
  mkRoot 1 grantPurpose (audienceID s) (grantKeyID s) id (parentOf p) grantCeiling.

Lemma new_grant_verifies s p id token :
  newGrant s p id = Ok token → json_keeps root_value root_text (issued_root s p id) →
  named_lease s (mkJobKey (lc_TenantID p) (lc_JobID p)) (lc_LeaseID p) id → valid_cell (lc_Cell p) = true →
  ∃ m c, verifyGrant s token true = Ok (m, issued_root s p id, c) ∧ mc_Caveats m = [] ∧ token ≠ "".
Proof.
  unfold newGrant. intros Hn Hkeep (Ht & Hj & Hl & Hi & Hk) Hcell.
  apply bind_ok in Hn as (raw & Htext & Hn). apply bind_ok in Hn as (m & Hm & Henc).
  destruct (new_macaroon _ _ _ Hm) as (Hv & Hloc & Hid & Hcv & Hsig).
  assert (valid_root (issued_root s p id) = true) as Hroot.
  { unfold valid_root. simpl in Ht, Hj, Hl. unfold valid_cell in Hcell. rewrite !andb_true_iff in Hcell.
    destruct Hcell as [[Hc1 Hc2] Hc3]. cbn [gr_Version gr_Purpose gr_Ceiling gr_ID gr_Audience gr_KeyID gr_Parent issued_root parentOf gp_TenantID gp_JobID gp_LeaseID gp_Cell].
    rewrite !String.eqb_refl, Hc1, Hc2, Hc3, (str_empty_ne _ Ht), (str_empty_ne _ Hj), (str_empty_ne _ Hl), (str_empty_ne _ Hi),
      (str_empty_ne _ Hk), (str_empty_ne _ (audience_named s)). done. }
  eexists m, _. split; [|split; [done|]].
  - apply verifyGrant_inv. split; [|done]. apply decodeGrant_inv. split; [by apply decode_encode|].
    unfold read_grant. rewrite Hid, Hcv.
    assert (decodeCanonical root_value root_text raw = Some (issued_root s p id)) as ->
      by (apply decodeCanonical_spec; split; [by apply Hkeep|done]).
    simpl. rewrite Hroot. reflexivity.
  - unfold encodeGrant in Henc. destruct (MarshalBinary m); [|done]. case_match; [done|]. by injection Henc as <-.
Qed.

Definition minted (s : leaseTokenSigner) (key : JobKey) (leaseID workerID schema : string) (expiry : time) (ttl : Z)
    (principal : option string) (cell : ResolvedCell) (now : time) (grant : string) : leaseTokenClaims :=
  (mint_claims s key leaseID workerID schema expiry ttl principal cell now) <| lc_Grant := grant |>.

Lemma minted_expiry s key leaseID workerID schema expiry ttl principal cell now grant :
  unix_epoch + second ≤ now → now < expiry → expiry - unix_epoch ≤ MaxInt64 →
  claims_expiresAt (minted s key leaseID workerID schema expiry ttl principal cell now grant)
    = leaseTokenExpiresAt now expiry (if ttl <=? 0 then defaultLeaseTokenTTL else ttl) ∧
  (lc_ExpiresAt (minted s key leaseID workerID schema expiry ttl principal cell now grant) =? 0) = false.
Proof.
  intros Hnow Hexp Hmax. assert (0 ≤ now) as Hpos by (unfold unix_epoch, day, second in *; lia).
  destruct (token_expiry now expiry (if ttl <=? 0 then defaultLeaseTokenTTL else ttl) Hpos Hexp) as [Hb _].
  unfold minted, mint_claims, claims_expiresAt. cbn [setf lc_ExpiresAt lc_ExpiresAtNS]. unfold Unix.
  set (x := leaseTokenExpiresAt _ _ _) in *. assert (unix_epoch + second ≤ x) as Hx by lia.
  rewrite UnixNano_small by (unfold second in *; lia). split.
  - rewrite (proj2 (Z.ltb_lt _ _)) by (unfold second in Hx; lia). lia.
  - apply Z.eqb_neq. unfold second in *. Z.to_euclidean_division_equations. lia.
Qed.

Lemma mint_parses s key leaseID workerID schema expiry ttl principal cell now id token :
  mintWithPrincipal s key leaseID workerID schema expiry ttl principal cell now id = Ok token →
  named_lease s key leaseID id → unix_epoch + second ≤ now → now < expiry → expiry - unix_epoch ≤ MaxInt64 →
  json_keeps root_value root_text
    (issued_root s (mint_claims s key leaseID workerID schema expiry ttl principal cell now) id) →
  (∀ grant, newGrant s (mint_claims s key leaseID workerID schema expiry ttl principal cell now) id = Ok grant →
     json_keeps claims_value claims_text (minted s key leaseID workerID schema expiry ttl principal cell now grant)) →
  ∃ grant, parse_owner s token = Ok (minted s key leaseID workerID schema expiry ttl principal cell now grant).
Proof.
  intros Hm Hnamed Hnow Hexp Hmax Hroot Hclaims. unfold mintWithPrincipal in Hm.
  apply bind_ok in Hm as ([] & [Hkey _]%guard_ok & Hm). apply bind_ok in Hm as ([] & [Hcell _]%guard_ok & Hm).
  apply bind_ok in Hm as (grant & Hgrant & Hm). apply bind_ok in Hm as (payload & Hp & Hm).
  apply bind_ok in Hm as ([] & [Hlen _]%guard_ok & [= <-]).
  set (claims := minted s key leaseID workerID schema expiry ttl principal cell now grant).
  change (claims_text claims = Ok payload) in Hp.
  destruct (new_grant_verifies _ _ _ _ Hgrant Hroot) as (m & c & Hver & Hcv & Hne); [done|done|].
  destruct (minted_expiry s key leaseID workerID schema expiry ttl principal cell now grant Hnow Hexp Hmax) as [_ Hexpz].
  exists grant. fold claims.
  assert (String.prefix ownerTokenPrefix (sign_owner s payload) = true) as Hpre
    by (unfold sign_owner; cbv zeta; rewrite str_app_assoc; apply prefix_app).
  assert (valid_owner claims = true) as Hvo.
  { destruct Hnamed as (Ht & Hj & Hl & _). unfold valid_owner. fold claims in Hexpz. rewrite Hexpz.
    unfold claims, minted, mint_claims. cbn [setf lc_Cell lc_TenantID lc_JobID lc_LeaseID lc_Audience lc_Grant].
    rewrite Hcell, (str_empty_ne _ Ht), (str_empty_ne _ Hj), (str_empty_ne _ Hl), (str_empty_ne _ Hne),
      (str_empty_ne _ (audience_named s)). done. }
  assert (str_empty (raw_url_encode (hmac_sha256 (sg_key s) (ownerTokenPrefix +:+ raw_url_encode payload))) = false) as Hsig.
  { destruct (hmac_sha256 (sg_key s) _) as [|a1 [|a2 [|a3 rest]]] eqn:Hh; [|done..].
    pose proof (hmac_length (sg_key s) (ownerTokenPrefix +:+ raw_url_encode payload)) as Hl. by rewrite Hh in Hl. }
  assert (decodeOwner (sign_owner s payload) = Ok claims) as Hdec.
  { unfold decodeOwner. rewrite Hpre. rewrite (proj2 (Nat.ltb_ge _ _)) by (apply Nat.leb_le in Hlen; lia).
    cbn [negb orb]. rewrite split_owner, Hsig, decodeTokenBase64_encode. cbn [mbind option_bind].
    assert (decodeCanonical claims_value claims_text payload = Some claims) as ->
      by (apply decodeCanonical_spec; split; [by apply (Hclaims _ Hgrant)|done]).
    cbn [mbind option_bind]. by rewrite Hvo. }
  unfold parse_owner. rewrite Hkey, Hpre, Hlen, split_owner, decodeTokenBase64_encode. cbn [guard_err rbind andb of_option].
  assert ("jdb-o2" +:+ "." +:+ raw_url_encode payload = ownerTokenPrefix +:+ raw_url_encode payload) as -> by reflexivity.
  rewrite String.eqb_refl, Hdec. cbn [guard_err rbind].
  assert (String.eqb (lc_Audience claims) (audienceID s) = true) as -> by apply String.eqb_refl.
  cbn [guard_err rbind]. assert (lc_Grant claims = grant) as -> by done. rewrite Hver. simpl.
  rewrite Hcv, bool_decide_eq_true_2 by done. unfold sameGrantParent. rewrite bool_decide_eq_true_2; done.
Qed.
End tokens.

(** ** The promises *)
Section promises.
Context `{CellText} `{Macaroons} `{GrantKeys} `{GrantText} `{RequestBodies} `{LeaseChecker}.
Context {laws : MacaroonLaws} {key_laws : GrantKeyLaws}.

(** C18. Chapter selectors are compared exactly: between two valid selectors that
    are not "all chapters", the merged intervals of the one are found to lie within
    those of the other if and only if every ordinal it allows the other allows. *)
Theorem chapters_compared_exactly c p :
  validateDelegationPolicy (mkPermissions None None [] (Some c) None) = Ok tt →
  validateDelegationPolicy (mkPermissions None None [] (Some p) None) = Ok tt →
  dc_Any c = false → dc_Any p = false →
  chaptersSubset (Some c) (Some p) = true ↔
  ∀ n, chaptersAllow (Some c) n = true → chaptersAllow (Some p) n = true.
Proof. intros Hc Hp. apply chaptersSubset_exact; [exact (policy_chapters _ _ Hc eq_refl)|exact (policy_chapters _ _ Hp eq_refl)]. Qed.

(** C11. A chain of restrictions only narrows.  Of any grant that is accepted, the
    policy in force allows an action only if every restriction in the chain allows
    it, its deadline is no later than any of theirs, the policy is valid, and the
    chain has at most eight restrictions. *)
Theorem chain_only_narrows token allow m root c : decodeGrant token allow = Ok (m, root, c) →
  (length (mc_Caveats m) ≤ 8)%nat ∧ de_Parent c = parent_claims (gr_Parent root) ∧
  ∀ cv, cv ∈ mc_Caveats m →
    validateDelegationPolicy (di_Permissions (de_Grant c)) = Ok tt ∧
    ∃ step, step_of cv step ∧
      (∀ a, permits (di_Permissions (de_Grant c)) a = true → permits (gs_Permissions step) a = true) ∧
      ∀ t, gs_NotAfter step = Some t → ∃ t', di_NotAfter (de_Grant c) = Some t' ∧ t' ≤ t.
Proof.
  intros (_ & Hr)%decodeGrant_inv. apply read_grant_inv in Hr as (_ & _ & Hlen & _ & Hpar & Hg).
  split; [done|]. split; [by rewrite Hpar|]. intros cv Hcv. split; [|by eapply chain_bounds].
  destruct (mc_Caveats m) as [|cv' cvs]; [by apply not_elem_of_nil in Hcv|]. by eapply read_steps_first.
Qed.

(** C10. Deriving a grant.  The token returned is accepted by the issuer of its
    source, names the same lease, and carries exactly the policy asked for (with the
    cell names of a restricted source, when it names none) until the earlier of the
    two deadlines; and a request that is let through with the derived token is let
    through, at that moment, with the token it was derived from. *)
Theorem derived_grant_confined s token req now id token' c' m root c :
  attenuateGrant token req now id = Ok (token', c') → verifyGrant s token true = Ok (m, root, c) →
  0 ≤ now → id ≠ "" → (String.length id ≤ 128)%nat → (∀ t, cd_NotAfter req = Some t → t < year_10000) →
  json_keeps step_value step_text (new_step m c req id) →
  parseDelegation s token' = Ok c' ∧ de_Parent c' = de_Parent c ∧
  di_Permissions (de_Grant c') = inherit_cells (mc_Caveats m) (di_Permissions (de_Grant c)) (cd_Permissions req) ∧
  (∀ t, cd_NotAfter req = Some t → di_NotAfter (de_Grant c') = Some t) ∧
  (∀ t, di_NotAfter (de_Grant c) = Some t → ∃ t', di_NotAfter (de_Grant c') = Some t' ∧ t' ≤ t) ∧
  ∀ r at_time, is_ok (parseDelegation s token) = true →
    prepareDelegationRequest s (mkRequest (rq_Method r) [token'] (rq_Path r) (rq_Body r)) at_time = None →
    prepareDelegationRequest s (mkRequest (rq_Method r) [token] (rq_Path r) (rq_Body r)) at_time = None.
Proof.
  intros Ha Hver Hnow Hid Hlen Hyear Hkeep. apply verifyGrant_inv in Hver as (Hdec & Haud & Hkid & Hsig).
  destruct (derived_reads _ _ _ _ _ _ _ _ _ Ha Hdec Hnow (str_empty_ne _ Hid) Hlen Hyear Hkeep) as [Hc' (m' & Hdec' & Hsig')].
  destruct (attenuate_inv _ _ _ _ _ _ Ha) as (m0 & root0 & c0 & raw & step & m1 & Hd & _ & Hna & _ & _ & _ & Hlim & _).
  rewrite Hdec in Hd. injection Hd as <- <- <-. apply decodeGrant_inv in Hdec as [_ Hr].
  destruct (deadline_bounds _ _ _ _ _ Hr Hna Hyear Hlim) as [_ Hdl].
  split_and!.
  - unfold parseDelegation. assert (verifyGrant s token' false = Ok (m', root, c')) as -> by (apply verifyGrant_inv; auto). done.
  - by rewrite Hc'.
  - by rewrite Hc'.
  - intros t Ht. rewrite Hc'. simpl. unfold deadline. by rewrite Ht.
  - intros t Ht. rewrite Hc'. simpl. by apply Hdl.
  - intros r t Hok. destruct (parseDelegation s token) as [d|] eqn:Hp; [|done].
    by apply (extension_admitted s token token' r t d); [eapply derived_extends|].
Qed.

(** C17. An owner credential is valid for exactly its lease and until an expiry that
    lies before the lease's own: what is minted for a lease that still runs (and ends
    before the year 2262, where nanosecond timestamps end) is
    accepted for a job and lease if and only if they are the ones it was minted for
    and the credential has not expired.  The JSON round trip is asked of this
    credential only: of its claims with the grant [newGrant] signed for them, and of
    that grant's root, whose strings encoding/json gives back when they are valid
    UTF-8. *)
Theorem owner_credential_bound s key leaseID workerID schema expiry ttl principal cell now id token :
  mintWithPrincipal s key leaseID workerID schema expiry ttl principal cell now id = Ok token →
  named_lease s key leaseID id → unix_epoch + second ≤ now → now < expiry → expiry - unix_epoch ≤ MaxInt64 →
  json_keeps root_value root_text
    (issued_root s (mint_claims s key leaseID workerID schema expiry ttl principal cell now) id) →
  (∀ grant, newGrant s (mint_claims s key leaseID workerID schema expiry ttl principal cell now) id = Ok grant →
     json_keeps claims_value claims_text (minted s key leaseID workerID schema expiry ttl principal cell now grant)) →
  ∃ until, now ≤ until < expiry ∧ (1 < expiry - now → now < until) ∧
    ∀ key' leaseID' t, is_ok (validateAndParse s token key' leaseID' t) = true ↔
      key' = key ∧ leaseID' = leaseID ∧ t < until.
Proof.
  intros Hm Hn Hnow Hexp Hmax Hc Hr. destruct (mint_parses _ _ _ _ _ _ _ _ _ _ _ _ Hm Hn Hnow Hexp Hmax Hc Hr) as (grant & Hp).
  assert (0 ≤ now) as Hpos by (unfold unix_epoch, day, second in *; lia).
  destruct (minted_expiry s key leaseID workerID schema expiry ttl principal cell now grant Hnow Hexp Hmax) as [Hex _].
  destruct (token_expiry now expiry (if ttl <=? 0 then defaultLeaseTokenTTL else ttl) Hpos Hexp) as [Hb Hstrict].
  eexists. split; [exact Hb|]. split; [exact Hstrict|]. intros key' leaseID' t.
  unfold validateAndParse. rewrite Hp. cbn [rbind]. rewrite Hex. unfold minted, mint_claims.
  cbn [setf lc_TenantID lc_JobID lc_LeaseID].
  destruct key as [tn jb], key' as [tn' jb']. cbn [jk_TenantId jk_JobId].
  destruct (String.eqb_spec tn tn') as [->|], (String.eqb_spec jb jb') as [->|], (String.eqb_spec leaseID leaseID') as [->|];
    simpl; try (split; [done|intros (Hk & Hl & _); congruence]).
  unfold Before. match goal with |- context [t <? ?x] => destruct (Z.ltb_spec t x) as [Hlt|Hge] end; simpl.
  - split; [intros _|done]. by split; [|split].
  - split; [done|intros (_ & _ & ?); lia].
Qed.
End promises.

(** ** Grants and the life of a lease *)
Section life.
Context `{CellText} `{RangeOrder} `{FloatText} `{ChapterChecks} `{TimeZones} `{ScheduleText}.
Context `{Macaroons} `{GrantKeys} `{GrantText} `{RequestBodies}.

(** C12. A grant dies with its lease.  In the in-memory runtime, once a lease that
    was handed out is no longer live, every grant and every derivation of it is
    refused from then on: whatever happens to the runtime in between, no request
    under the lease's path is let through with any restricted credential. *)
Theorem grant_dies_with_lease w w' key id r s rq now :
  reachable w → e_jobRecords (w_engine w) !! key = Some r → id ∈ w_used w → live (w_now w) id r = false →
  rtc any_step w w' → w_now w' ≤ now →
  isDelegationToken (default "" (head (rq_Tokens rq))) = true → lease_path (split_path (rq_Path rq)) = Some (key, id) →
  ∃ status code, toy_boundary (w_engine w') s rq now = Some (DelegationError status code) ∧
    (code = "invalid_delegation_credential" ∨ code = "execution_lease_lost").
Proof.
  intros Hw Hr Hid Hl Hs Hle Htok Hpath.
  destruct (steps_dead w w' key id r (reachable_world_ok _ Hw) Hr Hid Hl Hs) as (r' & Hr' & Hl').
  apply (live_later _ now) in Hl'; [|done].
  unfold toy_boundary, prepareDelegationRequest. rewrite Htok, Hpath. cbn [negb].
  destruct (bool_decide _); cbn [negb]; [|by eauto]. unfold checkedDelegation.
  destruct (parseDelegation s _) as [c|]; [|by eauto].
  destruct (bool_decide_reflect (delegation_key c = key)) as [Hk|]; [|by eauto].
  destruct (String.eqb_spec (lc_LeaseID (de_Parent c)) id) as [Hi|]; [|by eauto]. cbn [negb andb].
  unfold parentValidity, lease_validity, toy_checker, ValidateExecutionLeaseByID.
  unfold delegation_key in Hk. rewrite Hk, Hi, Hr', (live_false_holds _ _ _ _ Hl'). rewrite orb_true_r. by eauto.
Qed.
End life.
