(* ===== verification/ToyGoalTheorems.v ===== *)
(** * ToyGoalTheorems: goals and dependencies in every reachable world

    The runtime drives the goal engine so that no wake-up is lost, dependencies
    never form a cycle, jobs that wait always wait for something that can still
    happen, and finishing a job never fails because of its goals. *)

From S2P Require Import Prelude Types GoalStore GoalEngine GoalCycles GoalWaits GoalInvariant GoalLive GoalGraph GoalTotal.
From S2P Require Import GoalProgress GoalStable.
From S2P Require Import Json ClientPayload Cells CellState Metadata Chapters Schedule ScheduleRuns.
From S2P Require Import ToyState ToyLease ToyChapters ToySubmit ToySchedule ToyRestart ToyRun ToyMoves ToyTables ToyLifecycle ToyWorld ToyGoals ToyGoalSteps.
From S2P Require Import ToyScenario.

Section theorems.
Context `{CellText} `{RangeOrder} `{FloatText} `{ChapterChecks} `{TimeZones} `{ScheduleText}.

(** C32. In every reachable world whose jobs have printable IDs: a dependency
    that a pending wait still lists as pending has an undecided target (no
    wake-up is lost), the dependency graph of every tenant is acyclic, every job
    has its goal, and the wait a record names exists.  A job ID made of spaces breaks
    the first ([blank_id_loses_wakeup]). *)
Theorem goals_consistent w :
  reachable w → named_jobs (w_engine w) →
  let s := goal_view (w_engine w) in
  (∀ k wt d, mem_Wait s k = Ok wt → wi_State wt = DependencyPending → d ∈ wi_Dependencies wt →
     dr_State d = DependencyPending → undecided s (jk_TenantId (wi_JobKey wt)) (dr_Target d)) ∧
  (∀ tenant, acyclic (w_now w) s tenant) ∧
  (∀ key r, e_jobRecords (w_engine w) !! key = Some r →
     (∃ g, mem_Goal s (mkGoalKey (jk_TenantId key) (jr_goalID r)) = Ok g) ∧
     (jr_dependencyWaitID r ≠ "" → ∃ wt, mem_Wait s (mkWaitKey key (jr_dependencyWaitID r)) = Ok wt)).
Proof.
  intros Hw Hn s. destruct (reachable_goals w Hw Hn) as [[Hl Hr Hac Nm _] _ _ Hwait]. split; [|split; [done|]].
  - intros k wt d Hwt Hs Hd Hp. destruct (si_live _ _ Hl k wt d Hwt Hs Hd Hp) as [Hv|[]]. by apply pending_undecided.
  - intros key r Hr'. split.
    + destruct (ro_primary _ Hr key (goalJob key r)) as [g Hg]; [by rewrite goal_view_jobs, Hr'|]. simpl in Hg.
      exists (copy_goal g). apply mem_goal_ok. eauto.
    + intros Hne. destruct (Hwait key r Hr' Hne) as [v Hv]. exists (copy_wait v). apply mem_wait_ok. eauto.
Qed.

(** The node of a job in the dependency graph. *)
Definition node (key : JobKey) : DependencyTarget := mkTarget (jk_JobId key) "".

(** C33. Dependencies never deadlock in a reachable world whose jobs have printable
    IDs: from every open job that its dependencies hold back, a chain of
    dependencies leads to an open job they do not hold back, or to an open goal none
    of whose candidates is still running. *)
Theorem no_dependency_deadlock w key r now :
  reachable w → named_jobs (w_engine w) → (w_now w ≤ now)%Z →
  e_jobRecords (w_engine w) !! key = Some r → open r = true → dependencyReadyLocked (w_engine w) now r ≠ Ok true →
  let s := goal_view (w_engine w) in
  ∃ m, tc (edge now s (jk_TenantId key)) (node key) m ∧
    ((∃ id r', m = mkTarget id "" ∧ e_jobRecords (w_engine w) !! mkJobKey (jk_TenantId key) id = Some r' ∧
        open r' = true ∧ dependencyReadyLocked (w_engine w) now r' = Ok true) ∨
     (∃ g, dt_GoalID m ≠ "" ∧ mem_Goal s (mkGoalKey (jk_TenantId key) (dt_GoalID m)) = Ok g ∧ gi_State g = GoalOpen ∧
        ∀ id t r', mem_Candidate s (mkGoalKey (jk_TenantId key) (dt_GoalID m)) id = Ok (t, true) →
          e_jobRecords (w_engine w) !! mkJobKey (jk_TenantId key) id = Some r' → open r' = false)).
Proof.
  intros Hw Hn Hle Hr Ho Hdep s. pose proof (reachable_goals w Hw Hn) as Hok.
  apply (goals_ok_later _ now _ (w_used w)) in Hok; [|done|done]. destruct Hok as [[Hl Hrefs Hac _ _] _ Hkeys Hwait].
  assert (∀ k r0, e_jobRecords (w_engine w) !! k = Some r0 → m_Jobs s !! k = Some (goalJob k r0)) as Hjobs
    by (intros k r0 Hk; unfold s; by rewrite goal_view_jobs, Hk).
  assert (∀ k r0, open r0 = negb (j_Terminal (goalJob k r0))) as Hopen
    by (intros k r0; unfold open; simpl; by destruct (archived r0), (jr_cancelled r0)).
  assert (∀ k r0, e_jobRecords (w_engine w) !! k = Some r0 → open r0 = true →
    nf (edge now s (jk_TenantId k)) (node k) → dependencyReadyLocked (w_engine w) now r0 = Ok true) as Hsink.
  { intros k r0 Hk Ho0 Hnf. apply dep_done_ready. unfold dep_done. rewrite (Hkeys _ _ Hk).
    destruct (decide (jr_dependencyWaitID r0 = "")) as [|Hne]; [by left|right].
    destruct (Hwait k r0 Hk Hne) as [v Hv].
    assert (mem_Wait s (mkWaitKey k (jr_dependencyWaitID r0)) = Ok (copy_wait v)) as Hwt by (apply mem_wait_ok; eauto).
    exists (copy_wait v). split; [exact Hwt|]. rewrite (Hopen k) in Ho0. apply negb_true_iff in Ho0.
    assert (live_wait now (copy_wait v) = false) as Hlive.
    { destruct k as [tn id]. eapply (sink_job now s tn (mkTarget id "")); [done|exact Hnf|done|by apply Hjobs|done|exact Hwt]. }
    unfold live_wait in Hlive. apply andb_false_iff in Hlive as [Hs|Hs]; [left|right].
    - by apply bool_decide_eq_false in Hs.
    - by apply negb_false_iff in Hs. }
  destruct (chain_ends now s (jk_TenantId key) (node key)) as (m & Hpath & Hund & Hnf); [done..|by apply Hac| |].
  { eapply undecided_job; [done|simpl; destruct key; by apply Hjobs|]. rewrite (Hopen key) in Ho. by apply negb_true_iff in Ho. }
  exists m. split.
  - apply rtc_tc in Hpath as [<-|?]; [|done]. by destruct (Hdep (Hsink key r Hr Ho Hnf)).
  - destruct Hund as [g Hne Hg Hst|j He Hj Ht].
    + right. exists g. split; [done|]. split; [done|]. split; [done|]. intros id t r' Hc Hr'.
      rewrite (Hopen (mkJobKey (jk_TenantId key) id)). apply negb_false_iff.
      eapply (sink_goal now s); [exact Hnf|done|exact Hg|done|exact Hc|by apply Hjobs].
    + left. unfold s in Hj. rewrite goal_view_jobs in Hj.
      destruct (e_jobRecords (w_engine w) !! mkJobKey (jk_TenantId key) (dt_JobID m)) as [r'|] eqn:Hr'; [|done].
      simpl in Hj. injection Hj as <-. exists (dt_JobID m), r'.
      assert (m = mkTarget (dt_JobID m) "") as Hm by (destruct m; simpl in *; by subst).
      assert (open r' = true) as Ho' by (rewrite (Hopen (mkJobKey (jk_TenantId key) (dt_JobID m))); by rewrite Ht).
      split; [done|]. split; [done|]. split; [done|].
      apply (Hsink _ _ Hr' Ho'). unfold node. simpl. by rewrite <- Hm.
Qed.

(** C34. Finishing a job never fails because of its goals: in every reachable
    world whose jobs have printable IDs, cancelling an existing job succeeds, completing one under its live
    lease succeeds unless its client payload update is refused, and deleting
    jobs succeeds whenever the request is valid. *)
Theorem finishing_never_fails w now :
  reachable w → named_jobs (w_engine w) → (w_now w ≤ now)%Z →
  let e := w_engine w in
  (∀ key reason, is_Some (e_jobRecords e !! key) → (CancelJob key reason now e).2 = Ok tt) ∧
  (∀ key id wk req r vn, e_jobRecords e !! key = Some r → holds_lease now id wk r = true →
     Apply (jr_clientPayload r) (jr_clientPayloadRevision r) (ce_ClientPayloadUpdate req) = Ok vn →
     (complete_commit key id wk req now e).2 = Ok tt) ∧
  (∀ req ps, DeleteJobsRequest_Validate req = Ok tt → normalizeMetadataPredicates (dj_Predicates req) = Ok ps →
     ∃ n, (DeleteJobs req now e).2 = Ok n).
Proof.
  intros Hw Hn Hle e. pose proof (reachable_goals w Hw Hn) as Hok.
  apply (goals_ok_later _ now _ (w_used w)) in Hok; [|done|done]. fold e in Hok. split; [|split].
  - intros key reason [r Hr]. by eapply cancel_goals.
  - intros key id wk req r vn Hr Hh Ha. by eapply complete_goals.
  - intros req ps Hv Hps. by eapply delete_goals.
Qed.
End theorems.

(** ** Witnesses: a job that waits for another *)
Lemma names2 : named_jobs d2.
Proof. by intros k [->| ->]%waiting_keys. Qed.

Lemma goals_consistent_witness :
  ∃ wt, mem_Wait (goal_view d2) (mkWaitKey job2 "submission") = Ok wt.
Proof.
  destruct (goals_consistent v2 depend_reach names2) as (_ & _ & Hrec).
  exact (proj2 (Hrec job2 waiting2 waiting_at) ltac:(done)).
Defined.

Lemma no_dependency_deadlock_witness :
  dependencyReadyLocked d2 2 waiting2 = Ok false ∧
  ∃ m, tc (edge 2 (goal_view d2) "t") (node job2) m.
Proof.
  split; [vm_compute; reflexivity|].
  destruct (no_dependency_deadlock v2 job2 waiting2 2 depend_reach names2) as (m & Hm & _);
    [done|exact waiting_at|reflexivity|vm_compute; done|by exists m].
Defined.

Lemma finishing_never_fails_witness : (CancelJob job "stop" 5 d2).2 = Ok tt.
Proof.
  destruct (finishing_never_fails v2 5 depend_reach names2) as (Hcancel & _); [done|].
  apply Hcancel. vm_compute. eauto.
Defined.

(** ** Why job IDs must be printable

    Validation trims IDs and registration compares them with the empty string.  With
    a job named by a space, a target that names it and a goal passes both, is
    evaluated as the goal, and is not among the waits that closing the goal
    settles. *)
Definition blank_job : JobKey := mkJobKey "t" " ".
Definition two_ids : Dependency := mkDependency (mkTarget " " "g") JobPrereqSuccess.
Definition blank_run : list (section * time) :=
  [(SPrepare boss (prep <| pp_Key := blank_job |>) (λ _, Ok blank_job) "h", 2%Z);
   (SSubmit boss blank_job fresh None "{}" "h" (JObj []) [], 2%Z);
   (SPrepare boss (prep2 <| pp_Dependencies := [two_ids] |>) (λ _, Ok job2) "i", 2%Z); (s_submit2, 2%Z);
   (SFailGoal (mkFailRequest (mkGoalKey "t" "g") "given up"), 3%Z)].
Lemma blank_id_loses_wakeup :
  let s := goal_view (run_sections e3 blank_run) in
  (let? g := mem_Goal s (mkGoalKey "t" "g") in let? w := mem_Wait s (mkWaitKey job2 "submission") in
   Ok (gi_State g, wi_State w)) = Ok (GoalFailed, DependencyPending).
Proof. vm_compute. reflexivity. Qed.
