(* ===== verification/ListingTheorems.v ===== *)
(** * ListingTheorems: what the listings promise

    Following the page tokens of a listing, whatever happens to the runtime between
    two pages, reads rows in order and none twice, and misses none that stays. *)

From S2P Require Import Prelude Types GoalStore GoalEngine Json ClientPayload Cells CellState Metadata Chapters Schedule ScheduleRuns.
From S2P Require Import ToyState ToyLease Base64 Grants Paging JobFilters ToyListing Discovery CellPages.
Open Scope Z_scope.

(** ** Rows computed one by one *)
Lemma option_rows_elem {A B} (f : A → result (option B)) l bs b :
  map_result f l = Ok bs → b ∈ omap id bs ↔ ∃ a, a ∈ l ∧ f a = Ok (Some b).
Proof.
  intros Hm. rewrite list_elem_of_omap. setoid_rewrite (map_result_elem f l bs _ Hm). naive_solver.
Qed.
Lemma option_rows_keys {A B K} (f : A → result (option B)) (ka : A → K) (kb : B → K) l bs :
  (∀ a b, f a = Ok (Some b) → kb b = ka a) → map_result f l = Ok bs →
  NoDup (ka <$> l) → NoDup (kb <$> omap id bs).
Proof.
  intros Hk. revert bs. induction l as [|a l IH]; intros bs Hm Hnd; simpl in Hm.
  - injection Hm as <-. constructor.
  - apply bind_ok in Hm as (b & Hb & Hm). apply bind_ok in Hm as (bs' & Hbs & [= <-]).
    rewrite fmap_cons in Hnd. apply NoDup_cons in Hnd as [Hni Hnd]. specialize (IH _ Hbs Hnd).
    destruct b as [b|]; simpl; [|done]. apply NoDup_cons. split; [|done].
    rewrite (Hk _ _ Hb). intros (b' & Hb' & Hin)%list_elem_of_fmap. apply (option_rows_elem _ _ _ _ Hbs) in Hin as (a' & Ha' & Hf).
    apply Hni. rewrite Hb', (Hk _ _ Hf). by apply list_elem_of_fmap_2.
Qed.

(** Rows with distinct sources have distinct positions when positions tell sources apart. *)
Lemma rows_distinct {A B K P} (f : A → result (option B)) (ka : A → K) (kb : B → K) (pos : B → P) l bs :
  (∀ a b, f a = Ok (Some b) → kb b = ka a) → map_result f l = Ok bs → NoDup (ka <$> l) →
  (∀ b b', b ∈ omap id bs → b' ∈ omap id bs → pos b = pos b' → kb b = kb b') → NoDup (pos <$> omap id bs).
Proof.
  intros Hk Hm Hl Hinj. pose proof (option_rows_keys f ka kb l bs Hk Hm Hl) as Hnd.
  apply NoDup_fmap_2_strong; [|by apply NoDup_fmap_1 in Hnd].
  intros b b' Hb Hb' Hp. specialize (Hinj b b' Hb Hb' Hp).
  apply list_elem_of_lookup in Hb as [i Hi]. apply list_elem_of_lookup in Hb' as [j Hj].
  assert (i = j) as ->; [|congruence].
  apply (NoDup_lookup _ i j (kb b) Hnd); rewrite list_lookup_fmap; [by rewrite Hi|by rewrite Hj, Hinj].
Qed.

Section jobs.
Context `{RangeOrder} `{ChapterChecks} `{FloatText} `{ScheduleText} `{PageText}.
Context {laws : PageTextLaws}.

(** What a view of the runtime lists: the job is there and passes every condition. *)
Definition lists (ctx : Context) (req : ListJobsRequest) (e : ToyEngine) (now : time) (s : JobSummary) : Prop :=
  ∃ preds allowed r, job_predicates req = Ok preds ∧ allowed_cells ctx req e = Ok allowed ∧
    e_jobRecords e !! js_JobKey s = Some r ∧ list_row req preds allowed e now (js_JobKey s, r) = Ok (Some s).

(** Keys and times that page tokens can carry, and no two jobs of one name. *)
Definition listable (e : ToyEngine) : Prop :=
  (∀ k r, e_jobRecords e !! k = Some r →
     ValidString (jk_TenantId k) = true ∧ ValidString (jk_JobId k) = true ∧
     is_ok (cursor_text (mkPageCursor (jr_createdAt r) (jk_TenantId k) (jk_JobId k))) = true) ∧
  ∀ k k', is_Some (e_jobRecords e !! k) → is_Some (e_jobRecords e !! k') → JobKey_String k = JobKey_String k' → k = k'.

Lemma list_row_inv req preds allowed e now kr s : list_row req preds allowed e now kr = Ok (Some s) →
  js_JobKey s = kr.1 ∧ js_CreatedAt s = jr_createdAt kr.2.
Proof. unfold list_row. intros Hl. by split_res Hl. Qed.

Lemma job_rows_lists ctx req e now rows s : job_rows ctx req e now = Ok rows → s ∈ rows ↔ lists ctx req e now s.
Proof.
  unfold job_rows, lists. intros (preds & Hp & Hr)%bind_ok. apply bind_ok in Hr as (allowed & Ha & Hr).
  apply bind_ok in Hr as (os & Ho & [= <-]). rewrite (option_rows_elem _ _ _ _ Ho). split.
  - intros ([k r] & Hin%elem_of_range & Hl). pose proof (list_row_inv _ _ _ _ _ _ _ Hl) as [Hk _]. simpl in Hk.
    exists preds, allowed, r. by rewrite Hk.
  - intros (preds' & allowed' & r & Hp' & Ha' & Hr & Hl). exists (js_JobKey s, r). rewrite elem_of_range. split; [done|].
    congruence.
Qed.

Lemma record_rows_distinct {B} (f : JobKey * jobRecord → result (option B)) (job : B → JobSummary) e bs : listable e →
  (∀ kr b, f kr = Ok (Some b) → js_JobKey (job b) = kr.1) → map_result f (range (e_jobRecords e)) = Ok bs →
  NoDup ((λ b, summary_key (job b)) <$> omap id bs).
Proof.
  intros [_ Hinj] Hf Hm.
  assert (∀ b, b ∈ omap id bs → is_Some (e_jobRecords e !! js_JobKey (job b))) as Hin.
  { intros b ([k r] & Hkr%elem_of_range & Hb)%(option_rows_elem _ _ _ _ Hm). rewrite (Hf _ _ Hb). by eexists. }
  apply (rows_distinct f fst (λ b, js_JobKey (job b)) _ _ _ Hf Hm (range_nodup _)).
  intros b b' Hb Hb' Hk. injection Hk as _ Hk. by apply Hinj; [apply Hin..|].
Qed.
Lemma job_rows_distinct ctx req e now rows : listable e → job_rows ctx req e now = Ok rows → NoDup (summary_key <$> rows).
Proof.
  unfold job_rows. intros He (preds & _ & Hr)%bind_ok. apply bind_ok in Hr as (allowed & _ & Hr).
  apply bind_ok in Hr as (os & Ho & [= <-]). apply (record_rows_distinct _ id _ _ He) in Ho; [done|].
  intros kr s Hs. by apply list_row_inv in Hs as [? _].
Qed.

(** ** One call *)
Lemma some_store req : (listed_stores req).1 || (listed_stores req).2 = true.
Proof.
  unfold listed_stores. rewrite orb_true_iff. destruct (lj_Statuses req) as [|s sts]; cbn [fst snd].
  - destruct (lj_Stores req) as [|st sts]; cbn [fst snd]; [by left|].
    destruct st; [left|right]; apply bool_decide_eq_true_2; by left.
  - destruct (decide (s = JobStatusCompleted)) as [->|Hne]; [right; apply bool_decide_eq_true_2; by left|left].
    apply existsb_exists. exists s. split; [by left|]. by rewrite bool_decide_eq_false_2.
Qed.

Definition page_size (req : ListJobsRequest) : nat := Z.to_nat (DiscoveryPageSize (lj_PageSize req)).
Lemma ListJobs_page ctx req now e page tok : listable e → ListJobs ctx req now e = Ok (page, tok) →
  ∃ allowed position cursor rows next,
    UnwrapJobCursor (lj_PageToken req) (query_binding ctx req allowed) = Ok position ∧ job_cursor position = Ok cursor ∧
    job_rows ctx req e now = Ok rows ∧ page_of summary_key job_before (page_size req) cursor (lists ctx req e now) page next ∧
    tok = match next with Some _ => WrapJobCursor (next_job_token page) (query_binding ctx req allowed) | None => "" end.
Proof.
  intros Hok Hl. unfold ListJobs in Hl. do 3 apply bind_ok in Hl as ([] & _ & Hl).
  rewrite some_store in Hl. cbn [negb] in Hl. apply bind_ok in Hl as (preds & _ & Hl).
  apply bind_ok in Hl as (allowed & _ & Hl). apply bind_ok in Hl as (position & Hpos & Hl).
  apply bind_ok in Hl as (cursor & Hc & Hl). apply bind_ok in Hl as (rows & Hrows & [= <- <-]).
  fold (page_size req). pose proof (page_sort_filter summary_key job_before (page_size req) cursor (lists ctx req e now) rows
    (job_rows_distinct _ _ _ _ _ Hok Hrows) (λ s, job_rows_lists ctx req e now rows s Hrows)) as Hpage. cbv zeta in Hpage.
  exists allowed, position, cursor, rows. eexists. split_and!; [done..|exact Hpage|].
  fold job_le. set (rest := filter _ _).
  destruct (cut_page (page_size req) rest (DiscoveryPageSize_pos _)) as [[-> [s ->]]| ->]; done.
Qed.

(** The token of a page leads behind its last row. *)
Lemma row_token e page s r : listable e → last page = Some s → e_jobRecords e !! js_JobKey s = Some r →
  js_CreatedAt s = jr_createdAt r →
  next_job_token page ≠ "" ∧ ValidString (next_job_token page) = true ∧
  job_cursor (next_job_token page) = Ok (Some (summary_key s)).
Proof.
  intros [Hok _] Hs Hr Hat. unfold next_job_token. rewrite Hs. destruct (Hok _ _ Hr) as (Ht & Hj & Htext).
  unfold is_ok in Htext. rewrite <-Hat in Htext.
  destruct (cursor_text (mkPageCursor (js_CreatedAt s) _ _)) as [raw|] eqn:Hraw; [|done].
  assert (EncodeListJobsPageToken (js_CreatedAt s) (js_JobKey s) = Ok (raw_url_encode raw)) as Henc
    by (unfold EncodeListJobsPageToken; by rewrite Hraw).
  rewrite Henc. destruct (page_token_some _ _ _ Henc) as [Hne Hv]. split_and!; [done|done|].
  unfold job_cursor. rewrite (str_empty_ne _ Hne), (page_token_roundtrip _ _ _ Henc Ht Hj). done.
Qed.

(** ** Following the tokens *)

(** Where a token leads. *)
Definition job_token_at (token : string) (c : option job_position) : Prop :=
  (token = "" ∧ c = None) ∨
  ∃ tok binding, token = WrapJobCursor tok binding ∧ tok ≠ "" ∧ ValidString tok = true ∧ ValidString binding = true ∧
    job_cursor tok = Ok c.
Lemma token_cursor token c binding position cursor : job_token_at token c →
  UnwrapJobCursor token binding = Ok position → job_cursor position = Ok cursor → cursor = c.
Proof.
  intros [[-> ->]|(tok & b & -> & Hne & Hv & Hb & Hc)] Hu Hj.
  - injection Hu as <-. by injection Hj as <-.
  - rewrite (unwrapped_position _ _ _ _ Hne Hb Hv Hu) in Hj. congruence.
Qed.

(** One call of a client that pages through the jobs. *)
Definition list_jobs_call (ctx : Context) (req : ListJobsRequest) (token : string) (v : ToyEngine * time) :=
  ListJobs ctx (req <| lj_PageToken := token |>) v.2 v.1.

Lemma lists_record ctx req e now s : lists ctx req e now s →
  ∃ r, e_jobRecords e !! js_JobKey s = Some r ∧ js_CreatedAt s = jr_createdAt r.
Proof. intros (preds & allowed & r & _ & _ & Hr & Hl). exists r. by apply list_row_inv in Hl as [_ ?]. Qed.
Lemma list_jobs_call_page ctx req token c v page tok : listable v.1 → job_token_at token c →
  list_jobs_call ctx req token v = Ok (page, tok) →
  ∃ n next, (0 < n)%nat ∧ page_of summary_key job_before n c (lists ctx req v.1 v.2) page next ∧
    match next with Some k => tok ≠ "" ∧ job_token_at tok (Some k) | None => tok = "" end.
Proof.
  intros Hok Htok Hl. destruct (ListJobs_page _ _ _ _ _ _ Hok Hl) as (allowed & position & cursor & rows & next & Hu & Hj & _ & Hp & Ht).
  cbn [setf lj_PageToken] in Hu. rewrite (token_cursor _ _ _ _ _ Htok Hu Hj) in Hp.
  exists (page_size req), next. split_and!; [apply DiscoveryPageSize_pos|exact Hp|].
  destruct next as [k|]; [|done].
  destruct (page_last _ _ Hp k eq_refl) as (s & Hs & <- & (r & Hr & Hat)%lists_record).
  destruct (row_token _ _ _ _ Hok Hs Hr Hat) as (Hne & Hv & Hc).
  assert (ValidString (query_binding ctx (req <| lj_PageToken := token |>) allowed) = true) as Hb by apply digest_valid.
  rewrite Ht. split; [by apply wrapped_roundtrip|]. right. eexists _, _. by split_and!.
Qed.

(** C37. Listing jobs page by page, in runtimes where tokens can tell jobs apart: no
    two jobs are spelled alike by [JobKey.String] (a slash in an ID can do that, and
    [twin_lost_between_pages] shows the job that is then missed), IDs are valid UTF-8,
    and creation times can be written.  Whatever else happens to the runtime between two calls,
    the pages show jobs newest first and no job twice; what a page shows is what the
    runtime lists at that call; when there is no further token, every job that was
    listed at all calls is on one of the pages; and there are never more pages than
    different jobs. *)
Theorem list_jobs_pages ctx req views pages ended : follow (list_jobs_call ctx req) "" views = Ok (pages, ended) →
  (∀ v, v ∈ views → listable v.1) →
  read_in_pages summary_key job_before (λ v s, lists ctx req v.1 v.2 s) None views pages ended.
Proof.
  intros Hf Hok. apply (follow_pages _ _ _ _ (λ v, listable v.1) job_token_at (list_jobs_call_page ctx req) ""); [done..|by left].
Qed.

(** ** The runs of a schedule *)
Definition lists_run (req : ListScheduleRunsRequest) (e : ToyEngine) (now : time) (s : ScheduleRunSummary) : Prop :=
  ∃ r, e_jobRecords e !! js_JobKey (rs_Job s) = Some r ∧ run_row req e now (js_JobKey (rs_Job s), r) = Ok (Some s).
Definition list_runs_call (req : ListScheduleRunsRequest) (token : string) (v : ToyEngine * time) :=
  ListScheduleRuns (req <| lr_PageToken := token |>) v.2 v.1.

Lemma run_row_inv req e now kr s : run_row req e now kr = Ok (Some s) →
  js_JobKey (rs_Job s) = kr.1 ∧ js_CreatedAt (rs_Job s) = jr_createdAt kr.2.
Proof. unfold run_row. intros Hl. by split_res Hl. Qed.
Lemma run_rows_lists req e now rows s : run_rows req e now = Ok rows → s ∈ rows ↔ lists_run req e now s.
Proof.
  unfold run_rows, lists_run. intros (os & Ho & [= <-])%bind_ok. rewrite (option_rows_elem _ _ _ _ Ho). split.
  - intros ([k r] & Hin%elem_of_range & Hl). destruct (run_row_inv _ _ _ _ _ Hl) as [Hk _]. simpl in Hk. exists r. by rewrite Hk.
  - intros (r & Hr & Hl). exists (js_JobKey (rs_Job s), r). by rewrite elem_of_range.
Qed.

Lemma list_runs_call_page req token c v page tok : listable v.1 → job_cursor token = Ok c →
  list_runs_call req token v = Ok (page, tok) →
  ∃ n next, (0 < n)%nat ∧ page_of run_key job_before n c (lists_run req v.1 v.2) page next ∧
    match next with Some k => tok ≠ "" ∧ job_cursor tok = Ok (Some k) | None => tok = "" end.
Proof.
  intros Hok Htok Hl. unfold list_runs_call, ListScheduleRuns in Hl. apply bind_ok in Hl as ([] & _ & Hl).
  cbn [setf lr_PageToken lr_PageSize] in Hl. rewrite Htok in Hl. cbn [rbind] in Hl.
  apply bind_ok in Hl as (rows & Hrows & [= <- <-]). change (run_rows req v.1 v.2 = Ok rows) in Hrows.
  set (n := Z.to_nat (DiscoveryPageSize (lr_PageSize req))).
  assert (NoDup (run_key <$> rows)) as Hnd.
  { unfold run_rows in Hrows. apply bind_ok in Hrows as (os & Ho & [= <-]).
    apply (record_rows_distinct _ rs_Job _ _ Hok) in Ho; [done|]. intros kr s Hs. by apply run_row_inv in Hs as [? _]. }
  pose proof (page_filter_sort run_key job_before n c (lists_run req v.1 v.2)
    (filter (λ s, behind job_before c (run_key s) = true) rows)) as Hp. cbv zeta in Hp.
  specialize (Hp (nodup_key_filter _ _ _ Hnd)).
  specialize (Hp ltac:(intros s; by rewrite list_elem_of_filter, (run_rows_lists _ _ _ _ _ Hrows), (comm (∧)))).
  eexists n, _. split_and!; [apply DiscoveryPageSize_pos|exact Hp|]. fold run_le in Hp |- *. fold n.
  set (rest := merge_sort _ _) in *. destruct (cut_page n rest (DiscoveryPageSize_pos _)) as [[Hlt [s Hs]]| ->]; [|done].
  rewrite Hlt, Hs in *. destruct (page_last _ _ Hp (run_key s) eq_refl) as (s' & Hs' & _ & (r & Hr & Hl)).
  rewrite Hs in Hs'. injection Hs' as <-. apply run_row_inv in Hl as [_ Hat].
  destruct (row_token v.1 (rs_Job <$> take n rest) (rs_Job s) r Hok) as (Hne & _ & Hc); [by rewrite fmap_last, Hs|done..|].
  by split.
Qed.
Lemma schedule_runs_pages req views pages ended : follow (list_runs_call req) "" views = Ok (pages, ended) →
  (∀ v, v ∈ views → listable v.1) →
  read_in_pages run_key job_before (λ v s, lists_run req v.1 v.2 s) None views pages ended.
Proof.
  intros Hf Hok. by apply (follow_pages _ _ _ _ (λ v, listable v.1) (λ tok c, job_cursor tok = Ok c) (list_runs_call_page req) "").
Qed.
End jobs.

(** ** Goals and dependency waits *)
Section discovery.
Context `{RangeOrder} `{ChapterChecks} `{FloatText} `{DiscoveryText}.
Context {laws : DiscoveryTextLaws}.

Lemma discovery_roundtrip scope after scope' dims out : ValidString scope = true → Forall (λ s, ValidString s = true) after →
  EncodeDiscoveryPage scope after ≠ "" ∧
  (DecodeDiscoveryPage (EncodeDiscoveryPage scope after) scope' dims = Ok out → out = after).
Proof.
  intros Hs Ha. unfold EncodeDiscoveryPage, DecodeDiscoveryPage.
  assert (raw_url_encode (discovery_text (mkDiscoveryCursor scope after)) ≠ "") as Hne
    by (intros He%raw_url_empty; by apply discovery_text_some in He).
  split; [done|]. rewrite (str_empty_ne _ Hne), raw_url_roundtrip. cbn [mbind option_bind].
  rewrite discovery_keeps by done. cbn [mbind option_bind]. destruct (_ && _); [|done]. by intros [= <-].
Qed.

(** Candidates are either gone, or finished, or not. *)
Lemma goal_counts e k g : let s := goal_summary e k g in
  gs_CandidateCount s = gs_NonTerminalCandidateCount s + gs_TerminalCandidateCount s + gs_UnavailableCandidateCount s.
Proof.
  simpl. unfold count, record_test. induction (elements (goal_members e k)) as [|id ids IH]; [done|].
  rewrite !filter_cons. cbn [length]. destruct (candidate_record e k id) as [r|] eqn:Hr.
  - destruct (candidate_terminal k id r); simpl; lia.
  - simpl. lia.
Qed.

(** What a view lists, whatever page it is on. *)
Definition lists_goal (req : ListGoalsRequest) (e : ToyEngine) (s : GoalSummary) : Prop :=
  ∃ k g, e_GoalRows e !! k = Some g ∧ goal_row req "" e (k, g) = Ok (Some s).
Definition goals_listable (e : ToyEngine) : Prop :=
  memory_ok (goal_view e) ∧ ∀ k, is_Some (e_GoalRows e !! k) → ValidString (gk_GoalID k) = true.
Definition list_goals_call (req : ListGoalsRequest) (token : string) (e : ToyEngine) :=
  ListGoals (req <| lg_PageToken := token |>) e.

Lemma str_lt_empty a b : str_lt a b = true → str_lt "" b = true.
Proof. by destruct a, b. Qed.
Lemma goal_row_after req after e kg s :
  goal_row req after e kg = Ok (Some s) ↔ goal_row req "" e kg = Ok (Some s) ∧ str_lt after (gk_GoalID kg.1) = true.
Proof.
  unfold goal_row. destruct (String.eqb _ _); simpl; [|naive_solver].
  destruct (str_lt after _) eqn:Ha; simpl; [|naive_solver]. rewrite (str_lt_empty _ _ Ha). simpl. naive_solver.
Qed.
Lemma goal_row_key req after e kg s : memory_ok (goal_view e) → goal_row req after e kg = Ok (Some s) →
  gi_GoalKey (gs_Goal s) = kg.1 ∧ gk_TenantId kg.1 = lg_TenantId req ∧ is_Some (e_GoalRows e !! kg.1) ∧
  ∃ g, s = goal_summary e kg.1 g.
Proof.
  intros Hm. unfold goal_row. destruct (String.eqb_spec (gk_TenantId kg.1) (lg_TenantId req)) as [Ht|]; [|done].
  destruct (str_lt _ _); [|done]. cbn [negb orb]. unfold mem_Goal. simpl.
  destruct (e_GoalRows e !! kg.1) as [g|] eqn:Hg; [|done]. simpl.
  destruct (negb _); [done|]. intros (b & _ & Hs)%bind_ok. destruct b; [|done]. injection Hs as <-.
  split_and!; [|done|by eexists|by eexists]. exact (mo_goal _ Hm _ _ Hg).
Qed.

Definition goal_token_at (token : string) (c : option string) : Prop :=
  ∃ after, c = Some after ∧ ∀ scope out, DecodeDiscoveryPage token scope 1 = Ok out → default "" (out !! 0%nat) = after.

Lemma scope_valid req scope : goals_scope req = Ok scope → ValidString scope = true.
Proof. unfold goals_scope, DiscoveryPageScope. case_match; [|done]. intros [= <-]. apply query_digest_valid. Qed.
Lemma list_goals_call_page req token c e page tok : goals_listable e → goal_token_at token c →
  list_goals_call req token e = Ok (page, tok) →
  ∃ n next, (0 < n)%nat ∧ page_of goal_position str_lt n c (lists_goal req e) page next ∧
    match next with Some k => tok ≠ "" ∧ goal_token_at tok (Some k) | None => tok = "" end.
Proof.
  intros [Hm Hv] (after & -> & Hat) Hl. unfold list_goals_call, ListGoals in Hl. apply bind_ok in Hl as ([] & _ & Hl).
  apply bind_ok in Hl as (scope & Hscope & Hl). apply bind_ok in Hl as (out & Hout & Hl).
  cbn [setf lg_PageToken lg_PageSize] in Hl, Hout. rewrite (Hat _ _ Hout) in Hl.
  apply bind_ok in Hl as (os & Ho & [= <- <-]). change (map_result (goal_row req after e) (range (e_GoalRows e)) = Ok os) in Ho.
  set (n := Z.to_nat (DiscoveryPageSize (lg_PageSize req))). fold goal_le.
  assert (NoDup (goal_position <$> omap id os)) as Hnd.
  { apply (rows_distinct _ fst (λ s, gi_GoalKey (gs_Goal s)) _ _ _) with (2 := Ho); [|apply range_nodup|].
    - intros kg s Hs. by apply (goal_row_key _ _ _ _ _ Hm) in Hs as [? _].
    - intros s s' (kg & _ & Hs)%(option_rows_elem _ _ _ _ Ho) (kg' & _ & Hs')%(option_rows_elem _ _ _ _ Ho) Hp.
      apply (goal_row_key _ _ _ _ _ Hm) in Hs as (Hk & Ht & _). apply (goal_row_key _ _ _ _ _ Hm) in Hs' as (Hk' & Ht' & _).
      unfold goal_position in Hp. rewrite Hk, Hk' in *. destruct kg as [[t1 g1] ?], kg' as [[t2 g2] ?]. simpl in *. congruence. }
  pose proof (page_filter_sort goal_position str_lt n (Some after) (lists_goal req e) (omap id os) Hnd) as Hp.
  cbv zeta in Hp. specialize (Hp ltac:(
    intros s; rewrite (option_rows_elem _ _ _ _ Ho); unfold lists_goal; split;
    [intros ([k g] & Hin%elem_of_range & Hs); pose proof (goal_row_key _ _ _ _ _ Hm Hs) as (Hk & _);
     apply goal_row_after in Hs as [Hs Ha]; split; [by exists k, g|unfold goal_position; by rewrite Hk]
    |intros [(k & g & Hr & Hs) Ha]; exists (k, g); rewrite elem_of_range; split; [done|]; apply goal_row_after;
     split; [done|]; unfold goal_position in Ha; by rewrite (proj1 (goal_row_key _ _ _ _ _ Hm Hs)) in Ha])).
  eexists n, _. split_and!; [apply DiscoveryPageSize_pos|exact Hp|].
  fold goal_le in Hp |- *. set (rest := merge_sort _ _) in *.
  destruct (cut_page n rest (DiscoveryPageSize_pos _)) as [[Hlt [s Hs]]| ->]; [|done].
  rewrite Hlt, Hs in *. cbn [fmap option_fmap option_map page_token] in *.
  destruct (page_last _ _ Hp _ eq_refl) as (s' & Hs' & _ & (k & g & Hr & Hl)).
  rewrite Hs in Hs'. injection Hs' as <-. apply (goal_row_key _ _ _ _ _ Hm) in Hl as (Hk & _ & Hin & _).
  assert (ValidString (goal_position s) = true) as Hvs by (unfold goal_position; rewrite Hk; by apply Hv).
  assert (ValidString scope = true) as Hsc by (by eapply scope_valid).
  split; [by apply (discovery_roundtrip scope [goal_position s] "" 0 []); [|by constructor]|].
  exists (goal_position s). split; [done|]. intros scope' out' Hd.
  apply discovery_roundtrip in Hd as ->; [done|done|by constructor].
Qed.

(** C38. Listing goals page by page.  Whatever happens to the runtime between two
    calls, the pages show goals in the order of their IDs and none twice; a page
    shows what the runtime lists at that call; when there is no further token, every
    goal listed at all calls is on one of the pages; there are never more pages than
    different goals; and the candidates of each goal are counted exactly once. *)
Theorem list_goals_pages req views pages ended : follow (list_goals_call req) "" views = Ok (pages, ended) →
  (∀ e, e ∈ views → goals_listable e) →
  read_in_pages goal_position str_lt (lists_goal req) (Some "") views pages ended ∧
  ∀ s, s ∈ concat pages → gs_CandidateCount s =
    gs_NonTerminalCandidateCount s + gs_TerminalCandidateCount s + gs_UnavailableCandidateCount s.
Proof.
  intros Hf Hok.
  assert (read_in_pages goal_position str_lt (lists_goal req) (Some "") views pages ended) as Hread.
  { apply (follow_pages _ _ _ _ goals_listable goal_token_at (list_goals_call_page req) ""); [done..|].
    exists "". split; [done|]. by intros scope out [= <-]. }
  split; [done|]. intros s (page & Hs & Hpage)%elem_concat. destruct Hread as (_ & _ & Hrows & _).
  apply list_elem_of_lookup in Hpage as [i Hi]. destruct (Forall2_lookup_r _ _ _ _ _ Hrows Hi) as (e & He & Hl).
  destruct (Hl s Hs) as (k & g & _ & Hrow). destruct (Hok e) as [Hm _].
  { apply list_elem_of_lookup_2 in He. by apply subseteq_take in He. }
  apply (goal_row_key _ _ _ _ _ Hm) in Hrow as (_ & _ & _ & g' & ->). apply goal_counts.
Qed.
End discovery.

(** ** Cells *)
Section cells.
Context `{CellText} `{RangeOrder} `{GrantKeys} `{CellCursorText}.
Context {laws : CellCursorLaws}.

(** What a registry lists for a request, whatever page it is on. *)
Definition lists_cell (ctx : Context) (r : ListCellsRequest) (s : State) (c : Cell) : Prop :=
  cs_Cells s !! c_ID c = Some c ∧ cell_listed ctx r s (c_ID c) c = true.
(** Every reachable registry keeps cells under their IDs ([ro_id]). *)
Definition cells_listable (s : State) : Prop :=
  ∀ id c, cs_Cells s !! id = Some c → c_ID c = id ∧ ValidString id = true.
Definition list_cells_call (ctx : Context) (r : ListCellsRequest) (token : string) (v : State * time) :=
  CellList ctx (r <| lq_PageToken := token |>) v.2 v.1.
Definition cell_token_at (token : string) (c : option string) : Prop :=
  (token = "" ∧ c = Some "") ∨
  ∃ s sealed, token = seal_cursor s sealed ∧ ValidString (cu_After sealed) = true ∧ c = Some (cu_After sealed).

Lemma open_sealed s sealed s' want now w : ValidString (cu_After sealed) = true →
  open_cursor s' want (seal_cursor s sealed) now = Some w → cu_After w = cu_After sealed.
Proof.
  intros Hv. unfold open_cursor, seal_cursor.
  rewrite split_digits_dot, split_digits by apply encode_digits. rewrite !raw_url_roundtrip. cbn [mbind option_bind].
  destruct (negb _); [done|]. destruct (cell_cursor_value _) as [got|] eqn:Hg; [|done]. cbn [mbind option_bind].
  destruct (_ || _); [done|]. intros [= <-]. by apply (cell_cursor_keeps _ _ Hv Hg).
Qed.
Lemma after_token_position ctx r now s want c : cell_token_at (lq_PageToken r) c → after_token ctx r now s = Ok want →
  c = Some (cu_After want).
Proof.
  unfold after_token. intros [[-> ->]|(s0 & sealed & -> & Hv & ->)]; [by intros [= <-]|].
  destruct (str_empty _) eqn:He; [|].
  { unfold seal_cursor in He. by destruct (raw_url_encode _). }
  destruct (open_cursor _ _ _ _) as [w|] eqn:Ho; [|done]. intros [= <-]. by rewrite (open_sealed _ _ _ _ _ _ Hv Ho).
Qed.

Lemma cell_rows_elem s id c : (id, c) ∈ cell_rows s ↔ cs_Cells s !! id = Some c.
Proof.
  unfold cell_rows. rewrite list_elem_of_omap. split.
  - intros (id' & _ & Hc). destruct (cs_Cells s !! id') as [c'|] eqn:Hc'; [|done]. by injection Hc as -> ->.
  - intros Hc. exists id. rewrite Hc. split; [|done]. rewrite merge_sort_Permutation.
    apply (list_elem_of_fmap_2 fst _ (id, c)). by apply elem_of_range.
Qed.

(** The rows left to read, in the order of their IDs. *)
Lemma omap_sorted {A B} (f : A → option B) (R : A → A → Prop) (S : B → B → Prop) l :
  (∀ a a' b b', R a a' → f a = Some b → f a' = Some b' → S b b') → StronglySorted R l → StronglySorted S (omap f l).
Proof.
  intros Hf. induction 1 as [|a l Hs IH Ha]; simpl; [constructor|]. destruct (f a) as [b|] eqn:Hb; [|done].
  rewrite Forall_forall in Ha. constructor; [done|]. rewrite Forall_forall. intros b' (a' & Ha' & Hb')%list_elem_of_omap.
  by eapply Hf; [apply (Ha a')|..].
Qed.
Lemma sorted_ids {V} (m : gmap string V) : StronglySorted (row_lt id str_lt) (merge_sort str_le (range m).*1).
Proof.
  refine (sorted_strictly (@id string) str_lt _ _ _).
  { rewrite (list_fmap_id (merge_sort _ _)), merge_sort_Permutation. apply range_nodup. }
  pose proof (StronglySorted_merge_sort str_le (range m).*1) as Hs.
  induction Hs as [|a ids _ IH Ha]; constructor; [done|]. eapply Forall_impl; [exact Ha|]. clear.
  intros b. unfold str_le, str_leb, row_le, str_lt, String.leb, String.ltb. simpl. rewrite (String.compare_antisym a b).
  by destruct (String.compare b a).
Qed.
Definition rest_of (P : string * Cell → Prop) `{∀ x, Decision (P x)} (s : State) (id : string) : option Cell :=
  c ← cs_Cells s !! id; if decide (P (id, c)) then Some c else None.
Lemma rest_rows (P : string * Cell → Prop) `{∀ x, Decision (P x)} s (ids : list string) :
  snd <$> filter P (omap (λ id, (λ c, (id, c)) <$> cs_Cells s !! id) ids) = omap (rest_of P s) ids.
Proof.
  unfold rest_of. induction ids as [|id ids IH]; [done|]. simpl. destruct (cs_Cells s !! id) as [c|]; simpl; [|done].
  rewrite filter_cons. destruct (decide _); [exact (f_equal (cons c) IH)|exact IH].
Qed.

Lemma CellList_page ctx r c s now page tok : cells_listable s → cell_token_at (lq_PageToken r) c →
  CellList ctx r now s = Ok (page, tok) →
  ∃ n next, (0 < n)%nat ∧ page_of c_ID str_lt n c (lists_cell ctx r s) page next ∧
    match next with Some k => tok ≠ "" ∧ cell_token_at tok (Some k) | None => tok = "" end.
Proof.
  intros Hok Htok Hl. unfold CellList in Hl. do 3 apply bind_ok in Hl as ([] & _ & Hl).
  apply bind_ok in Hl as ([] & Hsize & Hl). apply bind_ok in Hl as (want & Hw & [= <- <-]).
  rewrite (after_token_position _ _ _ _ _ c Htok Hw). set (n := Z.to_nat _).
  assert (0 < n)%nat as Hn. { unfold guard_err in Hsize. destruct (_ && _) eqn:Hb; [|done]. apply andb_true_iff in Hb as [?%Z.leb_le _]. unfold n. lia. }
  set (P := λ kc : string * Cell, _). set (rest := snd <$> filter P _).
  assert (rest = omap (rest_of P s) (merge_sort str_le (range (cs_Cells s)).*1)) as Hrest by apply rest_rows.
  assert (page_of c_ID str_lt n (Some (cu_After want)) (lists_cell ctx r s) (take n rest)
    (if (n <? length rest)%nat then c_ID <$> last (take n rest) else None)) as Hp.
  { exists rest. split_and!; [| |done|done].
    - intros a. unfold rest, lists_cell. rewrite list_elem_of_fmap. split.
      + intros ([id a'] & -> & [[Hlt Hc] Ha]%list_elem_of_filter). apply cell_rows_elem in Ha. simpl in *.
        by rewrite (proj1 (Hok _ _ Ha)).
      + intros [[Ha Hc] Hlt]. exists (c_ID a, a). split; [done|]. by rewrite list_elem_of_filter, cell_rows_elem.
    - rewrite Hrest. apply (omap_sorted _ _ _ _) with (2 := sorted_ids (cs_Cells s)). intros id id' a a' Hlt.
      unfold rest_of. intros (b & Ha & Hb)%bind_Some (b' & Ha' & Hb')%bind_Some.
      destruct (decide _); [|done]. destruct (decide _); [|done]. simplify_eq.
      unfold row_lt. by rewrite (proj1 (Hok _ _ Ha)), (proj1 (Hok _ _ Ha')). }
  eexists n, _. split_and!; [done|exact Hp|].
  destruct (cut_page n rest Hn) as [[Hlt [a Ha]]| ->]; [|done]. rewrite Hlt, Ha in *. simpl in *.
  destruct (page_last _ _ Hp (c_ID a) eq_refl) as (a' & Ha' & _ & [Hin _]). rewrite Ha in Ha'. injection Ha' as <-.
  split; [unfold seal_cursor; by destruct (raw_url_encode _)|]. right. eexists _, (want <| cu_After := c_ID a |>).
  split_and!; [done|exact (proj2 (Hok _ _ Hin))|done].
Qed.

Lemma list_cells_call_page ctx r token c v page tok : cells_listable v.1 → cell_token_at token c →
  list_cells_call ctx r token v = Ok (page, tok) →
  ∃ n next, (0 < n)%nat ∧ page_of c_ID str_lt n c (lists_cell ctx r v.1) page next ∧
    match next with Some k => tok ≠ "" ∧ cell_token_at tok (Some k) | None => tok = "" end.
Proof. exact (CellList_page ctx (r <| lq_PageToken := token |>) c v.1 v.2 page tok). Qed.

(** C39. Listing the cells of a tenant page by page.  Whatever happens to the registry
    between two calls, the pages show cells in the order of their IDs and none twice,
    a page shows what the registry lists to the caller at that call, and when there
    is no further token every cell listed at all calls is on one of the pages. *)
Theorem list_cells_pages ctx r views pages ended : follow (list_cells_call ctx r) "" views = Ok (pages, ended) →
  (∀ v, v ∈ views → cells_listable v.1) →
  read_in_pages c_ID str_lt (λ v, lists_cell ctx r v.1) (Some "") views pages ended.
Proof.
  intros Hf Hok. apply (follow_pages _ _ _ _ (λ v, cells_listable v.1) cell_token_at (list_cells_call_page ctx r) ""); [done..|by left].
Qed.
End cells.
