(* ===== verification/ToyScheduleTheorems.v ===== *)
(** * ToyScheduleTheorems: schedules in the runtime

    What the preflight of a scheduled lease guarantees, and what polling hands out
    after it, tried on a schedule that fires every minute; and five runs in which
    schedules do what their specification rules out. *)

From stdpp Require Import pretty.
From S2P Require Import Prelude Types GoalStore GoalEngine.
From S2P Require Import Json ClientPayload Cells CellState CellTheorems Metadata Chapters Schedule ScheduleRuns.
From S2P Require Import ToyState ToyLease ToyChapters ToyPrepare ToySubmit ToySchedule ToyRestart ToyRun ToyMoves ToyTables ToyLifecycle ToyHistory ToyWorld ToyGoals ToyGoalSteps ToyPhases ToyAcquire ToyPreflight ToyScheduleLife.
From S2P Require Import ToyScenario ToyTheorems.

Section theorems.
Context `{CellText} `{RangeOrder} `{FloatText} `{ChapterChecks} `{TimeZones} `{ScheduleText} `{JSONDecoding}.

(** C14. The life of a schedule, along every run: it is never removed, its
    generation never decreases, and once archived it stays archived.  As long as
    the generation is the same, trigger, target, specification and policies are
    the same, and the only change of state is an active schedule being paused: an
    occurrence that names a generation names one specification. *)
Theorem schedule_life w w' k i :
  rtc any_step w w' → e_schedules (w_engine w) !! k = Some i →
  ∃ i', e_schedules (w_engine w') !! k = Some i' ∧
    (si_Generation i ≤ si_Generation i')%Z ∧ si_CreatedAt i' = si_CreatedAt i ∧
    (si_State i = ScheduleStateArchived → si_State i' = ScheduleStateArchived) ∧
    (si_Generation i' = si_Generation i →
       spec_of i' = spec_of i ∧
       (si_State i' = si_State i ∨ (si_State i = ScheduleStateActive ∧ si_State i' = ScheduleStatePaused))).
Proof.
  intros Hs Hi. destruct (steps_schedules _ _ Hs k i Hi) as (i' & Hi' & [Hg Hc Ha Hsp Hst]).
  exists i'. split; [done|]. split; [done|]. split; [done|]. split; [done|]. intros He. split; [by apply Hsp|by apply Hst].
Qed.


(** C28. What [PollWork] hands out is sound: at most the limit, all of different jobs
    of the tenant, in cells the caller may take work from, whose metadata matches the
    predicates of the request, each one granted (nobody held the job, its
    dependencies are done, and when the request returns, after the preflights of all
    scheduled jobs it acquired, the lease is live under an ID of its own for the
    caller, on a route the caller asked for). *)
Theorem poll_work_sound w ctx req now new_id fresh_goal e' ls :
  reachable w → (w_now w ≤ now)%Z → (∀ n, new_id n ≠ "") →
  PollWork ctx req now new_id fresh_goal (w_engine w) = (e', Ok ls) →
  ∃ ps allowed e1 acquired,
    normalizeMetadataPredicates (pw_MetadataEquals req) = Ok ps ∧
    Select ctx (pw_TenantId req) (pw_CellNames req) "jobs.acquire" (cellsLocked (pw_TenantId req) (w_engine w)) = Ok allowed ∧
    acquire_ready ctx req now new_id (w_engine w) = (e1, Ok acquired) ∧ ls `sublist_of` acquired ∧
    (length ls ≤ Nat.max 1 (Z.to_nat (pw_Limit req)))%nat ∧ NoDup (l_jobKey <$> ls) ∧
    ∀ l, l ∈ ls → ∃ n, acquired !! n = Some l ∧
      (∃ r, e_jobRecords (w_engine w) !! l_jobKey l = Some r ∧ selected req allowed ps (l_jobKey l) r) ∧
      granted now (pw_Routes req) (pw_WorkerID req) (new_id n) (w_engine w) e' l.
Proof.
  intros Hw Hle Hne. unfold PollWork, m_bind.
  destruct (acquire_ready ctx req now new_id (w_engine w)) as [e1 [acquired|]] eqn:Hacq; [|done]. intros Hall.
  destruct (acquire_ready_sound _ _ _ _ _ _ _ Hw Hle Hne Hacq) as (ps & allowed & Hps & Hsel & Hlen & Hnd & Hgrant).
  destruct (preflight_all_sound _ _ _ _ _ _ _ Hnd Hall) as [Hsub Hkeep].
  exists ps, allowed, e1, acquired. do 4 (split; [done|]).
  split; [apply sublist_length in Hsub; lia|].
  split; [eapply sublist_NoDup; [exact Hnd|by apply fmap_sublist]|].
  intros l Hl. assert (l ∈ acquired) as [n Hn]%list_elem_of_lookup by (by eapply elem_of_sublist).
  destruct (Hgrant n l Hn) as [Hs [(r & r' & Hr & Hr' & Hrest) Hid Hwk Hroute]].
  exists n. split; [done|]. split; [done|]. split; [|done..]. exists r, r'. split; [done|]. split; [by apply Hkeep|done].
Qed.
End theorems.

(** ** A schedule that fires every minute *)
#[export] Instance strict_json : JSONDecoding := λ raw, match parse raw with Ok v => Some v | Err _ => None end.

Definition every_minute : ScheduleTrigger := mkTrigger ScheduleTriggerInterval "" "" None None minute.
Definition tick_target : ScheduleTarget :=
  mkScheduleTarget "a" "" "" None "w" (Some (mkTaskInput "{}" [])) (JObj []) None.
Definition tick : UpsertScheduleRequest :=
  mkUpsert "t" "s" every_minute tick_target "" (mkFailurePolicy 0 0 0) false None 0.
Definition admin : Context := mkContext
  (Some (mkAuthority "p" "t" {["cells.get"; "cells.update"; "jobs.submit"; "jobs.acquire"]} None)) None None.

Definition s1 : ToyEngine := Eval vm_compute in (UpsertSchedule boss tick 2 "g1" e1).1.
Definition info1 : ScheduleInfo := Eval vm_compute in
  match (UpsertSchedule boss tick 2 "g1" e1).2 with Ok i => i | Err _ => upsert_info tick tick_target "" None 0 None end.
Lemma upsert1 : UpsertSchedule boss tick 2 "g1" e1 = (s1, Ok info1). Proof. vm_compute. reflexivity. Qed.

(** The first occurrence, and what a worker finds three nanoseconds in. *)
Definition first_run : JobKey := mkJobKey "t" "jobdbsched_s_g1_run_00010101T000000000000002Z".
Definition want_run : GetJobLeaseRequest := mkGetLease first_run "w1" [mkRoute "w" ""] 10.
Definition s2 : ToyEngine := Eval vm_compute in (GetJobLease boss want_run 3 "L" "g2" s1).1.
Definition tick_ctx : Context := WithSchedule boss (mkScheduleKey "t" "s").
Definition tick_prep : Preparation := Eval vm_compute in
  match SubmitPreparation (occurrence_job info1 (jk_JobId first_run)) "" with Ok p => p | Err _ => prep end.
Definition tick_job : NewJob * Chapter := Eval vm_compute in
  match (prepare_occurrence info1 first_run 2 "" "" false 2 s1).2 with Ok p => p | Err _ => (fresh, start0) end.
Definition s_upsert : section := SUpsert boss tick tick_target (Some 2%Z).
Definition s_reserve : section := SPrepare tick_ctx tick_prep no_generated_key "g1".
Definition p1 : ToyEngine := Eval vm_compute in (exec s_upsert 2 e1).1.
Definition p2 : ToyEngine := Eval vm_compute in (exec s_reserve 2 p1).1.
Definition s_tick : section :=
  SScheduled tick_ctx first_run tick_job.1 2 "" "serial" "{}" (ch_InputHash tick_job.2) (ch_Metadata tick_job.2) [].
Lemma tick_run1 : (exec s_upsert 2 e1).1 = p1. Proof. vm_compute. reflexivity. Qed.
Lemma tick_run2 : (exec s_reserve 2 p1).1 = p2. Proof. vm_compute. reflexivity. Qed.
Lemma tick_run3 : (exec s_tick 2 p2).1 = s1. Proof. vm_compute. reflexivity. Qed.

(** The sections [UpsertSchedule] runs lead to the engine it leaves. *)
Definition tw1 : World := mkWorld 2 ∅ p1.
Definition tw2 : World := mkWorld 2 {["g1"]} p2.
Definition tw3 : World := mkWorld 2 {["g1"]} s1.
Lemma tick_reach : reachable tw3.
Proof.
  exists w0. split; [by exists (λ _, "k")|]. eapply rtc_l; [exists s_cell; exact step1|].
  eapply rtc_l; [eexists; apply (section_step s_upsert w1 2 ∅ p1); [done|apply NoDup_nil_2|set_solver|done|done|set_solver|exact tick_run1]|].
  eapply rtc_l; [eexists; apply (section_step s_reserve tw1 2 {["g1"]} p2); [done|apply NoDup_singleton|set_solver|done|done|set_solver|exact tick_run2]|].
  apply rtc_once. eexists. apply (section_step s_tick tw2 2 {["g1"]} s1);
    [done|apply NoDup_nil_2|set_solver|done|done|set_solver|exact tick_run3].
Qed.

Definition lease1 : runtimeLease :=
  mkLease first_run "L" (mkRoute "w" "") (mkPayload (JObj []) None) None 0 "w1" 13 10 "".
Definition run_record (k : JobKey) (e : ToyEngine) : jobRecord := default no_record (e_jobRecords e !! k).

(** The schedule is archived while its first occurrence is waiting. *)
Definition change : ScheduleMutationRequest := mkMutation (mkScheduleKey "t" "s") None 0.
Definition s_archive : section := SMutate boss change ScheduleStateArchived.
Definition p4 : ToyEngine := Eval vm_compute in (exec s_archive 4 s1).1.
Lemma tick_run4 : (exec s_archive 4 s1).1 = p4. Proof. vm_compute. reflexivity. Qed.
Lemma info_at1 : e_schedules s1 !! mkScheduleKey "t" "s" = Some info1. Proof. vm_compute. reflexivity. Qed.

Definition tw4 : World := mkWorld 4 {["g1"]} p4.
Lemma step_archive : step s_archive tw3 tw4.
Proof. apply (section_step s_archive tw3 4 {["g1"]} p4); [done|apply NoDup_nil_2|set_solver|done|done|set_solver|exact tick_run4]. Qed.
Definition a5 : ToyEngine := Eval vm_compute in (acquire_job boss want_run 5 "L" p4).1.
Definition info4 : ScheduleInfo := Eval vm_compute in default info1 (e_schedules a5 !! mkScheduleKey "t" "s").
Lemma info_at5 : e_schedules a5 !! mkScheduleKey "t" "s" = Some info4. Proof. vm_compute. reflexivity. Qed.


(** Polling hands out the occurrence, and its successor is there. *)
Definition poll_run : PollWorkRequest := mkPoll None "t" "w1" [mkRoute "w" ""] 3 10 [].
Definition polled : ToyEngine := Eval vm_compute in (PollWork boss poll_run 3 (λ _, "L") (λ _, "g2") s1).1.
Lemma polled1 : PollWork boss poll_run 3 (λ _, "L") (λ _, "g2") s1 = (polled, Ok [lease1]). Proof. vm_compute. reflexivity. Qed.
Lemma poll_work_sound_witness : granted 3 [mkRoute "w" ""] "w1" "L" s1 polled lease1.
Proof.
  destruct (poll_work_sound tw3 boss poll_run 3 (λ _, "L") (λ _, "g2") polled [lease1] tick_reach)
    as (ps & allowed & e1 & acquired & _ & _ & _ & _ & _ & _ & Hall); [done|done|exact polled1|].
  destruct (Hall lease1 (list_elem_of_here _ _)) as (n & _ & _ & Hg). exact Hg.
Defined.

Lemma schedule_life_witness :
  ∃ i', e_schedules p4 !! mkScheduleKey "t" "s" = Some i' ∧ (1 ≤ si_Generation i')%Z ∧ si_CreatedAt i' = 2%Z.
Proof.
  destruct (schedule_life tw3 tw4 _ info1 (rtc_once _ _ (ex_intro _ s_archive step_archive)) info_at1) as (i' & Hi' & Hg & Hc & _). exists i'. done.
Defined.

(** ** Runs the specification of schedules rules out *)

(** The jobs submitted as successors of a job. *)
Definition successors (id : string) (e : ToyEngine) : list JobKey :=
  (filter (λ kr, bool_decide (jr_waitFor kr.2 = [id]) = true) (map_to_list (e_jobRecords e))).*1.

(** A worker takes the occurrence and dies; the next one takes it before any
    chapter was written.  The preflight runs again, at another time, and submits a
    second successor: from here on the schedule runs twice a minute. *)
Definition s3 : ToyEngine := Eval vm_compute in (GetJobLease boss want_run 30 "M" "g3" s2).1.
Lemma retried_preflight_forks :
  is_ok (GetJobLease boss want_run 30 "M" "g3" s2).2 = true ∧
  length (successors (jk_JobId first_run) s2) = 1 ∧ length (successors (jk_JobId first_run) s3) = 2.
Proof. vm_compute. split; [reflexivity|split; reflexivity]. Qed.

(** A run triggered by hand submits a successor of its own, beside the one of the
    regular run. *)
Definition by_hand : TriggerScheduleRequest := mkTriggerNow (mkScheduleKey "t" "s") "r" 0.
Definition hand_run : JobKey := mkJobKey "t" "jobdbsched_s_manual_r".
Definition s4 : ToyEngine := Eval vm_compute in (TriggerSchedule boss by_hand 5 "g4" s2).1.
Definition want_hand : GetJobLeaseRequest := mkGetLease hand_run "w2" [mkRoute "w" ""] 10.
Definition s6 : ToyEngine := Eval vm_compute in (GetJobLease boss want_hand 6 "O" "g6" s4).1.
Lemma manual_run_starts_a_chain :
  length (successors (jk_JobId first_run) s6) = 1 ∧ length (successors (jk_JobId hand_run) s6) = 1.
Proof. vm_compute. split; reflexivity. Qed.

(** A schedule paused because its cell moved keeps that reason when it is archived,
    and its waiting occurrence still runs. *)
Definition move_cell : UpdateCellRequest := mkUpdateCell (mkCellKey "t" "c") (quoted "v") None (Some "h/q") None None.
Definition s7 : ToyEngine := Eval vm_compute in (UpdateCell admin move_cell 3 "v2" s1).1.
Definition s8 : ToyEngine := Eval vm_compute in (ArchiveSchedule admin change 4 "g7" s7).1.
Lemma archived_schedule_runs :
  (si_State <$> e_schedules s8 !! mkScheduleKey "t" "s") = Some ScheduleStateArchived ∧
  ∃ l, (GetJobLease boss want_run 5 "P" "g8" s8).2 = Ok (Some l).
Proof. vm_compute. split; [reflexivity|]. eexists. reflexivity. Qed.

(** The preflight does not look at the end of the schedule: a run triggered after it
    is handed out. *)
Definition brief : UpsertScheduleRequest :=
  mkUpsert "t" "s" (mkTrigger ScheduleTriggerInterval "" "" None (Some 4%Z) minute) tick_target "" (mkFailurePolicy 0 0 0)
    false None 0.
Definition b1 : ToyEngine := Eval vm_compute in (UpsertSchedule boss brief 2 "g1" e1).1.
Definition b2 : ToyEngine := Eval vm_compute in (TriggerSchedule boss by_hand 5 "g4" b1).1.
Lemma ended_schedule_runs :
  (λ i, tr_EndAt (si_Trigger i)) <$> e_schedules b2 !! mkScheduleKey "t" "s" = Some (Some 4%Z) ∧
  (∃ o, ExtractScheduleOccurrenceMetadata (jr_metadata (run_record hand_run b2)) = Ok (Some o) ∧ om_ScheduledAt o = 5%Z) ∧
  ∃ l, (GetJobLease boss want_hand 6 "O" "g6" b2).2 = Ok (Some l).
Proof. vm_compute. split; [reflexivity|]. split; [eexists; split; reflexivity|]. eexists. reflexivity. Qed.

(** A worker that may acquire jobs but not submit them is refused by the preflight,
    after it has acquired the job: nobody works on it until the lease expires. *)
Definition worker : Context := mkContext (Some (mkAuthority "p" "t" {["jobs.acquire"]} None)) None None.
Definition s9 : ToyEngine := Eval vm_compute in (GetJobLease worker want_run 3 "Q" "g9" s1).1.
Lemma acquire_only_worker_strands :
  is_ok (GetJobLease worker want_run 3 "Q" "g9" s1).2 = false ∧ jr_leased (run_record first_run s9) = true ∧
  ∃ l, (acquire_job worker want_run 3 "Q" s1).2 = Ok (Some l).
Proof. vm_compute. split; [reflexivity|]. split; [reflexivity|]. eexists. reflexivity. Qed.
