(* ===== verification/ToyEffects.v ===== *)
(** * ToyEffects: all or nothing

    What single critical sections do when they succeed, and that they do nothing
    when they fail: rescheduling, publishing a job, answering an external task,
    deleting jobs and retiring a cell; and that a task is answered once, whatever
    happens afterwards. *)

From S2P Require Import Prelude Types GoalStore GoalEngine GoalCycles GoalWaits GoalInvariant GoalLive GoalGraph GoalTotal GoalStable GoalTheorems.
From S2P Require Import Json ClientPayload Cells CellState Metadata Chapters Schedule ScheduleRuns.
From S2P Require Import ToyState ToyLease ToyChapters ToySubmit ToySchedule ToyRestart ToyRun ToyMoves ToyTables ToyLifecycle ToyHistory ToyWorld ToyGoals ToyGoalSteps ToyPhases ToyScenario ToyTheorems.

(** Everything but the goal tables and the records. *)
Definition same_rest (e e' : ToyEngine) : Prop :=
  e_cells e' = e_cells e ∧ e_preparedGoals e' = e_preparedGoals e ∧ e_goalRequests e' = e_goalRequests e ∧
  e_schedules e' = e_schedules e ∧ e_runtimeChapters e' = e_runtimeChapters e ∧
  e_runtimeArtifacts e' = e_runtimeArtifacts e.

Lemma existsb_false_elem {A} (f : A → bool) l : existsb f l = false ↔ ∀ x, x ∈ l → f x = false.
Proof.
  induction l as [|a l IH]; simpl; [split; [by intros _ x ?%elem_of_nil|done]|].
  rewrite orb_false_iff, IH. setoid_rewrite elem_of_cons. naive_solver.
Qed.

Lemma nodup_filter_fst {A B} (P : A * B → Prop) `{∀ x, Decision (P x)} (l : list (A * B)) :
  NoDup l.*1 → NoDup (filter P l).*1.
Proof.
  induction l as [|x l IH]; [done|]. rewrite fmap_cons, NoDup_cons. intros [Hx Hnd].
  destruct (decide (P x)); [rewrite filter_cons_True by done|rewrite filter_cons_False by done; by apply IH].
  rewrite fmap_cons. apply NoDup_cons. split; [|by apply IH].
  intros (y & Hy & [_ Hin]%list_elem_of_filter)%list_elem_of_fmap. apply Hx. rewrite Hy. by apply list_elem_of_fmap_2.
Qed.

Section effects.
Context `{CellText} `{RangeOrder} `{FloatText} `{ChapterChecks} `{TimeZones} `{ScheduleText}.

Lemma reschedule_goals_wait key old dw now s s' wid :
  memory_ok s → reschedule_goals key old (Some dw) now s = (s', Ok wid) →
  wid = dw_WaitID dw ∧ ∃ w, mem_Wait s' (mkWaitKey key wid) = Ok w.
Proof.
  intros Hok. unfold reschedule_goals. unfold m_bind at 1.
  destruct ((if _ && _ then CloseConsumer now key else m_ret tt) s) as [s1 [[]|]] eqn:Hc; [|done].
  assert (memory_ok s1) as Hok1.
  { pose proof (forward_close now key s Hok) as [Hf _]. destruct (_ && _) in Hc; [by rewrite Hc in Hf|].
    by injection Hc as <-. }
  unfold m_bind. destruct (Register now key dw false s1) as [s2 [w|]] eqn:Hr; [|done].
  intros [= <- <-]. split; [done|]. exists (copy_wait w). exact (register_saves now key dw false s1 s2 w Hok1 Hr).
Qed.

Lemma reschedule_goals_none key old now s s' wid : reschedule_goals key old None now s = (s', Ok wid) → wid = "".
Proof.
  unfold reschedule_goals, m_bind. destruct ((if negb (str_empty old) && negb false then CloseConsumer now key else m_ret tt) s) as [s1 [[]|]]; [|done].
  unfold m_ret. by intros [= _ <-].
Qed.

Lemma rescheduled_static now req task wid v n r (r' := rescheduled_record now req task wid v n r) :
  jr_route r' = re_NextRoute req ∧ jr_waitFor r' = re_WaitForJobIDs req ∧
  jr_clientPayload r' = v ∧ jr_clientPayloadRevision r' = n.
Proof.
  unfold r', rescheduled_record, requeued_record, handed_over_record, released_record, add_pending_step.
  destruct task, (re_AlternateAfter req), (negb _), (re_WaitUntil req); cbn [fmap option_fmap option_map];
    repeat (case_match; simpl); done.
Qed.

Lemma clone_rest {A} (m : M Memory A) e : same_rest e (run_goals_clone m e).1.
Proof. unfold run_goals_clone. simpl. by destruct (is_ok _). Qed.

Lemma clone_error {A} (m : M Memory A) e err : (run_goals_clone m e).2 = Err err → (run_goals_clone m e).1 = e.
Proof. unfold run_goals_clone. simpl. by intros ->. Qed.

Lemma clone_memory {A} (m : M Memory A) e a :
  (run_goals_clone m e).2 = Ok a →
  m (goal_view e) = ((m (goal_view e)).1, Ok a) ∧ (run_goals_clone m e).1 = put_goals (m (goal_view e)).1 e.
Proof. unfold run_goals_clone. simpl. intros Ha. rewrite Ha. split; [|done]. rewrite <- Ha. apply surjective_pairing. Qed.

(** C29. Rescheduling is all or nothing: an error leaves the whole engine as it
    was; success requires the live lease, changes only the job's own record and the
    goal tables, registers the wait it names, and leaves the job open with its
    lease gone and its expiry counter reset. *)
Theorem reschedule_all_or_nothing key id wk req now e e' res :
  tables_ok e → rescheduleLease key id wk req now e = (e', res) →
  match res with
  | Err _ => e' = e
  | Ok _ => ∃ r r', e_jobRecords e !! key = Some r ∧ holds_lease now id wk r = true ∧
      e_jobRecords e' = <[key := r']> (e_jobRecords e) ∧ same_rest e e' ∧
      (∀ now' id', live now' id' r' = false) ∧ phase_of now r' = Queued ∧ jr_consecutiveExpirations r' = 0%Z ∧
      jr_route r' = re_NextRoute req ∧ jr_waitFor r' = re_WaitForJobIDs req ∧
      Apply (jr_clientPayload r) (jr_clientPayloadRevision r) (re_ClientPayloadUpdate req)
        = Ok (jr_clientPayload r', jr_clientPayloadRevision r') ∧
      jr_dependencyWaitID r' = match re_DependencyWait req with Some dw => dw_WaitID dw | None => "" end ∧
      (is_Some (re_DependencyWait req) → ∃ w, mem_Wait (goal_view e') (mkWaitKey key (jr_dependencyWaitID r')) = Ok w)
  end.
Proof.
  intros Hok. unfold rescheduleLease.
  destruct (reschedule_check key id wk req now e) as [[[r task] [v n]]|] eqn:Hc; [|by intros [= <- <-]].
  pose proof (reschedule_check_ok _ _ _ _ _ _ _ _ _ Hc) as [Hr Hh].
  set (m := reschedule_goals key (jr_dependencyWaitID r) (re_DependencyWait req) now).
  destruct (run_goals_clone m e) as [e1 [wid|err]] eqn:Hg.
  2: { intros [= <- <-]. rewrite <- (clone_error m e err); [|by rewrite Hg]. by rewrite Hg. }
  intros [= <- <-].
  pose proof (clone_memory m e wid ltac:(by rewrite Hg)) as [Hm He1].
  pose proof (run_goals_clone_records m e) as Hrec. pose proof (clone_rest m e) as Hrest.
  rewrite Hg in He1, Hrec, Hrest. cbn [fst] in He1, Hrec, Hrest.
  destruct (rescheduled_static now req task wid v n r) as (Hroute & Hwait & Hv & Hn).
  destruct (rescheduled_fields now req task wid v n r) as (_ & _ & Hl & Ha & _ & Hcnt & _ & _ & Hdw & _).
  exists r, (rescheduled_record now req task wid v n r). cbn [fst snd].
  set (r' := rescheduled_record now req task wid v n r) in *. clearbody r'.
  split; [done|]. split; [done|]. split; [by simpl; rewrite Hrec|]. split; [done|].
  split; [intros; by apply not_leased_not_live|].
  split; [apply phase_queued; [done|]; rewrite Ha; apply holds_fields in Hh; tauto|].
  split; [done|]. split; [done|]. split; [done|]. split.
  { unfold reschedule_check in Hc. rewrite Hv, Hn.
    do 5 (apply bind_ok in Hc as (? & ? & Hc)). apply bind_ok in Hc as ([v' n'] & Hap & Hc).
    unfold of_option in *. destruct (e_jobRecords e !! key); simplify_eq. done. }
  rewrite Hdw. destruct (re_DependencyWait req) as [dw|] eqn:Hdep.
  - destruct (reschedule_goals_wait key (jr_dependencyWaitID r) dw now (goal_view e) _ wid (tables_memory _ Hok) Hm) as [-> [w Hw]].
    split; [done|]. intros _. exists w. unfold mem_Wait in *. rewrite He1. exact Hw.
  - split; [|by intros []]. by eapply reschedule_goals_none.
Qed.

(** ** Publishing a job *)

(** The goal transitions of a publication succeed only with the goal in place and
    no dependency cycle through it, and they never touch the job facts. *)
Lemma register_jobs key dw sub now s :
  memory_ok s → memory_ok (Register now key dw sub s).1 ∧ (∀ k, LookupJob (Register now key dw sub s).1 k = LookupJob s k) ∧
  ∀ gk g, mem_Goal s gk = Ok g → ∃ g', mem_Goal (Register now key dw sub s).1 gk = Ok g'.
Proof.
  intros Hok. assert (mono (λ _, True) (λ _ _, True) (Register now key dw sub)) as Hm by (by apply Register_mono).
  destruct (Hm s Hok) as [Hok' He].
  split; [done|]. split; [exact (ev_job _ _ _ _ He)|]. intros gk g Hg.
  destruct (ev_goal _ _ _ _ He gk g Hg) as (g' & Hg' & _). by exists g'.
Qed.

Lemma jobs_ext (s s' : Memory) : (∀ k, LookupJob s' k = LookupJob s k) → m_Jobs s' = m_Jobs s.
Proof.
  intros He. apply map_eq. intros k. specialize (He k). unfold LookupJob in He.
  destruct (m_Jobs s' !! k), (m_Jobs s !! k); simplify_eq; done.
Qed.

(** The wait a job with dependencies is submitted with. *)
Definition submission_wait (p : Preparation) : DependencyWait := mkDependencyWait "submission" (pp_Dependencies p) None.

Lemma publish_goals_ok key p r now s s' :
  memory_ok s → publish_goals key p r now s = (s', Ok tt) →
  let gk := mkGoalKey (jk_TenantId key) (pg_GoalID p) in
  m_Jobs s' = m_Jobs s ∧ (∃ g, mem_Goal s' gk = Ok g) ∧
  (0 < length (pp_Dependencies (pg_Request p)) →
     ∃ w, mem_Wait s' (mkWaitKey key "submission") = Ok w ∧ describes w (submission_wait (pg_Request p)))%nat ∧
  CheckCycle now (jk_TenantId key) (mkTarget "" (pg_GoalID p)) s' = Ok tt.
Proof.
  intros Hok. unfold publish_goals. set (gk := mkGoalKey (jk_TenantId key) (pg_GoalID p)).
  set (save := if pp_ShareGoal _ then _ else _).
  assert (∀ s1, save s = (s1, Ok tt) → memory_ok s1 ∧ m_Jobs s1 = m_Jobs s ∧ ∃ g, mem_Goal s1 gk = Ok g) as Hsave.
  { intros s1. unfold save. destruct (pp_ShareGoal _).
    - unfold m_bind, m_read. destruct (mem_Goal s gk) as [g|] eqn:Hg; [|done]. intros Hg1.
      assert (s1 = s) as -> by (by injection Hg1). eauto.
    - unfold m_write. set (g := mkGoalInfo _ _ _ _ _ _ _ _ _ _ _). simpl. intros [= <-].
      split; [by apply (@save_goal_ok _ _ memory_laws s g)|]. split; [done|].
      exists (copy_goal g). unfold mem_Goal. simpl. by rewrite lookup_insert_eq. }
  clearbody save. unfold m_bind at 1. destruct (save s) as [s1 [[]|]]; [|done].
  destruct (Hsave s1 eq_refl) as (Hok1 & Hj1 & g & Hg). clear Hsave.
  unfold m_bind at 1. set (reg := if bool_decide _ then _ else _).
  assert (m_Jobs (reg s1).1 = m_Jobs s1 ∧ (∃ g', mem_Goal (reg s1).1 gk = Ok g') ∧
    ((reg s1).2 = Ok tt → 0 < length (pp_Dependencies (pg_Request p)) →
     ∃ w, mem_Wait (reg s1).1 (mkWaitKey key "submission") = Ok w ∧ describes w (submission_wait (pg_Request p)))%nat) as Hreg.
  { unfold reg. destruct (bool_decide_reflect (length (pp_Dependencies (pg_Request p)) = 0)%nat);
      [split; [done|]; split; [by exists g|lia]|].
    destruct (register_jobs key (submission_wait (pg_Request p)) true now s1 Hok1) as (_ & Hj & Hgoal). unfold m_bind, m_ret.
    pose proof (register_describes now key (submission_wait (pg_Request p)) true s1) as Hreg. unfold submission_wait in *.
    destruct (Register now key _ true s1) as [s2 [w|]]; simpl in *;
      (split; [by apply jobs_ext|]; split; [by eapply Hgoal|]; intros Hr _); [|done].
    by apply (Hreg s2 w Hok1). }
  clearbody reg. destruct (reg s1) as [s2 [[]|]]; [|done]. simpl in Hreg. unfold m_read.
  intros [= <- Hc]. destruct Hreg as (Hj2 & Hg2 & Hw2). split; [congruence|]. split; [done|]. split; [by apply Hw2|exact Hc].
Qed.

Lemma publish_goal_view ctx key r now e e' :
  tables_ok e → publishGoalLocked ctx key r now (put_record key r e) = Ok e' →
  (∃ g p, e_preparedGoals e !! key = Some p ∧ mem_Goal (goal_view e') (mkGoalKey (jk_TenantId key) (pg_GoalID p)) = Ok g ∧
    (0 < length (pp_Dependencies (pg_Request p)) →
       ∃ w, mem_Wait (goal_view e') (mkWaitKey key "submission") = Ok w ∧ describes w (submission_wait (pg_Request p)))%nat ∧
    CheckCycle now (jk_TenantId key) (mkTarget "" (pg_GoalID p)) (goal_view e') = Ok tt) ∧
  e_preparedGoals e' = e_preparedGoals e ∧ e_goalRequests e' = e_goalRequests e ∧ e_schedules e' = e_schedules e ∧
  e_runtimeArtifacts e' = e_runtimeArtifacts e.
Proof.
  intros Hok. unfold publishGoalLocked. simpl. destruct (e_preparedGoals e !! key) as [p|]; [|done]. simpl.
  destruct (publishCellLocked _ _ _ _) as [[cell cells]|]; [|done]. simpl.
  match goal with |- context [publish_goals key p ?r1 now (goal_view ?e2)] =>
    set (e1 := e2); set (r1' := r1); assert (tables_ok e1) as Hok1 by (by apply (engine_same e)) end.
  destruct (publish_goals key p r1' now (goal_view e1)) as [m [[]|]] eqn:Hp; [|done]. simpl.
  intros [= <-]. simpl. split; [|done].
  destruct (publish_goals_ok key p r1' now _ m (tables_memory _ Hok1) Hp) as (Hj & [g Hg] & Hw & Hc).
  match goal with |- ∃ g p0, _ ∧ mem_Goal ?v _ = _ ∧ _ => assert (v = m) as -> end; [|by exists g, p].
  destruct m as [G X W J]. simpl in Hj. unfold goal_view. simpl. f_equal. rewrite Hj. unfold e1, goal_view. simpl.
  apply map_eq. intros k. rewrite !map_lookup_imap, !insert_insert_eq, !lookup_insert.
  case_decide; [|done]. simpl. f_equal. unfold r1'. by destruct (bool_decide _).
Qed.

(** C30. Publishing a job is all or nothing: a job that exists is returned and
    nothing changes; an error changes nothing; success adds exactly one record with
    the identity, goal and cell that were reserved, its one-chapter history, its
    goal and, if it has dependencies, the wait on exactly these dependencies, which
    the record names, with no dependency cycle through the goal. *)
Theorem publish_all_or_nothing ctx key r start now e e' res :
  tables_ok e → histories_ok e → publish_job ctx key r start now e = (e', res) →
  match e_jobRecords e !! key, res with
  | Some existing, _ => e' = e ∧ res = Ok (cellHandleLocked key existing e)
  | None, Err _ => e' = e
  | None, Ok h => ∃ p r', e_preparedGoals e !! key = Some p ∧
      e_jobRecords e' = <[key := r']> (e_jobRecords e) ∧
      e_runtimeChapters e' = <[key := {[0%Z := start]}]> (e_runtimeChapters e) ∧
      jr_key r' = key ∧ jr_goalID r' = pg_GoalID p ∧ jr_status r' = jr_status r ∧
      h = Handle (jr_cell r') key (pg_GoalID p) ∧
      (0 < length (pp_Dependencies (pg_Request p)) →
         jr_dependencyWaitID r' = "submission" ∧
         ∃ w, mem_Wait (goal_view e') (mkWaitKey key (jr_dependencyWaitID r')) = Ok w ∧
              describes w (submission_wait (pg_Request p)))%nat ∧
      (∃ g, mem_Goal (goal_view e') (mkGoalKey (jk_TenantId key) (pg_GoalID p)) = Ok g) ∧
      CheckCycle now (jk_TenantId key) (mkTarget "" (pg_GoalID p)) (goal_view e') = Ok tt
  end.
Proof.
  intros Hok Hho. unfold publish_job. destruct (e_jobRecords e !! key) eqn:Hk; [by intros [= <- <-]|].
  destruct (publishGoalLocked ctx key r now (put_record key r e)) as [e2|err] eqn:Hp.
  2: { intros [= <- <-]. destruct e. simpl in *. f_equal. by apply delete_insert_id. }
  intros [= <- <-].
  destruct (publish_goal_view _ _ _ _ _ _ Hok Hp) as [(g & p & Hprep & Hg & Hw & Hc) _].
  apply publish_goal_ok in Hp as (p' & cell & wait & Hprep' & Hwait & Hrec & Hch).
  simpl in Hprep'. rewrite Hprep in Hprep'. injection Hprep' as <-.
  assert (e_runtimeChapters e !! key = None) as Hkc
    by (apply eq_None_not_Some; intros [? ?]%(ho_domain _ Hho); congruence).
  simpl in Hrec, Hch. rewrite insert_insert_eq in Hrec.
  eexists p, _. split; [exact Hprep|]. split; [simpl; exact Hrec|].
  split; [simpl; unfold chapters_of; by rewrite Hch, Hkc|]. simpl. split; [done|]. split; [done|]. split; [done|].
  split; [by rewrite Hrec, lookup_insert_eq|].
  split; [rewrite Hwait; intros Hl; rewrite bool_decide_eq_false_2 by lia; split; [done|]; by apply Hw|].
  split; [by exists g|exact Hc].
Qed.

(** ** Answering an external task *)
Definition resume_type (req : CompleteTaskIfWaitingRequest) (w : workerTaskWait) : string :=
  if str_empty (ct_ResumeJobType req) then wt_Next w else ct_ResumeJobType req.

(** A refused answer: the error, and an engine in which at most the job's record
    was brought up to date. *)
Definition refused_answer (key : JobKey) (now : time) (e : ToyEngine) (q : ToyEngine * result ()) : Prop :=
  (q.2 = Err ErrJobNotFound ∨ q.2 = Err ErrConflict) ∧
  (q.1 = e ∨ ∃ r, e_jobRecords e !! key = Some r ∧
     q.1 = put_record key (advanceRecordStateLocked e (jk_TenantId key) now r) e).

(** An accepted one: the chapter fills the free output ordinal, its artifacts are
    stored, the task wait is over, and the job is queued again on its own route, or
    has failed if the answer was too large. *)
Record accepted_answer (req : CompleteTaskIfWaitingRequest) (w : workerTaskWait) (a : TaskAnswer) (now : time)
    (e e' : ToyEngine) : Prop := {
  aa_free : chapters_of (ct_JobKey req) e !! wt_OutputStep w = None;
  aa_previous : is_Some (chapters_of (ct_JobKey req) e !! (wt_OutputStep w - 1)%Z);
  aa_chapters : e_runtimeChapters e' =
    <[ct_JobKey req := <[wt_OutputStep w := ta_Chapter a]> (chapters_of (ct_JobKey req) e)]> (e_runtimeChapters e);
  aa_artifacts : e_runtimeArtifacts e' =
    e_runtimeArtifacts (put_artifacts (ct_JobKey req) (wt_OutputStep w) (ta_Artifacts a) e);
  aa_others : ∀ k, k ≠ ct_JobKey req → e_jobRecords e' !! k = e_jobRecords e !! k;
  aa_record : ∃ r, e_jobRecords e' !! ct_JobKey req = Some r ∧ wp_TaskWait (jr_payload r) = None ∧
    match ta_SizeFailure a with
    | None => phase_of now r = Queued ∧ jr_route r = mkRoute (resume_type req w) ""
    | Some f => phase_of now r = Ended JobStatusCompleted "failed_app" (ae_Message f) ∧ jr_archived r = Some now
    end
}.

Lemma answered_engine key o ch arts r1 r' e (e' := put_record key r' (put_artifacts key o arts (put_chapter key o ch (put_record key r1 e)))) :
  e_runtimeChapters e' = <[key := <[o := ch]> (chapters_of key e)]> (e_runtimeChapters e) ∧
  e_runtimeArtifacts e' = e_runtimeArtifacts (put_artifacts key o arts e) ∧
  (∀ k, k ≠ key → e_jobRecords e' !! k = e_jobRecords e !! k) ∧ e_jobRecords e' !! key = Some r'.
Proof.
  split; [done|]. split; [done|]. unfold e'. simpl. split; [|apply lookup_insert_eq].
  intros k Hne. by rewrite !lookup_insert_ne.
Qed.

Lemma oversized_succeeds key now used e e1 r f p w ch r' :
  goals_ok now used e → e_jobRecords e !! key = Some r → open r = true →
  goal_tables e1 = goal_tables e → e_jobRecords e1 = e_jobRecords e →
  r' = oversized_record now f p w (answered_view now w ch None r) →
  (run_goals (Complete now key) (put_record key r' e1)).2 = Ok tt.
Proof.
  intros Hok Hr Ho Ht HR ->. eapply (close_record now used e e1 key r); try done. intros Hn. congruence.
Qed.

Lemma task_publish_cases req p route w a now e :
  let q := task_publish req p route w a now e in
  refused_answer (ct_JobKey req) now e q ∨
  (accepted_answer req w a now e q.1 ∧ (ta_SizeFailure a = None → q.2 = Ok tt) ∧
   ∀ used f, goals_ok now used e → ta_SizeFailure a = Some f → q.2 = Err ErrPayloadTooLarge).
Proof.
  simpl. unfold task_publish. set (key := ct_JobKey req).
  destruct (e_jobRecords e !! key) as [r|] eqn:Hr; [|left; split; by left].
  set (r1 := advanceRecordStateLocked e (jk_TenantId key) now r).
  pose proof (advance_light e (jk_TenantId key) now key r) as Hlight. fold r1 in Hlight.
  assert (∀ err, err = ErrJobNotFound ∨ err = ErrConflict → refused_answer key now e (put_record key r1 e, Err err)) as Hrefuse.
  { intros err He. split; simpl; [by destruct He as [->| ->]; auto|]. right. by exists r. }
  destruct (_ || _) eqn:Hg in |- *; [left; apply Hrefuse; by right|].
  rewrite !orb_false_iff in Hg. destruct Hg as ((((Hl & _) & Ho) & _) & _). apply negb_false_iff in Ho.
  change (e_runtimeChapters (put_record key r1 e)) with (e_runtimeChapters e).
  destruct (e_runtimeChapters e !! key) as [chs|] eqn:Hk; [|left; apply Hrefuse; by left].
  destruct (bool_decide _) eqn:Hn; [left; apply Hrefuse; by right|]. apply bool_decide_eq_false, eq_None_not_Some in Hn.
  destruct (negb _) eqn:Hp; [left; apply Hrefuse; by right|]. apply negb_false_iff, bool_decide_eq_true in Hp.
  right. pose proof Ho as [Ha _]%open_fields. clear Hrefuse. clearbody r1.
  assert (chapters_of (ct_JobKey req) e = chs) as Hchs by (unfold chapters_of; fold key; by rewrite Hk).
  destruct (ta_SizeFailure a) as [f|] eqn:Hf.
  - set (r2 := oversized_record now f p w (answered_view now w (ta_Chapter a) None r1)).
    set (e1 := put_artifacts _ _ _ _).
    destruct (answered_engine key (wt_OutputStep w) (ta_Chapter a) (ta_Artifacts a) r1 r2 e) as (Hp1 & Hp2 & Hp3 & Hp4).
    fold e1 in Hp1, Hp2, Hp3, Hp4. unfold m_bind, m_err.
    pose proof (λ used Hok, oversized_succeeds key now used (put_record key r1 e) e1 r1 f p w (ta_Chapter a) r2 Hok
      (lookup_insert_eq _ _ _) Ho eq_refl eq_refl eq_refl) as Hres.
    assert (accepted_answer req w a now e (run_goals (Complete now key) (put_record key r2 e1)).1) as Hacc.
    { split; [by rewrite Hchs|by rewrite Hchs|exact Hp1|exact Hp2|exact Hp3|]. exists r2. rewrite Hf. by split. }
    destruct (run_goals (Complete now key) (put_record key r2 e1)) as [e2 [[]|err]] eqn:Hrun; cbn [fst snd] in *;
      (split; [exact Hacc|split; [done|]]); [done|].
    intros used f' Hok _. specialize (Hres used (put_light now used e key r r1 Hok Hr Hlight)). done.
  - set (r2 := answered_record _ _ _ _). set (e1 := put_artifacts _ _ _ _).
    destruct (answered_engine key (wt_OutputStep w) (ta_Chapter a) (ta_Artifacts a) r1 r2 e) as (Hp1 & Hp2 & Hp3 & Hp4).
    fold e1 in Hp1, Hp2, Hp3, Hp4. simpl. split; [|done].
    split; [by rewrite Hchs|by rewrite Hchs|exact Hp1|exact Hp2|exact Hp3|exists r2; rewrite Hf]. split; [done|]. split; [done|].
    split; [by apply answered_phase|done].
Qed.

(** An ordinal that is taken is not answered again. *)
Lemma publish_taken req p route w a now e :
  is_Some (e_jobRecords e !! ct_JobKey req) → is_Some (chapters_of (ct_JobKey req) e !! wt_OutputStep w) →
  let q := task_publish req p route w a now e in refused_answer (ct_JobKey req) now e q ∧ q.2 = Err ErrConflict.
Proof.
  intros [r Hr] [ch Hch]. pose proof (task_publish_cases req p route w a now e) as Hc. cbv zeta in *.
  destruct Hc as [Hc|[[Hfree _ _ _ _ _] _]]; [|congruence]. split; [done|].
  unfold task_publish. rewrite Hr. destruct (_ || _) in |- *; [done|].
  unfold chapters_of in Hch. simpl. destruct (e_runtimeChapters e !! ct_JobKey req) as [chs|]; simpl in Hch;
    [|by apply lookup_empty_Some in Hch]. by rewrite bool_decide_eq_true_2 by (by exists ch).
Qed.

(** C31. An external task is answered once.  Whenever an answer is published, it is
    either refused, with an error and no trace but an up-to-date record of the job,
    or accepted: then the output ordinal was the next free one, chapter and
    artifacts are stored, the task wait is over, and the job is queued again on its
    own route (an answer over the size limit ends the job instead and reports
    [ErrPayloadTooLarge], given printable job IDs, never a conflict).  From then on
    the chapter stays, and every answer for this ordinal, whatever snapshot it was
    prepared for and whatever happens in between, is refused as a conflict. *)
Theorem task_answered_once w w1 req p route wt a :
  reachable w → step (STaskPublish req p route wt a) w w1 →
  let q := task_publish req p route wt a (w_now w1) (w_engine w) in
  refused_answer (ct_JobKey req) (w_now w1) (w_engine w) q ∨
  (accepted_answer req wt a (w_now w1) (w_engine w) q.1 ∧
   (ta_SizeFailure a = None → q.2 = Ok tt) ∧
   (is_Some (ta_SizeFailure a) → named_jobs (w_engine w) → q.2 = Err ErrPayloadTooLarge) ∧
   ∀ w2, rtc any_step w1 w2 →
     chapters_of (ct_JobKey req) (w_engine w2) !! wt_OutputStep wt = Some (ta_Chapter a) ∧
     ∀ req2 p2 route2 wt2 a2 now2, ct_JobKey req2 = ct_JobKey req → wt_OutputStep wt2 = wt_OutputStep wt →
       let q2 := task_publish req2 p2 route2 wt2 a2 now2 (w_engine w2) in
       refused_answer (ct_JobKey req) now2 (w_engine w2) q2 ∧ q2.2 = Err ErrConflict).
Proof.
  intros Hw Hs. cbv zeta. pose proof (reachable_world_ok _ Hw) as Hok.
  destruct (task_publish_cases req p route wt a (w_now w1) (w_engine w)) as [|(Hacc & Hres & Hbig)]; [by left|right].
  split; [done|]. split; [done|]. split.
  { intros [f Hf] Hn. eapply (Hbig (w_used w)); [|exact Hf]. eapply goals_ok_later; [| |by apply reachable_goals]; [apply Hs|done]. }
  intros w2 Hs2. pose proof Hs as [_ _ _ _ _ He1]. simpl in He1.
  assert (chapters_of (ct_JobKey req) (w_engine w1) !! wt_OutputStep wt = Some (ta_Chapter a)) as Hch1.
  { unfold chapters_of. rewrite He1, (aa_chapters _ _ _ _ _ _ Hacc), lookup_insert_eq. apply lookup_insert_eq. }
  pose proof (step_world_ok _ _ _ Hs Hok) as Hok1.
  pose proof (steps_histories w1 w2 Hok1 Hs2 _ _ _ Hch1) as Hch2. split; [done|].
  intros req2 p2 route2 wt2 a2 now2 Hk Ho. rewrite <- Hk in Hch2 |- *. rewrite <- Ho in Hch2.
  apply publish_taken; [|by eexists]. apply (ho_domain _ (wo_histories _ (steps_world_ok _ _ Hs2 Hok1))).
  unfold chapters_of in Hch2. destruct (e_runtimeChapters _ !! _); [by eexists|].
  simpl in Hch2. by apply lookup_empty_Some in Hch2.
Qed.

(** ** Deleting jobs *)
Lemma delete_one_records now k e :
  e_jobRecords (delete_one now k e).1 = alter (deleted_record now) k (e_jobRecords e).
Proof.
  unfold delete_one. destruct (e_jobRecords e !! k) as [r|] eqn:Hr; simpl.
  - apply map_eq. intros k'. rewrite lookup_insert. case_decide; subst.
    + by rewrite lookup_alter_eq, Hr.
    + by rewrite lookup_alter_ne.
  - apply map_eq. intros k'. destruct (decide (k' = k)) as [->|Hne]; [by rewrite lookup_alter_eq, Hr|by rewrite lookup_alter_ne].
Qed.

Lemma delete_iter now ks e e' :
  NoDup ks → m_iter (delete_one now) ks e = (e', Ok tt) →
  ∀ k, e_jobRecords e' !! k = if decide (k ∈ ks) then deleted_record now <$> e_jobRecords e !! k else e_jobRecords e !! k.
Proof.
  revert e. induction ks as [|k0 ks IH]; intros e Hnd; simpl; unfold m_ret, m_bind.
  - intros [= <-] k. by destruct (decide (k ∈ [])) as [?%elem_of_nil|].
  - apply NoDup_cons in Hnd as [Hk0 Hnd]. pose proof (delete_one_records now k0 e) as Hd.
    destruct (delete_one now k0 e) as [e1 [[]|]]; [|done]. simpl in Hd. intros Hm k.
    rewrite (IH e1 Hnd Hm k), Hd. destruct (decide (k = k0)) as [->|Hne].
    + rewrite lookup_alter_eq. by destruct (decide (k0 ∈ ks)), (decide (k0 ∈ k0 :: ks)) as [|[]%not_elem_of_cons].
    + rewrite lookup_alter_ne by done. destruct (decide (k ∈ ks)), (decide (k ∈ k0 :: ks)); try done; set_solver.
Qed.

(** Deletion is exact: the answer counts the jobs the request selects; a dry
    run changes nothing; otherwise exactly those jobs become hidden, closed and
    without a lease, keeping an outcome they already had, and no other record
    changes. *)
Theorem delete_exact req now e e' n d :
  DeleteJobs req now e = (e', Ok (n, d)) →
  ∃ ps ks, NoDup ks ∧
    (∀ k, k ∈ ks ↔ ∃ r, e_jobRecords e !! k = Some r ∧ delete_selects req ps (k, r) = true) ∧
    n = Z.of_nat (length ks) ∧
    if dj_DryRun req then e' = e ∧ d = 0%Z
    else d = n ∧ (∀ k, k ∉ ks → e_jobRecords e' !! k = e_jobRecords e !! k) ∧
      ∀ k, k ∈ ks → ∃ r r', e_jobRecords e !! k = Some r ∧ e_jobRecords e' !! k = Some r' ∧
        jr_hidden r' = true ∧ is_Some (jr_archived r') ∧ jr_leased r' = false ∧ jr_leaseID r' = "" ∧
        (is_Some (jr_archived r) → outcome r' = outcome r).
Proof.
  unfold DeleteJobs. destruct (rbind _ _) as [ps|]; [|done].
  set (ks := (filter _ _).*1).
  assert (NoDup ks) as Hnd.
  { apply nodup_filter_fst, range_nodup. }
  assert (∀ k, k ∈ ks ↔ ∃ r, e_jobRecords e !! k = Some r ∧ delete_selects req ps (k, r) = true) as Hks.
  { intros k. unfold ks. rewrite list_elem_of_fmap. split.
    - intros ([k' r] & -> & [Hs Hr%elem_of_range]%list_elem_of_filter). by exists r.
    - intros (r & Hr & Hs). exists (k, r). split; [done|]. apply list_elem_of_filter. split; [done|]. by apply elem_of_range. }
  clearbody ks. intros Hd. exists ps, ks. split; [done|]. split; [done|].
  destruct (dj_DryRun req); [by injection Hd as <- <- <-|].
  unfold m_bind, m_ret in Hd. destruct (m_iter (delete_one now) ks e) as [e1 [[]|]] eqn:Hm; [|done].
  injection Hd as <- <- <-. split; [done|]. split; [done|]. pose proof (delete_iter now ks e e1 Hnd Hm) as Hall.
  split; [intros k Hk; rewrite (Hall k); by rewrite decide_False|].
  intros k Hk. destruct (proj1 (Hks k) Hk) as (r & Hr & _). exists r, (deleted_record now r).
  split; [done|]. rewrite (Hall k), decide_True, Hr by done. split; [done|].
  unfold deleted_record, archived. simpl. destruct (bool_decide_reflect (is_Some (jr_archived r))); simpl; done.
Qed.

(** ** Retiring a cell *)
Lemma busy_false tenant id now e l :
  busy_records tenant id now e l = Ok false →
  ∀ k r, (k, r) ∈ l → jk_TenantId k = tenant → rs_CellID (jr_cell r) = id →
    open r = false ∧ lease_running now r = false ∧
    ∃ g, mem_Goal (goal_view e) (mkGoalKey tenant (jr_goalID r)) = Ok g ∧ gi_State g ≠ GoalOpen.
Proof.
  induction l as [|[k0 r0] l IH]; simpl; [intros _ k r []%elem_of_nil|].
  intros Hb k r Hin Ht Hid. apply elem_of_cons in Hin.
  destruct (_ || _) eqn:Hsel in Hb.
  - destruct Hin as [[= -> ->]|Hin]; [|by apply (IH Hb k r)]. rewrite Ht, Hid, !String.eqb_refl in Hsel. done.
  - destruct (open r0 || lease_running now r0) eqn:Ho; [done|]. apply orb_false_iff in Ho as [Ho Hl].
    destruct (mem_Goal _ _) as [g|] eqn:Hg; [|done]. simpl in Hb.
    destruct (bool_decide_reflect (gi_State g = GoalOpen)); [done|].
    destruct Hin as [[= -> ->]|Hin]; [|by apply (IH Hb k r)].
    split; [done|]. split; [done|]. exists g. by rewrite <- Ht.
Qed.

(** Only unused cells are retired: when an active cell is retired, none of its
    jobs is open or leased, all goals of its jobs and all goals rooted in it are
    decided, no reservation waits to be published into it, and no active schedule
    targets it. *)
Theorem retire_only_unused ctx req now rev e e' c :
  let tenant := ce_TenantID (rc_CellKey req) in
  RetireCell ctx req now rev e = (e', Ok c) →
  (∃ old, cs_Cells (cellsLocked tenant e) !! ce_CellID (rc_CellKey req) = Some old ∧ c_State old = CellRetired) ∨
  (∀ k r, e_jobRecords e !! k = Some r → jk_TenantId k = tenant → rs_CellID (jr_cell r) = c_ID c →
     open r = false ∧ lease_running now r = false ∧
     ∃ g, mem_Goal (goal_view e) (mkGoalKey tenant (jr_goalID r)) = Ok g ∧ gi_State g ≠ GoalOpen) ∧
  (∀ gk g, e_GoalRows e !! gk = Some g → gk_TenantId gk = tenant → gi_CellID g = c_ID c → gi_State g ≠ GoalOpen) ∧
  (∀ k p, e_preparedGoals e !! k = Some p → jk_TenantId k = tenant →
     rs_CellID (pp_Target (pg_Request p)) = c_ID c → is_Some (e_jobRecords e !! k)) ∧
  (∀ k s, e_schedules e !! k = Some s → sk_TenantId k = tenant → st_CellID (si_Target s) = c_ID c →
     si_State s ≠ ScheduleStateActive).
Proof.
  intros tenant. unfold RetireCell, on_cells, Retire. fold tenant.
  destruct (rbind _ _) as [old|] eqn:Hg; simpl; [|done].
  destruct (bool_decide_reflect (c_State old = CellRetired)) as [Hret|_].
  { simpl. intros [= _ <-]. left. exists old. split; [|done]. unfold Get in Hg.
    apply bind_ok in Hg as (c0 & Hget & Hg). apply bind_ok in Hg as (? & _ & Hg). apply bind_ok in Hg as (? & _ & [= ->]).
    apply bind_ok in Hget as (? & _ & Hget). unfold of_option in Hget. destruct (_ !! _); by simplify_eq. }
  destruct (cell_busy tenant now e (c_ID old)) as [[]|] eqn:Hb; simpl; [done| |done].
  intros [= _ <-]. right. simpl. unfold cell_busy in Hb. apply bind_ok in Hb as (jobs & Hjobs & Hb).
  injection Hb as Hb. rewrite !orb_false_iff in Hb. destruct Hb as [[[-> Hgoals] Hprep] Hsched].
  pose proof (busy_false _ _ _ _ _ Hjobs) as Hrec.
  pose proof (proj1 (existsb_false_elem _ _) Hgoals) as Hg1. pose proof (proj1 (existsb_false_elem _ _) Hprep) as Hp1.
  pose proof (proj1 (existsb_false_elem _ _) Hsched) as Hs1.
  split; [intros k r Hr; apply (Hrec k r); by apply elem_of_range|]. split; [|split].
  - intros gk g Hr Ht Hid Hopen. apply elem_of_map_to_list, Hg1 in Hr. simpl in Hr.
    by rewrite Ht, Hid, Hopen, !String.eqb_refl in Hr.
  - intros k p Hr Ht Hid. apply elem_of_map_to_list, Hp1 in Hr. simpl in Hr.
    rewrite Ht, Hid, !String.eqb_refl in Hr. simpl in Hr. by apply bool_decide_eq_false, not_eq_None_Some in Hr.
  - intros k s Hr Ht Hid Hact. apply elem_of_map_to_list, Hs1 in Hr. simpl in Hr.
    by rewrite Ht, Hid, Hact, !String.eqb_refl in Hr.
Qed.
End effects.

(** ** The effects on the run of [ToyScenario] *)
Lemma reach2 : reachable w2.
Proof.
  exists w0. split; [by exists (λ _, "k")|].
  eapply rtc_l; [exists s_cell; exact step1|]. apply rtc_once. exists s_prepare. exact step2.
Qed.

(** The holder waits for an external task. *)
Definition pause : RescheduleExecutionRequest :=
  mkReschedule None (mkRoute "w" "t") None [] (Some (mkTaskWait 0 1 "h" "w")) None None None.
Definition e6 : ToyEngine := Eval vm_compute in (rescheduleLease job "A" "w1" pause 12 e4).1.
Lemma run6 : rescheduleLease job "A" "w1" pause 12 e4 = (e6, Ok tt). Proof. vm_compute. reflexivity. Qed.

Lemma reschedule_all_or_nothing_witness :
  ∃ r', e_jobRecords e6 !! job = Some r' ∧ live 12 "A" r' = false ∧ phase_of 12 r' = Queued.
Proof.
  destruct (reschedule_all_or_nothing job "A" "w1" pause 12 e4 e6 (Ok tt)
    (wo_tables _ (reachable_world_ok _ reach4)) run6) as (r & r' & _ & _ & Hr & _ & Hl & Hp & _).
  exists r'. split; [rewrite Hr; apply lookup_insert_eq|]. split; [apply Hl|exact Hp].
Defined.

(** The job that depends on the first one is published. *)
Lemma reach_v1 : reachable v1.
Proof.
  destruct reach3 as (w & Hi & Hs). exists w. split; [done|]. etrans; [exact Hs|]. apply rtc_once. exists s_prepare2.
  apply (section_step _ _ 2 (w_used v1)); [done|apply NoDup_singleton|set_solver|done|done|set_solver|exact depend1].
Qed.
Lemma publish_d : publish_job boss job2 (submitted_record fresh None) start0 2 d1 = (d2, Ok (mkHandle job2 "h" "a" "c" "h/r")).
Proof. vm_compute. reflexivity. Qed.

Lemma publish_all_or_nothing_witness :
  e_runtimeChapters d2 !! job2 = Some {[0%Z := start0]} ∧
  ∃ wt, mem_Wait (goal_view d2) (mkWaitKey job2 "submission") = Ok wt ∧ length (wi_Dependencies wt) = 1%nat.
Proof.
  destruct (publish_all_or_nothing boss job2 (submitted_record fresh None) start0 2 d1 d2 _
    (wo_tables _ (reachable_world_ok _ reach_v1)) (wo_histories _ (reachable_world_ok _ reach_v1)) publish_d)
    as (p & r' & Hp & _ & Hc & _ & _ & _ & _ & Hw & _).
  split; [rewrite Hc; apply lookup_insert_eq|].
  assert (pp_Dependencies <$> (pg_Request <$> e_preparedGoals d1 !! job2) = Some (pp_Dependencies prep2)) as Hd
    by (vm_compute; reflexivity).
  rewrite Hp in Hd. injection Hd as Hd. rewrite Hd in Hw. destruct Hw as (Hid & wt & Hwt & _ & Hds); [simpl; lia|].
  exists wt. split; [by rewrite <- Hid|]. apply (f_equal length) in Hds. rewrite !length_fmap in Hds.
  unfold submission_wait in Hds. simpl in Hds. rewrite Hd in Hds. exact Hds.
Defined.

Definition waiting : workerTaskWait := mkTaskWaitState 0 1 "w" "h".
Definition waiting_payload : workerJobPayload := mkPayload (JObj []) (Some waiting).
Definition answer : TaskAnswer :=
  mkAnswer (mkChapter 1 "t" (Some (TaskAttemptOutcomeChapter (ApplicationOutputOutcome "{}"))) "h" 20 (JObj []) []) [] None.
Definition ask : CompleteTaskIfWaitingRequest := mkCompleteTask job (mkRoute "w" "t") "w" 0 1 "h" None.
Lemma answered6 : is_ok (task_publish ask waiting_payload (mkRoute "w" "t") waiting answer 20 e6).2 = true.
Proof. vm_compute. reflexivity. Qed.

(** The pause and the answer as steps of the run. *)
Definition s_pause : section := SReschedule job "A" "w1" pause.
Definition s_answer : section := STaskPublish ask waiting_payload (mkRoute "w" "t") waiting answer.
Definition e10 : ToyEngine := Eval vm_compute in (exec s_answer 20 e6).1.
Definition w6 : World := mkWorld 12 {["g"; "A"]} e6.
Definition w10 : World := mkWorld 20 {["g"; "A"]} e10.
Lemma pause6 : (exec s_pause 12 e4).1 = e6. Proof. vm_compute. reflexivity. Qed.
Lemma answer10 : (exec s_answer 20 e6).1 = e10. Proof. vm_compute. reflexivity. Qed.
Lemma reach6 : reachable w6.
Proof.
  apply (reachable_steps w4); [exact reach4|]. apply rtc_once. exists s_pause.
  apply section_step; [done|apply NoDup_nil_2|set_solver|done|done|set_solver|exact pause6].
Qed.
Lemma step10 : step s_answer w6 w10.
Proof. apply section_step; [done|apply NoDup_nil_2|set_solver|done|done|set_solver|exact answer10]. Qed.

Lemma task_answered_once_witness :
  chapters_of job e10 !! 1%Z = Some (ta_Chapter answer) ∧
  (task_publish ask waiting_payload (mkRoute "w" "t") waiting answer 30 e10).2 = Err ErrConflict.
Proof.
  destruct (task_answered_once w6 w10 ask waiting_payload (mkRoute "w" "t") waiting answer reach6 step10)
    as [[[Hf|Hf] _]|(_ & _ & _ & Hall)].
  - pose proof (eq_trans (eq_sym (f_equal is_ok Hf)) answered6) as Hx. discriminate Hx.
  - pose proof (eq_trans (eq_sym (f_equal is_ok Hf)) answered6) as Hx. discriminate Hx.
  - destruct (Hall w10) as [Hch Hlater]; [reflexivity|]. split; [exact Hch|].
    exact (proj2 (Hlater ask waiting_payload (mkRoute "w" "t") waiting answer 30%Z eq_refl eq_refl)).
Defined.

Definition drop : DeleteJobsRequest := mkDelete "t" ["j"] None [] false false.
Definition e7 : ToyEngine := Eval vm_compute in (DeleteJobs drop 20 e4).1.
Lemma run7 : DeleteJobs drop 20 e4 = (e7, Ok (1%Z, 1%Z)). Proof. vm_compute. reflexivity. Qed.

Lemma delete_exact_witness : ∃ r', e_jobRecords e7 !! job = Some r' ∧ jr_hidden r' = true ∧ jr_leased r' = false.
Proof.
  destruct (delete_exact drop 20 e4 e7 1 1 run7) as (ps & ks & _ & Hks & Hlen & _ & _ & Hall).
  destruct ks as [|k [|k2 ks]]; [discriminate Hlen| |simpl in Hlen; lia].
  destruct (Hall k (list_elem_of_here k [])) as (r & r' & Hr & Hr' & Hh & _ & Hl & _).
  assert (k = job) as ->; [|by exists r'].
  refine (only_key_lookup job (e_jobRecords e4) _ k r Hr). vm_compute. reflexivity.
Defined.

Definition janitor : Context := mkContext
  (Some (mkAuthority "p" "t" {["cells.get"; "cells.retire"]} None)) None None.
Definition e8 : ToyEngine := Eval vm_compute in (FailGoal (mkFailRequest (mkGoalKey "t" "g") "stop") 14 e5).1.
Definition give_up_cell : RetireCellRequest := mkRetireCell (mkCellKey "t" "c") (quoted "v").
Definition e9 : ToyEngine := Eval vm_compute in (RetireCell janitor give_up_cell 15 "v2" e8).1.
Definition c9 : Cell := mkCell "t" "c" "a" "h/r" "" ∅ CellRetired [] "v2" 1 15 (Some 15%Z).
Lemma run9 : RetireCell janitor give_up_cell 15 "v2" e8 = (e9, Ok c9). Proof. vm_compute. reflexivity. Qed.

Lemma retire_only_unused_witness : ∃ r, e_jobRecords e8 !! job = Some r ∧ open r = false.
Proof.
  destruct (retire_only_unused janitor give_up_cell 15 "v2" e8 e9 c9 run9) as [(old & Ho & Hs)|[Hall _]].
  - vm_compute in Ho. injection Ho as <-. discriminate Hs.
  - destruct (e_jobRecords e8 !! job) as [r|] eqn:Hr; [|vm_compute in Hr; discriminate Hr].
    exists r. split; [reflexivity|]. apply (Hall job r Hr); [reflexivity|].
    assert (Some (rs_CellID (jr_cell r)) = Some "c") as Hc; [|by injection Hc].
    transitivity ((λ x, rs_CellID (jr_cell x)) <$> e_jobRecords e8 !! job); [by rewrite Hr|vm_compute; reflexivity].
Defined.
