(* ===== verification/Spelling.v ===== *)
(** * Spelling: texts of lists of strings

    A concrete text for the structures the concrete runs encode. *)

From S2P Require Import Prelude.

(** ** Texts: each character after a mark, each string closed by another *)
Definition bit (b : bool) : Ascii.ascii := Ascii.ascii_of_N (if b then 49 else 48).
Fixpoint spell (s : string) (rest : string) : string :=
  match s with
  | EmptyString => String (bit false) rest
  | String a s => String (bit true) (String a (spell s rest))
  end.
Fixpoint spell_all (l : list string) : string :=
  match l with [] => "" | s :: l => spell s (spell_all l) end.
(** [cur] is the string being read, or [None] between two strings. *)
Fixpoint unspell (s : string) : option (list string) :=
  match s with
  | EmptyString => Some []
  | String m s1 =>
      if Ascii.eqb m (bit false) then l ← unspell s1; Some ("" :: l)
      else match s1 with
      | EmptyString => None
      | String a s2 => l ← unspell s2; match l with x :: l => Some (String a x :: l) | [] => None end
      end
  end.
Lemma unspell_spell s rest l : unspell rest = Some l → unspell (spell s rest) = Some (s :: l).
Proof. intros Hr. induction s as [|a s IH]; simpl; [by rewrite Hr|]. by rewrite IH. Qed.
Lemma unspell_all l : unspell (spell_all l) = Some l.
Proof. induction l as [|s l IH]; simpl; [done|]. by apply unspell_spell. Qed.

(** ** Numbers: the sign and the binary digits, the last one first *)
Fixpoint pos_text (p : positive) : string :=
  match p with
  | xH => ""
  | xO p => String (bit false) (pos_text p)
  | xI p => String (bit true) (pos_text p)
  end.
Fixpoint pos_value (s : string) : positive :=
  match s with
  | EmptyString => xH
  | String b s => if Ascii.eqb b (bit true) then xI (pos_value s) else xO (pos_value s)
  end.
Lemma pos_value_text p : pos_value (pos_text p) = p.
Proof. induction p as [p IH|p IH|]; simpl; by rewrite ?IH. Qed.
Definition Z_text (z : Z) : string :=
  match z with Z0 => "" | Zpos p => String (bit true) (pos_text p) | Zneg p => String (bit false) (pos_text p) end.
Definition Z_value (s : string) : Z :=
  match s with
  | EmptyString => 0
  | String b s => if Ascii.eqb b (bit true) then Zpos (pos_value s) else Zneg (pos_value s)
  end.
Lemma Z_value_text z : Z_value (Z_text z) = z.
Proof. destruct z; simpl; by rewrite ?pos_value_text. Qed.
