(* ===== verification/DelegationScenario.v ===== *)
(** * DelegationScenario: grants of the concrete run

    Concrete libraries for the theorems about grants: texts that spell out lists of
    strings, macaroons signed with a digest that chains, and bodies that are the name
    they carry.  The lease is the one [ToyScenario] takes in [e4]. *)

From stdpp Require Import pretty.
From S2P Require Import Prelude Types GoalStore Json Cells CellState CellTheorems Metadata Chapters Schedule ScheduleRuns ToyState ToyLease ToyChapters ToyPrepare ToySubmit ToySchedule ToyRestart ToyRun ToyWorld ToyTheorems ToyScenario.
From S2P Require Import Base64 Delegation Grants DelegationServer DelegationTheorems Spelling.
Open Scope Z_scope.

(** ** Macaroons *)
Fixpoint byte_sum (acc : N) (s : string) : N :=
  match s with EmptyString => acc | String a s => byte_sum ((acc * 31 + Ascii.N_of_ascii a) mod 1000003)%N s end.
Definition digest (s : string) : string := pretty (byte_sum 7 s).
Definition chain_sig (sig : string) (cvs : list Caveat) : string := foldl (λ s c, digest (s +:+ cv_Id c)) sig cvs.
Fixpoint caveat_strings (cvs : list Caveat) : list string :=
  match cvs with [] => [] | c :: cvs => cv_Id c :: cv_VerificationId c :: cv_Location c :: caveat_strings cvs end.
Fixpoint read_caveats (l : list string) : option (list Caveat) :=
  match l with
  | [] => Some []
  | a :: b :: c :: l => cvs ← read_caveats l; Some (mkCaveat a b c :: cvs)
  | _ => None
  end.
Lemma read_caveats_strings cvs : read_caveats (caveat_strings cvs) = Some cvs.
Proof. induction cvs as [|[a b c] cvs IH]; simpl; [done|]. by rewrite IH. Qed.

#[export] Instance spelled_macaroons : Macaroons := {|
  macaroon_New k id := Ok (mkMacaroon true "" id [] (digest (k +:+ id)));
  AddFirstPartyCaveat m c :=
    Ok (mkMacaroon (mc_V2 m) (mc_Location m) (mc_Id m) (mc_Caveats m ++ [mkCaveat c "" ""]) (digest (mc_Signature m +:+ c)));
  VerifySignature k m := String.eqb (mc_Signature m) (chain_sig (digest (k +:+ mc_Id m)) (mc_Caveats m));
  MarshalBinary m :=
    Ok (spell_all ((if mc_V2 m then "2" else "1") :: mc_Location m :: mc_Id m :: mc_Signature m :: caveat_strings (mc_Caveats m)));
  UnmarshalBinary raw :=
    l ← unspell raw;
    match l with
    | v :: loc :: id :: sig :: cvs => cvs ← read_caveats cvs; Some (mkMacaroon (String.eqb v "2") loc id cvs sig)
    | _ => None
    end
|}.
#[export] Instance spelled_laws : MacaroonLaws.
Proof.
  split.
  - intros k id m [= <-]. split_and!; try done. simpl. apply String.eqb_refl.
  - intros m c m' [= <-]. split_and!; try done. intros k. simpl. intros Hs%String.eqb_eq.
    unfold chain_sig in *. rewrite foldl_app, <- Hs. simpl. apply String.eqb_refl.
  - intros m raw [= <-]. simpl. rewrite (unspell_spell _ _ _ (unspell_spell _ _ _ (unspell_spell _ _ _ (unspell_spell _ _ _ (unspell_all _))))).
    simpl. rewrite read_caveats_strings. simpl. by destruct m as [[] ? ? ? ?].
Qed.

Fixpoint fill (n : nat) (s : string) : string :=
  match n with
  | O => EmptyString
  | S n => match s with EmptyString => String (bit false) (fill n "") | String a s => String a (fill n s) end
  end.
Lemma fill_length n s : String.length (fill n s) = n.
Proof. revert s. induction n as [|n IH]; intros [|a s]; simpl; by rewrite ?IH. Qed.
#[export] Instance plain_keys : GrantKeys := {|
  hkdf k info := digest (k +:+ info); key_id k := digest k; hmac_sha256 k m := fill 32 (digest (k +:+ m)) |}.
#[export] Instance plain_key_laws : GrantKeyLaws.
Proof. intros k m. apply fill_length. Qed.

(** ** Texts of the signed structures *)
#[export] Instance DelegationNames_eq_dec : EqDecision DelegationNames.
Proof. solve_decision. Defined.
#[export] Instance DelegationOrdinalRange_eq_dec : EqDecision DelegationOrdinalRange.
Proof. solve_decision. Defined.
#[export] Instance DelegationChapters_eq_dec : EqDecision DelegationChapters.
Proof. solve_decision. Defined.
#[export] Instance DelegationSubmit_eq_dec : EqDecision DelegationSubmitPermission.
Proof. solve_decision. Defined.
#[export] Instance DelegationWrite_eq_dec : EqDecision DelegationWritePermission.
Proof. solve_decision. Defined.
#[export] Instance DelegationPermissions_eq_dec : EqDecision DelegationPermissions.
Proof. solve_decision. Defined.

Definition some_names (l : list string) : DelegationNames := mkNames false l.
Definition any_name : DelegationNames := mkNames true [].
(** Reading chapters 0 to 9, writing 2 and 3, submitting jobs of two types; and less. *)
Definition wide : DelegationPermissions := mkPermissions None
  (Some (mkSubmitPermission (Some (some_names ["a"])) (some_names ["x"; "y"]) any_name))
  ["token"] (Some (mkChapters false [4; 5] [mkRange 0 3; mkRange 6 9]))
  (Some (mkWritePermission [2; 3] any_name (some_names []))).
Definition narrow : DelegationPermissions := mkPermissions None
  (Some (mkSubmitPermission None (some_names ["x"]) any_name)) [] (Some (mkChapters false [] [mkRange 2 7])) None.
Definition narrow_effective : DelegationPermissions := mkPermissions None
  (Some (mkSubmitPermission (Some (some_names ["a"])) (some_names ["x"]) any_name)) []
  (Some (mkChapters false [] [mkRange 2 7])) None.
(** Policies are spelled by their place in a list. *)
Definition policies : list (string * DelegationPermissions) :=
  [("0", no_permissions); ("1", wide); ("2", narrow); ("3", narrow_effective)].
Definition policy_name (p : DelegationPermissions) : result string :=
  of_option (ErrMsg "policy") ((λ i, i.2.1) <$> list_find (λ q : string * _, q.2 = p) policies).
Definition policy_named (n : string) : option DelegationPermissions :=
  (λ i, i.2.2) <$> list_find (λ q : string * _, q.1 = n) policies.
Definition opt_strings (o : option string) : list string := match o with Some s => ["1"; s] | None => ["0"; ""] end.
Definition read_opt (f s : string) : option string := if String.eqb f "1" then Some s else None.

Definition parent_strings (p : grantParent) : list string :=
  [rs_Cell (gp_Cell p); rs_CellID (gp_Cell p); rs_CellRepo (gp_Cell p)] ++ opt_strings (gp_Principal p)
  ++ [gp_TenantID p; gp_JobID p; gp_LeaseID p; gp_WorkerID p; gp_SchemaHash p].
#[export] Instance spelled_texts : GrantText := {|
  root_text r := Ok (spell_all ([gr_Purpose r; gr_Audience r; gr_KeyID r; gr_ID r; gr_Ceiling r] ++ parent_strings (gr_Parent r)));
  root_value raw :=
    l ← unspell raw;
    match l with
    | [pu; au; ki; id; ce; c1; c2; c3; pf; pr; te; jo; le; wo; sc] =>
        Some (mkRoot 1 pu au ki id (mkGrantParent (mkResolvedCell c1 c2 c3) (read_opt pf pr) te jo le wo sc) ce)
    | _ => None
    end;
  step_text s :=
    let? p := policy_name (gs_Permissions s) in
    Ok (spell_all ([gs_Kind s; gs_ID s; p] ++ opt_strings (pretty <$> gs_NotAfter s)));
  step_value raw :=
    l ← unspell raw;
    match l with
    | [ki; id; p; f; t] => perms ← policy_named p; Some (mkStep ki 1 id perms (read_opt f t ≫= Atoi) true)
    | _ => None
    end;
  claims_text c :=
    Ok (spell_all ([lc_Audience c; lc_Grant c; pretty (lc_LeaseDurationSeconds c); pretty (lc_IssuedAt c);
                    pretty (lc_ExpiresAt c); pretty (lc_ExpiresAtNS c)] ++ parent_strings (parentOf c)));
  claims_value raw :=
    l ← unspell raw;
    match l with
    | [au; gr; d; i; e; en; c1; c2; c3; pf; pr; te; jo; le; wo; sc] =>
        d ← Atoi d; i ← Atoi i; e ← Atoi e; en ← Atoi en;
        Some (mkClaims (mkResolvedCell c1 c2 c3) au gr (read_opt pf pr) te jo le wo sc d i e en)
    | _ => None
    end
|}.
#[export] Instance plain_bodies : RequestBodies := {|
  name_body := Some; cell_body := Some;
  chapter_body raw := Some (mkWritable 2 raw true [] []);
  submit_body raw := Some (mkSubmitBody "a" raw false)
|}.

(** ** The lease of the run, and grants of it *)
Definition issuer : leaseTokenSigner := mkSigner "key" "".
Definition run_cell : ResolvedCell := Eval vm_compute in jr_cell r4.
Definition owner_claims : leaseTokenClaims := mkClaims run_cell "jobdb" "" None "t" "j" "A" "w1" "" 0 0 0 0.
Definition unwrap (r : result string) : string := match r with Ok s => s | Err _ => "" end.
Definition root_token : string := Eval vm_compute in unwrap (newGrant issuer owner_claims "g1").
Definition ask_wide : CreateDelegationRequest := mkCreateDelegation wide (Some 18).
Definition ask_narrow : CreateDelegationRequest := mkCreateDelegation narrow (Some 16).
Definition derive (token : string) (req : CreateDelegationRequest) (id : string) : string :=
  match attenuateGrant token req 11 id with Ok p => p.1 | Err _ => "" end.
Definition wide_token : string := Eval vm_compute in derive root_token ask_wide "d1".
Definition narrow_token : string := Eval vm_compute in derive wide_token ask_narrow "d2".

(** Reading chapter 5 with the narrow grant, while the lease runs. *)
Definition read5 (token : string) : Request :=
  mkRequest "GET" [token] "/v1/tenants/t/jobs/j/leases/A/chapters/5" None.
Lemma narrow_reads : toy_boundary e4 issuer (read5 narrow_token) 12 = None.
Proof. vm_compute. reflexivity. Qed.
(** Chapter 9 only the wide one may read; the grant ends at its deadline, and with
    the lease. *)
Definition read9 (token : string) : Request :=
  mkRequest "GET" [token] "/v1/tenants/t/jobs/j/leases/A/chapters/9" None.
Lemma narrow_refused :
  toy_boundary e4 issuer (read9 narrow_token) 12 = Some delegationDenied ∧
  toy_boundary e4 issuer (read9 wide_token) 12 = None ∧
  toy_boundary e4 issuer (read5 narrow_token) 17 = Some (DelegationError 403 "delegation_deadline_reached") ∧
  toy_boundary e4 issuer (read5 narrow_token) 21 = Some (DelegationError 409 "execution_lease_lost").
Proof. vm_compute. split_and!; reflexivity. Qed.

(** ** Witnesses *)
Lemma chapters_compared_exactly_witness :
  chaptersSubset (Some (mkChapters false [] [mkRange 2 7])) (Some (mkChapters false [4; 5] [mkRange 0 3; mkRange 6 9])) = true ↔
  ∀ n, chaptersAllow (Some (mkChapters false [] [mkRange 2 7])) n = true →
       chaptersAllow (Some (mkChapters false [4; 5] [mkRange 0 3; mkRange 6 9])) n = true.
Proof. apply chapters_compared_exactly; reflexivity. Defined.

Definition accepted (token : string) (allow : bool) : option (Macaroon * grantRoot * delegationClaims) :=
  match decodeGrant token allow with Ok r => Some r | Err _ => None end.
Definition no_macaroon : Macaroon := mkMacaroon false "" "" [] "".
Definition no_claims : delegationClaims := mkDelegationClaims "" owner_claims no_delegation zero_route 0.
Definition no_grant : Macaroon * grantRoot * delegationClaims := (no_macaroon, issued_root issuer owner_claims "", no_claims).
Definition wide_read : Macaroon * grantRoot * delegationClaims := Eval vm_compute in default no_grant (accepted wide_token true).
Definition narrow_read : Macaroon * grantRoot * delegationClaims := Eval vm_compute in default no_grant (accepted narrow_token true).
Lemma narrow_decodes : decodeGrant narrow_token true = Ok (narrow_read.1.1, narrow_read.1.2, narrow_read.2).
Proof. vm_compute. reflexivity. Qed.
Lemma wide_verifies : verifyGrant issuer wide_token true = Ok (wide_read.1.1, wide_read.1.2, wide_read.2).
Proof. vm_compute. reflexivity. Qed.

Lemma chain_only_narrows_witness : (length (mc_Caveats narrow_read.1.1) ≤ 8)%nat ∧ mc_Caveats narrow_read.1.1 ≠ [].
Proof. split; [exact (proj1 (chain_only_narrows _ _ _ _ _ narrow_decodes))|done]. Defined.

Definition narrow_claims : delegationClaims := narrow_read.2.
Lemma narrow_derived : attenuateGrant wide_token ask_narrow 11 "d2" = Ok (narrow_token, narrow_claims).
Proof. vm_compute. reflexivity. Qed.

(** The request that is let through with the narrow token is let through with the
    wide one. *)
#[local] Instance run_checker : LeaseChecker := toy_checker e4.
Lemma derived_grant_confined_witness :
  parseDelegation issuer narrow_token = Ok narrow_claims ∧
  prepareDelegationRequest issuer (mkRequest "GET" [wide_token] (rq_Path (read5 "")) None) 12 = None.
Proof.
  destruct (derived_grant_confined issuer wide_token ask_narrow 11 "d2" narrow_token narrow_claims
    wide_read.1.1 wide_read.1.2 wide_read.2) as (Hp & _ & _ & _ & _ & Hreq);
    [exact narrow_derived|exact wide_verifies|done|done|vm_compute; lia|by intros t [= <-]|
     intros raw Hraw; vm_compute in Hraw; injection Hraw as <-; vm_compute; reflexivity|].
  split; [exact Hp|]. apply (Hreq (read5 "") 12); [vm_compute; reflexivity|exact narrow_reads].
Defined.

Definition mint_time : time := Eval vm_compute in unix_epoch + second.
Definition minted_token : string := Eval vm_compute in
  unwrap (mintWithPrincipal issuer job "A" "w1" "" (mint_time + 10) 5 None run_cell mint_time "g2").
Lemma minted_ok : mintWithPrincipal issuer job "A" "w1" "" (mint_time + 10) 5 None run_cell mint_time "g2" = Ok minted_token.
Proof. vm_compute. reflexivity. Qed.
Lemma owner_credential_bound_witness :
  ∃ until, mint_time ≤ until < mint_time + 10 ∧ is_ok (validateAndParse issuer minted_token job "A" mint_time) = true.
Proof.
  destruct (owner_credential_bound issuer job "A" "w1" "" (mint_time + 10) 5 None run_cell mint_time "g2" minted_token)
    as (until & Hb & Hlt & Hv);
    [exact minted_ok|repeat split; vm_compute; discriminate|vm_compute; discriminate|vm_compute; reflexivity|vm_compute; discriminate| | |].
  - intros raw Hraw. vm_compute in Hraw. injection Hraw as <-. vm_compute. reflexivity.
  - intros grant _ raw Hraw. unfold claims_text, spelled_texts in Hraw.
    match type of Hraw with Ok ?t = Ok _ => assert (raw = t) as -> by congruence end.
    unfold claims_value, spelled_texts. rewrite unspell_all. vm_compute. reflexivity.
  - exists until. split; [exact Hb|]. apply Hv. split; [done|]. split; [done|]. apply Hlt. vm_compute. reflexivity.
Defined.

Lemma grant_dies_with_lease_witness :
  ∃ status code, toy_boundary x1 issuer (read5 narrow_token) 105 = Some (DelegationError status code).
Proof.
  destruct (grant_dies_with_lease u1 u1 job "A" q1 issuer (read5 narrow_token) 105) as (st & co & He & _);
    [exact (proj1 expire_reach)|exact expired1|set_solver|vm_compute; reflexivity|reflexivity|done|reflexivity|reflexivity|].
  by exists st, co.
Defined.
