(* ===== verification/ListingScenario.v ===== *)
(** * ListingScenario: listings of the concrete run

    Concrete texts for page tokens, and the listings of [ToyScenario]'s run read in
    pages of one row while a job is cancelled between two pages; what a shared
    spelling of two keys and a stored status do to a listing. *)

From S2P Require Import Prelude Types GoalStore GoalEngine Json ClientPayload Cells CellState CellTheorems Metadata Chapters Schedule ScheduleRuns.
From S2P Require Import ToyState ToyLease ToyChapters ToySubmit ToySchedule ToyRestart ToyRun ToyScenario.
From S2P Require Import Base64 Grants Spelling Paging JobFilters ToyListing Discovery CellPages ListingTheorems.
Open Scope Z_scope.

(** ** Texts *)
#[export] Instance spelled_pages : PageText := {|
  cursor_text c := Ok (spell_all [Z_text (pc_CreatedAt c); pc_TenantId c; pc_JobID c]);
  cursor_value raw := l ← unspell raw; match l with [t; a; b] => Some (mkPageCursor (Z_value t) a b) | _ => None end;
  job_cursor_text c := spell_all [Z_text (jc_Version c); jc_Binding c; jc_Position c];
  job_cursor_value raw := l ← unspell raw; match l with [v; b; p] => Some (mkJobCursor (Z_value v) b p) | _ => None end;
  query_text req a selected := spell_all (lj_TenantIds req ++ selected)
|}.
#[export] Instance spelled_discovery : DiscoveryText := {|
  discovery_text c := spell_all (dc_Scope c :: dc_After c);
  discovery_value raw := l ← unspell raw; match l with s :: after => Some (mkDiscoveryCursor s after) | [] => None end;
  goals_query req := Ok (spell_all (lg_TenantId req :: lg_GoalIDs req));
  waits_query req := Ok (spell_all [lw_TenantId req; lw_ConsumerJobID req]);
  json_scalar s := negb (str_empty s)
|}.
Lemma spell_some s rest : spell s rest ≠ "".
Proof. by destruct s. Qed.
Lemma encoded_valid raw : ValidString (raw_url_encode raw) = true.
Proof. apply digits_valid, encode_digits. Qed.
#[export] Instance spelled_pages_laws : PageTextLaws.
Proof.
  split.
  - intros. apply encoded_valid.
  - intros c raw [= <-]. apply spell_some.
  - intros c. apply spell_some.
  - intros [t a b] raw [= <-] _ _. simpl cursor_value.
    change (spell _ _) with (spell_all [Z_text t; a; b]). rewrite unspell_all. cbn -[Z_value].
    by rewrite Z_value_text.
  - intros [v b p] _ _. cbn -[spell_all unspell]. rewrite unspell_all. cbn -[Z_value]. by rewrite Z_value_text.
Qed.
#[export] Instance spelled_discovery_laws : DiscoveryTextLaws.
Proof.
  split.
  - intros c. apply spell_some.
  - intros [s after] _ _. cbn -[spell_all unspell]. by rewrite unspell_all.
  - intros. apply encoded_valid.
Qed.

(** ** Engines whose jobs can be listed, by computation *)
Definition listable_here (e : ToyEngine) : bool :=
  let l := map_to_list (e_jobRecords e) in
  forallb (λ kr, ValidString (jk_TenantId kr.1) && ValidString (jk_JobId kr.1) &&
    is_ok (cursor_text (mkPageCursor (jr_createdAt kr.2) (jk_TenantId kr.1) (jk_JobId kr.1)))) l
  && bool_decide (NoDup (JobKey_String <$> l.*1)).
Lemma listable_computed e : listable_here e = true → listable e.
Proof.
  unfold listable_here. rewrite andb_true_iff, bool_decide_eq_true, forallb_forall. intros [Hall Hnd]. split.
  - intros k r Hr. apply elem_of_map_to_list, list_elem_of_In in Hr. specialize (Hall _ Hr). simpl in Hall.
    rewrite !andb_true_iff in Hall. tauto.
  - intros k k' [r Hr] [r' Hr'] He. apply elem_of_map_to_list, list_elem_of_lookup in Hr as [i Hi].
    apply elem_of_map_to_list, list_elem_of_lookup in Hr' as [j Hj].
    assert (i = j) as ->; [|congruence].
    eapply (NoDup_lookup _ i j (JobKey_String k) Hnd); rewrite !list_lookup_fmap, ?Hi, ?Hj; simpl; by rewrite ?He.
Qed.

(** ** The jobs of the run, one to a page *)
Definition lister : Context := mkContext (Some (mkAuthority "p" "t" {["jobs.list"]} None)) None None.
Definition all_jobs : ListJobsRequest :=
  mkListJobs None [] false ["t"] [] [] [] [] [] [] [] false None None None 1 "".
(** Between the pages the second job is cancelled. *)
Definition d3 : ToyEngine := Eval vm_compute in (exec (SCancel job2 "stop") 4 d2).1.
Definition job_pages : list (list JobSummary) :=
  Eval vm_compute in match follow (list_jobs_call lister all_jobs) "" [(d2, 3); (d3, 5)] with Ok p => p.1 | Err _ => [] end.
Lemma job_pages_read : follow (list_jobs_call lister all_jobs) "" [(d2, 3); (d3, 5)] = Ok (job_pages, true).
Proof. vm_compute. reflexivity. Qed.
Lemma job_pages_keys : (js_JobKey <$> concat job_pages) = [job2; job].
Proof. reflexivity. Qed.
Lemma list_jobs_pages_witness :
  follow (list_jobs_call lister all_jobs) "" [(d2, 3); (d3, 5)] = Ok (job_pages, true) ∧
  read_in_pages summary_key job_before (λ v s, lists lister all_jobs v.1 v.2 s) None [(d2, 3); (d3, 5)] job_pages true.
Proof.
  split; [exact job_pages_read|]. apply (list_jobs_pages _ _ _ _ _ job_pages_read).
  intros v [->| ->%list_elem_of_singleton]%elem_of_cons; apply listable_computed; vm_compute; reflexivity.
Defined.

(** ** Their goals, one to a page *)
Definition all_goals : ListGoalsRequest := mkListGoals "t" [] [] None None None None None 1 "".
Definition goals_listable_here (e : ToyEngine) : bool :=
  forallb (λ kg, bool_decide (gi_GoalKey kg.2 = kg.1) && ValidString (gk_GoalID kg.1)) (map_to_list (e_GoalRows e))
  && forallb (λ kw, bool_decide (wait_key kw.2 = kw.1)) (map_to_list (e_WaitRows e)).
Lemma goals_listable_computed e : goals_listable_here e = true → goals_listable e.
Proof.
  unfold goals_listable_here. rewrite andb_true_iff, !forallb_forall. intros [Hg Hw]. split; [split; simpl|].
  - intros k g Hk%elem_of_map_to_list%list_elem_of_In. specialize (Hg _ Hk). rewrite andb_true_iff, bool_decide_eq_true in Hg. tauto.
  - intros k w Hk%elem_of_map_to_list%list_elem_of_In. specialize (Hw _ Hk). by rewrite bool_decide_eq_true in Hw.
  - intros k j. rewrite map_lookup_imap. intros (r & _ & [= <-])%bind_Some. done.
  - intros k [g Hk%elem_of_map_to_list%list_elem_of_In]. specialize (Hg _ Hk). rewrite andb_true_iff in Hg. tauto.
Qed.
Definition goal_pages : list (list GoalSummary) :=
  Eval vm_compute in match follow (list_goals_call all_goals) "" [d2; d3] with Ok p => p.1 | Err _ => [] end.
Lemma goal_pages_read : follow (list_goals_call all_goals) "" [d2; d3] = Ok (goal_pages, true).
Proof. vm_compute. reflexivity. Qed.
Lemma goal_pages_keys : (goal_position <$> concat goal_pages) = ["g"; "h"].
Proof. reflexivity. Qed.
Lemma list_goals_pages_witness :
  follow (list_goals_call all_goals) "" [d2; d3] = Ok (goal_pages, true) ∧
  read_in_pages goal_position str_lt (lists_goal all_goals) (Some "") [d2; d3] goal_pages true ∧
  ∃ s, s ∈ concat goal_pages ∧ gs_CandidateCount s =
    gs_NonTerminalCandidateCount s + gs_TerminalCandidateCount s + gs_UnavailableCandidateCount s.
Proof.
  assert (∀ e, e ∈ [d2; d3] → goals_listable e) as Hok.
  { intros e [->| ->%list_elem_of_singleton]%elem_of_cons; apply goals_listable_computed; vm_compute; reflexivity. }
  destruct (list_goals_pages all_goals [d2; d3] goal_pages true goal_pages_read Hok) as [Hread Hcount].
  split; [exact goal_pages_read|]. split; [exact Hread|].
  destruct (concat goal_pages) as [|s ss] eqn:Hs; [discriminate|]. exists s. rewrite <-Hs in Hcount |- *.
  assert (s ∈ concat goal_pages) as Hin by (rewrite Hs; left). split; [exact Hin|]. by apply Hcount.
Defined.

(** ** Two keys of one spelling

    Jobs "b/c" of tenant "a" and "c" of tenant "a/b", submitted at the same time:
    both are listed on a page of two, and only one of them on pages of one. *)
Definition left_job : JobKey := mkJobKey "a" "b/c".
Definition right_job : JobKey := mkJobKey "a/b" "c".
Lemma one_spelling : JobKey_String left_job = JobKey_String right_job ∧ left_job ≠ right_job.
Proof. done. Qed.
Definition anyone : Context := mkContext
  (Some (mkAuthority "p" "*" {["cells.create"; "jobs.submit"; "jobs.list"]} None)) None None.
Definition prep_of (k : JobKey) : Preparation := mkPreparation "a" "" blank_cell "" k "" "" false (JObj []) [].
Definition start_job (k : JobKey) (goal cell : string) (e : ToyEngine) : ToyEngine :=
  let e := (exec (SCreateCell anyone (mkCreateCell (jk_TenantId k) "a" "h/r" "" ∅ "") cell "v") 1 e).1 in
  let e := (exec (SPrepare anyone (prep_of k) (λ _, Ok k) goal) 1 e).1 in
  (exec (SSubmit anyone k fresh None "{}" "h" (JObj []) []) 1 e).1.
Definition twins : ToyEngine := Eval vm_compute in start_job right_job "g2" "c2" (start_job left_job "g1" "c1" e0).
Definition both_tenants (size : Z) : ListJobsRequest :=
  mkListJobs None [] false ["a"; "a/b"] [] [] [] [] [] [] [] false None None None size "".
Definition keys_read (size : Z) (views : list (ToyEngine * time)) : result (list JobKey * bool) :=
  let? p := follow (list_jobs_call anyone (both_tenants size)) "" views in Ok (js_JobKey <$> concat p.1, p.2).
Lemma twins_on_one_page : ∃ l, keys_read 2 [(twins, 2)] = Ok (l, true) ∧ l ≡ₚ [left_job; right_job].
Proof. eexists. split; [vm_compute; reflexivity|]. first [reflexivity|apply Permutation_swap]. Qed.
Lemma twin_lost_between_pages : ∃ k, keys_read 1 [(twins, 2); (twins, 2)] = Ok ([k], true).
Proof. eexists. vm_compute. reflexivity. Qed.

(** ** The status a run is listed by

    The lease of [e4] has run out at 100: the run shows as ready, is listed among the
    active runs, and is not listed among the ready ones. *)
Definition occurrence : ScheduleOccurrenceMetadata :=
  mkOccurrence "s" "schedule_tick" 1 "x" 1 "r" false "" "" (mkHistory "" 0).
Definition run_job : ToyEngine :=
  put_record job (r4 <| jr_metadata := JObj [("internal", internal_json (mkRuntimeMetadata (Some occurrence) "" ""))] |>) e4.
Definition runs_of (statuses : list JobStatus) : ListScheduleRunsRequest :=
  mkListRuns (mkScheduleKey "t" "s") None None statuses 10 "".
Definition statuses_listed (statuses : list JobStatus) : result (list JobStatus) :=
  let? p := ListScheduleRuns (runs_of statuses) 100 run_job in Ok ((λ s, js_Status (rs_Job s)) <$> p.1).
Lemma run_filtered_by_stored_status :
  statuses_listed [JobStatusActive] = Ok [JobStatusReady] ∧ statuses_listed [JobStatusReady] = Ok [].
Proof. split; vm_compute; reflexivity. Qed.
(** [ListJobs] compares the status it shows. *)
Lemma job_filtered_by_shown_status :
  (let? p := ListJobs lister (all_jobs <| lj_Statuses := [JobStatusReady] |>) 100 run_job in Ok (js_Status <$> p.1)) = Ok [JobStatusReady].
Proof. vm_compute. reflexivity. Qed.

(** ** The cells of the run, one to a page *)
#[local] Instance plain_mac : GrantKeys := {| hkdf k _ := k; key_id k := k; hmac_sha256 k m := k +:+ m |}.
#[export] Instance spelled_cells : CellCursorText := {|
  cell_cursor_text c := spell_all [cu_Tenant c; cu_Principal c; cu_Name c; cu_State c; cu_After c; Z_text (cu_ExpiresAt c)];
  cell_cursor_value raw :=
    l ← unspell raw;
    match l with [a; b; c; d; e; f] => Some (mkCellCursor a b c d e (Z_value f)) | _ => None end
|}.
#[export] Instance spelled_cells_laws : CellCursorLaws.
Proof.
  constructor. intros c c' _. simpl cell_cursor_value. change (spell _ _) with
    (spell_all [cu_Tenant c; cu_Principal c; cu_Name c; cu_State c; cu_After c; Z_text (cu_ExpiresAt c)]).
  rewrite unspell_all. by intros [= <-].
Qed.
Definition cell_reader : Context := mkContext (Some (mkAuthority "p" "t" {["cells.create"; "cells.list"]} None)) None None.
Definition add_cell (name repo id : string) (e : ToyEngine) : ToyEngine :=
  (exec (SCreateCell cell_reader (mkCreateCell "t" name repo "" ∅ "") id "v") 1 e).1.
Definition cells2 : State := Eval vm_compute in cellsLocked "t" (add_cell "b" "h/s" "d" e1).
Definition cells3 : State := Eval vm_compute in cellsLocked "t" (add_cell "e" "h/q" "x" (add_cell "b" "h/s" "d" e1)).
Definition all_cells : ListCellsRequest := mkListCells "t" "" "" "" 1.
Definition cell_views : list (State * time) := [(cells2, 2); (cells3, 3); (cells3, 4)].
Definition cell_pages : list (list Cell) :=
  Eval vm_compute in match follow (list_cells_call cell_reader all_cells) "" cell_views with Ok p => p.1 | Err _ => [] end.
Lemma cell_pages_read : follow (list_cells_call cell_reader all_cells) "" cell_views = Ok (cell_pages, true).
Proof. vm_compute. reflexivity. Qed.
Lemma cell_pages_ids : (c_ID <$> concat cell_pages) = ["c"; "d"; "x"].
Proof. reflexivity. Qed.
Lemma list_cells_pages_witness :
  follow (list_cells_call cell_reader all_cells) "" cell_views = Ok (cell_pages, true) ∧
  read_in_pages c_ID str_lt (λ v, lists_cell cell_reader all_cells v.1) (Some "") cell_views cell_pages true.
Proof.
  split; [exact cell_pages_read|]. apply (list_cells_pages _ _ _ _ _ cell_pages_read).
  assert (∀ s, forallb (λ kc, bool_decide (c_ID kc.2 = kc.1) && ValidString kc.1) (map_to_list (cs_Cells s)) = true → cells_listable s) as Hok.
  { intros s Hs id c Hc%elem_of_map_to_list%list_elem_of_In. rewrite forallb_forall in Hs. specialize (Hs _ Hc).
    rewrite andb_true_iff, bool_decide_eq_true in Hs. exact Hs. }
  intros v Hv. apply Hok. revert v Hv. apply Forall_forall. repeat constructor; vm_compute; reflexivity.
Defined.
