(* ===== verification/WfErrors.v ===== *)
(** * WfErrors: the errors and the retry policies of workflow executions

    Go errors as the workflow engine tells them apart ([errors.go], [timeout.go],
    [job_failed_error.go], [goals.go], [worker_envelope.go], [support_helpers.go]):
    their text, the chain that [errors.Is] and [errors.As] follow, the payload that
    is recorded for them and the error that is read back from it; and the policies
    that decide about retries ([worker_retry.go]). *)

From S2P Require Import Prelude Types Json.

(** ** Equality of JSON values *)
#[export] Instance json_eq_dec : EqDecision json.
Proof.
  assert (∀ a b : json, {a = b} + {a ≠ b}) as Hdec; [|exact Hdec].
  fix IH 1. intros a b.
  assert (∀ l m : list json, {l = m} + {l ≠ m}) as HL.
  { fix IHl 1. intros [|x l] [|y m]; [by left|by right|by right|].
    destruct (IH x y) as [->|]; [|right; congruence].
    destruct (IHl l m) as [->|]; [by left|right; congruence]. }
  assert (∀ l m : list (string * json), {l = m} + {l ≠ m}) as HO.
  { fix IHl 1. intros [|[k x] l] [|[k' y] m]; [by left|by right|by right|].
    destruct (String.string_dec k k') as [->|]; [|right; congruence].
    destruct (IH x y) as [->|]; [|right; congruence].
    destruct (IHl l m) as [->|]; [by left|right; congruence]. }
  destruct a as [|x|x|x|x|x], b as [|y|y|y|y|y]; try (by right); try (by left).
  - destruct (Bool.bool_dec x y) as [->|]; [by left|right; congruence].
  - destruct (String.string_dec x y) as [->|]; [by left|right; congruence].
  - destruct (String.string_dec x y) as [->|]; [by left|right; congruence].
  - destruct (HL x y) as [->|]; [by left|right; congruence].
  - destruct (HO x y) as [->|]; [by left|right; congruence].
Defined.

(** ** Payloads

    What is recorded of an error.  References to inputs, which the engine always
    clears, and stack traces are left out. *)
Record AppErrorPayload := mkAppPayload {
  ap_Message : string; ap_Level : string; ap_Attrs : list (string * json)
}.
#[export] Instance AppErrorPayload_eq_dec : EqDecision AppErrorPayload.
Proof. solve_decision. Defined.
Record SystemErrorPayload := mkSystemPayload {
  sp_Message : string; sp_Component : string; sp_Code : string; sp_Retryable : bool
}.
#[export] Instance SystemErrorPayload_eq_dec : EqDecision SystemErrorPayload.
Proof. solve_decision. Defined.
Record TimeoutPayload := mkTimeoutPayload {
  to_Scope : string; to_After : Z; to_Retryable : bool; to_Kind : string;
  to_Component : string; to_Code : string; to_Message : string
}.
#[export] Instance TimeoutPayload_eq_dec : EqDecision TimeoutPayload.
Proof. solve_decision. Defined.

(** The kind of a recorded error and its payload. *)
Inductive ErrorPayload :=
  | payloadKindAppError (p : AppErrorPayload)
  | payloadKindSystemError (p : SystemErrorPayload)
  | payloadKindTimeout (p : TimeoutPayload).
#[export] Instance ErrorPayload_eq_dec : EqDecision ErrorPayload.
Proof. solve_decision. Defined.

(** ** Errors

    One constructor per error type of the module; [OtherError] is a value of any
    other type: the names [reflect] gives the type, what its [NonRetryable] method
    answers if it has one, its text and what it wraps. *)
Inductive goerr :=
  | AppError (p : AppErrorPayload)
  | SystemError (p : SystemErrorPayload)
  | TimeoutError (p : TimeoutPayload)
  | GoalFailedError (f : GoalFailure)
  | dependencyFailedError (f : GoalFailure)
  | ErrJobFailed
  | JobFailedError (cause : option goerr)
  | prereqFailedError (app : AppErrorPayload)
  | OtherError (types : list string) (non_retryable : option bool) (message : string) (wraps : option goerr).

(** [errors.New] *)
Definition error_string (message : string) : goerr := OtherError ["errorString"; "errors.errorString"] None message None.

(** Texts of [encoding/json] and of [time.Duration]. *)
Class FailureText := {
  failure_json : GoalFailure → json;
  json_failure : json → option GoalFailure;
  duration_string : Z → string;
  ParseDuration : string → option Z
}.

(** ** The chain that [errors.Is] and [errors.As] follow *)
Section chain.
Context `{FailureText}.

(** [GoalFailedError.Error] *)
Definition goal_failed_text (f : GoalFailure) : string := "goal " +:+ gf_GoalID f +:+ " failed: " +:+ gf_Message f.
(** [GoalFailedError.Unwrap] and [dependencyFailedError.Unwrap] *)
Definition goal_failed_app (f : GoalFailure) : AppErrorPayload :=
  mkAppPayload (goal_failed_text f) "error" [("_jobdb_goal_failure", failure_json f)].
Definition dependency_failed_app (f : GoalFailure) : AppErrorPayload :=
  mkAppPayload (gf_Message f) "error" [("_jobdb_dependency_failure", failure_json f)].

Fixpoint chain (e : goerr) : list goerr :=
  e :: match e with
       | GoalFailedError f => [AppError (goal_failed_app f)]
       | dependencyFailedError f => [AppError (dependency_failed_app f)]
       | JobFailedError (Some cause) => chain cause
       | prereqFailedError app => [AppError app]
       | OtherError _ _ _ (Some e) => chain e
       | _ => []
       end.

(** [errors.As] for one type: the first error of the chain that has it. *)
Definition as_first {A} (pick : goerr → option A) (e : goerr) : option A := head (omap pick (chain e)).
Definition as_timeout : goerr → option TimeoutPayload :=
  as_first (λ e, match e with TimeoutError p => Some p | _ => None end).
Definition as_system : goerr → option SystemErrorPayload :=
  as_first (λ e, match e with SystemError p => Some p | _ => None end).
Definition as_app : goerr → option AppErrorPayload :=
  as_first (λ e, match e with AppError p => Some p | _ => None end).
Definition as_job_failed : goerr → option (option goerr) :=
  as_first (λ e, match e with JobFailedError c => Some c | _ => None end).
(** [errors.As] to the interface [NonRetryableError], and its answer *)
Definition as_non_retryable : goerr → option bool :=
  as_first (λ e, match e with
    | GoalFailedError _ | dependencyFailedError _ | prereqFailedError _ => Some true
    | OtherError _ nr _ _ => nr
    | _ => None
    end).
(** [errors.Is(err, ErrJobFailed)] *)
Definition is_job_failed (e : goerr) : bool :=
  existsb (λ e, match e with JobFailedError _ | ErrJobFailed => true | _ => false end) (chain e).

Definition or_text (s other : string) : string := if str_empty s then other else s.
(** [Error()] *)
Fixpoint error_text (e : goerr) : string :=
  match e with
  | AppError p | prereqFailedError p => ap_Message p
  | SystemError p => sp_Message p
  | TimeoutError p => or_text (to_Message p) "timeout exceeded"
  | GoalFailedError f => goal_failed_text f
  | dependencyFailedError f => gf_Message f
  | ErrJobFailed | JobFailedError None => "job failed"
  | JobFailedError (Some cause) =>
      match as_job_failed cause with
      | Some _ => error_text cause
      | None => "job failed: " +:+ error_text cause
      end
  | OtherError _ _ message _ => message
  end.

(** The names [errorMatchesTypeName] compares with. *)
Definition type_names (e : goerr) : list string :=
  match e with
  | AppError _ => ["AppError"; "jobdb.AppError"]
  | SystemError _ => ["SystemError"; "jobdb.SystemError"]
  | TimeoutError _ => ["TimeoutError"; "jobdb.TimeoutError"]
  | GoalFailedError _ => ["GoalFailedError"; "jobdb.GoalFailedError"]
  | dependencyFailedError _ => ["dependencyFailedError"; "jobdb.dependencyFailedError"]
  | ErrJobFailed => ["errorString"; "errors.errorString"]
  | JobFailedError _ => ["JobFailedError"; "jobdb.JobFailedError"]
  | prereqFailedError _ => ["prereqFailedError"; "workflow.prereqFailedError"]
  | OtherError types _ _ _ => types
  end.
Definition errorMatchesTypeName (e : goerr) (name : string) : bool :=
  existsb (λ e, bool_decide (name ∈ type_names e)) (chain e).
End chain.

(** ** Recording an error and reading it back ([worker_envelope.go]) *)
Section payloads.
Context `{FailureText}.

(** Attributes are a Go map: the list of entries, of which a later write to a
    key replaces the entry. *)
Definition set_attrs (new attrs : list (string * json)) : list (string * json) :=
  foldl (λ attrs kv, obj_set kv.1 kv.2 attrs) attrs new.
Definition attrString (attrs : list (string * json)) (key : string) : string :=
  match obj_get key attrs with Some (JStr s) => s | _ => "" end.
Definition attrBool (attrs : list (string * json)) (key : string) : bool :=
  match obj_get key attrs with Some (JBool b) => b | _ => false end.

Definition jobFailedAttrKey : string := "_jobdb_job_failed".
Definition jobFailedKindAttrKey : string := "_jobdb_job_failed_kind".
Definition jobFailedCodeAttrKey : string := "_jobdb_job_failed_code".
Definition jobFailedComponentAttrKey : string := "_jobdb_job_failed_component".
Definition jobFailedRetryableAttrKey : string := "_jobdb_job_failed_retryable".
Definition jobFailedScopeAttrKey : string := "_jobdb_job_failed_scope".
Definition jobFailedAfterAttrKey : string := "_jobdb_job_failed_after".

Definition job_failed_marker : list (string * json) := [(jobFailedAttrKey, JBool true)].

(** [encodeJobFailedCause]: message, level and attributes *)
Definition encodeJobFailedCause (cause : goerr) : AppErrorPayload :=
  match as_timeout cause with
  | Some p => mkAppPayload (to_Message p) "error" (set_attrs
      ([(jobFailedKindAttrKey, JStr "TIMEOUT"); (jobFailedComponentAttrKey, JStr (to_Component p));
        (jobFailedCodeAttrKey, JStr (to_Code p)); (jobFailedRetryableAttrKey, JBool (to_Retryable p));
        (jobFailedScopeAttrKey, JStr (to_Scope p))]
       ++ (if (to_After p =? 0)%Z then [] else [(jobFailedAfterAttrKey, JStr (duration_string (to_After p)))]))
      job_failed_marker)
  | None => match as_system cause with
    | Some p => mkAppPayload (sp_Message p) "error" (set_attrs
        [(jobFailedKindAttrKey, JStr "SYSTEM"); (jobFailedComponentAttrKey, JStr (sp_Component p));
         (jobFailedCodeAttrKey, JStr (sp_Code p)); (jobFailedRetryableAttrKey, JBool (sp_Retryable p))]
        job_failed_marker)
    | None => match as_app cause with
      | Some p => mkAppPayload (ap_Message p) (ap_Level p) (set_attrs
          ((jobFailedKindAttrKey, JStr "APP") :: ap_Attrs p) job_failed_marker)
      | None => mkAppPayload (error_text cause) "error" job_failed_marker
      end
    end
  end.
Definition job_failed_prefix : string := "job failed: ".
Definition trimJobFailedPrefix (message : string) : string :=
  if String.prefix job_failed_prefix message
  then String.substring (String.length job_failed_prefix) (String.length message - String.length job_failed_prefix) message
  else message.
Definition encodeJobFailedError (e : goerr) : option AppErrorPayload :=
  if is_job_failed e then
    Some match as_job_failed e with
         | Some (Some cause) => encodeJobFailedCause cause
         | _ => mkAppPayload (trimJobFailedPrefix (error_text e)) "error" job_failed_marker
         end
  else None.

Definition errorPayloadFromError (e : goerr) : ErrorPayload :=
  match encodeJobFailedError e with
  | Some p => payloadKindAppError p
  | None => match as_timeout e with
    | Some p => payloadKindTimeout p
    | None => match as_system e with
      | Some p => payloadKindSystemError p
      | None => match as_app e with
        | Some p => payloadKindAppError p
        | None => payloadKindAppError (mkAppPayload (error_text e) "error" [])
        end
      end
    end
  end.

(** [GoalFailureFromAppError] *)
Definition GoalFailureFromAppError (p : AppErrorPayload) : option goerr :=
  match obj_get "_jobdb_goal_failure" (ap_Attrs p) with
  | Some v => match json_failure v with
    | Some f => if String.eqb (gf_Code f) "goal_failed" && negb (str_empty (gf_GoalID f))
                then Some (GoalFailedError f) else None
    | None => None
    end
  | None => match obj_get "_jobdb_dependency_failure" (ap_Attrs p) with
    | Some v => match json_failure v with
      | Some f => if String.eqb (gf_Code f) "job_dependency_failed" && negb (str_empty (gf_JobID f))
                  then Some (dependencyFailedError f)
                  else if String.eqb (gf_Code f) "goal_failed" && negb (str_empty (gf_GoalID f))
                  then Some (GoalFailedError f) else None
      | None => None
      end
    | None => None
    end
  end.

Definition jobFailedMarked (attrs : list (string * json)) : bool := attrBool attrs jobFailedAttrKey.
Definition job_failed_keys : list string :=
  [jobFailedAttrKey; jobFailedKindAttrKey; jobFailedCodeAttrKey; jobFailedComponentAttrKey;
   jobFailedRetryableAttrKey; jobFailedScopeAttrKey; jobFailedAfterAttrKey].
Definition stripJobFailedAttrs (attrs : list (string * json)) : list (string * json) :=
  filter (λ kv, kv.1 ∉ job_failed_keys) attrs.
(** [decodeJobFailedAppError] *)
Definition decodeJobFailedAppError (p : AppErrorPayload) : option goerr :=
  let attrs := ap_Attrs p in
  if jobFailedMarked attrs then
    Some (JobFailedError (Some (
      if String.eqb (attrString attrs jobFailedKindAttrKey) "TIMEOUT" then
        let raw := attrString attrs jobFailedAfterAttrKey in
        TimeoutError (mkTimeoutPayload (attrString attrs jobFailedScopeAttrKey)
          (if str_empty raw then 0 else default 0%Z (ParseDuration raw))
          (attrBool attrs jobFailedRetryableAttrKey) "" (attrString attrs jobFailedComponentAttrKey)
          (attrString attrs jobFailedCodeAttrKey) (ap_Message p))
      else if String.eqb (attrString attrs jobFailedKindAttrKey) "SYSTEM" then
        SystemError (mkSystemPayload (ap_Message p) (attrString attrs jobFailedComponentAttrKey)
          (attrString attrs jobFailedCodeAttrKey) (attrBool attrs jobFailedRetryableAttrKey))
      else AppError (mkAppPayload (ap_Message p) (ap_Level p) (stripJobFailedAttrs attrs)))))
  else None.

(** The error of [envelopeToTaskData] *)
Definition envelope_error (p : ErrorPayload) : goerr :=
  match p with
  | payloadKindTimeout p => TimeoutError p
  | payloadKindSystemError p => SystemError p
  | payloadKindAppError p =>
      match GoalFailureFromAppError p with
      | Some e => e
      | None => match decodeJobFailedAppError p with Some e => e | None => AppError p end
      end
  end.
End payloads.

(** ** Retry policies ([worker_retry.go]) *)

(** A [float64]: [mantissa * 2 ^ exponent], or one of the special values. *)
Inductive float64 :=
  | Finite (mantissa exponent : Z)
  | Infinite
  | NotANumber.
#[export] Instance float64_eq_dec : EqDecision float64.
Proof. solve_decision. Defined.
Definition float_one : float64 := Finite 1 0.
Definition float_is_zero (f : float64) : bool := match f with Finite m _ => (m =? 0)%Z | _ => false end.
(** Negative, infinite or not a number. *)
Definition float_invalid (f : float64) : bool := match f with Finite m _ => (m <? 0)%Z | _ => true end.

Record RetryPolicy := mkRetryPolicy {
  rt_InitialInterval : Z; rt_BackoffCoefficient : float64; rt_MaximumInterval : Z;
  rt_MaximumAttempts : Z; rt_NonRetryableErrorTypes : list string
}.
#[export] Instance RetryPolicy_eq_dec : EqDecision RetryPolicy.
Proof. solve_decision. Defined.
#[export] Instance eta_RetryPolicy : Eta RetryPolicy := λ p,
  mkRetryPolicy (rt_InitialInterval p) (rt_BackoffCoefficient p) (rt_MaximumInterval p)
    (rt_MaximumAttempts p) (rt_NonRetryableErrorTypes p).
Definition no_retry : RetryPolicy := mkRetryPolicy 0 (Finite 0 0) 0 0 [].

Record RunPolicy := mkRunPolicy {
  rp_Retry : RetryPolicy; rp_InvocationTimeout : option Z; rp_TotalTimeout : option Z
}.
#[export] Instance RunPolicy_eq_dec : EqDecision RunPolicy.
Proof. solve_decision. Defined.
#[export] Instance eta_RunPolicy : Eta RunPolicy := λ p,
  mkRunPolicy (rp_Retry p) (rp_InvocationTimeout p) (rp_TotalTimeout p).

Definition durationPtrToDuration (d : option Z) : Z := default 0%Z d.

Definition normalizeRetryPolicy (policy : RetryPolicy) : RetryPolicy :=
  let rp := if (rt_MaximumAttempts policy <=? 0)%Z then policy <| rt_MaximumAttempts := 1%Z |> else policy in
  if float_is_zero (rt_BackoffCoefficient rp) then rp <| rt_BackoffCoefficient := float_one |> else rp.
Definition normalizeTimeout (d : option Z) : option Z :=
  match d with
  | Some v => if (v <? 0)%Z then None else Some v
  | None => None
  end.
Definition normalizeRunPolicy (policy : RunPolicy) : RunPolicy :=
  mkRunPolicy (normalizeRetryPolicy (rp_Retry policy)) (normalizeTimeout (rp_InvocationTimeout policy))
    (normalizeTimeout (rp_TotalTimeout policy)).
Definition mergeRetryPolicy (override base : RetryPolicy) : RetryPolicy :=
  normalizeRetryPolicy (mkRetryPolicy
    (if (rt_InitialInterval override =? 0)%Z then rt_InitialInterval base else rt_InitialInterval override)
    (if float_is_zero (rt_BackoffCoefficient override) then rt_BackoffCoefficient base
     else rt_BackoffCoefficient override)
    (if (rt_MaximumInterval override =? 0)%Z then rt_MaximumInterval base else rt_MaximumInterval override)
    (if (rt_MaximumAttempts override =? 0)%Z then rt_MaximumAttempts base else rt_MaximumAttempts override)
    (if bool_decide (rt_NonRetryableErrorTypes override = []) then rt_NonRetryableErrorTypes base
     else rt_NonRetryableErrorTypes override)).
Definition mergeRunPolicy (override base : RunPolicy) : RunPolicy :=
  let merged := base <| rp_Retry := mergeRetryPolicy (rp_Retry override) (rp_Retry base) |> in
  let merged := match rp_InvocationTimeout override with
    | Some _ => merged <| rp_InvocationTimeout := normalizeTimeout (rp_InvocationTimeout override) |>
    | None => merged
    end in
  normalizeRunPolicy (match rp_TotalTimeout override with
    | Some _ => merged <| rp_TotalTimeout := normalizeTimeout (rp_TotalTimeout override) |>
    | None => merged
    end).

(** [time.Duration(float64(base) * math.Pow(coefficient, float64(attempt-1)))] *)
Class BackoffMath := scale_duration : Z → float64 → Z → Z.

(** Before the first retry the interval is only converted: the coefficient 1 stands for that. *)
Definition computeBackoff `{BackoffMath} (rp : RetryPolicy) (attempt : Z) : Z :=
  let dur := scale_duration (rt_InitialInterval rp)
    (if (1 <? attempt)%Z then rt_BackoffCoefficient rp else float_one) attempt in
  let max := rt_MaximumInterval rp in
  let dur := if ((0 <? max) && (max <? dur))%Z then max else dur in
  if (dur <? 0)%Z then 0%Z else dur.

Definition isRetryable `{FailureText} (e : goerr) (policy : RetryPolicy) : bool :=
  match as_timeout e with
  | Some p => to_Retryable p
  | None =>
      negb (bool_decide (as_non_retryable e = Some true))
      && negb (existsb (errorMatchesTypeName e) (rt_NonRetryableErrorTypes policy))
  end.

(** ** Facts *)
Lemma normalizeRetryPolicy_idemp p : normalizeRetryPolicy (normalizeRetryPolicy p) = normalizeRetryPolicy p.
Proof.
  destruct p as [i c m a t]. unfold normalizeRetryPolicy. cbn.
  destruct (a <=? 0)%Z eqn:Ha; destruct c as [[|q|q] x| |]; cbn; rewrite ?Ha; done.
Qed.
Lemma normalizeRetryPolicy_attempts p : (1 ≤ rt_MaximumAttempts (normalizeRetryPolicy p))%Z.
Proof.
  destruct p as [i c m a t]. unfold normalizeRetryPolicy. cbn.
  destruct (a <=? 0)%Z eqn:Ha; cbn; destruct (float_is_zero c); cbn; lia.
Qed.
Lemma normalizeRunPolicy_idemp p : normalizeRunPolicy (normalizeRunPolicy p) = normalizeRunPolicy p.
Proof.
  destruct p as [r i t]. unfold normalizeRunPolicy. cbn. rewrite normalizeRetryPolicy_idemp. f_equal;
    [destruct i as [v|]|destruct t as [v|]]; cbn; try done; destruct (v <? 0)%Z eqn:E; cbn; rewrite ?E; done.
Qed.

(** A wait between attempts is never negative and never longer than the policy's
    maximum, whatever the floating-point product is. *)
Lemma computeBackoff_bounds `{BackoffMath} rp attempt :
  (0 ≤ computeBackoff rp attempt)%Z ∧
  ((0 < rt_MaximumInterval rp)%Z → (computeBackoff rp attempt ≤ rt_MaximumInterval rp)%Z).
Proof. unfold computeBackoff. repeat case_match; lia. Qed.

(** An error that has been recorded and read back is recorded the same again, when
    it carries no goal or job failure. *)
Lemma payload_stable `{FailureText} p :
  match p with
  | payloadKindAppError a => GoalFailureFromAppError a = None ∧ decodeJobFailedAppError a = None
  | _ => True
  end → errorPayloadFromError (envelope_error p) = p.
Proof. destruct p as [a|p|p]; [intros [Hg Hj]; cbn; rewrite Hg, Hj; done|done|done]. Qed.
