(* ===== verification/WfHistory.v ===== *)
(** * WfHistory: the history of a workflow execution

    Identities of calls, the policies that are recorded with them, execution
    records and the checks of their decoder ([pkg/jobdb/execution.go]; of
    [pkg/workflow]: [execution_api.go], [execution_scope.go], [execution_history.go]),
    and how the chapters of a job are read back as a sequence of records. *)

From stdpp Require Import pretty.
From S2P Require Import Prelude Types Json WfErrors.

(** ** Identities

    The identity of a call is a slash-separated path; here the list of its segments,
    innermost first, which [spell] writes the way the code formats it. *)
Inductive segment :=
  | Occurrence (kind site : string) (n : Z)
  | AttemptSegment (n : Z)
  | MatchingSegment
  | CatchSegment (rule : string)
  | Word (name : string).
#[export] Instance segment_eq_dec : EqDecision segment.
Proof. solve_decision. Defined.
Abbreviation path := (list segment).

Fixpoint spell (p : path) : string :=
  match p with
  | [] => ""
  | Occurrence kind site n :: up => spell up +:+ "/" +:+ kind +:+ ":" +:+ marshal_string site +:+ "#" +:+ pretty n
  | AttemptSegment n :: up => spell up +:+ "/attempt:" +:+ pretty n
  | MatchingSegment :: up => spell up +:+ "/matching"
  | CatchSegment rule :: up => spell up +:+ "/catch:" +:+ rule
  | Word name :: _ => name
  end.

(** [strings.HasPrefix(id, above + "/")] *)
Fixpoint inside (id above : path) : bool :=
  match id with
  | [] => false
  | _ :: up => bool_decide (up = above) || inside up above
  end.

Lemma inside_spec id above : inside id above = true ↔ ∃ s inner, id = inner ++ s :: above.
Proof.
  induction id as [|s up IH]; simpl; [split; [done|intros (s & [|] & [=])]|].
  rewrite orb_true_iff, bool_decide_eq_true, IH. split.
  - intros [->|(s' & inner & ->)]; [by exists s, []|by exists s', (s :: inner)].
  - intros (s' & [|x inner] & Heq); injection Heq as -> ->; [by left|right; eauto].
Qed.
Lemma inside_cons s id above : inside id above = true → inside (s :: id) above = true.
Proof. rewrite !inside_spec. intros (t & inner & ->). by exists t, (s :: inner). Qed.
Lemma inside_irrefl id : inside id id = false.
Proof.
  destruct (inside id id) eqn:H; [|done]. apply inside_spec in H as (s & inner & H).
  apply (f_equal length) in H. rewrite length_app in H. simpl in H. lia.
Qed.

(** ** Declared policies *)
Record executionPolicy := mkExecutionPolicy {
  xp_TotalTimeout : Z; xp_AttemptTimeout : Z; xp_Retry : RetryPolicy;
  xp_Rules : list string; xp_Restart : bool
}.
#[export] Instance executionPolicy_eq_dec : EqDecision executionPolicy.
Proof. solve_decision. Defined.
#[export] Instance eta_executionPolicy : Eta executionPolicy := λ p,
  mkExecutionPolicy (xp_TotalTimeout p) (xp_AttemptTimeout p) (xp_Retry p) (xp_Rules p) (xp_Restart p).

(** The scope options that are data; the rules' names come with them, and
    [so_OnRestart] says whether there is a restart hook. *)
Record ScopeOptions := mkScopeOptions {
  so_TotalTimeout : Z; so_AttemptTimeout : Z; so_Retry : RetryPolicy; so_OnRestart : bool
}.

(** Rule names must be given and distinct; predicates and handlers are never nil. *)
Fixpoint rule_names_ok (seen : list string) (rules : list string) : bool :=
  match rules with
  | [] => true
  | r :: rules => negb (str_empty r) && bool_decide (r ∉ seen) && rule_names_ok (r :: seen) rules
  end.
Definition makeExecutionPolicy (opts : ScopeOptions) (rules : list string) : string + executionPolicy :=
  let p := mkExecutionPolicy (so_TotalTimeout opts) (so_AttemptTimeout opts)
             (normalizeRetryPolicy (so_Retry opts)) rules (so_OnRestart opts) in
  let r := so_Retry opts in
  if ((xp_TotalTimeout p <? 0) || (xp_AttemptTimeout p <? 0) || (rt_MaximumAttempts r <? 0)
      || (rt_InitialInterval r <? 0) || (rt_MaximumInterval r <? 0))%Z || float_invalid (rt_BackoffCoefficient r)
  then inl "invalid execution policy"
  else if rule_names_ok [] rules then inr p
  else inl "catch rules require unique ids, predicates and handlers".

Definition withRecordedLifecycle (p recorded : executionPolicy) : executionPolicy :=
  p <| xp_TotalTimeout := xp_TotalTimeout recorded |> <| xp_AttemptTimeout := xp_AttemptTimeout recorded |>
    <| xp_Retry := xp_Retry recorded |>.

Record TaskCall := mkTaskCall {
  tc_Site : string; tc_TaskType : string; tc_ContractVersion : Z;
  (** [None] when the bytes are not valid JSON *)
  tc_Command : option json;
  tc_Policy : RunPolicy;
  (** the other task type and after how long it becomes eligible *)
  tc_Alternate : option (string * Z)
}.
#[export] Instance TaskCall_eq_dec : EqDecision TaskCall.
Proof. solve_decision. Defined.
#[export] Instance eta_TaskCall : Eta TaskCall := λ c,
  mkTaskCall (tc_Site c) (tc_TaskType c) (tc_ContractVersion c) (tc_Command c) (tc_Policy c) (tc_Alternate c).
Definition allowedExecutionType (call : TaskCall) (taskType : string) : bool :=
  String.eqb taskType (tc_TaskType call)
  || match tc_Alternate call with Some (other, _) => String.eqb taskType other | None => false end.

#[export] Instance Dependency_eq_dec : EqDecision Dependency.
Proof. solve_decision. Defined.

(** What a declaration is compared by.  The code keeps its canonical JSON, so two
    descriptors are the same when they are the same value. *)
Inductive descriptor :=
  | ScopeDescriptor (p : executionPolicy)
  | TaskDescriptor (call : TaskCall) (p : executionPolicy)
  | DurationDescriptor (d : Z)
  | JobsDescriptor (ids : list string)
  | DependenciesDescriptor (deps : list Dependency)
  | RouteDescriptor (taskType : string).
#[export] Instance descriptor_eq_dec : EqDecision descriptor.
Proof. solve_decision. Defined.

(** ** Times: the zero time stands for no limit *)
Definition deadlineFrom (at_ : time) (limit : Z) : time := if (limit <=? 0)%Z then 0%Z else (at_ + limit)%Z.
Definition earlier (a b : time) : time := if IsZero a || (negb (IsZero b) && Before b a) then b else a.
(** [nonzeroTime] *)
Definition nonzeroTime (t : time) : option time := if IsZero t then None else Some t.

(** [earlier a b] is no later than either, where they are limits. *)
Definition within_limit (a b : time) : Prop := (b = 0 ∨ (a ≠ 0 ∧ a ≤ b))%Z.
Lemma earlier_within a b : within_limit (earlier a b) b ∧ within_limit (earlier a b) a.
Proof.
  unfold within_limit, earlier, IsZero, Before.
  destruct (Z.eqb_spec a 0), (Z.eqb_spec b 0), (Z.ltb_spec b a); simpl; lia.
Qed.
Lemma within_limit_trans a b c : within_limit a b → within_limit b c → within_limit a c.
Proof. unfold within_limit. lia. Qed.

(** ** Task data and snapshots

    Data is JSON; [None] when it cannot be read or is not valid JSON.  Of an artifact
    the engine needs its name and where its bytes are: [Durable] has a storage key,
    [Transient] has readable bytes of its own, [Lost] has neither. *)
Inductive artifact_state := Durable | Transient | Lost.
#[export] Instance artifact_state_eq_dec : EqDecision artifact_state.
Proof. solve_decision. Defined.
Abbreviation artifact := (string * artifact_state)%type.
Record TaskData := mkTaskData { td_Data : option json; td_Artifacts : list artifact }.
#[export] Instance TaskData_eq_dec : EqDecision TaskData.
Proof. solve_decision. Defined.
Record ExecutionSnapshot := mkSnapshot { es_Data : json; es_Artifacts : list artifact }.
#[export] Instance ExecutionSnapshot_eq_dec : EqDecision ExecutionSnapshot.
Proof. solve_decision. Defined.

Fixpoint artifact_names_ok (seen names : list string) : bool :=
  match names with
  | [] => true
  | n :: names => negb (str_empty n) && bool_decide (n ∉ seen) && artifact_names_ok (n :: seen) names
  end.
Definition has_state (st : artifact_state) (a : artifact) : bool := bool_decide (a.2 = st).
(** [executionSnapshot]; missing data is JSON null *)
Definition executionSnapshot (data : option TaskData) : string + ExecutionSnapshot :=
  match data with
  | None => inr (mkSnapshot JNull [])
  | Some d =>
      match td_Data d with
      | None => inl "task data must be valid JSON"
      | Some j =>
          if negb (artifact_names_ok [] (td_Artifacts d).*1) then inl "artifact names are required and distinct"
          else if existsb (has_state Lost) (td_Artifacts d) then inl "artifact has no durable key"
          else inr (mkSnapshot j (td_Artifacts d))
      end
  end.
(** [ExecutionArtifact.Stage] of the artifacts of a snapshot: their bytes are uploaded
    with the chapter that commits it. *)
Definition stage (s : ExecutionSnapshot) : ExecutionSnapshot :=
  mkSnapshot (es_Data s) ((λ a, (a.1, match a.2 with Transient => Durable | st => st end)) <$> es_Artifacts s).
(** A snapshot written as JSON and read back: bytes that are not stored are lost. *)
Definition json_roundtrip (s : ExecutionSnapshot) : ExecutionSnapshot :=
  mkSnapshot (es_Data s) ((λ a, (a.1, match a.2 with Transient => Lost | st => st end)) <$> es_Artifacts s).
Definition snapshotData (s : option ExecutionSnapshot) : option TaskData :=
  (λ s, mkTaskData (Some (es_Data s)) (es_Artifacts s)) <$> s.

(** ** Records *)
Inductive record_kind :=
  | KHeader | KActivation | KDependencyBinding | KCheckpoint | KDispatch | KJoinResult | KAdmission
  | KScope | KTask | KAttempt | KResult | KCatch | KHandled | KDecision | KEnd | KWait | KSleep | KJoin.
#[export] Instance record_kind_eq_dec : EqDecision record_kind.
Proof. solve_decision. Defined.

Record ExecutionVersions := mkVersions {
  ev_ExecutionPatternVersion : Z; ev_JobDBVersion : string; ev_ConsumerVersions : list (string * string)
}.
#[export] Instance ExecutionVersions_eq_dec : EqDecision ExecutionVersions.
Proof. solve_decision. Defined.
Definition ExecutionPatternVersion : Z := 4.

(** The fields that only records of a restart use are left out. *)
Record ExecutionRecord := mkRecord {
  er_Version : Z;
  er_Kind : record_kind;
  er_ID : path;
  er_Activation : string;
  er_Versions : option ExecutionVersions;
  er_At : time;
  er_Descriptor : option descriptor;
  er_Attempt : Z;
  er_Deadline : time;
  er_TotalDeadline : time;
  er_Input : option ExecutionSnapshot;
  er_Output : option ExecutionSnapshot;
  er_Error : option ErrorPayload;
  er_Rule : string;
  er_Disposition : string;
  er_Retryable : option bool;
  er_Retry : bool;
  er_WakeAt : time;
  er_Payload : option json;
  er_AlternateAt : option time;
  er_ExecutionTaskType : string
}.
#[export] Instance ExecutionRecord_eq_dec : EqDecision ExecutionRecord.
Proof. solve_decision. Defined.
#[export] Instance eta_ExecutionRecord : Eta ExecutionRecord := λ r,
  mkRecord (er_Version r) (er_Kind r) (er_ID r) (er_Activation r) (er_Versions r) (er_At r) (er_Descriptor r)
    (er_Attempt r) (er_Deadline r) (er_TotalDeadline r) (er_Input r) (er_Output r) (er_Error r) (er_Rule r)
    (er_Disposition r) (er_Retryable r) (er_Retry r) (er_WakeAt r) (er_Payload r) (er_AlternateAt r)
    (er_ExecutionTaskType r).
(** [jobdb.ExecutionRecord{}] *)
Definition empty_record : ExecutionRecord :=
  mkRecord 0 KEnd [] "" None 0 None 0 0 0 None None None "" "" None false 0 None None "".

Definition stage_record (r : ExecutionRecord) : ExecutionRecord :=
  r <| er_Input := stage <$> er_Input r |> <| er_Output := stage <$> er_Output r |>.

(** Texts of [encoding/json], SHA-256 and the protobuf encoding of a wait record. *)
Class ExecutionText := {
  wait_json : DependencyWaitInfo → json;
  json_wait : json → option DependencyWaitInfo;
  payload_json : ErrorPayload → json;
  sha256_text : string → string;
  ExecutionIdentity : ExecutionRecord → option string
}.

Definition CatchHandled : string := "handled".
Definition CatchContinue : string := "continue".
Definition CatchPropagate : string := "propagate".
Definition valid_disposition (d : string) : bool := bool_decide (d ∈ [CatchHandled; CatchContinue; CatchPropagate]).

Definition snapshot_ok (s : option ExecutionSnapshot) : bool :=
  opt_all (λ s, artifact_names_ok [] (es_Artifacts s).*1 && forallb (has_state Durable) (es_Artifacts s)) s.
Definition TrimSpace_empty (s : string) : bool := blank s.

(** The checks of [DecodeExecutionRecord] on a record that has been parsed. *)
Definition DecodeExecutionRecord `{ExecutionText} (r : ExecutionRecord) : bool :=
  (er_Version r =? ExecutionPatternVersion)%Z
  && match er_Kind r with
     | KHeader | KActivation => match er_Versions r with
       | Some v => (ev_ExecutionPatternVersion v =? er_Version r)%Z && negb (str_empty (ev_JobDBVersion v))
       | None => false
       end
     | _ => negb (bool_decide (er_ID r = []))
     end
  && opt_all (λ v, forallb (λ kv, negb (TrimSpace_empty kv.1) && negb (TrimSpace_empty kv.2))
                     (ev_ConsumerVersions v)) (er_Versions r)
  && match er_Kind r with
     | KDependencyBinding => match er_Payload r ≫= json_wait with
       | Some w => negb (str_empty (wi_WaitID w)) && negb (bool_decide (wi_State w = DependencyPending))
       | None => false
       end
     | KDispatch => negb (str_empty (er_ExecutionTaskType r))
     | KScope | KTask => bool_decide (is_Some (er_Descriptor r))
     | KAttempt => (1 <=? er_Attempt r)%Z
     | KJoinResult | KAdmission | KResult | KHandled | KEnd =>
         bool_decide (is_Some (er_Output r)) || bool_decide (is_Some (er_Error r))
     | KWait => bool_decide (is_Some (er_Input r)) && bool_decide (is_Some (er_Descriptor r))
     | _ => true
     end
  && (str_empty (er_Disposition r) || valid_disposition (er_Disposition r))
  && snapshot_ok (er_Input r) && snapshot_ok (er_Output r).

(** ** Chapters

    An execution chapter commits a record and, before it, the records that were
    deferred until it.  The records that are read back carry the chapter's ordinal. *)
Record ExecutionChapter := mkExecutionChapter { xc_Prefix : list ExecutionRecord; xc_Record : ExecutionRecord }.
#[export] Instance ExecutionChapter_eq_dec : EqDecision ExecutionChapter.
Proof. solve_decision. Defined.
Definition chapter_records (c : ExecutionChapter) : list ExecutionRecord := xc_Prefix c ++ [xc_Record c].

Record event := mkEvent { ev_record : ExecutionRecord; ev_ordinal : Z }.
Definition chapter_events (ordinal : Z) (c : ExecutionChapter) : list event :=
  (λ r, mkEvent r ordinal) <$> chapter_records c.
Fixpoint history_events (ordinal : Z) (h : list ExecutionChapter) : list event :=
  match h with
  | [] => []
  | c :: h => chapter_events ordinal c ++ history_events (ordinal + 1) h
  end.

(** [sameExecutionPrefix]: equal but for clock samples and activations. *)
Definition without_samples (r : ExecutionRecord) : ExecutionRecord :=
  r <| er_At := 0%Z |> <| er_Deadline := 0%Z |> <| er_TotalDeadline := 0%Z |> <| er_Activation := "" |>.
Definition sameExecutionPrefix (a b : list ExecutionRecord) : bool :=
  bool_decide (without_samples <$> a = without_samples <$> b).

Lemma history_events_app o h1 h2 :
  history_events o (h1 ++ h2) = history_events o h1 ++ history_events (o + Z.of_nat (length h1)) h2.
Proof.
  revert o. induction h1 as [|c h1 IH]; intros o; simpl; [by rewrite Z.add_0_r|].
  rewrite IH, (assoc app). do 2 f_equal. lia.
Qed.
Lemma history_events_records o h : ev_record <$> history_events o h = mjoin (chapter_records <$> h).
Proof.
  revert o. induction h as [|c h IH]; intros o; simpl; [done|].
  rewrite fmap_app, IH. f_equal. unfold chapter_events. rewrite <- list_fmap_compose. by apply list_fmap_id.
Qed.
