(* ===== verification/WfRun.v ===== *)
(** * WfRun: the state of one execution and its event log

    [execution_history.go]: the run record, the tree of contexts with their
    deadlines, and how events are consumed from the history or committed to it.

    An execution runs on one goroutine; what it observes of the rest of the world
    (clocks, delivered timers, answers of the runtime, results of task workers) are
    answers of a [World], numbered by a tick that every question advances. *)

From stdpp Require Import pretty.
From S2P Require Import Prelude Types Json WfErrors WfHistory.

(** ** Errors of the engine *)
Inductive put_error :=
  | PutTooLarge (failure : AppErrorPayload)
  | PutRefused (message : string).

(** What an [executionControlError] wraps. *)
Inductive control_cause :=
  | NotDeterministic (detail : string)
  | AppendFailed (e : put_error)
  | ControlError (message : string).

Inductive ReplayCacheMissReason :=
  | ReplayCacheMissTaskResultMissing | ReplayCacheMissJobResultMissing
  | ReplayCacheMissAwaitNotReady | ReplayCacheMissAwaitJobsPending.

(** [Failed] is an ordinary error; the others are those [isExecutionControl]
    recognises, also when they are wrapped.  [Diverged] is the model's own: a loop
    that exceeded its fuel. *)
Inductive werr :=
  | Failed (e : goerr)
  | Control (c : control_cause)
  | ErrExecutionSuspended
  | ErrRecordedBoundary
  | Canceled
  | LeaseLost
  | ReplayCacheMiss (reason : ReplayCacheMissReason)
  | Diverged.
Definition isExecutionControl (e : werr) : bool := match e with Failed _ => false | _ => true end.
Definition is_boundary (e : werr) : bool := match e with ErrRecordedBoundary => true | _ => false end.
Definition failed (message : string) : werr := Failed (error_string message).

(** What a Go function that returns [(TaskData, error)] returns. *)
Abbreviation reply := (option TaskData * option werr)%type.

(** ** Contexts *)
Record executionContext := mkContext {
  cx_id : path;
  cx_policy : option executionPolicy;
  cx_attempt : Z;
  cx_deadline : time;
  cx_totalDeadline : time;
  cx_timer : bool;
  cx_counts : gmap string Z;
  (** why the Go context was cancelled *)
  cx_cause : option werr
}.
#[export] Instance eta_executionContext : Eta executionContext := λ c,
  mkContext (cx_id c) (cx_policy c) (cx_attempt c) (cx_deadline c) (cx_totalDeadline c) (cx_timer c)
    (cx_counts c) (cx_cause c).

(** ** What the execution asks of the world *)
Record RescheduleExecutionRequest := mkReschedule {
  re_NextRoute : Route; re_WaitUntil : option time; re_WaitForJobIDs : list string;
  re_DependencyWait : option DependencyWait; re_TaskWait : option TaskWait;
  re_Alternate : option (Route * Z)
}.
Inductive put_reply :=
  | PutDone
  (** the write failed; what reading the slot back finds *)
  | PutFailed (e : put_error) (found : option ExecutionChapter).
Inductive job_lookup :=
  | JobMissing
  | JobLookupFailed (e : werr)
  (** status, and the result data if it is exposed: its error *)
  | JobFound (status : JobStatus) (data : option (option string)).
Inductive wait_lookup :=
  | WaitMissing
  | WaitLookupFailed (e : werr)
  | WaitFound (w : DependencyWaitInfo).
Inductive JobOutcome :=
  | OutcomeOutput (data : option json) (artifacts : list artifact)
  | OutcomeError (p : ErrorPayload).
Record FinalChapter := mkFinal { fc_Prefix : list ExecutionRecord; fc_Outcome : JobOutcome }.

(** [w_timers] lists the contexts whose timer fires, by their distance from the
    root; [w_order] starts the order in which a Go map of contexts is ranged over. *)
Record World := mkWorld {
  w_now : nat → time;
  w_timers : nat → list nat;
  w_order : nat → list nat;
  w_root : nat → option werr;
  w_slept : nat → bool;
  w_put : nat → ExecutionChapter → put_reply;
  w_reschedule : nat → RescheduleExecutionRequest → option string;
  w_complete : nat → FinalChapter → option werr;
  w_worker : nat → path → string → option TaskData → reply;
  w_job : nat → string → job_lookup;
  w_wait : nat → string → wait_lookup
}.

(** Everything the execution does to the world, in order. *)
Inductive effect :=
  | PutChapter (c : ExecutionChapter)
  | Reschedule (r : RescheduleExecutionRequest)
  | RunWorker (id : path) (taskType : string) (input : option TaskData)
  | Complete (status detail : string) (c : FinalChapter).

(** ** The run *)
Record executionRun := mkRun {
  (** the recorded events, and how many have been consumed *)
  ru_events : list event;
  ru_cursor : nat;
  ru_pending : list ExecutionRecord;
  (** the chapters this execution has committed *)
  ru_written : list ExecutionChapter;
  ru_ordinal : Z;
  ru_anchor : time;
  ru_timeoutError : option ErrorPayload;
  ru_activated : bool;
  ru_live : bool;
  ru_suspended : bool;
  ru_fatal : option werr;
  (** the contexts, innermost first; the last is the root *)
  ru_contexts : list executionContext;
  ru_tick : nat;
  ru_trace : list effect;
  (** the identities given out: a history variable, which nothing reads *)
  ru_issued : list path
}.
#[export] Instance eta_executionRun : Eta executionRun := λ s,
  mkRun (ru_events s) (ru_cursor s) (ru_pending s) (ru_written s) (ru_ordinal s) (ru_anchor s) (ru_timeoutError s)
    (ru_activated s) (ru_live s) (ru_suspended s) (ru_fatal s) (ru_contexts s) (ru_tick s) (ru_trace s)
    (ru_issued s).
Definition ru_rest (s : executionRun) : list event := drop (ru_cursor s) (ru_events s).

(** What does not change during a run. *)
Record Settings := mkSettings {
  st_replay : bool;
  st_final : bool;
  st_versions : ExecutionVersions;
  st_activation : string;
  st_jobType : string;
  st_localTasks : list string;
  st_awaitThreshold : Z;
  st_route : Route;
  st_taskWait : option TaskWait
}.

#[export] Instance eta_Settings : Eta Settings := λ e,
  mkSettings (st_replay e) (st_final e) (st_versions e) (st_activation e) (st_jobType e) (st_localTasks e)
    (st_awaitThreshold e) (st_route e) (st_taskWait e).

(** ** A state monad whose failure keeps the state *)
Definition exe (A : Type) : Type := executionRun → executionRun * (werr + A).
#[export] Instance exe_ret : MRet exe := λ A a s, (s, inr a).
#[export] Instance exe_bind : MBind exe := λ A B k m s,
  match m s with
  | (s', inr a) => k a s'
  | (s', inl e) => (s', inl e)
  end.
Definition throw {A} (e : werr) : exe A := λ s, (s, inl e).
Definition ask {A} (f : executionRun → A) : exe A := λ s, (s, inr (f s)).
Definition change (f : executionRun → executionRun) : exe () := λ s, (f s, inr tt).
(** [if cond { return err }] *)
Definition fail_if (b : bool) (e : werr) : exe () := if b then throw e else mret tt.
Definition lift_error {A} (r : string + A) : exe A :=
  match r with inl message => throw (failed message) | inr a => mret a end.
(** The values a Go function returns when it returns early with an error. *)
Definition as_reply {A} (m : exe (option A * option werr)) : exe (option A * option werr) := λ s,
  match m s with
  | (s', inl e) => (s', inr (None, Some e))
  | r => r
  end.

Section run.
Context `{ExecutionText} (W : World) (E : Settings).

(** A question to the world. *)
Definition asks {A} (f : nat → A) : exe A := λ s, (s <| ru_tick := S (ru_tick s) |>, inr (f (ru_tick s))).
Definition emit (x : effect) : exe () := change (λ s, s <| ru_trace := ru_trace s ++ [x] |>).
Definition now : exe time := asks (w_now W).

(** *** Cancellation *)
Definition set_cause (e : werr) (c : executionContext) : executionContext :=
  match cx_cause c with None => c <| cx_cause := Some e |> | Some _ => c end.
(** Cancelling a context cancels those inside it; the first cause stays. *)
Definition cancel_from (n : nat) (e : werr) (l : list executionContext) : list executionContext :=
  (set_cause e <$> take n l) ++ drop n l.
(** [c.cancel(err)] of the context at a distance from the root *)
Definition cancel_depth (d : nat) (e : werr) (l : list executionContext) : list executionContext :=
  cancel_from (length l - d) e l.
Definition context_at (d : nat) (l : list executionContext) : option executionContext := reverse l !! d.

(** [NewTimeoutError] *)
Definition NewTimeoutError (kind scope : string) (retryable : bool) : goerr :=
  TimeoutError (mkTimeoutPayload scope 0 retryable kind "runner" ("timeout_" +:+ scope)
    (kind +:+ " " +:+ scope +:+ " timed out after 0s")).
(** The error a context's deadline cancels it with. *)
Definition timeout_of (c : executionContext) : werr :=
  if negb (IsZero (cx_totalDeadline c)) && negb (Before (cx_deadline c) (cx_totalDeadline c))
  then Failed (NewTimeoutError "scope" "total" false)
  else Failed (NewTimeoutError "scope" "invocation" true).

(** A timer that is set fires once its deadline has passed. *)
Definition fire (at_ : time) (l : list executionContext) (d : nat) : list executionContext :=
  match context_at d l with
  | Some c => if cx_timer c && negb (After (cx_deadline c) at_) then cancel_depth d (timeout_of c) l else l
  | None => l
  end.
(** What has happened to the contexts up to this moment: the caller may have
    cancelled the root, and timers may have fired. *)
Definition observe : exe () := λ s,
  let n := ru_tick s in
  let l := match w_root W n with Some e => cancel_depth 0 e (ru_contexts s) | None => ru_contexts s end in
  (s <| ru_tick := S n |> <| ru_contexts := foldl (fire (w_now W n)) l (w_timers W n) |>, inr tt).
(** [context.Cause(c.ctx)] of the current context *)
Definition cause : exe (option werr) :=
  observe ;; ask (λ s, head (ru_contexts s) ≫= cx_cause).
Definition check_cause : exe () := e ← cause; match e with Some e => throw e | None => mret tt end.

(** [executionRun.controlLocked] *)
Definition controlLocked {A} (c : control_cause) : exe A := λ s,
  match ru_fatal s with
  | Some e => (s, inl e)
  | None => (s <| ru_fatal := Some (Control c) |>
               <| ru_contexts := cancel_from (length (ru_contexts s) - 1) (Control c) (ru_contexts s) |>,
             inl (Control c))
  end.
(** [executionRun.suspend] *)
Definition suspend {A} : exe A := λ s,
  (s <| ru_suspended := true |>
     <| ru_contexts := cancel_from (length (ru_contexts s) - 1) ErrExecutionSuspended (ru_contexts s) |>,
   inl ErrExecutionSuspended).

(** [executionContext.armLocked] of the context at a distance from the root *)
Definition armLocked (d : nat) : exe () :=
  l ← ask ru_contexts;
  match context_at d l with
  | None => mret tt
  | Some c =>
      if IsZero (cx_deadline c) then mret tt
      else
        t ← now;
        if negb (After (cx_deadline c) t)
        then change (λ s, s <| ru_contexts := cancel_depth d (timeout_of c) (ru_contexts s) |>)
        else change (λ s, s <| ru_contexts := <[(length l - 1 - d)%nat := c <| cx_timer := true |>]> (ru_contexts s) |>)
  end.
Fixpoint arm_all (ds : list nat) : exe () :=
  match ds with
  | [] => mret tt
  | d :: ds => armLocked d ;; arm_all ds
  end.
Definition depth (s : executionRun) : nat := length (ru_contexts s) - 1.

(** [executionContext.checkLocked] *)
Definition checkLocked : exe () :=
  suspended ← ask ru_suspended;
  fail_if suspended ErrExecutionSuspended ;;
  fatal ← ask ru_fatal;
  match fatal with Some e => throw e | None => mret tt end ;;
  live ← ask ru_live;
  (if (live : bool) then d ← ask depth; armLocked d else mret tt) ;;
  check_cause.

(** [executionContext.liveLocked]: the first time, every context gets its timer. *)
Definition liveLocked : exe () :=
  if st_replay E then throw (ReplayCacheMiss ReplayCacheMissTaskResultMissing)
  else
    live ← ask ru_live;
    (if (live : bool) then mret tt
     else
       change (λ s, s <| ru_live := true |>) ;;
       order ← asks (w_order W);
       d ← ask depth;
       arm_all (filter (λ i, (i ≠ 0 ∧ i ≤ d)%nat) order ++ seq 1 d)) ;;
    checkLocked.

(** [executionContext.child]; the new context is the current one until [close]. *)
Definition new_child (id : path) (deadline total : time) (parent : option executionContext) : executionContext :=
  mkContext id None 0 deadline total false ∅ (parent ≫= cx_cause).
Definition child (id : path) (deadline total : time) : exe () :=
  change (λ s, s <| ru_contexts := new_child id deadline total (head (ru_contexts s)) :: ru_contexts s |>) ;;
  live ← ask ru_live;
  if (live : bool) then d ← ask depth; armLocked d else mret tt.
Definition close : exe () := change (λ s, s <| ru_contexts := tail (ru_contexts s) |>).

Definition current_id : exe path := ask (λ s, default [] (cx_id <$> head (ru_contexts s))).
Definition current_deadline : exe time := ask (λ s, default 0%Z (cx_deadline <$> head (ru_contexts s))).
Definition change_current (f : executionContext → executionContext) : exe () :=
  change (λ s, s <| ru_contexts := match ru_contexts s with [] => [] | c :: l => f c :: l end |>).

(** [executionContext.occurrence]: calls of one execution never overlap. *)
Definition occurrence (kind site : string) : exe path :=
  check_cause ;;
  fail_if (str_empty site) (failed "call site is required") ;;
  let key := kind +:+ ":" +:+ site in
  change_current (λ c, c <| cx_counts := <[key := (default 0 (cx_counts c !! key) + 1)%Z]> (cx_counts c) |>) ;;
  n ← ask (λ s, default 0%Z (head (ru_contexts s) ≫= λ c, cx_counts c !! key));
  id ← current_id;
  change (λ s, s <| ru_issued := ru_issued s ++ [Occurrence kind site n :: id] |>) ;;
  mret (Occurrence kind site n :: id).

(** *** The event log *)

(** [peekLocked]: provenance records are skipped. *)
Definition skipped (e : event) : bool :=
  bool_decide (er_Kind (ev_record e) ∈ [KActivation; KCheckpoint; KDependencyBinding]).
Fixpoint skip_count (l : list event) : nat :=
  match l with
  | e :: l => if skipped e then S (skip_count l) else O
  | [] => O
  end.
Definition peek : exe (option event) := λ s,
  let cursor := (ru_cursor s + skip_count (ru_rest s))%nat in
  (s <| ru_cursor := cursor |>, inr (ru_events s !! cursor)).
Definition at_frontier : exe bool := next ← peek; mret (negb (bool_decide (is_Some next))).

Definition is_timeout (r : ExecutionRecord) : bool :=
  match er_Error r with Some (payloadKindTimeout _) => true | _ => false end.
(** How a recorded or committed event moves the anchor of the next declarations. *)
Definition note_outcome (r : ExecutionRecord) : exe () :=
  if bool_decide (er_Kind r ∈ [KResult; KJoinResult]) then
    change (λ s, s <| ru_anchor := er_At r |>
                   <| ru_timeoutError := if is_timeout r then er_Error r else None |>)
  else mret tt.
Definition note_wake (r : ExecutionRecord) : exe () :=
  if er_Retry r || bool_decide (er_Kind r = KSleep) then change (λ s, s <| ru_anchor := er_WakeAt r |>) else mret tt.

(** *** Committing *)
Definition default_at (r : ExecutionRecord) : exe ExecutionRecord :=
  if IsZero (er_At r) then t ← now; mret (r <| er_At := t |>) else mret r.
(** Whether what was found in the slot is this event, committed by another execution
    that had the same path before it. *)
Definition same_event (ch win : ExecutionChapter) : bool :=
  let rec := xc_Record ch in
  let winner := xc_Record win in
  DecodeExecutionRecord winner
  && (bool_decide (er_Kind rec = KResult) || bool_decide (winner = rec))
  && bool_decide (er_Kind winner = er_Kind rec) && bool_decide (er_ID winner = er_ID rec)
  && (er_Version winner =? er_Version rec)%Z && bool_decide (er_Descriptor winner = er_Descriptor rec)
  && sameExecutionPrefix (xc_Prefix ch) (xc_Prefix win).
Definition put (ch : ExecutionChapter) : exe ExecutionChapter :=
  emit (PutChapter ch) ;;
  r ← asks (λ n, w_put W n ch);
  match r with
  | PutDone => mret ch
  | PutFailed e None => controlLocked (AppendFailed e)
  | PutFailed e (Some win) => if same_event ch win then mret win else controlLocked (AppendFailed e)
  end.
(** Provenance does not commit the path before its event. *)
Definition attaches (r : ExecutionRecord) : bool := negb (bool_decide (er_Kind r ∈ [KActivation; KHeader])).
Definition appendLocked (r : ExecutionRecord) : exe ExecutionRecord :=
  r ← default_at (stage_record r <| er_Version := ExecutionPatternVersion |> <| er_Activation := st_activation E |>);
  fail_if (negb (DecodeExecutionRecord r)) (failed "invalid execution record") ;;
  pending ← ask ru_pending;
  stored ← put (mkExecutionChapter (if attaches r then stage_record <$> pending else []) r);
  let r := xc_Record stored in
  change (λ s, s <| ru_ordinal := (ru_ordinal s + 1)%Z |> <| ru_written := ru_written s ++ [stored] |>
                 <| ru_pending := if attaches r then [] else ru_pending s |>) ;;
  note_outcome r ;;
  note_wake r ;;
  mret r.

Definition activation_record : ExecutionRecord :=
  empty_record <| er_Kind := KActivation |> <| er_Versions := Some (st_versions E) |>.
Definition activateLocked : exe () :=
  activated ← ask ru_activated;
  if (activated : bool) then mret tt
  else appendLocked activation_record ;; change (λ s, s <| ru_activated := true |>).

(** Declarations wait for the next outcome to be committed with it. *)
Definition deferred_kind (r : ExecutionRecord) (deferred : bool) : bool :=
  match er_Kind r with
  | KScope | KTask | KAttempt | KCatch | KHandled => true
  | KDecision => negb (er_Retry r)
  | _ => deferred
  end.
(** A timeout outcome is deferred only if it repeats the last one. *)
Definition deferral (r : ExecutionRecord) (deferred : bool) (timeoutError : option ErrorPayload) : bool :=
  let deferred := deferred_kind r deferred in
  if deferred && bool_decide (er_Kind r = KResult) && is_timeout r
  then bool_decide (timeoutError = er_Error r) else deferred.

(** [executionContext.recordEvent]: consumes the expected event, or commits it.
    [build] is only evaluated for an event that is not recorded. *)
Definition mismatch {A} (id : path) (next : event) : exe A :=
  let r := ev_record next in
  if bool_decide (er_Kind r = KResult) && bool_decide (er_ID r ≠ id) && is_timeout r && inside id (er_ID r)
  then throw ErrRecordedBoundary
  else controlLocked (NotDeterministic ("expected " +:+ spell id +:+ ", recorded " +:+ spell (er_ID r))).
Definition consume (kind : record_kind) (id : path) (next : event) : exe ExecutionRecord :=
  let r := ev_record next in
  if bool_decide (er_Kind r = kind) && bool_decide (er_ID r = id) then
    change (λ s, s <| ru_cursor := S (ru_cursor s) |>) ;;
    note_outcome r ;;
    note_wake r ;;
    mret r
  else mismatch id next.
Definition reconstructed (kind : record_kind) : bool := bool_decide (kind ∈ [KScope; KTask; KAttempt]).
Definition commit (kind : record_kind) (id : path) (build : exe ExecutionRecord) (deferred : bool)
    : exe ExecutionRecord :=
  liveLocked ;;
  r ← build;
  r ← default_at (r <| er_Kind := kind |> <| er_ID := id |> <| er_Version := ExecutionPatternVersion |>);
  timeoutError ← ask ru_timeoutError;
  if deferral r deferred timeoutError then
    change (λ s, s <| ru_pending := ru_pending s ++ [r] |>) ;; mret r
  else activateLocked ;; appendLocked r.
Definition recordEvent (kind : record_kind) (id : path) (build : exe ExecutionRecord) (deferred : bool)
    : exe ExecutionRecord :=
  checkLocked ;;
  next ← peek;
  match next with
  | Some next => consume kind id next
  | None =>
      if st_replay E && negb (st_final E) && reconstructed kind then
        r ← build;
        mret (r <| er_Kind := kind |> <| er_ID := id |> <| er_Version := ExecutionPatternVersion |> <| er_At := 0%Z |>)
      else commit kind id build deferred
  end.
Definition record_event (kind : record_kind) (id : path) (build : exe ExecutionRecord) : exe ExecutionRecord :=
  recordEvent kind id build false.

(** [progressTime] *)
Definition progressTime : exe time :=
  anchor ← ask ru_anchor;
  (if IsZero anchor then t ← now; change (λ s, s <| ru_anchor := t |>) else mret tt) ;;
  ask ru_anchor.

(** [checkpointPath] *)
Definition checkpointPath : exe () :=
  pending ← ask ru_pending;
  if bool_decide (pending = []) then mret tt
  else id ← current_id; record_event KCheckpoint id (mret empty_record) ;; mret tt.

(** *** Callbacks *)
Definition checkInvocation : exe () :=
  (if st_replay E then mret tt else frontier ← at_frontier; if (frontier : bool) then liveLocked else mret tt) ;;
  check_cause.
(** [executionContext.invoke]; a panic is the error it is recovered as.  A task worker
    runs on its own goroutine ([invokeAsync]), which makes no difference to what is
    returned: once its context is cancelled, its answer is not used. *)
Definition invoke {A} (fn : exe (option A * option werr)) : exe (option A * option werr) :=
  as_reply (checkInvocation ;; r ← fn; checkInvocation ;; mret r).

(** *** Outcomes *)
Context `{FailureText}.

(** The text of an error that is no ordinary one. *)
Definition control_text (e : werr) : string :=
  match e with
  | Failed e => error_text e
  | Control (NotDeterministic detail) => "workflow was not deterministic: " +:+ detail
  | Control (AppendFailed (PutTooLarge p)) => ap_Message p
  | Control (AppendFailed (PutRefused message)) | Control (ControlError message) => message
  | ErrExecutionSuspended => "execution suspended"
  | ErrRecordedBoundary => "recorded enclosing boundary ended"
  | Canceled => "context canceled"
  | LeaseLost => "execution lease lost"
  | ReplayCacheMiss _ => "replay cache miss"
  | Diverged => ""
  end.
Definition error_payload (e : werr) : ErrorPayload :=
  match e with
  | Failed e => errorPayloadFromError e
  | e => payloadKindAppError (mkAppPayload (control_text e) "error" [])
  end.
(** [isRetryable] *)
Definition retryable_error (e : werr) (p : RetryPolicy) : bool :=
  match e with Failed e => isRetryable e p | _ => true end.

Definition recordResult (out : option TaskData) (e : option werr) : string + ExecutionRecord :=
  let rec := empty_record <| er_Error := error_payload <$> e |> in
  match e, out with
  | Some _, None => inr rec
  | _, _ => match executionSnapshot out with
    | inl message => inl message
    | inr s => inr (rec <| er_Output := Some s |>)
    end
  end.
Definition resultData (r : ExecutionRecord) : reply :=
  (snapshotData (er_Output r), (λ p, Failed (envelope_error p)) <$> er_Error r).

(** [finishOutcome] *)
Definition finishOutcome (kind : record_kind) (id : path) (out : option TaskData) (bodyErr : option werr)
    (input : option ExecutionSnapshot) (deferred : bool) (retry : option RetryPolicy) : exe ExecutionRecord :=
  match bodyErr with
  | Some e => fail_if (isExecutionControl e && negb (is_boundary e)) e
  | None => mret tt
  end ;;
  next ← peek;
  if match next with
     | Some next => bool_decide (er_Kind (ev_record next) = kind) && bool_decide (er_ID (ev_record next) = id)
     | None => false
     end
  then record_event kind id (mret empty_record)
  else if match bodyErr with Some e => is_boundary e | None => false end then
    match next with
    | Some _ => record_event kind id (mret empty_record)
    | None => controlLocked (NotDeterministic ("unexpected interrupted boundary " +:+ spell id))
    end
  else
    r ← lift_error (recordResult out bodyErr);
    recordEvent kind id
      (mret (r <| er_Input := input |>
               <| er_Retryable := match bodyErr, retry with
                                  | Some e, Some p => Some (retryable_error e p)
                                  | _, _ => None
                                  end |>)) deferred.
Definition finishBody kind id out bodyErr input retry : exe ExecutionRecord :=
  finishOutcome kind id out bodyErr input false retry.
End run.
