(* ===== verification/WfProgram.v ===== *)
(** * WfProgram: orchestration programs and their execution

    What an orchestration callback does with its [ExecutionContext]
    ([execution_api.go]), as a tree of calls, and the engine that runs it:
    scopes, catch rules and retries ([execution_scope.go]), tasks
    ([execution_task.go]), tasks that other workers run ([execution_external.go]),
    waits for dependencies ([execution_goals.go]) and whole jobs ([runExecution]). *)

From S2P Require Import Prelude Types Json WfErrors WfHistory WfRun.

(** ** Programs *)

(** A predicate may panic, with a message. *)
Record CatchRule := mkCatchRule { cr_ID : string; cr_Match : werr → string + bool }.
Record CatchResult := mkCatchResult {
  ca_Disposition : string; ca_Output : option TaskData; ca_Err : option werr
}.
(** What a catch handler returns: a result or an error. *)
Abbreviation caught := (werr + CatchResult)%type.

(** A callback is the calls it makes on the context it is given, one after the other,
    and what it returns in the end; a panic is the error it is recovered as.  Handlers
    are named by their rule; an input builder is what it returns. *)
Inductive prog (R : Type) : Type :=
  | Return (r : R)
  | DoTask (call : TaskCall) (rules : list CatchRule) (handle : string → werr → prog caught) (build : reply)
      (k : reply → prog R)
  | DoScope (site : string) (opts : ScopeOptions) (rules : list CatchRule) (handle : string → werr → prog caught)
      (body : prog reply) (k : reply → prog R)
  | AwaitDuration (d : Z) (k : option werr → prog R)
  | AwaitJobs (ids : list string) (k : option werr → prog R)
  | AwaitDependencies (deps : list Dependency) (k : option (list DependencyResolution) * option werr → prog R).
Arguments Return {R} r.
Arguments DoTask {R} call rules handle build k.
Arguments DoScope {R} site opts rules handle body k.
Arguments AwaitDuration {R} d k.
Arguments AwaitJobs {R} ids k.
Arguments AwaitDependencies {R} deps k.

(** [panicToAppError] *)
Definition panicToAppError (message : string) : werr :=
  Failed (AppError (mkAppPayload ("panic: " +:+ message) "error" [])).

Section program.
Context `{BackoffMath} `{ExecutionText} `{FailureText} (W : World) (E : Settings).

Abbreviation record_event := (record_event W E).
Abbreviation now := (now W).

(** [executionContext.match] *)
Definition match_descriptor (r : ExecutionRecord) (d : descriptor) : exe () :=
  if bool_decide (er_Descriptor r = Some d) then mret tt
  else controlLocked (NotDeterministic ("logical descriptor changed for " +:+ spell (er_ID r))).

(** [lease.Reschedule] *)
Definition reschedule (r : RescheduleExecutionRequest) : exe () :=
  emit (Reschedule r) ;;
  e ← asks (λ n, w_reschedule W n r);
  match e with Some message => controlLocked (ControlError message) | None => mret tt end.
Definition job_route : Route := mkRoute (st_jobType E) "".

(** *** [waitUntil] *)
Definition minute5 : Z := 5 * minute.
Definition sleep_until (wake : time) : exe () :=
  t ← now;
  if negb (After wake t) then mret tt
  else
    let threshold := if (st_awaitThreshold E <=? 0)%Z then minute5 else st_awaitThreshold E in
    if (threshold <? wake - t)%Z then
      checkpointPath W E ;;
      reschedule (mkReschedule job_route (Some wake) [] None None None) ;;
      suspend
    else
      slept ← asks (w_slept W);
      if (slept : bool) then mret tt else check_cause W.
Definition waitUntil (wake total : time) : exe () :=
  next ← peek;
  match next with
  | Some _ => mret tt
  | None =>
      if st_replay E then
        t ← now;
        if negb (After wake t) then mret tt else throw (ReplayCacheMiss ReplayCacheMissAwaitNotReady)
      else
        liveLocked W E ;;
        deadline ← current_deadline;
        sleep_until (earlier wake (earlier total deadline))
  end.

(** *** Catch rules and retries: [handleFailure] *)

(** The first rule that matches; no rule is the empty name. *)
Fixpoint match_rules (rules : list CatchRule) (failure : werr) : option string * option werr :=
  match rules with
  | [] => (Some "", None)
  | r :: rules => match cr_Match r failure with
    | inl message => (None, Some (panicToAppError message))
    | inr true => (Some (cr_ID r), None)
    | inr false => match_rules rules failure
    end
  end.
Definition selection_of (v : option string * option werr) : exe ExecutionRecord :=
  match v with
  | (_, Some e) =>
      if isExecutionControl e then throw e
      else mret (empty_record <| er_Error := Some (error_payload e) |>)
  | (Some rule, None) => mret (empty_record <| er_Rule := rule |>)
  | (None, None) => mret empty_record
  end.
Definition before_limit (total : time) : exe bool :=
  if IsZero total then mret true else t ← now; mret (Before t total).
(** The rule is only looked for when no selection is recorded. *)
Definition select_rule (id : path) (total : time) (rules : list CatchRule) (failure : werr)
    : exe ExecutionRecord :=
  frontier ← at_frontier;
  if (frontier : bool) then
    open_ ← before_limit total;
    if (open_ : bool) then
      deadline ← current_deadline;
      child W (MatchingSegment :: id) (earlier total deadline) total ;;
      v ← invoke W E (mret (match_rules rules failure));
      close ;;
      selection_of v
    else mret empty_record
  else mret empty_record.

(** The record a handler's result travels in. *)
Definition handler_record (p : executionPolicy) (failure : werr) (retryable : option bool) (c : caught)
    : option ExecutionRecord * option werr :=
  match c with
  | inl e => (None, Some e)
  | inr r =>
      let err := match ca_Err r with
        | Some e => Some e
        | None => if String.eqb (ca_Disposition r) CatchHandled then None else Some failure
        end in
      match recordResult (ca_Output r) err with
      | inl message => (None, Some (failed message))
      | inr rec =>
          (Some (rec <| er_Output := json_roundtrip <$> er_Output rec |>
                     <| er_Disposition := ca_Disposition r |>
                     <| er_Retryable := match err with
                        | None => None
                        | Some e => match ca_Err r, retryable with
                          | None, Some b => Some b
                          | _, _ => Some (retryable_error e (xp_Retry p))
                          end
                        end |>), None)
      end
  end.
(** The record of a handled failure that was not in the history. *)
Definition handled_record (bodyErr : option werr) (h : option ExecutionRecord * option werr)
    : string + ExecutionRecord :=
  let '(disposition, output, err, retryable) :=
    match h with
    | (_, Some e) => (CatchPropagate, None, Some e, None)
    | (Some r, None) => (er_Disposition r, (resultData r).1, (resultData r).2, er_Retryable r)
    | (None, None) => ("", None, None, None)
    end in
  if negb (valid_disposition disposition) then inl "invalid catch disposition"
  else
    let err := match err with
      | Some e => Some e
      | None => if String.eqb disposition CatchHandled then None else bodyErr
      end in
    match recordResult output err with
    | inl message => inl message
    | inr r => inr (r <| er_Disposition := disposition |> <| er_Retryable := retryable |>)
    end.
Definition handle_with (id : path) (total : time) (p : executionPolicy) (rule : string) (handler : exe caught)
    (bodyErr : option werr) (failure : werr) (retryable : option bool) : exe ExecutionRecord :=
  deadline ← current_deadline;
  child W (CatchSegment rule :: id) (earlier total deadline) total ;;
  h ← invoke W E (c ← handler; mret (handler_record p failure retryable c));
  close ;;
  match h.2 with
  | Some e => fail_if (isExecutionControl e && negb (is_boundary e)) e
  | None => mret tt
  end ;;
  next ← peek;
  if match next with
     | Some next => bool_decide (er_Kind (ev_record next) = KHandled) && bool_decide (er_ID (ev_record next) = id)
     | None => false
     end
  then record_event KHandled id (mret empty_record)
  else
    r ← lift_error (handled_record bodyErr h);
    record_event KHandled id (mret r).

Record failure_state := mkFailureState {
  fs_out : option TaskData; fs_err : option werr; fs_disposition : string; fs_retryable : option bool
}.
(** Catching: the selection, and the handler of the selected rule. *)
Definition catch_failure (id : path) (total : time) (p : executionPolicy) (rules : list CatchRule)
    (handler : string → werr → exe caught) (out : option TaskData) (bodyErr : werr) (retryable : option bool)
    : exe failure_state :=
  frontier ← at_frontier;
  fail_if (st_replay E && frontier) (ReplayCacheMiss ReplayCacheMissAwaitNotReady) ;;
  selectionValue ← select_rule id total rules bodyErr;
  selection ← record_event KCatch id (mret selectionValue);
  let st := match er_Error selection with
    | Some _ => mkFailureState out (resultData selection).2 CatchPropagate retryable
    | None => mkFailureState out (Some bodyErr) CatchContinue retryable
    end in
  if str_empty (er_Rule selection) then mret st
  else if bool_decide (er_Rule selection ∈ (cr_ID <$> rules)) then
    let failure := default bodyErr (fs_err st) in
    r ← handle_with id total p (er_Rule selection) (handler (er_Rule selection) failure) (fs_err st) failure retryable;
    mret (mkFailureState (resultData r).1 (resultData r).2 (er_Disposition r) (er_Retryable r))
  else controlLocked (NotDeterministic ("recorded catch " +:+ er_Rule selection +:+ " unavailable")).

Definition decision_record (total : time) (p : executionPolicy) (attempt : Z) (st : failure_state)
    : exe ExecutionRecord :=
  let allowed := match fs_retryable st with
    | Some b => b
    | None => match fs_err st with Some e => retryable_error e (xp_Retry p) | None => false end
    end in
  let wanted := bool_decide (is_Some (fs_err st)) && negb (String.eqb (fs_disposition st) CatchPropagate)
                && (attempt <? rt_MaximumAttempts (xp_Retry p))%Z && allowed in
  retry ← (if (wanted : bool) then before_limit total else mret false);
  wake ← (if (retry : bool) then t ← now; mret (t + computeBackoff (xp_Retry p) attempt)%Z else mret 0%Z);
  mret (empty_record <| er_Retry := retry |> <| er_Disposition := fs_disposition st |> <| er_WakeAt := wake |>).
Definition handleFailure (id : path) (total : time) (p : executionPolicy) (rules : list CatchRule)
    (handler : string → werr → exe caught) (attempt : Z) (out : option TaskData) (bodyErr : option werr)
    (retryable : option bool) : exe (reply * bool) :=
  match bodyErr with
  | None => mret ((out, None), false)
  | Some e =>
      if bool_decide (rules = []) && (rt_MaximumAttempts (xp_Retry p) <=? 1)%Z then mret ((out, Some e), false)
      else
        st ← catch_failure id total p rules handler out e retryable;
        decision ← record_event KDecision id (decision_record total p attempt st);
        (if er_Retry decision then waitUntil (er_WakeAt decision) total else mret tt) ;;
        mret ((fs_out st, fs_err st), er_Retry decision)
  end.

(** *** Scopes *)
Definition job_site : string := "$job".
Definition is_job (site : string) : bool := String.eqb site job_site.
Definition recorded_at (kind : record_kind) (id : path) (next : option event) : bool :=
  match next with
  | Some next => bool_decide (er_Kind (ev_record next) = kind) && bool_decide (er_ID (ev_record next) = id)
  | None => false
  end.
Definition significant_policy (site : string) (p : executionPolicy) : bool :=
  is_job site || (0 <? xp_TotalTimeout p)%Z || (0 <? xp_AttemptTimeout p)%Z
  || (1 <? rt_MaximumAttempts (xp_Retry p))%Z || negb (bool_decide (xp_Rules p = [])) || xp_Restart p.
(** A scope that compact history omitted keeps having no limits and no retries. *)
Definition organizational : executionPolicy :=
  mkExecutionPolicy 0 0 (normalizeRetryPolicy no_retry) [] false.
Definition scope_policy (site : string) (id : path) (p : executionPolicy) (next : option event)
    : executionPolicy * bool :=
  match next with
  | Some _ =>
      if recorded_at KScope id next then (p, true)
      else if negb (is_job site) && bool_decide (xp_Rules p = []) && negb (xp_Restart p)
      then (organizational, false)
      else (p, significant_policy site p)
  | None => (p, significant_policy site p)
  end.
(** The declaration of a significant scope, and the policy that was recorded with it. *)
Definition declare_scope (id : path) (policy : executionPolicy) (significant : bool)
    : exe (ExecutionRecord * executionPolicy) :=
  anchor ← progressTime W;
  let entry := empty_record <| er_At := anchor |> <| er_Descriptor := Some (ScopeDescriptor policy) |>
                 <| er_TotalDeadline := deadlineFrom anchor (xp_TotalTimeout policy) |> in
  if significant then
    entry ← record_event KScope id (mret entry);
    match er_Descriptor entry with
    | Some (ScopeDescriptor recorded) =>
        let policy := withRecordedLifecycle policy recorded in
        match_descriptor entry (ScopeDescriptor policy) ;;
        mret (entry, policy)
    | _ => controlLocked (NotDeterministic ("invalid scope policy for " +:+ spell id))
    end
  else mret (entry, policy).

Definition scope_attempt (site : string) (id : path) (policy : executionPolicy) (significant : bool)
    (total : time) (attempt : Z) (rules : list CatchRule) (handler : string → werr → exe caught)
    (body : exe reply) : exe (reply * bool) :=
  let aid := AttemptSegment attempt :: id in
  at_ ← progressTime W;
  let start := empty_record <| er_At := at_ |> <| er_Attempt := attempt |>
                 <| er_Deadline := earlier (deadlineFrom at_ (xp_AttemptTimeout policy)) total |>
                 <| er_TotalDeadline := total |> in
  start ← (if significant then record_event KAttempt aid (mret start) else mret start);
  child W aid (er_Deadline start) total ;;
  change_current (λ c, c <| cx_policy := Some policy |> <| cx_attempt := attempt |>) ;;
  r ← invoke W E body;
  close ;;
  next ← peek;
  if is_job site || bool_decide (is_Some r.2) || recorded_at KResult aid next then
    rec ← finishOutcome W E KResult aid r.1 r.2 None (negb (is_job site)) (Some (xp_Retry policy));
    handleFailure aid total policy rules handler attempt (resultData rec).1 (resultData rec).2 (er_Retryable rec)
  else handleFailure aid total policy rules handler attempt r.1 r.2 None.
Fixpoint scope_attempts (fuel : nat) (site : string) (id : path) (policy : executionPolicy) (significant : bool)
    (total : time) (attempt : Z) (rules : list CatchRule) (handler : string → werr → exe caught)
    (body : exe reply) : exe reply :=
  match fuel with
  | O => throw Diverged
  | S fuel =>
      r ← scope_attempt site id policy significant total attempt rules handler body;
      if r.2 : bool then scope_attempts fuel site id policy significant total (attempt + 1) rules handler body
      else mret r.1
  end.
(** Every retry uses up a recorded decision or one of the allowed attempts. *)
Definition attempt_fuel (p : executionPolicy) : exe nat :=
  ask (λ s, S (length (ru_rest s) + Z.to_nat (rt_MaximumAttempts (xp_Retry p)))).
Definition run_scope (site : string) (opts : ScopeOptions) (rules : list CatchRule)
    (handler : string → werr → exe caught) (body : exe reply) : exe reply := as_reply (
  id ← occurrence W "scope" site;
  policy ← lift_error (makeExecutionPolicy opts (cr_ID <$> rules));
  next ← peek;
  let '(policy, significant) := scope_policy site id policy next in
  '(entry, policy) ← declare_scope id policy significant;
  deadline ← current_deadline;
  fuel ← attempt_fuel policy;
  scope_attempts fuel site id policy significant (earlier (er_TotalDeadline entry) deadline) 1 rules handler body).

(** *** Tasks *)
Definition local (taskType : string) : bool := bool_decide (taskType ∈ st_localTasks E).
(** [executionContext.invokeTask] on the context of an attempt *)
Definition invokeTask (id : path) (taskType : string) (input : option ExecutionSnapshot) : exe reply := as_reply (
  liveLocked W E ;;
  activateLocked W E ;;
  invoke W E (emit (RunWorker id taskType (snapshotData input)) ;;
              asks (λ n, w_worker W n id taskType (snapshotData input)))).

Record taskDispatchState := mkDispatch { ds_taskType : string; ds_alternateAt : option time }.

Definition wait_record (call : TaskCall) (input : option ExecutionSnapshot) (deadline total : time)
    (st : taskDispatchState) : exe ExecutionRecord :=
  alternateAt ← match tc_Alternate call, ds_alternateAt st with
    | Some (_, after), None => t ← now; mret (Some (t + after)%Z)
    | _, alternateAt => mret alternateAt
    end;
  mret (empty_record <| er_Input := input |> <| er_Deadline := deadline |> <| er_TotalDeadline := total |>
          <| er_Descriptor := Some (RouteDescriptor (tc_TaskType call)) |>
          <| er_ExecutionTaskType := ds_taskType st |> <| er_AlternateAt := alternateAt |>).
(** The ordinal of the recorded wait, and where answers to it may be. *)
Definition is_wait (id : path) (e : event) : bool :=
  bool_decide (er_Kind (ev_record e) = KWait) && bool_decide (er_ID (ev_record e) = id).
Definition wait_ordinal (id : path) (ordinal : Z) (l : list event) : Z :=
  foldl (λ o e, if is_wait id e then ev_ordinal e else o) ordinal l.
Definition output_positions (ordinal : Z) (l : list event) : list Z :=
  (ordinal + 1)%Z :: ((λ e, (ev_ordinal e + 1)%Z) <$> filter (λ e,
    ((ordinal <? ev_ordinal e)%Z && bool_decide (er_Kind (ev_record e) = KActivation)) = true) l).
(** Recorded dispatches: which implementation was selected. *)
Definition dispatch_conflict (call : TaskCall) (st : taskDispatchState) (taskType : string) : bool :=
  negb (allowedExecutionType call taskType)
  || (negb (String.eqb (ds_taskType st) (tc_TaskType call)) && negb (String.eqb (ds_taskType st) taskType)).
Fixpoint dispatches (fuel : nat) (call : TaskCall) (id : path) (st : taskDispatchState) (dispatched : bool)
    (positions : list Z) : exe (taskDispatchState * bool * list Z) :=
  match fuel with
  | O => throw Diverged
  | S fuel =>
      next ← peek;
      match next with
      | Some e =>
          if recorded_at KDispatch id next then
            r ← record_event KDispatch id (mret empty_record);
            if dispatch_conflict call st (er_ExecutionTaskType r)
            then controlLocked (NotDeterministic "invalid recorded task dispatch")
            else dispatches fuel call id (mkDispatch (er_ExecutionTaskType r) (ds_alternateAt st)) true
                   ((ev_ordinal e + 1)%Z :: positions)
          else mret (st, dispatched, positions)
      | None => mret (st, dispatched, positions)
      end
  end.
Definition matching_wait (ordinal : Z) (positions : list Z) (hash : string) : bool :=
  match st_taskWait E with
  | Some w => (tw_InputOrdinal w =? ordinal)%Z && bool_decide (tw_OutputOrdinal w ∈ positions)
              && String.eqb (tw_InputHash w) hash && String.eqb (tw_ResumeJobType w) (st_jobType E)
  | None => false
  end.
(** Whether this worker executes the waiting task, and as which implementation. *)
Definition acquired (call : TaskCall) (id : path) (st : taskDispatchState) (dispatched matching : bool)
    : exe (taskDispatchState * bool) :=
  let route := st_route E in
  if matching && negb (str_empty (r_TaskType route)) then
    (if negb (String.eqb (r_JobType route) (st_jobType E)) || dispatch_conflict call st (r_TaskType route)
     then controlLocked (NotDeterministic "acquired task route differs from declared invocation") else mret tt) ;;
    (if String.eqb (r_TaskType route) (tc_TaskType call) then mret tt
     else
       early ← match ds_alternateAt st with None => mret true | Some at_ => t ← now; mret (Before t at_) end;
       if (early : bool) then controlLocked (NotDeterministic "alternate acquired before eligibility") else mret tt) ;;
    if local (r_TaskType route) then
      (if negb dispatched || negb (String.eqb (ds_taskType st) (r_TaskType route)) then
         record_event KDispatch id (mret (empty_record <| er_ExecutionTaskType := r_TaskType route |>)) ;; mret tt
       else mret tt) ;;
      mret (mkDispatch (r_TaskType route) (ds_alternateAt st), true)
    else mret (st, false)
  else if dispatched && bool_decide (st_taskWait E = None) then mret (st, local (ds_taskType st))
  else mret (st, false).
(** The lease goes back to the scheduler until the task is answered or due. *)
Definition external_request (call : TaskCall) (st : taskDispatchState) (deadline : time) (ordinal output : Z)
    (hash : string) : exe RescheduleExecutionRequest :=
  let wake := match tc_Alternate call, ds_alternateAt st with
    | Some (other, _), Some at_ =>
        if String.eqb (ds_taskType st) (tc_TaskType call) && (IsZero deadline || Before at_ deadline)
        then (at_, mkRoute (st_jobType E) other) else (deadline, job_route)
    | _, _ => (deadline, job_route)
    end in
  alternate ← (if IsZero wake.1 then mret None else t ← now; mret (Some (wake.2, Z.max (wake.1 - t) 0)));
  mret (mkReschedule (mkRoute (st_jobType E) (ds_taskType st)) None [] None
          (Some (mkTaskWait ordinal output hash (st_jobType E))) alternate).
Definition execute_here (call : TaskCall) (id : path) (rec : ExecutionRecord) (total : time) (taskType : string)
    : exe ExecutionRecord :=
  child W id (er_Deadline rec) total ;;
  r ← invokeTask id taskType (er_Input rec);
  close ;;
  finishBody W E KResult id r.1 r.2 (er_Input rec) (Some (rp_Retry (tc_Policy call))).
Definition task_timeout (rec : ExecutionRecord) : goerr :=
  if negb (IsZero (er_TotalDeadline rec)) && negb (Before (er_Deadline rec) (er_TotalDeadline rec))
  then NewTimeoutError "task" "total" false else NewTimeoutError "task" "invocation" true.
Definition unanswered (call : TaskCall) (id : path) (rec : ExecutionRecord) (total : time) (ordinal : Z)
    (st : taskDispatchState) (dispatched : bool) (positions : list Z) : exe (ExecutionRecord * taskDispatchState) :=
  if st_replay E then throw (ReplayCacheMiss ReplayCacheMissTaskResultMissing)
  else
    hash ← match ExecutionIdentity rec with Some h => mret h | None => throw (failed "invalid execution record") end;
    '(st, execute) ← acquired call id st dispatched (matching_wait ordinal positions hash);
    t ← (if IsZero (er_Deadline rec) then mret 0%Z else now);
    if negb (IsZero (er_Deadline rec)) && negb (Before t (er_Deadline rec)) then
      r ← finishBody W E KResult id None (Some (Failed (task_timeout rec))) (er_Input rec) None;
      mret (r, st)
    else if (execute : bool) then
      r ← execute_here call id rec total (ds_taskType st);
      mret (r, st)
    else
      output ← ask ru_ordinal;
      req ← external_request call st (er_Deadline rec) ordinal output hash;
      reschedule req ;;
      suspend.
Definition externalTask (call : TaskCall) (id : path) (input : option ExecutionSnapshot) (deadline total : time)
    (st : taskDispatchState) : exe (ExecutionRecord * taskDispatchState) :=
  rec ← record_event KWait id (wait_record call input deadline total st);
  let st := mkDispatch (or_text (er_ExecutionTaskType rec) (ds_taskType st)) (er_AlternateAt rec) in
  ordinal ← ask (λ s, wait_ordinal id (ru_ordinal s - 1)%Z (ru_events s));
  positions ← ask (λ s, output_positions ordinal (ru_events s));
  fuel ← ask (λ s, S (length (ru_rest s)));
  '(st, dispatched, positions) ← dispatches fuel call id st false positions;
  if negb (allowedExecutionType call (ds_taskType st)) then controlLocked (NotDeterministic "invalid waiting task type")
  else
    next ← peek;
    match next with
    | Some _ => r ← record_event KResult id (mret empty_record); mret (r, st)
    | None => unanswered call id rec total ordinal st dispatched positions
    end.

(** The input of an attempt that is executed: kept from an earlier attempt, or built.
    What the builder returned is also there when it failed. *)
Definition built_input (r : reply) : reply * option ExecutionSnapshot :=
  match r with
  | (out, Some e) => (r, None)
  | (out, None) => match executionSnapshot out with
    | inl message => ((out, Some (failed message)), None)
    | inr s => (r, Some s)
    end
  end.
Definition build_input (build : reply) (input : option ExecutionSnapshot)
    : exe (reply * option ExecutionSnapshot) :=
  match input with
  | Some _ => mret ((None, None), input)
  | None => r ← invoke W E (mret build); mret (built_input r)
  end.
Definition fresh_attempt (call : TaskCall) (aid : path) (p : executionPolicy) (total : time) (build : reply)
    (input : option ExecutionSnapshot) (st : taskDispatchState) : exe (ExecutionRecord * taskDispatchState) :=
  at_ ← now;
  let deadline := earlier (deadlineFrom at_ (xp_AttemptTimeout p)) total in
  child W aid deadline total ;;
  '(built, input) ← build_input build input;
  if negb (bool_decide (is_Some built.2)) && negb (local (ds_taskType st)) then
    close ;;
    externalTask call aid input deadline total st
  else
    r ← (if negb (bool_decide (is_Some built.2)) then invokeTask aid (ds_taskType st) input else mret built);
    close ;;
    rec ← finishBody W E KResult aid r.1 r.2 input (Some (xp_Retry p));
    mret (rec, st).
(** During inspection the input of unfinished work is only reconstructed. *)
Definition inspect_unfinished {A} (build : reply) (input : option ExecutionSnapshot) : exe A :=
  i ← build_input build input;
  match i.1.2 with
  | Some e => controlLocked (ControlError (control_text e))
  | None => throw (ReplayCacheMiss ReplayCacheMissTaskResultMissing)
  end.
Definition task_outcome (call : TaskCall) (aid : path) (p : executionPolicy) (start : ExecutionRecord) (total : time)
    (build : reply) (input : option ExecutionSnapshot) (st : taskDispatchState)
    : exe (ExecutionRecord * taskDispatchState) :=
  next ← peek;
  if recorded_at KResult aid next then
    r ← record_event KResult aid (mret empty_record); mret (r, st)
  else if recorded_at KWait aid next then
    externalTask call aid (next ≫= λ e, er_Input (ev_record e)) (er_Deadline start) total st
  else if bool_decide (is_Some next) then
    r ← record_event KResult aid (mret empty_record); mret (r, st)
  else if st_replay E then inspect_unfinished build input
  else fresh_attempt call aid p total build input st.

Definition task_attempt (call : TaskCall) (id : path) (p : executionPolicy) (total : time) (attempt : Z)
    (rules : list CatchRule) (handler : string → werr → exe caught) (build : reply)
    (input : option ExecutionSnapshot) (st : taskDispatchState)
    : exe (reply * bool * option ExecutionSnapshot * taskDispatchState) :=
  let aid := AttemptSegment attempt :: id in
  start ← record_event KAttempt aid (
    t ← now;
    mret (empty_record <| er_Attempt := attempt |>
            <| er_Deadline := earlier (deadlineFrom t (xp_AttemptTimeout p)) total |>
            <| er_TotalDeadline := total |>));
  '(rec, st) ← task_outcome call aid p start total build input st;
  r ← handleFailure aid total p rules handler attempt (resultData rec).1 (resultData rec).2 (er_Retryable rec);
  mret (r, match er_Input rec with Some i => Some i | None => input end, st).
Fixpoint task_attempts (fuel : nat) (call : TaskCall) (id : path) (p : executionPolicy) (total : time) (attempt : Z)
    (rules : list CatchRule) (handler : string → werr → exe caught) (build : reply)
    (input : option ExecutionSnapshot) (st : taskDispatchState) : exe reply :=
  match fuel with
  | O => throw Diverged
  | S fuel =>
      '(r, input, st) ← task_attempt call id p total attempt rules handler build input st;
      if r.2 : bool then task_attempts fuel call id p total (attempt + 1) rules handler build input st
      else mret r.1
  end.
Definition invalid_alternate (call : TaskCall) : bool :=
  match tc_Alternate call with
  | Some (other, after) => str_empty other || String.eqb other (tc_TaskType call) || (after <? 0)%Z
  | None => false
  end.
Definition task_options (p : RunPolicy) : ScopeOptions :=
  mkScopeOptions (durationPtrToDuration (rp_TotalTimeout p)) (durationPtrToDuration (rp_InvocationTimeout p))
    (rp_Retry p) false.
Definition declare_task (id : path) (call : TaskCall) (p : executionPolicy)
    : exe (ExecutionRecord * TaskCall * executionPolicy) :=
  entry ← record_event KTask id (
    t ← now;
    mret (empty_record <| er_Descriptor := Some (TaskDescriptor call p) |>
            <| er_TotalDeadline := deadlineFrom t (xp_TotalTimeout p) |>));
  match er_Descriptor entry with
  | Some (TaskDescriptor recorded_call recorded) =>
      let call := call <| tc_Policy := tc_Policy recorded_call |> in
      let p := withRecordedLifecycle p recorded in
      match_descriptor entry (TaskDescriptor call p) ;;
      mret (entry, call, p)
  | _ => controlLocked (NotDeterministic ("invalid task policy for " +:+ spell id))
  end.
Definition run_task (call : TaskCall) (rules : list CatchRule) (handler : string → werr → exe caught)
    (build : reply) : exe reply := as_reply (
  id ← occurrence W "task" (tc_Site call);
  fail_if (str_empty (tc_TaskType call) || (tc_ContractVersion call =? 0)%Z)
    (failed "task type, contract version and input builder are required") ;;
  fail_if (invalid_alternate call)
    (failed "alternate requires a different nonempty task type and nonnegative delay") ;;
  fail_if (bool_decide (tc_Command call = None)) (failed "command must be valid JSON") ;;
  p ← lift_error (makeExecutionPolicy (task_options (tc_Policy call)) (cr_ID <$> rules));
  '(entry, call, p) ← declare_task id call p;
  deadline ← current_deadline;
  fuel ← attempt_fuel p;
  task_attempts fuel call id p (earlier (er_TotalDeadline entry) deadline) 1 rules handler build None
    (mkDispatch (tc_TaskType call) None)).

(** *** Waits *)
Definition run_sleep (d : Z) : exe (option () * option werr) := as_reply (
  id ← occurrence W "sleep" "wait";
  r ← record_event KSleep id (
    t ← now; mret (empty_record <| er_WakeAt := (t + d)%Z |> <| er_Descriptor := Some (DurationDescriptor d) |>));
  match_descriptor r (DurationDescriptor d) ;;
  deadline ← current_deadline;
  waitUntil (er_WakeAt r) deadline ;;
  mret (Some tt, None)).

(** [awaitJobsComplete] *)
Definition job_pending (l : job_lookup) : bool :=
  match l with
  | JobFound status _ => negb (bool_decide (status ∈ [JobStatusCompleted; JobStatusCancelled]))
  | _ => false
  end.
Fixpoint awaitJobsComplete (ids : list string) : exe (bool * option werr) :=
  match ids with
  | [] => mret (true, None)
  | id :: ids =>
      if str_empty id then mret (false, Some (failed "jobId cannot be empty"))
      else
        job ← asks (λ n, w_job W n id);
        match job with
        | JobLookupFailed e => mret (false, Some e)
        | l => if job_pending l then mret (false, None) else awaitJobsComplete ids
        end
  end.
Definition suspendForJobs {A} (ids : list string) : exe A :=
  checkpointPath W E ;;
  deadline ← current_deadline;
  reschedule (mkReschedule job_route (nonzeroTime deadline) ids None None None) ;;
  suspend.
Definition unit_result (r : ExecutionRecord) : option () * option werr := (Some tt, (resultData r).2).
Definition run_await_jobs (ids : list string) : exe (option () * option werr) := as_reply (
  id ← occurrence W "join" "jobs";
  r ← record_event KJoin id (mret (empty_record <| er_Descriptor := Some (JobsDescriptor ids) |>));
  match_descriptor r (JobsDescriptor ids) ;;
  next ← peek;
  match next with
  | Some _ => r ← record_event KJoinResult id (mret empty_record); mret (unit_result r)
  | None =>
      if st_replay E then throw (ReplayCacheMiss ReplayCacheMissAwaitJobsPending)
      else
        '(done_, waitErr) ← awaitJobsComplete ids;
        if (done_ : bool) || bool_decide (is_Some waitErr) then
          r ← finishBody W E KJoinResult id (Some (mkTaskData (Some (JBool true)) [])) waitErr None None;
          mret (unit_result r)
        else suspendForJobs ids
  end).

(** [DependencyWaitInfo.Err] *)
Definition deadline_exceeded : goerr :=
  OtherError ["deadlineExceededError"; "context.deadlineExceededError"] None "context deadline exceeded" None.
Definition wait_err (w : DependencyWaitInfo) : option werr :=
  match wi_State w with
  | DependencySatisfied | DependencyPending => None
  | DependencyTimedOut => Some (Failed deadline_exceeded)
  | DependencyCancelled => Some Canceled
  | DependencyFailed => Some match wi_Failure w with
    | Some f => if String.eqb (gf_Code f) "goal_failed" then Failed (GoalFailedError f)
                else Failed (dependencyFailedError f)
    | None => failed "invalid dependency outcome FAILED"
    end
  end.
(** [dependencyResult] *)
Definition dependencyResult (r : ExecutionRecord) : exe (option (list DependencyResolution) * option werr) :=
  match resultData r with
  | (_, Some e) => throw e
  | (data, None) => match (data ≫= td_Data) ≫= json_wait with
    | Some w => mret (Some (wi_Dependencies w), wait_err w)
    | None => throw (failed "invalid dependency result")
    end
  end.
Definition suspendForDependencies {A} (w : DependencyWait) : exe A :=
  checkpointPath W E ;;
  reschedule (mkReschedule job_route None [] (Some w) None None) ;;
  suspend.
Definition wait_id (id : path) : string := "join-" +:+ sha256_text (spell id).
Definition run_await_dependencies (deps : list Dependency)
    : exe (option (list DependencyResolution) * option werr) := as_reply (
  match ValidateDependencies deps with Err _ => throw (failed "invalid dependency") | Ok _ => mret tt end ;;
  if bool_decide (deps = []) then mret (Some [], None)
  else
    id ← occurrence W "join" "dependencies";
    r ← record_event KJoin id (mret (empty_record <| er_Descriptor := Some (DependenciesDescriptor deps) |>));
    match_descriptor r (DependenciesDescriptor deps) ;;
    next ← peek;
    match next with
    | Some _ => r ← record_event KJoinResult id (mret empty_record); dependencyResult r
    | None =>
        if st_replay E then throw (ReplayCacheMiss ReplayCacheMissAwaitJobsPending)
        else
          wait ← asks (λ n, w_wait W n (wait_id id));
          deadline ← current_deadline;
          let suspended := suspendForDependencies (mkDependencyWait (wait_id id) deps (nonzeroTime deadline)) in
          match wait with
          | WaitLookupFailed e => throw e
          | WaitMissing => suspended
          | WaitFound w =>
              if bool_decide (wi_State w = DependencyPending) then suspended
              else
                r ← finishBody W E KJoinResult id (Some (mkTaskData (Some (wait_json w)) [])) None None None;
                dependencyResult r
          end
    end).

(** ** Running a program on the current context *)
Fixpoint exec {R : Type} (p : prog R) : exe R :=
  match p with
  | Return r => mret r
  | DoTask call rules handle build k =>
      r ← run_task call rules (λ rule e, exec (handle rule e)) build; exec (k r)
  | DoScope site opts rules handle body k =>
      r ← run_scope site opts rules (λ rule e, exec (handle rule e)) (exec body); exec (k r)
  | AwaitDuration d k => r ← run_sleep d; exec (k r.2)
  | AwaitJobs ids k => r ← run_await_jobs ids; exec (k r.2)
  | AwaitDependencies deps k => r ← run_await_dependencies deps; exec (k r)
  end.
End program.
