(* ===== verification/WfJob.v ===== *)
(** * WfJob: the execution of a whole job

    [runExecution] of [execution_history.go] with the admission of [execution_goals.go]
    and what completes the lease ([worker_runner.go]): the history is loaded, the job's
    body runs as the scope ["$job"], and its outcome completes the job. *)

From S2P Require Import Prelude Types Json WfErrors WfHistory WfRun WfProgram.

(** What the runtime knows of the job when it is executed: the time of chapter 0, the
    input, the policy and the prerequisites that chapter 0 declares, and the rest of the
    history.  A completed history ends with an outcome. *)
Record JobHistory := mkJobHistory {
  jh_CreatedAt : time;
  jh_Input : TaskData;
  jh_Policy : RunPolicy;
  jh_Prerequisites : list (string * string);
  jh_Chapters : list ExecutionChapter;
  jh_Final : option FinalChapter
}.
#[export] Instance eta_JobHistory : Eta JobHistory := λ h,
  mkJobHistory (jh_CreatedAt h) (jh_Input h) (jh_Policy h) (jh_Prerequisites h) (jh_Chapters h) (jh_Final h).

(** [JobWorker.Run] *)
Abbreviation JobWorker := (option TaskData → prog reply).

Section job.
Context `{BackoffMath} `{ExecutionText} `{FailureText} (W : World).

(** The events of a history whose records all decode. *)
Definition chapter_ok (c : ExecutionChapter) : bool := forallb DecodeExecutionRecord (chapter_records c).
Definition final_events (ordinal : Z) (f : option FinalChapter) : list event :=
  match f with Some f => (λ r, mkEvent r ordinal) <$> fc_Prefix f | None => [] end.
Definition load (h : JobHistory) : option (list event) :=
  let n := (1 + Z.of_nat (length (jh_Chapters h)))%Z in
  if forallb chapter_ok (jh_Chapters h)
     && opt_all (λ f, forallb DecodeExecutionRecord (fc_Prefix f)) (jh_Final h)
  then Some (history_events 1 (jh_Chapters h) ++ final_events n (jh_Final h)) else None.
Definition next_chapter (h : JobHistory) : Z :=
  (1 + Z.of_nat (length (jh_Chapters h)) + (if bool_decide (is_Some (jh_Final h)) then 1 else 0))%Z.

Definition root_context : executionContext := mkContext [] None 0 0 0 false ∅ None.
Definition initial_run (h : JobHistory) (events : list event) : executionRun :=
  mkRun events 0 [] [] (next_chapter h) (jh_CreatedAt h) None false false false None [root_context] 0 [] [].

(** *** Completing *)
Definition OutcomeData (o : JobOutcome) : reply :=
  match o with
  | OutcomeOutput data artifacts => (Some (mkTaskData data artifacts), None)
  | OutcomeError p => (Some (mkTaskData (Some (payload_json p)) []), Some (Failed (envelope_error p)))
  end.
Definition payload_failure_code : string := "chapter_application_payload_too_large".
(** [IsChapterPayloadFailure] *)
Definition app_payload_failure (p : AppErrorPayload) : bool :=
  match obj_get "code" (ap_Attrs p) with Some (JStr c) => String.eqb c payload_failure_code | _ => false end.
Definition IsChapterPayloadFailure (e : option werr) : bool :=
  match e with
  | Some (Failed e) => match as_app e with Some p => app_payload_failure p | None => false end
  | Some (Control (AppendFailed (PutTooLarge _))) => true
  | _ => false
  end.
(** [prepareJobResultPayload] *)
Definition job_result (out : option TaskData) (e : option werr) : JobOutcome :=
  match e, out with
  | Some e, _ => OutcomeError (error_payload e)
  | None, None => OutcomeError (payloadKindSystemError (mkSystemPayload "missing job output" "" "" false))
  | None, Some d => OutcomeOutput (td_Data d) (td_Artifacts d)
  end.
Definition messageOrFallback (message : string) (e : werr) : string := or_text message (control_text e).
Definition completionStatusAndDetail (e : option werr) : string * string :=
  match e with
  | None => ("success", "")
  | Some Canceled => ("cancelled", control_text Canceled)
  | Some (Failed f) =>
      match as_timeout f with
      | Some p => ("failed_timeout", messageOrFallback (to_Message p) (Failed f))
      | None => match as_app f with
        | Some p => ("failed_app", messageOrFallback (ap_Message p) (Failed f))
        | None => match as_system f with
          | Some p => ("failed_system", messageOrFallback (sp_Message p) (Failed f))
          | None => ("failed_system", messageOrFallback "" (Failed f))
          end
        end
      end
  | Some e => ("failed_system", messageOrFallback "" e)
  end.
(** [lease.Complete] *)
Definition complete (e : option werr) (c : FinalChapter) : exe () :=
  let s := completionStatusAndDetail e in
  emit (Complete s.1 s.2 c) ;;
  r ← asks (λ n, w_complete W n c);
  match r with Some e => throw e | None => mret tt end.
(** [completeExecutionFailure] *)
Definition completeExecutionFailure (failure : werr) : exe reply :=
  complete (Some failure) (mkFinal [] (job_result None (Some failure))) ;; mret (None, Some failure).

Section execution.
Context (E : Settings) (h : JobHistory).

Definition live_only (m : exe ()) : exe () := if st_replay E then mret tt else m.
(** The outcome that is already there. *)
Definition recorded_outcome : exe reply :=
  match jh_Final h with
  | None => throw (ReplayCacheMiss ReplayCacheMissJobResultMissing)
  | Some f =>
      let r := OutcomeData (fc_Outcome f) in
      live_only (complete r.2 f) ;; mret r
  end.
(** What a job that is not admitted comes to. *)
Definition refuse (failure : werr) : exe reply :=
  if bool_decide (is_Some (jh_Final h)) then recorded_outcome
  else if st_replay E then throw (ReplayCacheMiss ReplayCacheMissJobResultMissing)
  else completeExecutionFailure failure.

Definition header_record : ExecutionRecord :=
  empty_record <| er_Kind := KHeader |> <| er_Versions := Some (st_versions E) |>.
Definition open_history : exe () :=
  first ← ask (λ s, head (ru_rest s));
  match first with
  | None =>
      if st_replay E then throw (ReplayCacheMiss ReplayCacheMissJobResultMissing)
      else
        r ← appendLocked W E header_record;
        change (λ s, s <| ru_anchor := er_At r |>)
  | Some e =>
      if bool_decide (er_Kind (ev_record e) = KHeader)
      then change (λ s, s <| ru_cursor := 1%nat |> <| ru_anchor := er_At (ev_record e) |>)
      else throw (failed "execution header missing")
  end.

(** [goalAdmission]: a failure, when the goals the job was submitted on failed. *)
Definition admission_record (w : DependencyWaitInfo) : ExecutionRecord :=
  empty_record <| er_Output := Some (mkSnapshot (wait_json w) []) |>.
Definition goal_id : path := [Word "$goal-dependencies"].
Definition admit_goals (w : option DependencyWaitInfo) : exe (option werr) :=
  rec ← record_event W E KAdmission goal_id
          (mret match w with Some w => admission_record w | None => empty_record end);
  r ← as_reply (dependencyResult rec);
  mret r.2.
Definition goalAdmission : exe (option werr) :=
  next ← peek;
  if recorded_at KAdmission goal_id next then admit_goals None
  else if st_replay E || bool_decide (is_Some next) then mret None
  else
    wait ← asks (λ n, w_wait W n "submission");
    match wait with
    | WaitMissing => mret None
    | WaitLookupFailed e => throw e
    | WaitFound w =>
        if bool_decide (wi_State w = DependencyPending)
        then throw (failed "job leased with pending submission dependencies")
        else admit_goals (Some w)
    end.

(** [checkPrerequisites] *)
Definition prerequisite_failed (message : string) : werr :=
  Failed (prereqFailedError (mkAppPayload message "error" [])).
Definition prerequisite_of (id : string) (l : job_lookup) : option werr :=
  match l with
  | JobMissing => Some (failed ("check prerequisite job " +:+ id +:+ ": job not found"))
  | JobLookupFailed (Failed e) => Some (Failed (OtherError ["wrapError"; "fmt.wrapError"] None
      ("check prerequisite job " +:+ id +:+ ": " +:+ error_text e) (Some e)))
  | JobLookupFailed e => Some e
  | JobFound status data =>
      if negb (bool_decide (status = JobStatusCompleted))
      then Some (prerequisite_failed ("prerequisite job " +:+ id +:+ " not completed"))
      else match data with
        | None => Some (prerequisite_failed ("prerequisite job " +:+ id +:+ " did not expose result data"))
        | Some None => None
        | Some (Some message) => Some (prerequisite_failed ("prerequisite job " +:+ id +:+ " did not succeed"
            +:+ (if str_empty message then "" else ": " +:+ message)))
        end
  end.
Fixpoint checkPrerequisites (l : list (string * string)) : exe (option werr) :=
  match l with
  | [] => mret None
  | (id, condition) :: l =>
      if String.eqb condition JobPrereqSuccess then
        job ← asks (λ n, w_job W n id);
        match prerequisite_of id job with
        | Some e => mret (Some e)
        | None => checkPrerequisites l
        end
      else checkPrerequisites l
  end.
Definition job_id : path := [Word job_site].
Definition admit_prerequisites : exe (option werr) :=
  if bool_decide (jh_Prerequisites h = []) then mret None
  else
    rec ← record_event W E KAdmission job_id (
      failure ← checkPrerequisites (jh_Prerequisites h);
      mret match recordResult (Some (mkTaskData (Some (JBool true)) [])) failure with
           | inr r => r
           | inl _ => empty_record
           end);
    mret (resultData rec).2.

(** The job's body runs as a scope with the policy of the job. *)
Definition job_options : ScopeOptions :=
  mkScopeOptions (durationPtrToDuration (rp_TotalTimeout (jh_Policy h)))
    (durationPtrToDuration (rp_InvocationTimeout (jh_Policy h))) (rp_Retry (jh_Policy h)) false.
Definition run_body (worker : JobWorker) (input : ExecutionSnapshot) : exe reply :=
  run_scope W E job_site job_options [] (λ _ e, mret (inl e)) (exec W E (worker (snapshotData (Some input)))).

(** What the outcome of the body makes of the job. *)
Definition finish_job (r : reply) : exe reply :=
  fatal ← ask ru_fatal;
  match fatal with
  | Some f =>
      match f with
      | Control (NotDeterministic _) => if st_replay E then throw f else completeExecutionFailure f
      | _ => throw f
      end
  | None =>
      match r.2 with Some e => fail_if (isExecutionControl e) e | None => mret tt end ;;
      next ← peek;
      match next with
      | Some e => throw (failed "workflow was not deterministic: unconsumed execution record")
      | None =>
          if bool_decide (is_Some (jh_Final h)) then recorded_outcome ;; mret r
          else if st_replay E then throw (ReplayCacheMiss ReplayCacheMissJobResultMissing)
          else
            pending ← ask ru_pending;
            complete r.2 (mkFinal (stage_record <$> pending) (job_result r.1 r.2)) ;; mret r
      end
  end.
Definition suspended_reply (r : reply) : bool :=
  match r.2 with Some ErrExecutionSuspended => true | _ => false end.
Definition execute (worker : JobWorker) : exe reply :=
  if match jh_Final h with Some f => IsChapterPayloadFailure (OutcomeData (fc_Outcome f)).2 | None => false end
  then recorded_outcome
  else
    input ← lift_error (executionSnapshot (Some (jh_Input h)));
    open_history ;;
    failure ← goalAdmission;
    match failure with
    | Some e => refuse e
    | None =>
        failure ← admit_prerequisites;
        match failure with
        | Some e => refuse e
        | None =>
            r ← run_body worker input;
            if suspended_reply r then mret (None, None) else finish_job r
        end
    end.
(** A chapter that was too large to be stored is the job's failure. *)
Definition report_oversize (r : reply) : exe reply :=
  match r.2 with
  | Some (Control (AppendFailed (PutTooLarge p))) =>
      if st_replay E then mret r else as_reply (completeExecutionFailure (Failed (AppError p)))
  | _ => mret r
  end.
Definition runExecution (worker : JobWorker) : exe reply :=
  r ← as_reply (execute worker); report_oversize r.
End execution.

(** One execution of a job by a worker, or one inspection of it. *)
Definition run_job (E : Settings) (h : JobHistory) (worker : JobWorker) : option (executionRun * reply) :=
  match load h with
  | None => None
  | Some events =>
      let E := E <| st_final := bool_decide (is_Some (jh_Final h)) |> in
      match runExecution E h worker (initial_run h events) with
      | (s, inr r) => Some (s, r)
      | (s, inl e) => Some (s, (None, Some e))
      end
  end.
End job.
