(* ===== verification/WfMoves.v ===== *)
(** * WfMoves: what a piece of an execution can change

    Every computation of the engine is related to the state it starts from: events stay,
    suspension and fatal errors stay, and the log that has been seen (what was consumed
    from the history, then what was committed to it) grows.  [quiet] computations leave
    the log and the contexts alone; the others say which records they add. *)

From S2P Require Import Prelude Types Json WfErrors WfHistory WfRun WfProgram.

(** ** Postconditions *)
Definition wp {A} (m : exe A) (Q : executionRun → werr + A → Prop) (s : executionRun) : Prop :=
  Q (m s).1 (m s).2.

Lemma wp_bind {A B} (m : exe A) (k : A → exe B) Q s :
  wp m (λ s1 r, match r with inr a => wp (k a) Q s1 | inl e => Q s1 (inl e) end) s → wp (m ≫= k) Q s.
Proof. unfold wp, mbind, exe_bind. by destruct (m s) as [s1 [e|a]]. Qed.
Lemma wp_mono {A} (m : exe A) (Q Q' : executionRun → werr + A → Prop) s :
  wp m Q s → (∀ s' r, Q s' r → Q' s' r) → wp m Q' s.
Proof. unfold wp. auto. Qed.
Lemma wp_as_reply {A} (m : exe (option A * option werr)) Q s :
  wp m (λ s1 r, Q s1 (inr match r with inr a => a | inl e => (None, Some e) end)) s → wp (as_reply m) Q s.
Proof. unfold wp, as_reply. by destruct (m s) as [s1 [e|a]]. Qed.

(** A relation between the states before and after, whatever is returned. *)
Definition steps {A} (R : executionRun → executionRun → Prop) (m : exe A) : Prop := ∀ s, R s (m s).1.

Lemma steps_bind {A B} R `{!PreOrder R} (m : exe A) (k : A → exe B) :
  steps R m → (∀ a, steps R (k a)) → steps R (m ≫= k).
Proof.
  intros Hm Hk s. unfold mbind, exe_bind. pose proof (Hm s) as H1.
  destruct (m s) as [s1 [e|a]]; simpl in *; [done|]. by etrans; [|apply Hk].
Qed.
Lemma steps_ret {A} R `{!PreOrder R} (a : A) : steps R (mret a).
Proof. by intros s. Qed.
Lemma steps_throw {A} R `{!PreOrder R} e : steps R (throw (A := A) e).
Proof. by intros s. Qed.
Lemma steps_ask {A} R `{!PreOrder R} (f : executionRun → A) : steps R (ask f).
Proof. by intros s. Qed.
Lemma steps_fail_if R `{!PreOrder R} b e : steps R (fail_if b e).
Proof. by intros s; destruct b. Qed.
Lemma steps_lift_error {A} R `{!PreOrder R} (r : string + A) : steps R (lift_error r).
Proof. by intros s; destruct r. Qed.
Lemma steps_as_reply {A} R (m : exe (option A * option werr)) : steps R m → steps R (as_reply m).
Proof. intros Hm s. unfold as_reply. specialize (Hm s). by destruct (m s) as [s1 [e|a]]. Qed.

Create HintDb steps.
#[export] Hint Extern 0 (_ = false) => reflexivity : steps.
#[export] Hint Resolve steps_ret steps_throw steps_ask steps_fail_if steps_lift_error steps_as_reply : steps.

(** Splits a computation into its parts, which the hints know. *)
Ltac steps_tac :=
  repeat first
    [ progress intros
    | solve [eauto with steps typeclass_instances nocore]
    | match goal with |- steps _ (as_reply _) => apply steps_as_reply end
    | match goal with |- steps _ (_ ≫= _) => apply steps_bind; [apply _| |] end
    | match goal with |- steps _ (match ?x with _ => _ end) => destruct x end
    | match goal with |- steps _ (let '(_, _) := ?x in _) => destruct x end ].

(** ** The log

    Records are compared without clock samples and with their artifacts staged; records
    of provenance are not part of it. *)
Definition norm (r : ExecutionRecord) : ExecutionRecord := without_samples (stage_record r).
Definition visible (r : ExecutionRecord) : bool :=
  negb (bool_decide (er_Kind r ∈ [KActivation; KCheckpoint; KDependencyBinding])).
Definition vis (l : list ExecutionRecord) : list ExecutionRecord := filter (λ r, visible r = true) l.
Definition consumed (s : executionRun) : list ExecutionRecord := ev_record <$> take (ru_cursor s) (ru_events s).
Definition committed (s : executionRun) : list ExecutionRecord :=
  mjoin (chapter_records <$> ru_written s) ++ ru_pending s.
Definition seen (s : executionRun) : list ExecutionRecord := norm <$> vis (consumed s ++ committed s).

Lemma stage_idemp s : stage (stage s) = stage s.
Proof.
  destruct s as [d l]. unfold stage. f_equal. cbn. rewrite <- list_fmap_compose. apply list_fmap_ext.
  intros i [n []]; done.
Qed.
Lemma stage_option_idemp (o : option ExecutionSnapshot) : stage <$> (stage <$> o) = stage <$> o.
Proof. destruct o; simpl; [by rewrite stage_idemp|done]. Qed.
Lemma norm_stage r : norm (stage_record r) = norm r.
Proof. destruct r. unfold norm, without_samples, stage_record. cbn. by rewrite !stage_option_idemp. Qed.
Lemma norm_samples r : norm (without_samples r) = norm r.
Proof. by destruct r. Qed.
Lemma samples_norm a b : without_samples a = without_samples b → norm a = norm b.
Proof. intros Hab. by rewrite <- (norm_samples a), Hab, norm_samples. Qed.
Lemma norm_kind r : er_Kind (norm r) = er_Kind r.
Proof. by destruct r. Qed.
Lemma norm_id r : er_ID (norm r) = er_ID r.
Proof. by destruct r. Qed.
Lemma visible_norm a b : norm a = norm b → visible a = visible b.
Proof. intros Hn. unfold visible. by rewrite <- (norm_kind a), <- (norm_kind b), Hn. Qed.
Lemma vis_app l1 l2 : vis (l1 ++ l2) = vis l1 ++ vis l2.
Proof. apply filter_app. Qed.
Lemma vis_one r : vis [r] = if visible r then [r] else [].
Proof. unfold vis. cbn. destruct (visible r) eqn:Hr; by destruct (decide _). Qed.
Lemma vis_cons r l : vis (r :: l) = (if visible r then [r] else []) ++ vis l.
Proof. change (r :: l) with ([r] ++ l). by rewrite vis_app, vis_one. Qed.
Arguments vis : simpl never.
Lemma vis_norm l1 l2 : norm <$> l1 = norm <$> l2 → norm <$> vis l1 = norm <$> vis l2.
Proof.
  revert l2. induction l1 as [|a l1 IH]; intros [|b l2]; try done. rewrite !fmap_cons. intros Heq.
  assert (norm a = norm b) as Hab by exact (Some_inj _ _ (f_equal head Heq)).
  assert (norm <$> l1 = norm <$> l2) as Hl by exact (f_equal tail Heq).
  change (a :: l1) with ([a] ++ l1). change (b :: l2) with ([b] ++ l2).
  rewrite !vis_app, !vis_one, (visible_norm a b Hab), !fmap_app, (IH l2 Hl).
  destruct (visible b); [by rewrite !fmap_cons, Hab|done].
Qed.

Definition stamp (kind : record_kind) (id : path) (r : ExecutionRecord) (at_ : time) : ExecutionRecord :=
  r <| er_Kind := kind |> <| er_ID := id |> <| er_Version := ExecutionPatternVersion |> <| er_At := at_ |>.

(** ** Contexts *)
Definition shape (s : executionRun) : list (path * gmap string Z) :=
  (λ c, (cx_id c, cx_counts c)) <$> ru_contexts s.

Lemma shape_cancel n e l :
  (λ c, (cx_id c, cx_counts c)) <$> cancel_from n e l = (λ c, (cx_id c, cx_counts c)) <$> l.
Proof.
  unfold cancel_from. rewrite fmap_app, <- list_fmap_compose. rewrite <- (take_drop n l) at 3.
  rewrite fmap_app. f_equal. apply list_fmap_ext. intros i c _. unfold set_cause. simpl. by destruct (cx_cause c).
Qed.
Lemma length_cancel n e l : length (cancel_from n e l) = length l.
Proof. unfold cancel_from. rewrite length_app, length_fmap, <- length_app, take_drop. done. Qed.

(** What cancelling does to a cause: the first one stays. *)
Lemma cancel_lookup n e l i c :
  cancel_from n e l !! i = Some c → ∃ c0, l !! i = Some c0 ∧ (c = c0 ∨ c = set_cause e c0).
Proof.
  unfold cancel_from. intros Hc. destruct (decide (i < length (take n l))) as [Hi|Hi].
  - rewrite lookup_app_l in Hc by (by rewrite length_fmap). apply list_lookup_fmap_Some in Hc as (c0 & -> & H0).
    apply lookup_take_Some in H0 as [H0 _]. eauto.
  - rewrite lookup_app_r in Hc by (rewrite length_fmap; lia). rewrite length_fmap, length_take in *.
    exists c. split; [|by left]. destruct (decide (n ≤ length l)) as [Hn|Hn].
    + rewrite lookup_drop in Hc. rewrite <- Hc. f_equal. lia.
    + by rewrite drop_ge in Hc by lia.
Qed.

(** ** Relations between the states before and after *)
Definition frontier (s : executionRun) : Prop := vis (ev_record <$> ru_rest s) = [].
(** The engine writes chapters, reschedules and runs workers; only the job completes. *)
Definition is_complete (x : effect) : bool := match x with Complete _ _ _ => true | _ => false end.
Definition executed (l l' : list effect) : Prop := ∃ x, l' = l ++ x ∧ Forall (λ x, is_complete x = false) x.
#[export] Instance executed_preorder : PreOrder executed.
Proof.
  split; [intros l; exists []; by rewrite app_nil_r|]. intros l1 l2 l3 (x & -> & Hx) (y & -> & Hy).
  exists (x ++ y). split; [by rewrite (assoc app)|by apply Forall_app].
Qed.
Record sticky (s s' : executionRun) : Prop := mkSticky {
  sk_events : ru_events s' = ru_events s;
  sk_cursor : ru_cursor s ≤ ru_cursor s';
  sk_live : ru_live s = true → ru_live s' = true;
  sk_suspended : ru_suspended s = true → ru_suspended s' = true;
  sk_fatal : ∀ e, ru_fatal s = Some e → ru_fatal s' = Some e;
  sk_trace : executed (ru_trace s) (ru_trace s')
}.
#[export] Instance sticky_preorder : PreOrder sticky.
Proof.
  split; [intros s; by constructor|]. intros s1 s2 s3 [E1 C1 L1 S1 F1 T1] [E2 C2 L2 S2 F2 T2].
  constructor; [congruence|lia|auto|auto|auto|by etrans].
Qed.
Lemma sticky_frontier s s' : sticky s s' → frontier s → frontier s'.
Proof.
  intros [He Hc _ _ _ _]. unfold frontier, ru_rest. rewrite He.
  replace (ru_cursor s') with (ru_cursor s + (ru_cursor s' - ru_cursor s)) by lia.
  rewrite <- drop_drop. set (l := drop (ru_cursor s) (ru_events s)). set (n := ru_cursor s' - ru_cursor s).
  rewrite <- (take_drop n l) at 1. rewrite fmap_app, vis_app. by intros [_ ?]%app_nil.
Qed.

(** At any time: something has been committed, or the execution is live, only behind the
    history; and timers run only when it is live. *)
Record coherent (s : executionRun) : Prop := mkCoherent {
  co_frontier : ru_live s = true ∨ vis (committed s) ≠ [] → frontier s;
  co_timers : ru_live s = false → Forall (λ c, cx_timer c = false) (ru_contexts s)
}.
(** [R] holds when it starts from a coherent state, which it ends in; [behind] asks
    that the history has been consumed before. *)
Definition safe (R : executionRun → executionRun → Prop) (s s' : executionRun) : Prop :=
  coherent s → coherent s' ∧ R s s'.
Definition behind (R : executionRun → executionRun → Prop) (s s' : executionRun) : Prop :=
  frontier s → safe R s s'.
#[export] Instance safe_preorder R `{!PreOrder R} : PreOrder (safe R).
Proof.
  split; [by intros s|]. intros s1 s2 s3 H1 H2 Hc. destruct (H1 Hc) as [Hc2 HR1]. destruct (H2 Hc2) as [Hc3 HR2].
  split; [done|by etrans].
Qed.
Lemma safe_mono (R R' : executionRun → executionRun → Prop) s s' :
  safe R s s' → (R s s' → R' s s') → safe R' s s'.
Proof. unfold safe. intuition. Qed.
(** Live executions, and those behind the history, stay coherent. *)
Lemma coherent_live s s' : sticky s s' → ru_live s = true → coherent s → coherent s'.
Proof.
  intros K Hl Hc. split.
  - intros _. eapply sticky_frontier; [done|]. apply Hc. by left.
  - intros Hl'. rewrite (sk_live _ _ K Hl) in Hl'. done.
Qed.

Record quiet (s s' : executionRun) : Prop := mkQuiet {
  qu_sticky : sticky s s';
  qu_shape : shape s' = shape s;
  qu_seen : seen s' = seen s;
  qu_issued : ru_issued s' = ru_issued s
}.
#[export] Instance quiet_preorder : PreOrder quiet.
Proof.
  split; [intros s; by constructor|]. intros s1 s2 s3 [E1 S1 F1 R1] [E2 S2 F2 R2].
  constructor; [by etrans|congruence|congruence|congruence].
Qed.

(** The log only grows. *)
Record grows (s s' : executionRun) : Prop := mkGrows {
  gr_sticky : sticky s s';
  gr_seen : seen s `prefix_of` seen s'
}.
#[export] Instance grows_preorder : PreOrder grows.
Proof.
  split; [by intros s|]. intros s1 s2 s3 [K1 P1] [K2 P2]. split; by etrans.
Qed.
Lemma quiet_grows s s' : quiet s s' → grows s s'.
Proof. intros [K _ Hs _]. split; [done|]. by rewrite Hs. Qed.
Lemma behind_pre R `{!PreOrder R} : (∀ s s', R s s' → sticky s s') → PreOrder (behind R).
Proof.
  intros HR. split; [by intros s|]. intros s1 s2 s3 H1 H2 Hf Hc. destruct (H1 Hf Hc) as [Hc2 HR1].
  destruct (H2 (sticky_frontier _ _ (HR _ _ HR1) Hf) Hc2) as [Hc3 HR2]. split; [done|by etrans].
Qed.
#[export] Instance behind_sticky_preorder : PreOrder (behind sticky).
Proof. by apply (behind_pre _). Qed.
#[export] Instance behind_quiet_preorder : PreOrder (behind quiet).
Proof. apply (behind_pre _), qu_sticky. Qed.
#[export] Instance behind_grows_preorder : PreOrder (behind grows).
Proof. apply (behind_pre _), gr_sticky. Qed.
Lemma steps_mono {A} (R R' : executionRun → executionRun → Prop) (m : exe A) :
  steps R m → (∀ s s', R s s' → R' s s') → steps R' m.
Proof. intros Hm HR s. apply HR, Hm. Qed.
Lemma steps_safe_grows {A} (m : exe A) : steps (safe quiet) m → steps (safe grows) m.
Proof. intros Hm s Hc. destruct (Hm s Hc). split; [done|by apply quiet_grows]. Qed.
Lemma steps_safe_sticky {A} (m : exe A) : steps (safe quiet) m → steps (behind sticky) m.
Proof. intros Hm s _ Hc. destruct (Hm s Hc) as [? []]. by split. Qed.
Lemma steps_behind {A} R (m : exe A) : steps (safe R) m → steps (behind R) m.
Proof. intros Hm s _. apply Hm. Qed.
Lemma steps_quiet_sticky {A} (m : exe A) : steps quiet m → steps sticky m.
Proof. intros Hm s. apply Hm. Qed.

(** A change that keeps events, log and contexts. *)
Lemma quiet_change f :
  (∀ s, ru_events (f s) = ru_events s ∧ ru_cursor (f s) = ru_cursor s ∧ ru_pending (f s) = ru_pending s ∧
        ru_written (f s) = ru_written s ∧ ru_suspended (f s) = ru_suspended s ∧ ru_fatal (f s) = ru_fatal s ∧
        ru_contexts (f s) = ru_contexts s ∧ ru_issued (f s) = ru_issued s ∧ ru_trace (f s) = ru_trace s ∧
        (ru_live s = true → ru_live (f s) = true)) → steps quiet (change f).
Proof.
  intros Hf s. destruct (Hf s) as (H1 & H2 & H3 & H4 & H5 & H6 & H7 & H8 & H9 & H10). simpl. split.
  - split; [done|lia|done|congruence|intros e; congruence|by rewrite H9].
  - unfold shape. by rewrite H7.
  - unfold seen, consumed, committed. by rewrite H1, H2, H3, H4.
  - done.
Qed.
(** A change of the contexts only, which cancels and counts nothing anew. *)
Lemma quiet_contexts s l :
  (λ c, (cx_id c, cx_counts c)) <$> l = shape s → quiet s (s <| ru_contexts := l |>).
Proof. intros Hsh. by split; [split| | |]. Qed.

Section primitives.
Context `{ExecutionText} `{FailureText} (W : World) (E : Settings).

Lemma quiet_asks {A} (f : nat → A) : steps quiet (asks f).
Proof. intros s. simpl. by split; [split| | |]. Qed.
Lemma quiet_now : steps quiet (now W).
Proof. apply quiet_asks. Qed.
Lemma quiet_emit x : is_complete x = false → steps quiet (emit x).
Proof.
  intros Hx s. split; [|done..]. split; try done. by exists [x]; rewrite Forall_singleton.
Qed.
Lemma shape_fire t l d : (λ c, (cx_id c, cx_counts c)) <$> fire t l d = (λ c, (cx_id c, cx_counts c)) <$> l.
Proof. unfold fire. destruct (context_at d l); [|done]. case_match; [apply shape_cancel|done]. Qed.
Lemma shape_fires t ds l :
  (λ c, (cx_id c, cx_counts c)) <$> foldl (fire t) l ds = (λ c, (cx_id c, cx_counts c)) <$> l.
Proof. revert l. induction ds as [|d ds IH]; intros l; [done|]. simpl. by rewrite IH, shape_fire. Qed.
Lemma quiet_observe : steps quiet (observe W).
Proof.
  intros s. unfold observe. simpl. split; [by split|unfold shape; simpl|done|done].
  rewrite shape_fires. by destruct (w_root W _); [apply shape_cancel|].
Qed.
Hint Resolve quiet_asks quiet_now quiet_emit quiet_observe : steps.

Lemma quiet_cause : steps quiet (cause W).
Proof. unfold cause. steps_tac. Qed.
Hint Resolve quiet_cause : steps.
Lemma quiet_check_cause : steps quiet (check_cause W).
Proof. unfold check_cause. steps_tac. Qed.
Hint Resolve quiet_check_cause : steps.
Lemma quiet_controlLocked {A} c : steps quiet (controlLocked (A := A) c).
Proof.
  intros s. unfold controlLocked. destruct (ru_fatal s) as [e|] eqn:Hf; [done|]. simpl.
  split; [split; simpl; try done; by intros e; rewrite Hf|apply shape_cancel|done|done].
Qed.
Lemma quiet_suspend {A} : steps quiet (suspend (A := A)).
Proof.
  intros s. simpl. split; [by split|apply shape_cancel|done|done].
Qed.
Hint Resolve quiet_controlLocked quiet_suspend : steps.

Lemma context_at_spec d l c :
  context_at d l = Some c → (d < length l)%nat ∧ l !! (length l - 1 - d)%nat = Some c.
Proof.
  unfold context_at. intros Hc. pose proof (lookup_lt_Some _ _ _ Hc) as Hd. rewrite length_reverse in Hd.
  split; [done|]. rewrite reverse_lookup in Hc by done. rewrite <- Hc. f_equal. lia.
Qed.
Lemma fmap_insert_same {A B} (f : A → B) (l : list A) i x y :
  l !! i = Some x → f y = f x → f <$> <[i:=y]> l = f <$> l.
Proof.
  intros Hi Hf. rewrite list_fmap_insert, Hf. apply list_insert_id. by rewrite list_lookup_fmap, Hi.
Qed.
Lemma quiet_armLocked d : steps quiet (armLocked W d).
Proof.
  intros s. unfold armLocked. cbn. unfold mbind, exe_bind, ask. simpl.
  destruct (context_at d (ru_contexts s)) as [c|] eqn:Hc; [|done].
  destruct (IsZero (cx_deadline c)); [done|].
  unfold now, asks. simpl. destruct (negb _); simpl.
  - split; [by split|apply shape_cancel|done|done].
  - apply context_at_spec in Hc as [Hd Hc]. split; [by split| |done|done].
    unfold shape. simpl. by apply (fmap_insert_same _ _ _ c).
Qed.
Hint Resolve quiet_armLocked : steps.
Lemma quiet_arm_all ds : steps quiet (arm_all W ds).
Proof. induction ds as [|d ds IH]; simpl; steps_tac. Qed.
Hint Resolve quiet_arm_all : steps.
Lemma quiet_checkLocked : steps quiet (checkLocked W).
Proof. unfold checkLocked. steps_tac. Qed.
Hint Resolve quiet_checkLocked : steps.
Lemma quiet_go_live : steps quiet (change (λ s, s <| ru_live := true |>)).
Proof. by apply quiet_change. Qed.
Hint Resolve quiet_go_live : steps.
Lemma quiet_liveLocked : steps quiet (liveLocked W E).
Proof. unfold liveLocked. steps_tac. Qed.
Hint Resolve quiet_liveLocked : steps.

(** *** Reading the log *)
Lemma vis_skip l : vis (ev_record <$> take (skip_count l) l) = [].
Proof.
  induction l as [|e l IH]; [done|]. cbn [skip_count]. destruct (skipped e) eqn:He; [|done].
  rewrite firstn_cons, fmap_cons, vis_cons, IH. unfold visible. unfold skipped in He. by rewrite He.
Qed.
Lemma take_add {A} (n k : nat) (l : list A) : take (n + k) l = take n l ++ take k (drop n l).
Proof. revert l. induction n as [|n IH]; intros l; [done|]. destruct l as [|x l]; simpl; [by rewrite take_nil|by rewrite IH]. Qed.
Lemma quiet_peek : steps quiet peek.
Proof.
  intros s. simpl. split; [split; simpl; [done|lia|done..]|done| |done]. unfold seen, committed, consumed. simpl.
  rewrite take_add, fmap_app, !vis_app. change (drop (ru_cursor s) (ru_events s)) with (ru_rest s).
  by rewrite vis_skip, app_nil_r.
Qed.
Hint Resolve quiet_peek : steps.
Lemma quiet_at_frontier : steps quiet at_frontier.
Proof. unfold at_frontier. steps_tac. Qed.
Lemma quiet_note_outcome r : steps quiet (note_outcome r).
Proof. unfold note_outcome. destruct (bool_decide _); [by apply quiet_change|steps_tac]. Qed.
Lemma quiet_note_wake r : steps quiet (note_wake r).
Proof. unfold note_wake. destruct (_ || _); [by apply quiet_change|steps_tac]. Qed.
Hint Resolve quiet_at_frontier quiet_note_outcome quiet_note_wake : steps.
Lemma quiet_default_at r : steps quiet (default_at W r).
Proof. unfold default_at. steps_tac. Qed.
Hint Resolve quiet_default_at : steps.
Lemma quiet_progressTime : steps quiet (progressTime W).
Proof. unfold progressTime. steps_tac. by apply quiet_change. Qed.
Lemma quiet_checkInvocation : steps quiet (checkInvocation W E).
Proof. unfold checkInvocation. steps_tac. Qed.
Lemma quiet_current_id : steps quiet current_id.
Proof. unfold current_id. steps_tac. Qed.
Lemma quiet_current_deadline : steps quiet current_deadline.
Proof. unfold current_deadline. steps_tac. Qed.
Hint Resolve quiet_progressTime quiet_checkInvocation quiet_current_id quiet_current_deadline : steps.

(** *** Committing *)
Definition chapter_like (ch st : ExecutionChapter) : Prop :=
  norm <$> xc_Prefix st = norm <$> xc_Prefix ch ∧ er_Kind (xc_Record st) = er_Kind (xc_Record ch) ∧
  er_ID (xc_Record st) = er_ID (xc_Record ch) ∧
  (xc_Record st = xc_Record ch ∨ er_Kind (xc_Record ch) = KResult).
Lemma same_event_like ch win : same_event ch win = true → chapter_like ch win.
Proof.
  unfold same_event, sameExecutionPrefix.
  rewrite !andb_true_iff, orb_true_iff, !bool_decide_eq_true.
  intros ((((((_ & Hr) & Hk) & Hid) & _) & _) & Hp). split; [|naive_solver].
  assert (∀ l : list ExecutionRecord, norm <$> l = norm <$> (without_samples <$> l)) as Hn.
  { intros l. rewrite <- list_fmap_compose. apply list_fmap_ext. intros ? r _. symmetry. apply norm_samples. }
  by rewrite Hn, (Hn (xc_Prefix ch)), Hp.
Qed.
Lemma put_moves ch s :
  wp (put W ch) (λ s' r, quiet s s' ∧ ru_pending s' = ru_pending s ∧ ru_written s' = ru_written s ∧
    match r with inr st => chapter_like ch st | inl _ => True end) s.
Proof.
  assert (∀ (s0 : executionRun) c, quiet s s0 → ru_pending s0 = ru_pending s → ru_written s0 = ru_written s →
    wp (controlLocked (A := ExecutionChapter) c) (λ s' r, quiet s s' ∧ ru_pending s' = ru_pending s ∧
      ru_written s' = ru_written s ∧ match r with inr st => chapter_like ch st | inl _ => True end) s0) as Hctl.
  { intros s0 c Hq Hp Hw. unfold wp. split; [etrans; [exact Hq|apply quiet_controlLocked]|].
    unfold controlLocked. by destruct (ru_fatal s0). }
  set (s1 := s <| ru_trace := ru_trace s ++ [PutChapter ch] |> <| ru_tick := S (ru_tick s) |>).
  assert (quiet s s1) as Hq by (etrans; [exact (quiet_emit (PutChapter ch) eq_refl s)|by split; [split| | |]]).
  unfold put. apply wp_bind. unfold wp at 1. cbn. apply wp_bind. unfold wp at 1. cbn. fold s1.
  destruct (w_put W (ru_tick s) ch) as [|e [win|]].
  - unfold wp. simpl. split; [done|]. repeat split; by left.
  - destruct (same_event ch win) eqn:Hse; [|by apply Hctl].
    unfold wp. simpl. split; [done|]. split; [done|]. split; [done|]. by apply same_event_like.
  - by apply Hctl.
Qed.

(** What a committed record adds to the log. *)
Definition appends (r : ExecutionRecord) (s s' : executionRun) (res : werr + ExecutionRecord) : Prop :=
  sticky s s' ∧ shape s' = shape s ∧ ru_issued s' = ru_issued s ∧
  match res with
  | inr r' => er_Kind r' = er_Kind r ∧ er_ID r' = er_ID r ∧ seen s' = seen s ++ (norm <$> vis [r'])
  | inl _ => seen s' = seen s
  end.
Lemma seen_eq s s' l :
  ru_events s' = ru_events s → ru_cursor s' = ru_cursor s →
  norm <$> vis (committed s') = (norm <$> vis (committed s)) ++ l → seen s' = seen s ++ l.
Proof.
  intros He Hc Hl. unfold seen, consumed. rewrite He, Hc, !vis_app, !fmap_app, Hl. by rewrite (assoc app).
Qed.
(** The chapter that commits a record, after the records that waited for it. *)
Lemma committed_store l1 st pending (attach : bool) :
  norm <$> xc_Prefix st = norm <$> (if attach then stage_record <$> pending else []) →
  attach = true ∨ visible (xc_Record st) = false ∨ pending = [] →
  norm <$> vis (mjoin (chapter_records <$> (l1 ++ [st])) ++ (if attach then [] else pending)) =
  (norm <$> vis (mjoin (chapter_records <$> l1) ++ pending)) ++ (norm <$> vis [xc_Record st]).
Proof.
  intros Hpre Hatt. rewrite fmap_app, join_app. cbn. rewrite app_nil_r. unfold chapter_records at 2.
  rewrite !vis_app, !fmap_app, <- !(assoc app). f_equal. destruct attach.
  - rewrite (vis_norm (xc_Prefix st) pending); [by rewrite app_nil_r|].
    rewrite Hpre, <- list_fmap_compose. apply list_fmap_ext. intros ? r _. apply norm_stage.
  - apply fmap_nil_inv in Hpre. rewrite Hpre. simpl.
    destruct Hatt as [[=]|[Hv| ->]]; [|by rewrite app_nil_r]. by rewrite vis_one, Hv, app_nil_r.
Qed.
Lemma appendLocked_moves r s :
  attaches r = true ∨ visible r = false ∨ ru_pending s = [] → wp (appendLocked W E r) (appends r s) s.
Proof.
  intros Hatt. unfold appendLocked. apply wp_bind.
  set (r0 := stage_record r <| er_Version := _ |> <| er_Activation := _ |>).
  eapply wp_mono with (Q := λ s1 res, quiet s s1 ∧ ru_pending s1 = ru_pending s ∧ ru_written s1 = ru_written s ∧
    ru_cursor s1 = ru_cursor s ∧
    match res with inr r1 => er_Kind r1 = er_Kind r ∧ er_ID r1 = er_ID r | inl _ => False end).
  { unfold default_at. destruct (IsZero _); [|done]. apply wp_bind. unfold wp. simpl.
    split; [by split; [split| | |]|done]. }
  intros s1 [e|r1]; [by intros (_ & _ & _ & _ & [])|]. intros (Hq1 & Hp1 & Hw1 & Hc1 & Hk1 & Hid1).
  apply wp_bind. unfold fail_if. destruct (DecodeExecutionRecord r1); simpl.
  2:{ unfold wp. simpl. destruct Hq1. by split. }
  unfold wp at 1. simpl. apply wp_bind. unfold wp at 1. simpl. apply wp_bind.
  set (ch := mkExecutionChapter _ r1).
  eapply wp_mono; [apply put_moves|]. intros s2 [e|st].
  { intros (Hq2 & _). destruct Hq1 as [? ? ? ?], Hq2 as [? ? ? ?]. split; [by etrans|]. split; [congruence|]. split; congruence. }
  intros (Hq2 & Hp2 & Hw2 & Hpre & Hk & Hid & _).
  apply wp_bind. unfold wp at 1. simpl.
  match goal with |- wp _ _ ?x => set (s3 := x) end.
  change (xc_Record ch) with r1 in *.
  assert (attaches (xc_Record st) = attaches r ∧ attaches r1 = attaches r) as [Hatt3 Hatt1].
  { unfold attaches. by rewrite Hk, Hk1. }
  assert (seen s3 = seen s ++ (norm <$> vis [xc_Record st])) as Hseen.
  { destruct Hq1 as [_ _ Hs1 _], Hq2 as [_ _ Hs2 _]. rewrite <- Hs1, <- Hs2. apply seen_eq; [done|done|].
    unfold committed. subst s3. simpl. rewrite Hatt3, Hp2, Hw2. apply committed_store.
    - rewrite Hpre. subst ch. simpl. by rewrite Hatt1.
    - rewrite Hp1. destruct Hatt as [->|[Hv|Hv]]; [by left| |by right; right].
      right; left. unfold visible in *. by rewrite Hk, Hk1. }
  apply wp_bind. unfold wp at 1. pose proof (quiet_note_outcome (xc_Record st) s3) as Hq4.
  destruct (note_outcome (xc_Record st) s3) as [s4 [e|[]]] eqn:Hn4; simpl in *.
  { unfold note_outcome in Hn4. destruct (bool_decide _) in Hn4; done. }
  apply wp_bind. unfold wp at 1. pose proof (quiet_note_wake (xc_Record st) s4) as Hq5.
  destruct (note_wake (xc_Record st) s4) as [s5 [e|[]]] eqn:Hn5; simpl in *.
  { unfold note_wake in Hn5. destruct (_ || _) in Hn5; done. }
  assert (sticky s2 s3 ∧ shape s3 = shape s2 ∧ ru_issued s3 = ru_issued s2) as (K3 & Sh3 & Is3) by done.
  destruct Hq1 as [K1 Sh1 _ Is1], Hq2 as [K2 Sh2 _ Is2], Hq4 as [K4 Sh4 Se4 Is4], Hq5 as [K5 Sh5 Se5 Is5].
  unfold wp. simpl. split; [by do 4 (etrans; [eassumption|])|].
  split; [congruence|]. split; [congruence|]. split; [congruence|]. split; [congruence|]. congruence.
Qed.

(** *** Coherence *)
Definition keeps (s s' : executionRun) : Prop := coherent s → coherent s'.
#[local] Instance keeps_preorder : PreOrder keeps.
Proof. unfold keeps. split; [by intros s|]. intros s1 s2 s3. auto. Qed.
Lemma keeps_same s s' :
  sticky s s' → ru_live s' = ru_live s → committed s' = committed s →
  (Forall (λ c, cx_timer c = false) (ru_contexts s) → Forall (λ c, cx_timer c = false) (ru_contexts s')) →
  keeps s s'.
Proof.
  intros K Hl Hw Ht [Hf Hti]. split.
  - rewrite Hl, Hw. intros Hor. eapply sticky_frontier; [done|]. by apply Hf.
  - rewrite Hl. intros Hlive. apply Ht, Hti, Hlive.
Qed.
Lemma timers_cancel n e l :
  Forall (λ c, cx_timer c = false) l → Forall (λ c, cx_timer c = false) (cancel_from n e l).
Proof.
  rewrite !Forall_lookup. intros Hl i c Hc. apply cancel_lookup in Hc as (c0 & Hc0 & Hcc).
  specialize (Hl _ _ Hc0). destruct Hcc as [->| ->]; [done|]. unfold set_cause. by destruct (cx_cause c0).
Qed.
Lemma timers_fires t ds l :
  Forall (λ c, cx_timer c = false) l → Forall (λ c, cx_timer c = false) (foldl (fire t) l ds).
Proof.
  revert l. induction ds as [|d ds IH]; intros l Hl; [done|]. simpl. apply IH. unfold fire.
  destruct (context_at d l); [|done]. case_match; [by apply timers_cancel|done].
Qed.
Ltac keeps_by H := intros s; apply keeps_same; [exact (qu_sticky _ _ (H s))|done|done|try done].
Lemma keeps_asks {A} (f : nat → A) : steps keeps (asks f).
Proof. keeps_by (quiet_asks (A := A) f). Qed.
Lemma keeps_emit x : steps keeps (emit x).
Proof. by intros s [Hf Ht]. Qed.
Lemma keeps_observe : steps keeps (observe W).
Proof.
  keeps_by quiet_observe. intros Hl. simpl. apply timers_fires.
  destruct (w_root W _); [by apply timers_cancel|done].
Qed.
Lemma keeps_controlLocked {A} c : steps keeps (controlLocked (A := A) c).
Proof.
  intros s. pose proof (quiet_controlLocked (A := A) c s) as Hq. unfold controlLocked in *.
  destruct (ru_fatal s); [done|]. apply keeps_same; [apply Hq|done|done|]. apply timers_cancel.
Qed.
Lemma keeps_suspend {A} : steps keeps (suspend (A := A)).
Proof. keeps_by (quiet_suspend (A := A)). apply timers_cancel. Qed.
Lemma keeps_peek : steps keeps peek.
Proof. keeps_by quiet_peek. Qed.
Lemma keeps_note_outcome r : steps keeps (note_outcome r).
Proof.
  intros s. pose proof (quiet_note_outcome r s) as Hq. unfold note_outcome in *.
  destruct (bool_decide _); [|done]. apply keeps_same; [apply Hq|done..].
Qed.
Lemma keeps_note_wake r : steps keeps (note_wake r).
Proof.
  intros s. pose proof (quiet_note_wake r s) as Hq. unfold note_wake in *.
  destruct (_ || _); [|done]. apply keeps_same; [apply Hq|done..].
Qed.
Hint Resolve keeps_asks keeps_emit keeps_observe keeps_controlLocked keeps_suspend keeps_peek keeps_note_outcome
  keeps_note_wake : steps.
Lemma keeps_now : steps keeps (now W).
Proof. apply keeps_asks. Qed.
Hint Resolve keeps_now : steps.
Lemma keeps_cause : steps keeps (cause W).
Proof. unfold cause. steps_tac. Qed.
Hint Resolve keeps_cause : steps.
Lemma keeps_check_cause : steps keeps (check_cause W).
Proof. unfold check_cause. steps_tac. Qed.
Hint Resolve keeps_check_cause : steps.
Lemma keeps_default_at r : steps keeps (default_at W r).
Proof. unfold default_at. steps_tac. Qed.
Lemma keeps_at_frontier : steps keeps at_frontier.
Proof. unfold at_frontier. steps_tac. Qed.
Lemma keeps_progressTime : steps keeps (progressTime W).
Proof.
  unfold progressTime. steps_tac. intros s. by apply keeps_same; [apply quiet_change|..].
Qed.
Hint Resolve keeps_default_at keeps_at_frontier keeps_progressTime : steps.
(** In a live execution, or behind the history, timers may be set. *)
Lemma keeps_live {A} (m : exe A) s : steps sticky m → ru_live s = true → keeps s (m s).1.
Proof. intros Hm Hl Hc. by apply (coherent_live s); [apply Hm| |]. Qed.
Lemma sticky_armLocked d : steps sticky (armLocked W d).
Proof. apply steps_quiet_sticky, quiet_armLocked. Qed.
Lemma keeps_checkLocked : steps keeps (checkLocked W).
Proof.
  intros s. destruct (ru_live s) eqn:Hl.
  { apply keeps_live; [apply steps_quiet_sticky, quiet_checkLocked|done]. }
  unfold checkLocked. unfold mbind, exe_bind, ask, fail_if, throw. simpl.
  destruct (ru_suspended s); [done|]. simpl. destruct (ru_fatal s); [done|]. simpl. rewrite Hl. simpl.
  apply keeps_check_cause.
Qed.
Hint Resolve keeps_checkLocked : steps.
Lemma keeps_liveLocked s : frontier s → keeps s (liveLocked W E s).1.
Proof.
  intros Hf Hc. pose proof (quiet_liveLocked s) as Hq. destruct (st_replay E) eqn:Hr.
  { unfold liveLocked. by rewrite Hr. }
  split; [intros _; eapply sticky_frontier; [apply Hq|done]|]. intros Hl. exfalso. revert Hl.
  unfold liveLocked. rewrite Hr. unfold mbind at 1, exe_bind at 1. simpl. destruct (ru_live s) eqn:Hl.
  - pose proof (sk_live _ _ (steps_quiet_sticky _ (quiet_checkLocked) s) Hl) as Hl'.
    unfold mbind, exe_bind. simpl. congruence.
  - set (s1 := s <| ru_live := true |>).
    assert (sticky s1 (((asks (w_order W) ≫= λ order, ask depth ≫= λ d,
      arm_all W (filter (λ i, (i ≠ 0 ∧ i ≤ d)%nat) order ++ seq 1 d)) ≫= λ _, checkLocked W) s1).1) as Hst.
    { apply (steps_bind sticky); [apply steps_quiet_sticky; steps_tac|intros _].
      apply steps_quiet_sticky, quiet_checkLocked. }
    pose proof (sk_live _ _ Hst eq_refl) as Hl'. revert Hl'. unfold mbind, exe_bind, change. simpl. fold s1. congruence.
Qed.

Lemma steps_safe {A} (m : exe A) : steps quiet m → steps keeps m → steps (safe quiet) m.
Proof. intros Hq Hk s Hc. split; [by apply Hk|apply Hq]. Qed.

Lemma noted r s :
  ∃ s', (note_outcome r ;; note_wake r ;; mret r) s = (s', inr r) ∧ quiet s s' ∧ keeps s s'.
Proof.
  assert (∃ s1, note_outcome r s = (s1, inr tt)) as [s1 H1].
  { unfold note_outcome. destruct (bool_decide _); by eexists. }
  assert (∃ s2, note_wake r s1 = (s2, inr tt)) as [s2 H2].
  { unfold note_wake. destruct (_ || _); by eexists. }
  exists s2. split; [unfold mbind, exe_bind; rewrite H1, H2; done|].
  pose proof (quiet_note_outcome r s) as Q1. pose proof (quiet_note_wake r s1) as Q2.
  pose proof (keeps_note_outcome r s) as K1. pose proof (keeps_note_wake r s1) as K2.
  rewrite H1 in Q1, K1. rewrite H2 in Q2, K2. split; [by etrans|]. intros Hc. by apply K2, K1.
Qed.

(** *** Events *)
Lemma skip_count_head l e : l !! skip_count l = Some e → skipped e = false.
Proof. induction l as [|x l IH]; [done|]. simpl. destruct (skipped x) eqn:Hx; simpl; [done|by intros [= <-]]. Qed.
Lemma skipped_visible e : skipped e = negb (visible (ev_record e)).
Proof. unfold skipped, visible. by rewrite negb_involutive. Qed.
Lemma peek_spec s :
  ∃ s1 next, peek s = (s1, inr next) ∧ quiet s s1 ∧ (coherent s → coherent s1) ∧
    next = ru_events s1 !! ru_cursor s1 ∧
    match next with
    | Some e => visible (ev_record e) = true ∧ vis (ev_record <$> ru_rest s1) ≠ []
    | None => frontier s1
    end.
Proof.
  eexists _, _. split; [done|]. split; [apply (quiet_peek s)|]. split; [apply (keeps_peek s)|].
  split; [done|]. simpl. rewrite <- lookup_drop. fold (ru_rest s).
  destruct (ru_rest s !! skip_count (ru_rest s)) as [e|] eqn:He.
  - pose proof (skip_count_head _ _ He) as Hv. rewrite skipped_visible, negb_false_iff in Hv. split; [done|].
    unfold ru_rest. simpl. rewrite <- drop_drop. fold (ru_rest s). rewrite (drop_S _ _ _ He), fmap_cons, vis_cons, Hv. done.
  - unfold frontier, ru_rest. simpl. rewrite <- drop_drop. fold (ru_rest s).
    apply lookup_ge_None in He. by rewrite drop_ge.
Qed.
Lemma quiet_activateLocked : steps quiet (activateLocked W E).
Proof.
  unfold activateLocked. steps_tac; [|by apply quiet_change]. intros s.
  pose proof (appendLocked_moves (activation_record E) s (or_intror (or_introl eq_refl))) as (K & Sh & Is & Hres).
  split; [done..| |done]. destruct (appendLocked W E (activation_record E) s).2 as [e|r]; [done|].
  destruct Hres as (Hk & _ & ->). rewrite vis_one. unfold visible. rewrite Hk. simpl. by rewrite app_nil_r.
Qed.

Definition records (kind : record_kind) (id : path) (s s' : executionRun) (res : werr + ExecutionRecord) : Prop :=
  coherent s' ∧ sticky s s' ∧ shape s' = shape s ∧ ru_issued s' = ru_issued s ∧
  match res with
  | inr r => er_Kind r = kind ∧ er_ID r = id ∧
      (seen s' = seen s ++ (norm <$> vis [r])
       ∨ (st_replay E && negb (st_final E) && reconstructed kind = true ∧ seen s' = seen s))
  | inl _ => seen s' = seen s
  end.
Lemma records_quiet kind id s s1 s' res : quiet s s1 → records kind id s1 s' res → records kind id s s' res.
Proof.
  intros [K1 Sh1 Se1 Is1] (Hc & K & Sh & Is & Hres). split; [done|]. split; [by etrans|].
  split; [congruence|]. split; [congruence|]. by rewrite <- Se1.
Qed.
Lemma records_fail kind id s s' e : coherent s' → quiet s s' → records kind id s s' (inl e).
Proof. intros Hc [K Sh Se Is]. by split. Qed.
(** Sequencing after something quiet. *)
Lemma records_bind {A} kind id (m : exe A) (k : A → exe ExecutionRecord) s :
  steps (safe quiet) m → coherent s →
  (∀ a s1, coherent s1 → sticky s s1 → wp (k a) (records kind id s1) s1) → wp (m ≫= k) (records kind id s) s.
Proof.
  intros Hm Hc Hk. apply wp_bind. unfold wp at 1. destruct (Hm s Hc) as [Hc1 Hq].
  destruct (m s) as [s1 [e|a]]; simpl in *; [by apply records_fail|].
  eapply wp_mono; [apply Hk; [done|apply Hq]|]. intros s' res. by apply records_quiet.
Qed.

Lemma seen_consume s e :
  ru_events s !! ru_cursor s = Some e → vis (committed s) = [] →
  seen (s <| ru_cursor := S (ru_cursor s) |>) = seen s ++ (norm <$> vis [ev_record e]).
Proof.
  intros He Hw. unfold seen, consumed, committed in *. simpl.
  rewrite (take_S_r _ _ _ He), fmap_app, !vis_app. rewrite vis_app in Hw. rewrite Hw.
  by rewrite !app_nil_r, fmap_app.
Qed.
Lemma consume_moves kind id e s :
  coherent s → ru_events s !! ru_cursor s = Some e → vis (ev_record <$> ru_rest s) ≠ [] →
  wp (consume kind id e) (records kind id s) s.
Proof.
  intros Hc He Hrest. unfold consume.
  assert (vis (committed s) = []) as Hw.
  { destruct (vis (committed s)) eqn:Hw; [done|]. exfalso. apply Hrest, Hc. rewrite Hw. by right. }
  assert (∀ c, wp (controlLocked (A := ExecutionRecord) c) (records kind id s) s) as Hctl.
  { intros c. unfold wp. pose proof (quiet_controlLocked (A := ExecutionRecord) c s) as Hq.
    pose proof (keeps_controlLocked (A := ExecutionRecord) c s Hc) as Hc'.
    unfold controlLocked in *. destruct (ru_fatal s); by apply records_fail. }
  destruct (bool_decide (er_Kind (ev_record e) = kind) && bool_decide (er_ID (ev_record e) = id)) eqn:Hk.
  2:{ unfold mismatch. destruct (_ && _) in |- *; [by apply records_fail|apply Hctl]. }
  apply andb_true_iff in Hk as [Hk%bool_decide_eq_true Hid%bool_decide_eq_true].
  set (s1 := s <| ru_cursor := S (ru_cursor s) |>).
  assert (seen s1 = seen s ++ (norm <$> vis [ev_record e])) as Hs1 by by apply seen_consume.
  assert (sticky s s1) as K1 by (split; simpl; try done; lia).
  assert (coherent s1) as Hc1.
  { split; [|apply Hc]. intros Hor. eapply sticky_frontier; [done|]. by apply Hc. }
  destruct (noted (ev_record e) s1) as (s2 & Hn & [K2 Sh2 Se2 Is2] & Hc2).
  unfold wp. change ((change _ ;; note_outcome (ev_record e) ;; note_wake (ev_record e) ;; mret (ev_record e)) s)
    with ((note_outcome (ev_record e) ;; note_wake (ev_record e) ;; mret (ev_record e)) s1). rewrite Hn. simpl.
  split; [by apply Hc2|]. split; [by etrans|]. split; [done|]. split; [done|]. split; [done|]. split; [done|].
  left. by rewrite Se2.
Qed.

(** *** Committing behind the history *)
Lemma safe_asks {A} (f : nat → A) : steps (safe quiet) (asks f).
Proof. apply steps_safe; auto with steps. Qed.
Lemma safe_now : steps (safe quiet) (now W).
Proof. apply safe_asks. Qed.
Lemma safe_emit x : is_complete x = false → steps (safe quiet) (emit x).
Proof. intros Hx. apply steps_safe; auto with steps. Qed.
Lemma safe_cause : steps (safe quiet) (cause W).
Proof. apply steps_safe; auto with steps. Qed.
Lemma safe_check_cause : steps (safe quiet) (check_cause W).
Proof. apply steps_safe; auto with steps. Qed.
Lemma safe_controlLocked {A} c : steps (safe quiet) (controlLocked (A := A) c).
Proof. apply steps_safe; auto with steps. Qed.
Lemma safe_suspend {A} : steps (safe quiet) (suspend (A := A)).
Proof. apply steps_safe; auto with steps. Qed.
Lemma safe_peek : steps (safe quiet) peek.
Proof. apply steps_safe; auto with steps. Qed.
Lemma safe_at_frontier : steps (safe quiet) at_frontier.
Proof. apply steps_safe; auto with steps. Qed.
Lemma safe_default_at r : steps (safe quiet) (default_at W r).
Proof. apply steps_safe; auto with steps. Qed.
Lemma safe_progressTime : steps (safe quiet) (progressTime W).
Proof. apply steps_safe; auto with steps. Qed.
Lemma safe_checkLocked : steps (safe quiet) (checkLocked W).
Proof. apply steps_safe; auto with steps. Qed.
Lemma behind_liveLocked : steps (behind quiet) (liveLocked W E).
Proof. intros s Hf Hc. split; [by apply keeps_liveLocked|apply quiet_liveLocked]. Qed.
Lemma safe_noted r : steps (safe quiet) (note_outcome r ;; note_wake r ;; mret r).
Proof. intros s Hc. destruct (noted r s) as (s' & -> & ? & Hk). by split; [apply Hk|]. Qed.
Lemma safe_note_outcome r : steps (safe quiet) (note_outcome r).
Proof. apply steps_safe; auto with steps. Qed.
Lemma safe_note_wake r : steps (safe quiet) (note_wake r).
Proof. apply steps_safe; auto with steps. Qed.
Hint Resolve safe_note_outcome safe_note_wake safe_asks safe_now safe_emit safe_cause safe_check_cause safe_controlLocked safe_suspend safe_peek
  safe_at_frontier safe_default_at safe_progressTime safe_checkLocked behind_liveLocked safe_noted : steps.
(** A change behind the history: of what has been committed. *)
Lemma behind_change f :
  (∀ s, ru_events (f s) = ru_events s ∧ ru_cursor (f s) = ru_cursor s ∧ ru_live (f s) = ru_live s ∧
        ru_suspended (f s) = ru_suspended s ∧ ru_fatal (f s) = ru_fatal s ∧ ru_contexts (f s) = ru_contexts s ∧ ru_trace (f s) = ru_trace s) →
  steps (behind sticky) (change f).
Proof.
  intros Hf s Hfr Hc. destruct (Hf s) as (H1 & H2 & H3 & H4 & H5 & H6 & H7).
  assert (sticky s (f s)) as K.
  { split; [done|lia|congruence|congruence|intros e; congruence|by rewrite H7]. }
  split; [|done]. simpl. split; [intros _; by eapply sticky_frontier|]. rewrite H3, H6. apply Hc.
Qed.
Lemma safe_put ch : steps (safe quiet) (put W ch).
Proof.
  unfold put. steps_tac.
Qed.
Lemma behind_append r : steps (behind sticky) (appendLocked W E r).
Proof.
  unfold appendLocked. pose proof safe_put as Hput.
  repeat match goal with
  | |- steps _ (change _ ≫= _) => apply steps_bind; [apply _|by apply behind_change|intros _]
  | |- steps _ (_ ≫= _) => apply steps_bind; [apply _|apply steps_safe_sticky; steps_tac|intros ?]
  end.
  steps_tac.
Qed.

(** Sequencing behind the history. *)
Lemma records_behind {A} kind id (m : exe A) (k : A → exe ExecutionRecord) s :
  steps (behind quiet) m → frontier s → coherent s →
  (∀ a s1, frontier s1 → coherent s1 → wp (k a) (records kind id s1) s1) → wp (m ≫= k) (records kind id s) s.
Proof.
  intros Hm Hf Hc Hk. apply wp_bind. unfold wp at 1. destruct (Hm s Hf Hc) as [Hc1 Hq].
  destruct (m s) as [s1 [e|a]]; simpl in *; [by apply records_fail|].
  eapply wp_mono; [apply Hk; [eapply sticky_frontier; [apply Hq|done]|done]|]. intros s' res. by apply records_quiet.
Qed.
Lemma seen_defer s r : seen (s <| ru_pending := ru_pending s ++ [r] |>) = seen s ++ (norm <$> vis [r]).
Proof. by apply seen_eq; [..|unfold committed; simpl; rewrite (assoc app), vis_app, fmap_app]. Qed.
Lemma default_at_spec r s :
  ∃ t s1, default_at W r s = (s1, inr (r <| er_At := t |>)).
Proof.
  unfold default_at. destruct (IsZero (er_At r)); [by eexists _, _|]. exists (er_At r), s. by destruct r.
Qed.
Lemma commit_moves kind id build deferred s :
  kind ≠ KHeader → steps (safe quiet) build → frontier s → coherent s →
  wp (commit W E kind id build deferred) (records kind id s) s.
Proof.
  intros Hkind Hb Hf Hc. unfold commit.
  apply records_behind; [apply behind_liveLocked|done|done|]. clear s Hf Hc. intros _ s Hf Hc.
  apply records_behind; [by apply steps_behind|done|done|]. clear s Hf Hc. intros r s Hf Hc.
  apply wp_bind. unfold wp at 1. pose proof (safe_default_at (r <| er_Kind := kind |> <| er_ID := id |>
    <| er_Version := ExecutionPatternVersion |>) s Hc) as [Hc1 Hq1].
  destruct (default_at_spec (r <| er_Kind := kind |> <| er_ID := id |> <| er_Version := ExecutionPatternVersion |>) s)
    as (t & s1 & Hd). rewrite Hd in *. simpl in Hc1, Hq1. simpl.
  assert (frontier s1) as Hf1 by (eapply sticky_frontier; [apply Hq1|done]).
  match goal with |- context [appendLocked W E ?x] => set (rec := x) end.
  apply (wp_mono _ (records kind id s1)); [|intros s' res; by apply records_quiet]. clear s Hd Hf Hc Hq1.
  apply records_behind; [apply steps_behind; steps_tac|done|done|]. clear s1 Hf1 Hc1. intros te s Hf Hc.
  destruct (deferral rec deferred te).
  { apply wp_bind. unfold wp. simpl. split; [by refine (proj1 (behind_change (λ s, s <| ru_pending := ru_pending s ++ [rec] |>) _ s Hf Hc))|].
    split; [done|]. split; [done|]. split; [done|]. split; [done|]. split; [done|]. left. apply seen_defer. }
  apply records_behind; [|done|done|].
  { intros s0 Hf0 Hc0. split; [|apply quiet_activateLocked]. unfold activateLocked.
    assert (steps (behind sticky) (appendLocked W E (activation_record E) ;; change (λ s, s <| ru_activated := true |>)))
      as Ha.
    { apply steps_bind; [apply _|apply behind_append|intros _]. by apply behind_change. }
    unfold mbind at 1, exe_bind at 1, ask. destruct (ru_activated s0); [done|]. by apply Ha. }
  clear s Hf Hc. intros _ s Hf Hc.
  assert (attaches rec = true ∨ visible rec = false) as Hatt.
  { unfold attaches, visible. change (er_Kind rec) with kind. by destruct kind; auto. }
  destruct (behind_append rec s Hf Hc) as [Hc' _].
  pose proof (appendLocked_moves rec s ltac:(tauto)) as (K & Sh & Is & Hres). unfold wp.
  split; [done|]. split; [done|]. split; [done|]. split; [done|].
  destruct (appendLocked W E rec s).2 as [e|r']; [done|]. destruct Hres as (-> & -> & ?). auto.
Qed.
Lemma recordEvent_moves kind id build deferred s :
  kind ≠ KHeader → steps (safe quiet) build → coherent s →
  wp (recordEvent W E kind id build deferred) (records kind id s) s.
Proof.
  intros Hkind Hb Hc. unfold recordEvent.
  apply records_bind; [apply safe_checkLocked|done|]. intros _ s0 Hc0 _.
  destruct (peek_spec s0) as (s1 & next & Hp & Hq & Hc1 & Hnext & Hspec). specialize (Hc1 Hc0).
  apply wp_bind. unfold wp at 1. rewrite Hp. simpl.
  eapply (wp_mono _ (records kind id s1)); [|intros s' res; by apply records_quiet].
  destruct next as [e|].
  { destruct Hspec as [_ Hrest]. by apply consume_moves. }
  destruct (st_replay E && negb (st_final E) && reconstructed kind) eqn:Hrec; [|by apply commit_moves].
  apply records_bind; [done|done|]. intros r s2 Hc2 _. unfold wp. simpl. split; [done|]. split; [done|].
  split; [done|]. split; [done|]. split; [done|]. split; [done|]. right. done.
Qed.

(** *** Reading ahead *)
Definition still (s s' : executionRun) : Prop := ru_events s' = ru_events s ∧ ru_cursor s' = ru_cursor s.
#[local] Instance still_preorder : PreOrder still.
Proof. split; [by intros s|]. intros s1 s2 s3 [??] [??]. split; congruence. Qed.
Lemma still_observe : steps still (observe W).
Proof. by intros s. Qed.
Lemma still_asks {A} (f : nat → A) : steps still (asks f).
Proof. by intros s. Qed.
Hint Resolve still_observe still_asks : steps.
Lemma still_check_cause : steps still (check_cause W).
Proof. unfold check_cause, cause. steps_tac. Qed.
Hint Resolve still_check_cause : steps.
Lemma still_armLocked d : steps still (armLocked W d).
Proof. unfold armLocked, now. steps_tac; by intros s. Qed.
Hint Resolve still_armLocked : steps.
Lemma still_checkLocked : steps still (checkLocked W).
Proof. unfold checkLocked. steps_tac. Qed.

(** The next event is the one at the cursor. *)
Definition at_next (e : event) (s : executionRun) : Prop :=
  ru_events s !! ru_cursor s = Some e ∧ visible (ev_record e) = true.
Lemma peek_next s : match (peek s).2 with
  | inr (Some e) => at_next e (peek s).1
  | inr None => frontier (peek s).1
  | inl _ => False
  end.
Proof.
  destruct (peek_spec s) as (s1 & next & Hp & _ & _ & Hn & Hspec). rewrite Hp. simpl.
  destruct next as [e|]; [|done]. split; [done|apply Hspec].
Qed.
Lemma peek_at e s : at_next e s → peek s = (s, inr (Some e)).
Proof.
  intros [He Hv]. unfold peek. assert (skip_count (ru_rest s) = O) as ->.
  { unfold ru_rest. rewrite (drop_S _ _ _ He). simpl. by rewrite skipped_visible, Hv. }
  rewrite Nat.add_0_r, He. by destruct s.
Qed.
Lemma recordEvent_at e kind id build deferred s :
  at_next e s → recordEvent W E kind id build deferred s = (checkLocked W ;; consume kind id e) s.
Proof.
  intros He. unfold recordEvent, mbind, exe_bind.
  pose proof (still_checkLocked s) as [Hev Hcu]. destruct (checkLocked W s) as [s1 [err|[]]]; [done|].
  simpl in Hev, Hcu. rewrite (peek_at e); [done|].
  destruct He. split; [by rewrite Hev, Hcu|done].
Qed.

(** *** What is returned for a record that is committed *)

(** [r'] is [r] but for clock samples, staging and what the execution stamps on it. *)
Record same_record (r r' : ExecutionRecord) : Prop := mkSameRecord {
  sr_norm : norm r' = norm r;
  sr_deadline : er_Deadline r' = er_Deadline r;
  sr_total : er_TotalDeadline r' = er_TotalDeadline r
}.
Lemma append_record r s :
  er_Kind r ≠ KResult → er_Version r = ExecutionPatternVersion →
  wp (appendLocked W E r) (λ s' res, match res with inr r' => same_record r r' | inl _ => True end) s.
Proof.
  intros Hk Hv. unfold appendLocked. apply wp_bind. unfold wp at 1.
  match goal with |- context [default_at W ?x] => set (r0 := x) end.
  destruct (default_at_spec r0 s) as (t & s1 & ->). cbn [fst snd]. set (r1 := r0 <| er_At := t |>).
  assert (same_record r r1) as Hr1.
  { subst r1 r0. split; [|done..]. rewrite <- (norm_stage r). destruct r. simpl in *. by subst. }
  assert (er_Kind r1 ≠ KResult) as Hk1 by done. clearbody r1. clear r0 Hv.
  apply wp_bind. unfold wp at 1. destruct (DecodeExecutionRecord r1); [|done]. cbn [fail_if negb fst snd mret exe_ret].
  apply wp_bind. unfold wp at 1. cbn [fst snd ask]. apply wp_bind.
  eapply wp_mono; [apply put_moves|]. intros s2 [e|st]; [done|]. intros (_ & _ & _ & _ & _ & _ & [Heq|?]); [|done].
  simpl in Heq. apply wp_bind. unfold wp at 1. cbn [fst snd change]. rewrite Heq.
  match goal with |- wp _ _ ?x => destruct (noted r1 x) as (s4 & Hn & _ & _) end. unfold wp. by rewrite Hn.
Qed.
Lemma commit_record kind id build deferred s :
  kind ≠ KResult →
  wp (commit W E kind id build deferred) (λ s' res, match res with
    | inr r' => ∃ s0 s1 r0, build s0 = (s1, inr r0) ∧ same_record (stamp kind id r0 0) r'
    | inl _ => True end) s.
Proof.
  intros Hk. unfold commit. apply wp_bind. unfold wp at 1. destruct (liveLocked W E s) as [s1 [e|[]]]; [done|].
  cbn [fst snd]. apply wp_bind. unfold wp at 1. destruct (build s1) as [s2 [e|r]] eqn:Hb; [done|]. cbn [fst snd].
  apply wp_bind. unfold wp at 1.
  match goal with |- context [default_at W ?x] => destruct (default_at_spec x s2) as (t & s3 & ->) end. cbn [fst snd].
  assert (same_record (stamp kind id r 0) (stamp kind id r t)) as Hst by by destruct r.
  apply wp_bind. unfold wp at 1. cbn [fst snd ask].
  match goal with |- context [deferral ?x] => change x with (stamp kind id r t) end.
  destruct (deferral (stamp kind id r t) deferred (ru_timeoutError s3)).
  { apply wp_bind. unfold wp. simpl. eauto. }
  apply wp_bind. unfold wp at 1. destruct (activateLocked W E s3) as [s4 [e|[]]]; [done|]. cbn [fst snd].
  eapply wp_mono; [by apply append_record|]. intros s5 [e|r']; [done|]. intros [Hn Hd Ht]. exists s1, s2, r.
  split; [done|]. destruct Hst as [Hn' Hd' Ht']. split; congruence.
Qed.
End primitives.
