(* ===== verification/WfLog.v ===== *)
(** * WfLog: the log of an execution only grows

    Every call of the engine, and so every program, leaves what has been consumed or
    committed where it is and adds to it; a suspended or failed execution stays so. *)

From S2P Require Import Prelude Types Json WfErrors WfHistory WfRun WfProgram WfMoves.

#[export] Hint Resolve safe_note_outcome safe_note_wake safe_asks safe_now safe_emit safe_cause safe_check_cause
  safe_controlLocked safe_suspend safe_peek safe_at_frontier safe_default_at safe_progressTime safe_checkLocked
  behind_liveLocked safe_noted : steps.
#[export] Hint Resolve steps_safe_grows steps_behind | 10 : steps.

(** After reading ahead, the end of the history is known. *)
Lemma steps_peek {B} R `{!PreOrder R} (k : option event → exe B) :
  (∀ s s', quiet s s' → R s s') →
  (∀ e, steps (safe R) (k (Some e))) → steps (behind R) (k None) → steps (safe R) (peek ≫= k).
Proof.
  intros HR Hs Hn s Hc. destruct (peek_spec s) as (s1 & next & Hp & Hq & Hc1 & _ & Hspec). specialize (Hc1 Hc).
  unfold mbind, exe_bind. rewrite Hp. destruct next as [e|].
  - destruct (Hs e s1 Hc1). split; [done|]. etrans; [by apply HR|done].
  - destruct (Hn s1 Hspec Hc1). split; [done|]. etrans; [by apply HR|done].
Qed.
Lemma steps_peek_behind {B} R `{!PreOrder R} (k : option event → exe B) :
  (∀ s s', quiet s s' → R s s') → steps (behind R) (k None) → steps (behind R) (peek ≫= k).
Proof.
  intros HR Hn s Hf Hc. destruct (peek_spec s) as (s1 & next & Hp & Hq & Hc1 & _ & Hspec). specialize (Hc1 Hc).
  assert (frontier s1) as Hf1 by (eapply sticky_frontier; [apply Hq|done]).
  unfold mbind, exe_bind. rewrite Hp. destruct next as [e|]; [destruct Hspec as [_ []]; exact Hf1|].
  destruct (Hn s1 Hf1 Hc1). split; [done|]. etrans; [by apply HR|done].
Qed.
Lemma steps_at_frontier {B} R `{!PreOrder R} (k : bool → exe B) :
  (∀ s s', quiet s s' → R s s') →
  steps (safe R) (k false) → steps (behind R) (k true) → steps (safe R) (at_frontier ≫= k).
Proof.
  intros HR Hs Hn s. change ((at_frontier ≫= k) s) with ((peek ≫= λ next, k (negb (bool_decide (is_Some next)))) s).
  by apply (steps_peek R).
Qed.
Lemma steps_at_frontier_behind {B} R `{!PreOrder R} (k : bool → exe B) :
  (∀ s s', quiet s s' → R s s') → steps (behind R) (k true) → steps (behind R) (at_frontier ≫= k).
Proof.
  intros HR Hn s. change ((at_frontier ≫= k) s) with ((peek ≫= λ next, k (negb (bool_decide (is_Some next)))) s).
  by apply (steps_peek_behind R).
Qed.
Lemma quiet_refl_id s s' : quiet s s' → quiet s s'.
Proof. done. Qed.
#[export] Hint Resolve quiet_grows quiet_refl_id : steps.

(** As [steps_tac], following what reading ahead shows. *)
Ltac grow_tac :=
  repeat first
    [ progress intros
    | match goal with
      | |- steps (safe _) (peek ≫= _) => apply steps_peek; [apply _|solve [auto with steps]| |]
      | |- steps (behind _) (peek ≫= _) => apply steps_peek_behind; [apply _|solve [auto with steps]|]
      | |- steps (safe _) (at_frontier ≫= _) => apply steps_at_frontier; [apply _|solve [auto with steps]| |]
      | |- steps (behind _) (at_frontier ≫= _) => apply steps_at_frontier_behind; [apply _|solve [auto with steps]|]
      end
    | solve [eauto with steps typeclass_instances nocore]
    | match goal with |- steps _ (as_reply _) => apply steps_as_reply end
    | match goal with |- steps _ (_ ≫= _) => apply steps_bind; [apply _| |] end
    | match goal with |- steps _ (match ?x with _ => _ end) => destruct x end
    | match goal with |- steps _ (let '(_, _) := ?x in _) => destruct x end ].

Section log.
Context `{BackoffMath} `{ExecutionText} `{FailureText} (W : World) (E : Settings).

Lemma grows_recordEvent kind id build deferred :
  kind ≠ KHeader → steps (safe quiet) build → steps (safe grows) (recordEvent W E kind id build deferred).
Proof.
  intros Hkind Hb s Hc. destruct (recordEvent_moves W E kind id build deferred s Hkind Hb Hc)
    as (Hc' & K & _ & _ & Hres). split; [done|]. split; [done|].
  destruct (recordEvent W E kind id build deferred s).2 as [e|r]; [by rewrite Hres|].
  destruct Hres as (_ & _ & [->|[_ ->]]); [by eexists|done].
Qed.
Lemma grows_record_event kind id build :
  kind ≠ KHeader → steps (safe quiet) build → steps (safe grows) (record_event W E kind id build).
Proof. apply grows_recordEvent. Qed.
#[local] Hint Extern 2 (steps (safe grows) (record_event _ _ _ _ _)) =>
  apply grows_record_event; [done|solve [grow_tac]] : steps.
#[local] Hint Extern 2 (steps (safe grows) (recordEvent _ _ _ _ _ _)) =>
  apply grows_recordEvent; [done|solve [grow_tac]] : steps.

(** *** Contexts *)
Lemma safe_contexts s l :
  (Forall (λ c, cx_timer c = false) (ru_contexts s) → Forall (λ c, cx_timer c = false) l) →
  safe grows s (s <| ru_contexts := l |>).
Proof.
  intros Ht [Hf Hti]. assert (sticky s (s <| ru_contexts := l |>)) as K by by split.
  split; [|by split]. split; [done|]. intros Hl. apply Ht, Hti, Hl.
Qed.
Lemma timers_tail (l : list executionContext) :
  Forall (λ c, cx_timer c = false) l → Forall (λ c, cx_timer c = false) (tail l).
Proof. by intros []. Qed.
Lemma grows_close : steps (safe grows) close.
Proof. intros s. apply safe_contexts, timers_tail. Qed.
Lemma grows_change_current f :
  (∀ c, cx_timer (f c) = cx_timer c) → steps (safe grows) (change_current f).
Proof.
  intros Hf s. apply safe_contexts. destruct (ru_contexts s) as [|c l]; [done|].
  intros [??]%Forall_cons. apply Forall_cons. by rewrite Hf.
Qed.
(** Setting a timer of a live execution. *)
Lemma grows_live_arm : steps (safe grows)
  (live ← ask ru_live; if (live : bool) then d ← ask depth; armLocked W d else mret tt).
Proof.
  intros s Hc. unfold mbind, exe_bind, ask. destruct (ru_live s) eqn:Hl; [|done].
  pose proof (quiet_armLocked W (depth s) s) as Hq.
  split; [|by apply quiet_grows]. eapply coherent_live; [apply Hq|done|done].
Qed.
Lemma grows_child id deadline total : steps (safe grows) (child W id deadline total).
Proof.
  apply steps_bind; [apply _| |intros _; apply grows_live_arm].
  intros s. apply safe_contexts. intros Hl. by apply Forall_cons.
Qed.
Lemma grows_current_deadline : steps (safe grows) current_deadline.
Proof. apply steps_ask, _. Qed.
#[local] Hint Resolve grows_close grows_child grows_current_deadline : steps.
#[local] Hint Extern 2 (steps (safe grows) (change_current _)) => by apply grows_change_current : steps.
Lemma grows_occurrence kind site : steps (safe grows) (occurrence W kind site).
Proof.
  unfold occurrence, current_id. grow_tac. intros s [Hf Ht]. by split; [split|split; [split|]].
Qed.
#[local] Hint Resolve grows_occurrence : steps.
Lemma behind_liveLocked_grows : steps (behind grows) (liveLocked W E).
Proof.
  intros s Hf Hc. destruct (behind_liveLocked W E s Hf Hc). split; [done|by apply quiet_grows].
Qed.
#[local] Hint Resolve behind_liveLocked_grows : steps.

(** *** Callbacks and outcomes *)
Lemma safe_checkInvocation : steps (safe quiet) (checkInvocation W E).
Proof.
  unfold checkInvocation. apply steps_bind; [apply _| |intros; apply safe_check_cause].
  destruct (st_replay E); [apply steps_ret, _|]. apply (steps_at_frontier quiet); [done|apply steps_ret, _|].
  apply behind_liveLocked.
Qed.
#[local] Hint Resolve safe_checkInvocation : steps.
Lemma grows_invoke {A} (fn : exe (option A * option werr)) :
  steps (safe grows) fn → steps (safe grows) (invoke W E fn).
Proof. intros Hfn. unfold invoke. grow_tac. Qed.
#[local] Hint Extern 2 (steps (safe grows) (invoke _ _ _)) => apply grows_invoke; solve [grow_tac] : steps.
Lemma grows_checkpointPath : steps (safe grows) (checkpointPath W E).
Proof. unfold checkpointPath. grow_tac. Qed.
Lemma grows_finishOutcome kind id out bodyErr input deferred retry :
  kind ≠ KHeader → steps (safe grows) (finishOutcome W E kind id out bodyErr input deferred retry).
Proof. intros Hkind. unfold finishOutcome. grow_tac. Qed.
Lemma grows_finishBody kind id out bodyErr input retry :
  kind ≠ KHeader → steps (safe grows) (finishBody W E kind id out bodyErr input retry).
Proof. apply grows_finishOutcome. Qed.
#[local] Hint Resolve grows_checkpointPath : steps.
#[local] Hint Extern 2 (steps (safe grows) (finishOutcome _ _ _ _ _ _ _ _ _)) =>
  apply grows_finishOutcome; done : steps.
#[local] Hint Extern 2 (steps (safe grows) (finishBody _ _ _ _ _ _ _ _)) =>
  apply grows_finishBody; done : steps.

(** *** Waiting, catching and retrying *)
Lemma grows_suspend {A} : steps (safe grows) (suspend (A := A)).
Proof. apply steps_safe_grows, safe_suspend. Qed.
Lemma grows_reschedule r : steps (safe grows) (reschedule W r).
Proof. unfold reschedule. grow_tac. Qed.
#[local] Hint Resolve grows_suspend grows_reschedule : steps.
Lemma grows_sleep_until wake : steps (safe grows) (sleep_until W E wake).
Proof. unfold sleep_until. grow_tac. Qed.
#[local] Hint Resolve grows_sleep_until : steps.
Lemma grows_waitUntil wake total : steps (safe grows) (waitUntil W E wake total).
Proof. unfold waitUntil. grow_tac. Qed.
Lemma grows_match_descriptor r d : steps (safe grows) (match_descriptor r d).
Proof. unfold match_descriptor. grow_tac. Qed.
Lemma safe_before_limit total : steps (safe quiet) (before_limit W total).
Proof. unfold before_limit. grow_tac. Qed.
Lemma grows_selection_of v : steps (safe grows) (selection_of v).
Proof. unfold selection_of. grow_tac. Qed.
#[local] Hint Resolve grows_waitUntil grows_match_descriptor safe_before_limit grows_selection_of : steps.
Lemma grows_select_rule id total rules failure : steps (safe grows) (select_rule W E id total rules failure).
Proof. unfold select_rule. grow_tac. Qed.
Lemma grows_handle_with id total p rule handler bodyErr failure retryable :
  steps (safe grows) handler →
  steps (safe grows) (handle_with W E id total p rule handler bodyErr failure retryable).
Proof. intros Hh. unfold handle_with. grow_tac. Qed.
#[local] Hint Resolve grows_select_rule grows_handle_with : steps.
Lemma grows_catch_failure id total p rules handler out bodyErr retryable :
  (∀ rule e, steps (safe grows) (handler rule e)) →
  steps (safe grows) (catch_failure W E id total p rules handler out bodyErr retryable).
Proof. intros Hh. unfold catch_failure. grow_tac. Qed.
Lemma safe_decision_record total p attempt st : steps (safe quiet) (decision_record W total p attempt st).
Proof. unfold decision_record. grow_tac. Qed.
#[local] Hint Resolve grows_catch_failure safe_decision_record : steps.
Lemma grows_handleFailure id total p rules handler attempt out bodyErr retryable :
  (∀ rule e, steps (safe grows) (handler rule e)) →
  steps (safe grows) (handleFailure W E id total p rules handler attempt out bodyErr retryable).
Proof. intros Hh. unfold handleFailure. grow_tac. Qed.
#[local] Hint Resolve grows_handleFailure : steps.

(** *** Scopes *)
Lemma grows_progressTime : steps (safe grows) (progressTime W).
Proof. apply steps_safe_grows, safe_progressTime. Qed.
#[local] Hint Resolve grows_progressTime : steps.
Lemma grows_declare_scope id policy significant : steps (safe grows) (declare_scope W E id policy significant).
Proof. unfold declare_scope. grow_tac. Qed.
Lemma grows_scope_attempt site id policy significant total attempt rules handler body :
  (∀ rule e, steps (safe grows) (handler rule e)) → steps (safe grows) body →
  steps (safe grows) (scope_attempt W E site id policy significant total attempt rules handler body).
Proof. intros Hh Hb. unfold scope_attempt. grow_tac. Qed.
#[local] Hint Resolve grows_declare_scope grows_scope_attempt : steps.
Lemma grows_scope_attempts fuel site id policy significant total attempt rules handler body :
  (∀ rule e, steps (safe grows) (handler rule e)) → steps (safe grows) body →
  steps (safe grows) (scope_attempts W E fuel site id policy significant total attempt rules handler body).
Proof.
  intros Hh Hb. revert attempt. induction fuel as [|fuel IH]; intros attempt; simpl; grow_tac.
Qed.
#[local] Hint Resolve grows_scope_attempts : steps.
Lemma grows_run_scope site opts rules handler body :
  (∀ rule e, steps (safe grows) (handler rule e)) → steps (safe grows) body →
  steps (safe grows) (run_scope W E site opts rules handler body).
Proof.
  intros Hh Hb. unfold run_scope, attempt_fuel. apply steps_as_reply.
  apply steps_bind; [apply _|apply grows_occurrence|intros id].
  apply steps_bind; [apply _|apply steps_lift_error, _|intros p].
  apply steps_bind; [apply _|apply steps_safe_grows, safe_peek|intros next].
  destruct (scope_policy site id p next) as [policy significant]. grow_tac.
Qed.

(** *** Tasks *)
Lemma behind_invokeTask id taskType input : steps (behind grows) (invokeTask W E id taskType input).
Proof.
  unfold invokeTask. grow_tac. intros s Hf Hc. split; [|apply quiet_grows, quiet_activateLocked].
  unfold activateLocked. unfold mbind at 1, exe_bind at 1, ask. destruct (ru_activated s); [done|].
  assert (steps (behind sticky) (appendLocked W E (activation_record E) ;; change (λ s, s <| ru_activated := true |>)))
    as Ha.
  { apply steps_bind; [apply _|apply behind_append|intros _]. by apply behind_change. }
  by apply Ha.
Qed.
#[local] Hint Resolve behind_invokeTask : steps.
Lemma safe_wait_record call input deadline total st :
  steps (safe quiet) (wait_record W call input deadline total st).
Proof. unfold wait_record. grow_tac. Qed.
#[local] Hint Resolve safe_wait_record : steps.
Lemma grows_dispatches fuel call id st dispatched positions :
  steps (safe grows) (dispatches W E fuel call id st dispatched positions).
Proof.
  revert st dispatched positions. induction fuel as [|fuel IH]; intros; simpl; grow_tac.
Qed.
Lemma grows_acquired call id st dispatched matching : steps (safe grows) (acquired W E call id st dispatched matching).
Proof. unfold acquired. grow_tac. Qed.
Lemma safe_external_request call st deadline ordinal output hash :
  steps (safe quiet) (external_request W E call st deadline ordinal output hash).
Proof. unfold external_request. grow_tac. Qed.
#[local] Hint Resolve grows_dispatches grows_acquired safe_external_request : steps.
Lemma behind_execute_here call id rec total taskType :
  steps (behind grows) (execute_here W E call id rec total taskType).
Proof. unfold execute_here. grow_tac. Qed.
#[local] Hint Resolve behind_execute_here : steps.
Lemma behind_unanswered call id rec total ordinal st dispatched positions :
  steps (behind grows) (unanswered W E call id rec total ordinal st dispatched positions).
Proof. unfold unanswered. grow_tac. Qed.
#[local] Hint Resolve behind_unanswered : steps.
Lemma grows_externalTask call id input deadline total st :
  steps (safe grows) (externalTask W E call id input deadline total st).
Proof.
  unfold externalTask. grow_tac.
Qed.
#[local] Hint Resolve grows_externalTask : steps.
Lemma grows_build_input build input : steps (safe grows) (build_input W E build input).
Proof. unfold build_input. grow_tac. Qed.
#[local] Hint Resolve grows_build_input : steps.
Lemma behind_fresh_attempt call aid p total build input st :
  steps (behind grows) (fresh_attempt W E call aid p total build input st).
Proof. unfold fresh_attempt. grow_tac. Qed.
Lemma grows_inspect_unfinished {A} build input : steps (safe grows) (inspect_unfinished (A := A) W E build input).
Proof. unfold inspect_unfinished. grow_tac. Qed.
#[local] Hint Resolve behind_fresh_attempt grows_inspect_unfinished : steps.
Lemma grows_task_outcome call aid p start total build input st :
  steps (safe grows) (task_outcome W E call aid p start total build input st).
Proof.
  unfold task_outcome. apply steps_peek; [apply _|auto with steps|intros e|grow_tac].
  rewrite (bool_decide_eq_true_2 (is_Some (Some e))) by done. grow_tac.
Qed.
#[local] Hint Resolve grows_task_outcome : steps.
Lemma grows_task_attempt call id p total attempt rules handler build input st :
  (∀ rule e, steps (safe grows) (handler rule e)) →
  steps (safe grows) (task_attempt W E call id p total attempt rules handler build input st).
Proof. intros Hh. unfold task_attempt. grow_tac. Qed.
#[local] Hint Resolve grows_task_attempt : steps.
Lemma grows_task_attempts fuel call id p total attempt rules handler build input st :
  (∀ rule e, steps (safe grows) (handler rule e)) →
  steps (safe grows) (task_attempts W E fuel call id p total attempt rules handler build input st).
Proof.
  intros Hh. revert attempt input st. induction fuel as [|fuel IH]; intros attempt input st; simpl; grow_tac.
Qed.
#[local] Hint Resolve grows_task_attempts : steps.
Lemma grows_declare_task id call p : steps (safe grows) (declare_task W E id call p).
Proof. unfold declare_task. grow_tac. Qed.
#[local] Hint Resolve grows_declare_task : steps.
Lemma grows_run_task call rules handler build :
  (∀ rule e, steps (safe grows) (handler rule e)) →
  steps (safe grows) (run_task W E call rules handler build).
Proof. intros Hh. unfold run_task, attempt_fuel. grow_tac. Qed.

(** *** Waits *)
Lemma grows_run_sleep d : steps (safe grows) (run_sleep W E d).
Proof. unfold run_sleep. grow_tac. Qed.
Lemma safe_awaitJobsComplete ids : steps (safe quiet) (awaitJobsComplete W ids).
Proof. induction ids as [|id ids IH]; simpl; grow_tac. Qed.
Lemma grows_suspendForJobs {A} ids : steps (safe grows) (suspendForJobs (A := A) W E ids).
Proof. unfold suspendForJobs. grow_tac. Qed.
#[local] Hint Resolve safe_awaitJobsComplete grows_suspendForJobs : steps.
Lemma grows_run_await_jobs ids : steps (safe grows) (run_await_jobs W E ids).
Proof. unfold run_await_jobs. grow_tac. Qed.
Lemma grows_dependencyResult r : steps (safe grows) (dependencyResult r).
Proof. unfold dependencyResult. grow_tac. Qed.
Lemma grows_suspendForDependencies {A} w : steps (safe grows) (suspendForDependencies (A := A) W E w).
Proof. unfold suspendForDependencies. grow_tac. Qed.
#[local] Hint Resolve grows_dependencyResult grows_suspendForDependencies : steps.
Lemma grows_run_await_dependencies deps : steps (safe grows) (run_await_dependencies W E deps).
Proof. unfold run_await_dependencies. grow_tac. Qed.

(** ** Programs *)
Lemma grows_exec {R} (p : prog R) : steps (safe grows) (exec W E p).
Proof.
  pose proof grows_run_task. pose proof grows_run_scope. pose proof grows_run_sleep.
  pose proof grows_run_await_jobs. pose proof grows_run_await_dependencies.
  induction p; simpl; grow_tac.
Qed.
End log.
#[export] Hint Extern 2 (steps (safe grows) (record_event _ _ _ _ _)) =>
  apply grows_record_event; [done|solve [grow_tac]] : steps.
#[export] Hint Resolve grows_close grows_child grows_current_deadline grows_occurrence grows_dependencyResult
  grows_suspend grows_waitUntil grows_match_descriptor grows_select_rule grows_handle_with grows_catch_failure
  grows_handleFailure grows_declare_scope grows_scope_attempt grows_scope_attempts grows_run_scope behind_invokeTask
  grows_dispatches grows_acquired behind_execute_here behind_unanswered grows_externalTask grows_build_input
  behind_fresh_attempt grows_inspect_unfinished grows_task_outcome grows_task_attempt grows_task_attempts
  grows_declare_task grows_run_task grows_run_sleep grows_run_await_jobs grows_run_await_dependencies grows_exec
  safe_before_limit safe_wait_record safe_external_request safe_awaitJobsComplete safe_decision_record : steps.
#[export] Hint Extern 2 (steps (safe grows) (finishOutcome _ _ _ _ _ _ _ _ _)) =>
  apply grows_finishOutcome; done : steps.
#[export] Hint Extern 2 (steps (safe grows) (finishBody _ _ _ _ _ _ _ _)) =>
  apply grows_finishBody; done : steps.
