(* ===== verification/WfReadable.v ===== *)
(** * WfReadable: what an execution writes can be read back

    The decoder rejects a history with a single invalid record.  Records that are
    appended are checked first; those that are deferred are not, so every record the
    engine defers has to be valid by the way it is built. *)

From S2P Require Import Prelude Types Json WfErrors WfHistory WfRun WfProgram WfMoves WfJob.

(** [m] keeps [I] and returns values of [V]. *)
Definition keep {A} (I : executionRun → Prop) (V : A → Prop) (m : exe A) : Prop :=
  ∀ s, I s → wp m (λ s' r, I s' ∧ match r with inr a => V a | inl _ => True end) s.
Definition any {A} (a : A) : Prop := True.

Section keep.
Context (I : executionRun → Prop).

Lemma keep_bind {A B} (V : A → Prop) (V' : B → Prop) (m : exe A) (k : A → exe B) :
  keep I V m → (∀ a, V a → keep I V' (k a)) → keep I V' (m ≫= k).
Proof.
  intros Hm Hk s Hs. apply wp_bind. eapply wp_mono; [by apply Hm|]. intros s1 [e|a] [Hi Ha]; [done|].
  by apply Hk.
Qed.
Lemma keep_ret {A} (V : A → Prop) a : V a → keep I V (mret a).
Proof. by intros Ha s. Qed.
Lemma keep_throw {A} (V : A → Prop) e : keep I V (throw e).
Proof. by intros s. Qed.
Lemma keep_ask {A} (f : executionRun → A) : keep I any (ask f).
Proof. by intros s. Qed.
Lemma keep_fail_if b e : keep I any (fail_if b e).
Proof. by intros s; destruct b. Qed.
Lemma keep_lift_error {A} (r : string + A) : keep I (λ a, r = inr a) (lift_error r).
Proof. by intros s; destruct r. Qed.
Lemma keep_mono {A} (V V' : A → Prop) m : keep I V m → (∀ a, V a → V' a) → keep I V' m.
Proof.
  intros Hm HV s Hs. eapply wp_mono; [by apply Hm|]. intros s' [e|a]; [done|]. naive_solver.
Qed.
Lemma keep_as_reply {A} (m : exe (option A * option werr)) : keep I any m → keep I any (as_reply m).
Proof.
  intros Hm s Hs. apply wp_as_reply. eapply wp_mono; [by apply Hm|]. by intros s' r [? _].
Qed.
Lemma keep_any {A} (V : A → Prop) m : keep I V m → keep I any m.
Proof. intros Hm. by eapply keep_mono. Qed.
End keep.

(** Records that are valid once their artifacts are staged. *)
Definition decodes `{ExecutionText} (r : ExecutionRecord) : Prop := DecodeExecutionRecord (stage_record r) = true.
Definition snapshot_good (s : ExecutionSnapshot) : Prop :=
  artifact_names_ok [] (es_Artifacts s).*1 = true ∧ existsb (has_state Lost) (es_Artifacts s) = false.

Lemma stage_names s : (es_Artifacts (stage s)).*1 = (es_Artifacts s).*1.
Proof. unfold stage. simpl. rewrite <- list_fmap_compose. by apply list_fmap_ext. Qed.
Lemma stage_ok s : snapshot_good s → snapshot_ok (Some (stage s)) = true.
Proof.
  intros [Hn Hl]. unfold snapshot_ok, opt_all. rewrite stage_names, Hn. simpl. apply forallb_forall.
  intros a Ha%list_elem_of_In. apply list_elem_of_fmap in Ha as (b & -> & Hb). unfold has_state. simpl.
  destruct b as [n []]; try done. exfalso. apply list_elem_of_In in Hb.
  assert (existsb (has_state Lost) (es_Artifacts s) = true) by (apply existsb_exists; by exists (n, Lost)). congruence.
Qed.
Lemma executionSnapshot_good d s : executionSnapshot d = inr s → snapshot_good s.
Proof.
  unfold executionSnapshot. destruct d as [[[j|] l]|]; simpl; [|done|by intros [= <-]].
  destruct (artifact_names_ok [] l.*1) eqn:Hn; [|done]. simpl. destruct (existsb (has_state Lost) l) eqn:Hl; [done|].
  by intros [= <-].
Qed.
Lemma durable_stage s : snapshot_ok (Some s) = true → stage s = s.
Proof.
  unfold snapshot_ok, opt_all. rewrite andb_true_iff, forallb_forall. intros [_ Hd].
  destruct s as [d l]. unfold stage. f_equal. simpl in *. rewrite <- (list_fmap_id l) at 2.
  apply list_fmap_ext. intros i [n st] Hi. apply list_elem_of_lookup_2, list_elem_of_In, Hd in Hi.
  unfold has_state in Hi. apply bool_decide_eq_true in Hi. simpl in *. by subst.
Qed.

Section decoding.
Context `{ExecutionText}.

Lemma decode_samples r : DecodeExecutionRecord (without_samples r) = DecodeExecutionRecord r.
Proof. by destruct r. Qed.
Lemma stage_record_idemp r : stage_record (stage_record r) = stage_record r.
Proof. destruct r. unfold stage_record. cbn. by rewrite !stage_option_idemp. Qed.
(** A valid record is staged. *)
Lemma decoded_snapshots r :
  DecodeExecutionRecord r = true → snapshot_ok (er_Input r) = true ∧ snapshot_ok (er_Output r) = true.
Proof. unfold DecodeExecutionRecord. rewrite !andb_true_iff. tauto. Qed.
Lemma decoded_staged r : DecodeExecutionRecord r = true → stage_record r = r.
Proof.
  intros [Hi Ho]%decoded_snapshots. destruct r as [v k id act vs at_ d att dl tdl i o e ru di re ret wk pl alt ett]. unfold stage_record. cbn in *. f_equal.
  - destruct i as [i|]; simpl; [by rewrite durable_stage|done].
  - destruct o as [o|]; simpl; [by rewrite durable_stage|done].
Qed.
Lemma decoded_decodes r : DecodeExecutionRecord r = true → decodes r.
Proof. intros Hr. unfold decodes. by rewrite decoded_staged. Qed.
Lemma decode_same_prefix l1 l2 :
  sameExecutionPrefix l1 l2 = true → forallb DecodeExecutionRecord l1 = forallb DecodeExecutionRecord l2.
Proof.
  unfold sameExecutionPrefix. rewrite bool_decide_eq_true. revert l2.
  induction l1 as [|r1 l1 IH]; intros [|r2 l2]; try done. rewrite !fmap_cons. intros Heq.
  assert (without_samples r1 = without_samples r2) as H1 by exact (Some_inj _ _ (f_equal head Heq)).
  simpl. rewrite <- (decode_samples r1), H1, decode_samples. f_equal. apply IH. exact (f_equal tail Heq).
Qed.

(** What is known of the fields of a record that decodes. *)
Lemma decodes_disposition r :
  decodes r → str_empty (er_Disposition r) || valid_disposition (er_Disposition r) = true.
Proof. unfold decodes, DecodeExecutionRecord. destruct r. rewrite !andb_true_iff. tauto. Qed.
Definition option_good (s : option ExecutionSnapshot) : Prop := match s with Some s => snapshot_good s | None => True end.
Lemma option_good_ok s : option_good s → snapshot_ok (stage <$> s) = true.
Proof. destruct s as [s|]; [apply stage_ok|done]. Qed.

Context `{FailureText}.
(** The records the engine builds. *)
Lemma recordResult_shape out e r :
  recordResult out e = inr r →
  ∃ p o, r = empty_record <| er_Error := p |> <| er_Output := o |> ∧ option_good o ∧ (is_Some o ∨ is_Some p).
Proof.
  unfold recordResult. intros Hrec.
  assert (∀ s p, executionSnapshot out = inr s → inr (empty_record <| er_Error := p |> <| er_Output := Some s |>) =
    inr (A := string) r → ∃ p o, r = empty_record <| er_Error := p |> <| er_Output := o |> ∧ option_good o ∧
    (is_Some o ∨ is_Some p)) as Hout.
  { intros s p Hs [= <-]. exists p, (Some s). split; [done|]. split; [by eapply executionSnapshot_good|eauto]. }
  destruct e as [e|]; [destruct out as [out|]|].
  - destruct (executionSnapshot (Some out)) as [|s] eqn:Hs; [done|]. by eapply Hout.
  - injection Hrec as <-. eexists _, None. split; [done|]. split; [done|]. right. by eexists.
  - destruct (executionSnapshot out) as [|s] eqn:Hs; [done|]. by eapply Hout.
Qed.
Lemma result_decodes kind id out e input retryable disposition rec at_ :
  recordResult out e = inr rec → kind ∈ [KResult; KHandled; KJoinResult; KAdmission] → id ≠ [] →
  option_good input → str_empty disposition || valid_disposition disposition = true →
  decodes (rec <| er_Input := input |> <| er_Retryable := retryable |> <| er_Disposition := disposition |>
               <| er_Kind := kind |> <| er_ID := id |> <| er_Version := ExecutionPatternVersion |> <| er_At := at_ |>).
Proof.
  intros Hrec Hkind Hid Hin Hdisp. apply recordResult_shape in Hrec as (p & o & -> & Hout & Hsome).
  apply option_good_ok in Hin, Hout.
  unfold decodes, DecodeExecutionRecord, stage_record. cbn -[str_empty valid_disposition snapshot_ok bool_decide].
  rewrite Hin, Hout, Hdisp, !andb_true_r. rewrite (bool_decide_eq_false_2 (id = [])) by done. simpl.
  assert (bool_decide (is_Some (stage <$> o)) || bool_decide (is_Some p) = true) as Hor.
  { destruct Hsome as [[x ->]|[x ->]]; [done|]. by rewrite orb_true_r. }
  rewrite !elem_of_cons in Hkind. destruct Hkind as [->|[->|[->|[->|[]%elem_of_nil]]]]; by rewrite Hor.
Qed.
End decoding.

(** ** The invariant *)
Definition same (s s' : executionRun) : Prop :=
  ru_events s' = ru_events s ∧ ru_written s' = ru_written s ∧ ru_pending s' = ru_pending s.
#[export] Instance same_preorder : PreOrder same.
Proof. split; [by intros s|]. intros s1 s2 s3 (?&?&?) (?&?&?). repeat split; congruence. Qed.
Definition readable `{ExecutionText} (s : executionRun) : Prop :=
  Forall (λ e, DecodeExecutionRecord (ev_record e) = true) (ru_events s) ∧
  Forall (λ c, chapter_ok c = true) (ru_written s) ∧ Forall decodes (ru_pending s).

Section same.
Context `{BackoffMath} `{ExecutionText} `{FailureText} (W : World) (E : Settings).

Lemma same_change f :
  (∀ s, ru_events (f s) = ru_events s ∧ ru_written (f s) = ru_written s ∧ ru_pending (f s) = ru_pending s) →
  steps same (change f).
Proof. intros Hf s. apply Hf. Qed.
Lemma same_asks {A} (f : nat → A) : steps same (asks f).
Proof. by intros s. Qed.
Lemma same_observe : steps same (observe W).
Proof. by intros s. Qed.
Lemma same_peek : steps same peek.
Proof. by intros s. Qed.
Lemma same_controlLocked {A} c : steps same (controlLocked (A := A) c).
Proof. intros s. unfold controlLocked. by destruct (ru_fatal s). Qed.
Lemma same_suspend {A} : steps same (suspend (A := A)).
Proof. by intros s. Qed.
#[local] Hint Resolve same_asks same_observe same_peek same_controlLocked same_suspend : steps.
#[local] Hint Extern 1 (steps same (change _)) => by apply same_change : steps.
Lemma same_armLocked d : steps same (armLocked W d).
Proof. unfold armLocked, now. steps_tac. Qed.
#[local] Hint Resolve same_armLocked : steps.
Lemma same_arm_all ds : steps same (arm_all W ds).
Proof. induction ds; simpl; steps_tac. Qed.
#[local] Hint Resolve same_arm_all : steps.
Lemma same_check_cause : steps same (check_cause W).
Proof. unfold check_cause, cause. steps_tac. Qed.
#[local] Hint Resolve same_check_cause : steps.
Lemma same_checkLocked : steps same (checkLocked W).
Proof. unfold checkLocked. steps_tac. Qed.
#[local] Hint Resolve same_checkLocked : steps.
Lemma same_liveLocked : steps same (liveLocked W E).
Proof. unfold liveLocked. steps_tac. Qed.
#[local] Hint Resolve same_liveLocked : steps.
Lemma same_checkInvocation : steps same (checkInvocation W E).
Proof. unfold checkInvocation, at_frontier. steps_tac. Qed.
Lemma same_child id deadline total : steps same (child W id deadline total).
Proof. unfold child. steps_tac. Qed.
Lemma same_close : steps same close.
Proof. unfold close. steps_tac. Qed.
Lemma same_change_current f : steps same (change_current f).
Proof. unfold change_current. steps_tac. Qed.
#[local] Hint Resolve same_change_current : steps.
Lemma same_occurrence kind site : steps same (occurrence W kind site).
Proof. unfold occurrence, current_id. steps_tac. Qed.
Lemma same_note_outcome r : steps same (note_outcome r).
Proof. unfold note_outcome. steps_tac. Qed.
Lemma same_note_wake r : steps same (note_wake r).
Proof. unfold note_wake. steps_tac. Qed.
Lemma same_default_at r : steps same (default_at W r).
Proof. unfold default_at, now. steps_tac. Qed.
Lemma same_progressTime : steps same (progressTime W).
Proof. unfold progressTime, now. steps_tac. Qed.
Lemma same_before_limit total : steps same (before_limit W total).
Proof. unfold before_limit, now. steps_tac. Qed.
Lemma same_emit x : steps same (emit x).
Proof. unfold emit. steps_tac. Qed.
#[local] Hint Resolve same_emit : steps.
Lemma same_reschedule r : steps same (reschedule W r).
Proof. unfold reschedule. steps_tac. Qed.
Lemma same_match_descriptor r d : steps same (match_descriptor r d).
Proof. unfold match_descriptor. steps_tac. Qed.
Lemma same_selection_of v : steps same (selection_of v).
Proof. unfold selection_of. steps_tac. Qed.
Lemma same_at_frontier : steps same at_frontier.
Proof. unfold at_frontier. steps_tac. Qed.
Lemma same_now : steps same (now W).
Proof. apply same_asks. Qed.
Lemma same_put ch : steps same (put W ch).
Proof. unfold put. steps_tac. Qed.

Lemma keep_same {A} (m : exe A) : steps same m → keep readable any m.
Proof.
  intros Hm s (He & Hw & Hp). destruct (Hm s) as (E1 & E2 & E3). unfold wp, readable. rewrite E1, E2, E3.
  split; [done|by destruct (m s).2].
Qed.
End same.
#[export] Hint Resolve same_asks same_observe same_peek same_controlLocked same_suspend same_armLocked same_check_cause
  same_checkLocked same_liveLocked same_checkInvocation same_child same_close same_change_current same_occurrence
  same_note_outcome same_note_wake same_default_at same_progressTime same_before_limit same_emit same_reschedule
  same_match_descriptor same_selection_of same_at_frontier same_now same_put : steps.
#[export] Hint Extern 1 (steps same (change _)) => by apply same_change : steps.

Section records.
Context `{BackoffMath} `{ExecutionText} `{FailureText} (W : World) (E : Settings).

(** What is known of a record that has been consumed or committed. *)
Definition valid (kind : record_kind) (id : path) (r : ExecutionRecord) : Prop :=
  decodes r ∧ er_Kind r = kind ∧ er_ID r = id.
Lemma put_spec ch s :
  wp (put W ch) (λ s' r, same s s' ∧ match r with inr st => chapter_like ch st ∧
    (st = ch ∨ same_event ch st = true) | inl _ => True end) s.
Proof.
  split; [apply same_put|]. pose proof (put_moves W ch s) as Hm. unfold wp in Hm.
  destruct (put W ch s).2 as [|st] eqn:Hst; [done|]. destruct Hm as (_ & _ & _ & Hl). split; [done|].
  revert Hst. unfold put, emit, mbind, exe_bind, change, asks. simpl.
  destruct (w_put W _ ch) as [|e [win|]]; simpl; [by intros [= ->]; left| |].
  - destruct (same_event ch win) eqn:Hse; simpl; [by intros [= ->]; right|].
    unfold controlLocked. simpl. by destruct (ru_fatal s).
  - unfold controlLocked. simpl. by destruct (ru_fatal s).
Qed.
(** A chapter that commits a valid record after the deferred ones is valid. *)
Lemma stored_ok ch st :
  st = ch ∨ same_event ch st = true → chapter_ok ch = true → chapter_ok st = true.
Proof.
  intros [->|Hse]; [done|]. unfold same_event in Hse. rewrite !andb_true_iff in Hse.
  destruct Hse as ((((((Hd & _) & _) & _) & _) & _) & Hp).
  unfold chapter_ok, chapter_records. rewrite !forallb_app. simpl. rewrite (decode_same_prefix _ _ Hp), Hd. simpl.
  by intros [-> _]%andb_true_iff.
Qed.
Lemma chapter_decodes c : chapter_ok c = true → DecodeExecutionRecord (xc_Record c) = true.
Proof. unfold chapter_ok, chapter_records. rewrite forallb_app. simpl. by intros [_ [? _]%andb_true_iff]%andb_true_iff. Qed.
Lemma staged_prefix_ok l : Forall decodes l → forallb DecodeExecutionRecord (stage_record <$> l) = true.
Proof. induction 1 as [|r l Hr _ IH]; [done|]. rewrite fmap_cons. cbn [forallb]. by rewrite Hr. Qed.
Lemma same_readable s s' : same s s' → readable s → readable s'.
Proof. intros (E1 & E2 & E3) (He & Hw & Hp). unfold readable. by rewrite E1, E2, E3. Qed.
Lemma keep_append r : keep readable (valid (er_Kind r) (er_ID r)) (appendLocked W E r).
Proof.
  intros s Hs. unfold appendLocked. apply wp_bind. unfold wp at 1.
  match goal with |- context [default_at W ?x] => set (r0 := x) end.
  destruct (default_at_spec W r0 s) as (t & s1 & Hd).
  pose proof (same_default_at W r0 s) as Hs1. rewrite Hd in Hs1 |- *. simpl in Hs1.
  apply (same_readable _ _ Hs1) in Hs. clear Hs1 Hd. set (r1 := r0 <| er_At := t |>).
  apply wp_bind. unfold wp at 1, fail_if. destruct (DecodeExecutionRecord r1) eqn:Hdec; [|done].
  apply wp_bind. unfold wp at 1. cbn [negb fst snd mret exe_ret ask].
  set (ch := mkExecutionChapter (if attaches r1 then stage_record <$> ru_pending s1 else []) r1).
  assert (chapter_ok ch = true) as Hch.
  { unfold chapter_ok, chapter_records. rewrite forallb_app. subst ch. cbn [xc_Prefix xc_Record].
    destruct (attaches r1); simpl; rewrite Hdec; [|done]. by rewrite staged_prefix_ok by apply Hs. }
  apply wp_bind. eapply wp_mono; [apply put_spec|]. intros s2 [e|st] [Hs2 Hst]; [by apply (same_readable _ _ Hs2) in Hs|].
  destruct Hst as [(_ & Hk & Hid & _) Hst].
  pose proof (stored_ok _ _ Hst Hch) as Hok. apply (same_readable _ _ Hs2) in Hs.
  apply wp_bind. unfold wp at 1. cbn [fst snd change]. match goal with |- wp _ _ ?x => set (s3 := x) end.
  destruct (noted (xc_Record st) s3) as (s4 & Hn & _ & _). unfold wp.
  pose proof (same_note_outcome (xc_Record st) s3) as Hs4. rewrite Hn. simpl.
  assert (same s3 s4) as Hs34.
  { assert (steps same (note_outcome (xc_Record st) ;; note_wake (xc_Record st) ;; mret (xc_Record st))) as Hst' by steps_tac.
    specialize (Hst' s3). by rewrite Hn in Hst'. }
  split; [|split; [by apply decoded_decodes, chapter_decodes|done]].
  apply (same_readable _ _ Hs34). destruct Hs as (He & Hw & Hp). split; [done|]. split.
  - subst s3. simpl. apply Forall_app. by rewrite Forall_singleton.
  - subst s3. simpl. by destruct (attaches (xc_Record st)); [apply Forall_nil|].
Qed.
(** A record that may be deferred must be valid as it is built. *)
Definition sound (kind : record_kind) (id : path) (deferred : bool) (r : ExecutionRecord) : Prop :=
  deferred_kind (stamp kind id r 0) deferred = true → ∀ t, decodes (stamp kind id r t).
Lemma keep_commit kind id build deferred :
  keep readable (sound kind id deferred) build → keep readable (valid kind id) (commit W E kind id build deferred).
Proof.
  intros Hb. unfold commit. eapply keep_bind; [apply keep_same, same_liveLocked|]. intros _ _.
  eapply keep_bind; [exact Hb|]. intros r Hr.
  eapply (keep_bind _ (λ r', ∃ t, r' = stamp kind id r t)).
  { intros s Hs. destruct (default_at_spec W (r <| er_Kind := kind |> <| er_ID := id |>
      <| er_Version := ExecutionPatternVersion |>) s) as (t & s1 & Hd). unfold wp.
    pose proof (same_default_at W (r <| er_Kind := kind |> <| er_ID := id |>
      <| er_Version := ExecutionPatternVersion |>) s) as Hsame. rewrite Hd in Hsame |- *.
    split; [by apply (same_readable _ _ Hsame)|by exists t]. }
  intros r' [t ->]. eapply keep_bind; [apply keep_ask|]. intros te _.
  destruct (deferral (stamp kind id r t) deferred te) eqn:Hdef.
  - assert (decodes (stamp kind id r t)) as Hdec.
    { apply Hr. destruct (deferred_kind (stamp kind id r 0) deferred) eqn:Hk; [done|].
      unfold deferral in Hdef. change (deferred_kind (stamp kind id r t) deferred) with
        (deferred_kind (stamp kind id r 0) deferred) in Hdef. rewrite Hk in Hdef. done. }
    intros s (He & Hw & Hp). unfold wp. simpl. split; [|done]. split; [done|]. split; [done|].
    apply Forall_app. by rewrite Forall_singleton.
  - apply (keep_bind _ any).
    + unfold activateLocked. eapply keep_bind; [apply keep_ask|]. intros [] _; [by apply keep_ret|].
      eapply keep_bind; [apply keep_append|]. intros _ _. apply keep_same. by apply same_change.
    + intros _ _. exact (keep_append (stamp kind id r t)).
Qed.
Lemma keep_consume kind id e :
  DecodeExecutionRecord (ev_record e) = true → keep readable (valid kind id) (consume kind id e).
Proof.
  intros Hdec. unfold consume. destruct (_ && _) eqn:Hk.
  - apply andb_true_iff in Hk as [Hk%bool_decide_eq_true Hid%bool_decide_eq_true].
    do 3 (eapply keep_bind; [apply keep_same; eauto with steps|intros _ _]).
    apply keep_ret. split; [by apply decoded_decodes|done].
  - unfold mismatch. destruct (_ && _) in |- *; [apply keep_throw|].
    intros s Hs. pose proof (keep_same (controlLocked (A := ExecutionRecord)
      (NotDeterministic ("expected " +:+ spell id +:+ ", recorded " +:+ spell (er_ID (ev_record e)))))
      (same_controlLocked _) s Hs) as [Hs' _].
    unfold wp. split; [done|]. unfold controlLocked. by destruct (ru_fatal s).
Qed.
Lemma keep_recordEvent kind id build deferred :
  keep readable (sound kind id deferred) build → keep readable (valid kind id) (recordEvent W E kind id build deferred).
Proof.
  intros Hb. unfold recordEvent. eapply keep_bind; [apply keep_same, same_checkLocked|]. intros _ _.
  intros s Hs. apply wp_bind. unfold wp at 1. cbn [fst snd peek].
  match goal with |- wp _ _ ?x => assert (readable x) as Hs1 by exact Hs; generalize dependent x end.
  intros s1 Hs1. destruct (ru_events s !! (ru_cursor s + skip_count (ru_rest s))) as [e|] eqn:He.
  { apply keep_consume; [|done]. destruct Hs as (Hev & _). rewrite Forall_lookup in Hev. by eapply Hev. }
  destruct (st_replay E && negb (st_final E) && reconstructed kind) eqn:Hrec; [|by apply keep_commit].
  revert s1 Hs1. change (keep readable (valid kind id) (build ≫= λ r, mret (stamp kind id r 0))).
  eapply keep_bind; [exact Hb|]. intros r Hr. apply keep_ret. split; [|done]. apply Hr.
  apply andb_true_iff in Hrec as [_ Hrec%bool_decide_eq_true]. rewrite !elem_of_cons in Hrec.
  unfold deferred_kind. simpl. destruct Hrec as [->|[->|[->|[]%elem_of_nil]]]; done.
Qed.
Lemma keep_record_event kind id build :
  keep readable (sound kind id false) build → keep readable (valid kind id) (record_event W E kind id build).
Proof. apply keep_recordEvent. Qed.
(** Records of these kinds are never deferred, and so always checked. *)
Definition checked (kind : record_kind) : bool :=
  negb (bool_decide (kind ∈ [KScope; KTask; KAttempt; KCatch; KHandled; KDecision])).
Lemma keep_record_checked kind id build :
  checked kind = true → keep readable any build → keep readable (valid kind id) (record_event W E kind id build).
Proof.
  intros Hk Hb. apply keep_recordEvent. eapply keep_mono; [exact Hb|]. intros r _ Hdef. exfalso. revert Hk Hdef.
  unfold checked, deferred_kind. simpl. by destruct kind.
Qed.
(** An event that reading ahead has found is consumed. *)
Definition next_is (kind : record_kind) (id : path) (next : option event) : bool :=
  match next with
  | Some next => bool_decide (er_Kind (ev_record next) = kind) && bool_decide (er_ID (ev_record next) = id)
  | None => false
  end.
Lemma keep_next {A} (V : A → Prop) (k : option event → exe A) :
  (∀ e s, at_next e s → readable s → wp (k (Some e)) (λ s' r, readable s' ∧ match r with inr a => V a | inl _ => True end) s) →
  keep readable V (k None) → keep readable V (peek ≫= k).
Proof.
  intros Hk Hn s Hs. apply wp_bind. unfold wp at 1. pose proof (peek_next s) as Hp.
  pose proof (keep_same _ same_peek s Hs) as [Hs1 _].
  destruct (peek s) as [s1 [err|[e|]]]; simpl in *; [done|by apply Hk|by apply Hn].
Qed.
Lemma wp_consumed kind id e build deferred s :
  at_next e s → readable s →
  wp (recordEvent W E kind id build deferred)
    (λ s' r, readable s' ∧ match r with inr a => valid kind id a | inl _ => True end) s.
Proof.
  intros He Hs. unfold wp. rewrite (recordEvent_at W E e) by done.
  assert (keep readable (valid kind id) (checkLocked W ;; consume kind id e)) as Hk; [|by apply Hk].
  eapply keep_bind; [apply keep_same, same_checkLocked|]. intros _ _. apply keep_consume.
  destruct Hs as (Hev & _). rewrite Forall_lookup in Hev. destruct He as [He _]. by eapply Hev.
Qed.
End records.
