(* ===== verification/WfSound.v ===== *)
(** * WfSound: every part of the engine keeps the history readable *)

From S2P Require Import Prelude Types Json WfErrors WfHistory WfRun WfProgram WfMoves WfJob WfReadable.

Create HintDb keep.
#[export] Hint Resolve keep_ask keep_fail_if keep_lift_error keep_throw : keep.
#[export] Hint Extern 2 (keep readable any _) => apply keep_same; solve [steps_tac] : keep.
#[export] Hint Extern 1 (keep _ any (mret _)) => by apply keep_ret : keep.

Ltac keep_tac :=
  repeat first
    [ progress intros
    | solve [eauto with keep nocore]
    | match goal with
      | |- keep _ any (as_reply _) => apply keep_as_reply
      | |- keep _ _ (_ ≫= _) => eapply keep_bind; [solve [eauto with keep nocore]|]
      | |- keep _ _ (_ ≫= _) => apply (keep_bind _ any)
      | |- keep _ _ (match ?x with _ => _ end) => destruct x
      | |- keep _ _ (let '(_, _) := ?x in _) => destruct x
      end ].

Section sound.
Context `{BackoffMath} `{ExecutionText} `{FailureText} (W : World) (E : Settings).

Lemma keep_record_checked_any kind id build :
  checked kind = true → keep readable any build → keep readable any (record_event W E kind id build).
Proof. intros Hk Hb. by eapply keep_any, keep_record_checked. Qed.
#[local] Hint Extern 3 (keep readable _ (record_event _ _ _ _ _)) =>
  apply keep_record_checked; [done|solve [keep_tac]] : keep.
#[local] Hint Extern 2 (keep readable any (record_event _ _ _ _ _)) =>
  apply keep_record_checked_any; [done|solve [keep_tac]] : keep.
Lemma keep_occurrence kind site : keep readable (λ id, id ≠ []) (occurrence W kind site).
Proof.
  unfold occurrence. keep_tac. by apply keep_ret.
Qed.
Lemma keep_invoke {A} (fn : exe (option A * option werr)) : keep readable any fn → keep readable any (invoke W E fn).
Proof. intros Hfn. unfold invoke. keep_tac. Qed.
Lemma keep_checkpointPath : keep readable any (checkpointPath W E).
Proof. unfold checkpointPath, current_id. keep_tac. Qed.
#[local] Hint Resolve keep_occurrence keep_checkpointPath : keep.

(** *** Outcomes *)
Lemma keep_finishBody kind id out bodyErr input retry :
  checked kind = true → keep readable (valid kind id) (finishBody W E kind id out bodyErr input retry).
Proof.
  intros Hk. unfold finishBody, finishOutcome.
  apply (keep_bind _ any); [destruct bodyErr; keep_tac|intros _ _].
  apply (keep_bind _ any); [keep_tac|intros next _]. destruct (match next with Some _ => _ | None => _ end).
  { apply keep_record_checked; keep_tac. }
  destruct (match bodyErr with Some _ => _ | None => _ end).
  { destruct next; [apply keep_record_checked; keep_tac|].
    intros s Hs. split; [by apply (keep_same (controlLocked _)); [apply same_controlLocked|]|].
    unfold controlLocked. by destruct (ru_fatal s). }
  eapply keep_bind; [apply keep_lift_error|]. intros r _. apply keep_record_checked; keep_tac.
Qed.
Lemma keep_control {A} (V : A → Prop) c : keep readable V (controlLocked c).
Proof.
  intros s Hs. split; [by apply (keep_same (controlLocked (A := A) c)); [apply same_controlLocked|]|].
  unfold controlLocked. by destruct (ru_fatal s).
Qed.
Lemma keep_suspend {A} (V : A → Prop) : keep readable V suspend.
Proof. intros s Hs. split; [|done]. by apply (keep_same (suspend (A := A))); [apply same_suspend|]. Qed.
#[local] Hint Resolve keep_control keep_suspend : keep.
#[local] Hint Extern 3 (keep readable _ (finishBody _ _ _ _ _ _ _ _)) => apply keep_finishBody; done : keep.
(** The result of a scope may be deferred. *)
Lemma keep_scope_outcome id out bodyErr deferred retry :
  id ≠ [] → keep readable (valid KResult id) (finishOutcome W E KResult id out bodyErr None deferred retry).
Proof.
  intros Hid. unfold finishOutcome.
  apply (keep_bind _ any); [destruct bodyErr; keep_tac|intros _ _].
  apply (keep_bind _ any); [keep_tac|intros next _]. destruct (match next with Some _ => _ | None => _ end).
  { apply keep_record_checked; [done|keep_tac]. }
  destruct (match bodyErr with Some _ => _ | None => _ end).
  { destruct next; [apply keep_record_checked; [done|keep_tac]|]. apply keep_control. }
  eapply keep_bind; [apply keep_lift_error|]. intros r Hr. apply keep_recordEvent, keep_ret. intros _ t.
  match goal with |- decodes (stamp _ _ (_ <| er_Retryable := ?b |>) _) =>
    pose proof (result_decodes KResult id out bodyErr None b "" r t Hr) as Hdec end.
  apply recordResult_shape in Hr as (p & o & -> & _). apply Hdec; [set_solver|done..].
Qed.
#[local] Hint Resolve keep_scope_outcome : keep.

(** *** Waiting, catching and retrying *)
Lemma keep_sleep_until wake : keep readable any (sleep_until W E wake).
Proof. unfold sleep_until. keep_tac. Qed.
#[local] Hint Resolve keep_sleep_until : keep.
Lemma keep_waitUntil wake total : keep readable any (waitUntil W E wake total).
Proof. unfold waitUntil, current_deadline. keep_tac. Qed.
#[local] Hint Resolve keep_waitUntil : keep.
(** Records without data of their own. *)
Definition plain (r : ExecutionRecord) : Prop :=
  ∃ p rule, r = empty_record <| er_Error := p |> <| er_Rule := rule |>.
Lemma keep_selection_of v : keep readable plain (selection_of v).
Proof.
  unfold selection_of. destruct v as [o [e|]].
  - assert (keep readable plain (if isExecutionControl e then throw e
      else mret (empty_record <| er_Error := Some (error_payload e) |>))) as He; [|by destruct o].
    destruct (isExecutionControl e); [apply keep_throw|]. apply keep_ret. by exists (Some (error_payload e)), "".
  - destruct o as [rule|]; apply keep_ret; [by exists None, rule|by exists None, ""].
Qed.
Lemma plain_sound id r : id ≠ [] → plain r → sound KCatch id false r.
Proof.
  intros Hid (p & rule & ->) _ t. unfold decodes, DecodeExecutionRecord. cbn.
  by rewrite (bool_decide_eq_false_2 (id = [])).
Qed.
Lemma plain_empty : plain empty_record.
Proof. by exists None, "". Qed.
#[local] Hint Resolve keep_selection_of : keep.
Lemma keep_select_rule id total rules failure :
  keep readable plain (select_rule W E id total rules failure).
Proof.
  unfold select_rule, current_deadline.
  apply (keep_bind _ any); [keep_tac|intros [] _]; [|by apply keep_ret, plain_empty].
  apply (keep_bind _ any); [keep_tac|intros [] _]; [|by apply keep_ret, plain_empty].
  apply (keep_bind _ any); [keep_tac|intros deadline _].
  apply (keep_bind _ any); [keep_tac|intros _ _].
  apply (keep_bind _ any); [apply keep_invoke; keep_tac|intros v _].
  apply (keep_bind _ any); [keep_tac|intros _ _]. apply keep_selection_of.
Qed.
Lemma handled_sound id bodyErr h r :
  id ≠ [] → handled_record bodyErr h = inr r → sound KHandled id false r.
Proof.
  intros Hid. unfold handled_record.
  destruct (match h with (_, Some e) => _ | (Some r0, None) => _ | (None, None) => _ end)
    as [[[disposition output] err] retryable].
  destruct (valid_disposition disposition) eqn:Hdisp; simpl; [|done].
  destruct (recordResult _ _) as [|rec] eqn:Hrec; [done|]. intros [= <-] _ t.
  pose proof (result_decodes KHandled id _ _ None retryable disposition rec t Hrec ltac:(set_solver) Hid I) as Hdec.
  rewrite Hdisp, orb_true_r in Hdec. specialize (Hdec eq_refl).
  apply recordResult_shape in Hrec as (p & o & -> & _). exact Hdec.
Qed.
Lemma keep_handle_with id total p rule handler bodyErr failure retryable :
  id ≠ [] → keep readable any handler →
  keep readable (valid KHandled id) (handle_with W E id total p rule handler bodyErr failure retryable).
Proof.
  intros Hid Hh. unfold handle_with, current_deadline.
  apply (keep_bind _ any); [keep_tac|intros deadline _].
  apply (keep_bind _ any); [keep_tac|intros _ _].
  apply (keep_bind _ any); [apply keep_invoke; keep_tac|intros h _].
  apply (keep_bind _ any); [keep_tac|intros _ _].
  apply (keep_bind _ any); [destruct h.2; keep_tac|intros _ _].
  assert (keep readable (valid KHandled id)
    (r ← lift_error (handled_record bodyErr h); record_event W E KHandled id (mret r))) as Hnew.
  { eapply keep_bind; [apply keep_lift_error|]. intros r Hr. apply keep_record_event, keep_ret.
    exact (handled_sound _ _ _ _ Hid Hr). }
  apply keep_next; [|done]. intros e s He Hs. destruct (_ && _) in |- *; [by apply (wp_consumed _ _ _ _ e)|by apply Hnew].
Qed.
#[local] Hint Resolve keep_invoke : keep.
Definition disposed (d : string) : Prop := str_empty d || valid_disposition d = true.
Lemma keep_catch_failure id total p rules handler out bodyErr retryable :
  id ≠ [] → (∀ rule e, keep readable any (handler rule e)) →
  keep readable (λ st, disposed (fs_disposition st)) (catch_failure W E id total p rules handler out bodyErr retryable).
Proof.
  intros Hid Hh. unfold catch_failure.
  apply (keep_bind _ any); [keep_tac|intros frontier _].
  apply (keep_bind _ any); [keep_tac|intros _ _].
  eapply keep_bind; [apply keep_select_rule|intros v Hv].
  apply (keep_bind _ (valid KCatch id)); [by apply keep_record_event, keep_ret, plain_sound|intros selection _].
  set (st := match er_Error selection with Some _ => _ | None => _ end).
  assert (disposed (fs_disposition st)) as Hst by (subst st; by destruct (er_Error selection)).
  destruct (str_empty (er_Rule selection)); [by apply keep_ret|].
  destruct (bool_decide _); [|apply keep_control].
  eapply keep_bind; [by apply keep_handle_with|]. intros r [Hr _]. apply keep_ret. by apply decodes_disposition.
Qed.
Lemma keep_decision_record id total p attempt st :
  id ≠ [] → disposed (fs_disposition st) →
  keep readable (sound KDecision id false) (decision_record W total p attempt st).
Proof.
  intros Hid Hd. unfold decision_record.
  apply (keep_bind _ any); [destruct (_ && _); keep_tac|intros retry _].
  apply (keep_bind _ any); [destruct retry; keep_tac|intros wake _].
  apply keep_ret. intros _ t. unfold decodes, DecodeExecutionRecord. cbn -[str_empty valid_disposition].
  rewrite (bool_decide_eq_false_2 (id = [])) by done. simpl. rewrite Hd. done.
Qed.
Lemma keep_handleFailure id total p rules handler attempt out bodyErr retryable :
  id ≠ [] → (∀ rule e, keep readable any (handler rule e)) →
  keep readable any (handleFailure W E id total p rules handler attempt out bodyErr retryable).
Proof.
  intros Hid Hh. unfold handleFailure. destruct bodyErr as [e|]; [|keep_tac].
  destruct (_ && _); [keep_tac|].
  eapply keep_bind; [by apply keep_catch_failure|intros st Hst].
  apply (keep_bind _ (valid KDecision id)); [by apply keep_record_event, keep_decision_record|intros decision _].
  apply (keep_bind _ any); [destruct (er_Retry decision); keep_tac|intros _ _]. keep_tac.
Qed.

(** *** Scopes *)
Lemma scope_sound id r d :
  id ≠ [] → r = empty_record <| er_At := er_At r |> <| er_Descriptor := Some d |> <| er_TotalDeadline := er_TotalDeadline r |> →
  sound KScope id false r.
Proof.
  intros Hid -> _ t. unfold decodes, DecodeExecutionRecord. cbn. by rewrite (bool_decide_eq_false_2 (id = [])).
Qed.
Lemma keep_declare_scope id policy significant :
  id ≠ [] → keep readable any (declare_scope W E id policy significant).
Proof.
  intros Hid. unfold declare_scope. apply (keep_bind _ any); [keep_tac|intros anchor _].
  destruct significant; [|keep_tac].
  apply (keep_bind _ (valid KScope id)).
  { apply keep_record_event, keep_ret. refine (scope_sound _ _ _ Hid eq_refl). }
  intros entry _. destruct (er_Descriptor entry) as [[]|]; keep_tac.
Qed.
Lemma attempt_sound id r :
  id ≠ [] → (1 ≤ er_Attempt r)%Z → r = empty_record <| er_At := er_At r |> <| er_Attempt := er_Attempt r |>
    <| er_Deadline := er_Deadline r |> <| er_TotalDeadline := er_TotalDeadline r |> → sound KAttempt id false r.
Proof.
  intros Hid Ha -> _ t. unfold decodes, DecodeExecutionRecord. cbn. rewrite (bool_decide_eq_false_2 (id = [])) by done.
  by rewrite (proj2 (Z.leb_le _ _) Ha).
Qed.
Lemma keep_scope_attempt site id policy significant total attempt rules handler body :
  (1 ≤ attempt)%Z → (∀ rule e, keep readable any (handler rule e)) → keep readable any body →
  keep readable any (scope_attempt W E site id policy significant total attempt rules handler body).
Proof.
  intros Ha Hh Hb. unfold scope_attempt.
  apply (keep_bind _ any); [keep_tac|intros at_ _].
  apply (keep_bind _ any); [destruct significant; [|keep_tac]|intros start _].
  { eapply keep_any, keep_record_event, keep_ret. by apply (attempt_sound (AttemptSegment attempt :: id)). }
  do 2 (apply (keep_bind _ any); [keep_tac|intros _ _]).
  apply (keep_bind _ any); [by apply keep_invoke|intros r _].
  apply (keep_bind _ any); [keep_tac|intros _ _].
  apply (keep_bind _ any); [keep_tac|intros next _]. destruct (_ || _ || _) in |- *.
  - eapply keep_bind; [by apply keep_scope_outcome|]. intros rec _. by apply keep_handleFailure.
  - by apply keep_handleFailure.
Qed.
Lemma keep_scope_attempts fuel site id policy significant total attempt rules handler body :
  (1 ≤ attempt)%Z → (∀ rule e, keep readable any (handler rule e)) → keep readable any body →
  keep readable any (scope_attempts W E fuel site id policy significant total attempt rules handler body).
Proof.
  intros Ha Hh Hb. revert attempt Ha. induction fuel as [|fuel IH]; intros attempt Ha; simpl; [apply keep_throw|].
  apply (keep_bind _ any); [by apply keep_scope_attempt|]. intros [r []] _; [apply IH; lia|by apply keep_ret].
Qed.
Lemma keep_run_scope site opts rules handler body :
  (∀ rule e, keep readable any (handler rule e)) → keep readable any body →
  keep readable any (run_scope W E site opts rules handler body).
Proof.
  intros Hh Hb. unfold run_scope, attempt_fuel, current_deadline. apply keep_as_reply.
  eapply keep_bind; [apply keep_occurrence|intros id Hid].
  apply (keep_bind _ any); [eapply keep_any, keep_lift_error|intros p _].
  apply (keep_bind _ any); [keep_tac|intros next _].
  destruct (scope_policy site id p next) as [policy significant].
  apply (keep_bind _ any); [by apply keep_declare_scope|intros [entry policy'] _].
  do 2 (apply (keep_bind _ any); [keep_tac|intros ? _]). by apply keep_scope_attempts.
Qed.

(** *** Tasks *)
Lemma keep_invokeTask id taskType input : keep readable any (invokeTask W E id taskType input).
Proof.
  unfold invokeTask. apply keep_as_reply. apply (keep_bind _ any); [keep_tac|intros _ _].
  apply (keep_bind _ any).
  - unfold activateLocked. apply (keep_bind _ any); [keep_tac|intros [] _]; [keep_tac|].
    eapply keep_bind; [apply keep_append|]. intros _ _. keep_tac.
  - intros _ _. apply keep_invoke. keep_tac.
Qed.
#[local] Hint Resolve keep_invokeTask : keep.
Lemma keep_wait_record call input deadline total st : keep readable any (wait_record W call input deadline total st).
Proof. unfold wait_record. keep_tac. Qed.
#[local] Hint Resolve keep_wait_record : keep.
Lemma keep_dispatches fuel call id st dispatched positions :
  keep readable any (dispatches W E fuel call id st dispatched positions).
Proof. revert st dispatched positions. induction fuel as [|fuel IH]; intros; simpl; keep_tac. Qed.
Lemma keep_acquired call id st dispatched matching : keep readable any (acquired W E call id st dispatched matching).
Proof. unfold acquired. keep_tac. Qed.
Lemma keep_external_request call st deadline ordinal output hash :
  keep readable any (external_request W E call st deadline ordinal output hash).
Proof. unfold external_request. keep_tac. Qed.
#[local] Hint Resolve keep_dispatches keep_acquired keep_external_request : keep.
Lemma keep_execute_here call id rec total taskType : keep readable any (execute_here W E call id rec total taskType).
Proof.
  unfold execute_here. do 3 (apply (keep_bind _ any); [keep_tac|intros ? _]). by eapply keep_any, keep_finishBody.
Qed.
#[local] Hint Resolve keep_execute_here : keep.
Lemma keep_unanswered call id rec total ordinal st dispatched positions :
  keep readable any (unanswered W E call id rec total ordinal st dispatched positions).
Proof. unfold unanswered. keep_tac. Qed.
#[local] Hint Resolve keep_unanswered : keep.
Lemma keep_externalTask call id input deadline total st :
  keep readable any (externalTask W E call id input deadline total st).
Proof. unfold externalTask. keep_tac. Qed.
#[local] Hint Resolve keep_externalTask : keep.
Lemma keep_build_input build input : keep readable any (build_input W E build input).
Proof. unfold build_input. destruct input; [keep_tac|]. apply (keep_bind _ any); [apply keep_invoke|]; keep_tac. Qed.
#[local] Hint Resolve keep_build_input : keep.
Lemma keep_fresh_attempt call aid p total build input st :
  keep readable any (fresh_attempt W E call aid p total build input st).
Proof. unfold fresh_attempt. keep_tac. Qed.
Lemma keep_inspect_unfinished {A} build input : keep readable any (inspect_unfinished (A := A) W E build input).
Proof. unfold inspect_unfinished. keep_tac. Qed.
#[local] Hint Resolve keep_fresh_attempt keep_inspect_unfinished : keep.
Lemma keep_task_outcome call aid p start total build input st :
  keep readable any (task_outcome W E call aid p start total build input st).
Proof. unfold task_outcome. keep_tac. Qed.
#[local] Hint Resolve keep_task_outcome : keep.
Lemma keep_task_attempt call id p total attempt rules handler build input st :
  (1 ≤ attempt)%Z → (∀ rule e, keep readable any (handler rule e)) →
  keep readable any (task_attempt W E call id p total attempt rules handler build input st).
Proof.
  intros Ha Hh. unfold task_attempt. apply (keep_bind _ any).
  { eapply keep_any, keep_record_event. apply (keep_bind _ any); [keep_tac|intros t _]. apply keep_ret.
    by apply (attempt_sound (AttemptSegment attempt :: id)). }
  intros start _. apply (keep_bind _ any); [keep_tac|intros [rec st'] _].
  apply (keep_bind _ any); [by apply keep_handleFailure|]. intros r _. by apply keep_ret.
Qed.
Lemma keep_task_attempts fuel call id p total attempt rules handler build input st :
  (1 ≤ attempt)%Z → (∀ rule e, keep readable any (handler rule e)) →
  keep readable any (task_attempts W E fuel call id p total attempt rules handler build input st).
Proof.
  intros Ha Hh. revert attempt Ha input st.
  induction fuel as [|fuel IH]; intros attempt Ha input st; simpl; [apply keep_throw|].
  apply (keep_bind _ any); [by apply keep_task_attempt|]. intros [[[r []] i] st'] _; [apply IH; lia|by apply keep_ret].
Qed.
Lemma keep_declare_task id call p : id ≠ [] → keep readable any (declare_task W E id call p).
Proof.
  intros Hid. unfold declare_task. apply (keep_bind _ (valid KTask id)).
  { apply keep_record_event. apply (keep_bind _ any); [keep_tac|intros t _]. apply keep_ret. intros _ t'.
    unfold decodes, DecodeExecutionRecord. cbn. by rewrite (bool_decide_eq_false_2 (id = [])). }
  intros entry _. destruct (er_Descriptor entry) as [[]|]; keep_tac.
Qed.
Lemma keep_run_task call rules handler build :
  (∀ rule e, keep readable any (handler rule e)) → keep readable any (run_task W E call rules handler build).
Proof.
  intros Hh. unfold run_task, attempt_fuel, current_deadline. apply keep_as_reply.
  eapply keep_bind; [apply keep_occurrence|intros id Hid].
  do 3 (apply (keep_bind _ any); [keep_tac|intros _ _]).
  apply (keep_bind _ any); [eapply keep_any, keep_lift_error|intros p _].
  apply (keep_bind _ any); [by apply keep_declare_task|intros [[entry call'] p'] _].
  do 2 (apply (keep_bind _ any); [keep_tac|intros ? _]). by apply keep_task_attempts.
Qed.

(** *** Waits *)
Lemma keep_run_sleep d : keep readable any (run_sleep W E d).
Proof. unfold run_sleep, current_deadline. keep_tac. Qed.
Lemma keep_awaitJobsComplete ids : keep readable any (awaitJobsComplete W ids).
Proof. induction ids as [|id ids IH]; simpl; keep_tac. Qed.
Lemma keep_suspendForJobs {A} ids : keep readable any (suspendForJobs (A := A) W E ids).
Proof. unfold suspendForJobs, current_deadline. keep_tac. Qed.
#[local] Hint Resolve keep_awaitJobsComplete keep_suspendForJobs : keep.
Lemma keep_run_await_jobs ids : keep readable any (run_await_jobs W E ids).
Proof. unfold run_await_jobs. keep_tac. Qed.
Lemma keep_dependencyResult r : keep readable any (dependencyResult r).
Proof. unfold dependencyResult. keep_tac. Qed.
Lemma keep_suspendForDependencies {A} w : keep readable any (suspendForDependencies (A := A) W E w).
Proof. unfold suspendForDependencies. keep_tac. Qed.
#[local] Hint Resolve keep_dependencyResult keep_suspendForDependencies : keep.
Lemma keep_run_await_dependencies deps : keep readable any (run_await_dependencies W E deps).
Proof. unfold run_await_dependencies, current_deadline. keep_tac. Qed.

(** ** Programs *)
Lemma keep_exec {R} (p : prog R) : keep readable any (exec W E p).
Proof.
  pose proof keep_run_sleep. pose proof keep_run_await_jobs. pose proof keep_run_await_dependencies.
  induction p; simpl; (apply keep_ret || apply (keep_bind _ any)); intros; eauto using keep_run_task, keep_run_scope.
  done.
Qed.
End sound.
#[export] Hint Resolve keep_control keep_suspend keep_dependencyResult keep_exec keep_run_scope : keep.
#[export] Hint Extern 3 (keep readable _ (record_event _ _ _ _ _)) =>
  apply keep_record_checked; [done|solve [keep_tac]] : keep.
#[export] Hint Extern 2 (keep readable any (record_event _ _ _ _ _)) =>
  apply keep_record_checked_any; [done|solve [keep_tac]] : keep.
