(* ===== verification/WfJobLog.v ===== *)
(** * WfJobLog: the log of a whole job

    Admission, the body and the completion of a job as [runExecution] composes them:
    they too only extend the log, what they write can be loaded, and a job is only
    completed successfully by an execution that went well. *)

From S2P Require Import Prelude Types Json WfErrors WfHistory WfRun WfProgram WfMoves WfLog WfJob WfReadable WfSound.

(** While a job runs: nothing has been completed. *)
Record running `{ExecutionText} (s : executionRun) : Prop := mkRunning {
  rn_readable : readable s;
  rn_coherent : coherent s;
  rn_trace : Forall (λ x, is_complete x = false) (ru_trace s)
}.
Definition final_ok `{ExecutionText} (f : FinalChapter) : bool := forallb DecodeExecutionRecord (fc_Prefix f).
(** A completion is readable, and a successful one repeats the recorded outcome or comes
    from an execution that did not fail and has consumed its history. *)
Definition honest `{ExecutionText} (h : JobHistory) (s : executionRun) (status : string) (f : FinalChapter) : Prop :=
  final_ok f = true ∧
  (jh_Final h = Some f ∨ status ≠ "success" ∨
   (ru_fatal s = None ∧ frontier s ∧ fc_Prefix f = stage_record <$> ru_pending s)).
Definition settled `{ExecutionText} (h : JobHistory) (s : executionRun) : Prop :=
  readable s ∧ Forall (λ x, match x with Complete status _ f => honest h s status f | _ => True end) (ru_trace s).

Section job.
Context `{BackoffMath} `{ExecutionText} `{FailureText} (W : World) (E : Settings) (h : JobHistory).
Context (Hfinal : ∀ f, jh_Final h = Some f → final_ok f = true).

Lemma running_settled s : running s → settled h s.
Proof. intros [Hr _ Ht]. split; [done|]. eapply Forall_impl; [exact Ht|]. by intros []. Qed.
Lemma executed_running l l' :
  executed l l' → Forall (λ x, is_complete x = false) l → Forall (λ x, is_complete x = false) l'.
Proof. intros (x & -> & Hx) Hl. by apply Forall_app. Qed.
Lemma keep_engine {A} (V : A → Prop) (m : exe A) :
  keep readable V m → steps (safe grows) m → keep running V m.
Proof.
  intros Hm Hg s [Hr Hc Ht]. destruct (Hm s Hr) as [Hr' HV]. destruct (Hg s Hc) as [Hc' [[] _]].
  split; [|done]. split; [done..|]. by eapply executed_running.
Qed.
(** A computation that may complete the job in the end. *)
Definition ends {A} (m : exe A) : Prop := ∀ s, running s → wp m (λ s' _, settled h s') s.
Lemma ends_bind {A B} (V : A → Prop) (m : exe A) (k : A → exe B) :
  keep running V m → (∀ a, V a → ends (k a)) → ends (m ≫= k).
Proof.
  intros Hm Hk s Hs. apply wp_bind. eapply wp_mono; [by apply Hm|]. intros s1 [e|a] [Hr Ha].
  - by apply running_settled.
  - by apply Hk.
Qed.
Lemma ends_keep {A} (V : A → Prop) (m : exe A) : keep running V m → ends m.
Proof. intros Hm s Hs. eapply wp_mono; [by apply Hm|]. intros s' r [? _]. by apply running_settled. Qed.
Lemma ends_bind_last {A B} (m : exe A) (k : A → exe B) :
  ends m → (∀ a s, settled h s → wp (k a) (λ s' _, settled h s') s) → ends (m ≫= k).
Proof.
  intros Hm Hk s Hs. apply wp_bind. eapply wp_mono; [by apply Hm|]. intros s1 [e|a] Hr; [done|by apply Hk].
Qed.

(** *** Completing *)
Lemma failure_status e : (completionStatusAndDetail (Some e)).1 ≠ "success".
Proof.
  destruct e as [f| | | | | | |]; try done. simpl. destruct (as_timeout f); [done|].
  destruct (as_app f); [done|]. by destruct (as_system f).
Qed.
Lemma settled_complete e f s :
  settled h s → honest h s (completionStatusAndDetail e).1 f → wp (complete W e f) (λ s' _, settled h s') s.
Proof.
  intros [Hr Ht] Hh. unfold complete.
  set (s1 := s <| ru_trace := ru_trace s ++ [Complete (completionStatusAndDetail e).1 (completionStatusAndDetail e).2 f] |>
               <| ru_tick := S (ru_tick s) |>).
  assert (settled h s1) as Hs1 by by split; [|apply Forall_app; split; [|apply Forall_singleton]].
  unfold wp, emit, mbind, exe_bind, change, asks. cbn. fold s1. by destruct (w_complete W _ f).
Qed.
Lemma settled_failure e s : settled h s → wp (completeExecutionFailure W e) (λ s' _, settled h s') s.
Proof.
  intros Hs. unfold completeExecutionFailure. apply wp_bind.
  eapply wp_mono; [apply settled_complete; [done|]|by intros s1 [|[]]].
  split; [done|]. right. left. apply failure_status.
Qed.
Lemma settled_recorded s : settled h s → wp (recorded_outcome W E h) (λ s' _, settled h s') s.
Proof.
  intros Hs. unfold recorded_outcome. destruct (jh_Final h) as [f|] eqn:Hf; [|done].
  apply wp_bind. unfold live_only. destruct (st_replay E); [done|].
  eapply wp_mono; [apply settled_complete; [done|]|by intros s1 [|[]]]. split; [by apply Hfinal|by left].
Qed.
Lemma settled_refuse e s : settled h s → wp (refuse W E h e) (λ s' _, settled h s') s.
Proof.
  intros Hs. unfold refuse. destruct (bool_decide _); [by apply settled_recorded|].
  destruct (st_replay E); [done|by apply settled_failure].
Qed.
Lemma settled_oversize r s : settled h s → wp (report_oversize W E r) (λ s' _, settled h s') s.
Proof.
  intros Hs. unfold report_oversize. destruct r.2 as [[| [ |[]| ] | | | | | | ]|]; try done.
  destruct (st_replay E); [done|]. apply wp_as_reply. eapply wp_mono; [by apply settled_failure|]. done.
Qed.
Lemma ends_finish r : ends (finish_job W E h r).
Proof.
  unfold finish_job. intros s Hs. apply wp_bind. unfold wp at 1. cbn.
  destruct (ru_fatal s) as [f|] eqn:Hfat.
  { apply running_settled in Hs. destruct f as [|[]| | | | | | ]; try done.
    destruct (st_replay E); [done|by apply settled_failure]. }
  apply wp_bind. unfold wp at 1. destruct ((match r.2 with Some e => fail_if (isExecutionControl e) e | None => mret tt end : exe ()) s)
    as [s0 x] eqn:Hx.
  assert (s0 = s) as ->. { revert Hx. by destruct r.2 as [e|]; [destruct e|]; intros [= ->]. }
  destruct x; [by apply running_settled|]. clear Hx. cbn [fst snd].
  apply wp_bind. unfold wp at 1. pose proof (peek_next s) as Hp.
  assert (running (peek s).1 ∧ ru_fatal (peek s).1 = None) as [Hs1 Hf1].
  { split; [|done]. apply (keep_engine any peek); [apply keep_same, same_peek|apply steps_safe_grows, safe_peek|done]. }
  destruct (peek s) as [s1 [err|[e|]]]; simpl in *; [done|by apply running_settled|].
  destruct (bool_decide (is_Some (jh_Final h))).
  { apply wp_bind. eapply wp_mono; [by apply settled_recorded, running_settled|]. by intros s2 []. }
  destruct (st_replay E); [by apply running_settled|].
  apply wp_bind. unfold wp at 1. cbn. apply wp_bind.
  eapply wp_mono; [apply settled_complete; [by apply running_settled|]|by intros s2 [|[]]].
  split; [apply staged_prefix_ok, Hs1|]. by right; right.
Qed.

(** *** Admission and body *)
Lemma running_goalAdmission : keep running any (goalAdmission W E).
Proof.
  apply keep_engine; unfold goalAdmission, admit_goals; [keep_tac|grow_tac].
Qed.
Lemma safe_checkPrerequisites l : steps (safe quiet) (checkPrerequisites W l).
Proof. induction l as [|[id c] l IH]; simpl; grow_tac. Qed.
Lemma keep_checkPrerequisites l : keep readable any (checkPrerequisites W l).
Proof. induction l as [|[id c] l IH]; simpl; keep_tac. Qed.
#[local] Hint Resolve safe_checkPrerequisites : steps.
#[local] Hint Resolve keep_checkPrerequisites : keep.
Lemma running_admit_prerequisites : keep running any (admit_prerequisites W E h).
Proof. apply keep_engine; unfold admit_prerequisites; [keep_tac|grow_tac]. Qed.
Lemma running_body worker input : keep running any (run_body W E h worker input).
Proof.
  apply keep_engine; unfold run_body.
  - apply keep_run_scope; [intros; by apply keep_ret|apply keep_exec].
  - apply grows_run_scope; [intros; apply steps_ret, _|apply grows_exec].
Qed.

(** *** The whole job, from its initial state *)
Lemma load_readable events s0 :
  load h = Some events → s0 = initial_run h events → running s0.
Proof.
  intros Hl ->. unfold load in Hl. destruct (forallb chapter_ok (jh_Chapters h) && _) eqn:Hok in Hl; [|done].
  injection Hl as <-. apply andb_true_iff in Hok as [Hc Hf]. split.
  - split; [|done]. simpl. apply Forall_app. split.
    + apply (Forall_fmap ev_record (λ r, DecodeExecutionRecord r = true)). rewrite history_events_records.
      clear Hf. induction (jh_Chapters h) as [|c l IH]; simpl in *; [done|].
      apply andb_true_iff in Hc as [Hc Hl]. apply Forall_app. split; [|by apply IH].
      unfold chapter_ok in Hc. rewrite forallb_forall in Hc. apply Forall_forall. intros r Hr%list_elem_of_In. auto.
    + destruct (jh_Final h) as [f|]; simpl in *; [|done]. apply Forall_fmap. unfold compose. simpl.
      rewrite forallb_forall in Hf. apply Forall_forall. intros r Hr%list_elem_of_In. auto.
  - split; simpl; [by intros [?|[]]|]. intros _. by apply Forall_singleton.
  - done.
Qed.
Lemma running_open events :
  load h = Some events → wp (open_history W E) (λ s' _, running s') (initial_run h events).
Proof.
  intros Hl. pose proof (load_readable _ _ Hl eq_refl) as Hrun. set (s := initial_run h events) in *.
  unfold open_history. apply wp_bind. unfold wp at 1. cbn [ask fst snd].
  change (ru_rest s) with (drop 0 events). rewrite drop_0. destruct events as [|e events]; simpl.
  - destruct (st_replay E); [done|]. apply wp_bind.
    pose proof (keep_append W E (header_record E) s (rn_readable _ Hrun)) as [Hr _].
    destruct (behind_append W E (header_record E) s eq_refl (rn_coherent _ Hrun)) as [Hc K].
    assert (running (appendLocked W E (header_record E) s).1) as Hrun1.
    { split; [done..|]. eapply executed_running; [apply K|apply Hrun]. }
    unfold wp at 1. destruct (appendLocked W E (header_record E) s) as [s1 [err|r]]; [done|].
    destruct Hrun1 as [? [??] ?]. by split; [|split|].
  - destruct (bool_decide _); [|done]. destruct Hrun as [Hr [_ Ht] Hx].
    split; [done| |done]. split; [by intros [?|[]]|done].
Qed.
Lemma settled_execution events worker :
  load h = Some events → wp (runExecution W E h worker) (λ s' _, settled h s') (initial_run h events).
Proof.
  intros Hl. pose proof (load_readable _ _ Hl eq_refl) as Hrun. unfold runExecution. apply wp_bind.
  eapply wp_mono with (Q := λ s1 r, settled h s1); [|intros s1 [e|r] Hs1; [done|by apply settled_oversize]].
  apply wp_as_reply. unfold execute.
  destruct (match jh_Final h with Some f => _ | None => false end).
  { by apply settled_recorded, running_settled. }
  apply wp_bind. unfold wp at 1. destruct (executionSnapshot _) as [m|input]; [by apply running_settled|]. cbn [fst snd].
  apply wp_bind. eapply wp_mono; [by apply running_open|]. intros s1 [e|[]] Hs1; [by apply running_settled|].
  revert s1 Hs1. match goal with |- ∀ s, _ → wp ?m _ s => change (ends m) end.
  eapply ends_bind; [apply running_goalAdmission|]. intros [e|] _.
  { intros s1 Hs1. by apply settled_refuse, running_settled. }
  eapply ends_bind; [apply running_admit_prerequisites|]. intros [e|] _.
  { intros s1 Hs1. by apply settled_refuse, running_settled. }
  eapply ends_bind; [apply running_body|]. intros r _. destruct (suspended_reply r); [|apply ends_finish].
  intros s1 Hs1. by apply running_settled.
Qed.
End job.
