(* ===== verification/WfFuel.v ===== *)
(** * WfFuel: the loops of the engine end

    Attempts and recorded dispatches are loops, modelled with fuel.  Every retry either
    consumes a recorded decision or is one of the attempts the policy allows, and every
    dispatch consumes a record, so the fuel they start with is always enough: no
    execution comes to [Diverged] unless the world or the program made that error up. *)

From S2P Require Import Prelude Types Json WfErrors WfHistory WfRun WfProgram WfMoves WfJob.

(** ** States, worlds and programs that do not diverge *)
Definition nd (e : option werr) : Prop := e ≠ Some Diverged.
Record calm (s : executionRun) : Prop := mkCalm {
  ca_causes : Forall (λ c, nd (cx_cause c)) (ru_contexts s);
  ca_fatal : nd (ru_fatal s)
}.
Definition forth (s s' : executionRun) : Prop := ru_events s' = ru_events s ∧ ru_cursor s ≤ ru_cursor s'.
#[export] Instance forth_preorder : PreOrder forth.
Proof. split; [by intros s|]. intros s1 s2 s3 [? ?] [? ?]. split; [congruence|lia]. Qed.

Record settled_world (W : World) : Prop := mkSettledWorld {
  sw_root : ∀ n, nd (w_root W n);
  sw_complete : ∀ n f, nd (w_complete W n f);
  sw_worker : ∀ n id ty i, nd (w_worker W n id ty i).2;
  sw_job : ∀ n id, w_job W n id ≠ JobLookupFailed Diverged;
  sw_wait : ∀ n id, w_wait W n id ≠ WaitLookupFailed Diverged
}.
Definition reply_nd {A} (r : A * option werr) : Prop := nd r.2.
Definition caught_nd (c : caught) : Prop :=
  match c with inl e => e ≠ Diverged | inr r => nd (ca_Err r) end.
(** A program that returns errors it was given or ordinary ones. *)
Fixpoint settled_prog {R : Type} (ok : R → Prop) (p : prog R) : Prop :=
  match p with
  | Return r => ok r
  | DoTask call rules handle build k =>
      (∀ rule e, e ≠ Diverged → settled_prog caught_nd (handle rule e)) ∧ reply_nd build ∧
      (∀ r, reply_nd r → settled_prog ok (k r))
  | DoScope site opts rules handle body k =>
      (∀ rule e, e ≠ Diverged → settled_prog caught_nd (handle rule e)) ∧ settled_prog reply_nd body ∧
      (∀ r, reply_nd r → settled_prog ok (k r))
  | AwaitDuration d k => ∀ e, nd e → settled_prog ok (k e)
  | AwaitJobs ids k => ∀ e, nd e → settled_prog ok (k e)
  | AwaitDependencies deps k => ∀ r, nd r.2 → settled_prog ok (k r)
  end.

(** ** Triples *)
Definition result_ok {A} (V : A → Prop) (r : werr + A) : Prop :=
  match r with inr a => V a | inl e => e ≠ Diverged end.
Definition fin {A} (V : A → Prop) (m : exe A) : Prop :=
  ∀ s, calm s → wp m (λ s' r, calm s' ∧ forth s s' ∧ result_ok V r) s.

Lemma fin_bind {A B} (V : A → Prop) (V' : B → Prop) (m : exe A) (k : A → exe B) :
  fin V m → (∀ a, V a → fin V' (k a)) → fin V' (m ≫= k).
Proof.
  intros Hm Hk s Hs. apply wp_bind. eapply wp_mono; [by apply Hm|]. intros s1 [e|a] (Hc & Hf & Hr); [done|].
  eapply wp_mono; [by apply Hk|]. intros s2 r (? & ? & ?). split; [done|]. split; [by etrans|done].
Qed.
Lemma fin_ret {A} (V : A → Prop) a : V a → fin V (mret a).
Proof. by intros Ha s. Qed.
Lemma fin_throw {A} (V : A → Prop) e : e ≠ Diverged → fin V (throw e).
Proof. by intros He s. Qed.
Lemma fin_ask {A} (V : A → Prop) (f : executionRun → A) : (∀ s, calm s → V (f s)) → fin V (ask f).
Proof. intros Hf s Hs. split; [done|]. split; [done|by apply Hf]. Qed.
Lemma fin_fail_if (V : () → Prop) b e : e ≠ Diverged → V tt → fin V (fail_if b e).
Proof. by intros He Hv s; destruct b. Qed.
Lemma fin_lift_error {A} (V : A → Prop) (r : string + A) : (∀ a, r = inr a → V a) → fin V (lift_error r).
Proof. intros Hr s. destruct r; [done|]. intros Hs. split; [done|]. split; [done|by apply Hr]. Qed.
Lemma fin_mono {A} (V V' : A → Prop) m : fin V m → (∀ a, V a → V' a) → fin V' m.
Proof.
  intros Hm HV s Hs. eapply wp_mono; [by apply Hm|]. intros s' [e|a] (? & ? & Hr); [done|].
  split; [done|]. split; [done|by apply HV].
Qed.
Lemma fin_as_reply {A} (m : exe (option A * option werr)) : fin reply_nd m → fin reply_nd (as_reply m).
Proof.
  intros Hm s Hs. apply wp_as_reply. eapply wp_mono; [by apply Hm|]. intros s' [e|a] (? & ? & Hr); [|done].
  split; [done|]. split; [done|]. by intros [= ->].
Qed.
Lemma fin_change f :
  (∀ s, calm s → calm (f s)) → (∀ s, forth s (f s)) → fin (λ _, True) (change f).
Proof. intros Hc Hf s Hs. split; [by apply Hc|]. split; [apply Hf|done]. Qed.
Lemma fin_asks {A} (V : A → Prop) (f : nat → A) : (∀ n, V (f n)) → fin V (asks f).
Proof. intros Hf s [? ?]. split; [done|]. split; [done|apply Hf]. Qed.
Definition whatever {A} (a : A) : Prop := True.

Create HintDb fin.
#[export] Hint Extern 1 (fin _ (ask _)) => by apply fin_ask : fin.
#[export] Hint Extern 1 (fin _ (fail_if _ _)) => by apply fin_fail_if : fin.
#[export] Hint Extern 1 (fin _ (throw _)) => by apply fin_throw : fin.
#[export] Hint Extern 1 (fin _ (mret _)) => by apply fin_ret : fin.
#[export] Hint Extern 1 (fin _ (lift_error _)) => by apply fin_lift_error : fin.
#[export] Hint Extern 1 (fin _ (asks _)) => by apply fin_asks : fin.
Ltac fin_tac :=
  repeat first
    [ progress intros
    | solve [eauto with fin nocore]
    | match goal with
      | |- fin reply_nd (as_reply _) => apply fin_as_reply
      | |- fin _ (change _ ≫= _) => eapply fin_bind; [apply fin_change; solve [by intros ? []|done]|]
      | |- fin _ (_ ≫= _) => eapply fin_bind; [solve [eauto with fin nocore]|]
      | |- fin _ (_ ≫= _) => apply (fin_bind whatever)
      | |- fin _ (change _) => eapply fin_mono; [apply fin_change; solve [by intros ? []|done]|done]
      | |- fin _ (match ?x with _ => _ end) => destruct x
      | |- fin _ (let '(_, _) := ?x in _) => destruct x
      end ].

Section fuel.
Context `{BackoffMath} `{ExecutionText} `{FailureText} (W : World) (E : Settings) (HW : settled_world W).

(** *** Contexts *)
Lemma nd_cancel n e l : e ≠ Diverged → Forall (λ c, nd (cx_cause c)) l → Forall (λ c, nd (cx_cause c)) (cancel_from n e l).
Proof.
  rewrite !Forall_lookup. intros He Hl i c Hc. apply cancel_lookup in Hc as (c0 & Hc0 & Hcc).
  specialize (Hl _ _ Hc0). destruct Hcc as [->| ->]; [done|]. unfold set_cause.
  destruct (cx_cause c0) eqn:Hc; [by rewrite Hc|]. simpl. by intros [= ->].
Qed.
Lemma timeout_nd c : timeout_of c ≠ Diverged.
Proof. unfold timeout_of. by destruct (_ && _). Qed.
Lemma nd_fires t ds l : Forall (λ c, nd (cx_cause c)) l → Forall (λ c, nd (cx_cause c)) (foldl (fire t) l ds).
Proof.
  revert l. induction ds as [|d ds IH]; intros l Hl; [done|]. simpl. apply IH. unfold fire.
  destruct (context_at d l); [|done]. case_match; [apply nd_cancel; [apply timeout_nd|done]|done].
Qed.
Lemma calm_contexts s s' :
  ru_fatal s' = ru_fatal s → calm s → Forall (λ c, nd (cx_cause c)) (ru_contexts s') → calm s'.
Proof. intros Hf' [_ Hf] Hl. split; [done|by rewrite Hf']. Qed.
Lemma fin_observe : fin whatever (observe W).
Proof.
  intros s [Hc Hf]. split; [|done]. split; [|done]. simpl. apply nd_fires. pose proof (sw_root W HW (ru_tick s)) as Hr.
  destruct (w_root W _) as [e|]; [|done]. apply nd_cancel; [|done]. by intros ->.
Qed.
#[local] Hint Resolve fin_observe : fin.
Lemma fin_cause : fin nd (cause W).
Proof.
  unfold cause. apply (fin_bind whatever); [apply fin_observe|intros _ _]. apply fin_ask. intros s [Hc _].
  destruct (ru_contexts s) as [|c l]; [done|]. by apply Forall_cons in Hc as [? _].
Qed.
Lemma fin_check_cause : fin whatever (check_cause W).
Proof.
  unfold check_cause. eapply fin_bind; [apply fin_cause|]. intros [e|] He; [|by apply fin_ret].
  apply fin_throw. by intros ->.
Qed.
Lemma fin_controlLocked {A} (V : A → Prop) c : fin V (controlLocked c).
Proof.
  intros s [Hc Hf]. unfold wp, controlLocked. destruct (ru_fatal s) as [e|] eqn:He; simpl.
  - split; [split; [done|by rewrite He]|]. split; [done|]. by intros ->.
  - split; [split; [by apply nd_cancel|done]|]. by split.
Qed.
Lemma fin_suspend {A} (V : A → Prop) : fin V suspend.
Proof. intros s [Hc Hf]. split; [split; [by apply nd_cancel|done]|by split]. Qed.
#[local] Hint Resolve fin_check_cause fin_controlLocked fin_suspend : fin.
Lemma fin_armLocked d : fin whatever (armLocked W d).
Proof.
  intros s Hs. unfold armLocked, wp. unfold mbind, exe_bind, ask. simpl.
  destruct (context_at d (ru_contexts s)) as [c|] eqn:Hc; [|done]. destruct (IsZero (cx_deadline c)); [done|].
  unfold now, asks, change. simpl. destruct (negb _); simpl; (split; [|done]).
  - apply (calm_contexts s); [done|done|]. apply nd_cancel; [apply timeout_nd|apply Hs].
  - apply (calm_contexts s); [done|done|]. simpl. apply context_at_spec in Hc as [_ Hc].
    destruct Hs as [Hl _]. rewrite Forall_lookup in Hl.
    apply Forall_insert; [by apply Forall_lookup|]. by apply (Hl _ _ Hc).
Qed.
#[local] Hint Resolve fin_armLocked : fin.
Lemma fin_arm_all ds : fin whatever (arm_all W ds).
Proof. induction ds; simpl; fin_tac. Qed.
#[local] Hint Resolve fin_arm_all : fin.
Lemma fin_checkLocked : fin whatever (checkLocked W).
Proof.
  unfold checkLocked. apply (fin_bind whatever); [fin_tac|intros sus _]. apply (fin_bind whatever); [fin_tac|intros _ _].
  apply (fin_bind nd); [apply fin_ask; by intros s [_ ?]|]. intros fatal Hfat.
  apply (fin_bind whatever); [|fin_tac]. destruct fatal as [e|]; [|fin_tac]. apply fin_throw. by intros ->.
Qed.
#[local] Hint Resolve fin_checkLocked : fin.
Lemma fin_liveLocked : fin whatever (liveLocked W E).
Proof. unfold liveLocked. fin_tac. Qed.
#[local] Hint Resolve fin_liveLocked : fin.
Lemma fin_peek : fin whatever peek.
Proof. intros s [??]. split; [done|]. split; [|done]. split; [done|]. simpl. lia. Qed.
#[local] Hint Resolve fin_peek : fin.
Lemma fin_at_frontier : fin whatever at_frontier.
Proof. unfold at_frontier. fin_tac. Qed.
#[local] Hint Resolve fin_at_frontier : fin.
Lemma fin_checkInvocation : fin whatever (checkInvocation W E).
Proof. unfold checkInvocation. fin_tac. Qed.
#[local] Hint Resolve fin_checkInvocation : fin.
Lemma fin_child id deadline total : fin whatever (child W id deadline total).
Proof.
  unfold child. apply (fin_bind whatever); [|fin_tac]. eapply fin_mono; [apply fin_change|done]; [|done].
  intros s [Hc Hf]. split; [|done]. simpl. apply Forall_cons. split; [|done]. unfold new_child. simpl.
  destruct (ru_contexts s) as [|c l]; [done|]. by apply Forall_cons in Hc as [? _].
Qed.
Lemma fin_close : fin whatever close.
Proof.
  eapply fin_mono; [apply fin_change|done]; [|done]. intros s [Hc Hf]. split; [|done]. simpl.
  destruct (ru_contexts s); [done|]. by apply Forall_cons in Hc as [_ ?].
Qed.
Lemma fin_change_current f : (∀ c, cx_cause (f c) = cx_cause c) → fin whatever (change_current f).
Proof.
  intros Hcf. eapply fin_mono; [apply fin_change|done]; [|done]. intros s [Hc Hf]. split; [|done]. simpl.
  destruct (ru_contexts s); [done|]. apply Forall_cons in Hc as [? ?]. apply Forall_cons. by rewrite Hcf.
Qed.
#[local] Hint Resolve fin_child fin_close : fin.
#[local] Hint Extern 2 (fin _ (change_current _)) => by apply fin_change_current : fin.
Lemma fin_occurrence kind site : fin whatever (occurrence W kind site).
Proof. unfold occurrence, current_id. fin_tac. Qed.
#[local] Hint Resolve fin_occurrence : fin.

(** *** The log *)
Lemma fin_note_outcome r : fin whatever (note_outcome r).
Proof. unfold note_outcome. fin_tac. Qed.
Lemma fin_note_wake r : fin whatever (note_wake r).
Proof. unfold note_wake. fin_tac. Qed.
Lemma fin_emit x : fin whatever (emit x).
Proof. unfold emit. fin_tac. Qed.
Lemma fin_now : fin whatever (now W).
Proof. by apply fin_asks. Qed.
#[local] Hint Resolve fin_note_outcome fin_note_wake fin_emit fin_now : fin.
Lemma fin_default_at r : fin whatever (default_at W r).
Proof. unfold default_at. fin_tac. Qed.
Lemma fin_put ch : fin whatever (put W ch).
Proof. unfold put. fin_tac. Qed.
#[local] Hint Resolve fin_default_at fin_put : fin.
Lemma fin_appendLocked r : fin whatever (appendLocked W E r).
Proof. unfold appendLocked. fin_tac. Qed.
#[local] Hint Resolve fin_appendLocked : fin.
Lemma fin_activateLocked : fin whatever (activateLocked W E).
Proof. unfold activateLocked. fin_tac. Qed.
#[local] Hint Resolve fin_activateLocked : fin.
Lemma fin_consume kind id e : fin whatever (consume kind id e).
Proof.
  unfold consume, mismatch. destruct (_ && _).
  - apply (fin_bind whatever); [|fin_tac]. eapply fin_mono; [apply fin_change|done]; [by intros ? []|].
    intros s. split; [done|]. simpl. lia.
  - destruct (_ && _); fin_tac.
Qed.
#[local] Hint Resolve fin_consume : fin.
Lemma fin_recordEvent kind id build deferred : fin whatever build → fin whatever (recordEvent W E kind id build deferred).
Proof. intros Hb. unfold recordEvent, commit. fin_tac. Qed.
Lemma fin_record_event kind id build : fin whatever build → fin whatever (record_event W E kind id build).
Proof. apply fin_recordEvent. Qed.
#[local] Hint Extern 2 (fin _ (record_event _ _ _ _ _)) => apply fin_record_event; solve [fin_tac] : fin.
#[local] Hint Extern 2 (fin _ (recordEvent _ _ _ _ _ _)) => apply fin_recordEvent; solve [fin_tac] : fin.
Lemma fin_progressTime : fin whatever (progressTime W).
Proof. unfold progressTime. fin_tac. Qed.
Lemma fin_checkpointPath : fin whatever (checkpointPath W E).
Proof. unfold checkpointPath, current_id. fin_tac. Qed.
#[local] Hint Resolve fin_progressTime fin_checkpointPath : fin.
Lemma fin_invoke {A} (fn : exe (option A * option werr)) : fin reply_nd fn → fin reply_nd (invoke W E fn).
Proof.
  intros Hfn. unfold invoke. apply fin_as_reply. apply (fin_bind whatever); [fin_tac|intros _ _].
  eapply fin_bind; [exact Hfn|]. intros r Hr. apply (fin_bind whatever); fin_tac.
Qed.
Lemma fin_finishOutcome kind id out bodyErr input deferred retry :
  nd bodyErr → fin whatever (finishOutcome W E kind id out bodyErr input deferred retry).
Proof.
  intros Hb. unfold finishOutcome. apply (fin_bind whatever).
  { destruct bodyErr as [e|]; [|fin_tac]. apply fin_fail_if; [|done]. by intros ->. }
  intros _ _. fin_tac.
Qed.
Lemma fin_finishBody kind id out bodyErr input retry :
  nd bodyErr → fin whatever (finishBody W E kind id out bodyErr input retry).
Proof. apply fin_finishOutcome. Qed.
Lemma nd_result r : nd (resultData r).2.
Proof. unfold resultData. simpl. by destruct (er_Error r). Qed.

(** *** Waiting, catching and retrying *)
Lemma fin_reschedule r : fin whatever (reschedule W r).
Proof. unfold reschedule. fin_tac. Qed.
#[local] Hint Resolve fin_reschedule : fin.
Lemma fin_sleep_until wake : fin whatever (sleep_until W E wake).
Proof. unfold sleep_until. fin_tac. Qed.
#[local] Hint Resolve fin_sleep_until : fin.
Lemma fin_waitUntil wake total : fin whatever (waitUntil W E wake total).
Proof. unfold waitUntil, current_deadline. fin_tac. Qed.
Lemma fin_match_descriptor r d : fin whatever (match_descriptor r d).
Proof. unfold match_descriptor. fin_tac. Qed.
Lemma fin_before_limit total : fin whatever (before_limit W total).
Proof. unfold before_limit. fin_tac. Qed.
#[local] Hint Resolve fin_waitUntil fin_match_descriptor fin_before_limit : fin.
Lemma nd_match_rules rules failure : nd (match_rules rules failure).2.
Proof. induction rules as [|r rules IH]; simpl; [done|]. by destruct (cr_Match r failure) as [|[]]. Qed.
Lemma fin_selection_of v : nd v.2 → fin whatever (selection_of v).
Proof.
  intros Hv. unfold selection_of. destruct v as [o [e|]]; simpl in Hv.
  - assert (fin whatever (if isExecutionControl e then throw e
      else mret (empty_record <| er_Error := Some (error_payload e) |>))) as Hs; [|by destruct o].
    destruct (isExecutionControl e); [|by apply fin_ret]. apply fin_throw. by intros ->.
  - destruct o; by apply fin_ret.
Qed.
Lemma fin_select_rule id total rules failure : fin whatever (select_rule W E id total rules failure).
Proof.
  unfold select_rule, current_deadline. apply (fin_bind whatever); [fin_tac|intros [] _]; [|fin_tac].
  apply (fin_bind whatever); [fin_tac|intros [] _]; [|fin_tac]. do 2 (apply (fin_bind whatever); [fin_tac|intros ? _]).
  eapply fin_bind; [apply fin_invoke, fin_ret, nd_match_rules|]. intros v Hv.
  apply (fin_bind whatever); [fin_tac|intros _ _]. by apply fin_selection_of.
Qed.
Lemma nd_handler_record p failure retryable c : caught_nd c → nd (handler_record p failure retryable c).2.
Proof.
  intros Hc. unfold handler_record. destruct c as [e|r]; simpl; [by intros [= ->]|].
  by destruct (recordResult _ _).
Qed.
Lemma fin_handle_with id total p rule handler bodyErr failure retryable :
  fin caught_nd handler → fin whatever (handle_with W E id total p rule handler bodyErr failure retryable).
Proof.
  intros Hh. unfold handle_with, current_deadline. do 2 (apply (fin_bind whatever); [fin_tac|intros ? _]).
  eapply fin_bind; [apply fin_invoke|].
  { eapply fin_bind; [exact Hh|]. intros c Hc. by apply fin_ret, nd_handler_record. }
  intros h Hnd. apply (fin_bind whatever); [fin_tac|intros _ _]. apply (fin_bind whatever).
  { destruct h.2 as [e|] eqn:He; [|fin_tac]. apply fin_fail_if; [|done]. unfold reply_nd in Hnd. rewrite He in Hnd.
    by intros ->. }
  fin_tac.
Qed.
Lemma fin_catch_failure id total p rules handler out bodyErr retryable :
  bodyErr ≠ Diverged → (∀ rule e, e ≠ Diverged → fin caught_nd (handler rule e)) →
  fin (λ st, nd (fs_err st)) (catch_failure W E id total p rules handler out bodyErr retryable).
Proof.
  intros He Hh. unfold catch_failure. do 2 (apply (fin_bind whatever); [fin_tac|intros ? _]).
  eapply fin_bind; [apply fin_select_rule|intros v _]. apply (fin_bind whatever); [fin_tac|intros selection _].
  set (st := match er_Error selection with Some _ => _ | None => _ end).
  assert (nd (fs_err st)) as Hst.
  { subst st. destruct (er_Error selection) eqn:Hes; simpl; [by rewrite Hes|]. by intros [= ->]. }
  destruct (str_empty (er_Rule selection)); [by apply fin_ret|].
  destruct (bool_decide _); [|apply fin_controlLocked].
  eapply fin_bind; [apply fin_handle_with, Hh|intros r _].
  - destruct (fs_err st) as [e|]; [|done]. simpl. by intros ->.
  - apply fin_ret. simpl. apply nd_result.
Qed.
Lemma fin_decision_record total p attempt st : fin whatever (decision_record W total p attempt st).
Proof. unfold decision_record. fin_tac. Qed.
#[local] Hint Resolve fin_decision_record : fin.
(** A retry has consumed its decision or is one of the attempts the policy allows. *)
Definition progress (p : executionPolicy) (attempt : Z) (s s' : executionRun) : Prop :=
  length (ru_rest s') < length (ru_rest s) ∨ (attempt < rt_MaximumAttempts (xp_Retry p))%Z.
Lemma forth_rest s s' : forth s s' → length (ru_rest s') ≤ length (ru_rest s).
Proof. intros [He Hc]. unfold ru_rest. rewrite He, !length_drop. lia. Qed.
Lemma consume_rest kind id e s :
  at_next e s → wp (consume kind id e) (λ s' r, match r with
    | inr _ => length (ru_rest s') < length (ru_rest s) | inl _ => True end) s.
Proof.
  intros [He _]. unfold consume, mismatch. destruct (_ && _).
  - apply wp_bind. unfold wp at 1. cbn [fst snd change].
    match goal with |- wp _ _ ?x => set (s1 := x); destruct (noted (ev_record e) s1) as (s2 & Hn & [K _ _ _] & _) end.
    unfold wp. rewrite Hn. simpl. pose proof (sk_events _ _ K) as Hev. pose proof (sk_cursor _ _ K) as Hcu.
    apply lookup_lt_Some in He. unfold ru_rest. rewrite Hev, !length_drop. subst s1. simpl in *. lia.
  - destruct (_ && _); [done|]. unfold wp, controlLocked. by destruct (ru_fatal s).
Qed.
Lemma decision_allowed total p attempt st s s' r :
  decision_record W total p attempt st s = (s', inr r) → er_Retry r = true →
  (attempt < rt_MaximumAttempts (xp_Retry p))%Z.
Proof.
  intros Hr Hretry. destruct (Z.ltb_spec attempt (rt_MaximumAttempts (xp_Retry p))) as [|Hge]; [done|exfalso].
  unfold decision_record in Hr. rewrite (proj2 (Z.ltb_ge _ _) Hge), !andb_false_r in Hr. cbn in Hr.
  injection Hr as _ <-. done.
Qed.
Lemma decision_progress id total p attempt st s :
  calm s →
  wp (record_event W E KDecision id (decision_record W total p attempt st)) (λ s' r, match r with
    | inr d => er_Retry d = true → progress p attempt s s' | inl _ => True end) s.
Proof.
  intros Hs. unfold record_event, recordEvent. apply wp_bind.
  eapply wp_mono; [by apply fin_checkLocked|]. intros s1 [e|[]]; [done|]. intros (Hs1 & Hf1 & _).
  apply wp_bind. unfold wp at 1. pose proof (peek_next s1) as Hp. pose proof (fin_peek s1 Hs1) as (Hs2 & Hf2 & _).
  destruct (peek s1) as [s2 [err|[e|]]]; simpl in *; [done| |].
  - eapply wp_mono; [by apply consume_rest|]. intros s3 [err|d]; [done|]. intros Hlt _. left.
    apply forth_rest in Hf1, Hf2. lia.
  - rewrite andb_false_r. eapply wp_mono; [by apply commit_record|]. intros s3 [err|d]; [done|].
    intros (s0 & s4 & r0 & Hb & [Hn _ _]) Hretry. right. eapply decision_allowed; [exact Hb|].
    apply (f_equal er_Retry) in Hn. destruct d, r0. simpl in *. congruence.
Qed.
Definition attempt_ok (p : executionPolicy) (attempt : Z) (s s' : executionRun) (r : werr + reply * bool) : Prop :=
  match r with
  | inr (r, retry) => reply_nd r ∧ (retry = true → progress p attempt s s')
  | inl e => e ≠ Diverged
  end.
Lemma handleFailure_fin id total p rules handler attempt out bodyErr retryable s :
  nd bodyErr → (∀ rule e, e ≠ Diverged → fin caught_nd (handler rule e)) → calm s →
  wp (handleFailure W E id total p rules handler attempt out bodyErr retryable)
    (λ s' r, calm s' ∧ forth s s' ∧ attempt_ok p attempt s s' r) s.
Proof.
  intros Hb Hh Hs. unfold handleFailure. destruct bodyErr as [e|]; [|by split].
  destruct (_ && _); [by split|]. apply wp_bind.
  eapply wp_mono; [apply fin_catch_failure; [by intros ->|done|done]|].
  intros s1 [err|st] (Hs1 & Hf1 & Hst); [done|]. apply wp_bind.
  unfold wp at 1. pose proof (decision_progress id total p attempt st s1 Hs1) as Hpr. unfold wp in Hpr.
  destruct (fin_record_event KDecision id (decision_record W total p attempt st) (fin_decision_record _ _ _ _) s1 Hs1)
    as (Hs2 & Hf2 & Hr2). destruct (record_event W E KDecision id _ s1) as [s2 [err|d]]; simpl in *.
  { split; [done|]. by split; [etrans|]. }
  apply wp_bind. eapply wp_mono with (Q := λ s3 r, calm s3 ∧ forth s2 s3 ∧ result_ok whatever r).
  { destruct (er_Retry d); [by apply fin_waitUntil|by apply fin_ret]. }
  intros s3 [err|[]] (Hs3 & Hf3 & Hr3).
  { split; [done|]. split; [by do 2 (etrans; [eassumption|])|done]. }
  split; [done|]. split; [by do 2 (etrans; [eassumption|])|]. split; [done|]. intros Hd.
  destruct (Hpr Hd) as [Hlt|?]; [left|by right]. apply forth_rest in Hf1, Hf3.
  cbn [mret exe_ret fst]. lia.
Qed.

(** *** Scopes *)
Lemma fin_declare_scope id policy significant : fin whatever (declare_scope W E id policy significant).
Proof. unfold declare_scope. fin_tac. Qed.
Lemma scope_attempt_fin site id policy significant total attempt rules handler body s :
  (∀ rule e, e ≠ Diverged → fin caught_nd (handler rule e)) → fin reply_nd body → calm s →
  wp (scope_attempt W E site id policy significant total attempt rules handler body)
    (λ s' r, calm s' ∧ forth s s' ∧ attempt_ok policy attempt s s' r) s.
Proof.
  intros Hh Hb Hs.
  assert (∀ A (V : A → Prop) (m : exe A) (k : A → exe (reply * bool)) s0,
    fin V m → (∀ a s1, V a → calm s1 → wp (k a) (λ s' r, calm s' ∧ forth s1 s' ∧ attempt_ok policy attempt s1 s' r) s1) →
    calm s0 → wp (m ≫= k) (λ s' r, calm s' ∧ forth s0 s' ∧ attempt_ok policy attempt s0 s' r) s0) as Hbind.
  { intros A V m k s0 Hm Hk H0'. apply wp_bind. eapply wp_mono; [by apply Hm|].
    intros s1 [e|a] (Hs1 & Hf1 & Hr1); [done|]. eapply wp_mono; [by apply Hk|]. intros s2 r (Hs2 & Hf2 & Hr2).
    split; [done|]. split; [by etrans|]. destruct r as [e|[r retry]]; [done|]. destruct Hr2 as [? Hpr]. split; [done|].
    intros Hretry. destruct (Hpr Hretry); [left|by right]. apply forth_rest in Hf1. lia. }
  unfold scope_attempt. apply (Hbind _ whatever); [fin_tac| |done]. intros at_ s1 _ Hs1.
  apply (Hbind _ whatever); [destruct significant; fin_tac| |done]. intros start s2 _ Hs2.
  apply (Hbind _ whatever); [fin_tac| |done]. intros _ s3 _ Hs3.
  apply (Hbind _ whatever); [fin_tac| |done]. intros _ s4 _ Hs4.
  apply (Hbind _ reply_nd); [by apply fin_invoke| |done]. intros r s5 Hr Hs5.
  apply (Hbind _ whatever); [fin_tac| |done]. intros _ s6 _ Hs6.
  apply (Hbind _ whatever); [fin_tac| |done]. intros next s7 _ Hs7.
  destruct (_ || _ || _) in |- *; [|by apply handleFailure_fin].
  apply (Hbind _ whatever); [by apply fin_finishOutcome| |done]. intros rec s8 _ Hs8.
  apply handleFailure_fin; [apply nd_result|done|done].
Qed.
(** Enough fuel for the events that are left and the attempts that are allowed. *)
Definition enough (fuel : nat) (p : executionPolicy) (attempt : Z) (s : executionRun) : Prop :=
  length (ru_rest s) + Z.to_nat (rt_MaximumAttempts (xp_Retry p) - attempt) < fuel.
Lemma enough_next fuel p attempt s s' :
  enough (S fuel) p attempt s → forth s s' → progress p attempt s s' → enough fuel p (attempt + 1) s'.
Proof. unfold enough, progress. intros Hen Hf%forth_rest [?|?]; lia. Qed.
Lemma scope_attempts_fin fuel site id policy significant total attempt rules handler body s :
  enough fuel policy attempt s →
  (∀ rule e, e ≠ Diverged → fin caught_nd (handler rule e)) → fin reply_nd body → calm s →
  wp (scope_attempts W E fuel site id policy significant total attempt rules handler body)
    (λ s' r, calm s' ∧ forth s s' ∧ result_ok reply_nd r) s.
Proof.
  intros Hen Hh Hb. revert attempt s Hen. induction fuel as [|fuel IH]; intros attempt s Hen Hs.
  { unfold enough in Hen. lia. }
  simpl. apply wp_bind. eapply wp_mono; [by apply scope_attempt_fin|].
  intros s1 [e|[r retry]] (Hs1 & Hf1 & Hr); [done|]. destruct Hr as [Hr Hpr]. destruct retry; [|done].
  eapply wp_mono; [apply IH; [by eapply enough_next; [| |apply Hpr]|done]|].
  intros s2 r2 (? & ? & ?). split; [done|]. by split; [etrans|].
Qed.
(** A computation that starts with as much fuel as its state asks for. *)
Lemma fin_fuelled {B} (V : B → Prop) p (k : nat → exe B) :
  (∀ fuel s, enough fuel p 1 s → calm s → wp (k fuel) (λ s' r, calm s' ∧ forth s s' ∧ result_ok V r) s) →
  fin V (attempt_fuel p ≫= k).
Proof. intros Hk s Hs. apply wp_bind. unfold wp at 1. cbn. apply Hk; [|done]. unfold enough. lia. Qed.
Lemma fin_run_scope site opts rules handler body :
  (∀ rule e, e ≠ Diverged → fin caught_nd (handler rule e)) → fin reply_nd body →
  fin reply_nd (run_scope W E site opts rules handler body).
Proof.
  intros Hh Hb. unfold run_scope, current_deadline. apply fin_as_reply.
  apply (fin_bind whatever); [fin_tac|intros id _]. apply (fin_bind whatever); [by apply fin_lift_error|intros p0 _].
  apply (fin_bind whatever); [fin_tac|intros next _]. destruct (scope_policy site id p0 next) as [policy significant].
  apply (fin_bind whatever); [apply fin_declare_scope|intros [entry policy'] _].
  apply (fin_bind whatever); [fin_tac|intros deadline _]. apply fin_fuelled. intros fuel s Hen Hs.
  by apply scope_attempts_fin.
Qed.

(** *** Tasks *)
Lemma fin_invokeTask id taskType input : fin reply_nd (invokeTask W E id taskType input).
Proof.
  unfold invokeTask. apply fin_as_reply. do 2 (apply (fin_bind whatever); [fin_tac|intros _ _]).
  apply fin_invoke. apply (fin_bind whatever); [fin_tac|intros _ _]. apply fin_asks. intros n. apply HW.
Qed.
Lemma fin_wait_record call input deadline total st : fin whatever (wait_record W call input deadline total st).
Proof. unfold wait_record. fin_tac. Qed.
#[local] Hint Resolve fin_wait_record : fin.
Lemma recorded_progress kind id e s :
  at_next e s → calm s → wp (record_event W E kind id (mret empty_record)) (λ s' r, calm s' ∧ forth s s' ∧ match r with
    | inr _ => length (ru_rest s') < length (ru_rest s) | inl e => e ≠ Diverged end) s.
Proof.
  intros He Hs. destruct (fin_record_event kind id (mret empty_record) (fin_ret _ _ I) s Hs) as (Hs' & Hf & Hr).
  split; [done|]. split; [done|]. revert Hr. unfold record_event. rewrite (recordEvent_at W E e) by done.
  unfold mbind, exe_bind. pose proof (still_checkLocked W s) as [Hev Hcu].
  destruct (checkLocked W s) as [s1 [err|[]]]; [done|]. simpl in Hev, Hcu.
  assert (at_next e s1) as He1 by (destruct He; split; [by rewrite Hev, Hcu|done]).
  pose proof (consume_rest kind id e s1 He1) as Hc. unfold wp in Hc. unfold ru_rest in Hc at 2.
  rewrite Hev, Hcu in Hc. fold (ru_rest s) in Hc. by destruct (consume kind id e s1) as [s2 [err|r]].
Qed.
Lemma dispatches_fin fuel call id st dispatched positions s :
  length (ru_rest s) < fuel → calm s →
  wp (dispatches W E fuel call id st dispatched positions) (λ s' r, calm s' ∧ forth s s' ∧ result_ok whatever r) s.
Proof.
  revert st dispatched positions s. induction fuel as [|fuel IH]; intros st dispatched positions s Hen Hs; [lia|].
  simpl. apply wp_bind. unfold wp at 1. pose proof (peek_next s) as Hp. pose proof (fin_peek s Hs) as (Hs1 & Hf1 & _).
  destruct (peek s) as [s1 [err|[e|]]]; cbn [fst snd] in *; [done| |done].
  destruct (recorded_at KDispatch id (Some e)); [|done].
  apply wp_bind. eapply wp_mono; [by apply (recorded_progress _ _ e)|]. intros s2 [err|r] (Hs2 & Hf2 & Hlt).
  { split; [done|]. by split; [etrans|]. }
  assert (forth s s2) as Hf by by etrans.
  destruct (dispatch_conflict call st (er_ExecutionTaskType r)).
  - eapply wp_mono; [by apply (fin_controlLocked whatever)|]. intros s3 r3 (? & ? & ?). split; [done|]. by split; [etrans|].
  - eapply wp_mono; [apply IH; [apply forth_rest in Hf1; lia|done]|].
    intros s3 r3 (? & ? & ?). split; [done|]. by split; [etrans|].
Qed.
Lemma fin_acquired call id st dispatched matching : fin whatever (acquired W E call id st dispatched matching).
Proof. unfold acquired. fin_tac. Qed.
Lemma fin_external_request call st deadline ordinal output hash :
  fin whatever (external_request W E call st deadline ordinal output hash).
Proof. unfold external_request. fin_tac. Qed.
#[local] Hint Resolve fin_acquired fin_external_request fin_invokeTask : fin.
#[local] Hint Extern 3 (fin whatever (finishBody _ _ _ _ _ _ _ _)) => apply fin_finishBody; done : fin.
Lemma fin_execute_here call id rec total taskType : fin whatever (execute_here W E call id rec total taskType).
Proof.
  unfold execute_here. apply (fin_bind whatever); [fin_tac|intros _ _].
  eapply fin_bind; [apply fin_invokeTask|intros r Hr]. apply (fin_bind whatever); [fin_tac|intros _ _].
  by apply fin_finishBody.
Qed.
#[local] Hint Resolve fin_execute_here : fin.
Lemma fin_unanswered call id rec total ordinal st dispatched positions :
  fin whatever (unanswered W E call id rec total ordinal st dispatched positions).
Proof. unfold unanswered. fin_tac. Qed.
#[local] Hint Resolve fin_unanswered : fin.
Lemma fin_externalTask call id input deadline total st :
  fin whatever (externalTask W E call id input deadline total st).
Proof.
  unfold externalTask. apply (fin_bind whatever); [fin_tac|intros rec _].
  do 2 (apply (fin_bind whatever); [fin_tac|intros ? _]).
  assert (∀ B (V : B → Prop) (k : nat → exe B),
    (∀ fuel s, length (ru_rest s) < fuel → calm s → wp (k fuel) (λ s' r, calm s' ∧ forth s s' ∧ result_ok V r) s) →
    fin V (ask (λ s, S (length (ru_rest s))) ≫= k)) as Hfuel.
  { intros B V k Hk s Hs. apply wp_bind. unfold wp at 1. cbn. apply Hk; [lia|done]. }
  apply Hfuel. intros fuel s Hen Hs. apply wp_bind. eapply wp_mono; [by apply dispatches_fin|].
  intros s1 [e|[[st' d] ps]] (Hs1 & Hf1 & Hr1); [done|].
  match goal with |- wp ?m _ _ => assert (fin whatever m) as Hm; [|revert Hm; generalize m; intros m0 Hm] end.
  { fin_tac. }
  eapply wp_mono; [by apply Hm|]. intros s2 r (? & ? & ?). split; [done|]. by split; [etrans|].
Qed.
#[local] Hint Resolve fin_externalTask : fin.
Lemma fin_build_input build input : reply_nd build → fin (λ b, nd b.1.2) (build_input W E build input).
Proof.
  intros Hb. unfold build_input. destruct input; [by apply fin_ret|].
  eapply fin_bind; [by apply fin_invoke, fin_ret|]. intros [out [e|]] Hr; apply fin_ret; [done|].
  simpl. by destruct (executionSnapshot out).
Qed.
Lemma fin_fresh_attempt call aid p total build input st :
  reply_nd build → fin whatever (fresh_attempt W E call aid p total build input st).
Proof.
  intros Hb. unfold fresh_attempt. do 2 (apply (fin_bind whatever); [fin_tac|intros ? _]).
  eapply fin_bind; [by apply fin_build_input|intros [built i] Hbuilt]. destruct (_ && _); [fin_tac|].
  apply (fin_bind reply_nd); [destruct (negb _); [fin_tac|by apply fin_ret]|intros r Hr].
  apply (fin_bind whatever); [fin_tac|intros _ _]. apply (fin_bind whatever); [by apply fin_finishBody|]. fin_tac.
Qed.
Lemma fin_inspect_unfinished {A} build input : reply_nd build → fin whatever (inspect_unfinished (A := A) W E build input).
Proof.
  intros Hb. unfold inspect_unfinished. eapply fin_bind; [by apply fin_build_input|intros i Hi].
  destruct i.1.2 as [e|]; fin_tac.
Qed.
Lemma fin_task_outcome call aid p start total build input st :
  reply_nd build → fin whatever (task_outcome W E call aid p start total build input st).
Proof. intros Hb. pose proof fin_fresh_attempt. pose proof @fin_inspect_unfinished. unfold task_outcome. fin_tac. Qed.
Definition task_attempt_ok (p : executionPolicy) (attempt : Z) (s s' : executionRun)
    (r : werr + reply * bool * option ExecutionSnapshot * taskDispatchState) : Prop :=
  match r with
  | inr (r, retry, _, _) => reply_nd r ∧ (retry = true → progress p attempt s s')
  | inl e => e ≠ Diverged
  end.
Lemma task_attempt_fin call id p total attempt rules handler build input st s :
  reply_nd build → (∀ rule e, e ≠ Diverged → fin caught_nd (handler rule e)) → calm s →
  wp (task_attempt W E call id p total attempt rules handler build input st)
    (λ s' r, calm s' ∧ forth s s' ∧ task_attempt_ok p attempt s s' r) s.
Proof.
  intros Hb Hh Hs. unfold task_attempt. apply wp_bind. eapply wp_mono.
  { apply (fin_record_event KAttempt); [fin_tac|done]. }
  intros s1 [e|start] (Hs1 & Hf1 & Hr1); [done|]. apply wp_bind.
  eapply wp_mono; [by apply fin_task_outcome|].
  intros s2 [e|[rec st']] (Hs2 & Hf2 & Hr2); [by split; [|split; [etrans|]]|]. apply wp_bind.
  eapply wp_mono; [apply handleFailure_fin; [apply nd_result|done|done]|].
  intros s3 [e|[r retry]] (Hs3 & Hf3 & Hr3).
  { split; [done|]. split; [by do 2 (etrans; [eassumption|])|done]. }
  unfold wp. cbn [mret exe_ret fst snd]. split; [done|]. split; [by do 2 (etrans; [eassumption|])|].
  destruct Hr3 as [? Hpr]. split; [done|]. intros Hretry. destruct (Hpr Hretry); [left|by right].
  apply forth_rest in Hf1, Hf2. lia.
Qed.
Lemma task_attempts_fin fuel call id p total attempt rules handler build input st s :
  enough fuel p attempt s → reply_nd build → (∀ rule e, e ≠ Diverged → fin caught_nd (handler rule e)) → calm s →
  wp (task_attempts W E fuel call id p total attempt rules handler build input st)
    (λ s' r, calm s' ∧ forth s s' ∧ result_ok reply_nd r) s.
Proof.
  intros Hen Hb Hh. revert attempt input st s Hen.
  induction fuel as [|fuel IH]; intros attempt input st s Hen Hs.
  { unfold enough in Hen. lia. }
  simpl. apply wp_bind. eapply wp_mono; [by apply task_attempt_fin|].
  intros s1 [e|[[[r retry] i] st']] (Hs1 & Hf1 & Hr); [done|]. destruct Hr as [Hr Hpr]. destruct retry; [|done].
  eapply wp_mono; [apply IH; [by eapply enough_next; [| |apply Hpr]|done]|].
  intros s2 r2 (? & ? & ?). split; [done|]. by split; [etrans|].
Qed.
Lemma fin_declare_task id call p : fin whatever (declare_task W E id call p).
Proof. unfold declare_task. fin_tac. Qed.
Lemma fin_run_task call rules handler build :
  reply_nd build → (∀ rule e, e ≠ Diverged → fin caught_nd (handler rule e)) →
  fin reply_nd (run_task W E call rules handler build).
Proof.
  intros Hb Hh. unfold run_task, current_deadline. apply fin_as_reply.
  apply (fin_bind whatever); [fin_tac|intros id _]. do 3 (apply (fin_bind whatever); [fin_tac|intros _ _]).
  apply (fin_bind whatever); [by apply fin_lift_error|intros p0 _].
  apply (fin_bind whatever); [apply fin_declare_task|intros [[entry call'] p'] _].
  apply (fin_bind whatever); [fin_tac|intros deadline _]. apply fin_fuelled. intros fuel s Hen Hs.
  by apply task_attempts_fin.
Qed.

(** *** Waits *)
Lemma fin_run_sleep d : fin reply_nd (run_sleep W E d).
Proof. unfold run_sleep, current_deadline. fin_tac. Qed.
Lemma fin_awaitJobsComplete ids : fin (λ r, nd r.2) (awaitJobsComplete W ids).
Proof.
  induction ids as [|id ids IH]; simpl; [by apply fin_ret|]. destruct (str_empty id); [by apply fin_ret|].
  apply (fin_bind (λ l, l ≠ JobLookupFailed Diverged)); [apply fin_asks; intros n; apply HW|].
  intros [|e|status data] Hl; [done| |].
  - apply fin_ret. simpl. intros [= ->]. done.
  - destruct (job_pending _); [by apply fin_ret|done].
Qed.
Lemma fin_suspendForJobs {A} (V : A → Prop) ids : fin V (suspendForJobs W E ids).
Proof. unfold suspendForJobs, current_deadline. fin_tac. Qed.
Lemma fin_run_await_jobs ids : fin reply_nd (run_await_jobs W E ids).
Proof.
  unfold run_await_jobs. apply fin_as_reply. do 4 (apply (fin_bind whatever); [fin_tac|intros ? _]).
  destruct a2 as [e|].
  { apply (fin_bind whatever); [fin_tac|intros r _]. apply fin_ret, nd_result. }
  destruct (st_replay E); [fin_tac|]. eapply fin_bind; [apply fin_awaitJobsComplete|intros [done_ waitErr] Hw].
  destruct (done_ || _); [|apply fin_suspendForJobs].
  apply (fin_bind whatever); [by apply fin_finishBody|intros r _]. apply fin_ret, nd_result.
Qed.
Lemma nd_wait_err w : nd (wait_err w).
Proof.
  unfold wait_err. destruct (wi_State w); try done. destruct (wi_Failure w) as [f|]; [|done].
  by destruct (String.eqb _ _).
Qed.
Lemma fin_dependencyResult r : fin reply_nd (dependencyResult r).
Proof.
  unfold dependencyResult. pose proof (nd_result r) as Hnd. destruct (resultData r) as [data [e|]]; simpl in Hnd.
  - apply fin_throw. by intros ->.
  - destruct (_ ≫= json_wait); [|fin_tac]. apply fin_ret, nd_wait_err.
Qed.
Lemma fin_suspendForDependencies {A} (V : A → Prop) w : fin V (suspendForDependencies W E w).
Proof. unfold suspendForDependencies. fin_tac. Qed.
Lemma fin_run_await_dependencies deps : fin reply_nd (run_await_dependencies W E deps).
Proof.
  unfold run_await_dependencies, current_deadline. apply fin_as_reply.
  apply (fin_bind whatever); [destruct (ValidateDependencies deps); fin_tac|intros _ _].
  destruct (bool_decide _); [by apply fin_ret|]. do 4 (apply (fin_bind whatever); [fin_tac|intros ? _]).
  destruct a2 as [e|].
  { apply (fin_bind whatever); [fin_tac|intros r _]. apply fin_dependencyResult. }
  destruct (st_replay E); [fin_tac|].
  apply (fin_bind (λ w, w ≠ WaitLookupFailed Diverged)); [apply fin_asks; intros n; apply HW|].
  intros w Hw. apply (fin_bind whatever); [fin_tac|intros deadline _].
  destruct w as [|e|w]; [apply fin_suspendForDependencies|by apply fin_throw; intros ->|].
  destruct (bool_decide _); [apply fin_suspendForDependencies|].
  apply (fin_bind whatever); [by apply fin_finishBody|intros r _]. apply fin_dependencyResult.
Qed.

(** ** Programs *)
Lemma fin_exec {R : Type} (p : prog R) (ok : R → Prop) : settled_prog ok p → fin ok (exec W E p).
Proof.
  revert ok. induction p as [R r|R call rules handle IHh build k IHk|R site opts rules handle IHh body IHb k IHk
    |R d k IHk|R ids k IHk|R deps k IHk]; intros ok Hp; simpl in *.
  - by apply fin_ret.
  - destruct Hp as (Hh & Hb & Hk). apply (fin_bind reply_nd); [|auto].
    apply fin_run_task; [done|]. intros rule e He. by apply IHh, Hh.
  - destruct Hp as (Hh & Hb & Hk). apply (fin_bind reply_nd); [|auto].
    apply fin_run_scope; [|by apply IHb]. intros rule e He. by apply IHh, Hh.
  - apply (fin_bind reply_nd); [apply fin_run_sleep|]. intros r Hr. by apply IHk, Hp.
  - apply (fin_bind reply_nd); [apply fin_run_await_jobs|]. intros r Hr. by apply IHk, Hp.
  - apply (fin_bind reply_nd); [apply fin_run_await_dependencies|]. intros r Hr. by apply IHk, Hp.
Qed.

(** ** The whole job *)
Context (h : JobHistory).
Lemma fin_complete e c : fin whatever (complete W e c).
Proof.
  unfold complete. apply (fin_bind whatever); [fin_tac|intros _ _].
  apply (fin_bind nd); [apply fin_asks; intros n; apply HW|]. intros [err|] He; [|fin_tac].
  apply fin_throw. by intros ->.
Qed.
#[local] Hint Resolve fin_complete : fin.
Lemma fin_failure e : e ≠ Diverged → fin reply_nd (completeExecutionFailure W e).
Proof.
  intros He. unfold completeExecutionFailure. apply (fin_bind whatever); [fin_tac|intros _ _].
  apply fin_ret. by intros [= ->].
Qed.
Lemma fin_recorded : fin reply_nd (recorded_outcome W E h).
Proof.
  unfold recorded_outcome, live_only. destruct (jh_Final h) as [f|]; [|fin_tac].
  apply (fin_bind whatever); [destruct (st_replay E); fin_tac|intros _ _]. apply fin_ret.
  by destruct (fc_Outcome f).
Qed.
Lemma fin_refuse e : e ≠ Diverged → fin reply_nd (refuse W E h e).
Proof.
  intros He. unfold refuse. destruct (bool_decide _); [apply fin_recorded|].
  destruct (st_replay E); [fin_tac|by apply fin_failure].
Qed.
Lemma fin_open_history s : ru_cursor s = 0 → calm s →
  wp (open_history W E) (λ s' r, calm s' ∧ result_ok whatever r) s.
Proof.
  intros Hc0 Hs. unfold open_history. apply wp_bind. unfold wp at 1. cbn [ask fst snd].
  destruct (head (ru_rest s)) as [e|].
  - destruct (bool_decide _); [|done]. unfold wp. simpl. by destruct Hs.
  - destruct (st_replay E); [done|].
    assert (fin whatever (appendLocked W E (header_record E) ≫= λ r, change (λ s, s <| ru_anchor := er_At r |>))) as Hf.
    { fin_tac. }
    eapply wp_mono; [by apply Hf|]. naive_solver.
Qed.
Lemma fin_goalAdmission : fin nd (goalAdmission W E).
Proof.
  assert (∀ w, fin nd (admit_goals W E w)) as Hadmit.
  { intros w. unfold admit_goals. apply (fin_bind whatever); [fin_tac|intros rec _].
    eapply fin_bind; [apply fin_as_reply, fin_dependencyResult|]. intros r Hr. by apply fin_ret. }
  unfold goalAdmission. apply (fin_bind whatever); [fin_tac|intros next _].
  destruct (recorded_at _ _ _); [apply Hadmit|]. destruct (_ || _); [by apply fin_ret|].
  apply (fin_bind (λ w, w ≠ WaitLookupFailed Diverged)); [apply fin_asks; intros n; apply HW|].
  intros [|e|w] Hw; [by apply fin_ret|by apply fin_throw; intros ->|].
  destruct (bool_decide _); [fin_tac|apply Hadmit].
Qed.
Lemma fin_checkPrerequisites l : fin whatever (checkPrerequisites W l).
Proof. induction l as [|[id c] l IH]; simpl; fin_tac. Qed.
#[local] Hint Resolve fin_checkPrerequisites : fin.
Lemma fin_admit_prerequisites : fin nd (admit_prerequisites W E h).
Proof.
  unfold admit_prerequisites. destruct (bool_decide _); [by apply fin_ret|].
  apply (fin_bind whatever); [fin_tac|intros rec _]. apply fin_ret, nd_result.
Qed.
Lemma fin_finish_job r : reply_nd r → fin reply_nd (finish_job W E h r).
Proof.
  intros Hr. unfold finish_job. apply (fin_bind nd); [apply fin_ask; by intros s [_ ?]|]. intros [f|] Hf.
  - assert (f ≠ Diverged) by (by intros ->). destruct f as [|[]| | | | | | ]; try by apply fin_throw.
    destruct (st_replay E); [by apply fin_throw|by apply fin_failure].
  - apply (fin_bind whatever).
    { destruct r.2 as [e|] eqn:He; [|fin_tac]. apply fin_fail_if; [|done]. intros ->. by apply Hr. }
    intros _ _. apply (fin_bind whatever); [fin_tac|intros [e|] _]; [fin_tac|].
    destruct (bool_decide _).
    { eapply fin_bind; [apply fin_recorded|intros _ _]. by apply fin_ret. }
    destruct (st_replay E); [fin_tac|]. do 2 (apply (fin_bind whatever); [fin_tac|intros ? _]). by apply fin_ret.
Qed.
Lemma runExecution_fin worker events :
  (∀ input, settled_prog reply_nd (worker input)) →
  wp (runExecution W E h worker) (λ s' r, result_ok reply_nd r) (initial_run h events).
Proof.
  intros Hw. assert (calm (initial_run h events)) as Hs by by repeat constructor.
  unfold runExecution. apply wp_bind.
  eapply wp_mono with (Q := λ s1 r, calm s1 ∧ result_ok reply_nd r).
  2:{ intros s1 [e|r] [Hs1 Hr]; [done|]. assert (fin reply_nd (report_oversize W E r)) as Ho.
      { unfold report_oversize. destruct r.2 as [[| [ |[]| ] | | | | | | ]|]; try by apply fin_ret.
        destruct (st_replay E); [by apply fin_ret|]. by apply fin_as_reply, fin_failure. }
      eapply wp_mono; [by apply Ho|]. naive_solver. }
  apply wp_as_reply.
  eapply wp_mono with (Q := λ s1 r, calm s1 ∧ result_ok reply_nd r); [|intros s1 [e|r] [? Hr]; [split; [done|by intros [= ->]]|done]].
  assert (∀ {A} (V : A → Prop) (m : exe A) s, fin V m → calm s → wp m (λ s1 r, calm s1 ∧ result_ok V r) s) as Hfin.
  { intros A V m s Hm H1'. eapply wp_mono; [by apply Hm|]. naive_solver. }
  unfold execute. destruct (match jh_Final h with Some f => _ | None => false end).
  { apply Hfin; [apply fin_recorded|done]. }
  apply wp_bind. unfold wp at 1. destruct (executionSnapshot _) as [m|input]; [done|]. cbn [fst snd].
  apply wp_bind. eapply wp_mono; [by apply fin_open_history|]. intros s1 [e|[]] [Hs1 He]; [done|].
  apply Hfin; [|done]. eapply fin_bind; [apply fin_goalAdmission|]. intros [e|] Hnd.
  { apply fin_refuse. by intros ->. }
  eapply fin_bind; [apply fin_admit_prerequisites|]. intros [e|] Hnd2.
  { apply fin_refuse. by intros ->. }
  eapply fin_bind; [apply fin_run_scope; [|by apply fin_exec]|].
  { intros rule e0 Hne. by apply fin_ret. }
  intros r Hr. destruct (suspended_reply r); [by apply fin_ret|by apply fin_finish_job].
Qed.
End fuel.
