(* ===== verification/WfNames.v ===== *)
(** * WfNames: which paths an execution uses

    The calls of a callback use paths below the path of its context, every path is
    given out once, and so no attempt is executed twice: what [marks] a path is a record
    in the log, a run of a task worker, or a call that was given the path. *)

From S2P Require Import Prelude Types Json WfErrors WfHistory WfRun WfProgram WfMoves WfLog.

(** ** Marks *)
Inductive label := Rec (kind : record_kind) | Ran | Issued.
#[export] Instance label_eq_dec : EqDecision label.
Proof. solve_decision. Defined.
Abbreviation mark := (label * path)%type.

(** The attempts for which a task worker was run. *)
Fixpoint runs (l : list effect) : list path :=
  match l with
  | RunWorker id _ _ :: l => id :: runs l
  | _ :: l => runs l
  | [] => []
  end.
Lemma runs_app l1 l2 : runs (l1 ++ l2) = runs l1 ++ runs l2.
Proof. induction l1 as [|[] l1 IH]; simpl; [done|by try rewrite IH..]. Qed.
Lemma elem_of_runs id l : id ∈ runs l ↔ ∃ taskType input, RunWorker id taskType input ∈ l.
Proof.
  induction l as [|x l IH]; simpl; [set_solver|]. destruct x; rewrite ?elem_of_cons, IH; set_solver.
Qed.

Definition record_mark (r : ExecutionRecord) : mark := (Rec (er_Kind r), er_ID r).
Definition marked (s : executionRun) (x : mark) : Prop :=
  match x.1 with
  | Rec k => k ≠ KHeader ∧ x ∈ (record_mark <$> seen s)
  | Ran => x.2 ∈ runs (ru_trace s)
  | Issued => x.2 ∈ ru_issued s
  end.
(** Everything marked since is in [P]; a scope is declared under a path given out since,
    or one in [X]. *)
Record marks (P : mark → Prop) (s s' : executionRun) : Prop := mkMarks {
  mk_new : ∀ x, marked s' x → marked s x ∨ P x;
  mk_log : ∃ l, seen s' = seen s ++ l ∧ Forall (λ r, P (record_mark r)) l;
  mk_issued : ∀ id, marked s (Issued, id) → marked s' (Issued, id)
}.
Record claims (P : mark → Prop) (X : path → Prop) (s s' : executionRun) : Prop := mkClaims {
  cl_marks : marks P s s';
  cl_scopes : ∀ id, marked s' (Rec KScope, id) → marked s (Rec KScope, id) ∨ ¬ marked s (Issued, id) ∨ X id
}.
#[export] Instance marks_preorder P : PreOrder (marks P).
Proof.
  split.
  - intros s. split; [auto| |auto]. exists []. by rewrite app_nil_r.
  - intros s1 s2 s3 [M1 (l1 & L1 & F1) I1] [M2 (l2 & L2 & F2) I2]. split; [| |auto].
    + intros x Hx. destruct (M2 x Hx) as [?|?]; auto.
    + exists (l1 ++ l2). rewrite L2, L1, (assoc app). split; [done|by apply Forall_app].
Qed.
#[export] Instance claims_preorder P X : PreOrder (claims P X).
Proof.
  split; [split; [done|auto]|]. intros s1 s2 s3 [M1 S1] [M2 S2]. split; [by etrans|].
  destruct M1, M2. naive_solver.
Qed.
Lemma marks_mono (P P' : mark → Prop) s s' : marks P s s' → (∀ x, P x → P' x) → marks P' s s'.
Proof.
  intros [M (l & Hl & F) I] HP. split; [|exists l; split; [done|]|done];
    [|eapply Forall_impl; [exact F|]; auto].
  intros x Hx. destruct (M x Hx); auto.
Qed.
Lemma claims_mono (P P' : mark → Prop) (X X' : path → Prop) s s' :
  claims P X s s' → (∀ x, P x → P' x) → (∀ id, X id → X' id) → claims P' X' s s'.
Proof. intros [M S] HP HX. split; [by eapply marks_mono|]. intros id Hid. destruct (S id Hid) as [?|[?|?]]; auto. Qed.

(** No path is given out twice, no attempt is executed twice, and none is before the
    history has been consumed or when its result is recorded. *)
Record once (s : executionRun) : Prop := mkOnce {
  on_issued : NoDup (ru_issued s);
  on_runs : NoDup (runs (ru_trace s));
  on_ran : ∀ id, id ∈ runs (ru_trace s) →
    frontier s ∧ ∀ e, e ∈ ru_events s → er_Kind (ev_record e) = KResult → er_ID (ev_record e) ≠ id
}.
Lemma once_sticky s s' :
  sticky s s' → runs (ru_trace s') = runs (ru_trace s) → ru_issued s' = ru_issued s → once s → once s'.
Proof.
  intros K Hr Hi [A B C]. split; [by rewrite Hi|by rewrite Hr|]. intros id. rewrite Hr. intros Hid.
  destruct (C id Hid) as [Hf He]. split; [by eapply sticky_frontier|]. by rewrite (sk_events _ _ K).
Qed.

(** What the engine does on one context: no other context is touched in the end. *)
Definition good (s : executionRun) : Prop := coherent s ∧ once s.
Definition tame (C : relation executionRun) (s s' : executionRun) : Prop :=
  good s → good s' ∧ sticky s s' ∧ C s s' ∧ shape s' = shape s.
#[export] Instance tame_preorder C `{!PreOrder C} : PreOrder (tame C).
Proof.
  split; [by intros s|]. intros s1 s2 s3 H1 H2 Hg. destruct (H1 Hg) as (Hg2 & K1 & C1 & S1).
  destruct (H2 Hg2) as (Hg3 & K2 & C2 & S2). split; [done|]. split; [by etrans|]. split; [by etrans|congruence].
Qed.
(** The same behind the history. *)
Definition tame_behind (C : relation executionRun) (s s' : executionRun) : Prop := frontier s → tame C s s'.
#[export] Instance tame_behind_preorder C `{!PreOrder C} : PreOrder (tame_behind C).
Proof.
  split; [by intros s|]. intros s1 s2 s3 H1 H2 Hf Hg. destruct (H1 Hf Hg) as (Hg2 & K1 & C1 & S1).
  destruct (H2 (sticky_frontier _ _ K1 Hf) Hg2) as (Hg3 & K2 & C2 & S2).
  split; [done|]. split; [by etrans|]. split; [by etrans|congruence].
Qed.
Lemma steps_tame_behind {A} C (m : exe A) : steps (tame C) m → steps (tame_behind C) m.
Proof. intros Hm s _. apply Hm. Qed.
Lemma steps_tame_mono {A} (C C' : relation executionRun) (m : exe A) :
  steps (tame C) m → (∀ s s', C s s' → C' s s') → steps (tame C') m.
Proof. intros Hm HC s Hg. destruct (Hm s Hg) as (? & ? & ? & ?). split; [done|]. split; [done|]. split; auto. Qed.

(** *** What runs no worker *)
Definition unrun (s s' : executionRun) : Prop := runs (ru_trace s') = runs (ru_trace s).
#[export] Instance unrun_preorder : PreOrder unrun.
Proof. split; [done|]. intros s1 s2 s3 H1 H2. unfold unrun in *. congruence. Qed.

Section names.
Context `{BackoffMath} `{ExecutionText} `{FailureText} (W : World) (E : Settings).

Lemma unrun_asks {A} (f : nat → A) : steps unrun (asks f).
Proof. by intros s. Qed.
Lemma unrun_emit x : runs [x] = [] → steps unrun (emit x).
Proof. intros Hx s. unfold unrun. simpl. by rewrite runs_app, Hx, app_nil_r. Qed.
Lemma unrun_change f : (∀ s, ru_trace (f s) = ru_trace s) → steps unrun (change f).
Proof. intros Hf s. unfold unrun. simpl. by rewrite Hf. Qed.
Lemma unrun_observe : steps unrun (observe W).
Proof. by intros s. Qed.
Lemma unrun_controlLocked {A} c : steps unrun (controlLocked (A := A) c).
Proof. intros s. unfold controlLocked. by destruct (ru_fatal s). Qed.
Lemma unrun_suspend {A} : steps unrun (suspend (A := A)).
Proof. by intros s. Qed.
Lemma unrun_peek : steps unrun peek.
Proof. by intros s. Qed.
Hint Resolve unrun_asks unrun_observe unrun_controlLocked unrun_suspend unrun_peek : steps.
Hint Extern 2 (steps unrun (change _)) => by apply unrun_change : steps.
Hint Extern 2 (steps unrun (emit _)) => by apply unrun_emit : steps.
Lemma unrun_cause : steps unrun (cause W).
Proof. unfold cause. steps_tac. Qed.
Hint Resolve unrun_cause : steps.
Lemma unrun_check_cause : steps unrun (check_cause W).
Proof. unfold check_cause. steps_tac. Qed.
Hint Resolve unrun_check_cause : steps.
Lemma unrun_armLocked d : steps unrun (armLocked W d).
Proof. unfold armLocked, now. steps_tac. Qed.
Hint Resolve unrun_armLocked : steps.
Lemma unrun_arm_all ds : steps unrun (arm_all W ds).
Proof. induction ds as [|d ds IH]; simpl; steps_tac. Qed.
Hint Resolve unrun_arm_all : steps.
Lemma unrun_checkLocked : steps unrun (checkLocked W).
Proof. unfold checkLocked. steps_tac. Qed.
Hint Resolve unrun_checkLocked : steps.
Lemma unrun_liveLocked : steps unrun (liveLocked W E).
Proof. unfold liveLocked. steps_tac. Qed.
Lemma unrun_note_outcome r : steps unrun (note_outcome r).
Proof. unfold note_outcome. steps_tac. Qed.
Lemma unrun_note_wake r : steps unrun (note_wake r).
Proof. unfold note_wake. steps_tac. Qed.
Lemma unrun_default_at r : steps unrun (default_at W r).
Proof. unfold default_at, now. steps_tac. Qed.
Lemma unrun_put ch : steps unrun (put W ch).
Proof. unfold put. steps_tac. Qed.
Hint Resolve unrun_liveLocked unrun_note_outcome unrun_note_wake unrun_default_at unrun_put : steps.
Lemma unrun_appendLocked r : steps unrun (appendLocked W E r).
Proof. unfold appendLocked. steps_tac. Qed.
Hint Resolve unrun_appendLocked : steps.
Lemma unrun_activateLocked : steps unrun (activateLocked W E).
Proof. unfold activateLocked. steps_tac. Qed.
Hint Resolve unrun_activateLocked : steps.
Lemma unrun_recordEvent kind id build deferred :
  steps unrun build → steps unrun (recordEvent W E kind id build deferred).
Proof. intros Hb. unfold recordEvent, consume, mismatch, commit. steps_tac. Qed.
Lemma unrun_progressTime : steps unrun (progressTime W).
Proof. unfold progressTime, now. steps_tac. Qed.
Lemma unrun_checkInvocation : steps unrun (checkInvocation W E).
Proof. unfold checkInvocation, at_frontier. steps_tac. Qed.
Hint Resolve unrun_progressTime unrun_checkInvocation : steps.

(** *** What the parts of the engine mark *)
Lemma claims_same P X s s' :
  seen s' = seen s → runs (ru_trace s') = runs (ru_trace s) → ru_issued s' = ru_issued s → claims P X s s'.
Proof.
  intros Hs Hr Hi. assert (∀ x, marked s' x ↔ marked s x) as Hm.
  { intros [[k| |] id]; unfold marked; simpl; [by rewrite Hs|by rewrite Hr|by rewrite Hi]. }
  split; [split|]; [intros x; rewrite Hm; auto|exists []; by rewrite app_nil_r|intros x; rewrite Hm; auto..].
Qed.
Lemma tame_quiet {A} P X (m : exe A) : steps (safe quiet) m → steps unrun m → steps (tame (claims P X)) m.
Proof.
  intros Hq Hu s [Hc Ho]. destruct (Hq s Hc) as [Hc' [K Sh Se Is]]. specialize (Hu s).
  split; [split; [done|by eapply once_sticky]|]. split; [done|]. split; [by apply claims_same|done].
Qed.
Lemma tame_behind_quiet {A} P X (m : exe A) :
  steps (behind quiet) m → steps unrun m → steps (tame_behind (claims P X)) m.
Proof.
  intros Hq Hu s Hf [Hc Ho]. destruct (Hq s Hf Hc) as [Hc' [K Sh Se Is]]. specialize (Hu s).
  split; [split; [done|by eapply once_sticky]|]. split; [done|]. split; [by apply claims_same|done].
Qed.
Lemma recordEvent_marks kind id build deferred :
  kind ≠ KHeader → steps (safe quiet) build → steps unrun build →
  steps (tame (marks (eq (Rec kind, id)))) (recordEvent W E kind id build deferred).
Proof.
  intros Hkind Hb Hub s [Hc Ho].
  destruct (recordEvent_moves W E kind id build deferred s Hkind Hb Hc) as (Hc' & K & Sh & Is & Hres).
  pose proof (unrun_recordEvent kind id build deferred Hub s) as Hu. unfold unrun in Hu.
  destruct (recordEvent W E kind id build deferred s) as [s' res]. simpl in *.
  split; [split; [done|by eapply once_sticky]|]. split; [done|]. split; [|done].
  split; [| |by intros i; unfold marked; simpl; rewrite Is].
  2:{ destruct res as [e|r]; [exists []; by rewrite app_nil_r|]. destruct Hres as (<- & <- & [Hs|[_ Hs]]).
      - exists (norm <$> vis [r]). split; [done|]. rewrite vis_one. destruct (visible r); [|by constructor].
        apply Forall_singleton. unfold record_mark. by rewrite norm_kind, norm_id.
      - exists []. by rewrite app_nil_r. }
  intros [[k| |] i]; unfold marked; simpl; [|rewrite Hu; auto|rewrite Is; auto].
  intros [Hnh Hin]. destruct res as [e|r]; [rewrite Hres in Hin; auto|]. destruct Hres as (<- & <- & [Hs|[_ Hs]]); [|rewrite Hs in Hin; auto].
  rewrite Hs, fmap_app, elem_of_app in Hin. destruct Hin as [Hin|Hin]; [auto|right].
  rewrite vis_one in Hin. destruct (visible r); [|by apply elem_of_nil in Hin].
  apply list_elem_of_singleton in Hin. unfold record_mark in Hin. by rewrite norm_kind, norm_id in Hin.
Qed.
Lemma tame_recordEvent (P : mark → Prop) (X : path → Prop) kind id build deferred :
  kind ≠ KHeader → (kind = KScope → X id) → P (Rec kind, id) → steps (safe quiet) build → steps unrun build →
  steps (tame (claims P X)) (recordEvent W E kind id build deferred).
Proof.
  intros Hk Hs HP Hb Hub. eapply steps_tame_mono; [by apply recordEvent_marks|]. intros s s' Hm. split.
  - eapply marks_mono; [done|]. by intros x <-.
  - intros i Hi. apply Hm in Hi as [?|[= -> ->]]; auto.
Qed.
(** Provenance is no mark. *)
Lemma tame_invisible P X kind id build deferred :
  kind ∈ [KActivation; KCheckpoint; KDependencyBinding] → steps (safe quiet) build → steps unrun build →
  steps (tame (claims P X)) (recordEvent W E kind id build deferred).
Proof.
  intros Hkind Hb Hub s [Hc Ho]. assert (kind ≠ KHeader) as Hk by (intros ->; set_solver).
  destruct (recordEvent_moves W E kind id build deferred s Hk Hb Hc) as (Hc' & K & Sh & Is & Hres).
  pose proof (unrun_recordEvent kind id build deferred Hub s) as Hu.
  split; [split; [done|by eapply once_sticky]|]. split; [done|]. split; [|done].
  apply claims_same; [|done..]. destruct (recordEvent W E kind id build deferred s).2 as [e|r]; [done|].
  destruct Hres as (Hr & _ & [->|[_ ->]]); [|done]. rewrite vis_one. unfold visible. rewrite Hr.
  by rewrite (bool_decide_eq_true_2 _ Hkind), app_nil_r.
Qed.

(** *** Contexts *)
Lemma tame_contexts P X s l : good s →
  (Forall (λ c, cx_timer c = false) (ru_contexts s) → Forall (λ c, cx_timer c = false) l) →
  let s' := s <| ru_contexts := l |> in good s' ∧ sticky s s' ∧ claims P X s s'.
Proof.
  intros [Hc Ho] Ht s'. assert (sticky s s') as K by by split.
  split; [|split; [done|by apply claims_same]]. split; [|by eapply once_sticky].
  destruct Hc as [Hf Hti]. split; [done|]. intros Hl. apply Ht, Hti, Hl.
Qed.
Lemma child_spec P X id deadline total s : good s →
  ∃ s', child W id deadline total s = (s', inr tt) ∧ good s' ∧ sticky s s' ∧ claims P X s s' ∧
    shape s' = (id, ∅) :: shape s.
Proof.
  intros Hg. unfold child. set (c := new_child id deadline total (head (ru_contexts s))).
  destruct (tame_contexts P X s (c :: ru_contexts s) Hg) as (Hg1 & K1 & C1); [by intros; apply Forall_cons|].
  unfold mbind, exe_bind, change, ask. fold c. set (s1 := s <| ru_contexts := c :: ru_contexts s |>) in *.
  assert (shape s1 = (id, ∅) :: shape s) as Sh1 by done. destruct (ru_live s1) eqn:Hl; [|by exists s1].
  pose proof (quiet_armLocked W (depth s1) s1) as [K2 Sh2 Se2 Is2]. pose proof (unrun_armLocked (depth s1) s1) as U2.
  assert ((armLocked W (depth s1) s1).2 = inr tt) as Hr.
  { unfold armLocked, mbind, exe_bind, ask, now, asks, change. simpl. destruct (context_at _ _) as [cx|]; [|done].
    destruct (IsZero _); [done|]. by destruct (negb _). }
  destruct (armLocked W (depth s1) s1) as [s2 r]. simpl in *. subst r. exists s2. split; [done|].
  destruct Hg1 as [Hc1 Ho1]. split; [split; [by eapply coherent_live|by eapply once_sticky]|].
  split; [by etrans|]. split; [etrans; [exact C1|by apply claims_same]|congruence].
Qed.
Lemma close_spec P X s : good s →
  ∃ s', close s = (s', inr tt) ∧ good s' ∧ sticky s s' ∧ claims P X s s' ∧ shape s' = tail (shape s).
Proof.
  intros Hg. eexists. split; [done|]. destruct (tame_contexts P X s (tail (ru_contexts s)) Hg) as (? & ? & ?); [by intros []|].
  split; [done|]. split; [done|]. split; [done|]. unfold shape. simpl. by destruct (ru_contexts s).
Qed.
End names.
