(* ===== verification/WfCalls.v ===== *)
(** * WfCalls: every call marks the paths below its own

    The engine's calls, taken one after the other: a declaration, an attempt, a catch
    handler and a task worker mark paths below the path of their call, and a task worker
    is only run for an attempt that has neither been run nor answered before. *)

From S2P Require Import Prelude Types Json WfErrors WfHistory WfRun WfProgram WfMoves WfLog WfNames.

(** ** Paths *)
Definition below (id : path) (x : mark) : Prop := ∃ inner, x.2 = inner ++ id.
Definition calls_of (c : path) (x : mark) : Prop := ∃ kind site n, below (Occurrence kind site n :: c) x.

Lemma app_cons_eq {A} (l1 l2 : list A) a b c : l1 ++ a :: c = l2 ++ b :: c → a = b ∧ l1 = l2.
Proof.
  intros Heq. assert ((l1 ++ [a]) ++ c = (l2 ++ [b]) ++ c) as H2 by by rewrite <- !(assoc app).
  apply app_inv_tail, app_inj_tail in H2. naive_solver.
Qed.
Lemma app_self_eq {A} (l : list A) a c : c ≠ l ++ a :: c.
Proof. intros Heq. apply (f_equal length) in Heq. rewrite length_app in Heq. simpl in Heq. lia. Qed.
Lemma below_self l id : below id (l, id).
Proof. by exists []. Qed.
Lemma below_cons a id x : below (a :: id) x → below id x.
Proof. intros [inner Hx]. exists (inner ++ [a]). by rewrite Hx, <- (assoc app). Qed.
Lemma below_same a b id x : below (a :: id) x → below (b :: id) x → a = b.
Proof. intros [l1 H1] [l2 H2]. rewrite H1 in H2. by apply app_cons_eq in H2 as []. Qed.
Lemma below_not_self a id x : below (a :: id) x → x.2 ≠ id.
Proof. intros [l Hx] Hid. rewrite Hid in Hx. by apply app_self_eq in Hx. Qed.
Lemma calls_below c x : calls_of c x → below c x.
Proof. intros (k & st & n & Hb). by eapply below_cons. Qed.
Lemma call_calls kind site n c x : below (Occurrence kind site n :: c) x → calls_of c x.
Proof. by exists kind, site, n. Qed.
#[export] Hint Resolve below_self below_cons calls_below call_calls : steps.

(** Nothing is marked below a path, or only that it was given out. *)
Definition clear (id : path) (s : executionRun) : Prop := ∀ x, marked s x → ¬ below id x.
Definition sole (id : path) (s : executionRun) : Prop := ∀ x, marked s x → below id x → x = (Issued, id).
(** An attempt that has been neither executed nor answered. *)
Definition idle (aid : path) (s : executionRun) : Prop := ¬ marked s (Ran, aid) ∧ ¬ marked s (Rec KResult, aid).
Lemma clear_idle aid s : clear aid s → idle aid s.
Proof. intros Hc. split; intros Hm; by apply (Hc _ Hm), below_self. Qed.
Lemma clear_claims P X id s s' : claims P X s s' → (∀ x, P x → ¬ below id x) → clear id s → clear id s'.
Proof. intros [[Hm _] _] HP Hc x Hx. destruct (Hm x Hx); [by apply Hc|by apply HP]. Qed.

(** ** Steps from states with a property *)
Definition from (I : executionRun → Prop) (R : relation executionRun) (s s' : executionRun) : Prop := I s → R s s'.
Lemma steps_from {A} I R (m : exe A) : steps R m → steps (from I R) m.
Proof. intros Hm s _. apply Hm. Qed.
(** What is marked in the first part leaves the property alone. *)
Lemma from_bind {A B} I I' C C' (m : exe A) (k : A → exe B) :
  steps (from I (tame C)) m → (∀ s s', sticky s s' → C s s' → I s → I' s') → (∀ s s', C s s' → C' s s') → PreOrder C' →
  (∀ a, steps (from I' (tame C')) (k a)) → steps (from I (tame C')) (m ≫= k).
Proof.
  intros Hm HI HC HP Hk s Hs Hg. destruct (Hm s Hs Hg) as (Hg1 & K1 & C1 & Sh1).
  unfold mbind, exe_bind. destruct (m s) as [s1 [e|a]]; simpl in *; [auto|].
  destruct (Hk a s1 (HI _ _ K1 C1 Hs) Hg1) as (Hg2 & K2 & C2 & Sh2).
  split; [done|]. split; [by etrans|]. split; [etrans; [by apply HC|done]|congruence].
Qed.
Lemma from_mono {A} I (P P' : mark → Prop) X (m : exe A) :
  steps (from I (tame (claims P X))) m → (∀ x, P x → P' x) → steps (from I (tame (claims P' X))) m.
Proof.
  intros Hm HP s Hs Hg. destruct (Hm s Hs Hg) as (? & ? & ? & ?). split; [done|]. split; [done|]. split; [|done].
  by eapply claims_mono.
Qed.
Lemma from_tail {A B} I C (m : exe A) (k : A → exe B) : PreOrder C →
  steps (from I (tame C)) m → (∀ a, steps (tame C) (k a)) → steps (from I (tame C)) (m ≫= k).
Proof.
  intros HP Hm Hk s Hs Hg. destruct (Hm s Hs Hg) as (Hg1 & K1 & C1 & Sh1).
  unfold mbind, exe_bind. destruct (m s) as [s1 [e|a]]; simpl in *; [auto|].
  destruct (Hk a s1 Hg1) as (Hg2 & K2 & C2 & Sh2).
  split; [done|]. split; [by etrans|]. split; [by etrans|congruence].
Qed.

Abbreviation nothing := (claims (λ _, False) (λ _, False)).
Lemma nothing_claims P X s s' : nothing s s' → claims P X s s'.
Proof. intros Hn. by eapply claims_mono. Qed.

(** ** Reading ahead *)
Section parts.
Context `{BackoffMath} `{ExecutionText} `{FailureText} (W : World) (E : Settings) (P : mark → Prop) (X : path → Prop).
Abbreviation C := (claims P X).

Lemma from_peek {B} I I' (k : option event → exe B) :
  (∀ s s', sticky s s' → nothing s s' → I s → I' s') →
  (∀ e, steps (from I' (tame C)) (k (Some e))) → steps (from (λ s, frontier s ∧ I' s) (tame C)) (k None) →
  steps (from I (tame C)) (peek ≫= k).
Proof.
  intros HI Hs Hn s Hi Hg.
  destruct (tame_quiet (λ _, False) (λ _, False) peek (safe_peek) unrun_peek s Hg) as (Hg1 & K1 & C1 & Sh1).
  destruct (peek_spec s) as (s1 & next & Hp & _ & _ & _ & Hspec). unfold mbind, exe_bind. rewrite Hp in *. simpl in *.
  specialize (HI _ _ K1 C1 Hi). assert (tame C s1 (k next s1).1) as Hk by (destruct next; [by apply Hs|by apply Hn]).
  destruct (Hk Hg1) as (Hg2 & K2 & C2 & Sh2). split; [done|]. split; [by etrans|].
  split; [etrans; [by apply nothing_claims|done]|congruence].
Qed.
Lemma tame_peek {B} (k : option event → exe B) :
  (∀ e, steps (tame C) (k (Some e))) → steps (tame_behind C) (k None) → steps (tame C) (peek ≫= k).
Proof.
  intros Hs Hn s. apply (from_peek (λ _, True) (λ _, True)); [done|intros e s1 _; apply Hs| |done].
  intros s1 [Hf _]. by apply Hn.
Qed.
Lemma tame_peek_behind {B} (k : option event → exe B) :
  steps (tame_behind C) (k None) → steps (tame_behind C) (peek ≫= k).
Proof.
  intros Hn s Hf Hg.
  destruct (tame_quiet (λ _, False) (λ _, False) peek (safe_peek) unrun_peek s Hg) as (Hg1 & K1 & C1 & Sh1).
  destruct (peek_spec s) as (s1 & next & Hp & _ & _ & _ & Hspec). unfold mbind, exe_bind. rewrite Hp in *. simpl in *.
  assert (frontier s1) as Hf1 by by eapply sticky_frontier.
  destruct next as [e|]; [destruct Hspec as [_ []]; exact Hf1|]. destruct (Hn s1 Hf1 Hg1) as (Hg2 & K2 & C2 & Sh2).
  split; [done|]. split; [by etrans|]. split; [etrans; [by apply nothing_claims|done]|congruence].
Qed.
Lemma tame_at_frontier {B} (k : bool → exe B) :
  steps (tame C) (k false) → steps (tame_behind C) (k true) → steps (tame C) (at_frontier ≫= k).
Proof.
  intros Hs Hn s. change ((at_frontier ≫= k) s) with ((peek ≫= λ next, k (negb (bool_decide (is_Some next)))) s).
  by apply tame_peek.
Qed.
Lemma tame_at_frontier_behind {B} (k : bool → exe B) :
  steps (tame_behind C) (k true) → steps (tame_behind C) (at_frontier ≫= k).
Proof.
  intros Hn s. change ((at_frontier ≫= k) s) with ((peek ≫= λ next, k (negb (bool_decide (is_Some next)))) s).
  by apply tame_peek_behind.
Qed.

(** ** In a context of its own *)
Definition answers {A} (m : exe A) : Prop := ∀ s, ∃ a, (m s).2 = inr a.
Lemma answers_as_reply {A} (fn : exe (option A * option werr)) : answers (as_reply fn).
Proof. intros s. unfold as_reply. destruct (fn s) as [s1 [e|a]]; eauto. Qed.
Lemma answers_invoke {A} (fn : exe (option A * option werr)) : answers (invoke W E fn).
Proof. apply answers_as_reply. Qed.
(** The relation is that of the body: nothing else is marked. *)
Lemma within_from {A} I I' id deadline total (m : exe A) :
  answers m → (∀ s s', sticky s s' → nothing s s' → shape s' = (id, ∅) :: shape s → I s → I' s') →
  (∀ s, I' s → good s → good (m s).1 ∧ sticky s (m s).1 ∧ C s (m s).1 ∧ tail (shape (m s).1) = tail (shape s)) →
  steps (from I (tame C)) (child W id deadline total ;; a ← m; close ;; mret a).
Proof.
  intros Ha HI Hm s Hs Hg. unfold mbind, exe_bind.
  destruct (child_spec W (λ _, False) (λ _, False) id deadline total s Hg) as (s1 & -> & Hg1 & K1 & C1 & Sh1).
  destruct (Hm s1 (HI _ _ K1 C1 Sh1 Hs) Hg1) as (Hg2 & K2 & C2 & Sh2). destruct (Ha s1) as [a Hr].
  destruct (m s1) as [s2 r]. cbn [fst snd] in *. subst r.
  destruct (close_spec P X s2 Hg2) as (s3 & Hcl & Hg3 & K3 & C3 & Sh3). rewrite Hcl. simpl.
  split; [done|]. split; [by do 2 (etrans; [eassumption|])|].
  split; [etrans; [by apply nothing_claims|by etrans]|]. rewrite Sh3, Sh2, Sh1. done.
Qed.
End parts.
Lemma bind_inr {A B} (m : exe A) (k : A → exe B) s s1 a : m s = (s1, inr a) → (m ≫= k) s = k a s1.
Proof. unfold mbind, exe_bind. by intros ->. Qed.
Lemma bracket_assoc {A B} W id deadline total (m : exe A) (k : A → exe B) s :
  (child W id deadline total ;; a ← m; close ;; k a) s = ((child W id deadline total ;; a ← m; close ;; mret a) ≫= k) s.
Proof.
  unfold mbind, exe_bind. destruct (child W id deadline total s) as [s1 [e|[]]]; [done|].
  destruct (m s1) as [s2 [e|a]]; [done|]. by destruct (close s2) as [s3 [e|[]]].
Qed.
Lemma steps_eq {A} R (m m' : exe A) : (∀ s, m s = m' s) → steps R m' → steps R m.
Proof. intros Heq Hm s. rewrite Heq. apply Hm. Qed.

Lemma bracket_pre {A B} W id deadline total (u : exe ()) (m : exe A) (k : A → exe B) s :
  (child W id deadline total ;; u ;; a ← m; close ;; k a) s = (child W id deadline total ;; a ← (u ;; m); close ;; k a) s.
Proof.
  unfold mbind, exe_bind. destruct (child W id deadline total s) as [s1 [e|[]]]; [done|].
  by destruct (u s1) as [s2 [e|[]]].
Qed.

(** As [grow_tac]: reading ahead, and calls in contexts of their own. *)
Ltac tame_tac :=
  repeat first
    [ progress intros
    | match goal with
      | |- steps (tame _) (peek ≫= _) => apply tame_peek
      | |- steps (tame_behind _) (peek ≫= _) => apply tame_peek_behind
      | |- steps (tame _) (at_frontier ≫= _) => apply tame_at_frontier
      | |- steps (tame_behind _) (at_frontier ≫= _) => apply tame_at_frontier_behind
      end
    | solve [eauto with steps typeclass_instances nocore]
    | match goal with
      | |- steps (tame _) _ => apply tame_quiet; [solve [grow_tac]|solve [steps_tac]]
      | |- steps (tame_behind _) _ => apply steps_tame_behind, tame_quiet; [solve [grow_tac]|solve [steps_tac]]
      end
    | match goal with |- steps _ (as_reply _) => apply steps_as_reply end
    | match goal with |- steps _ (child _ _ _ _ ≫= _) => fail 1
      | |- steps _ (_ ≫= _) => apply steps_bind; [apply _| |] end
    | match goal with |- steps _ (match ?x with _ => _ end) => destruct x end
    | match goal with |- steps _ (let '(_, _) := ?x in _) => destruct x end ].

#[export] Hint Resolve unrun_asks unrun_observe unrun_controlLocked unrun_suspend unrun_peek unrun_cause unrun_check_cause
  unrun_armLocked unrun_arm_all unrun_checkLocked unrun_liveLocked unrun_note_outcome unrun_note_wake unrun_default_at
  unrun_put unrun_appendLocked unrun_activateLocked unrun_progressTime unrun_checkInvocation : steps.
#[export] Hint Extern 2 (steps unrun (change _)) => by apply unrun_change : steps.
#[export] Hint Extern 2 (steps unrun (emit _)) => by apply unrun_emit : steps.
#[export] Hint Resolve steps_tame_behind | 10 : steps.

Section calls.
Context `{BackoffMath} `{ExecutionText} `{FailureText} (W : World) (E : Settings) (P : mark → Prop) (X : path → Prop).
Abbreviation C := (claims P X).

#[local] Hint Resolve safe_checkInvocation : steps.
Lemma tame_ret {A} (a : A) : steps (tame C) (mret a).
Proof. apply steps_ret, _. Qed.
Lemma tame_controlLocked {A} c : steps (tame C) (controlLocked (A := A) c).
Proof. tame_tac. Qed.
Lemma tame_suspend {A} : steps (tame C) (suspend (A := A)).
Proof. tame_tac. Qed.
Lemma tame_current_deadline : steps (tame C) current_deadline.
Proof. unfold current_deadline. tame_tac. Qed.
Lemma tame_now : steps (tame C) (now W).
Proof. unfold now. tame_tac. Qed.
Lemma tame_liveLocked : steps (tame_behind C) (liveLocked W E).
Proof. apply tame_behind_quiet; [apply behind_liveLocked|steps_tac]. Qed.
Lemma tame_check_cause : steps (tame C) (check_cause W).
Proof. tame_tac. Qed.
Lemma tame_checkInvocation : steps (tame C) (checkInvocation W E).
Proof. tame_tac. Qed.
Lemma tame_progressTime : steps (tame C) (progressTime W).
Proof. tame_tac. Qed.
Hint Resolve tame_controlLocked tame_suspend tame_current_deadline tame_now tame_liveLocked tame_check_cause
  tame_checkInvocation tame_progressTime : steps.
Lemma tame_checkpointPath : steps (tame C) (checkpointPath W E).
Proof.
  unfold checkpointPath, current_id. tame_tac. apply tame_invisible; [set_solver|apply steps_ret, _..].
Qed.
Hint Resolve tame_checkpointPath : steps.
Lemma tame_record_event kind id build :
  kind ≠ KHeader → (kind = KScope → X id) → P (Rec kind, id) → steps (safe quiet) build → steps unrun build →
  steps (tame C) (record_event W E kind id build).
Proof. apply tame_recordEvent. Qed.
Lemma tame_reschedule r : steps (tame C) (reschedule W r).
Proof. unfold reschedule. tame_tac. Qed.
Hint Resolve tame_reschedule : steps.
Lemma tame_sleep_until wake : steps (tame C) (sleep_until W E wake).
Proof. unfold sleep_until. tame_tac. Qed.
Hint Resolve tame_sleep_until : steps.
Lemma tame_waitUntil wake total : steps (tame C) (waitUntil W E wake total).
Proof. unfold waitUntil. tame_tac. Qed.
Lemma tame_match_descriptor r d : steps (tame C) (match_descriptor r d).
Proof. unfold match_descriptor. tame_tac. Qed.
Lemma tame_selection_of v : steps (tame C) (selection_of v).
Proof. unfold selection_of. tame_tac. Qed.
Lemma unrun_before_limit total : steps unrun (before_limit W total).
Proof. unfold before_limit, now. steps_tac. Qed.
Hint Resolve unrun_before_limit : steps.
Lemma tame_before_limit total : steps (tame C) (before_limit W total).
Proof. tame_tac. Qed.
Lemma tame_invoke {A} (fn : exe (option A * option werr)) : steps (tame C) fn → steps (tame C) (invoke W E fn).
Proof. intros Hfn. unfold invoke. tame_tac. Qed.
Hint Resolve tame_waitUntil tame_match_descriptor tame_selection_of tame_before_limit tame_invoke : steps.
Lemma tame_finishOutcome kind id out bodyErr input deferred retry :
  kind ≠ KHeader → kind ≠ KScope → P (Rec kind, id) →
  steps (tame C) (finishOutcome W E kind id out bodyErr input deferred retry).
Proof.
  intros Hk Hs HP.
  assert (∀ r d, steps (tame C) (recordEvent W E kind id (mret r) d)) as Hrec.
  { intros r d. by apply tame_recordEvent; [..|apply steps_ret, _|apply steps_ret, _]. }
  assert (∀ r, steps (tame C) (record_event W E kind id (mret r))) as Hrec2 by (intros r; apply Hrec).
  unfold finishOutcome. tame_tac.
Qed.
Lemma tame_finishBody kind id out bodyErr input retry :
  kind ≠ KHeader → kind ≠ KScope → P (Rec kind, id) →
  steps (tame C) (finishBody W E kind id out bodyErr input retry).
Proof. apply tame_finishOutcome. Qed.
Lemma tame_within {A B} id deadline total (m : exe A) (k : A → exe B) :
  answers m → steps (tame C) m → (∀ a, steps (tame C) (k a)) →
  steps (tame C) (child W id deadline total ;; a ← m; close ;; k a).
Proof.
  intros Ha Hm Hk. eapply steps_eq; [apply bracket_assoc|]. apply steps_bind; [apply _| |done].
  intros s. apply (within_from W P X (λ _, True) (λ _, True)); [done|done| |done].
  intros s1 _ Hg1. destruct (Hm s1 Hg1) as (? & ? & ? & Sh). by rewrite Sh.
Qed.
Lemma tame_select_rule id total rules failure : steps (tame C) (select_rule W E id total rules failure).
Proof.
  unfold select_rule. tame_tac. apply steps_tame_behind, tame_within; [apply answers_invoke|tame_tac..].
Qed.
Lemma tame_build_input build input : steps (tame C) (build_input W E build input).
Proof. unfold build_input. tame_tac. Qed.
Hint Resolve tame_select_rule tame_build_input : steps.

(** ** Programs *)

(** A context has counted the calls that are marked below it. *)
Definition fits (c : path) (counts : gmap string Z) (s : executionRun) : Prop :=
  ∀ x kind site n, marked s x → below (Occurrence kind site n :: c) x →
    (n ≤ default 0 (counts !! (kind +:+ ":" +:+ site)))%Z.
(** What runs on a context marks new calls of it. *)
Definition counted (counts : gmap string Z) (kind site : string) : Z := default 0%Z (counts !! (kind +:+ ":" +:+ site)).
Definition calls_after (c : path) (counts : gmap string Z) (x : mark) : Prop :=
  ∃ kind site n, below (Occurrence kind site n :: c) x ∧ (counted counts kind site < n)%Z.
Definition later (counts counts' : gmap string Z) : Prop := ∀ kind site, (counted counts kind site <= counted counts' kind site)%Z.
Definition on {A} (c : path) (m : exe A) : Prop := ∀ s counts up,
  good s → shape s = (c, counts) :: up → fits c counts s →
  let s' := (m s).1 in
  good s' ∧ sticky s s' ∧ claims (calls_after c counts) (λ _, False) s s' ∧
  ∃ counts', shape s' = (c, counts') :: up ∧ fits c counts' s' ∧ later counts counts'.
Lemma later_refl counts : later counts counts.
Proof. intros kind site. lia. Qed.
Lemma later_trans a b c : later a b → later b c → later a c.
Proof. intros Hab Hbc kind site. specialize (Hab kind site). specialize (Hbc kind site). lia. Qed.
Lemma calls_after_later c counts counts' x : later counts counts' → calls_after c counts' x → calls_after c counts x.
Proof. intros Hl (k & st & n & Hb & Hn). exists k, st, n. split; [done|]. specialize (Hl k st). lia. Qed.
Lemma calls_after_of c counts x : calls_after c counts x → calls_of c x.
Proof. intros (k & st & n & Hb & _). by exists k, st, n. Qed.
End calls.
Section programs.
Context `{BackoffMath} `{ExecutionText} `{FailureText} (W : World) (E : Settings).

Lemma on_bind {A B} c (m : exe A) (k : A → exe B) : on c m → (∀ a, on c (k a)) → on c (m ≫= k).
Proof.
  intros Hm Hk s counts up Hg Sh Hf. destruct (Hm s counts up Hg Sh Hf) as (Hg1 & K1 & C1 & counts1 & Sh1 & Hf1 & Hl1).
  unfold mbind, exe_bind. destruct (m s) as [s1 [e|a]]; simpl in *; [by eauto 10|].
  destruct (Hk a s1 counts1 up Hg1 Sh1 Hf1) as (Hg2 & K2 & C2 & counts2 & Sh2 & Hf2 & Hl2).
  split; [done|]. split; [by etrans|]. split.
  - etrans; [exact C1|]. eapply claims_mono; [exact C2| |done]. intros x. by apply calls_after_later.
  - exists counts2. split; [done|]. split; [done|by eapply later_trans].
Qed.
Lemma on_as_reply {A} c (m : exe (option A * option werr)) : on c m → on c (as_reply m).
Proof.
  intros Hm s counts up Hg Sh Hf. specialize (Hm s counts up Hg Sh Hf). unfold as_reply.
  by destruct (m s) as [s1 [e|a]].
Qed.
Lemma on_tame {A} c (m : exe A) : steps (tame nothing) m → on c m.
Proof.
  intros Hm s counts up Hg Sh Hf. destruct (Hm s Hg) as (Hg1 & K1 & C1 & Sh1).
  split; [done|]. split; [done|]. split; [by apply nothing_claims|]. exists counts. rewrite Sh1. split; [done|].
  split; [|apply later_refl]. intros x kind site n Hx. destruct (mk_new _ _ _ (cl_marks _ _ _ _ C1) x Hx) as [Hx'|[]]. by apply Hf.
Qed.
Lemma on_invoke {A} c (fn : exe (option A * option werr)) : on c fn → on c (invoke W E fn).
Proof.
  intros Hfn. apply on_as_reply, on_bind; [apply on_tame, tame_checkInvocation|intros _].
  apply on_bind; [done|intros a]. apply on_bind; [apply on_tame, tame_checkInvocation|intros _].
  apply on_tame, tame_ret.
Qed.
(** A callback on a context of its own. *)
Lemma visit P X {A B} I I' id deadline total (m : exe A) (k : A → exe B) :
  answers m → on id m → (∀ s x, I s → marked s x → ¬ calls_of id x) → (∀ x, calls_of id x → P x) →
  (∀ s s', sticky s s' → claims (calls_of id) (λ _, False) s s' → I s → I' s') →
  (∀ a, steps (from I' (tame (claims P X))) (k a)) →
  steps (from I (tame (claims P X))) (child W id deadline total ;; a ← m; close ;; k a).
Proof.
  intros Ha Hm Hclear HP HI Hk. eapply steps_eq; [apply bracket_assoc|].
  apply (from_bind I I' (claims (calls_of id) (λ _, False))); [|done| |apply _|done].
  2:{ intros s1 s2 Hcl. by eapply claims_mono. }
  apply (within_from W _ _ I (λ s, (∃ up, shape s = (id, ∅) :: up) ∧ ∀ x, marked s x → ¬ calls_of id x)); [done|..].
  - intros s s' _ Hn Sh Hs. split; [eauto|]. intros x Hx.
    destruct (mk_new _ _ _ (cl_marks _ _ _ _ Hn) x Hx) as [?|[]]. by apply (Hclear s).
  - intros s [[up Sh] Hx] Hg. destruct (Hm s ∅ up Hg Sh) as (Hg1 & K1 & C1 & counts & Sh1 & _ & _).
    { intros x kind site n Hm1 Hb. exfalso. apply (Hx x Hm1). by exists kind, site, n. }
    split; [done|]. split; [done|]. split; [|by rewrite Sh, Sh1].
    eapply claims_mono; [exact C1| |done]. intros x. apply calls_after_of.
Qed.

(** *** Catching and retrying *)
Lemma unrun_now : steps unrun (now W).
Proof. apply unrun_asks. Qed.
#[local] Hint Resolve unrun_now unrun_before_limit : steps.
Lemma unrun_decision_record total p attempt st : steps unrun (decision_record W total p attempt st).
Proof. unfold decision_record. steps_tac. Qed.
#[local] Hint Resolve unrun_decision_record : steps.
Definition at_id (id : path) (x : mark) : Prop := x.2 = id.
(** No handler of this failure has made a call. *)
Definition uncaught (id : path) (s : executionRun) : Prop :=
  ∀ rule x, marked s x → ¬ calls_of (CatchSegment rule :: id) x.
Lemma uncaught_claims P X id s s' :
  (∀ rule x, P x → ¬ calls_of (CatchSegment rule :: id) x) → claims P X s s' → uncaught id s → uncaught id s'.
Proof. intros HP [[Hm _] _] Hu rule x Hx. destruct (Hm x Hx); [by apply Hu|by apply HP]. Qed.
Lemma at_id_uncaught id rule x : at_id id x → ¬ calls_of (CatchSegment rule :: id) x.
Proof. intros Hx Hc%calls_below. by eapply below_not_self. Qed.
Lemma at_id_below id x : at_id id x → below id x.
Proof. intros Hx. by exists []. Qed.

#[local] Hint Resolve tame_ret tame_controlLocked tame_suspend tame_current_deadline tame_now tame_liveLocked tame_check_cause
  tame_checkInvocation tame_progressTime tame_waitUntil tame_match_descriptor tame_selection_of tame_before_limit
  tame_select_rule tame_build_input : steps.
#[local] Hint Extern 2 (steps (tame (claims (below ?id) _)) (record_event _ _ _ ?id _)) =>
  apply tame_record_event; [done|done|by apply below_self|solve [grow_tac]|solve [steps_tac]] : steps.
#[local] Hint Extern 2 (steps (tame (claims (at_id ?id) _)) (record_event _ _ _ ?id _)) =>
  apply tame_record_event; [done|done|done|solve [grow_tac]|solve [steps_tac]] : steps.

(** Marks of an attempt that leave it unanswered. *)
Definition early (aid : path) (x : mark) : Prop := x.2 = aid ∧ x.1 ≠ Ran ∧ x.1 ≠ Rec KResult.
Lemma early_at aid x : early aid x → at_id aid x.
Proof. by intros []. Qed.
(** Marks of catching and retrying: of the attempt, but for its result, and of handlers. *)
Definition failure_marks (id : path) (x : mark) : Prop := early id x ∨ ∃ rule, calls_of (CatchSegment rule :: id) x.
Lemma failure_below id x : failure_marks id x → below id x.
Proof. intros [[Hx _]|[rule Hx]]; [by apply at_id_below|]. eapply below_cons, calls_below, Hx. Qed.
#[local] Hint Extern 2 (steps (tame (claims (failure_marks ?id) _)) (record_event _ _ _ ?id _)) =>
  apply tame_record_event; [done|done|by left|solve [grow_tac]|solve [steps_tac]] : steps.
#[local] Hint Extern 2 (steps (tame (claims (early ?id) _)) (record_event _ _ _ ?id _)) =>
  apply tame_record_event; [done|done|done|solve [grow_tac]|solve [steps_tac]] : steps.
Lemma at_id_claims id X s s' : claims (at_id id) X s s' → claims (below id) X s s'.
Proof. intros Hc. eapply claims_mono; [done|apply at_id_below|done]. Qed.

Section failure.
Context (id : path) (X : path → Prop).
Abbreviation C := (claims (failure_marks id) X).
Lemma early_failure s s' : claims (early id) X s s' → C s s'.
Proof. intros Hc. eapply claims_mono; [done|by left|done]. Qed.
Hint Resolve early_failure : core.
Lemma early_uncaught s s' : sticky s s' → claims (early id) X s s' → uncaught id s → uncaught id s'.
Proof. intros _. apply uncaught_claims. intros r x Hx. by apply at_id_uncaught, early_at. Qed.
(** A part that makes no calls comes first. *)
Lemma uncaught_bind {A B} (m : exe A) (k : A → exe B) :
  steps (tame (claims (early id) X)) m → (∀ a, steps (from (uncaught id) (tame C)) (k a)) →
  steps (from (uncaught id) (tame C)) (m ≫= k).
Proof.
  intros Hm Hk. eapply from_bind; [apply steps_from, Hm|apply early_uncaught|apply early_failure|apply _|done].
Qed.

Lemma from_handle_with total p rule handler bodyErr failure retryable :
  on (CatchSegment rule :: id) handler →
  steps (from (uncaught id) (tame C)) (handle_with W E id total p rule handler bodyErr failure retryable).
Proof.
  intros Hh. unfold handle_with.
  apply uncaught_bind; [apply tame_current_deadline|intros deadline].
  eapply (visit _ _ _ (λ _, True)); [apply answers_invoke| | | |done|].
  - apply on_invoke, on_bind; [done|intros c]. apply on_tame, tame_ret.
  - intros s x Hu. apply Hu.
  - intros x Hx. right. by exists rule.
  - intros h. apply steps_from. tame_tac.
Qed.
Lemma from_catch_failure total p rules handler out bodyErr retryable :
  (∀ rule e, on (CatchSegment rule :: id) (handler rule e)) →
  steps (from (uncaught id) (tame C)) (catch_failure W E id total p rules handler out bodyErr retryable).
Proof.
  intros Hh. unfold catch_failure.
  do 4 (apply uncaught_bind; [by tame_tac|intros ?]).
  destruct (str_empty _); [apply steps_from, tame_ret|].
  destruct (bool_decide _); [|apply steps_from, tame_controlLocked].
  apply from_tail; [apply _| |intros; apply tame_ret]. apply from_handle_with. auto.
Qed.
Lemma from_handleFailure total p rules handler attempt out bodyErr retryable :
  (∀ rule e, on (CatchSegment rule :: id) (handler rule e)) →
  steps (from (uncaught id) (tame C)) (handleFailure W E id total p rules handler attempt out bodyErr retryable).
Proof.
  intros Hh. unfold handleFailure. destruct bodyErr as [e|]; [|apply steps_from, tame_ret].
  destruct (_ && _); [apply steps_from, tame_ret|]. apply from_tail; [apply _|by apply from_catch_failure|].
  intros st. tame_tac.
Qed.
Lemma from_failure total p rules handler attempt out bodyErr retryable :
  (∀ rule e, on (CatchSegment rule :: id) (handler rule e)) →
  steps (from (uncaught id) (tame (claims (below id) X)))
    (handleFailure W E id total p rules handler attempt out bodyErr retryable).
Proof.
  intros Hh s Hs Hg. destruct (from_handleFailure total p rules handler attempt out bodyErr retryable Hh s Hs Hg)
    as (? & ? & Hc & ?). split; [done|]. split; [done|]. split; [|done].
  eapply claims_mono; [done|apply failure_below|done].
Qed.
End failure.

(** *** Calls *)

(** The path of the next call, and the state in which it has been given out. *)
Definition next_id (c : path) (counts : gmap string Z) (kind site : string) : path :=
  Occurrence kind site (default 0 (counts !! (kind +:+ ":" +:+ site)) + 1)%Z :: c.
Definition count (counts : gmap string Z) (kind site : string) : gmap string Z :=
  <[kind +:+ ":" +:+ site := (default 0 (counts !! (kind +:+ ":" +:+ site)) + 1)%Z]> counts.
Lemma later_count counts kind site : later counts (count counts kind site).
Proof.
  intros k st. unfold counted, count. destruct (decide (kind +:+ ":" +:+ site = k +:+ ":" +:+ st)) as [->|Hne].
  - rewrite lookup_insert_eq. simpl. lia.
  - by rewrite lookup_insert_ne.
Qed.
Lemma fits_next c counts kind site s x : fits c counts s → marked s x → ¬ below (next_id c counts kind site) x.
Proof. intros Hf Hx Hb. specialize (Hf x kind site _ Hx Hb). lia. Qed.
Lemma issue_spec c counts up kind site s :
  good s → shape s = (c, counts) :: up → fits c counts s →
  let id := next_id c counts kind site in
  ∃ s', (change_current (λ c, c <| cx_counts := <[kind +:+ ":" +:+ site := (default 0 (cx_counts c !! (kind +:+ ":" +:+ site)) + 1)%Z]> (cx_counts c) |>) ;;
     n ← ask (λ s, default 0%Z (head (ru_contexts s) ≫= λ c, cx_counts c !! (kind +:+ ":" +:+ site)));
     id ← current_id;
     change (λ s, s <| ru_issued := ru_issued s ++ [Occurrence kind site n :: id] |>) ;;
     mret (Occurrence kind site n :: id)) s = (s', inr id) ∧
    good s' ∧ sticky s s' ∧ shape s' = (c, count counts kind site) :: up ∧ seen s' = seen s ∧
    ∀ x, marked s' x ↔ marked s x ∨ x = (Issued, id).
Proof.
  intros [Hc Ho] Sh Hf id. unfold shape in Sh. destruct (ru_contexts s) as [|cx rest] eqn:Hcx; [done|].
  rewrite fmap_cons in Sh. injection Sh as Hid Hcounts Hup.
  unfold change_current, current_id, mbind, exe_bind, change, ask. simpl. rewrite Hcx. simpl. rewrite lookup_insert_eq, Hid, Hcounts. simpl.
  eexists. split; [done|].
  match goal with |- good ?x ∧ _ => set (s' := x) end. assert (sticky s s') as K by done.
  assert (id ∉ ru_issued s) as Hnew by (intros Hin; apply (fits_next _ _ kind site _ (Issued, id) Hf Hin), below_self).
  split; [split|].
  - destruct Hc as [Hfr Hti]. split; [done|]. intros Hl. specialize (Hti Hl). rewrite Hcx in Hti.
    apply Forall_cons in Hti as [??]. by apply Forall_cons.
  - destruct Ho as [A B D]. split; [|done|done]. apply NoDup_app. split; [done|]. split; [|apply NoDup_singleton].
    intros x Hx ->%list_elem_of_singleton. done.
  - split; [done|]. split; [unfold shape; simpl; by rewrite <- Hup|]. split; [done|].
    intros [[k| |] i]; unfold marked; simpl; [naive_solver..|].
    rewrite elem_of_app, list_elem_of_singleton. naive_solver.
Qed.
Lemma occurrence_bind {A} kind site (k : path → exe A) s :
  (occurrence W kind site ≫= k) s =
  match check_cause W s with
  | (s1, inl e) => (s1, inl e)
  | (s1, inr _) => if str_empty site then (s1, inl (failed "call site is required")) else
      match (change_current (λ c, c <| cx_counts := <[kind +:+ ":" +:+ site := (default 0 (cx_counts c !! (kind +:+ ":" +:+ site)) + 1)%Z]> (cx_counts c) |>) ;;
        n ← ask (λ s, default 0%Z (head (ru_contexts s) ≫= λ c, cx_counts c !! (kind +:+ ":" +:+ site)));
        id ← current_id;
        change (λ s, s <| ru_issued := ru_issued s ++ [Occurrence kind site n :: id] |>) ;;
        mret (Occurrence kind site n :: id)) s1 with
      | (s2, inl e) => (s2, inl e)
      | (s2, inr id) => k id s2
      end
  end.
Proof.
  unfold occurrence, mbind, exe_bind. destruct (check_cause W s) as [s1 [e|[]]]; [done|].
  unfold fail_if. by destruct (str_empty site).
Qed.
Lemma on_occurrence {A} c kind site (k : path → exe A) :
  (∀ n, let id := Occurrence kind site n :: c in steps (from (sole id) (tame (claims (below id) (eq id)))) (k id)) →
  on c (occurrence W kind site ≫= k).
Proof.
  intros Hk s counts up Hg Sh Hf. rewrite occurrence_bind.
  destruct (on_tame c (check_cause W) (tame_check_cause W _ _) s counts up Hg Sh Hf) as (Hg1 & K1 & C1 & counts1 & Sh1 & Hf1 & Hl1).
  destruct (check_cause W s) as [s1 [e|[]]]; cbn [fst snd] in *; [by eauto 10|].
  destruct (str_empty site); [by eauto 10|].
  destruct (issue_spec c counts1 up kind site s1 Hg1 Sh1 Hf1) as (s2 & Heq & Hg2 & K2 & Sh2 & Se2 & Hm2). rewrite Heq. clear Heq. set (id := next_id c counts1 kind site) in *.
  assert (sole id s2) as Hsole.
  { intros x [Hx|Hx]%Hm2 Hb; [|done]. by apply (fits_next _ _ _ _ _ _ Hf1) in Hb. }
  destruct (Hk _ s2 Hsole Hg2) as (Hg3 & K3 & [[M3 L3 I3] S3] & Sh3).
  assert (∀ x, marked (k id s2).1 x → marked s1 x ∨ below id x) as M.
  { intros x [[?|Hx]%Hm2|?]%M3; [by left| |by right]. right. rewrite Hx. apply below_self. }
  assert (∀ x, below id x → calls_after c counts x) as Hafter.
  { intros x Hb. eexists _, _, _. split; [exact Hb|]. specialize (Hl1 kind site). unfold counted in *. lia. }
  split; [done|]. split; [by do 2 (etrans; [eassumption|])|]. split.
  - etrans; [exact C1|]. split; [split|].
    + intros x [?|?]%M; [by left|right]. by apply Hafter.
    + destruct L3 as (l & Hl & F). exists l. split; [etrans; [exact Hl|by rewrite Se2]|]. eapply Forall_impl; [exact F|].
      intros r. apply Hafter.
    + intros i Hi. apply I3, Hm2. by left.
    + intros i Hi. destruct (S3 i Hi) as [[?|?]%Hm2|[Hn| <-]]; [by left|done|right; left|right; left].
      * intros Hi1. apply Hn, Hm2. by left.
      * intros Hi1. by apply (fits_next _ _ kind site _ _ Hf1 Hi1), below_self.
  - exists (count counts1 kind site). split; [etrans; [exact Sh3|exact Sh2]|]. split; [|eapply later_trans; [exact Hl1|apply later_count]].
    intros x k' st' n' [Hx|Hx]%M Hb.
    + specialize (Hf1 x k' st' n' Hx Hb). pose proof (later_count counts1 kind site k' st') as Hlc. unfold counted in *. lia.
    + pose proof (below_same _ _ _ _ Hb Hx) as [= -> -> ->]. unfold count. by rewrite lookup_insert_eq.
Qed.

(** *** Scopes *)
Definition attempt_id (id : path) (n : Z) : path := AttemptSegment n :: id.
(** No attempt from this one on has been made. *)
Definition unstarted (id : path) (n : Z) (s : executionRun) : Prop := ∀ m, (n ≤ m)%Z → clear (attempt_id id m) s.
Lemma sole_unstarted id s : sole id s → unstarted id 1 s.
Proof.
  intros Hs m _ x Hx Hb. rewrite (Hs x Hx (below_cons _ _ _ Hb)) in Hb. by apply below_not_self in Hb.
Qed.
Lemma unstarted_claims P X id n s s' :
  (∀ x m, P x → (n ≤ m)%Z → ¬ below (attempt_id id m) x) → claims P X s s' → unstarted id n s → unstarted id n s'.
Proof. intros HP Hc Hu m Hm. eapply clear_claims; [done| |by apply Hu]. auto. Qed.
Lemma at_id_attempt id m x : at_id id x → ¬ below (attempt_id id m) x.
Proof. intros Hx Hb. by eapply below_not_self. Qed.
Lemma unstarted_next id n X s s' :
  claims (below (attempt_id id n)) X s s' → unstarted id n s → unstarted id (n + 1) s'.
Proof.
  intros Hcl Hs. eapply unstarted_claims; [|done|]; [|intros m Hm; apply Hs; lia].
  intros x m Hx Hm Hb. pose proof (below_same _ _ _ _ Hx Hb) as [= ->]. lia.
Qed.
(** Declaring a call starts no attempt. *)
Lemma unstarted_bind id {A B} (m : exe A) (k : A → exe B) :
  steps (tame (claims (at_id id) (eq id))) m →
  (∀ a, steps (from (unstarted id 1) (tame (claims (below id) (eq id)))) (k a)) →
  steps (from (unstarted id 1) (tame (claims (below id) (eq id)))) (m ≫= k).
Proof.
  intros Hm Hk. eapply from_bind; [apply steps_from, Hm| |apply at_id_claims|apply _|done].
  intros s s' _. apply unstarted_claims. intros x m' Hx _. by apply at_id_attempt.
Qed.
Lemma unstarted_start id {A} C (m : exe A) : steps (from (unstarted id 1) C) m → steps (from (sole id) C) m.
Proof. intros Hm s Hs. by apply Hm, sole_unstarted. Qed.
Definition attempts_from (id : path) (n : Z) (x : mark) : Prop := ∃ m, (n ≤ m)%Z ∧ below (attempt_id id m) x.
Lemma attempts_below id n x : attempts_from id n x → below id x.
Proof. intros (m & _ & Hb). by apply below_cons in Hb. Qed.
Lemma attempts_next id n x : attempts_from id (n + 1) x → attempts_from id n x.
Proof. intros (m & Hm & Hb). exists m. split; [lia|done]. Qed.
Lemma attempt_first id n x : below (attempt_id id n) x → attempts_from id n x.
Proof. intros Hb. exists n. split; [lia|done]. Qed.
(** The next attempts come after this one. *)
Lemma attempts_bind id n X {A B} (m : exe A) (k : A → exe B) :
  steps (from (clear (attempt_id id n)) (tame (claims (below (attempt_id id n)) X))) m →
  (∀ a, steps (from (unstarted id (n + 1)) (tame (claims (attempts_from id (n + 1)) X))) (k a)) →
  steps (from (unstarted id n) (tame (claims (attempts_from id n) X))) (m ≫= k).
Proof.
  intros Hm Hk. eapply (from_bind _ (unstarted id (n + 1)) (claims (below (attempt_id id n)) X)).
  - intros s Hs. apply Hm, Hs. lia.
  - intros s s' _ Hcl Hs. by eapply unstarted_next.
  - intros s s' Hcl. eapply claims_mono; [done| |done]. intros x. apply attempt_first.
  - apply _.
  - intros a s Hs Hg. destruct (Hk a s Hs Hg) as (? & ? & Hc & ?). split; [done|]. split; [done|]. split; [|done].
    eapply claims_mono; [done|apply attempts_next|done].
Qed.
(** No call has been made in a context, nor by its handlers. *)
Definition uncalled (id : path) (s : executionRun) : Prop := (∀ x, marked s x → ¬ calls_of id x) ∧ uncaught id s.
Lemma clear_uncalled id s : clear id s → uncalled id s.
Proof.
  intros Hc. split; [intros x Hx Hb; by apply (Hc x Hx), calls_below|].
  intros rule x Hx Hb. apply (Hc x Hx). eapply below_cons, calls_below, Hb.
Qed.
Lemma uncalled_at_id X id s s' : claims (at_id id) X s s' → uncalled id s → uncalled id s'.
Proof.
  intros Hcl [Hc Hu]. split; [|eapply uncaught_claims; [|done..]; intros; by apply at_id_uncaught].
  intros x Hx Hb. destruct (mk_new _ _ _ (cl_marks _ _ _ _ Hcl) x Hx) as [?|Ha]; [by eapply Hc|].
  destruct Hb as (k & st & n & Hb). by apply (below_not_self _ _ _ Hb).
Qed.
Lemma calls_uncaught X id s s' : claims (calls_of id) X s s' → uncaught id s → uncaught id s'.
Proof.
  apply uncaught_claims. intros rule x (k & st & n & Hb) Hc%calls_below. by pose proof (below_same _ _ _ _ Hb Hc).
Qed.
Lemma on_change_current c f :
  (∀ cx, cx_id (f cx) = cx_id cx ∧ cx_counts (f cx) = cx_counts cx ∧ cx_timer (f cx) = cx_timer cx) →
  on c (change_current f).
Proof.
  intros Hf. apply on_tame. intros s Hg. unfold change_current, change. cbn [fst].
  destruct (tame_contexts (λ _, False) (λ _, False) s
    (match ru_contexts s with [] => [] | c :: l => f c :: l end) Hg) as (Hg1 & K1 & C1).
  { destruct (ru_contexts s) as [|cx l]; [done|]. intros [??]%Forall_cons. apply Forall_cons.
    by destruct (Hf cx) as (_ & _ & ->). }
  split; [done|]. split; [done|]. split; [done|]. unfold shape. simpl.
  destruct (ru_contexts s) as [|cx l]; [done|]. simpl. by destruct (Hf cx) as (-> & -> & _).
Qed.

Section scope.
Context (site : string) (id : path) (policy : executionPolicy) (significant : bool) (X : path → Prop)
  (rules : list CatchRule) (handler : string → werr → exe caught) (body : exe reply).
Context (Hbody : ∀ n, on (attempt_id id n) body)
  (Hhandler : ∀ n rule e, on (CatchSegment rule :: attempt_id id n) (handler rule e)).

Lemma from_scope_attempt total attempt :
  steps (from (clear (attempt_id id attempt)) (tame (claims (below (attempt_id id attempt)) X)))
    (scope_attempt W E site id policy significant total attempt rules handler body).
Proof.
  unfold scope_attempt. change (AttemptSegment attempt :: id) with (attempt_id id attempt). set (aid := attempt_id id attempt).
  assert (∀ s s', sticky s s' → claims (at_id aid) X s s' → uncalled aid s → uncalled aid s') as Hu.
  { intros s s' _. apply uncalled_at_id. }
  pose proof (at_id_claims aid X) as Hat.
  apply (from_bind (clear aid) (uncalled aid) (claims (at_id aid) X)); [apply steps_from; by tame_tac| |done|apply _|intros at_].
  { intros s s' K Hcl Hc. apply (Hu s s' K Hcl), clear_uncalled, Hc. }
  apply (from_bind (uncalled aid) (uncalled aid) (claims (at_id aid) X)); [apply steps_from; by tame_tac|done|done|apply _|intros start].
  eapply steps_eq; [apply bracket_pre|].
  eapply (visit _ _ _ (uncaught aid)); [|..|].
  - intros s. unfold mbind, exe_bind, change_current, change. apply answers_invoke.
  - apply on_bind; [by apply on_change_current|intros _]. apply on_invoke, Hbody.
  - intros s x [Hc _]. apply Hc.
  - apply calls_below.
  - intros s s' _ Hcl [_ Hc]. by eapply calls_uncaught.
  - intros r. assert (∀ s s', sticky s s' → claims (at_id aid) X s s' → uncaught aid s → uncaught aid s') as Hu'.
    { intros s s' _. apply uncaught_claims. intros rule x. apply at_id_uncaught. }
    apply (from_bind (uncaught aid) (uncaught aid) (claims (at_id aid) X));
      [apply steps_from, tame_quiet; auto with steps|done|done|apply _|intros next].
    destruct (_ || _).
    + apply (from_bind (uncaught aid) (uncaught aid) (claims (at_id aid) X));
        [by apply steps_from, tame_finishOutcome|done|done|apply _|intros rec].
      apply from_failure, Hhandler.
    + apply from_failure, Hhandler.
Qed.
Lemma from_scope_attempts fuel total attempt :
  steps (from (unstarted id attempt) (tame (claims (attempts_from id attempt) X)))
    (scope_attempts W E fuel site id policy significant total attempt rules handler body).
Proof.
  revert attempt. induction fuel as [|fuel IH]; intros attempt; simpl.
  { apply steps_from, steps_throw, _. }
  apply attempts_bind; [apply from_scope_attempt|]. intros r. destruct r.2; [apply IH|apply steps_from, tame_ret].
Qed.
End scope.
Lemma tame_declare_scope id policy significant :
  steps (tame (claims (at_id id) (eq id))) (declare_scope W E id policy significant).
Proof. unfold declare_scope. tame_tac. Qed.
Lemma on_run_scope c site opts rules handler body :
  (∀ c rule e, on c (handler rule e)) → (∀ c, on c body) → on c (run_scope W E site opts rules handler body).
Proof.
  intros Hh Hb. unfold run_scope, attempt_fuel. apply on_as_reply, on_occurrence. intros n id.
  apply (unstarted_start id). apply (unstarted_bind id); [by tame_tac|intros p].
  apply (unstarted_bind id); [apply tame_quiet; auto with steps|intros next].
  destruct (scope_policy site id p next) as [policy significant].
  apply (unstarted_bind id); [apply tame_declare_scope|intros [entry policy']].
  do 2 (apply (unstarted_bind id); [by tame_tac|intros ?]).
  eapply from_mono; [apply from_scope_attempts; auto|apply attempts_below].
Qed.

(** *** Tasks *)

Lemma idle_claims aid X s s' : claims (early aid) X s s' → idle aid s → idle aid s'.
Proof.
  intros [[Hm _] _] [Hi1 Hi2]. split; intros Hx; destruct (Hm _ Hx) as [?|(_ & Hr & Hs)]; done.
Qed.
Definition ready (aid : path) (s : executionRun) : Prop := frontier s ∧ idle aid s.
Lemma ready_claims aid X s s' : sticky s s' → claims (early aid) X s s' → ready aid s → ready aid s'.
Proof. intros K Hc [Hf Hi]. split; [by eapply sticky_frontier|by eapply idle_claims]. Qed.
Lemma early_claims aid X s s' : claims (early aid) X s s' → claims (at_id aid) X s s'.
Proof. intros Hc. eapply claims_mono; [done|apply early_at|done]. Qed.

(** Behind the history, a result that is recorded has been seen. *)
Lemma frontier_seen s e :
  frontier s → e ∈ ru_events s → visible (ev_record e) = true → er_Kind (ev_record e) ≠ KHeader →
  marked s (record_mark (ev_record e)).
Proof.
  intros Hf He Hv Hh. unfold marked, record_mark. simpl. split; [done|]. apply list_elem_of_fmap. exists (norm (ev_record e)).
  split; [unfold record_mark; by rewrite norm_kind, norm_id|]. apply list_elem_of_fmap. exists (ev_record e). split; [done|].
  assert (ev_record e ∈ vis (ev_record <$> ru_events s)) as Hin.
  { apply list_elem_of_filter. split; [done|]. by apply list_elem_of_fmap_2. }
  rewrite <- (take_drop (ru_cursor s) (ru_events s)), fmap_app, vis_app in Hin. unfold frontier, ru_rest in Hf.
  rewrite Hf, app_nil_r in Hin. rewrite vis_app. apply elem_of_app. by left.
Qed.
Lemma from_run_worker aid taskType input X :
  steps (from (ready aid) (tame (claims (at_id aid) X))) (emit (RunWorker aid taskType input)).
Proof.
  intros s [Hf [Hran Hres]] [Hc Ho]. unfold emit, change. cbn [fst].
  match goal with |- good ?x ∧ _ => set (s' := x) end.
  assert (runs (ru_trace s') = runs (ru_trace s) ++ [aid]) as Hruns by (subst s'; simpl; by rewrite runs_app).
  assert (sticky s s') as K.
  { split; try done. by exists [RunWorker aid taskType input]; rewrite Forall_singleton. }
  split; [split|split; [done|split; [|done]]].
  - destruct Hc as [A B]. split; [done|apply B].
  - destruct Ho as [A B D]. split; [done| |].
    + rewrite Hruns. apply NoDup_app. split; [done|]. split; [|apply NoDup_singleton].
      intros x Hx ->%list_elem_of_singleton. by apply Hran.
    + intros id. rewrite Hruns, elem_of_app, list_elem_of_singleton. intros [Hid| ->]; [by apply D|]. split; [done|].
      intros e He Hk Hid. apply Hres. rewrite <- Hid, <- Hk. apply (frontier_seen _ _ Hf He); [unfold visible|]; by rewrite Hk.
  - split; [split|].
    + intros [[k| |] i]; unfold marked; simpl; [auto| |auto].
      rewrite runs_app, elem_of_app. simpl. rewrite list_elem_of_singleton. naive_solver.
    + exists []. by rewrite app_nil_r.
    + done.
    + intros i Hi. by left.
Qed.
Lemma tame_activateLocked P X : steps (tame_behind (claims P X)) (activateLocked W E).
Proof.
  apply tame_behind_quiet; [|steps_tac]. intros s Hf Hc. split; [|apply quiet_activateLocked].
  unfold activateLocked. unfold mbind at 1, exe_bind at 1, ask. destruct (ru_activated s); [done|].
  assert (steps (behind sticky) (appendLocked W E (activation_record E) ;; change (λ s, s <| ru_activated := true |>)))
    as Ha.
  { apply steps_bind; [apply _|apply behind_append|intros _]. by apply behind_change. }
  by apply Ha.
Qed.
Lemma from_behind {A} aid C (m : exe A) : steps (tame_behind C) m → steps (from (ready aid) (tame C)) m.
Proof. intros Hm s [Hf _]. by apply Hm. Qed.
Lemma from_invokeTask aid taskType input X :
  steps (from (ready aid) (tame (claims (at_id aid) X))) (invokeTask W E aid taskType input).
Proof.
  assert (∀ s s', sticky s s' → nothing s s' → ready aid s → ready aid s') as Hr.
  { intros s s' K Hn. eapply (ready_claims aid X); [done|]. by apply nothing_claims. }
  assert (∀ (m : exe reply), steps (from (ready aid) (tame (claims (at_id aid) X))) m →
    steps (from (ready aid) (tame (claims (at_id aid) X))) (as_reply m)) as Hreply.
  { intros m Hm s. pose proof (Hm s) as Hs. unfold as_reply. by destruct (m s) as [s1 [e|a]]. }
  unfold invokeTask. apply Hreply.
  eapply from_bind; [apply from_behind, tame_liveLocked|exact Hr|apply nothing_claims|apply _|intros _].
  eapply from_bind; [apply from_behind, tame_activateLocked|exact Hr|apply nothing_claims|apply _|intros _].
  unfold invoke. apply Hreply.
  eapply from_bind; [apply steps_from, tame_checkInvocation|exact Hr|apply nothing_claims|apply _|intros _].
  apply from_tail; [apply _| |intros r; tame_tac].
  apply from_tail; [apply _|apply from_run_worker|intros _]. tame_tac.
Qed.

#[local] Hint Extern 2 (steps (tame (claims (at_id ?id) _)) (finishBody _ _ _ ?id _ _ _ _)) =>
  by apply tame_finishBody : steps.
#[local] Hint Resolve tame_reschedule tame_checkpointPath : steps.
Section attempt.
Context (aid : path) (X : path → Prop).
Abbreviation EC := (claims (early aid) X).
Abbreviation AC := (claims (at_id aid) X).

(** A part that leaves the attempt unanswered comes first. *)
Lemma ready_bind {A B} (m : exe A) (k : A → exe B) :
  steps (tame_behind EC) m → (∀ a, steps (from (ready aid) (tame AC)) (k a)) → steps (from (ready aid) (tame AC)) (m ≫= k).
Proof.
  intros Hm Hk. eapply from_bind; [apply from_behind, Hm|apply ready_claims|apply early_claims|apply _|done].
Qed.
Lemma idle_bind {A B} (m : exe A) (k : A → exe B) :
  steps (tame EC) m → (∀ a, steps (from (idle aid) (tame AC)) (k a)) → steps (from (idle aid) (tame AC)) (m ≫= k).
Proof.
  intros Hm Hk. eapply from_bind; [apply steps_from, Hm|intros s s' _; apply idle_claims|apply early_claims|apply _|done].
Qed.
Lemma idle_ready {A} (m : exe A) :
  steps (from (idle aid) (tame AC)) m → steps (from (ready aid) (tame AC)) m.
Proof. intros Hm s [_ Hi]. by apply Hm. Qed.
Lemma idle_peek {B} (k : option event → exe B) :
  (∀ e, steps (from (idle aid) (tame AC)) (k (Some e))) → steps (from (ready aid) (tame AC)) (k None) →
  steps (from (idle aid) (tame AC)) (peek ≫= k).
Proof. apply from_peek. intros s s' _ Hn. apply (idle_claims aid X), nothing_claims, Hn. Qed.

Lemma from_worker {B} deadline total taskType input (k : reply → exe B) :
  (∀ r, steps (tame AC) (k r)) →
  steps (from (ready aid) (tame AC))
    (child W aid deadline total ;; r ← invokeTask W E aid taskType input; close ;; k r).
Proof.
  intros Hk. eapply steps_eq; [apply bracket_assoc|]. apply from_tail; [apply _| |done].
  apply (within_from W _ _ _ (ready aid)); [apply answers_as_reply| |].
  - intros s s' K Hn _. by apply (ready_claims aid X s s' K), nothing_claims.
  - intros s Hs Hg. destruct (from_invokeTask aid taskType input X s Hs Hg) as (? & ? & ? & Sh). by rewrite Sh.
Qed.
Lemma from_execute_here call rec total taskType :
  steps (from (ready aid) (tame AC)) (execute_here W E call aid rec total taskType).
Proof. apply from_worker. intros r. tame_tac. Qed.
Lemma tame_acquired call st dispatched matching : steps (tame EC) (acquired W E call aid st dispatched matching).
Proof. unfold acquired. tame_tac. Qed.
Lemma unrun_wait_record call input deadline total st : steps unrun (wait_record W call input deadline total st).
Proof. unfold wait_record. steps_tac. Qed.
Lemma unrun_external_request call st deadline ordinal output hash :
  steps unrun (external_request W E call st deadline ordinal output hash).
Proof. unfold external_request. steps_tac. Qed.
Hint Resolve tame_acquired unrun_wait_record unrun_external_request : steps.
Lemma tame_dispatches fuel call st dispatched positions :
  steps (tame EC) (dispatches W E fuel call aid st dispatched positions).
Proof. revert st dispatched positions. induction fuel as [|fuel IH]; intros; simpl; tame_tac. Qed.
Hint Resolve tame_dispatches : steps.
Lemma from_unanswered call rec total ordinal st dispatched positions :
  steps (from (ready aid) (tame AC)) (unanswered W E call aid rec total ordinal st dispatched positions).
Proof.
  unfold unanswered. destruct (st_replay E); [apply steps_from, steps_throw, _|].
  apply ready_bind; [apply steps_tame_behind; by tame_tac|intros hash].
  apply ready_bind; [apply steps_tame_behind; by tame_tac|intros [st' execute]].
  apply ready_bind; [apply steps_tame_behind; by tame_tac|intros t].
  destruct (_ && _); [apply steps_from; tame_tac|]. destruct execute.
  - apply from_tail; [apply _|apply from_execute_here|intros r; tame_tac].
  - apply steps_from. tame_tac.
Qed.
Lemma from_externalTask call input deadline total st :
  steps (from (idle aid) (tame AC)) (externalTask W E call aid input deadline total st).
Proof.
  unfold externalTask. apply idle_bind; [by tame_tac|intros rec].
  do 3 (apply idle_bind; [by tame_tac|intros ?]). apply idle_bind; [by tame_tac|intros [[st' dispatched] positions]].
  destruct (negb _); [apply steps_from; tame_tac|]. apply idle_peek; [|apply from_unanswered].
  intros e. apply steps_from. tame_tac.
Qed.
(** A context that is left on two ways: at once, or after its worker. *)
Lemma ready_within {A B} deadline total (m : exe A) (k : A → exe B) :
  answers m → steps (tame nothing) m →
  (∀ a s, good s → ready aid s → ∀ up, shape s = (aid, ∅) :: up →
    let s' := (k a s).1 in good s' ∧ sticky s s' ∧ AC s s' ∧ shape s' = up) →
  steps (from (ready aid) (tame AC)) (child W aid deadline total ;; a ← m; k a).
Proof.
  intros Ha Hm Hk s Hs Hg.
  destruct (child_spec W (λ _, False) (λ _, False) aid deadline total s Hg) as (s1 & Hch & Hg1 & K1 & C1 & Sh1).
  unfold mbind, exe_bind. rewrite Hch. destruct (Hm s1 Hg1) as (Hg2 & K2 & C2 & Sh2). destruct (Ha s1) as [a Hr].
  destruct (m s1) as [s2 r]. cbn [fst snd] in *. subst r.
  assert (ready aid s2) as Hs2.
  { apply (ready_claims aid X s s2); [by etrans|apply nothing_claims; by etrans|done]. }
  destruct (Hk a s2 Hg2 Hs2 (shape s)) as (Hg3 & K3 & C3 & Sh3); [by rewrite Sh2|].
  split; [done|]. split; [by do 2 (etrans; [eassumption|])|]. split; [|done].
  do 2 (etrans; [by apply nothing_claims|]). done.
Qed.
Lemma close_then {B} (k : exe B) I s up :
  (∀ s1, sticky s s1 → nothing s s1 → I s1) → steps (from I (tame AC)) k → good s → shape s = (aid, ∅) :: up →
  let s' := (close ;; k : exe B) s in good s'.1 ∧ sticky s s'.1 ∧ AC s s'.1 ∧ shape s'.1 = up.
Proof.
  intros HI Hk Hg Sh. destruct (close_spec (λ _, False) (λ _, False) s Hg) as (s1 & Hcl & Hg1 & K1 & C1 & Sh1).
  unfold mbind, exe_bind. rewrite Hcl. destruct (Hk s1 (HI s1 K1 C1) Hg1) as (Hg2 & K2 & C2 & Sh2). cbv zeta.
  split; [done|]. split; [by etrans|]. split; [etrans; [by apply nothing_claims|done]|]. by rewrite Sh2, Sh1, Sh.
Qed.
Lemma answers_build_input build input : answers (build_input W E build input).
Proof.
  intros s. unfold build_input. destruct input; [by eexists|]. destruct (answers_invoke W E (mret build) s) as [r Hr].
  unfold mbind, exe_bind. destruct (invoke W E (mret build) s) as [s1 x]. simpl in Hr. subst x. by eexists.
Qed.
Lemma from_fresh_attempt call p total build input st :
  steps (from (ready aid) (tame AC)) (fresh_attempt W E call aid p total build input st).
Proof.
  unfold fresh_attempt. apply ready_bind; [apply steps_tame_behind; by tame_tac|intros at_].
  apply ready_within; [apply answers_build_input|apply tame_build_input|].
  intros [built input'] s Hg Hs up Sh. destruct (_ && _).
  - apply (close_then _ (idle aid)); [|apply from_externalTask|done|done].
    intros s1 _ Hn. by apply (idle_claims aid X s s1 (nothing_claims _ _ _ _ Hn)), Hs.
  - assert (∃ s1 r, (if negb (bool_decide (is_Some built.2)) then invokeTask W E aid (ds_taskType st) input' else mret built) s
        = (s1, inr r) ∧ good s1 ∧ sticky s s1 ∧ AC s s1 ∧ shape s1 = shape s) as (s1 & r & Hr & Hg1 & K1 & C1 & Sh1).
    { destruct (negb _); [|by exists s, built].
      destruct (from_invokeTask aid (ds_taskType st) input' X s Hs Hg) as (? & ? & ? & ?).
      destruct (answers_as_reply _ s : ∃ a, (invokeTask W E aid (ds_taskType st) input' s).2 = inr a) as [r Hr].
      destruct (invokeTask W E aid (ds_taskType st) input' s) as [s1 x]. simpl in *. subst x. by exists s1, r. }
    rewrite (bind_inr _ _ _ _ _ Hr).
    destruct (close_then (rec ← finishBody W E KResult aid r.1 r.2 input' (Some (xp_Retry p)); mret (rec, st))
      (λ _, True) s1 up) as (Hg2 & K2 & C2 & Sh2); [done|apply steps_from; tame_tac|done|by rewrite Sh1|].
    split; [done|]. split; [by etrans|]. split; [by etrans|done].
Qed.
Lemma tame_inspect_unfinished {A} build input : steps (tame AC) (inspect_unfinished (A := A) W E build input).
Proof. unfold inspect_unfinished. tame_tac. Qed.
Lemma from_task_outcome call p start total build input st :
  steps (from (idle aid) (tame AC)) (task_outcome W E call aid p start total build input st).
Proof.
  unfold task_outcome.
  assert (steps (tame AC) (r ← record_event W E KResult aid (mret empty_record); mret (r, st))) as Hres by tame_tac.
  apply idle_peek; [intros e|].
  - destruct (recorded_at KResult aid _); [apply steps_from, Hres|].
    destruct (recorded_at KWait aid _); [apply from_externalTask|].
    by apply steps_from, Hres.
  - simpl. destruct (st_replay E); [apply steps_from, tame_inspect_unfinished|apply from_fresh_attempt].
Qed.
End attempt.
Section task.
Context (id : path) (X : path → Prop) (rules : list CatchRule) (handler : string → werr → exe caught).
Context (Hhandler : ∀ n rule e, on (CatchSegment rule :: attempt_id id n) (handler rule e)).
Lemma from_task_attempt call p total attempt build input st :
  steps (from (clear (attempt_id id attempt)) (tame (claims (below (attempt_id id attempt)) X)))
    (task_attempt W E call id p total attempt rules handler build input st).
Proof.
  unfold task_attempt. change (AttemptSegment attempt :: id) with (attempt_id id attempt). set (aid := attempt_id id attempt).
  pose proof (at_id_claims aid X) as Hat.
  assert (∀ s s', sticky s s' → claims (at_id aid) X s s' → uncaught aid s → uncaught aid s') as Hu.
  { intros s s' _. apply uncaught_claims. intros rule x. apply at_id_uncaught. }
  apply (from_bind (clear aid) (λ s, uncaught aid s ∧ idle aid s) (claims (early aid) X)).
  - apply steps_from. tame_tac.
  - intros s s' K Hcl Hc. split; [|by eapply idle_claims, clear_idle].
    apply (Hu s s' K (early_claims _ _ _ _ Hcl)), (clear_uncalled _ _ Hc).
  - intros s s' Hcl. by apply Hat, early_claims.
  - apply _.
  - intros start. apply (from_bind _ (uncaught aid) (claims (at_id aid) X)); [|intros s s' K Hcl [Hs _]; by eapply Hu|done|apply _|].
    { intros s [_ Hi]. apply from_task_outcome, Hi. }
    intros [rec st']. apply from_tail; [apply _|apply from_failure, Hhandler|intros r; tame_tac].
Qed.
Lemma from_task_attempts fuel call p total attempt build input st :
  steps (from (unstarted id attempt) (tame (claims (attempts_from id attempt) X)))
    (task_attempts W E fuel call id p total attempt rules handler build input st).
Proof.
  revert attempt input st. induction fuel as [|fuel IH]; intros attempt input st; simpl.
  { apply steps_from, steps_throw, _. }
  apply attempts_bind; [apply from_task_attempt|]. intros [[r input'] st']. destruct r.2; [apply IH|apply steps_from, tame_ret].
Qed.
End task.
Lemma tame_declare_task id call p : steps (tame (claims (at_id id) (eq id))) (declare_task W E id call p).
Proof. unfold declare_task. tame_tac. Qed.
#[local] Hint Resolve tame_declare_task : steps.
Lemma on_run_task c call rules handler build :
  (∀ c rule e, on c (handler rule e)) → on c (run_task W E call rules handler build).
Proof.
  intros Hh. unfold run_task, attempt_fuel. apply on_as_reply, on_occurrence. intros n id.
  apply (unstarted_start id).
  do 4 (apply (unstarted_bind id); [by tame_tac|intros ?]).
  apply (unstarted_bind id); [by tame_tac|intros [[entry call'] p']].
  do 2 (apply (unstarted_bind id); [by tame_tac|intros ?]).
  eapply from_mono; [apply from_task_attempts; auto|apply attempts_below].
Qed.

(** *** Waits *)
Lemma on_whole c kind site {A} (k : path → exe A) :
  (∀ n, let id := Occurrence kind site n :: c in steps (tame (claims (below id) (eq id))) (k id)) →
  on c (occurrence W kind site ≫= k).
Proof. intros Hk. apply on_occurrence. intros n. apply steps_from, Hk. Qed.
Lemma on_run_sleep c d : on c (run_sleep W E d).
Proof. unfold run_sleep. apply on_as_reply, on_whole. intros n id. tame_tac. Qed.
Lemma unrun_awaitJobsComplete ids : steps unrun (awaitJobsComplete W ids).
Proof. induction ids as [|id ids IH]; simpl; steps_tac. Qed.
#[local] Hint Resolve unrun_awaitJobsComplete : steps.
Lemma tame_suspendForJobs {A} P X ids : steps (tame (claims P X)) (suspendForJobs (A := A) W E ids).
Proof. unfold suspendForJobs. tame_tac. Qed.
#[local] Hint Resolve tame_suspendForJobs : steps.
#[local] Hint Extern 2 (steps (tame (claims (below ?id) _)) (finishBody _ _ _ ?id _ _ _ _)) =>
  apply tame_finishBody; [done|done|apply below_self] : steps.
Lemma on_run_await_jobs c ids : on c (run_await_jobs W E ids).
Proof. unfold run_await_jobs. apply on_as_reply, on_whole. intros n id. tame_tac. Qed.
Lemma tame_dependencyResult P X r : steps (tame (claims P X)) (dependencyResult r).
Proof. unfold dependencyResult. tame_tac. Qed.
Lemma tame_suspendForDependencies {A} P X w : steps (tame (claims P X)) (suspendForDependencies (A := A) W E w).
Proof. unfold suspendForDependencies. tame_tac. Qed.
#[local] Hint Resolve tame_dependencyResult tame_suspendForDependencies : steps.
Lemma on_run_await_dependencies c deps : on c (run_await_dependencies W E deps).
Proof.
  unfold run_await_dependencies. apply on_as_reply, on_bind; [apply on_tame; by tame_tac|intros _].
  destruct (bool_decide _); [apply on_tame, tame_ret|]. apply on_whole. intros n id. tame_tac.
Qed.

(** ** Programs *)
Lemma on_exec {R} (p : prog R) : ∀ c, on c (exec W E p).
Proof.
  induction p as [R r|R call rules handle IHh build k IHk|R site opts rules handle IHh body IHb k IHk|R d k IHk
    |R ids k IHk|R deps k IHk]; intros c; simpl; [apply on_tame, tame_ret|..]; (apply on_bind; [|intros a; apply IHk]).
  - apply on_run_task. auto.
  - apply on_run_scope; auto.
  - apply on_run_sleep.
  - apply on_run_await_jobs.
  - apply on_run_await_dependencies.
Qed.
End programs.
