(* ===== verification/WfOnce.v ===== *)
(** * WfOnce: the paths of a whole job

    Admission, the body of a job and its completion: no path is given out twice, and no
    attempt is executed twice or although its result is recorded. *)

From S2P Require Import Prelude Types Json WfErrors WfHistory WfRun WfProgram WfMoves WfLog WfJob WfReadable WfJobLog WfNames WfCalls.

(** What comes after the body neither runs workers nor hands out paths. *)
Record over (s s' : executionRun) : Prop := mkOver {
  ov_events : ru_events s' = ru_events s;
  ov_cursor : ru_cursor s ≤ ru_cursor s';
  ov_runs : runs (ru_trace s') = runs (ru_trace s);
  ov_issued : ru_issued s' = ru_issued s
}.
#[export] Instance over_preorder : PreOrder over.
Proof. split; [by intros s|]. intros s1 s2 s3 [] []. split; [congruence|lia|congruence..]. Qed.
Lemma once_over s s' : over s s' → once s → once s'.
Proof.
  intros [He Hc Hr Hi] [A B D]. split; [by rewrite Hi|by rewrite Hr|]. intros id. rewrite Hr, He. intros Hid.
  destruct (D id Hid) as [Hf Hres]. split; [|done]. unfold frontier, ru_rest in *. rewrite He.
  replace (ru_cursor s') with (ru_cursor s + (ru_cursor s' - ru_cursor s)) by lia.
  rewrite <- drop_drop. set (l := drop (ru_cursor s) (ru_events s)) in *. set (n := ru_cursor s' - ru_cursor s).
  rewrite <- (take_drop n l), fmap_app, vis_app in Hf. by apply app_nil in Hf as [_ Hf].
Qed.

Section job.
Context `{BackoffMath} `{ExecutionText} `{FailureText} (W : World) (E : Settings) (h : JobHistory).
Context (events : list event).

Lemma over_emit x : runs [x] = [] → steps over (emit x).
Proof. intros Hx s. split; simpl; [done|done| |done]. by rewrite runs_app, Hx, app_nil_r. Qed.
Lemma over_asks {A} (f : nat → A) : steps over (asks f).
Proof. by intros s. Qed.
Lemma over_peek : steps over peek.
Proof. intros s. split; simpl; [done|lia|done..]. Qed.
#[local] Hint Resolve over_asks over_peek : steps.
#[local] Hint Extern 2 (steps over (emit _)) => by apply over_emit : steps.
Lemma over_complete e c : steps over (complete W e c).
Proof. unfold complete. steps_tac. Qed.
#[local] Hint Resolve over_complete : steps.
Lemma over_failure e : steps over (completeExecutionFailure W e).
Proof. unfold completeExecutionFailure. steps_tac. Qed.
Lemma over_recorded : steps over (recorded_outcome W E h).
Proof. unfold recorded_outcome, live_only. steps_tac. Qed.
#[local] Hint Resolve over_failure over_recorded : steps.
Lemma over_refuse e : steps over (refuse W E h e).
Proof. unfold refuse. steps_tac. Qed.
Lemma over_finish r : steps over (finish_job W E h r).
Proof. unfold finish_job. steps_tac. Qed.
Lemma over_oversize r : steps over (report_oversize W E r).
Proof. unfold report_oversize. steps_tac. Qed.

(** While a job is admitted and its body runs. *)
Definition entered (s : executionRun) : Prop :=
  ru_events s = events ∧ good s ∧ ∃ counts, shape s = [([], counts)] ∧ fits [] counts s.
Definition done_once (s : executionRun) : Prop := ru_events s = events ∧ once s.
Definition ends_once {A} (m : exe A) : Prop := ∀ s, entered s → done_once (m s).1.
Lemma entered_once s : entered s → done_once s.
Proof. by intros (? & [_ ?] & _). Qed.
Lemma done_over s s' : over s s' → done_once s → done_once s'.
Proof. intros Ho [He Hs]. split; [by rewrite (ov_events _ _ Ho)|by eapply once_over]. Qed.
Lemma ends_once_bind {A B} (m : exe A) (k : A → exe B) :
  (∀ s, entered s → entered (m s).1) → (∀ a, ends_once (k a)) → ends_once (m ≫= k).
Proof.
  intros Hm Hk s Hs. specialize (Hm s Hs). unfold mbind, exe_bind. destruct (m s) as [s1 [e|a]]; simpl in *; [by apply entered_once|].
  by apply Hk.
Qed.
Lemma ends_once_over {A} (m : exe A) : steps over m → ends_once m.
Proof. intros Hm s Hs%entered_once. by apply (done_over s); [apply Hm|]. Qed.
(** Records that are not those of calls. *)
Lemma entered_word name {A} (m : exe A) s :
  steps (tame (claims (at_id [Word name]) (λ _, False))) m → entered s → entered (m s).1.
Proof.
  intros Hm (He & Hg & counts & Sh & Hf). destruct (Hm s Hg) as (Hg1 & K & [[M _ _] _] & Sh1).
  split; [by rewrite (sk_events _ _ K)|]. split; [done|].
  exists counts. rewrite Sh1. split; [done|]. intros x kind site n Hx Hb. destruct (M x Hx) as [?|Ha]; [by eapply Hf|].
  unfold at_id in Ha. destruct Hb as [inner Hb]. rewrite Ha in Hb.
  destruct inner as [|y inner]; [done|]. injection Hb as _ Hb. by destruct inner.
Qed.
Lemma entered_goalAdmission s : entered s → entered (goalAdmission W E s).1.
Proof.
  apply (entered_word "$goal-dependencies"). unfold goalAdmission.
  assert (∀ w, steps (tame (claims (at_id goal_id) (λ _, False))) (admit_goals W E w)) as Hadmit.
  { intros w. unfold admit_goals. apply steps_bind; [apply _| |intros rec; tame_tac; apply (tame_dependencyResult W)].
    apply tame_record_event; [done|done|done|apply steps_ret, _..]. }
  change [Word "$goal-dependencies"] with goal_id. tame_tac.
Qed.
Lemma unrun_checkPrerequisites l : steps unrun (checkPrerequisites W l).
Proof. induction l as [|[id c] l IH]; simpl; steps_tac. Qed.
#[local] Hint Resolve safe_checkPrerequisites unrun_checkPrerequisites : steps.
Lemma entered_admit_prerequisites s : entered s → entered (admit_prerequisites W E h s).1.
Proof.
  apply (entered_word job_site). unfold admit_prerequisites. destruct (bool_decide _); [apply tame_ret|].
  apply steps_bind; [apply _| |intros rec; apply tame_ret].
  apply tame_record_event; [done|done|done|grow_tac|steps_tac].
Qed.
Lemma entered_body worker input s : entered s → entered (run_body W E h worker input s).1.
Proof.
  intros (He & Hg & counts & Sh & Hf).
  destruct (on_run_scope W E [] job_site (job_options h) [] (λ _ e, mret (inl e))
    (exec W E (worker (snapshotData (Some input)))) (λ c r e, on_tame c _ (tame_ret _ _ _)) (on_exec W E _)
    s counts [] Hg Sh Hf) as (Hg1 & K & _ & counts1 & Sh1 & Hf1 & _).
  split; [etrans; [exact (sk_events _ _ K)|done]|]. split; [done|]. by exists counts1.
Qed.
(** At the start only the header has been seen, which is no mark. *)
Lemma entered_start s :
  ru_events s = events → coherent s → ru_issued s = [] → runs (ru_trace s) = [] → shape s = [([], ∅)] →
  Forall (λ r, er_Kind r = KHeader) (seen s) → entered s.
Proof.
  intros He Hc Hi Hr Sh Hs. split; [done|]. split; [split; [done|]|exists ∅; split; [done|]].
  - split; [rewrite Hi; constructor|rewrite Hr; constructor|]. intros id. rewrite Hr. by intros ?%elem_of_nil.
  - intros [[k| |] i] kind site n; unfold marked; simpl.
    + intros [Hk (r & [= -> ->] & Hin)%list_elem_of_fmap]. rewrite Forall_forall in Hs. by destruct Hk; apply Hs.
    + rewrite Hr. by intros ?%elem_of_nil.
    + rewrite Hi. by intros ?%elem_of_nil.
Qed.
Lemma entered_open : entered (open_history W E (initial_run h events)).1.
Proof.
  set (s := initial_run h events). assert (ru_events s = events) as He by done.
  assert (coherent s) as Hc. { split; simpl; [by intros [?|[]]|]. intros _. by apply Forall_singleton. }
  assert (seen s = []) as Hs0 by done. assert (entered s) as Hs by by apply entered_start.
  unfold open_history. unfold mbind at 1, exe_bind at 1. unfold ask.
  change (ru_rest s) with (drop 0 events). rewrite drop_0. destruct (head events) as [e|] eqn:Hhead; simpl.
  - destruct (bool_decide _) eqn:Hk; [|done]. apply bool_decide_eq_true in Hk.
    apply entered_start; try done; simpl.
    + split; [by intros [?|[]]|]. intros _. by apply Forall_singleton.
    + destruct events as [|e' rest]; [done|]. injection Hhead as ->.
      unfold seen, consumed, committed. simpl. rewrite vis_one.
      destruct (visible _); [|by constructor]. apply Forall_singleton. by rewrite norm_kind.
  - destruct (st_replay E); [done|]. assert (frontier s) as Hfr by (by destruct events).
    destruct (behind_append W E (header_record E) s Hfr Hc) as [Hc1 K1].
    pose proof (appendLocked_moves W E (header_record E) s (or_intror (or_intror eq_refl))) as (_ & Sh1 & Is1 & Hr1).
    pose proof (unrun_appendLocked W E (header_record E) s) as U1. unfold unrun in U1.
    unfold mbind, exe_bind. destruct (appendLocked W E (header_record E) s) as [s1 [err|r]]; cbn [fst snd] in *.
    + apply entered_start; [exact (sk_events _ _ K1)|done|exact Is1|exact U1|exact Sh1|by rewrite Hr1, Hs0].
    + destruct Hr1 as (Hk & _ & Hs1).
      apply entered_start; [exact (sk_events _ _ K1)|destruct Hc1; by split|exact Is1|exact U1|exact Sh1|].
      change (Forall (λ r, er_Kind r = KHeader) (seen s1)). rewrite Hs1, Hs0, vis_one. simpl.
      destruct (visible r); [|by constructor]. apply Forall_singleton. by rewrite norm_kind.
Qed.

Lemma once_execution worker : done_once (runExecution W E h worker (initial_run h events)).1.
Proof.
  set (s := initial_run h events).
  assert (done_once s) as Hs.
  { split; [done|]. split; [constructor..|]. intros id Hid. by apply elem_of_nil in Hid. }
  assert (done_once (execute W E h worker s).1) as Hex.
  { unfold execute. destruct (match jh_Final h with Some f => _ | None => false end).
    { apply (done_over s); [apply over_recorded|done]. }
    unfold mbind at 1, exe_bind at 1. destruct (executionSnapshot _) as [m|input]; [done|]. simpl.
    pose proof entered_open as Ho. fold s in Ho. unfold mbind at 1, exe_bind at 1.
    destruct (open_history W E s) as [s1 [e|[]]]; cbn [fst] in *; [by apply entered_once|]. revert Ho. generalize s1.
    match goal with |- ∀ s, _ → done_once (?m s).1 => change (ends_once m) end.
    apply ends_once_bind; [apply entered_goalAdmission|]. intros [e|]; [apply ends_once_over, over_refuse|].
    apply ends_once_bind; [apply entered_admit_prerequisites|]. intros [e|]; [apply ends_once_over, over_refuse|].
    apply ends_once_bind; [apply entered_body|]. intros r. apply ends_once_over.
    destruct (suspended_reply r); [apply steps_ret, _|apply over_finish]. }
  unfold runExecution, as_reply, mbind, exe_bind. destruct (execute W E h worker s) as [s1 [e|r]]; simpl in *;
    (eapply done_over; [apply over_oversize|done]).
Qed.
End job.
