(* ===== verification/WfTheorems.v ===== *)
(** * WfTheorems: what the workflow engine promises

    For every program, history and world: histories stay readable, jobs are only
    completed successfully by executions that went well, and the loops of the engine
    end. *)

From S2P Require Import Prelude Types Json WfErrors WfHistory WfRun WfProgram WfMoves WfJob WfReadable WfJobLog WfFuel WfNames WfOnce.

Section workflow.
Context `{BackoffMath} `{ExecutionText} `{FailureText} (W : World) (E : Settings) (h : JobHistory) (worker : JobWorker).

Lemma run_job_load s r : run_job W E h worker = Some (s, r) → ∃ events, load h = Some events.
Proof. unfold run_job. destruct (load h) as [events|]; [eauto|done]. Qed.
Lemma load_final f : is_Some (load h) → jh_Final h = Some f → final_ok f = true.
Proof.
  intros [ev Hl] Hf. unfold load in Hl. destruct (_ && _) eqn:Hok in Hl; [|done].
  apply andb_true_iff in Hok as [_ Hok]. by rewrite Hf in Hok.
Qed.
(** What has been shown of the state an execution ends in. *)
Lemma run_job_settled s r : run_job W E h worker = Some (s, r) → settled h s.
Proof.
  intros Hrun. destruct (run_job_load _ _ Hrun) as [events Hl]. unfold run_job in Hrun. rewrite Hl in Hrun.
  set (E1 := E <| st_final := _ |>) in Hrun.
  assert (∀ f, jh_Final h = Some f → final_ok f = true) as Hfin by (intros f; apply load_final; by eexists).
  pose proof (settled_execution W E1 h Hfin events worker Hl) as Hs. unfold wp in Hs.
  destruct (runExecution W E1 h worker (initial_run h events)) as [s1 [e|a]]; by injection Hrun as -> _.
Qed.
(** [load] checks the records of the chapters and of the outcome. *)
Lemma load_chapters chapters final :
  is_Some (load h) → Forall (λ c, chapter_ok c = true) chapters → (∀ f, final = Some f → final_ok f = true) →
  is_Some (load (h <| jh_Chapters := jh_Chapters h ++ chapters |> <| jh_Final := final |>)).
Proof.
  intros [events Hl] Hc Hf. unfold load in *. simpl. rewrite forallb_app.
  destruct (forallb chapter_ok (jh_Chapters h)); [|done]. simpl.
  assert (forallb chapter_ok chapters = true) as ->.
  { apply forallb_forall. intros c Hin%list_elem_of_In. rewrite Forall_forall in Hc. by apply Hc. }
  destruct final as [f|]; simpl; [|by eexists]. specialize (Hf f eq_refl). unfold final_ok in Hf. rewrite Hf. by eexists.
Qed.

(** C5. Whatever a program, its workers and the storage do,
    the chapters an execution appends can be loaded together with those before them,
    and so can the outcome it completes the job with: a crash at any moment leaves a
    history from which the job can be taken up again. *)
Theorem history_stays_readable s r :
  run_job W E h worker = Some (s, r) →
  is_Some (load (h <| jh_Chapters := jh_Chapters h ++ ru_written s |> <| jh_Final := None |>)) ∧
  ∀ status detail f, Complete status detail f ∈ ru_trace s →
    is_Some (load (h <| jh_Chapters := jh_Chapters h ++ ru_written s |> <| jh_Final := Some f |>)).
Proof.
  intros Hrun. pose proof (run_job_settled _ _ Hrun) as [(_ & Hw & _) Ht].
  destruct (run_job_load _ _ Hrun) as [events Hl].
  split; [by apply load_chapters; [eexists| |]|]. intros status detail f Hin. rewrite Forall_forall in Ht.
  specialize (Ht _ Hin) as [Hok _]. apply load_chapters; [by eexists|done|]. by intros f' [= <-].
Qed.

(** C6. A job is completed successfully only with the outcome it
    already had, or by an execution in which no mismatch with the history and no failed
    write occurred, also not one whose error the program ignored, and which has consumed
    every record of the history; the records that still waited are committed with it. *)
Theorem success_is_honest s r detail f :
  run_job W E h worker = Some (s, r) → Complete "success" detail f ∈ ru_trace s →
  jh_Final h = Some f ∨
  ru_fatal s = None ∧ vis (ev_record <$> ru_rest s) = [] ∧ fc_Prefix f = stage_record <$> ru_pending s.
Proof.
  intros Hrun Hin. pose proof (run_job_settled _ _ Hrun) as [_ Ht]. rewrite Forall_forall in Ht.
  specialize (Ht _ Hin) as [_ Hh]. tauto.
Qed.

(** C8. The loops of retries and of recorded dispatches always end.
    Every execution of a readable history comes to an outcome that is not the model's
    [Diverged]: a program gets only finitely many attempts, whatever the history holds
    and whatever its policies ask for. *)
Theorem executions_end :
  settled_world W → (∀ input, settled_prog reply_nd (worker input)) → is_Some (load h) →
  ∃ s r, run_job W E h worker = Some (s, r) ∧ r.2 ≠ Some Diverged.
Proof.
  intros HW Hp [events Hl]. unfold run_job. rewrite Hl.
  pose proof (runExecution_fin W (E <| st_final := bool_decide (is_Some (jh_Final h)) |>) HW h worker events Hp) as Hr.
  unfold wp in Hr. destruct (runExecution _ _ _ _ _) as [s [e|r]]; eexists _, _; (split; [done|]); [|done].
  by intros [= ->].
Qed.

(** C7. No attempt of a task is executed twice: an execution gives out every path once,
    runs a worker at most once under each, and never for an attempt whose result the
    history holds, whatever the program does and wherever the last execution crashed;
    and it runs workers only when it has consumed the whole history. *)
Theorem workers_run_once s r events :
  run_job W E h worker = Some (s, r) → load h = Some events →
  NoDup (ru_issued s) ∧ NoDup (runs (ru_trace s)) ∧
  ∀ id taskType input, RunWorker id taskType input ∈ ru_trace s →
    vis (ev_record <$> drop (ru_cursor s) events) = [] ∧
    ∀ e, e ∈ events → er_Kind (ev_record e) = KResult → er_ID (ev_record e) ≠ id.
Proof.
  intros Hrun Hl. unfold run_job in Hrun. rewrite Hl in Hrun. set (E1 := E <| st_final := _ |>) in Hrun.
  pose proof (once_execution W E1 h events worker) as Ho.
  assert ((runExecution W E1 h worker (initial_run h events)).1 = s) as Hs.
  { destruct (runExecution _ _ _ _ _) as [s1 [e|a]]; by injection Hrun as -> _. }
  rewrite Hs in Ho. destruct Ho as [<- [Hi Hr Hran]]. split; [done|]. split; [done|].
  intros id ty input Hin. apply Hran, elem_of_runs. eauto.
Qed.
End workflow.
