(* ===== verification/WfScenario.v ===== *)
(** * WfScenario: one workflow, executed and replayed

    Concrete texts, a world that answers every question, and a workflow that runs a
    task, a scope that fails twice and is handled, and a sleep. *)

From S2P Require Import Prelude Types Json WfErrors WfHistory WfRun WfProgram WfMoves WfJob WfReadable WfJobLog WfFuel WfNames WfOnce WfTheorems.

(** ** Texts *)
#[export] Instance plain_failures : FailureText := {|
  failure_json _ := JNull; json_failure _ := None; duration_string _ := ""; ParseDuration _ := None
|}.
#[export] Instance plain_backoff : BackoffMath := λ base _ _, base.
#[export] Instance plain_execution : ExecutionText := {|
  wait_json w := JStr (wi_WaitID w); json_wait _ := None; payload_json _ := JNull; sha256_text s := s;
  ExecutionIdentity r := Some (spell (er_ID r))
|}.

(** ** The world: writes succeed, "bad" tasks fail, others return their input *)
Definition world : World := {|
  w_now n := (1000 + Z.of_nat n)%Z; w_timers _ := []; w_order _ := []; w_root _ := None; w_slept _ := true;
  w_put _ _ := PutDone; w_reschedule _ _ := None; w_complete _ _ := None;
  w_worker _ _ ty input := if String.eqb ty "bad" then (None, Some (Failed (error_string "boom"))) else (input, None);
  w_job _ _ := JobMissing; w_wait _ _ := WaitMissing
|}.
Definition settings (replay : bool) : Settings :=
  mkSettings replay false (mkVersions ExecutionPatternVersion "v1" []) "act" "job" ["echo"; "bad"] 0 (mkRoute "job" "") None.

(** ** The workflow *)
Definition twice : RetryPolicy := mkRetryPolicy 0 (Finite 0 0) 0 2 [].
Definition call (site taskType : string) : TaskCall :=
  mkTaskCall site taskType 1 (Some JNull) (mkRunPolicy twice None None) None.
Definition text (s : string) : option TaskData := Some (mkTaskData (Some (JStr s)) []).
Definition run (site taskType input : string) {R} (k : reply → prog R) : prog R :=
  DoTask (call site taskType) [] (λ _ e, Return (inl e)) (text input, None) k.
Definition handler (rule : string) (e : werr) : prog caught :=
  run "h" "echo" "h" (λ r, Return (inr (mkCatchResult CatchHandled r.1 None))).
Definition workflow : JobWorker := λ input,
  run "a" "echo" "x" (λ r1,
  DoScope "s" (mkScopeOptions 0 0 (mkRetryPolicy 5 (Finite 1 0) 0 2 []) false) [mkCatchRule "r" (λ _, inr true)] handler
    (run "b" "bad" "y" (λ r, Return r))
    (λ r2, AwaitDuration 3 (λ _, Return (r2.1, None)))).
Definition new_job : JobHistory :=
  mkJobHistory 1 (mkTaskData (Some JNull) []) (mkRunPolicy (mkRetryPolicy 0 (Finite 0 0) 0 0 []) None None) [] [] None.

(** ** The execution *)
Definition ended : option (executionRun * reply) := Eval vm_compute in run_job world (settings false) new_job workflow.
Definition end_state : executionRun :=
  Eval vm_compute in match ended with Some (s, _) => s | None => initial_run new_job [] end.
Definition outcome : reply := Eval vm_compute in match ended with Some (_, r) => r | None => (None, None) end.
Lemma executed_run : run_job world (settings false) new_job workflow = Some (end_state, outcome).
Proof. vm_compute. reflexivity. Qed.
Lemma outcome_text : outcome = (text "h", None).
Proof. reflexivity. Qed.
Definition final : FinalChapter :=
  Eval vm_compute in match last (ru_trace end_state) with Some (Complete _ _ f) => f | _ => mkFinal [] (OutcomeOutput None []) end.
Lemma completed : Complete "success" "" final ∈ ru_trace end_state.
Proof. apply list_elem_of_In. vm_compute. tauto. Qed.
(** The tasks that were executed: the first one, twice the failing one of the scope,
    and the one of the handler. *)
Definition workers_run (s : executionRun) : list string :=
  omap (λ x, match x with RunWorker id _ _ => Some (spell id) | _ => None end) (ru_trace s).
Lemma tasks_run : length (workers_run end_state) = 4%nat.
Proof. vm_compute. reflexivity. Qed.

Lemma history_stays_readable_witness :
  run_job world (settings false) new_job workflow = Some (end_state, outcome) ∧
  is_Some (load (new_job <| jh_Chapters := ru_written end_state |> <| jh_Final := Some final |>)).
Proof.
  split; [exact executed_run|].
  exact (proj2 (history_stays_readable world (settings false) new_job workflow _ _ executed_run) _ _ _ completed).
Defined.
Lemma success_is_honest_witness :
  Complete "success" "" final ∈ ru_trace end_state ∧
  ru_fatal end_state = None ∧ vis (ev_record <$> ru_rest end_state) = [] ∧
  fc_Prefix final = stage_record <$> ru_pending end_state.
Proof.
  split; [exact completed|].
  destruct (success_is_honest world (settings false) new_job workflow _ _ _ _ executed_run completed) as [[=]|Hh].
  exact Hh.
Defined.

Lemma world_settled : settled_world world.
Proof. split; try done. intros n id ty input. simpl. by destruct (String.eqb ty "bad"). Qed.
Lemma handler_settled rule e : settled_prog caught_nd (handler rule e).
Proof. split; [by intros ??|]. split; [done|]. by intros r Hr. Qed.
Lemma workflow_settled input : settled_prog reply_nd (workflow input).
Proof.
  split; [by intros ??|]. split; [done|]. intros r1 Hr1.
  split; [intros; apply handler_settled|]. split; [|by intros r2 Hr2 e He].
  split; [by intros ??|]. split; [done|]. by intros r Hr.
Qed.
Lemma executions_end_witness :
  ∃ s r, run_job world (settings false) new_job workflow = Some (s, r) ∧ r.2 ≠ Some Diverged.
Proof.
  apply (executions_end world (settings false) new_job workflow world_settled workflow_settled).
  by eexists.
Defined.

(** *** Taking the job up after a crash *)
Definition crashed_job : JobHistory :=
  Eval vm_compute in new_job <| jh_Chapters := take 4 (ru_written end_state) |>.
Definition resumed : option (executionRun * reply) := Eval vm_compute in run_job world (settings false) crashed_job workflow.
Definition resumed_state : executionRun :=
  Eval vm_compute in match resumed with Some (s, _) => s | None => initial_run new_job [] end.
Definition crashed_events : list event := Eval vm_compute in default [] (load crashed_job).
Lemma resumed_run : run_job world (settings false) crashed_job workflow = Some (resumed_state, outcome).
Proof. vm_compute. reflexivity. Qed.
Lemma crashed_load : load crashed_job = Some crashed_events.
Proof. vm_compute. reflexivity. Qed.
(** Two of the four tasks are executed again. *)
Lemma resumed_tasks : workers_run resumed_state = drop 2 (workers_run end_state).
Proof. vm_compute. reflexivity. Qed.
Lemma workers_run_once_witness :
  run_job world (settings false) crashed_job workflow = Some (resumed_state, outcome) ∧
  runs (ru_trace resumed_state) ≠ [] ∧ NoDup (runs (ru_trace resumed_state)).
Proof.
  split; [exact resumed_run|]. split; [by vm_compute|].
  exact (proj1 (proj2 (workers_run_once world (settings false) crashed_job workflow _ _ _ resumed_run crashed_load))).
Defined.
